(* ===== verification/_CoqProject ===== *)
-Q . S2P
Prelude.v
Buffers.v
SyscallTable.v
Leb128.v
LoaderState.v
Rebase.v
Symbols.v
Binds.v
ChainedFixups.v
Segments.v
Patcher.v
SlowPath.v
PrefixPath.v
MachoDylib.v
Entry.v
Loader.v
Stack.v
Once.v
ShimCore.v
ShimSignal.v
ThreadLocal.v
ThreadSync.v
ShimExec.v
ShimFile.v
ShimIo.v
Termios.v
ShimNet.v
StdioPatch.v
Stdio.v
ShimProc.v
AttrList.v
ElfLookup.v
Sysctl.v
ShimLibc.v
ShimDir.v
Semaphores.v
Startup.v
CoreFoundation.v
PrefixInit.v
Jail.v
ShimMach.v
ShimMisc.v
SyscallNames.v
Watchdog.v
ThreadStart.v
CrashHandler.v
AddrInfo.v
Termcap.v
Flush.v
