(* ===== verification/Prelude.v ===== *)
(** * Mac-ify: a verification library

    Mac-ify runs macOS (Mach-O, x86-64) programs on Linux without emulating
    the processor.  The loader (src/src) maps the image of the program and of
    its dylibs, applies their fixups, resolves their imports against a shim
    library and the Linux libraries, rewrites the [syscall] instructions it
    finds, and jumps to the entry point; calls it could not rewrite in place
    trap into a SIGILL handler that translates numbers, arguments, signal
    masks and results; file names are rewritten into a prefix directory.

    This library models these parts as executable functions and proves what
    they do.  A C function becomes a function with explicit state; an access
    the C standard leaves undefined (outside a buffer, outside mapped memory,
    a shift by the width) is the result [Undef]; error codes are ordinary
    results.  Machine integers are [Z] with the wrap-around written out
    ([u32], [u64], [i32], [i64]); a file image is a list of bytes; memory is
    a finite map from addresses to bytes, which records what is mapped but
    not page protections.

    ** The files

    - Prelude.v: results ([res]), machine integers, bytes, buffers, memory, C
      strings, tactics, hint databases and the lemmas all files share.
    - Buffers.v: bounded writes to a buffer, strings as bytes, frames.
    - SyscallTable.v: src/src/syscall/syscall_table.c, flag_translation.c,
      syscall_internal.h: the number table, the argument flags and the
      translators of open, mmap, fcntl and madvise flags and of signals.
    - SyscallNames.v: src/src/syscall/syscall_names.c, the table of names.
    - Leb128.v: [read_uleb128], [read_sleb128] (src/src/fixups.c).
    - LoaderState.v: the records of src/src/macify.h and the global tables.
    - Rebase.v: [execute_rebases] (fixups.c) over abstract programs [rop].
    - Symbols.v: [resolve_symbol] (src/src/segments.c), [macho_dylib_lookup]
      (src/src/macho_dylib.c) and the unresolved-symbol report (fixups.c).
    - Binds.v: [execute_binds], [execute_lazy_binds] (fixups.c) over abstract
      programs [bop], against the class [Linker], which Symbols.v implements.
    - ChainedFixups.v: [execute_chained_fixups] (fixups.c) and
      [process_dylib_chained_fixups] (macho_dylib.c).
    - Segments.v: [map_segment], [find_section], [load_file] (segments.c),
      against the class [Pages] for mprotect and mmap.
    - Patcher.v: src/src/syscall/patcher.c.
    - SlowPath.v: src/src/syscall/sigill_handler.c, with the kernel as a
      parameter.
    - PrefixPath.v: [macify_get_prefix], [macify_translate_path] and
      [macify_should_hide_path] (src/src/prefix.c).
    - PrefixInit.v: [macify_init_prefix] (prefix.c): the directories, files
      and links of a prefix, over the class [HostFs] of file systems with the
      laws [FsLaws].
    - MachoDylib.v: [macho_load_dylib] (macho_dylib.c) with all its passes,
      against the class [System]; uses Rebase, Symbols, Binds, ChainedFixups
      and Segments.
    - Entry.v: the first part of [main] (src/src/main.c): options, guest paths
      and "#!" chains, the slice of a fat binary, the header checks.
    - Loader.v: the second part of [main]: slide, rpaths, preloaded libraries,
      the walk over the load commands, deferred dylibs, entry point and
      fixups; composes the interpreters, [map_segment] and
      [macho_load_dylib].
    - Stack.v: [setup_stack] (src/src/runtime.c), the stack the program
      starts on.
    - StdioPatch.v: the third part of [main]: the passes that rewrite the
      inlined stdio macros in the program's text.
    - Startup.v: the end of [main] and of runtime.c: functions that report
      stdio errors, the environ pointer, what the shim is told of the image,
      initializers, protections, the environment, the GS base of Go programs
      and the registers [main] of the program is called with.

    - Jail.v: src/src/jail.c, the launcher that runs the loader in a
      namespace of its own with the prefix as root: a program over system
      calls ([jail_call]) whose kernel is any function of the calls before.
    - Watchdog.v: src/src/watchdog.c, the timer that reports a hung program.
    - CrashHandler.v: the handlers of faults, the loader's
      (src/src/syscall/crash_handler.c) and the shim's
      (src/shim/signal/crash_handler.c).

    The shim library (src/shim) is what the program's imports resolve to:

    - Once.v: [pthread_once] (pthread/tls.c), the lazy initialisation of the
      tables of real functions ([MACIFY_LAZY_INIT], shim.h) and spin locks
      (pthread/core.c), as step relations over any number of threads.
    - ShimCore.v: shim_core.c: which callers are guest code, error numbers,
      paths on their way back to the guest, the program's own path.
    - ShimSignal.v: signal/: signal sets, numbers, masks, [sigaction],
      [signal], the wrappers for Go programs and SIGCHLD.
    - ThreadLocal.v: keys and values (pthread/tls.c) and the blocks of
      thread-local variables (shim_tlv.c).
    - ThreadSync.v: static mutexes, condition variables and read-write locks
      (pthread/sync.c), attributes (attr.c, mutexattr.c, create.c).
    - ThreadStart.v: what a new thread does before its routine (create.c).
    - AddrInfo.v: the blocks of the lists getaddrinfo hands out (io/net.c).
    - Flush.v: fflush, clone and wait4 (io/process.c).
    - Termcap.v: the terminal descriptions (shim_core.c).
    - ShimExec.v: shim_spawn.c: execve with script interpreters, the search
      of execvp, the child's arguments and environment, posix_spawn.
    - ShimFile.v: open flags (io/flags.c), the wrappers of the path calls,
      stat and readlink (io/file.c).
    - ShimIo.v: mmap, mprotect and munmap with the guard of the main stack,
      fcntl and record locks, sysconf, close, passwd records (io/flags.c,
      io/file.c).
    - Termios.v: tcgetattr and tcsetattr (io/file.c).
    - ShimNet.v: socket addresses and options, select, getaddrinfo, the
      resolver's configuration (io/net.c).
    - Stdio.v: the streams (io/process.c): glibc's FILE under the guest's
      macros, which write to other fields, with the table of saved pointers.
    - ShimProc.v: read, fopen, exec with argument lists, system, popen and
      pclose (io/process.c).
    - AttrList.v: getattrlist and fgetattrlist (io/attrlist.c).
    - ElfLookup.v: the lookup of libc's symbols in its ELF tables, dlopen,
      dlsym, dlclose and dladdr (io/dl.c).
    - Sysctl.v: sysctl, sysctlbyname and uname (misc/sysctl.c).
    - ShimLibc.v: string functions, rune tables, regular expressions
      (misc/string.c, rune.c, regex.c) and strmode (sys/fs.c).
    - ShimDir.v: directory entries (io/dirent.c), glob (io/glob.c), statfs,
      mounts and random bytes (sys/random.c).
    - Semaphores.v: Mach semaphores (sys/dispatch.c), as a step relation.
    - CoreFoundation.v: strings, arrays, dictionaries and data on a heap, the
      dynamic store and the two releases (misc/cf.c).
    - ShimMach.v: times, memory, host statistics, processors and processes
      (shim_mach.c).
    - ShimMisc.v: locales, exit, connectx and random numbers
      (sys/misc_stubs.c), and the table of functions the loader prefers to
      glibc's (signal/shim_symbol.c), a provider of Symbols.v.

    ** How the parts interact

    The fixup interpreters (Rebase, Binds, ChainedFixups, MachoDylib) read
    the file image, look segments up in the loader state and write memory;
    they ask the linker for addresses through [Linker].  [map_segment] and
    [map_dylib_segments] fill the memory they work on.  The patcher rewrites
    the code of mapped segments; what it turns into UD2 is what the slow path
    handles, with the tables of SyscallTable.v.

    The shim's wrappers first ask ShimCore's [caller_is_macos_text] whether
    the caller is the guest; for a guest they rewrite paths with
    PrefixPath.v, translate flags and structures, call the real function
    (a parameter) and translate the result and the error number.  ShimExec.v
    starts a new loader, whose first part is Entry.v, for a Mach-O program.
    StdioPatch.v decides which macros of the guest still run, and tells
    Stdio.v through two flags whether to overwrite the read pointers.
    Startup.v reads back, as the registers of main, the stack that Stack.v
    builds, and hands ShimCore.v the text range its answers depend on.  The
    real functions behind the wrappers are found by ElfLookup.v.
    PrefixInit.v makes the tree that the paths of PrefixPath.v lead into.
    Jail.v starts the loader, so it scans the command line that Entry.v will
    parse, and tells PrefixPath.v through the environment that paths need no
    translation.

    ** What the theorems show

    - Refinement: running the encoding of an abstract rebase or bind program,
      or walking a chain of packed fixups, has exactly the effect the program
      or chain specifies on memory, for the main image and for dylibs; symbol
      resolution is a first-match search through an ordered list of
      providers.
    - Functional behaviour: what mapping a segment or a dylib leaves in
      memory, which exports a dylib registers and where, which code bytes the
      patcher writes at a call site, what the slow path does with every
      result, which paths are translated or hidden.
    - The main image: the slide puts all segments in the reserved range, the
      walk keeps every table within its size and makes symbol resolution
      independent of the library ordinal, and the fixups compose; main gets
      the arguments, environment and apple strings that were passed, read
      from the initial stack.
    - Safety and frames: whatever bytes a file holds, the interpreters end,
      write only inside the segments or pages they are given (or the exact
      condition under which they do not), and keep memory well formed.
    - Round trips and tables: LEB128, signal masks, open and mmap flags, the
      signal table and its inverse, socket addresses, terminal attributes.
    - Concurrency: under every schedule [pthread_once] runs its routine once
      and returns after it has ended, and a fair schedule lets every caller
      return; a lazily filled table is complete whenever it is used; a
      semaphore lets through what was signalled and no more.
    - Buffers of the guest: attribute lists (in the code's layout, which is
      not everywhere the manual page's), process lists, system strings,
      directory entries and strings are written within the length the guest
      gave (or with the exact exception).
    - What a guest cannot do: block or replace the fault handlers, lose the
      main stack, name a file outside the prefix or a hidden path to a
      wrapper, start a program outside the prefix through a script; with the
      exact exceptions the code has (the mask of a handler, unaligned fixed
      mappings, wrappers that do not translate, dots in a path).
    - Objects and files: the name servers of the host reach the guest as
      CoreFoundation objects and the release gives every block back; a new
      prefix has all its directories; a copy that succeeds is whole, and one
      that fails is unlinked.
    - The jail: whatever the system answers, mounts are made only in a
      private namespace, before the change of root nothing runs but commands
      that make directories, and only the loader is started right after it;
      no link is followed into the prefix; the loader gets the
      program the user named; and on a system that does what is asked the
      loader is reached.
    - Faults: the shim's handler reports any crash without faulting again;
      the loader's lets the program go on only at points its stack gives;
      each thread of a Go program has a goroutine slot of its own.
    - Deviations: where the code does not do what a comment or its twin says,
      a theorem states exactly what it does instead (for instance
      [MachoDylib.macho_load_dylib_exports], [SlowPath.unhandled_syscalls]).

    ** Fuel and bounds

    Opcode loops take as fuel the number of bytes of their range; every
    iteration consumes at least one, and theorems show that [NoFuel] is not
    the result.  Chain walks are bounded by the code's own limit of 16384
    entries.  Load-command loops run [ncmds] times as in the code.  Loading
    dylibs recurses through their dependencies; its fuel bounds the depth of
    that recursion, which the code does not bound for cyclic dependencies.

    ** Not modelled

    Messages and traces other than the crash reports; page protections; the
    installation of signal handlers at the start, the comm page and the jump
    itself.  Of the shim: the constructor, the adapter for macOS FILE
    structures (which nothing switches on), Objective-C, GnuTLS, Security and
    the rest of CoreFoundation and Mach, which are stubs with fixed answers,
    and the wide-character and printf families, which forward to glibc. *)
From Stdlib Require Import ZArith Lia Bool.
From stdpp Require Import base gmap list strings numbers.

#[global] Open Scope Z_scope.

(** ** Results of a run *)

(** [Ok] is a normal return; [Undef] is an access the C standard leaves
    undefined (a read or write outside a mapped region or a buffer, a shift
    by the width of the type or more); [NoFuel] says that the bound given to
    a loop was too small, and theorems state that it does not happen. *)
Inductive res (A : Type) : Type :=
| Ok (a : A)
| Undef
| NoFuel.
Arguments Ok {A} a.
Arguments Undef {A}.
Arguments NoFuel {A}.

#[export] Instance res_ret : MRet res := @Ok.
#[export] Instance res_bind : MBind res := fun A B f r =>
  match r with Ok a => f a | Undef => Undef | NoFuel => NoFuel end.

Definition of_option {A} (o : option A) : res A :=
  match o with Some a => Ok a | None => Undef end.

(** [fold_res f l a]: a C [for] loop over [l] whose body may be undefined. *)
Fixpoint fold_res {A B} (f : A -> B -> res A) (l : list B) (a : A) : res A :=
  match l with
  | [] => Ok a
  | x :: l => a' ← f a x; fold_res f l a'
  end.

(** One pass through the body of a C loop that may [return] from the function:
    [Continue] goes round again, [Return code] leaves with the state as it is. *)
Inductive ctl (S : Type) : Type :=
| Continue (s : S)
| Return (code : Z) (s : S).
Arguments Continue {S} s.
Arguments Return {S} code s.

(** ** Machine integers *)

Definition u8 (z : Z) : Z := z mod 2 ^ 8.
Definition u16 (z : Z) : Z := z mod 2 ^ 16.
Definition u32 (z : Z) : Z := z mod 2 ^ 32.
Definition u64 (z : Z) : Z := z mod 2 ^ 64.

(** Two's complement reading of the low [w] bits. *)
Definition signed (w : Z) (z : Z) : Z :=
  let r := z mod 2 ^ w in if r <? 2 ^ (w - 1) then r else r - 2 ^ w.
Definition i8 (z : Z) : Z := signed 8 z.
Definition i16 (z : Z) : Z := signed 16 z.
Definition i32 (z : Z) : Z := signed 32 z.
Definition i64 (z : Z) : Z := signed 64 z.

Definition is_byte (b : Z) : Prop := 0 <= b < 256.
Definition is_u32 (z : Z) : Prop := 0 <= z < 2 ^ 32.
Definition is_u64 (z : Z) : Prop := 0 <= z < 2 ^ 64.

(** [z & m] as a C condition. *)
Definition has (z m : Z) : bool := negb (Z.land z m =? 0).

(** ** Little-endian bytes *)

Fixpoint le_bytes (n : nat) (v : Z) : list Z :=
  match n with
  | O => []
  | S n => v mod 256 :: le_bytes n (v / 256)
  end.

Fixpoint le_value (bs : list Z) : Z :=
  match bs with
  | [] => 0
  | b :: bs => b + 256 * le_value bs
  end.

(** Reads through any byte store, given by its partial lookup function. *)
Fixpoint get_bytes (get : Z -> option Z) (a : Z) (n : nat) : option (list Z) :=
  match n with
  | O => Some []
  | S n => match get a with
           | None => None
           | Some b => match get_bytes get (a + 1) n with
                       | None => None
                       | Some bs => Some (b :: bs)
                       end
           end
  end.

Definition read_le (get : Z -> option Z) (n : nat) (a : Z) : res Z :=
  match get_bytes get a n with Some bs => Ok (le_value bs) | None => Undef end.

(** A malloc'd buffer (the file image): a list of bytes, indexed from 0. *)
Definition buf_get (l : list Z) (i : Z) : option Z :=
  if i <? 0 then None else l !! Z.to_nat i.

Definition buf_rd (l : list Z) (i : Z) : res Z := of_option (buf_get l i).

Definition buf_wr (l : list Z) (i : Z) (b : Z) : res (list Z) :=
  match buf_get l i with
  | Some _ => Ok (<[Z.to_nat i := b]> l)
  | None => Undef
  end.

Definition buf_len (l : list Z) : Z := Z.of_nat (length l).

(** The bytes from [off] up to [off + n] of a buffer; forming that range past
    the end of the buffer is undefined. *)
Definition buf_slice (l : list Z) (off n : Z) : res (list Z) :=
  if (off <? 0) || (n <? 0) || (buf_len l <? off + n) then Undef
  else Ok (take (Z.to_nat n) (drop (Z.to_nat off) l)).

(** ** Process memory: the mapped bytes by address *)

Abbreviation mem := (gmap Z Z).

Definition mem_get (m : mem) (a : Z) : option Z := m !! a.

Fixpoint put_bytes (m : mem) (a : Z) (bs : list Z) : mem :=
  match bs with
  | [] => m
  | b :: bs => put_bytes (<[a := b]> m) (a + 1) bs
  end.

Fixpoint mapped (m : mem) (a : Z) (n : nat) : bool :=
  match n with
  | O => true
  | S n => match m !! a with Some _ => mapped m (a + 1) n | None => false end
  end.

(** [memcpy]/[*p = v]: undefined unless every destination byte is mapped. *)
Definition store (m : mem) (a : Z) (bs : list Z) : res mem :=
  if mapped m a (length bs) then Ok (put_bytes m a bs) else Undef.

Definition load64 (m : mem) (a : Z) : res Z := read_le (mem_get m) 8 a.
Definition load32 (m : mem) (a : Z) : res Z := read_le (mem_get m) 4 a.
Definition store64 (m : mem) (a v : Z) : res mem := store m a (le_bytes 8 v).
Definition store32 (m : mem) (a v : Z) : res mem := store m a (le_bytes 4 v).

(** ** C strings (no NUL inside) *)

Fixpoint sdrop (n : nat) (s : string) : string :=
  match n, s with
  | O, _ => s
  | S n, String _ s => sdrop n s
  | S _, EmptyString => EmptyString
  end.

Fixpoint stake (n : nat) (s : string) : string :=
  match n, s with
  | O, _ => EmptyString
  | S n, String c s => String c (stake n s)
  | S _, EmptyString => EmptyString
  end.

(** [strncmp(s, p, strlen(p)) == 0]. *)
Fixpoint starts_with (p s : string) : bool :=
  match p, s with
  | EmptyString, _ => true
  | String a p, String b s => Ascii.eqb a b && starts_with p s
  | String _ _, EmptyString => false
  end.

(** [strstr(s, p) != NULL]. *)
Fixpoint contains (p s : string) : bool :=
  starts_with p s ||
  match s with
  | EmptyString => false
  | String _ s => contains p s
  end.

(** The character at the head of a C string; [None] is the terminator. *)
Definition shead (s : string) : option Ascii.ascii :=
  match s with EmptyString => None | String c _ => Some c end.

(** [strcmp(a, b) == 0]. *)
Definition streq (a b : string) : bool := bool_decide (a = b).

(** [snprintf(out, size, "%s", s)] for [size > 0]: truncation to [size - 1]. *)
Definition snprintf (size : nat) (s : string) : string := stake (size - 1) s.

(** Everything before the first [c], and whether [c] occurs ([strchr]). *)
Fixpoint before_char (c : Ascii.ascii) (s : string) : string :=
  match s with
  | EmptyString => EmptyString
  | String d s => if Ascii.eqb c d then EmptyString else String d (before_char c s)
  end.

Fixpoint has_char (c : Ascii.ascii) (s : string) : bool :=
  match s with
  | EmptyString => false
  | String d s => Ascii.eqb c d || has_char c s
  end.

Fixpoint string_of_bytes (bs : list Z) : string :=
  match bs with
  | [] => EmptyString
  | b :: bs => String (Ascii.ascii_of_N (Z.to_N b)) (string_of_bytes bs)
  end.

(** ** Automation *)

Create HintDb word.
Create HintDb memory.
Create Rewrite HintDb word_eqs.

(** Invert a hypothesis [mbind f r = Ok v]. *)
Ltac bind_inv H :=
  match type of H with
  | mbind ?f ?r = Ok _ =>
      let a := fresh "a" in let E := fresh "E" in
      destruct r as [a| |] eqn:E; cbn in H; [|discriminate H|discriminate H]
  end.

(** Turn the boolean comparisons of the model into propositions. *)
Ltac bool_to_prop :=
  repeat match goal with
  | H : (_ && _) = true |- _ => apply andb_true_iff in H; destruct H
  | H : (_ || _) = false |- _ => apply orb_false_iff in H; destruct H
  | H : negb _ = true |- _ => apply negb_true_iff in H
  | H : negb _ = false |- _ => apply negb_false_iff in H
  | H : (_ <? _) = true |- _ => apply Z.ltb_lt in H
  | H : (_ <? _) = false |- _ => apply Z.ltb_ge in H
  | H : (_ <=? _) = true |- _ => apply Z.leb_le in H
  | H : (_ <=? _) = false |- _ => apply Z.leb_gt in H
  | H : (_ >? _) = true |- _ => rewrite Z.gtb_ltb in H
  | H : (_ >? _) = false |- _ => rewrite Z.gtb_ltb in H
  | H : (_ >=? _) = true |- _ => rewrite Z.geb_leb in H
  | H : (_ >=? _) = false |- _ => rewrite Z.geb_leb in H
  | H : (_ =? _) = true |- _ => apply Z.eqb_eq in H
  | H : (_ =? _) = false |- _ => apply Z.eqb_neq in H
  end.

(** Case split on every [if] of the goal, keeping the facts as propositions. *)
Ltac split_ifs :=
  repeat match goal with
  | |- context [if ?b then _ else _] => destruct b eqn:?
  end; bool_to_prop.

(** Follow a hypothesis [step ... = Ok (r, rest)] down every branch. *)
Ltac step_cases H :=
  repeat match type of H with
  | Ok _ = Ok _ => injection H as <- <-
  | (if ?b then _ else _) = _ => destruct b
  | match ?z with 0 => _ | _ => _ end = _ => destruct z
  | match ?p with xI _ => _ | _ => _ end = _ => destruct p
  | (let '(_, _) := ?p in _) = _ => destruct p
  | match ?r with Continue _ => _ | Return _ _ => _ end = _ => destruct r
  | mbind _ _ = Ok _ => bind_inv H
  end.

(** ** Lemmas: machine integers *)

Lemma u64_range z : 0 <= u64 z < 2 ^ 64.
Proof. apply Z.mod_pos_bound; lia. Qed.

Lemma u64_small z : 0 <= z < 2 ^ 64 -> u64 z = z.
Proof. apply Z.mod_small. Qed.

Lemma u64_idemp z : u64 (u64 z) = u64 z.
Proof. apply Z.mod_mod; lia. Qed.

Lemma u64_add_l a b : u64 (u64 a + b) = u64 (a + b).
Proof. apply Zplus_mod_idemp_l. Qed.

Lemma u64_add_r a b : u64 (a + u64 b) = u64 (a + b).
Proof. apply Zplus_mod_idemp_r. Qed.

Lemma u32_range z : 0 <= u32 z < 2 ^ 32.
Proof. apply Z.mod_pos_bound; lia. Qed.

Lemma u32_small z : 0 <= z < 2 ^ 32 -> u32 z = z.
Proof. apply Z.mod_small. Qed.

Lemma signed_range w z : 0 < w -> - 2 ^ (w - 1) <= signed w z < 2 ^ (w - 1).
Proof.
  intros Hw. unfold signed.
  pose proof (Z.mod_pos_bound z (2 ^ w)) as Hm.
  assert (2 ^ w = 2 * 2 ^ (w - 1)) as E.
  { rewrite <- Z.pow_succ_r by lia. f_equal. lia. }
  assert (0 < 2 ^ (w - 1)) by (apply Z.pow_pos_nonneg; lia).
  destruct (Z.ltb_spec (z mod 2 ^ w) (2 ^ (w - 1))); lia.
Qed.

Lemma signed_small w z :
  0 < w -> - 2 ^ (w - 1) <= z < 2 ^ (w - 1) -> signed w z = z.
Proof.
  intros Hw Hz. unfold signed.
  assert (2 ^ w = 2 * 2 ^ (w - 1)) as E.
  { rewrite <- Z.pow_succ_r by lia. f_equal. lia. }
  destruct (Z.ltb_spec z 0).
  - assert (z mod 2 ^ w = z + 2 ^ w) as ->.
    { symmetry. apply (Z.mod_unique z (2 ^ w) (-1)); lia. }
    destruct (Z.ltb_spec (z + 2 ^ w) (2 ^ (w - 1))); lia.
  - rewrite Z.mod_small by lia.
    destruct (Z.ltb_spec z (2 ^ (w - 1))); lia.
Qed.

Lemma has_pow2 z k : 0 <= k -> has z (2 ^ k) = Z.testbit z k.
Proof.
  intros Hk. unfold has.
  destruct (Z.testbit z k) eqn:E.
  - apply negb_true_iff, Z.eqb_neq. intros H.
    assert (Z.testbit (Z.land z (2 ^ k)) k = false) as F.
    { rewrite H. apply Z.bits_0. }
    rewrite Z.land_spec, E, Z.pow2_bits_true in F by lia. discriminate.
  - apply negb_false_iff, Z.eqb_eq. apply Z.bits_inj_0. intros n.
    rewrite Z.land_spec, Z.pow2_bits_eqb by lia.
    destruct (Z.eqb_spec k n); subst; [rewrite E; reflexivity|].
    apply andb_false_r.
Qed.

#[export] Hint Resolve u64_range u32_range u64_small u32_small : word.
#[export] Hint Rewrite u64_add_l u64_add_r u64_idemp : word_eqs.

(** Check a boolean predicate on a finite range of integers by computation. *)
Lemma range_forallb (f : Z -> bool) lo n :
  forallb f (seqZ lo n) = true -> forall s, lo <= s < lo + n -> f s = true.
Proof.
  intros H s Hs. rewrite forallb_forall in H. apply H.
  apply list_elem_of_In, elem_of_seqZ. lia.
Qed.

(** An opcode byte: operation in the high nibble, immediate in the low one. *)
Lemma opcode_nibbles hi s :
  0 <= hi < 16 -> 0 <= s < 16 ->
  Z.land (16 * hi + s) 0x0F = s /\ Z.land (16 * hi + s) 0xF0 = 16 * hi.
Proof.
  intros Hh Hs.
  assert (forallb (fun a => forallb (fun b => (Z.land (16 * a + b) 0x0F =? b) &&
    (Z.land (16 * a + b) 0xF0 =? 16 * a)) (seqZ 0 16)) (seqZ 0 16) = true) as C
    by (vm_compute; reflexivity).
  pose proof (range_forallb _ _ _ C hi ltac:(lia)) as C1. cbv beta in C1.
  pose proof (range_forallb _ _ _ C1 s ltac:(lia)) as C2. cbv beta in C2.
  bool_to_prop. done.
Qed.

(** Decode the opcode byte [16 * hi + i] of the goal. *)
Ltac decode_opcode hi i H :=
  let E1 := fresh in let E2 := fresh in
  destruct (opcode_nibbles hi i ltac:(lia) H) as [E1 E2];
  let v := eval vm_compute in (16 * hi) in
  change (16 * hi) with v in E1, E2; rewrite E1, E2; clear E1 E2; cbv iota.

(** ** Lemmas: loops *)

Lemma fold_res_app {A B} (f : A -> B -> res A) l k a :
  fold_res f (l ++ k) a = (a' ← fold_res f l a; fold_res f k a').
Proof.
  revert a. induction l as [|x l IH]; intros a; [done|]. cbn.
  destruct (f a x) as [a1| |]; cbn; [apply IH|done|done].
Qed.

(** Rule induction for a loop: an invariant of the body is one of the loop. *)
Lemma fold_res_inv {A B} (P : A -> Prop) (f : A -> B -> res A) l a a' :
  (forall a x a', P a -> f a x = Ok a' -> P a') -> P a -> fold_res f l a = Ok a' -> P a'.
Proof.
  intros Hf. revert a. induction l as [|x l IH]; intros a Ha; cbn.
  - by intros [= <-].
  - destruct (f a x) as [a1| |] eqn:E; cbn; [|done|done]. apply IH. by apply (Hf a x).
Qed.

Lemma fold_res_no_fuel {A B} (f : A -> B -> res A) l a :
  (forall a x, f a x <> NoFuel) -> fold_res f l a <> NoFuel.
Proof.
  intros Hf. revert a. induction l as [|x l IH]; intros a; cbn; [done|].
  pose proof (Hf a x). destruct (f a x); cbn; done.
Qed.

(** ** Lemmas: little-endian bytes *)

Lemma length_le_bytes n v : length (le_bytes n v) = n.
Proof. revert v. induction n; intros v; cbn; auto. Qed.

Lemma le_value_bytes n v : le_value (le_bytes n v) = v mod 2 ^ (8 * Z.of_nat n).
Proof.
  revert v. induction n as [|n IH]; intros v; cbn [le_bytes le_value].
  - symmetry. apply Z.mod_1_r.
  - rewrite IH.
    replace (8 * Z.of_nat (S n)) with (8 + 8 * Z.of_nat n) by lia.
    rewrite Z.pow_add_r by lia.
    change (2 ^ 8) with 256. symmetry. apply Z.rem_mul_r; [lia|].
    apply Z.pow_pos_nonneg; lia.
Qed.

Lemma le_bytes_are_bytes n v : Forall is_byte (le_bytes n v).
Proof.
  revert v. induction n; intros v; cbn; constructor; auto.
  unfold is_byte. apply Z.mod_pos_bound. lia.
Qed.

Lemma le_bytes_value bs :
  Forall is_byte bs -> le_bytes (length bs) (le_value bs) = bs.
Proof.
  induction 1 as [|b bs Hb _ IH]; cbn [length le_bytes le_value]; [done|].
  unfold is_byte in Hb. f_equal.
  - symmetry. apply (Z.mod_unique _ _ (le_value bs)); lia.
  - replace ((b + 256 * le_value bs) / 256) with (le_value bs); [done|].
    apply (Z.div_unique _ _ _ b); lia.
Qed.

Lemma le_value_range bs :
  Forall is_byte bs -> 0 <= le_value bs < 2 ^ (8 * Z.of_nat (length bs)).
Proof.
  induction 1 as [|b bs Hb _ IH]; cbn [length le_value]; [lia|].
  unfold is_byte in Hb.
  replace (8 * Z.of_nat (S (length bs))) with (8 + 8 * Z.of_nat (length bs)) by lia.
  rewrite Z.pow_add_r by lia. change (2 ^ 8) with 256. nia.
Qed.

(** ** Lemmas: buffers *)

Lemma buf_len_app l k : buf_len (l ++ k) = buf_len l + buf_len k.
Proof. unfold buf_len. rewrite length_app. lia. Qed.

Lemma buf_len_nonneg l : 0 <= buf_len l.
Proof. unfold buf_len. lia. Qed.

Lemma buf_slice_in pre bs post :
  buf_slice (pre ++ bs ++ post) (buf_len pre) (buf_len bs) = Ok bs.
Proof.
  unfold buf_slice, buf_len. rewrite !length_app.
  destruct (_ || _ || _) eqn:E.
  { rewrite !orb_true_iff in E. destruct E as [[?|?]|?]; bool_to_prop; lia. }
  by rewrite !Nat2Z.id, drop_app_length, take_app_length.
Qed.

(** ** Lemmas: memory *)

Lemma mapped_spec m a n :
  mapped m a n = true <-> (forall x, a <= x < a + Z.of_nat n -> is_Some (m !! x)).
Proof.
  revert a. induction n as [|n IH]; intros a; cbn [mapped].
  - split; [intros _ x Hx; lia|done].
  - destruct (m !! a) as [b|] eqn:E.
    + rewrite IH. split; intros H x Hx.
      * destruct (decide (x = a)) as [->|]; [eauto|]. apply H; lia.
      * apply H; lia.
    + split; [done|]. intros H.
      destruct (H a) as [? ?]; [lia|congruence].
Qed.

Lemma lookup_put_bytes m a bs x :
  put_bytes m a bs !! x =
    if decide (a <= x < a + Z.of_nat (length bs)) then bs !! Z.to_nat (x - a)
    else m !! x.
Proof.
  revert m a. induction bs as [|b bs IH]; intros m a; cbn [put_bytes length].
  - rewrite decide_False by lia. done.
  - rewrite IH. repeat case_decide; try lia.
    + replace (Z.to_nat (x - a)) with (S (Z.to_nat (x - (a + 1)))) by lia. done.
    + assert (x = a) as -> by lia.
      rewrite lookup_insert_eq, Z.sub_diag. done.
    + rewrite lookup_insert_ne by lia. done.
Qed.

Lemma get_bytes_ext g h a n :
  (forall x, a <= x < a + Z.of_nat n -> g x = h x) ->
  get_bytes g a n = get_bytes h a n.
Proof.
  revert a. induction n as [|n IH]; intros a H; cbn; [done|].
  rewrite (H a) by lia. rewrite (IH (a + 1)); [done|].
  intros x Hx. apply H. lia.
Qed.

Lemma get_bytes_put_same m a bs :
  get_bytes (mem_get (put_bytes m a bs)) a (length bs) = Some bs.
Proof.
  revert m a. induction bs as [|b bs IH]; intros m a; cbn [get_bytes length]; [done|].
  cbn [put_bytes]. unfold mem_get at 1. rewrite lookup_put_bytes.
  rewrite decide_False by lia. rewrite lookup_insert_eq, IH. done.
Qed.

Lemma get_bytes_put_other m a bs x n :
  x + Z.of_nat n <= a \/ a + Z.of_nat (length bs) <= x ->
  get_bytes (mem_get (put_bytes m a bs)) x n = get_bytes (mem_get m) x n.
Proof.
  intros H. apply get_bytes_ext. intros y Hy. unfold mem_get.
  rewrite lookup_put_bytes, decide_False by lia. done.
Qed.

Lemma store_Ok m a bs m' :
  store m a bs = Ok m' -> m' = put_bytes m a bs /\ mapped m a (length bs) = true.
Proof. unfold store. destruct (mapped _ _ _); [|done]. intros [= <-]. done. Qed.

Lemma read_le_no_fuel g n a : read_le g n a <> NoFuel.
Proof. unfold read_le. by destruct (get_bytes g a n). Qed.

Lemma store_no_fuel m a bs : store m a bs <> NoFuel.
Proof. unfold store. by destruct (mapped _ _ _). Qed.

Lemma store_mapped m a bs m' x n :
  store m a bs = Ok m' -> mapped m' x n = mapped m x n.
Proof.
  intros [-> Hm]%store_Ok. apply eq_true_iff_eq. rewrite !mapped_spec.
  rewrite mapped_spec in Hm.
  split; intros H y Hy; specialize (H y Hy); rewrite lookup_put_bytes in *;
    case_decide; auto.
  rewrite lookup_lt_is_Some. lia.
Qed.

Lemma load64_store64_same m a v m' :
  store64 m a v = Ok m' -> load64 m' a = Ok (u64 v).
Proof.
  intros [-> _]%store_Ok. unfold load64, read_le.
  pose proof (get_bytes_put_same m a (le_bytes 8 v)) as H.
  rewrite length_le_bytes in H. rewrite H, le_value_bytes. done.
Qed.

Lemma load64_store64_other m a v m' x :
  store64 m a v = Ok m' -> x + 8 <= a \/ a + 8 <= x -> load64 m' x = load64 m x.
Proof.
  intros [-> _]%store_Ok Hx. unfold load64, read_le.
  rewrite get_bytes_put_other; [done|]. rewrite length_le_bytes. lia.
Qed.

Lemma store64_defined m a v :
  mapped m a 8 = true -> exists m', store64 m a v = Ok m'.
Proof.
  intros H. unfold store64, store. rewrite length_le_bytes, H. eauto.
Qed.

Lemma get_bytes_mapped m a n :
  mapped m a n = true -> is_Some (get_bytes (mem_get m) a n).
Proof.
  revert a. induction n as [|n IH]; intros a; cbn; [eauto|].
  unfold mem_get at 1. destruct (m !! a); [|done]. intros H.
  destruct (IH _ H) as [bs ->]. eauto.
Qed.

Lemma load64_defined m a :
  mapped m a 8 = true -> exists v, load64 m a = Ok v.
Proof.
  intros [bs H]%get_bytes_mapped. exists (le_value bs).
  unfold load64, read_le. rewrite H. done.
Qed.

(** Every mapped address holds a byte. *)
Definition mem_wf (m : mem) : Prop := map_Forall (fun _ b => is_byte b) m.

Lemma put_bytes_wf m a bs : mem_wf m -> Forall is_byte bs -> mem_wf (put_bytes m a bs).
Proof.
  intros Hm Hbs x b. rewrite lookup_put_bytes. case_decide; [|apply Hm].
  intros Hx. by apply (Forall_lookup_1 _ _ _ _ Hbs Hx).
Qed.

Lemma get_bytes_wf m a n bs :
  mem_wf m -> get_bytes (mem_get m) a n = Some bs -> Forall is_byte bs /\ length bs = n.
Proof.
  intros Hm. revert a bs. induction n as [|n IH]; intros a bs; cbn.
  - intros [= <-]. auto.
  - unfold mem_get at 1. destruct (m !! a) as [b|] eqn:Eb; [|done].
    destruct (get_bytes _ _ _) as [bs'|] eqn:E; [|done]. intros [= <-].
    destruct (IH _ _ E) as [Hf Hl]. split; [|by cbn; f_equal].
    constructor; [|done]. by apply (Hm a).
Qed.

Lemma put_bytes_same m a bs :
  get_bytes (mem_get m) a (length bs) = Some bs -> put_bytes m a bs = m.
Proof.
  revert m a. induction bs as [|b bs IH]; intros m a; cbn; [done|].
  unfold mem_get at 1. destruct (m !! a) as [c|] eqn:Ec; [|done].
  destruct (get_bytes _ _ _) as [bs'|] eqn:E; [|done]. intros [= -> ->].
  rewrite insert_id by done. by apply IH.
Qed.

Lemma store64_wf m a v m' : mem_wf m -> store64 m a v = Ok m' -> mem_wf m'.
Proof.
  intros Hm [-> _]%store_Ok. apply put_bytes_wf; [done|]. apply le_bytes_are_bytes.
Qed.

Lemma store64_dom m a v m' : store64 m a v = Ok m' -> dom m' = dom m.
Proof.
  intros H. apply set_eq. intros x. rewrite !elem_of_dom.
  pose proof (store_mapped _ _ _ _ x 1 H) as E.
  cbn in E. destruct (m' !! x), (m !! x); cbn in E; try discriminate E;
    split; intros [? ?]; eauto; discriminate.
Qed.

(** Writing back what was read changes nothing. *)
Lemma store64_load64 m a v :
  mem_wf m -> load64 m a = Ok v -> store64 m a v = Ok m /\ is_u64 v.
Proof.
  intros Hm. unfold load64, read_le.
  destruct (get_bytes (mem_get m) a 8) as [bs|] eqn:E; [|done]. intros [= <-].
  destruct (get_bytes_wf _ _ _ _ Hm E) as [Hf Hl].
  pose proof (le_value_range bs Hf) as Hr. rewrite Hl in Hr.
  split; [|exact Hr]. unfold store64, store. rewrite length_le_bytes.
  rewrite <- Hl in E |- *. rewrite le_bytes_value by done.
  rewrite put_bytes_same by done.
  assert (mapped m a (length bs) = true) as ->; [|done].
  clear -E. revert a E. induction bs as [|b bs IH]; intros a; cbn; [done|].
  unfold mem_get at 1. destruct (m !! a); [|done].
  destruct (get_bytes _ _ _) eqn:E'; [|done]. intros [= -> ->]. by apply IH.
Qed.

#[export] Hint Resolve length_le_bytes store64_defined load64_defined : memory.

(** ** Lemmas: C strings *)

Lemma starts_with_spec p s : starts_with p s = true <-> exists t, s = p +:+ t.
Proof.
  revert s. induction p as [|a p IH]; intros s; cbn.
  - split; eauto.
  - destruct s as [|b s].
    + split; [done|]. intros [t H]. discriminate H.
    + rewrite andb_true_iff, IH. split.
      * intros [->%Ascii.eqb_eq [t ->]]. eauto.
      * intros [t [= <- ->]]. split; [apply Ascii.eqb_refl|eauto].
Qed.

Lemma before_char_id c s : has_char c s = false -> before_char c s = s.
Proof.
  induction s as [|d s IH]; [done|]. cbn [has_char before_char]. intros [Hd Hs]%orb_false_iff. rewrite Hd. by rewrite IH.
Qed.

Lemma starts_with_app p s : starts_with p (p +:+ s) = true.
Proof. apply starts_with_spec. eauto. Qed.

Lemma sdrop_app p s : sdrop (String.length p) (p +:+ s) = s.
Proof. induction p; cbn; auto. Qed.

Lemma stake_all n s : (String.length s <= n)%nat -> stake n s = s.
Proof.
  revert s. induction n as [|n IH]; intros [|c s] H; cbn in *; try done; [lia|].
  f_equal. apply IH. lia.
Qed.

Lemma length_stake n s : String.length (stake n s) = Nat.min n (String.length s).
Proof. revert s. induction n as [|n IH]; intros [|c s]; cbn; auto. Qed.

Lemma string_app_assoc (a b c : string) : (a +:+ b) +:+ c = a +:+ (b +:+ c).
Proof. induction a as [|x a IH]; [done|]. exact (f_equal (String x) IH). Qed.

Lemma string_length_app (a b : string) :
  String.length (a +:+ b) = (String.length a + String.length b)%nat.
Proof. induction a as [|x a IH]; [done|]. exact (f_equal S IH). Qed.

(** A little-endian read from a buffer of bytes fits its width. *)
Lemma read_le_buf_range n f i v :
  Forall is_byte f -> read_le (buf_get f) n i = Ok v -> 0 <= v < 2 ^ (8 * Z.of_nat n).
Proof.
  intros Hf. unfold read_le.
  assert (forall n i bs, get_bytes (buf_get f) i n = Some bs -> Forall is_byte bs /\ length bs = n) as G.
  { clear n i. induction n as [|n IH]; intros i bs; cbn; [intros [= <-]; auto|].
    destruct (buf_get f i) as [b|] eqn:Eb; [|done].
    destruct (get_bytes _ _ n) as [bs'|] eqn:En; [|done]. intros [= <-].
    destruct (IH _ _ En) as [Hb Hl]. split; [constructor; [|done]|cbn; lia].
    unfold buf_get in Eb. destruct (i <? 0); [done|]. by apply (Forall_lookup_1 _ _ _ _ Hf Eb). }
  destruct (get_bytes _ _ _) as [bs|] eqn:E; [|done]. intros [= <-].
  destruct (G _ _ _ E) as [Hb <-]. by apply le_value_range.
Qed.

(** Two memories that map the same addresses and differ only inside a range. *)
Definition agree_outside (lo hi : Z) (m m' : mem) : Prop :=
  dom m' = dom m /\ forall x, x < lo \/ hi <= x -> m' !! x = m !! x.

Lemma agree_outside_refl lo hi m : agree_outside lo hi m m.
Proof. split; auto. Qed.

Lemma agree_outside_trans lo hi m1 m2 m3 :
  agree_outside lo hi m1 m2 -> agree_outside lo hi m2 m3 -> agree_outside lo hi m1 m3.
Proof.
  intros [Hd1 H1] [Hd2 H2]. split; [congruence|]. intros x Hx. by rewrite H2, H1.
Qed.

Lemma store64_agree m a v m' lo hi :
  store64 m a v = Ok m' -> lo <= a -> a + 8 <= hi -> agree_outside lo hi m m'.
Proof.
  intros Hs Hlo Hhi. split; [by apply (store64_dom _ _ _ _ Hs)|].
  apply store_Ok in Hs as [-> _]. intros x Hx. rewrite lookup_put_bytes, length_le_bytes.
  rewrite decide_False by lia. done.
Qed.

#[export] Hint Resolve agree_outside_refl agree_outside_trans store64_agree : memory.
