(* ===== verification/Buffers.v ===== *)
(** * Writing into buffers a guest hands over

    [memcpy] into a list of bytes, undefined where it leaves the buffer, and
    what a slice of the buffer holds afterwards. *)
From Stdlib Require Import ZArith Lia Bool.
From stdpp Require Import base list strings numbers.
From S2P Require Import Prelude.

Definition buf_put (l : list Z) (off : Z) (bs : list Z) : res (list Z) :=
  if (off <? 0) || (buf_len l <? off + buf_len bs) then Undef
  else Ok (take (Z.to_nat off) l ++ bs ++ drop (Z.to_nat off + length bs) l).

(** The bytes of a C string, without the NUL. *)
Fixpoint string_bytes (s : string) : list Z :=
  match s with
  | EmptyString => []
  | String c s => Z.of_N (Ascii.N_of_ascii c) :: string_bytes s
  end.

Definition slice (l : list Z) (off n : Z) : list Z := take (Z.to_nat n) (drop (Z.to_nat off) l).

Lemma length_string_bytes s : length (string_bytes s) = String.length s.
Proof. induction s as [|c s IH]; cbn; [done|by rewrite IH]. Qed.

(** The result of a write that stays inside, with the bounds it stays in. *)
Lemma buf_put_Ok l off bs l' :
  buf_put l off bs = Ok l' ->
  0 <= off /\ off + buf_len bs <= buf_len l /\ buf_len l' = buf_len l /\
  l' = take (Z.to_nat off) l ++ bs ++ drop (Z.to_nat off + length bs) l.
Proof.
  unfold buf_put, buf_len. destruct (_ || _) eqn:E; [done|]. intros [= <-].
  apply orb_false_iff in E as [E1 E2]. split_and!; try lia; [|done].
  rewrite !length_app, length_take, length_drop. lia.
Qed.

Lemma buf_put_in l off bs :
  0 <= off -> off + buf_len bs <= buf_len l -> exists l', buf_put l off bs = Ok l'.
Proof.
  intros. unfold buf_put. replace (_ || _) with false by lia. by eexists.
Qed.

Lemma buf_put_same l off bs l' : buf_put l off bs = Ok l' -> slice l' off (buf_len bs) = bs.
Proof.
  intros (H0 & H1 & _ & ->)%buf_put_Ok. unfold slice, buf_len in *. rewrite Nat2Z.id.
  rewrite drop_app_length' by (rewrite length_take; lia). by rewrite take_app_length.
Qed.

Lemma lookup_buf_put l off bs l' i :
  buf_put l off bs = Ok l' ->
  l' !! i = if (Z.to_nat off <=? i)%nat && (i <? Z.to_nat off + length bs)%nat
            then bs !! (i - Z.to_nat off)%nat else l !! i.
Proof.
  intros (H0 & H1 & _ & ->)%buf_put_Ok. unfold buf_len in *.
  assert (length (take (Z.to_nat off) l) = Z.to_nat off) as Ht by (rewrite length_take; lia).
  destruct (Nat.leb_spec (Z.to_nat off) i); cbn [andb].
  - rewrite lookup_app_r by lia. rewrite Ht. destruct (Nat.ltb_spec i (Z.to_nat off + length bs)).
    + by rewrite lookup_app_l by lia.
    + rewrite lookup_app_r by lia. rewrite lookup_drop. f_equal. lia.
  - rewrite lookup_app_l by lia. by rewrite lookup_take_lt by lia.
Qed.

Lemma lookup_slice l off n i :
  0 <= off -> slice l off n !! i = if (i <? Z.to_nat n)%nat then l !! (Z.to_nat off + i)%nat else None.
Proof.
  intros. unfold slice. destruct (Nat.ltb_spec i (Z.to_nat n)).
  - by rewrite lookup_take_lt, lookup_drop by done.
  - by rewrite lookup_take_ge by lia.
Qed.

(** A slice that does not meet the bytes written is as it was. *)
Lemma buf_put_other l off bs l' a n :
  buf_put l off bs = Ok l' -> 0 <= a -> a + n <= off \/ off + buf_len bs <= a ->
  slice l' a n = slice l a n.
Proof.
  intros Hp Ha Hd. pose proof (buf_put_Ok _ _ _ _ Hp) as (H0 & H1 & _). apply list_eq. intros i.
  rewrite !lookup_slice by done. destruct (Nat.ltb_spec i (Z.to_nat n)); [|done].
  rewrite (lookup_buf_put _ _ _ _ _ Hp). unfold buf_len in *.
  destruct (Nat.leb_spec (Z.to_nat off) (Z.to_nat a + i)); [|done].
  destruct (Nat.ltb_spec (Z.to_nat a + i) (Z.to_nat off + length bs)); [lia|done].
Qed.

Lemma slice_all l : slice l 0 (buf_len l) = l.
Proof. unfold slice, buf_len. by rewrite Nat2Z.id, firstn_all. Qed.

Lemma slice_split b a n m : 0 <= a -> 0 <= n -> 0 <= m -> slice b a (n + m) = slice b a n ++ slice b (a + n) m.
Proof.
  intros. unfold slice. rewrite !Z2Nat.inj_add by lia. rewrite <- take_take_drop. f_equal. by rewrite drop_drop.
Qed.

(** [l'] differs from [l] at most between [lo] and [hi]. *)
Record confined (lo hi : Z) (l l' : list Z) : Prop := {
  confined_len : buf_len l' = buf_len l;
  confined_out : forall a n, 0 <= a -> a + n <= lo \/ hi <= a -> slice l' a n = slice l a n
}.

#[export] Instance confined_preorder lo hi : PreOrder (confined lo hi).
Proof.
  split.
  - intros l. by split.
  - intros l1 l2 l3 [L1 O1] [L2 O2]. split; [lia|]. intros a n Ha Hor. by rewrite O2, O1.
Qed.

Lemma confined_weaken lo hi lo' hi' l l' : lo' <= lo -> hi <= hi' -> confined lo hi l l' -> confined lo' hi' l l'.
Proof. intros ? ? [L O]. split; [done|]. intros a n Ha Hor. apply O; lia. Qed.

Lemma buf_put_confined l off bs l' : buf_put l off bs = Ok l' -> confined off (off + buf_len bs) l l'.
Proof.
  intros H. pose proof (buf_put_Ok _ _ _ _ H) as (_ & _ & L & _). split; [done|].
  intros a n Ha Hor. apply (buf_put_other _ _ _ _ _ _ H); [done|lia].
Qed.

(** A write inside [lo] and [hi] of a buffer that reaches that far. *)
Lemma buf_put_within lo hi l off bs :
  0 <= off -> lo <= off -> off + buf_len bs <= hi -> hi <= buf_len l ->
  exists l', buf_put l off bs = Ok l' /\ confined lo hi l l' /\ slice l' off (buf_len bs) = bs.
Proof.
  intros H0 Hlo Hhi Hl. destruct (buf_put_in l off bs) as [l' E]; [lia..|]. exists l'. split; [done|]. split.
  - apply (confined_weaken off (off + buf_len bs)); [lia..|]. by apply buf_put_confined.
  - exact (buf_put_same _ _ _ _ E).
Qed.

Lemma confined_slice lo hi l l' a n v :
  confined lo hi l l' -> 0 <= a -> a + n <= lo \/ hi <= a -> slice l a n = v -> slice l' a n = v.
Proof. intros [_ O] Ha Hor <-. by apply O. Qed.

Lemma buf_len_le_bytes n v : buf_len (le_bytes n v) = Z.of_nat n.
Proof. unfold buf_len. by rewrite length_le_bytes. Qed.

(** A row of writes, each given by its offset and its bytes. *)
Definition put_all (l : list Z) (ws : list (Z * list Z)) : res (list Z) :=
  fold_res (fun l w => buf_put l w.1 w.2) ws l.

Definition write_in (lo hi : Z) (w : Z * list Z) : Prop := 0 <= w.1 /\ lo <= w.1 /\ w.1 + buf_len w.2 <= hi.

(** No later write meets an earlier one. *)
Fixpoint apart (ws : list (Z * list Z)) : Prop :=
  match ws with
  | [] => True
  | w :: ws => Forall (fun v => w.1 + buf_len w.2 <= v.1 \/ v.1 + buf_len v.2 <= w.1) ws /\ apart ws
  end.

Lemma put_all_spec lo hi ws : forall l,
  hi <= buf_len l -> Forall (write_in lo hi) ws -> apart ws ->
  exists l', put_all l ws = Ok l' /\ confined lo hi l l' /\
    Forall (fun w => slice l' w.1 (buf_len w.2) = w.2) ws /\
    (forall a n, 0 <= a -> Forall (fun w => a + n <= w.1 \/ w.1 + buf_len w.2 <= a) ws -> slice l' a n = slice l a n).
Proof.
  induction ws as [|[off bs] ws IH]; intros l Hl Hin Hap; unfold put_all in *; cbn [fold_res].
  { exists l. split_and!; done. }
  apply Forall_cons_1 in Hin as [(H0 & Hlo & Hhi) Hin]. destruct Hap as [Hap1 Hap]. cbn [fst snd] in *.
  destruct (buf_put_within lo hi l off bs) as (l1 & E1 & C1 & S1); [lia..|]. rewrite E1. cbn [mbind res_bind].
  destruct (IH l1) as (l' & E & C & F & O); [rewrite (confined_len _ _ _ _ C1); lia|done|done|].
  exists l'. split_and!; [done|by transitivity l1| |].
  - constructor; [|done]. cbn [fst snd]. rewrite O; done.
  - intros a n Ha Hor. apply Forall_cons_1 in Hor as [Hor Hors]. rewrite O by done.
    apply (buf_put_other _ _ _ _ _ _ E1); [done|]. cbn [fst snd] in Hor. lia.
Qed.

Lemma confined_lookup lo hi l l' k :
  confined lo hi l l' -> Z.of_nat k < lo \/ hi <= Z.of_nat k -> l' !! k = l !! k.
Proof.
  intros [_ O] Hor. specialize (O (Z.of_nat k) 1 ltac:(lia) ltac:(lia)).
  apply (f_equal (fun s => s !! 0%nat)) in O. rewrite !lookup_slice, Nat2Z.id, Nat.add_0_r in O by lia. exact O.
Qed.
