(* ===== verification/SyscallTable.v ===== *)
(** * Syscall numbers and argument flags (src/src/syscall)

    The BSD to Linux number table, the per-syscall argument flags and the
    five flag translators of flag_translation.c, as total functions on the
    C [int] arguments.  Linux constants are those of x86-64. *)
From Stdlib Require Import ZArith Lia Bool.
From stdpp Require Import base list numbers.
From S2P Require Import Prelude.

(** Linux x86-64 system call numbers ([<asm/unistd_64.h>]). *)
Definition SYS_fork : Z := 57.
Definition SYS_read : Z := 0.
Definition SYS_write : Z := 1.
Definition SYS_open : Z := 2.
Definition SYS_close : Z := 3.
Definition SYS_wait4 : Z := 61.
Definition SYS_link : Z := 86.
Definition SYS_unlink : Z := 87.
Definition SYS_chdir : Z := 80.
Definition SYS_fchdir : Z := 81.
Definition SYS_mknod : Z := 133.
Definition SYS_chmod : Z := 90.
Definition SYS_chown : Z := 92.
Definition SYS_getpid : Z := 39.
Definition SYS_setuid : Z := 105.
Definition SYS_getuid : Z := 102.
Definition SYS_geteuid : Z := 107.
Definition SYS_recvmsg : Z := 47.
Definition SYS_sendmsg : Z := 46.
Definition SYS_recvfrom : Z := 45.
Definition SYS_accept : Z := 43.
Definition SYS_getpeername : Z := 52.
Definition SYS_getsockname : Z := 51.
Definition SYS_access : Z := 21.
Definition SYS_sync : Z := 162.
Definition SYS_kill : Z := 62.
Definition SYS_getppid : Z := 110.
Definition SYS_dup : Z := 32.
Definition SYS_pipe : Z := 22.
Definition SYS_getegid : Z := 108.
Definition SYS_rt_sigaction : Z := 13.
Definition SYS_getgid : Z := 104.
Definition SYS_rt_sigprocmask : Z := 14.
Definition SYS_sigaltstack : Z := 131.
Definition SYS_ioctl : Z := 16.
Definition SYS_symlink : Z := 88.
Definition SYS_readlink : Z := 89.
Definition SYS_execve : Z := 59.
Definition SYS_umask : Z := 95.
Definition SYS_chroot : Z := 161.
Definition SYS_msync : Z := 26.
Definition SYS_munmap : Z := 11.
Definition SYS_mprotect : Z := 10.
Definition SYS_madvise : Z := 28.
Definition SYS_mincore : Z := 27.
Definition SYS_getgroups : Z := 115.
Definition SYS_setgroups : Z := 116.
Definition SYS_getpgrp : Z := 111.
Definition SYS_setpgid : Z := 109.
Definition SYS_setitimer : Z := 38.
Definition SYS_getitimer : Z := 36.
Definition SYS_dup2 : Z := 33.
Definition SYS_fcntl : Z := 72.
Definition SYS_select : Z := 23.
Definition SYS_fsync : Z := 74.
Definition SYS_setpriority : Z := 141.
Definition SYS_socket : Z := 41.
Definition SYS_connect : Z := 42.
Definition SYS_getpriority : Z := 140.
Definition SYS_gettimeofday : Z := 96.
Definition SYS_getrusage : Z := 98.
Definition SYS_getsockopt : Z := 55.
Definition SYS_readv : Z := 19.
Definition SYS_writev : Z := 20.
Definition SYS_settimeofday : Z := 164.
Definition SYS_fchown : Z := 93.
Definition SYS_fchmod : Z := 91.
Definition SYS_setreuid : Z := 113.
Definition SYS_setregid : Z := 114.
Definition SYS_rename : Z := 82.
Definition SYS_flock : Z := 73.
Definition SYS_sendto : Z := 44.
Definition SYS_shutdown : Z := 48.
Definition SYS_socketpair : Z := 53.
Definition SYS_mkdir : Z := 83.
Definition SYS_rmdir : Z := 84.
Definition SYS_utimes : Z := 235.
Definition SYS_setsid : Z := 112.
Definition SYS_getpgid : Z := 121.
Definition SYS_pread64 : Z := 17.
Definition SYS_pwrite64 : Z := 18.
Definition SYS_fdatasync : Z := 75.
Definition SYS_mmap : Z := 9.
Definition SYS_lseek : Z := 8.
Definition SYS_truncate : Z := 76.
Definition SYS_ftruncate : Z := 77.
Definition SYS_mlock : Z := 149.
Definition SYS_munlock : Z := 150.
Definition SYS_poll : Z := 7.
Definition SYS_openat : Z := 257.
Definition SYS_renameat : Z := 264.
Definition SYS_faccessat : Z := 269.
Definition SYS_fchmodat : Z := 268.
Definition SYS_fchownat : Z := 260.
Definition SYS_unlinkat : Z := 263.
Definition SYS_readlinkat : Z := 267.
Definition SYS_getrandom : Z := 318.
Definition SYS_exit_group : Z := 231.

Definition BSD_SYSCALL_MAX : Z := 600.

Definition ARG_OPEN_FLAGS : Z := 0x0001.
Definition ARG_MMAP_FLAGS : Z := 0x0002.
Definition ARG_FCNTL_CMD : Z := 0x0004.
Definition ARG_KILL_SIGNAL : Z := 0x0008.
Definition ARG_MADVISE : Z := 0x0010.
Definition ARG_SIGACTION : Z := 0x0020.
Definition ARG_SIGPROCMASK : Z := 0x0040.
Definition ARG_FORCE_SLOW : Z := 0x0080.
Definition ARG_SIGALTSTACK : Z := 0x0100.

(** The nine argument flags, in the order of syscall_internal.h. *)
Definition arg_flag_bits : list Z :=
  [ARG_OPEN_FLAGS; ARG_MMAP_FLAGS; ARG_FCNTL_CMD; ARG_KILL_SIGNAL; ARG_MADVISE;
   ARG_SIGACTION; ARG_SIGPROCMASK; ARG_FORCE_SLOW; ARG_SIGALTSTACK].

(** A C array given by designated initialisers: the other entries are 0. *)
Fixpoint array_at (tbl : list (Z * Z)) (i : Z) : Z :=
  match tbl with
  | [] => 0
  | (k, v) :: tbl => if k =? i then v else array_at tbl i
  end.

Definition bsd_to_linux_table : list (Z * Z) := [
  (1, 231); (2, SYS_fork); (3, SYS_read); (4, SYS_write);
  (5, SYS_open); (6, SYS_close); (7, SYS_wait4); (9, SYS_link);
  (10, SYS_unlink); (12, SYS_chdir); (13, SYS_fchdir); (14, SYS_mknod);
  (15, SYS_chmod); (16, SYS_chown); (20, SYS_getpid); (23, SYS_setuid);
  (24, SYS_getuid); (25, SYS_geteuid); (27, SYS_recvmsg); (28, SYS_sendmsg);
  (29, SYS_recvfrom); (30, SYS_accept); (31, SYS_getpeername); (32, SYS_getsockname);
  (33, SYS_access); (36, SYS_sync); (37, SYS_kill); (39, SYS_getppid);
  (41, SYS_dup); (42, SYS_pipe); (43, SYS_getegid); (46, SYS_rt_sigaction);
  (47, SYS_getgid); (48, SYS_rt_sigprocmask); (53, SYS_sigaltstack); (54, SYS_ioctl);
  (57, SYS_symlink); (58, SYS_readlink); (59, SYS_execve); (60, SYS_umask);
  (61, SYS_chroot); (65, SYS_msync); (73, SYS_munmap); (74, SYS_mprotect);
  (75, SYS_madvise); (78, SYS_mincore); (79, SYS_getgroups); (80, SYS_setgroups);
  (81, SYS_getpgrp); (82, SYS_setpgid); (83, SYS_setitimer); (86, SYS_getitimer);
  (90, SYS_dup2); (92, SYS_fcntl); (93, SYS_select); (95, SYS_fsync);
  (96, SYS_setpriority); (97, SYS_socket); (98, SYS_connect); (100, SYS_getpriority);
  (116, SYS_gettimeofday); (117, SYS_getrusage); (118, SYS_getsockopt); (120, SYS_readv);
  (121, SYS_writev); (122, SYS_settimeofday); (123, SYS_fchown); (124, SYS_fchmod);
  (126, SYS_setreuid); (127, SYS_setregid); (128, SYS_rename); (131, SYS_flock);
  (133, SYS_sendto); (134, SYS_shutdown); (135, SYS_socketpair); (136, SYS_mkdir);
  (137, SYS_rmdir); (138, SYS_utimes); (147, SYS_setsid); (151, SYS_getpgid);
  (153, SYS_pread64); (154, SYS_pwrite64); (187, SYS_fdatasync); (197, SYS_mmap);
  (199, SYS_lseek); (200, SYS_truncate); (201, SYS_ftruncate); (203, SYS_mlock);
  (204, SYS_munlock); (230, SYS_poll); (396, SYS_read); (397, SYS_write);
  (398, SYS_open); (399, SYS_close); (400, SYS_wait4); (401, SYS_recvmsg);
  (402, SYS_sendmsg); (403, SYS_recvfrom); (404, SYS_accept); (405, SYS_msync);
  (406, SYS_fcntl); (407, SYS_select); (408, SYS_fsync); (409, SYS_connect);
  (411, SYS_readv); (412, SYS_writev); (413, SYS_sendto); (414, SYS_pread64);
  (415, SYS_pwrite64); (417, SYS_poll); (463, SYS_openat); (464, SYS_openat);
  (465, SYS_renameat); (466, SYS_faccessat); (467, SYS_fchmodat); (468, SYS_fchownat);
  (472, SYS_unlinkat); (473, SYS_readlinkat); (500, SYS_getrandom)
].

Definition bsd_to_linux (bsd_nr : Z) : Z := array_at bsd_to_linux_table bsd_nr.

Definition bsd_arg_flags_table : list (Z * Z) := [
  (1, ARG_FORCE_SLOW);
  (5, ARG_OPEN_FLAGS);
  (37, ARG_KILL_SIGNAL);
  (46, Z.lor ARG_SIGACTION ARG_FORCE_SLOW);
  (48, Z.lor ARG_SIGPROCMASK ARG_FORCE_SLOW);
  (53, Z.lor ARG_SIGALTSTACK ARG_FORCE_SLOW);
  (75, ARG_MADVISE);
  (92, ARG_FCNTL_CMD);
  (197, ARG_MMAP_FLAGS);
  (398, ARG_OPEN_FLAGS);
  (406, ARG_FCNTL_CMD);
  (463, ARG_OPEN_FLAGS);
  (464, ARG_OPEN_FLAGS)
].

Definition bsd_arg_flags (bsd_nr : Z) : Z := array_at bsd_arg_flags_table bsd_nr.

(** ** Linux flag values *)

Definition O_NONBLOCK : Z := 0x800.
Definition O_APPEND : Z := 0x400.
Definition O_ASYNC : Z := 0x2000.
Definition O_SYNC : Z := 0x101000.
Definition O_NOFOLLOW : Z := 0x20000.
Definition O_CREAT : Z := 0x40.
Definition O_TRUNC : Z := 0x200.
Definition O_EXCL : Z := 0x80.
Definition O_NOCTTY : Z := 0x100.
Definition O_CLOEXEC : Z := 0x80000.
Definition MAP_SHARED : Z := 0x1.
Definition MAP_PRIVATE : Z := 0x2.
Definition MAP_FIXED : Z := 0x10.
Definition MAP_NORESERVE : Z := 0x4000.
Definition MAP_ANONYMOUS : Z := 0x20.
Definition F_DUPFD_CLOEXEC : Z := 1030.
Definition MADV_FREE : Z := 8.
Definition ENOSYS : Z := 38.
Definition EINVAL : Z := 22.

(** [if (c) acc |= bit;] *)
Definition lor_if (c : bool) (bit acc : Z) : Z := if c then Z.lor acc bit else acc.

Definition translate_open_flags (macos_flags : Z) : Z :=
  let l := Z.land macos_flags 0x3 in
  let l := lor_if (has macos_flags 0x0000004) O_NONBLOCK l in
  let l := lor_if (has macos_flags 0x0000008) O_APPEND l in
  let l := lor_if (has macos_flags 0x0000040) O_ASYNC l in
  let l := lor_if (has macos_flags 0x0000080) O_SYNC l in
  let l := lor_if (has macos_flags 0x0000100) O_NOFOLLOW l in
  let l := lor_if (has macos_flags 0x0000200) O_CREAT l in
  let l := lor_if (has macos_flags 0x0000400) O_TRUNC l in
  let l := lor_if (has macos_flags 0x0000800) O_EXCL l in
  let l := lor_if (has macos_flags 0x0020000) O_NOCTTY l in
  lor_if (has macos_flags 0x1000000) O_CLOEXEC l.

Definition translate_mmap_flags (macos_flags : Z) : Z :=
  let l := 0 in
  let l := Z.lor l (Z.land macos_flags 0x3) in
  let l := lor_if (has macos_flags 0x0001) MAP_SHARED l in
  let l := lor_if (has macos_flags 0x0002) MAP_PRIVATE l in
  let l := lor_if (has macos_flags 0x0010) MAP_FIXED l in
  let l := lor_if (has macos_flags 0x0040) MAP_NORESERVE l in
  lor_if (has macos_flags 0x1000) MAP_ANONYMOUS l.

(** [static const int sig_xlate[32]]. *)
Definition sig_xlate : list (Z * Z) := [
  (0, 0); (7, 10); (8, 8); (10, 7); (12, 31); (16, 23); (17, 19); (18, 20);
  (19, 18); (20, 17); (21, 21); (22, 22); (23, 29); (24, 24); (25, 25);
  (26, 26); (27, 27); (28, 28); (29, 10); (30, 10); (31, 12)].

Definition translate_kill_signal (macos_sig : Z) : Z :=
  if (macos_sig <? 0) || (macos_sig >=? 32) then macos_sig
  else
    let linux_sig := array_at sig_xlate macos_sig in
    if linux_sig =? 0 then macos_sig else linux_sig.

Definition translate_fcntl_cmd (macos_cmd : Z) : Z :=
  match macos_cmd with
  | 0 => 0 | 1 => 1 | 2 => 2 | 3 => 3 | 4 => 4
  | 5 => 9   (* F_GETOWN *)
  | 6 => 8   (* F_SETOWN *)
  | 7 => 5   (* F_GETLK *)
  | 8 => 6   (* F_SETLK *)
  | 9 => 7   (* F_SETLKW *)
  | 67 => F_DUPFD_CLOEXEC
  | _ => -1
  end.

Definition translate_madvise (macos_advice : Z) : Z :=
  match macos_advice with
  | 0 => 0 | 1 => 1 | 2 => 2 | 3 => 3 | 4 => 4
  | 5 => MADV_FREE
  | _ => macos_advice
  end.

(** ** Lemmas *)

Lemma testbit_lor_if c bit acc k :
  Z.testbit (lor_if c bit acc) k = Z.testbit acc k || (c && Z.testbit bit k).
Proof.
  unfold lor_if. destruct c; cbn [andb].
  - apply Z.lor_spec.
  - by rewrite orb_false_r.
Qed.

(** Bit [m] of the macOS word and the Linux bits it sets. *)
Definition open_flag_bits : list (Z * Z) :=
  [(0, 0); (1, 1); (2, 11); (3, 10); (6, 13); (7, 12); (7, 20); (8, 17);
   (9, 6); (10, 9); (11, 7); (17, 8); (24, 19)].

Definition mmap_flag_bits : list (Z * Z) :=
  [(0, 0); (1, 1); (4, 4); (6, 14); (12, 5)].

Definition bit_image (tbl : list (Z * Z)) (f k : Z) : bool :=
  existsb (fun p => (p.2 =? k) && Z.testbit f p.1) tbl.

Lemma testbit_pow2 p k : 0 <= p -> Z.testbit (2 ^ p) k = (p =? k).
Proof. intros. apply Z.pow2_bits_eqb. done. Qed.

Lemma testbit_land3 f k :
  Z.testbit (Z.land f 3) k = ((0 =? k) && Z.testbit f 0) || ((1 =? k) && Z.testbit f 1).
Proof.
  rewrite Z.land_spec. change 3 with (Z.lor (2 ^ 0) (2 ^ 1)).
  rewrite Z.lor_spec, !testbit_pow2 by lia.
  destruct (Z.eqb_spec 0 k) as [<-|]; [destruct (Z.testbit f 0); reflexivity|].
  destruct (Z.eqb_spec 1 k) as [<-|]; [destruct (Z.testbit f 1); reflexivity|].
  apply andb_false_r.
Qed.

Lemma open_flags_bits f k :
  Z.testbit (translate_open_flags f) k = bit_image open_flag_bits f k.
Proof.
  unfold translate_open_flags. cbv zeta.
  change O_SYNC with (Z.lor (2 ^ 12) (2 ^ 20)).
  rewrite !testbit_lor_if, testbit_land3, Z.lor_spec.
  change 0x4 with (2 ^ 2); change 0x8 with (2 ^ 3); change 0x40 with (2 ^ 6);
  change 0x80 with (2 ^ 7); change 0x100 with (2 ^ 8); change 0x200 with (2 ^ 9);
  change 0x400 with (2 ^ 10); change 0x800 with (2 ^ 11);
  change 0x20000 with (2 ^ 17); change 0x1000000 with (2 ^ 24).
  rewrite !has_pow2 by lia.
  change O_NONBLOCK with (2 ^ 11); change O_APPEND with (2 ^ 10);
  change O_ASYNC with (2 ^ 13); change O_NOFOLLOW with (2 ^ 17);
  change O_CREAT with (2 ^ 6); change O_TRUNC with (2 ^ 9);
  change O_EXCL with (2 ^ 7); change O_NOCTTY with (2 ^ 8);
  change O_CLOEXEC with (2 ^ 19).
  rewrite !testbit_pow2 by lia.
  unfold bit_image, open_flag_bits. cbn [existsb fst snd].
  apply eq_true_iff_eq. rewrite !orb_true_iff, !andb_true_iff, !orb_true_iff.
  clear. intuition (auto; discriminate).
Qed.

Lemma mmap_flags_bits f k :
  Z.testbit (translate_mmap_flags f) k = bit_image mmap_flag_bits f k.
Proof.
  unfold translate_mmap_flags. cbv zeta. rewrite Z.lor_0_l.
  rewrite !testbit_lor_if, testbit_land3.
  change MAP_SHARED with (2 ^ 0); change MAP_PRIVATE with (2 ^ 1);
  change MAP_FIXED with (2 ^ 4); change MAP_NORESERVE with (2 ^ 14);
  change MAP_ANONYMOUS with (2 ^ 5).
  change (has f 1) with (has f (2 ^ 0)); change (has f 2) with (has f (2 ^ 1));
  change 0x10 with (2 ^ 4); change 0x40 with (2 ^ 6); change 0x1000 with (2 ^ 12).
  rewrite !has_pow2, !testbit_pow2 by lia.
  unfold bit_image, mmap_flag_bits. cbn [existsb fst snd].
  apply eq_true_iff_eq. rewrite !orb_true_iff, !andb_true_iff.
  clear. intuition (auto; discriminate).
Qed.

(** The macOS bits a translation table looks at. *)
Definition source_mask (tbl : list (Z * Z)) : Z :=
  foldr (fun p => Z.lor (2 ^ p.1)) 0 tbl.

Lemma testbit_source_mask tbl k :
  Forall (fun p => 0 <= p.1) tbl ->
  Z.testbit (source_mask tbl) k = existsb (fun p => p.1 =? k) tbl.
Proof.
  unfold source_mask. induction 1 as [|p tbl Hp _ IH]; cbn; [apply Z.bits_0|].
  by rewrite Z.lor_spec, testbit_pow2, IH by done.
Qed.

(** If the target bits of a table are pairwise distinct, the translated word
    determines exactly the masked source word. *)
Lemma bit_image_at tbl h p :
  NoDup (map snd tbl) -> p ∈ tbl -> bit_image tbl h p.2 = Z.testbit h p.1.
Proof.
  intros Hnd Hp. destruct p as [a b]. unfold bit_image. cbn [fst snd].
  induction tbl as [|[c d] tbl IH]; [by apply elem_of_nil in Hp|].
  cbn in Hnd |- *. inversion_clear Hnd as [|? ? Hnin Hnd']. rename Hnd' into Hnd.
  apply elem_of_cons in Hp as [[= -> ->]|Hp].
  - rewrite Z.eqb_refl. destruct (Z.testbit h c); [done|]. cbn.
    apply not_true_iff_false. intros [[x y] [Hx Hxy]]%existsb_exists.
    apply andb_true_iff in Hxy as [Hy%Z.eqb_eq _]. cbn in Hy. subst y.
    apply Hnin, list_elem_of_In, in_map_iff. exists (x, d). auto.
  - destruct (Z.eqb_spec d b) as [->|]; [|by apply IH].
    destruct Hnin. apply list_elem_of_In, in_map_iff.
    exists (a, b). split; [done|]. by apply list_elem_of_In.
Qed.

Lemma bit_image_faithful tbl (t : Z -> Z) :
  Forall (fun p => 0 <= p.1) tbl ->
  NoDup (map snd tbl) ->
  (forall f k, Z.testbit (t f) k = bit_image tbl f k) ->
  forall f g, t f = t g <->
    Z.land f (source_mask tbl) = Z.land g (source_mask tbl).
Proof.
  intros Hpos Hnd Ht f g.
  assert (forall f p, p ∈ tbl -> Z.testbit (t f) p.2 = Z.testbit f p.1) as Hrec.
  { intros h p Hp. rewrite Ht. by apply bit_image_at. }
  split; intros H; apply Z.bits_inj'; intros k Hk.
  - rewrite !Z.land_spec, testbit_source_mask by done.
    destruct (existsb _ tbl) eqn:E; [|by rewrite !andb_false_r].
    apply existsb_exists in E as [p [Hp%list_elem_of_In <-%Z.eqb_eq]].
    by rewrite <- !Hrec, H.
  - rewrite !Ht. unfold bit_image.
    assert (forall p, p ∈ tbl -> Z.testbit f p.1 = Z.testbit g p.1) as Heq.
    { intros p Hp. apply (f_equal (fun z => Z.testbit z p.1)) in H.
      rewrite !Z.land_spec, testbit_source_mask in H by done.
      assert (existsb (fun q => q.1 =? p.1) tbl = true) as E.
      { apply existsb_exists. exists p. rewrite Z.eqb_refl.
        split; [by apply list_elem_of_In|done]. }
      by rewrite E, !andb_true_r in H. }
    clear -Heq. induction tbl as [|p tbl IH]; cbn; [done|].
    rewrite Heq by (left). rewrite IH; [done|].
    intros q Hq. apply Heq. by right.
Qed.

Lemma kill_signal_outside s : ~ 0 <= s < 32 -> translate_kill_signal s = s.
Proof. intros H. unfold translate_kill_signal. split_ifs; lia. Qed.

(** The signals whose translation is one to one: all but SIGEMT and SIGINFO. *)
Definition faithful_signal (s : Z) : bool :=
  (1 <=? s) && (s <=? 31) && negb (s =? 7) && negb (s =? 29).

Lemma kill_signal_inj s1 s2 :
  faithful_signal s1 = true -> faithful_signal s2 = true ->
  translate_kill_signal s1 = translate_kill_signal s2 -> s1 = s2.
Proof.
  intros H1 H2 E.
  assert (forallb (fun a => forallb (fun b =>
      implb (faithful_signal a && faithful_signal b &&
             (translate_kill_signal a =? translate_kill_signal b)) (a =? b))
      (seqZ 0 32)) (seqZ 0 32) = true) as C by (vm_compute; reflexivity).
  pose proof H1 as R1. pose proof H2 as R2. unfold faithful_signal in R1, R2.
  bool_to_prop.
  pose proof (range_forallb _ _ _ C s1 ltac:(lia)) as C1. cbv beta in C1.
  pose proof (range_forallb _ _ _ C1 s2 ltac:(lia)) as C2. cbv beta in C2.
  rewrite H1, H2, E, Z.eqb_refl in C2. by apply Z.eqb_eq.
Qed.

Lemma kill_signal_range s :
  1 <= s <= 31 -> 1 <= translate_kill_signal s <= 31.
Proof.
  intros H.
  pose proof (range_forallb
    (fun a => (1 <=? translate_kill_signal a) && (translate_kill_signal a <=? 31))
    1 31 ltac:(vm_compute; reflexivity) s ltac:(lia)) as C.
  cbv beta in C. bool_to_prop. lia.
Qed.

(** ** Properties *)

(** [translate_open_flags] sets bit [k] of the Linux word
    exactly when the macOS word has a bit that [open_flag_bits] sends to [k]
    (O_SYNC sets two bits), whatever else the macOS word holds; two macOS
    words have the same translation exactly when they agree on the twelve
    bits the code understands. *)
Theorem translate_open_flags_exact (f g k : Z) :
  Z.testbit (translate_open_flags f) k = bit_image open_flag_bits f k /\
  (translate_open_flags f = translate_open_flags g <->
   Z.land f (source_mask open_flag_bits) = Z.land g (source_mask open_flag_bits)).
Proof.
  split; [apply open_flags_bits|].
  apply (bit_image_faithful open_flag_bits translate_open_flags).
  - repeat constructor; cbn; lia.
  - apply (bool_decide_unpack _). vm_compute. exact I.
  - apply open_flags_bits.
Qed.

(** The same for [translate_mmap_flags]: MAP_ANON moves from
    0x1000 to 0x20, MAP_NORESERVE from 0x40 to 0x4000, MAP_JIT and every other
    macOS-only bit disappear, and nothing the table names is lost. *)
Theorem translate_mmap_flags_exact (f g k : Z) :
  Z.testbit (translate_mmap_flags f) k = bit_image mmap_flag_bits f k /\
  (translate_mmap_flags f = translate_mmap_flags g <->
   Z.land f (source_mask mmap_flag_bits) = Z.land g (source_mask mmap_flag_bits)).
Proof.
  split; [apply mmap_flags_bits|].
  apply (bit_image_faithful mmap_flag_bits translate_mmap_flags).
  - repeat constructor; cbn; lia.
  - apply (bool_decide_unpack _). vm_compute. exact I.
  - apply mmap_flags_bits.
Qed.

(** [translate_kill_signal] leaves everything outside 0..31
    alone, keeps 0 ("probe") at 0, maps 1..31 into 1..31, is injective except
    that SIGEMT (7) and SIGINFO (29) share Linux SIGUSR1 with SIGUSR1 (30),
    and sends no signal but SIGBUS to Linux SIGBUS. *)
Theorem translate_kill_signal_spec :
  (forall s, ~ 0 <= s < 32 -> translate_kill_signal s = s) /\
  translate_kill_signal 0 = 0 /\
  (forall s, 1 <= s <= 31 -> 1 <= translate_kill_signal s <= 31) /\
  (forall s1 s2, faithful_signal s1 = true -> faithful_signal s2 = true ->
     translate_kill_signal s1 = translate_kill_signal s2 -> s1 = s2) /\
  (translate_kill_signal 7 = translate_kill_signal 30 /\
   translate_kill_signal 29 = translate_kill_signal 30) /\
  (forall s, translate_kill_signal s = 7 -> s = 10).
Proof.
  repeat split; try reflexivity.
  - apply kill_signal_outside.
  - by apply kill_signal_range.
  - by apply kill_signal_range.
  - apply kill_signal_inj.
  - intros s Hs. destruct (decide (0 <= s < 32)) as [R|R].
    + pose proof (range_forallb (fun a => implb (translate_kill_signal a =? 7) (a =? 10))
        0 32 ltac:(vm_compute; reflexivity) s ltac:(lia)) as C.
      cbv beta in C. rewrite Hs in C. by apply Z.eqb_eq.
    + rewrite kill_signal_outside in Hs by done. lia.
Qed.

(** What the two tables have to satisfy: every key a valid index given once,
    every number a Linux number that fits the [int16_t] entry, every flag set
    inside the nine [ARG_*] bits. *)
Definition table_ok : bool :=
  forallb (fun p => (0 <? p.1) && (p.1 <? BSD_SYSCALL_MAX) &&
                    (0 <=? p.2) && (p.2 <? 400)) bsd_to_linux_table &&
  bool_decide (NoDup (map fst bsd_to_linux_table)) &&
  bool_decide (NoDup (map fst bsd_arg_flags_table)) &&
  forallb (fun p => (0 <? p.1) && (p.1 <? BSD_SYSCALL_MAX) &&
     negb (bsd_to_linux p.1 =? 0) &&
     (Z.land p.2 (foldr Z.lor 0 arg_flag_bits) =? p.2)) bsd_arg_flags_table.

Lemma bsd_to_linux_range n : 0 <= bsd_to_linux n < 400.
Proof.
  unfold bsd_to_linux.
  assert (Forall (fun p => 0 <= p.2 < 400) bsd_to_linux_table) as H.
  { apply List.Forall_forall. intros p Hp.
    assert (forallb (fun q => (0 <=? q.2) && (q.2 <? 400)) bsd_to_linux_table = true)
      as C by (vm_compute; reflexivity).
    rewrite forallb_forall in C. specialize (C p Hp). bool_to_prop. lia. }
  induction H as [|[k v] tbl Hv _ IH]; cbn [array_at]; [lia|].
  destruct (k =? n); [exact Hv|exact IH].
Qed.

(** The tables are well formed: no designated initialiser
    overrides another, every index is below BSD_SYSCALL_MAX, every value lies
    between 0 and 399, every syscall with argument flags is a translated one,
    and the nine [ARG_*] flags are distinct single bits, the invariant
    syscall_internal.h asks for. *)
Theorem syscall_tables_well_formed :
  table_ok = true /\
  (forall n, 0 <= bsd_to_linux n < 400) /\
  map (fun i => 2 ^ Z.of_nat i) (seq 0 9) = arg_flag_bits.
Proof.
  split; [by vm_compute|]. split; [|reflexivity].
  exact bsd_to_linux_range.
Qed.
