(* ===== verification/Leb128.v ===== *)
(** * ULEB128 and SLEB128 readers (src/src/fixups.c)

    [read_uleb128] and [read_sleb128] advance a pointer towards [end]; here
    they consume a prefix of the bytes that are left.  A shift by 64 or more
    is undefined in C and is [Undef] here.  The reference encoders give the
    round trips; the consumption lemmas are the progress measure of the
    opcode interpreters built on these readers. *)
From Stdlib Require Import ZArith Lia Bool.
From stdpp Require Import base list numbers.
From S2P Require Import Prelude.

Fixpoint uleb_loop (bs : list Z) (result shift : Z) : res (Z * list Z) :=
  match bs with
  | [] => Ok (result, [])
  | byte :: bs =>
      if shift >=? 64 then Undef
      else
        let result := Z.lor result (u64 (Z.shiftl (Z.land byte 0x7f) shift)) in
        if negb (has byte 0x80) then Ok (result, bs)
        else uleb_loop bs result (shift + 7)
  end.

Definition read_uleb128 (bs : list Z) : res (Z * list Z) := uleb_loop bs 0 0.

(** The sign extension at the end of [read_sleb128]; [1 << 63] and its
    negation wrap, as gcc compiles them. *)
Definition sleb_finish (result shift byte : Z) : Z :=
  if (shift <? 64) && has byte 0x40
  then Z.lor result (i64 (- i64 (Z.shiftl 1 shift)))
  else result.

Fixpoint sleb_loop (bs : list Z) (result shift byte : Z) : res (Z * list Z) :=
  match bs with
  | [] => Ok (sleb_finish result shift byte, [])
  | byte :: bs =>
      if shift >=? 64 then Undef
      else
        let result := Z.lor result (i64 (Z.shiftl (Z.land byte 0x7f) shift)) in
        let shift := shift + 7 in
        if negb (has byte 0x80) then Ok (sleb_finish result shift byte, bs)
        else sleb_loop bs result shift byte
  end.

Definition read_sleb128 (bs : list Z) : res (Z * list Z) := sleb_loop bs 0 0 0.

(** ** Reference encoders *)

Fixpoint uleb_enc (fuel : nat) (n : Z) : list Z :=
  match fuel with
  | O => []
  | S fuel => if n <? 128 then [n] else (n mod 128 + 128) :: uleb_enc fuel (n / 128)
  end.

Definition uleb_encode (n : Z) : list Z := uleb_enc 10 n.

Fixpoint sleb_enc (fuel : nat) (n : Z) : list Z :=
  match fuel with
  | O => []
  | S fuel => if (-64 <=? n) && (n <? 64) then [n mod 128]
              else (n mod 128 + 128) :: sleb_enc fuel (n / 128)
  end.

Definition sleb_encode (n : Z) : list Z := sleb_enc 10 n.

#[global] Arguments read_uleb128 : simpl never.
#[global] Arguments read_sleb128 : simpl never.
#[global] Arguments uleb_encode : simpl never.
#[global] Arguments sleb_encode : simpl never.

(** ** Lemmas *)

Lemma lor_add_high a b k :
  0 <= k -> 0 <= a < 2 ^ k -> Z.lor a (b * 2 ^ k) = a + b * 2 ^ k.
Proof.
  intros Hk Ha.
  assert (Z.land a (b * 2 ^ k) = 0) as H.
  { apply Z.bits_inj'. intros i Hi. rewrite Z.land_spec, Z.bits_0.
    destruct (Z.ltb_spec i k).
    - rewrite Z.mul_pow2_bits_low by lia. apply andb_false_r.
    - rewrite <- (Z.mod_small a (2 ^ k)) by lia.
      rewrite Z.mod_pow2_bits_high by lia. done. }
  rewrite Z.add_nocarry_lxor, Z.lxor_lor by done. done.
Qed.

Lemma land_7f b : Z.land b 0x7f = b mod 128.
Proof. change 0x7f with (Z.ones 7). rewrite Z.land_ones by lia. done. Qed.

Lemma has_80 b : 0 <= b < 256 -> has b 0x80 = (128 <=? b).
Proof.
  intros Hb. change 0x80 with (2 ^ 7). rewrite has_pow2 by lia.
  rewrite Z.testbit_eqb by lia. change (2 ^ 7) with 128.
  destruct (Z.leb_spec 128 b).
  - replace (b / 128) with 1; [done|]. apply (Z.div_unique _ _ _ (b - 128)); lia.
  - rewrite Z.div_small by lia. done.
Qed.

Lemma has_40 b : 0 <= b < 128 -> has b 0x40 = (64 <=? b).
Proof.
  intros Hb. change 0x40 with (2 ^ 6). rewrite has_pow2 by lia.
  rewrite Z.testbit_eqb by lia. change (2 ^ 6) with 64.
  destruct (Z.leb_spec 64 b).
  - replace (b / 64) with 1; [done|]. apply (Z.div_unique _ _ _ (b - 64)); lia.
  - rewrite Z.div_small by lia. done.
Qed.

Lemma uleb_loop_enc fuel n result shift rest :
  0 <= shift < 64 -> 0 <= result < 2 ^ shift ->
  0 <= n < 2 ^ (64 - shift) -> n < 128 ^ Z.of_nat fuel -> (0 < fuel)%nat ->
  uleb_loop (uleb_enc fuel n ++ rest) result shift = Ok (result + n * 2 ^ shift, rest).
Proof.
  revert n result shift.
  induction fuel as [|fuel IH]; intros n result shift Hs Hr Hn Hf Hp; [lia|].
  assert (2 ^ 64 = 2 ^ (64 - shift) * 2 ^ shift) as E64
    by (rewrite <- Z.pow_add_r by lia; f_equal; lia).
  assert (0 < 2 ^ shift) by (apply Z.pow_pos_nonneg; lia).
  cbn [uleb_enc]. destruct (Z.ltb_spec n 128) as [Hlt|Hge].
  - cbn [app uleb_loop]. replace (shift >=? 64) with false by lia.
    rewrite has_80, land_7f, Z.shiftl_mul_pow2 by lia.
    replace (128 <=? n) with false by lia. cbn [negb].
    rewrite Z.mod_small by lia. rewrite u64_small by nia.
    by rewrite lor_add_high by lia.
  - cbn [app uleb_loop]. replace (shift >=? 64) with false by lia.
    pose proof (Z.mod_pos_bound n 128 ltac:(lia)) as Hm.
    pose proof (Z.div_mod n 128 ltac:(lia)) as Hd.
    rewrite has_80, land_7f, Z.shiftl_mul_pow2 by lia.
    replace (128 <=? n mod 128 + 128) with true by lia. cbn [negb].
    replace ((n mod 128 + 128) mod 128) with (n mod 128)
      by (apply (Z.mod_unique _ _ 1); lia).
    rewrite u64_small by nia. rewrite lor_add_high by lia.
    assert (7 <= 64 - shift) as H7.
    { destruct (Z.le_gt_cases 7 (64 - shift)); [done|].
      pose proof (Z.pow_le_mono_r 2 (64 - shift) 6 ltac:(lia) ltac:(lia)). lia. }
    assert (2 ^ (64 - shift) = 128 * 2 ^ (64 - (shift + 7))) as E7.
    { change 128 with (2 ^ 7). rewrite <- Z.pow_add_r by lia. f_equal. lia. }
    assert (128 ^ Z.of_nat (S fuel) = 128 * 128 ^ Z.of_nat fuel) as Ef
      by (rewrite Nat2Z.inj_succ, Z.pow_succ_r by lia; done).
    assert (2 ^ (shift + 7) = 2 ^ shift * 128) as Es
      by (rewrite Z.pow_add_r by lia; done).
    assert (0 < fuel)%nat.
    { destruct fuel; [|lia]. change (128 ^ Z.of_nat 1) with 128 in Hf. lia. }
    assert (shift + 7 < 64).
    { destruct (decide (shift + 7 = 64)) as [Eq|]; [|lia].
      rewrite Eq in E7. change (2 ^ (64 - 64)) with 1 in E7. lia. }
    rewrite IH by (try lia; nia).
    f_equal. f_equal. rewrite Es. nia.
Qed.

Lemma uleb_loop_progress bs result shift v rest :
  uleb_loop bs result shift = Ok (v, rest) ->
  exists used, bs = used ++ rest /\ (bs <> [] -> used <> []).
Proof.
  revert result shift. induction bs as [|b bs IH]; intros result shift; cbn.
  - intros [= _ <-]. exists []. done.
  - destruct (shift >=? 64); [done|]. destruct (negb _).
    + intros [= _ <-]. exists [b]. done.
    + intros H. destruct (IH _ _ H) as (used & -> & _). exists (b :: used). done.
Qed.

Lemma read_uleb128_length bs v rest :
  read_uleb128 bs = Ok (v, rest) -> (length rest <= length bs)%nat.
Proof.
  intros (used & -> & _)%uleb_loop_progress. rewrite length_app. lia.
Qed.

Lemma uleb_loop_range bs result shift v rest :
  0 <= result < 2 ^ 64 -> uleb_loop bs result shift = Ok (v, rest) -> 0 <= v < 2 ^ 64.
Proof.
  revert result shift. induction bs as [|b bs IH]; intros result shift Hr; cbn.
  - intros [= <- _]. done.
  - destruct (shift >=? 64); [done|].
    set (r := Z.lor _ _). assert (0 <= r < 2 ^ 64) as Hr'.
    { unfold r, u64. pose proof (Z.mod_pos_bound (Z.shiftl (Z.land b 127) shift) (2 ^ 64)).
      split; [apply Z.lor_nonneg; lia|].
      destruct (Z.eq_dec (Z.lor result (Z.shiftl (Z.land b 127) shift mod 2 ^ 64)) 0); [lia|].
      apply Z.log2_lt_pow2; [assert (0 <= Z.lor result (Z.shiftl (Z.land b 127) shift mod 2 ^ 64)) by (apply Z.lor_nonneg; lia); lia|].
      rewrite Z.log2_lor by lia.
      assert (forall x, 0 <= x < 2 ^ 64 -> Z.log2 x < 64) as L.
      { intros x Hx. destruct (Z.eq_dec x 0) as [->|]; [done|].
        apply Z.log2_lt_pow2; lia. }
      apply Z.max_lub_lt; apply L; lia. }
    destruct (negb _); [intros [= <- _]; done|]. by apply IH.
Qed.

Lemma uleb_loop_no_fuel bs result shift : uleb_loop bs result shift <> NoFuel.
Proof.
  revert result shift. induction bs as [|b bs IH]; intros result shift; cbn; [done|].
  destruct (shift >=? 64); [done|]. destruct (negb _); [done|]. apply IH.
Qed.

Lemma uleb_loop_defined bs result shift :
  shift + 7 * Z.of_nat (length bs) < 71 -> exists r, uleb_loop bs result shift = Ok r.
Proof.
  revert result shift. induction bs as [|b bs IH]; intros result shift H; cbn; [eauto|].
  cbn [length] in H. replace (shift >=? 64) with false by lia.
  destruct (negb _); [eauto|]. apply IH. lia.
Qed.

Lemma i64_small z : - 2 ^ 63 <= z < 2 ^ 63 -> i64 z = z.
Proof. apply (signed_small 64). lia. Qed.

(** The last byte of an encoding, and the sign extension after it. *)
Lemma sleb_last n result shift :
  0 <= shift < 64 -> 0 <= result < 2 ^ shift -> (shift <= 56 \/ shift = 63) ->
  -64 <= n < 64 -> - 2 ^ (63 - shift) <= n < 2 ^ (63 - shift) ->
  sleb_finish (Z.lor result (i64 (Z.shiftl (n mod 128) shift))) (shift + 7) (n mod 128)
  = result + n * 2 ^ shift.
Proof.
  intros Hs Hr Hsh Hn Hb. unfold sleb_finish.
  pose proof (Z.mod_pos_bound n 128 ltac:(lia)) as Hm.
  assert (n mod 128 = if n <? 0 then n + 128 else n) as Hmod.
  { destruct (Z.ltb_spec n 0).
    - symmetry. apply (Z.mod_unique _ _ (-1)); lia.
    - apply Z.mod_small. lia. }
  rewrite has_40 by lia. rewrite Z.shiftl_mul_pow2 by lia.
  destruct Hsh as [Hsh| ->].
  - assert (0 < 2 ^ shift) by (apply Z.pow_pos_nonneg; lia).
    assert (2 ^ shift <= 2 ^ 56) as Hle by (apply Z.pow_le_mono_r; lia).
    assert (128 * 2 ^ 56 = 2 ^ 63) as E63 by reflexivity.
    rewrite (i64_small (n mod 128 * 2 ^ shift)) by nia.
    rewrite lor_add_high by lia.
    replace (shift + 7 <? 64) with true by lia. cbn [andb].
    assert (2 ^ (shift + 7) = 128 * 2 ^ shift) as E7
      by (rewrite Z.pow_add_r by lia; lia).
    rewrite Z.shiftl_1_l.
    assert (i64 (- i64 (2 ^ (shift + 7))) = (-1) * 2 ^ (shift + 7)) as ->.
    { destruct (Z.eq_dec shift 56) as [->|]; [reflexivity|].
      assert (2 ^ (shift + 7) <= 2 ^ 62) by (apply Z.pow_le_mono_r; lia).
      change (2 ^ 62) with 4611686018427387904 in *.
      rewrite (i64_small (2 ^ (shift + 7))) by lia. rewrite i64_small by lia. lia. }
    rewrite Hmod. destruct (Z.ltb_spec n 0).
    + replace (64 <=? n + 128) with true by lia.
      rewrite lor_add_high by nia. rewrite E7. nia.
    + replace (64 <=? n) with false by lia. done.
  - change (2 ^ (63 - 63)) with 1 in Hb.
    replace (63 + 7 <? 64) with false by lia. cbn [andb].
    assert (n = -1 \/ n = 0) as [-> | ->] by lia.
    + change (i64 (-1 mod 128 * 2 ^ 63)) with ((-1) * 2 ^ 63). by apply lor_add_high.
    + change (i64 (0 mod 128 * 2 ^ 63)) with 0. rewrite Z.lor_0_r. lia.
Qed.

Lemma sleb_loop_enc fuel n result shift b0 rest :
  (exists k, shift = 7 * k /\ 0 <= k <= 9) -> 0 <= result < 2 ^ shift ->
  - 2 ^ (63 - shift) <= n < 2 ^ (63 - shift) ->
  - 64 * 128 ^ (Z.of_nat fuel - 1) <= n < 64 * 128 ^ (Z.of_nat fuel - 1) ->
  (0 < fuel)%nat ->
  sleb_loop (sleb_enc fuel n ++ rest) result shift b0 = Ok (result + n * 2 ^ shift, rest).
Proof.
  revert n result shift b0.
  induction fuel as [|fuel IH]; intros n result shift b0 [k [Ek Hk]] Hr Hn Hf Hp; [lia|].
  assert (0 < 2 ^ shift) by (apply Z.pow_pos_nonneg; lia).
  assert (2 ^ 63 = 2 ^ (63 - shift) * 2 ^ shift) as E63
    by (rewrite <- Z.pow_add_r by lia; f_equal; lia).
  pose proof (Z.mod_pos_bound n 128 ltac:(lia)) as Hm.
  cbn [sleb_enc]. destruct ((-64 <=? n) && (n <? 64)) eqn:Esm.
  - bool_to_prop. cbn [app sleb_loop]. replace (shift >=? 64) with false by lia.
    rewrite has_80, land_7f by lia.
    replace (128 <=? n mod 128) with false by lia. cbn [negb].
    rewrite Z.mod_mod by lia. rewrite sleb_last; [done|lia|done|lia|lia|done].
  - cbn [app sleb_loop]. replace (shift >=? 64) with false by lia.
    pose proof (Z.div_mod n 128 ltac:(lia)) as Hd.
    rewrite has_80, land_7f, Z.shiftl_mul_pow2 by lia.
    replace (128 <=? n mod 128 + 128) with true by lia. cbn [negb].
    replace ((n mod 128 + 128) mod 128) with (n mod 128)
      by (apply (Z.mod_unique _ _ 1); lia).
    assert (n < -64 \/ 64 <= n) as Hbig
      by (apply andb_false_iff in Esm as [?|?]; bool_to_prop; lia).
    assert (7 <= 63 - shift) as H7.
    { destruct (Z.le_gt_cases 7 (63 - shift)); [done|].
      assert (k = 9) as -> by lia. subst shift.
      change (2 ^ (63 - 7 * 9)) with 1 in Hn. lia. }
    assert (2 ^ (63 - shift) = 128 * 2 ^ (63 - (shift + 7))) as E7.
    { change 128 with (2 ^ 7). rewrite <- Z.pow_add_r by lia. f_equal. lia. }
    assert (2 ^ (shift + 7) = 128 * 2 ^ shift) as Es
      by (rewrite Z.pow_add_r by lia; lia).
    assert (0 < 2 ^ (63 - (shift + 7))) by (apply Z.pow_pos_nonneg; lia).
    rewrite i64_small by nia. rewrite lor_add_high by lia.
    assert (0 < fuel)%nat.
    { destruct fuel; [|lia]. cbn in Hf. lia. }
    assert (128 ^ (Z.of_nat (S fuel) - 1) = 128 * 128 ^ (Z.of_nat fuel - 1)) as Ef
      by (rewrite <- Z.pow_succ_r by lia; f_equal; lia).
    rewrite IH; [|exists (k + 1); lia|nia|nia|nia|lia].
    f_equal. f_equal. rewrite Es. nia.
Qed.

Lemma sleb_loop_progress bs result shift b0 v rest :
  sleb_loop bs result shift b0 = Ok (v, rest) ->
  exists used, bs = used ++ rest /\ (bs <> [] -> used <> []).
Proof.
  revert result shift b0. induction bs as [|b bs IH]; intros result shift b0; cbn.
  - intros [= _ <-]. exists []. done.
  - destruct (shift >=? 64); [done|]. destruct (negb _).
    + intros [= _ <-]. exists [b]. done.
    + intros H. destruct (IH _ _ _ H) as (used & -> & _). exists (b :: used). done.
Qed.

Lemma read_sleb128_length bs v rest :
  read_sleb128 bs = Ok (v, rest) -> (length rest <= length bs)%nat.
Proof.
  intros (used & -> & _)%sleb_loop_progress. rewrite length_app. lia.
Qed.

Lemma sleb_loop_no_fuel bs result shift b0 : sleb_loop bs result shift b0 <> NoFuel.
Proof.
  revert result shift b0. induction bs as [|b bs IH]; intros result shift b0; cbn; [done|].
  destruct (shift >=? 64); [done|]. destruct (negb _); [done|]. apply IH.
Qed.

(** The readers undo the encoders. *)
Lemma uleb_read_back (n : Z) (rest : list Z) :
  is_u64 n -> read_uleb128 (uleb_encode n ++ rest) = Ok (n, rest).
Proof.
  intros Hn. unfold is_u64 in Hn. unfold read_uleb128, uleb_encode.
  rewrite uleb_loop_enc; [f_equal; f_equal; lia|lia|lia|done| |lia].
  assert (2 ^ 64 <= 128 ^ Z.of_nat 10) by (vm_compute; discriminate). lia.
Qed.

Lemma sleb_read_back (n : Z) (rest : list Z) :
  - 2 ^ 63 <= n < 2 ^ 63 -> read_sleb128 (sleb_encode n ++ rest) = Ok (n, rest).
Proof.
  intros Hn. unfold read_sleb128, sleb_encode.
  rewrite sleb_loop_enc;
    [f_equal; f_equal; lia|by exists 0|lia|by rewrite Z.sub_0_r| |lia].
  assert (2 ^ 63 <= 64 * 128 ^ (Z.of_nat 10 - 1)) by (vm_compute; discriminate). lia.
Qed.

(** ** Properties *)

(** C37 (roundtrip): the two number readers of the opcode streams invert the
    LEB128 encoding.  Every 64-bit unsigned number and every 64-bit signed one,
    the smallest included, is read back from its shortest encoding, of at
    most ten bytes, and the reader stops right behind it, whatever follows.
    Encodings of more than ten bytes are not covered: the code shifts by 64
    or more there ([read_uleb128_bounds]). *)
Theorem leb128_roundtrip (n m : Z) (rest : list Z) :
  is_u64 n -> - 2 ^ 63 <= m < 2 ^ 63 ->
  read_uleb128 (uleb_encode n ++ rest) = Ok (n, rest) /\ read_sleb128 (sleb_encode m ++ rest) = Ok (m, rest).
Proof. intros Hn Hm. split; [by apply uleb_read_back|by apply sleb_read_back]. Qed.

Lemma leb128_roundtrip_witness :
  read_uleb128 (uleb_encode 624485 ++ [7]) = Ok (624485, [7]) /\
  read_sleb128 (sleb_encode (- 2 ^ 63) ++ [7]) = Ok (- 2 ^ 63, [7]).
Proof. apply leb128_roundtrip; [unfold is_u64|]; lia. Defined.

(** On at most ten bytes [read_uleb128] is defined, returns a
    value below 2^64 and consumes at least one byte of a non-empty input,
    but a run of ten continuation bytes makes it shift by 70, which C leaves
    undefined: the readers have no bound on the length of an encoding. *)
Theorem read_uleb128_bounds :
  (forall bs, (length bs <= 10)%nat ->
     exists v rest, read_uleb128 bs = Ok (v, rest) /\ is_u64 v /\
       exists used, bs = used ++ rest /\ (bs <> [] -> used <> [])) /\
  read_uleb128 (replicate 10 0x80 ++ [0x01]) = Undef.
Proof.
  split; [|reflexivity]. intros bs Hl.
  destruct (uleb_loop_defined bs 0 0 ltac:(lia)) as [[v rest] H].
  exists v, rest. split; [done|]. split.
  - eapply uleb_loop_range; [|exact H]. lia.
  - by apply (uleb_loop_progress bs 0 0 v).
Qed.
