(* ===== verification/LoaderState.v ===== *)
(** * The loader's data (src/src/macify.h, globals of src/src/segments.c)

    The Mach-O records the loader keeps while an image is being set up.  A
    pointer is the 64-bit address as a [Z], with 0 for NULL. *)
From Stdlib Require Import ZArith Lia Bool.
From stdpp Require Import base gmap list strings numbers.
From S2P Require Import Prelude.

Definition MAX_SEGMENTS : nat := 32.
Definition MAX_SECTIONS : nat := 64.
Definition MAX_DYLIBS : nat := 32.
Definition MAX_MACHO_DYLIBS : nat := 64.
Definition MAX_DYLIB_SYMS : Z := 16384.
Definition MAX_EXTRA_HANDLES : nat := 16.

Record loaded_segment := mk_segment {
  vmaddr : Z;          (* slid, except for __PAGEZERO *)
  vmsize : Z;
  prot : Z;
  target_prot : Z;
  seg_name : string;
  is_pagezero : bool
}.

Record loaded_section := mk_section {
  sectname : string;
  segname : string;
  sec_addr : Z;        (* slid *)
  sec_size : Z;
  sec_offset : Z;
  sec_flags : Z;
  sec_reserved1 : Z;
  sec_reserved2 : Z
}.

Record loaded_dylib := mk_dylib {
  dy_name : string;
  dy_handle : Z;
  libc_handle : Z;
  libm_handle : Z
}.

Record macho_dylib := mk_macho_dylib {
  md_name : string;
  md_slide : Z;
  md_exports : list (string * Z)
}.

(** [nlist_64]. *)
Record nlist_64 := mk_nlist {
  n_strx : Z; n_type : Z; n_sect : Z; n_desc : Z; n_value : Z
}.

(** [g_segments[i]]: the array has [MAX_SEGMENTS] entries, those not yet
    filled in are zero; an index outside it is undefined. *)
Definition zero_segment : loaded_segment := mk_segment 0 0 0 0 EmptyString false.

Definition segment_at (segs : list loaded_segment) (i : Z) : res loaded_segment :=
  if (i <? 0) || (i >=? Z.of_nat MAX_SEGMENTS) then Undef
  else Ok (default zero_segment (segs !! Z.to_nat i)).

Definition nsegments (segs : list loaded_segment) : Z := Z.of_nat (length segs).

Lemma segment_at_valid segs i :
  0 <= i < nsegments segs -> (length segs <= MAX_SEGMENTS)%nat ->
  exists s, segs !! Z.to_nat i = Some s /\ segment_at segs i = Ok s.
Proof.
  intros Hi Hl. unfold nsegments, MAX_SEGMENTS in *. unfold segment_at, MAX_SEGMENTS.
  destruct (lookup_lt_is_Some_2 segs (Z.to_nat i)) as [s Hs]; [lia|].
  exists s. rewrite Hs. split; [done|].
  destruct ((i <? 0) || (i >=? Z.of_nat 32)) eqn:E; [|done].
  apply orb_true_iff in E as [?|?]; bool_to_prop; lia.
Qed.
