(* ===== verification/Rebase.v ===== *)
(** * Rebase opcodes (src/src/fixups.c, [execute_rebases])

    The LC_DYLD_INFO rebase bytecode interpreter, over the bytes of the
    opcode stream and the process memory.  [rop] is the abstract syntax of a
    rebase program and [rop_targets] the locations it names; the refinement
    theorem says that running the encoded program adds the slide to the
    pointers at these locations, in order, and does nothing else. *)
From Stdlib Require Import ZArith Lia Bool.
From stdpp Require Import base gmap list strings numbers.
From S2P Require Import Prelude LoaderState Leb128.

Definition REBASE_TYPE_POINTER : Z := 1.

(** The local variables of [execute_rebases] and the memory it writes. *)
Record rb_state := mk_rb {
  rb_type : Z; rb_seg_index : Z; rb_seg_offset : Z; rb_mem : mem
}.

Section interpreter.
  Context (segs : list loaded_segment) (g_slide : Z).

(** [DO_ONE_REBASE()] *)
Definition do_one_rebase (st : rb_state) : res (ctl rb_state) :=
  if (rb_seg_index st <? 0) || (rb_seg_index st >=? nsegments segs)
  then Ok (Return (-1) st)
  else
    seg ← segment_at segs (rb_seg_index st);
    let target := u64 (vmaddr seg + rb_seg_offset st) in
    m ← (if rb_type st =? REBASE_TYPE_POINTER then
           v ← load64 (rb_mem st) target;
           store64 (rb_mem st) target (u64 (v + u64 g_slide))
         else Ok (rb_mem st));
    Ok (Continue (mk_rb (rb_type st) (rb_seg_index st)
                        (u64 (rb_seg_offset st + 8)) m)).

Definition rb_advance (st : rb_state) (n : Z) : rb_state :=
  mk_rb (rb_type st) (rb_seg_index st) (u64 (rb_seg_offset st + n)) (rb_mem st).

(** [for (i = 0; i < count; i++) { DO_ONE_REBASE(); seg_offset += skip; }] *)
Fixpoint rebase_times (count : nat) (skip : Z) (st : rb_state) : res (ctl rb_state) :=
  match count with
  | O => Ok (Continue st)
  | S count =>
      r ← do_one_rebase st;
      match r with
      | Return c st => Ok (Return c st)
      | Continue st => rebase_times count skip (rb_advance st skip)
      end
  end.

(** The body of [while (p < end)], after [op] has been fetched: the new state
    and the bytes left. *)
Definition rebase_step (byte : Z) (bs : list Z) (st : rb_state)
    : res (ctl rb_state * list Z) :=
  let imm := Z.land byte 0x0F in
  match Z.land byte 0xF0 with
  | 0x00 => Ok (Return 0 st, bs)
  | 0x10 => Ok (Continue (mk_rb imm (rb_seg_index st) (rb_seg_offset st) (rb_mem st)), bs)
  | 0x20 =>
      '(off, bs) ← read_uleb128 bs;
      Ok (Continue (mk_rb (rb_type st) imm off (rb_mem st)), bs)
  | 0x30 =>
      '(off, bs) ← read_uleb128 bs;
      Ok (Continue (rb_advance st off), bs)
  | 0x40 => Ok (Continue (rb_advance st (imm * 8)), bs)
  | 0x50 =>
      r ← rebase_times (Z.to_nat imm) 0 st;
      Ok (r, bs)
  | 0x60 =>
      '(count, bs) ← read_uleb128 bs;
      r ← rebase_times (Z.to_nat count) 0 st;
      Ok (r, bs)
  | 0x70 =>
      r ← do_one_rebase st;
      match r with
      | Return c st => Ok (Return c st, bs)
      | Continue st =>
          '(off, bs) ← read_uleb128 bs;
          Ok (Continue (rb_advance st off), bs)
      end
  | 0x80 =>
      '(count, bs) ← read_uleb128 bs;
      '(skip, bs) ← read_uleb128 bs;
      r ← rebase_times (Z.to_nat count) skip st;
      Ok (r, bs)
  | _ => Ok (Return (-1) st, bs)
  end.

(** Each iteration consumes a byte, so as much fuel as there are bytes is
    enough ([rebase_loop_fuel]). *)
Fixpoint rebase_loop (fuel : nat) (bs : list Z) (st : rb_state) : res (Z * mem) :=
  match bs with
  | [] => Ok (0, rb_mem st)
  | byte :: bs =>
      match fuel with
      | O => NoFuel
      | S fuel =>
          '(r, bs) ← rebase_step byte bs st;
          match r with
          | Return c st => Ok (c, rb_mem st)
          | Continue st => rebase_loop fuel bs st
          end
      end
  end.

Definition execute_rebases (file_data : list Z) (g_rebase_off g_rebase_size : Z)
    (m : mem) : res (Z * mem) :=
  if g_rebase_size =? 0 then Ok (0, m)
  else if u32 (g_rebase_off + g_rebase_size) >? buf_len file_data then Ok (-1, m)
  else
    bs ← buf_slice file_data g_rebase_off g_rebase_size;
    rebase_loop (length bs) bs (mk_rb 0 0 0 m).

End interpreter.

(** ** Abstract rebase programs *)

Inductive rop :=
| RSetType (imm : Z)
| RSetSeg (seg off : Z)
| RAddAddr (off : Z)
| RAddImm (imm : Z)
| RDoImm (count : Z)
| RDoTimes (count : Z)
| RDoAdd (off : Z)
| RDoSkip (count skip : Z).

Definition rop_wf (o : rop) : Prop :=
  match o with
  | RSetType i | RAddImm i | RDoImm i => 0 <= i < 16
  | RSetSeg s off => 0 <= s < 16 /\ is_u64 off
  | RAddAddr off | RDoAdd off => is_u64 off
  | RDoTimes c => is_u64 c
  | RDoSkip c s => is_u64 c /\ is_u64 s
  end.

Definition rop_encode (o : rop) : list Z :=
  match o with
  | RSetType i => [0x10 + i]
  | RSetSeg s off => (0x20 + s) :: uleb_encode off
  | RAddAddr off => 0x30 :: uleb_encode off
  | RAddImm i => [0x40 + i]
  | RDoImm c => [0x50 + c]
  | RDoTimes c => 0x60 :: uleb_encode c
  | RDoAdd off => 0x70 :: uleb_encode off
  | RDoSkip c s => 0x80 :: uleb_encode c ++ uleb_encode s
  end.

(** The cursor of a rebase program: type, segment index and offset. *)
Record cursor := mk_cursor { c_type : Z; c_seg : Z; c_off : Z }.

Definition cursor_skip (c : cursor) (n : Z) : cursor :=
  mk_cursor (c_type c) (c_seg c) (u64 (c_off c + n)).

Section spec.
  Context (segs : list loaded_segment) (g_slide : Z).

(** The pointers one [DO_*] opcode names; [None] when the segment is bad. *)
Fixpoint do_targets (count : nat) (skip : Z) (c : cursor) : option (list Z * cursor) :=
  match count with
  | O => Some ([], c)
  | S count =>
      match (if c_seg c <? 0 then None else segs !! Z.to_nat (c_seg c)) with
      | None => None
      | Some seg =>
          match do_targets count skip (cursor_skip (cursor_skip c 8) skip) with
          | None => None
          | Some (ts, c') =>
              Some ((if c_type c =? REBASE_TYPE_POINTER
                     then [u64 (vmaddr seg + c_off c)] else []) ++ ts, c')
          end
      end
  end.

Definition rop_targets (o : rop) (c : cursor) : option (list Z * cursor) :=
  match o with
  | RSetType i => Some ([], mk_cursor i (c_seg c) (c_off c))
  | RSetSeg s off => Some ([], mk_cursor (c_type c) s off)
  | RAddAddr off => Some ([], cursor_skip c off)
  | RAddImm i => Some ([], cursor_skip c (i * 8))
  | RDoImm n | RDoTimes n => do_targets (Z.to_nat n) 0 c
  | RDoAdd off => do_targets 1 off c
  | RDoSkip n s => do_targets (Z.to_nat n) s c
  end.

Fixpoint program_targets (ops : list rop) (c : cursor) : option (list Z) :=
  match ops with
  | [] => Some []
  | o :: ops =>
      match rop_targets o c with
      | None => None
      | Some (ts, c) =>
          match program_targets ops c with None => None | Some us => Some (ts ++ us) end
      end
  end.

(** The effect a rebase program is meant to have: [*t += slide] at each
    location [t], in order. *)
Definition slide_pointer (m : mem) (t : Z) : res mem :=
  v ← load64 m t; store64 m t (u64 (v + u64 g_slide)).

Definition slide_pointers (ts : list Z) (m : mem) : res mem := fold_res slide_pointer ts m.

End spec.

(** ** Lemmas *)

Section proofs.
  Context (segs : list loaded_segment) (g_slide : Z).
  Context (Hsegs : (length segs <= MAX_SEGMENTS)%nat).

Definition at_cursor (c : cursor) (m : mem) : rb_state :=
  mk_rb (c_type c) (c_seg c) (c_off c) m.

Lemma slide_pointers_app ts us m :
  slide_pointers g_slide (ts ++ us) m =
  (m' ← slide_pointers g_slide ts m; slide_pointers g_slide us m').
Proof.
  unfold slide_pointers. revert m. induction ts as [|t ts IH]; intros m; [done|]. cbn.
  destruct (slide_pointer g_slide m t) as [m1| |]; cbn; [apply IH|done|done].
Qed.

Lemma do_one_rebase_spec c m seg :
  0 <= c_seg c -> segs !! Z.to_nat (c_seg c) = Some seg ->
  do_one_rebase segs g_slide (at_cursor c m) =
  (m' ← slide_pointers g_slide (if c_type c =? REBASE_TYPE_POINTER
                                then [u64 (vmaddr seg + c_off c)] else []) m;
   Ok (Continue (at_cursor (cursor_skip c 8) m'))).
Proof.
  intros Hc Hs. unfold do_one_rebase, at_cursor. cbn.
  assert (0 <= c_seg c < nsegments segs) as Hr.
  { apply lookup_lt_Some in Hs. unfold nsegments. lia. }
  destruct (segment_at_valid segs (c_seg c) Hr Hsegs) as (s & Hs' & ->).
  assert (s = seg) as -> by congruence.
  replace ((c_seg c <? 0) || (c_seg c >=? nsegments segs)) with false by lia.
  cbn. destruct (c_type c =? REBASE_TYPE_POINTER); [|done].
  unfold slide_pointers, fold_res, slide_pointer. cbn.
  destruct (load64 m _) as [v| |]; [cbn|done|done].
  by destruct (store64 m _ _).
Qed.

Lemma rebase_times_spec count skip c m ts c' :
  do_targets segs count skip c = Some (ts, c') ->
  rebase_times segs g_slide count skip (at_cursor c m) =
  (m' ← slide_pointers g_slide ts m; Ok (Continue (at_cursor c' m'))).
Proof.
  revert c m ts. induction count as [|count IH]; intros c m ts; cbn [do_targets rebase_times].
  - intros [= <- <-]. done.
  - destruct (c_seg c <? 0) eqn:Eneg; [done|]. bool_to_prop.
    destruct (segs !! Z.to_nat (c_seg c)) as [seg|] eqn:Eseg; [|done].
    destruct (do_targets segs count skip _) as [[ts0 c0]|] eqn:E; [|done].
    intros [= <- <-]. rewrite (do_one_rebase_spec c m seg) by done.
    rewrite slide_pointers_app.
    destruct (slide_pointers g_slide (if _ : bool then _ else _) m) as [m1| |];
      [cbn|done|done].
    exact (IH (cursor_skip (cursor_skip c 8) skip) m1 ts0 E).
Qed.

(** One encoded opcode, in front of any bytes. *)
Lemma rebase_step_spec o c m ts c' rest :
  rop_wf o -> rop_targets segs o c = Some (ts, c') ->
  exists byte tl, rop_encode o = byte :: tl /\
    rebase_step segs g_slide byte (tl ++ rest) (at_cursor c m) =
    (m' ← slide_pointers g_slide ts m; Ok (Continue (at_cursor c' m'), rest)).
Proof.
  intros Hwf Ht.
  destruct o as [i|s off|off|i|n|n|off|n s]; cbn [rop_wf rop_targets rop_encode] in *;
    eexists _, _; split; try reflexivity; unfold rebase_step.
  - decode_opcode 1 i Hwf. cbn. injection Ht as <- <-. done.
  - destruct Hwf as [Hs Hoff]. decode_opcode 2 s Hs. 
    rewrite uleb_read_back by done. injection Ht as <- <-. done.
  - change (Z.land 48 240) with 48. cbv iota.
    rewrite uleb_read_back by done. injection Ht as <- <-. done.
  - decode_opcode 4 i Hwf. cbn. injection Ht as <- <-. done.
  - decode_opcode 5 n Hwf. 
    rewrite (rebase_times_spec _ _ _ _ _ _ Ht). by destruct (slide_pointers _ ts m).
  - change (Z.land 96 240) with 96. cbv iota.
    rewrite uleb_read_back by done. cbn.
    rewrite (rebase_times_spec _ _ _ _ _ _ Ht). by destruct (slide_pointers _ ts m).
  - change (Z.land 112 240) with 112. cbv iota. cbn [do_targets] in Ht.
    destruct (c_seg c <? 0) eqn:Eneg; [done|]. bool_to_prop.
    destruct (segs !! Z.to_nat (c_seg c)) as [seg|] eqn:Eseg; [|done].
    injection Ht as <- <-. rewrite (do_one_rebase_spec c m seg) by done.
    rewrite app_nil_r. destruct (slide_pointers _ _ m) as [m1| |]; [cbn|done|done].
    by rewrite uleb_read_back by done.
  - change (Z.land 128 240) with 128. cbv iota. destruct Hwf as [Hn Hs].
    rewrite <- app_assoc, uleb_read_back by done. cbn.
    rewrite uleb_read_back by done. cbn.
    rewrite (rebase_times_spec _ _ _ _ _ _ Ht). by destruct (slide_pointers _ ts m).
Qed.

(** An encoded program in front of any bytes. *)
Lemma rebase_loop_program ops c m ts m' fuel rest :
  Forall rop_wf ops -> program_targets segs ops c = Some ts ->
  slide_pointers g_slide ts m = Ok m' ->
  (length (concat (map rop_encode ops) ++ rest) <= fuel)%nat ->
  exists c' fuel', (length rest <= fuel')%nat /\
    rebase_loop segs g_slide fuel (concat (map rop_encode ops) ++ rest) (at_cursor c m) =
    rebase_loop segs g_slide fuel' rest (at_cursor c' m').
Proof.
  intros Hwf. revert c m ts fuel.
  induction Hwf as [|o ops Ho _ IH]; intros c m ts fuel Ht Hm Hf; cbn [map concat] in *.
  - injection Ht as <-. injection Hm as <-. exists c, fuel. done.
  - cbn [program_targets] in Ht.
    destruct (rop_targets segs o c) as [[ts1 c1]|] eqn:E1; [|done].
    destruct (program_targets segs ops c1) as [ts2|] eqn:E2; [|done].
    injection Ht as <-. rewrite slide_pointers_app in Hm. bind_inv Hm.
    destruct (rebase_step_spec o c m ts1 c1 (concat (map rop_encode ops) ++ rest) Ho E1)
      as (byte & tl & Eo & Hstep).
    rewrite Eo in Hf |- *. cbn [app length] in *.
    destruct fuel as [|fuel]; [lia|].
    rewrite <- !app_assoc in *. cbn [rebase_loop]. rewrite Hstep, E. cbn.
    apply (IH c1 a ts2 fuel E2 Hm). rewrite !length_app in *. lia.
Qed.

End proofs.

Section invariants.
  Context (segs : list loaded_segment) (g_slide : Z).

(** Any invariant of a single pointer slide is an invariant of the run. *)
Lemma do_one_rebase_inv (P : mem -> Prop) st r :
  (forall m t m1, P m -> slide_pointer g_slide m t = Ok m1 -> P m1) ->
  P (rb_mem st) -> do_one_rebase segs g_slide st = Ok r ->
  match r with Continue s | Return _ s => P (rb_mem s) end.
Proof.
  intros HP Hst. unfold do_one_rebase.
  destruct (_ || _); [intros [= <-]; done|].
  intros H. bind_inv H. destruct (rb_type st =? REBASE_TYPE_POINTER).
  - destruct (load64 (rb_mem st) (u64 (vmaddr a + rb_seg_offset st))) as [v| |] eqn:El;
      [cbn in H|done|done].
    bind_inv H. injection H as <-. cbn. apply (HP (rb_mem st) (u64 (vmaddr a + rb_seg_offset st))).
    + done.
    + unfold slide_pointer. rewrite El. cbn. done.
  - injection H as <-. done.
Qed.

Lemma rebase_times_inv (P : mem -> Prop) n skip st r :
  (forall m t m1, P m -> slide_pointer g_slide m t = Ok m1 -> P m1) ->
  P (rb_mem st) -> rebase_times segs g_slide n skip st = Ok r ->
  match r with Continue s | Return _ s => P (rb_mem s) end.
Proof.
  intros HP. revert st. induction n as [|n IH]; intros st Hst; cbn.
  - intros [= <-]. done.
  - intros H. bind_inv H. pose proof (do_one_rebase_inv P st a HP Hst E) as Ha.
    destruct a as [s|c s]; [|injection H as <-; done]. by apply (IH (rb_advance s skip)).
Qed.

Lemma rebase_step_inv (P : mem -> Prop) byte bs st r bs' :
  (forall m t m1, P m -> slide_pointer g_slide m t = Ok m1 -> P m1) ->
  P (rb_mem st) -> rebase_step segs g_slide byte bs st = Ok (r, bs') ->
  match r with Continue s | Return _ s => P (rb_mem s) end /\
  (length bs' <= length bs)%nat.
Proof.
  intros HP Hst H. unfold rebase_step in H.
  step_cases H; try (split; [done|lia]);
  repeat match goal with
  | E : read_uleb128 _ = Ok _ |- _ => apply read_uleb128_length in E
  | E : rebase_times _ _ _ _ _ = Ok _ |- _ => apply (rebase_times_inv P) in E; [|done|done]
  | E : do_one_rebase _ _ _ = Ok _ |- _ => apply (do_one_rebase_inv P) in E; [|done|done]
  end; split; cbn in *; try done; lia.
Qed.

Lemma rebase_loop_inv (P : mem -> Prop) fuel bs st c m' :
  (forall m t m1, P m -> slide_pointer g_slide m t = Ok m1 -> P m1) ->
  P (rb_mem st) -> rebase_loop segs g_slide fuel bs st = Ok (c, m') -> P m'.
Proof.
  intros HP. revert bs st. induction fuel as [|fuel IH]; intros [|byte bs] st Hst; cbn;
    try (intros [= <- <-]; done).
  intros H. bind_inv H. destruct a as [r bs'].
  destruct (rebase_step_inv P byte bs st r bs' HP Hst E) as [Hr _].
  destruct r as [s|c0 s]; [by apply (IH bs' s)|]. injection H as <- <-. done.
Qed.
End invariants.

Lemma do_one_rebase_no_fuel segs slide st : do_one_rebase segs slide st <> NoFuel.
Proof.
  unfold do_one_rebase, segment_at.
  destruct (_ || _); [done|]. destruct (_ || _); [done|]. cbn.
  destruct (_ =? _); [|done].
  destruct (load64 _ _) eqn:E; [cbn|done|by apply read_le_no_fuel in E].
  destruct (store64 _ _ _) eqn:E2; [done|done|by apply store_no_fuel in E2].
Qed.

Lemma rebase_times_no_fuel segs slide n skip st : rebase_times segs slide n skip st <> NoFuel.
Proof.
  revert st. induction n as [|n IH]; intros st; cbn; [done|].
  pose proof (do_one_rebase_no_fuel segs slide st).
  destruct (do_one_rebase segs slide st) as [[s|c s]| |]; cbn; done.
Qed.

Lemma rebase_step_no_fuel segs slide byte bs st :
  rebase_step segs slide byte bs st <> NoFuel.
Proof.
  unfold rebase_step, read_uleb128.
  pose proof (do_one_rebase_no_fuel segs slide st).
  pose proof (uleb_loop_no_fuel) as Hu.
  pose proof (rebase_times_no_fuel segs slide) as Ht.
  repeat first
    [ done
    | match goal with
      | |- mbind _ (uleb_loop ?b ?r ?s) <> _ =>
          pose proof (Hu b r s); destruct (uleb_loop b r s) as [[? ?]| |]; cbn
      | |- mbind _ (rebase_times _ _ ?n ?k ?s) <> _ =>
          pose proof (Ht n k s); destruct (rebase_times segs slide n k s) as [[?|? ?]| |]; cbn
      | |- mbind _ (do_one_rebase _ _ _) <> _ =>
          destruct (do_one_rebase segs slide st) as [[?|? ?]| |]; cbn
      | |- context [match ?z with 0 => _ | _ => _ end] => destruct z
      | |- context [match ?p with xI _ => _ | _ => _ end] => destruct p
      end ].
Qed.

Lemma rebase_loop_fuel segs slide fuel bs st :
  (length bs <= fuel)%nat -> rebase_loop segs slide fuel bs st <> NoFuel.
Proof.
  revert bs st. induction fuel as [|fuel IH]; intros [|byte bs] st Hf; cbn in *; try done; [lia|].
  pose proof (rebase_step_no_fuel segs slide byte bs st).
  destruct (rebase_step segs slide byte bs st) as [[r bs']| |] eqn:E; cbn; try done.
  destruct (rebase_step_inv segs slide (fun _ => True) byte bs st r bs') as [_ Hl]; auto.
  destruct r as [s|c s]; [|done]. apply IH. lia.
Qed.

Lemma execute_rebases_loop segs slide file off size m c m' :
  execute_rebases segs slide file off size m = Ok (c, m') ->
  m' = m \/ exists fuel bs, rebase_loop segs slide fuel bs (mk_rb 0 0 0 m) = Ok (c, m').
Proof.
  unfold execute_rebases. destruct (size =? 0); [intros [= <- <-]; by left|].
  destruct (_ >? _); [intros [= <- <-]; by left|]. intros H. bind_inv H. right. eauto.
Qed.

(** A whole run on an encoded program. *)
Lemma execute_rebases_program
    (segs : list loaded_segment) (g_slide : Z) (ops : list rop)
    (pre tail post : list Z) (m m' : mem) (ts : list Z) :
  (length segs <= MAX_SEGMENTS)%nat ->
  Forall rop_wf ops -> (tail = [] \/ exists junk, tail = 0x00 :: junk) ->
  program_targets segs ops (mk_cursor 0 0 0) = Some ts ->
  slide_pointers g_slide ts m = Ok m' ->
  buf_len (pre ++ concat (map rop_encode ops) ++ tail) < 2 ^ 32 ->
  execute_rebases segs g_slide (pre ++ (concat (map rop_encode ops) ++ tail) ++ post)
    (buf_len pre) (buf_len (concat (map rop_encode ops) ++ tail)) m = Ok (0, m').
Proof.
  intros Hsegs Hwf Htail Ht Hm Hlen. unfold execute_rebases.
  set (code := concat (map rop_encode ops) ++ tail) in *.
  rewrite buf_len_app in Hlen.
  pose proof (buf_len_nonneg pre). pose proof (buf_len_nonneg code).
  pose proof (buf_len_nonneg post).
  destruct (Z.eqb_spec (buf_len code) 0) as [E0|_].
  { assert (ops = []) as ->.
    { destruct ops as [|o ops]; [done|]. exfalso. unfold buf_len, code in E0.
      cbn in E0. rewrite !length_app in E0. destruct o; cbn in E0; lia. }
    injection Ht as <-. injection Hm as <-. done. }
  rewrite u32_small by lia.
  rewrite (buf_len_app pre), (buf_len_app code post).
  replace (_ >? _) with false by lia.
  rewrite buf_slice_in. cbn.
  destruct (rebase_loop_program segs g_slide Hsegs ops (mk_cursor 0 0 0) m ts m'
    (length code) tail Hwf Ht Hm ltac:(unfold code; lia)) as (c' & fuel' & Hf & Hrun).
  change (mk_rb 0 0 0 m) with (at_cursor (mk_cursor 0 0 0) m).
  unfold code at 2. rewrite Hrun. destruct Htail as [-> | [junk ->]].
  - by destruct fuel'.
  - destruct fuel' as [|fuel']; [cbn in Hf; lia|]. done.
Qed.

(** ** Properties *)

(** C1 (refinement): running [execute_rebases] on the encoding of a rebase
    program, wherever it sits in the file, with or without a DONE opcode and
    anything after it, returns 0 and leaves the memory in which the slide has
    been added, in order, to exactly the pointers the program names. *)
Theorem execute_rebases_refines
    (segs : list loaded_segment) (g_slide : Z) (ops : list rop)
    (pre tail post : list Z) (m m' : mem) (ts : list Z) :
  (length segs <= MAX_SEGMENTS)%nat ->
  Forall rop_wf ops -> (tail = [] \/ exists junk, tail = 0x00 :: junk) ->
  program_targets segs ops (mk_cursor 0 0 0) = Some ts ->
  slide_pointers g_slide ts m = Ok m' ->
  buf_len (pre ++ concat (map rop_encode ops) ++ tail) < 2 ^ 32 ->
  execute_rebases segs g_slide (pre ++ (concat (map rop_encode ops) ++ tail) ++ post)
    (buf_len pre) (buf_len (concat (map rop_encode ops) ++ tail)) m = Ok (0, m').
Proof. apply execute_rebases_program. Qed.

Lemma execute_rebases_refines_witness :
  let seg := mk_segment 0x1000 0x1000 3 3 "__DATA" false in
  let m : mem := list_to_map (zip (seqZ 0x1008 8) [0x10; 0; 0; 0; 0; 0; 0; 0]) in
  exists m', execute_rebases [seg] 0x500
    ([9] ++ (concat (map rop_encode [RSetType 1; RSetSeg 0 8; RDoImm 1]) ++ [0]) ++ [7])
    (buf_len [9]) (buf_len (concat (map rop_encode [RSetType 1; RSetSeg 0 8; RDoImm 1]) ++ [0]))
    m = Ok (0, m') /\ load64 m' 0x1008 = Ok 0x510.
Proof.
  intros seg m.
  exists (put_bytes m 0x1008 (le_bytes 8 0x510)). split.
  - eapply (execute_rebases_refines [seg] 0x500 _ [9] [0] [7] m _ [0x1008]).
    + unfold MAX_SEGMENTS. cbn. lia.
    + repeat constructor; cbn; unfold is_u64; lia.
    + right. by exists [].
    + reflexivity.
    + vm_compute. reflexivity.
    + vm_compute. reflexivity.
  - vm_compute. reflexivity.
Defined.

(** C35 (termination): whatever bytes the rebase section holds, the
    interpreter ends: every opcode consumes a byte, so the loop needs no more
    iterations than there are bytes. *)
Theorem execute_rebases_terminates
    (segs : list loaded_segment) (g_slide : Z) (file : list Z) (off size : Z) (m : mem) :
  execute_rebases segs g_slide file off size m <> NoFuel.
Proof.
  unfold execute_rebases. destruct (_ =? _); [done|]. destruct (_ >? _); [done|].
  unfold buf_slice. destruct (_ || _); [done|]. cbn. by apply rebase_loop_fuel.
Qed.

(** Whatever bytes the rebase section holds, a run that
    ends, with 0 or with -1, maps and unmaps nothing, keeps every byte of
    memory a byte, and with a zero slide changes no byte at all. *)
Theorem execute_rebases_frame
    (segs : list loaded_segment) (g_slide : Z) (file : list Z) (off size : Z)
    (m m' : mem) (code : Z) :
  mem_wf m -> execute_rebases segs g_slide file off size m = Ok (code, m') ->
  dom m' = dom m /\ mem_wf m' /\ (u64 g_slide = 0 -> m' = m).
Proof.
  intros Hwf [->|(fuel & bs & H)]%execute_rebases_loop; [done|].
  apply (rebase_loop_inv segs g_slide
    (fun m1 => dom m1 = dom m /\ mem_wf m1 /\ (u64 g_slide = 0 -> m1 = m))) in H; auto.
  intros m1 t m2 (Hd & Hw & Hz) Hs. unfold slide_pointer in Hs. bind_inv Hs.
  destruct (store64_load64 m1 t a Hw E) as [Hsame Ha]. split; [|split].
  - by rewrite (store64_dom _ _ _ _ Hs).
  - by apply (store64_wf _ _ _ _ Hw Hs).
  - intros H0. rewrite H0, Z.add_0_r, u64_small in Hs by done. rewrite <- (Hz H0). congruence.
Qed.

Lemma execute_rebases_frame_witness :
  let m : mem := list_to_map (zip (seqZ 0x1008 8) [0x10; 0; 0; 0; 0; 0; 0; 0]) in
  mem_wf m /\
  execute_rebases [mk_segment 0x1000 0x1000 3 3 "__DATA" false] 0 [0x11; 0x20; 8; 0x51] 0 4 m
  = Ok (0, m).
Proof.
  intros m.
  assert (mem_wf m) as Hm.
  { apply (bool_decide_unpack _). vm_compute. exact I. }
  split; [exact Hm|].
  destruct (execute_rebases [mk_segment 0x1000 0x1000 3 3 "__DATA" false] 0
    [0x11; 0x20; 8; 0x51] 0 4 m) as [[c m']| |] eqn:E; [|by vm_compute in E|by vm_compute in E].
  destruct (execute_rebases_frame _ _ _ _ _ _ _ _ Hm E) as (_ & _ & Hz).
  rewrite (Hz eq_refl) in *. vm_compute in E. congruence.
Defined.

(** The end-of-file test adds two [uint32_t], so the sum wraps:
    an opcode range that runs past the end of the file is accepted when its
    offset and size add up to 2^32 or more, and the interpreter then reads
    outside the file; without the wrap-around the test is exact. *)
Theorem rebase_bounds_check_wraps (segs : list loaded_segment) (g_slide : Z) (m : mem)
    (file : list Z) (off size : Z) :
  is_u32 off -> is_u32 size -> 0 < size -> buf_len file < off + size ->
  execute_rebases segs g_slide file off size m =
    (if off + size <? 2 ^ 32 then Ok (-1, m)
     else if off + size - 2 ^ 32 >? buf_len file then Ok (-1, m) else Undef).
Proof.
  unfold is_u32. intros Ho Hs H0 Hf. unfold execute_rebases.
  replace (size =? 0) with false by lia.
  destruct (Z.ltb_spec (off + size) (2 ^ 32)).
  - rewrite u32_small by lia.
    by replace (off + size >? buf_len file) with true by lia.
  - assert (u32 (off + size) = off + size - 2 ^ 32) as ->
      by (symmetry; apply (Z.mod_unique _ _ 1); lia).
    destruct (_ >? _); [done|]. unfold buf_slice.
    by replace ((off <? 0) || (size <? 0) || (buf_len file <? off + size)) with true by lia.
Qed.

Lemma rebase_bounds_check_wraps_witness :
  execute_rebases [] 0 [0; 0; 0; 0] 0xFFFFFFFE 4 ∅ = Undef.
Proof.
  rewrite rebase_bounds_check_wraps by (unfold is_u32, buf_len; cbn; lia). reflexivity.
Defined.
