(* ===== verification/Symbols.v ===== *)
(** * Symbol resolution (src/src/segments.c, src/src/macho_dylib.c)

    [resolve_symbol] and the lookups it is made of.  The dynamic linker
    ([dlsym]) and the shim's own lookup function, found at run time with
    [dlsym(shim, "macify_get_shim_symbol")], are parameters.  The abstract
    specification is an ordered list of providers, of which the first that
    knows the symbol wins.  Trace output is left out. *)
From Stdlib Require Import ZArith Lia Bool.
From stdpp Require Import base gmap list strings numbers.
From S2P Require Import Prelude LoaderState.

(** What the loader has registered for name lookup. *)
Record link_state := mk_link {
  g_dylibs : list loaded_dylib;
  g_extra_handles : list Z;
  g_macho_dylibs : list macho_dylib
}.

Definition register_extra_handle (handle : Z) (L : link_state) : link_state :=
  if negb (handle =? 0) && (length (g_extra_handles L) <? MAX_EXTRA_HANDLES)%nat
  then mk_link (g_dylibs L) (g_extra_handles L ++ [handle]) (g_macho_dylibs L)
  else L.

Definition underscore : Ascii.ascii := Ascii.ascii_of_nat 95.
Definition dollar : Ascii.ascii := Ascii.ascii_of_nat 36.

Definition head_is (c : Ascii.ascii) (s : string) : bool :=
  match shead s with Some d => Ascii.eqb c d | None => false end.

(** The exports of all dylibs, in the order the two nested loops visit them. *)
Definition all_exports (mds : list macho_dylib) : list (string * Z) :=
  concat (map md_exports mds).

Definition macho_dylib_lookup (mds : list macho_dylib) (sym : string) : Z :=
  match List.find (fun e => streq e.1 sym ||
                       (head_is underscore sym && streq e.1 (sdrop 1 sym)))
                  (all_exports mds) with
  | Some e => e.2
  | None =>
      if negb (head_is underscore sym) && (String.length sym <? 255)%nat then
        match List.find (fun e => streq e.1 (String underscore sym)) (all_exports mds) with
        | Some e => e.2
        | None => 0
        end
      else 0
  end.

(** [strncpy(base_sym, sym, 255)] and the cut at the first '$', if any. *)
Definition dollar_base (sym : string) : option string :=
  let base := stake 255 sym in
  if has_char dollar base then Some (before_char dollar base) else None.

Definition interpose_syms : list string := [
  "execve"; "execvp"; "execvpe"; "execv"; "execl"; "execle"; "execlp";
  "posix_spawn"; "posix_spawnp"; "system"; "popen";
  "regcomp"; "regexec"; "regfree"; "regerror";
  "setlocale"; "newlocale"; "uselocale"; "duplocale"; "freelocale";
  "realpath$DARWIN_EXTSN";
  "stat$INODE64"; "lstat$INODE64"; "fstat$INODE64";
  "fstatat$INODE64"; "opendir$INODE64";
  "CFStringCreateWithBytes"; "CFStringCreateWithBytesNoCopy";
  "CFStringCreateWithCString"; "CFStringCreateWithCStringNoCopy";
  "CFStringCreateMutableCopy"; "CFStringNormalize";
  "CFStringGetLength"; "CFStringGetBytes";
  "CFStringGetCString"; "CFStringGetCStringPtr";
  "CFStringGetMaximumSizeForEncoding"; "CFStringCompare";
  "CFStringCreateExternalRepresentation";
  "CFStringGetFastestEncoding"; "CFStringGetSystemEncoding";
  "CFStringGetTypeID"; "CFGetTypeID"; "CFRelease"; "CFRetain"
]%string.

Definition RTLD_DEFAULT : Z := 0.

Section resolve.
  Context (dlsym : Z -> string -> Z) (shim_lookup : string -> Z).

(** [addr = dlsym(handle); if (!addr && libc) ...; if (!addr && libm) ...] *)
Definition dylib_lookup (d : loaded_dylib) (sym : string) : Z :=
  let addr := dlsym (dy_handle d) sym in
  let addr := if (addr =? 0) && negb (libc_handle d =? 0)
              then dlsym (libc_handle d) sym else addr in
  if (addr =? 0) && negb (libm_handle d =? 0)
  then dlsym (libm_handle d) sym else addr.

Fixpoint search_dylibs (ds : list loaded_dylib) (sym : string) : Z :=
  match ds with
  | [] => 0
  | d :: ds => let addr := dylib_lookup d sym in
               if addr =? 0 then search_dylibs ds sym else addr
  end.

Fixpoint search_extra (hs : list Z) (sym : string) : Z :=
  match hs with
  | [] => 0
  | h :: hs => let addr := dlsym h sym in
               if addr =? 0 then search_extra hs sym else addr
  end.

(** Mach-O dylibs, then every dylib entry, then the extra handles, then the
    default scope: the sequence both flat passes go through. *)
Definition flat_pass (L : link_state) (sym : string) : Z :=
  let addr := macho_dylib_lookup (g_macho_dylibs L) sym in
  if negb (addr =? 0) then addr else
  let addr := search_dylibs (g_dylibs L) sym in
  if negb (addr =? 0) then addr else
  let addr := search_extra (g_extra_handles L) sym in
  if negb (addr =? 0) then addr else
  dlsym RTLD_DEFAULT sym.

Definition resolve_flat (L : link_state) (sym : string) : Z :=
  let addr := flat_pass L sym in
  if negb (addr =? 0) then addr else
  match dollar_base sym with
  | Some base => flat_pass L base
  | None => 0
  end.

(** The shim handle: [g_ndylibs > 0 && g_dylibs[0].handle]. *)
Definition shim_handle (L : link_state) : Z :=
  match g_dylibs L with [] => 0 | d :: _ => dy_handle d end.

Definition interposed (L : link_state) (sym : string) : Z :=
  if negb (shim_handle L =? 0) && existsb (streq sym) interpose_syms
  then dlsym (shim_handle L) sym else 0.

(** The shim's non-exported overrides, with and without the '$' suffix. *)
Definition shim_override (L : link_state) (sym : string) : Z :=
  if (shim_handle L =? 0) || (dlsym (shim_handle L) "macify_get_shim_symbol" =? 0) then 0
  else
    let addr := shim_lookup sym in
    if negb (addr =? 0) then addr else
    match dollar_base sym with
    | Some base => shim_lookup base
    | None => 0
    end.

Definition resolve_two_level (L : link_state) (d : loaded_dylib) (sym : string) : Z :=
  let addr := if streq sym "environ" || streq sym "__environ"
              then dlsym RTLD_DEFAULT sym else 0 in
  let shim_addr := interposed L sym in
  if negb (shim_addr =? 0) then shim_addr else
  if negb (addr =? 0) then addr else
  let addr := macho_dylib_lookup (g_macho_dylibs L) sym in
  if negb (addr =? 0) then addr else
  let addr := shim_override L sym in
  if negb (addr =? 0) then addr else
  let addr := dylib_lookup d sym in
  if negb (addr =? 0) then addr else
  let addr := search_extra (g_extra_handles L) sym in
  if negb (addr =? 0) then addr else
  let addr :=
    match dollar_base sym with
    | None => 0
    | Some base =>
        let addr := macho_dylib_lookup (g_macho_dylibs L) base in
        if negb (addr =? 0) then addr else
        let addr := dylib_lookup d base in
        if negb (addr =? 0) then addr else
        search_extra (g_extra_handles L) base
    end in
  if negb (addr =? 0) then addr else
  dlsym RTLD_DEFAULT sym.

(** getaddrinfo and freeaddrinfo go to the shim's wrappers by another name. *)
Definition addrinfo_wrapper (L : link_state) (sym : string) : Z :=
  if shim_handle L =? 0 then 0
  else if streq sym "getaddrinfo" then dlsym (shim_handle L) "macify_getaddrinfo"
  else if streq sym "freeaddrinfo" then dlsym (shim_handle L) "macify_freeaddrinfo"
  else 0.

Definition resolve_symbol (L : link_state) (ordinal_idx : Z) (sym : string) : Z :=
  let addr := addrinfo_wrapper L sym in
  if negb (addr =? 0) then addr else
  if ordinal_idx =? -1 then resolve_flat L sym else
  if (ordinal_idx <? 0) || (ordinal_idx >=? Z.of_nat (length (g_dylibs L))) then 0 else
  match g_dylibs L !! Z.to_nat ordinal_idx with
  | Some d => resolve_two_level L d sym
  | None => 0
  end.

End resolve.

(** ** Unresolved-symbol accounting (src/src/fixups.c) *)

Definition MACIFY_MAX_NOTED_STUBS : nat := 32.

Record stub_state := mk_stubs {
  g_stubbed_symbols : Z;
  noted_stubs : list string
}.

(** [strdup] is taken to succeed; on failure the name is not recorded. *)
Definition macify_note_stub (sym : string) (s : stub_state) : stub_state :=
  let n := u64 (g_stubbed_symbols s + 1) in
  if existsb (fun x => streq x sym) (noted_stubs s) then mk_stubs n (noted_stubs s)
  else if (length (noted_stubs s) <? MACIFY_MAX_NOTED_STUBS)%nat
  then mk_stubs n (noted_stubs s ++ [sym])
  else mk_stubs n (noted_stubs s).

(** ** Abstract specification: an ordered search *)

Fixpoint first_nonnull (l : list Z) : Z :=
  match l with
  | [] => 0
  | a :: l => if a =? 0 then first_nonnull l else a
  end.

Section spec.
  Context (dlsym : Z -> string -> Z) (shim_lookup : string -> Z).

Definition dylib_providers (d : loaded_dylib) (sym : string) : list Z :=
  [dlsym (dy_handle d) sym;
   if libc_handle d =? 0 then 0 else dlsym (libc_handle d) sym;
   if libm_handle d =? 0 then 0 else dlsym (libm_handle d) sym].

Definition flat_providers (L : link_state) (sym : string) : list Z :=
  macho_dylib_lookup (g_macho_dylibs L) sym ::
  concat (map (fun d => dylib_providers d sym) (g_dylibs L)) ++
  map (fun h => dlsym h sym) (g_extra_handles L) ++ [dlsym RTLD_DEFAULT sym].

Definition if_dollar (f : string -> list Z) (sym : string) : list Z :=
  match dollar_base sym with Some base => f base | None => [] end.

Definition shim_providers (L : link_state) (sym : string) : list Z :=
  if (shim_handle L =? 0) || (dlsym (shim_handle L) "macify_get_shim_symbol" =? 0) then []
  else shim_lookup sym :: if_dollar (fun b => [shim_lookup b]) sym.

Definition two_level_providers (L : link_state) (d : loaded_dylib) (sym : string) : list Z :=
  [interposed dlsym L sym] ++
  (if streq sym "environ" || streq sym "__environ" then [dlsym RTLD_DEFAULT sym] else []) ++
  [macho_dylib_lookup (g_macho_dylibs L) sym] ++
  shim_providers L sym ++
  dylib_providers d sym ++
  map (fun h => dlsym h sym) (g_extra_handles L) ++
  if_dollar (fun b => macho_dylib_lookup (g_macho_dylibs L) b ::
               dylib_providers d b ++ map (fun h => dlsym h b) (g_extra_handles L)) sym ++
  [dlsym RTLD_DEFAULT sym].

Definition providers (L : link_state) (ordinal_idx : Z) (sym : string) : list Z :=
  addrinfo_wrapper dlsym L sym ::
  if ordinal_idx =? -1 then flat_providers L sym ++ if_dollar (flat_providers L) sym
  else if ordinal_idx <? 0 then []
  else match g_dylibs L !! Z.to_nat ordinal_idx with
       | Some d => two_level_providers L d sym
       | None => []
       end.

End spec.

(** ** Lemmas *)

Lemma first_nonnull_app l k :
  first_nonnull (l ++ k) = if first_nonnull l =? 0 then first_nonnull k else first_nonnull l.
Proof.
  induction l as [|a l IH]; cbn; [done|].
  destruct (Z.eqb_spec a 0); [done|]. by destruct (Z.eqb_spec a 0).
Qed.

Lemma first_nonnull_single a : first_nonnull [a] = a.
Proof. cbn. destruct (Z.eqb_spec a 0); congruence. Qed.

Lemma first_nonnull_zero l : first_nonnull l = 0 <-> Forall (fun a => a = 0) l.
Proof.
  induction l as [|a l IH]; cbn; [done|]. rewrite Forall_cons_iff.
  destruct (Z.eqb_spec a 0); intuition.
Qed.

(** [if (addr) return addr; rest] is one more provider in front. *)
Lemma or_else_cons a x l :
  x = first_nonnull l -> (if negb (a =? 0) then a else x) = first_nonnull (a :: l).
Proof. intros ->. cbn. by destruct (a =? 0). Qed.

Lemma or_else_app a x l k :
  a = first_nonnull l -> x = first_nonnull k ->
  (if negb (a =? 0) then a else x) = first_nonnull (l ++ k).
Proof. intros -> ->. rewrite first_nonnull_app. by destruct (_ =? 0). Qed.

(** [if (!a && h) a = b;] *)
Lemma guarded_else a (c : bool) b :
  (if (a =? 0) && negb c then b else a) = if negb (a =? 0) then a else if c then 0 else b.
Proof. destruct (Z.eqb_spec a 0), c; cbn; congruence. Qed.

Lemma streq_spec a b : streq a b = true <-> a = b.
Proof. apply bool_decide_eq_true. Qed.

#[export] Hint Resolve or_else_cons or_else_app first_nonnull_single : memory.

Section refinement.
  Context (dlsym : Z -> string -> Z) (shim_lookup : string -> Z).

Lemma dylib_lookup_providers d sym :
  dylib_lookup dlsym d sym = first_nonnull (dylib_providers dlsym d sym).
Proof.
  unfold dylib_lookup, dylib_providers. cbv zeta.
  rewrite (guarded_else _ (libc_handle d =? 0)).
  rewrite (guarded_else _ (libm_handle d =? 0)).
  apply (or_else_app _ _ [_; _] [_]); [apply or_else_cons|]; by rewrite first_nonnull_single.
Qed.

Lemma search_dylibs_providers ds sym :
  search_dylibs dlsym ds sym =
  first_nonnull (concat (map (fun d => dylib_providers dlsym d sym) ds)).
Proof.
  induction ds as [|d ds IH]; cbn [search_dylibs map concat]; [done|].
  rewrite first_nonnull_app, <- dylib_lookup_providers, IH. done.
Qed.

Lemma search_extra_providers hs sym :
  search_extra dlsym hs sym = first_nonnull (map (fun h => dlsym h sym) hs).
Proof. induction hs as [|h hs IH]; cbn; [done|]. by rewrite IH. Qed.

Lemma flat_pass_providers L sym :
  flat_pass dlsym L sym = first_nonnull (flat_providers dlsym L sym).
Proof.
  apply or_else_cons, or_else_app; [apply search_dylibs_providers|].
  apply or_else_app; [apply search_extra_providers|]. by rewrite first_nonnull_single.
Qed.

Lemma resolve_flat_providers L sym :
  resolve_flat dlsym L sym =
  first_nonnull (flat_providers dlsym L sym ++ if_dollar (flat_providers dlsym L) sym).
Proof.
  apply or_else_app; [apply flat_pass_providers|]. unfold if_dollar.
  destruct (dollar_base sym); [apply flat_pass_providers|done].
Qed.

Lemma shim_override_providers L sym :
  shim_override dlsym shim_lookup L sym = first_nonnull (shim_providers dlsym shim_lookup L sym).
Proof.
  unfold shim_override, shim_providers. destruct (_ || _); [done|].
  apply or_else_cons. unfold if_dollar.
  destruct (dollar_base sym); [by rewrite first_nonnull_single|done].
Qed.

Lemma resolve_two_level_providers L d sym :
  resolve_two_level dlsym shim_lookup L d sym =
  first_nonnull (two_level_providers dlsym shim_lookup L d sym).
Proof.
  unfold resolve_two_level, two_level_providers.
  apply or_else_cons.
  apply or_else_app; [destruct (_ || _); [by rewrite first_nonnull_single|done]|].
  apply or_else_cons.
  apply or_else_app; [apply shim_override_providers|].
  apply or_else_app; [apply dylib_lookup_providers|].
  apply or_else_app; [apply search_extra_providers|].
  apply or_else_app; [|by rewrite first_nonnull_single].
  unfold if_dollar. destruct (dollar_base sym) as [b|]; [|done].
  apply or_else_cons, or_else_app; [apply dylib_lookup_providers|apply search_extra_providers].
Qed.

Lemma resolve_symbol_providers L ordinal sym :
  resolve_symbol dlsym shim_lookup L ordinal sym =
  first_nonnull (providers dlsym shim_lookup L ordinal sym).
Proof.
  apply or_else_cons.
  destruct (ordinal =? -1); [apply resolve_flat_providers|].
  destruct (Z.ltb_spec ordinal 0); [done|]. cbn [orb].
  destruct (g_dylibs L !! Z.to_nat ordinal) as [d|] eqn:E.
  - apply lookup_lt_Some in E. replace (_ >=? _) with false by lia.
    apply resolve_two_level_providers.
  - by destruct (_ >=? _).
Qed.

(** Addresses the providers give are 64-bit, so the result is. *)
Context (Hdlsym : forall h s, is_u64 (dlsym h s)) (Hshim : forall s, is_u64 (shim_lookup s)).

Lemma first_nonnull_u64 l : Forall is_u64 l -> is_u64 (first_nonnull l).
Proof.
  induction 1 as [|a l Ha _ IH]; cbn; [unfold is_u64; lia|]. by destruct (a =? 0).
Qed.

Lemma macho_dylib_lookup_u64 mds sym :
  Forall (fun e => is_u64 e.2) (all_exports mds) -> is_u64 (macho_dylib_lookup mds sym).
Proof.
  rewrite Forall_forall. intros He. unfold macho_dylib_lookup.
  assert (is_u64 0) as H0 by (unfold is_u64; lia).
  assert (forall f, is_u64 match List.find f (all_exports mds) with Some e => e.2 | None => 0 end)
    as Hf.
  { intros f. destruct (List.find f _) as [e|] eqn:E; [|done].
    apply find_some in E as [Hin _]. by apply He. }
  pose proof (Hf (fun e => streq e.1 sym || (head_is underscore sym && streq e.1 (sdrop 1 sym)))) as H1.
  destruct (List.find _ _); [done|]. destruct (negb _ && _); [apply Hf|done].
Qed.

Ltac all_u64 := repeat first [done | apply Forall_cons_2 | apply Forall_nil_2].

Lemma resolve_symbol_u64 L ordinal sym :
  Forall (fun e => is_u64 e.2) (all_exports (g_macho_dylibs L)) ->
  is_u64 (resolve_symbol dlsym shim_lookup L ordinal sym).
Proof.
  intros He. rewrite resolve_symbol_providers. apply first_nonnull_u64.
  assert (is_u64 0) as H0 by (unfold is_u64; lia).
  assert (forall s, is_u64 (macho_dylib_lookup (g_macho_dylibs L) s)) as Hm
    by (intros; by apply macho_dylib_lookup_u64).
  assert (forall s hs, Forall is_u64 (map (fun h => dlsym h s) hs)) as Hx
    by (intros s hs; apply Forall_forall; intros x (h & <- & _)%in_map_iff; done).
  assert (forall d s, Forall is_u64 (dylib_providers dlsym d s)) as Hd
    by (intros; unfold dylib_providers; destruct (libc_handle d =? 0), (libm_handle d =? 0); all_u64).
  assert (forall s, Forall is_u64 (flat_providers dlsym L s)) as Hf.
  { intros s. apply Forall_cons_2; [done|]. apply Forall_app_2; [|apply Forall_app_2; [done|all_u64]].
    induction (g_dylibs L) as [|d ds IH]; [constructor|]. by apply Forall_app_2. }
  assert (forall f, (forall s, Forall is_u64 (f s)) -> Forall is_u64 (if_dollar f sym)) as Hi
    by (intros f Hff; unfold if_dollar; destruct (dollar_base sym); [done|constructor]).
  apply Forall_cons_2.
  { unfold addrinfo_wrapper. by destruct (_ =? 0); [|destruct (streq _ _); [|destruct (streq _ _)]]. }
  destruct (ordinal =? -1); [apply Forall_app_2; [apply Hf|apply Hi, Hf]|].
  destruct (ordinal <? 0); [constructor|].
  destruct (g_dylibs L !! _) as [d|]; [|constructor]. unfold two_level_providers.
  repeat apply Forall_app_2; try done; try by all_u64.
  - apply Forall_cons_2; [|constructor]. unfold interposed. by destruct (_ && _).
  - destruct (_ || _); all_u64.
  - unfold shim_providers. destruct (_ || _); [constructor|]. apply Forall_cons_2; [done|].
    apply Hi. intros s. all_u64.
  - apply Hi. intros s. apply Forall_cons_2; [done|]. by apply Forall_app_2.
Qed.
End refinement.

(** ** Properties *)

(** C5 (refinement): [resolve_symbol] is an ordered search: for every
    ordinal and name it returns the first non-null answer of the list of
    providers the linker state defines (flat or two-level), and null exactly
    when none of them knows the name. *)
Theorem resolve_symbol_refines
    (dlsym : Z -> string -> Z) (shim_lookup : string -> Z)
    (L : link_state) (ordinal : Z) (sym : string) :
  let P := providers dlsym shim_lookup L ordinal sym in
  resolve_symbol dlsym shim_lookup L ordinal sym = first_nonnull P /\
  (resolve_symbol dlsym shim_lookup L ordinal sym = 0 <-> Forall (fun a => a = 0) P).
Proof.
  intros P. rewrite resolve_symbol_providers. split; [done|apply first_nonnull_zero].
Qed.

(** A two-level import of a must-interpose name binds to the
    shim whenever the shim exports it, whatever library the ordinal names and
    whatever the loaded Mach-O dylibs export; a flat-namespace import of the
    same name binds to a Mach-O dylib that exports it instead. *)
Theorem interposed_symbols_go_to_shim
    (dlsym : Z -> string -> Z) (shim_lookup : string -> Z)
    (L : link_state) (ordinal : Z) (sym : string) :
  In sym interpose_syms -> shim_handle L <> 0 -> dlsym (shim_handle L) sym <> 0 ->
  (0 <= ordinal < Z.of_nat (length (g_dylibs L)) ->
   resolve_symbol dlsym shim_lookup L ordinal sym = dlsym (shim_handle L) sym) /\
  (macho_dylib_lookup (g_macho_dylibs L) sym <> 0 ->
   resolve_symbol dlsym shim_lookup L (-1) sym = macho_dylib_lookup (g_macho_dylibs L) sym).
Proof.
  intros Hin Hh Hd.
  assert (addrinfo_wrapper dlsym L sym = 0) as Ha.
  { unfold addrinfo_wrapper. destruct (_ =? 0); [done|].
    repeat (destruct Hin as [<-|Hin]; [reflexivity|]). destruct Hin. }
  assert (interposed dlsym L sym = dlsym (shim_handle L) sym) as Hi.
  { unfold interposed. replace (shim_handle L =? 0) with false by lia.
    replace (existsb (streq sym) interpose_syms) with true; [done|].
    symmetry. apply existsb_exists. exists sym. split; [done|]. by apply streq_spec. }
  split.
  - intros Ho. destruct (lookup_lt_is_Some_2 (g_dylibs L) (Z.to_nat ordinal)) as [d Ed]; [lia|].
    rewrite resolve_symbol_providers. unfold providers, two_level_providers. rewrite Ha.
    replace (ordinal =? -1) with false by lia. replace (ordinal <? 0) with false by lia.
    rewrite Ed. cbn. rewrite Hi. by replace (_ =? 0) with false by lia.
  - intros Hm. rewrite resolve_symbol_providers. unfold providers, flat_providers. rewrite Ha. cbn.
    by replace (macho_dylib_lookup _ sym =? 0) with false by lia.
Qed.

Lemma interposed_symbols_go_to_shim_witness :
  let dlsym := fun h s => if (h =? 7) && streq s "system" then 0x70 else 0 in
  let L := mk_link [mk_dylib "shim" 7 0 0; mk_dylib "libSystem" 8 0 0] []
                   [mk_macho_dylib "libx" 0 [("_system"%string, 0x90)]] in
  resolve_symbol dlsym (fun _ => 0) L 1 "system" = 0x70 /\
  resolve_symbol dlsym (fun _ => 0) L (-1) "system" = 0x90.
Proof.
  intros dlsym L.
  destruct (interposed_symbols_go_to_shim dlsym (fun _ => 0) L 1 "system") as [H1 H2].
  - cbn. tauto.
  - cbn. lia.
  - vm_compute. discriminate.
  - split; [apply H1; cbn; lia|]. rewrite H2; [reflexivity|]. vm_compute. discriminate.
Defined.

(** The unresolved-symbol report: noting any sequence of
    names counts every one of them (modulo 2^64) and records, in order of
    first occurrence, distinct names of the sequence, all of them while there
    are at most 32 and never more than 32. *)
Theorem note_stub_invariant (syms : list string) :
  let s := fold_left (fun s x => macify_note_stub x s) syms (mk_stubs 0 []) in
  g_stubbed_symbols s = u64 (Z.of_nat (length syms)) /\
  NoDup (noted_stubs s) /\ (length (noted_stubs s) <= MACIFY_MAX_NOTED_STUBS)%nat /\
  noted_stubs s ⊆ syms /\
  ((length (noted_stubs s) < MACIFY_MAX_NOTED_STUBS)%nat -> syms ⊆ noted_stubs s).
Proof.
  induction syms as [|x syms IH] using rev_ind; cbn zeta.
  { cbn. repeat split; try done; [constructor|unfold MACIFY_MAX_NOTED_STUBS; lia]. }
  rewrite fold_left_app. cbn [fold_left].
  set (s := fold_left _ syms _) in *. destruct IH as (Hn & Hd & Hl & Hs & Ha).
  rewrite length_app, Nat2Z.inj_add.
  assert (u64 (g_stubbed_symbols s + 1) = u64 (Z.of_nat (length syms) + Z.of_nat (length [x]))) as Hc.
  { rewrite Hn. apply u64_add_l. }
  unfold macify_note_stub. destruct (existsb _ _) eqn:E; cbn [g_stubbed_symbols noted_stubs].
  - apply existsb_exists in E as (y & Hy & ->%streq_spec).
    apply list_elem_of_In in Hy. repeat split; try done.
    + set_solver.
    + intros H z [Hz| ->%list_elem_of_singleton]%elem_of_app; [by apply (Ha H)|done].
  - assert (x ∉ noted_stubs s) as Hx.
    { intros H. assert (existsb (fun y => streq y x) (noted_stubs s) = true); [|congruence].
      apply existsb_exists. exists x. split; [by apply list_elem_of_In|by apply streq_spec]. }
    destruct (Nat.ltb_spec (length (noted_stubs s)) MACIFY_MAX_NOTED_STUBS);
      cbn [g_stubbed_symbols noted_stubs]; repeat split; try done.
    + apply list.NoDup_app. repeat split; [done|set_solver|apply list.NoDup_singleton].
    + rewrite length_app. cbn. lia.
    + set_solver.
    + intros _. specialize (Ha ltac:(lia)). set_solver.
    + set_solver.
    + lia.
Qed.
