(* ===== verification/Binds.v ===== *)
(** * Bind opcodes (src/src/fixups.c, [execute_binds], [execute_lazy_binds])

    The LC_DYLD_INFO bind bytecode interpreter, over the opcode bytes, the
    process memory and the unresolved-symbol report.  What it needs of the
    linker is the class [Linker]; [Symbols.resolve_symbol] is an instance.
    [bop] is the abstract syntax of a bind program and [bop_slots] the
    pointer slots it names. *)
From Stdlib Require Import ZArith Lia Bool.
From stdpp Require Import base gmap list strings numbers.
From S2P Require Import Prelude LoaderState Leb128 Symbols.

(** What a fixup interpreter asks of the linker: the number of dylibs, the
    address of a symbol (0 when no library has it) and the address of
    [macify_unresolved_stub], which is never null. *)
Class Linker := {
  g_ndylibs : Z;
  resolve : Z -> string -> Z;
  unresolved_stub : Z;
  resolve_u64 : forall o s, is_u64 (resolve o s);
  stub_nonnull : 0 < unresolved_stub < 2 ^ 64
}.

(** [addr = resolve_symbol(...); if (!addr) addr = macify_unresolved_stub;] *)
Definition bind_address `{Linker} (ordinal : Z) (sym : string) : Z :=
  let addr := resolve ordinal sym in if addr =? 0 then unresolved_stub else addr.

(** [if (!addr) macify_note_stub(sym)] *)
Definition note_unresolved `{Linker} (ordinal : Z) (sym : string) (s : stub_state) : stub_state :=
  if resolve ordinal sym =? 0 then macify_note_stub sym s else s.

(** [if (sym[0] == '_') sym++] *)
Definition strip_underscore (s : string) : string :=
  if head_is underscore s then sdrop 1 s else s.

Definition BIND_TYPE_POINTER : Z := 1.

Record bd_state := mk_bd {
  bd_ordinal : Z; bd_symbol : string; bd_type : Z; bd_addend : Z;
  bd_seg_index : Z; bd_seg_offset : Z; bd_mem : mem; bd_stubs : stub_state
}.

(** The bytes up to a NUL and those after it; [None] when there is no NUL. *)
Fixpoint read_cstring (bs : list Z) : option (list Z * list Z) :=
  match bs with
  | [] => None
  | b :: bs => if b =? 0 then Some ([], bs) else
      match read_cstring bs with
      | None => None
      | Some (s, rest) => Some (b :: s, rest)
      end
  end.

Section interpreter.
  Context `{Linker} (segs : list loaded_segment).

Definition bd_advance (st : bd_state) (n : Z) : bd_state :=
  mk_bd (bd_ordinal st) (bd_symbol st) (bd_type st) (bd_addend st)
        (bd_seg_index st) (u64 (bd_seg_offset st + n)) (bd_mem st) (bd_stubs st).

Definition bd_put (st : bd_state) (m : mem) (s : stub_state) : bd_state :=
  mk_bd (bd_ordinal st) (bd_symbol st) (bd_type st) (bd_addend st)
        (bd_seg_index st) (bd_seg_offset st) m s.

Definition ordinal_ok (st : bd_state) : bool :=
  negb ((bd_ordinal st <? 1) || (bd_ordinal st >? g_ndylibs)).

(** The body shared by the three DO_BIND opcodes, up to the advance by 8. *)
Definition do_bind (st : bd_state) : res (ctl bd_state) :=
  if negb (ordinal_ok st) then Ok (Return (-1) st) else
  let sym := strip_underscore (bd_symbol st) in
  let addr := bind_address (bd_ordinal st - 1) sym in
  let stubs := note_unresolved (bd_ordinal st - 1) sym (bd_stubs st) in
  if (bd_seg_index st <? 0) || (bd_seg_index st >=? nsegments segs)
  then Ok (Return (-1) (bd_put st (bd_mem st) stubs)) else
  seg ← segment_at segs (bd_seg_index st);
  let target := u64 (vmaddr seg + bd_seg_offset st) in
  m ← (if bd_type st =? BIND_TYPE_POINTER
       then store64 (bd_mem st) target (u64 (addr + bd_addend st)) else Ok (bd_mem st));
  Ok (Continue (bd_advance (bd_put st m stubs) 8)).

(** The loop of DO_BIND_ULEB_TIMES_SKIPPING_ULEB. *)
Fixpoint bind_times (count : nat) (skip : Z) (st : bd_state) : res (ctl bd_state) :=
  match count with
  | O => Ok (Continue st)
  | S count =>
      if negb (ordinal_ok st) then Ok (Return (-1) st) else
      let addr := bind_address (bd_ordinal st - 1) (strip_underscore (bd_symbol st)) in
      seg ← segment_at segs (bd_seg_index st);
      m ← store64 (bd_mem st) (u64 (vmaddr seg + bd_seg_offset st)) (u64 (addr + bd_addend st));
      bind_times count skip (bd_advance (bd_put st m (bd_stubs st)) (8 + skip))
  end.

Definition bd_set_ordinal (st : bd_state) (o : Z) : bd_state :=
  mk_bd o (bd_symbol st) (bd_type st) (bd_addend st)
        (bd_seg_index st) (bd_seg_offset st) (bd_mem st) (bd_stubs st).

Definition bd_set_symbol (st : bd_state) (s : string) : bd_state :=
  mk_bd (bd_ordinal st) s (bd_type st) (bd_addend st)
        (bd_seg_index st) (bd_seg_offset st) (bd_mem st) (bd_stubs st).

Definition bd_set_type (st : bd_state) (t : Z) : bd_state :=
  mk_bd (bd_ordinal st) (bd_symbol st) t (bd_addend st)
        (bd_seg_index st) (bd_seg_offset st) (bd_mem st) (bd_stubs st).

Definition bd_set_addend (st : bd_state) (a : Z) : bd_state :=
  mk_bd (bd_ordinal st) (bd_symbol st) (bd_type st) a
        (bd_seg_index st) (bd_seg_offset st) (bd_mem st) (bd_stubs st).

Definition bd_set_seg (st : bd_state) (i off : Z) : bd_state :=
  mk_bd (bd_ordinal st) (bd_symbol st) (bd_type st) (bd_addend st) i off
        (bd_mem st) (bd_stubs st).

(** [case BIND_OPCODE_DONE] when more bytes follow. *)
Definition bd_done (st : bd_state) : bd_state :=
  bd_set_seg (bd_set_symbol st EmptyString) 0 0.

Definition special_ordinal (imm : Z) : Z := if imm =? 0 then 0 else i8 (Z.lor imm 0xF0).

Definition bind_step (byte : Z) (bs : list Z) (st : bd_state)
    : res (ctl bd_state * list Z) :=
  let imm := Z.land byte 0x0F in
  match Z.land byte 0xF0 with
  | 0x00 => match bs with
            | [] => Ok (Return 0 st, bs)
            | _ => Ok (Continue (bd_done st), bs)
            end
  | 0x10 => Ok (Continue (bd_set_ordinal st imm), bs)
  | 0x20 =>
      '(v, bs) ← read_uleb128 bs;
      Ok (Continue (bd_set_ordinal st (i32 v)), bs)
  | 0x30 => Ok (Continue (bd_set_ordinal st (special_ordinal imm)), bs)
  | 0x40 =>
      match read_cstring bs with
      | None => Ok (Return (-1) st, bs)
      | Some (s, bs) => Ok (Continue (bd_set_symbol st (stake 255 (string_of_bytes s))), bs)
      end
  | 0x50 => Ok (Continue (bd_set_type st imm), bs)
  | 0x60 =>
      '(v, bs) ← read_sleb128 bs;
      Ok (Continue (bd_set_addend st v), bs)
  | 0x70 =>
      '(off, bs) ← read_uleb128 bs;
      Ok (Continue (bd_set_seg st imm off), bs)
  | 0x80 =>
      '(off, bs) ← read_uleb128 bs;
      Ok (Continue (bd_advance st off), bs)
  | 0x90 =>
      r ← do_bind st;
      Ok (r, bs)
  | 0xA0 =>
      r ← do_bind st;
      match r with
      | Return c st => Ok (Return c st, bs)
      | Continue st =>
          '(off, bs) ← read_uleb128 bs;
          Ok (Continue (bd_advance st off), bs)
      end
  | 0xB0 =>
      r ← do_bind st;
      match r with
      | Return c st => Ok (Return c st, bs)
      | Continue st => Ok (Continue (bd_advance st (imm * 8)), bs)
      end
  | 0xC0 =>
      '(count, bs) ← read_uleb128 bs;
      '(skip, bs) ← read_uleb128 bs;
      r ← bind_times (Z.to_nat count) skip st;
      Ok (r, bs)
  | _ => Ok (Return (-1) st, bs)
  end.

Fixpoint bind_loop (fuel : nat) (bs : list Z) (st : bd_state) : res (Z * mem * stub_state) :=
  match bs with
  | [] => Ok (0, bd_mem st, bd_stubs st)
  | byte :: bs =>
      match fuel with
      | O => NoFuel
      | S fuel =>
          '(r, bs) ← bind_step byte bs st;
          match r with
          | Return c st => Ok (c, bd_mem st, bd_stubs st)
          | Continue st => bind_loop fuel bs st
          end
      end
  end.

(** The globals that locate the two opcode ranges. *)
Record dyld_info := mk_info {
  g_bind_off : Z; g_bind_size : Z; g_lazy_bind_off : Z; g_lazy_bind_size : Z
}.

Definition execute_binds (file_data : list Z) (g : dyld_info) (m : mem) (s : stub_state)
    : res (Z * mem * stub_state) :=
  if g_bind_size g =? 0 then Ok (0, m, s)
  else if u32 (g_bind_off g + g_bind_size g) >? buf_len file_data then Ok (-1, m, s)
  else
    bs ← buf_slice file_data (g_bind_off g) (g_bind_size g);
    bind_loop (length bs) bs (mk_bd 0 EmptyString BIND_TYPE_POINTER 0 0 0 m s).

(** Swap the lazy range in, run [execute_binds], restore. *)
Definition execute_lazy_binds (file_data : list Z) (g : dyld_info) (m : mem) (s : stub_state)
    : res (Z * mem * stub_state * dyld_info) :=
  if g_lazy_bind_size g =? 0 then Ok (0, m, s, g) else
  let swapped := mk_info (g_lazy_bind_off g) (g_lazy_bind_size g)
                         (g_lazy_bind_off g) (g_lazy_bind_size g) in
  '(result, m, s) ← execute_binds file_data swapped m s;
  Ok (result, m, s,
      mk_info (g_bind_off g) (g_bind_size g) (g_lazy_bind_off g) (g_lazy_bind_size g)).

End interpreter.

(** ** Abstract bind programs *)

Inductive bop :=
| BDone
| BOrdImm (imm : Z)
| BOrdUleb (v : Z)
| BSpecial (imm : Z)
| BSymbol (flags : Z) (name : list Z)
| BType (imm : Z)
| BAddend (v : Z)
| BSeg (seg off : Z)
| BAddAddr (off : Z)
| BDo
| BDoAdd (off : Z)
| BDoScaled (imm : Z)
| BTimes (count skip : Z).

#[export] Instance bop_eq_dec : EqDecision bop.
Proof. solve_decision. Defined.

Definition bop_wf (o : bop) : Prop :=
  match o with
  | BDone | BDo => True
  | BOrdImm i | BSpecial i | BType i | BDoScaled i => 0 <= i < 16
  | BOrdUleb v | BAddAddr v | BDoAdd v => is_u64 v
  | BSymbol f name => 0 <= f < 16 /\ Forall (fun b => 0 < b < 256) name
  | BAddend v => - 2 ^ 63 <= v < 2 ^ 63
  | BSeg s off => 0 <= s < 16 /\ is_u64 off
  | BTimes c s => is_u64 c /\ is_u64 s
  end.

Definition bop_encode (o : bop) : list Z :=
  match o with
  | BDone => [0x00]
  | BOrdImm i => [0x10 + i]
  | BOrdUleb v => 0x20 :: uleb_encode v
  | BSpecial i => [0x30 + i]
  | BSymbol f name => (0x40 + f) :: name ++ [0]
  | BType i => [0x50 + i]
  | BAddend v => 0x60 :: sleb_encode v
  | BSeg s off => (0x70 + s) :: uleb_encode off
  | BAddAddr off => 0x80 :: uleb_encode off
  | BDo => [0x90]
  | BDoAdd off => 0xA0 :: uleb_encode off
  | BDoScaled i => [0xB0 + i]
  | BTimes c s => 0xC0 :: uleb_encode c ++ uleb_encode s
  end.

(** What the program says about the next slot. *)
Record bcursor := mk_bcursor {
  k_ordinal : Z; k_symbol : string; k_type : Z; k_addend : Z; k_seg : Z; k_off : Z
}.

Definition bcursor0 : bcursor := mk_bcursor 0 EmptyString BIND_TYPE_POINTER 0 0 0.

Definition k_skip (k : bcursor) (n : Z) : bcursor :=
  mk_bcursor (k_ordinal k) (k_symbol k) (k_type k) (k_addend k) (k_seg k) (u64 (k_off k + n)).

(** One slot to bind: where, what, and whether it is written and reported. *)
Record slot := mk_slot {
  s_target : Z; s_ordinal : Z; s_symbol : string; s_addend : Z;
  s_write : bool; s_note : bool
}.

Section spec.
  Context `{Linker} (segs : list loaded_segment).

Definition k_slot (k : bcursor) (write note : bool) : option slot :=
  if (k_ordinal k <? 1) || (k_ordinal k >? g_ndylibs) || (k_seg k <? 0) then None
  else match segs !! Z.to_nat (k_seg k) with
       | None => None
       | Some seg => Some (mk_slot (u64 (vmaddr seg + k_off k)) (k_ordinal k - 1)
                            (strip_underscore (k_symbol k)) (k_addend k) write note)
       end.

Definition one_slot (k : bcursor) : option (list slot * bcursor) :=
  match k_slot k (k_type k =? BIND_TYPE_POINTER) true with
  | None => None
  | Some s => Some ([s], k_skip k 8)
  end.

Fixpoint times_slots (count : nat) (skip : Z) (k : bcursor) : option (list slot * bcursor) :=
  match count with
  | O => Some ([], k)
  | S count =>
      match k_slot k true false with
      | None => None
      | Some s =>
          match times_slots count skip (k_skip k (8 + skip)) with
          | None => None
          | Some (ss, k) => Some (s :: ss, k)
          end
      end
  end.

Definition then_skip (r : option (list slot * bcursor)) (n : Z) : option (list slot * bcursor) :=
  match r with None => None | Some (ss, k) => Some (ss, k_skip k n) end.

Definition bop_slots (o : bop) (k : bcursor) : option (list slot * bcursor) :=
  let '(mk_bcursor ord sym ty add seg off) := k in
  match o with
  | BDone => Some ([], mk_bcursor ord EmptyString ty add 0 0)
  | BOrdImm i => Some ([], mk_bcursor i sym ty add seg off)
  | BOrdUleb v => Some ([], mk_bcursor (i32 v) sym ty add seg off)
  | BSpecial i => Some ([], mk_bcursor (special_ordinal i) sym ty add seg off)
  | BSymbol _ name =>
      Some ([], mk_bcursor ord (stake 255 (string_of_bytes name)) ty add seg off)
  | BType i => Some ([], mk_bcursor ord sym i add seg off)
  | BAddend v => Some ([], mk_bcursor ord sym ty v seg off)
  | BSeg s o => Some ([], mk_bcursor ord sym ty add s o)
  | BAddAddr n => Some ([], k_skip k n)
  | BDo => one_slot k
  | BDoAdd n => then_skip (one_slot k) n
  | BDoScaled i => then_skip (one_slot k) (i * 8)
  | BTimes n s => times_slots (Z.to_nat n) s k
  end.

Fixpoint program_slots (ops : list bop) (k : bcursor) : option (list slot) :=
  match ops with
  | [] => Some []
  | o :: ops =>
      match bop_slots o k with
      | None => None
      | Some (ss, k) =>
          match program_slots ops k with None => None | Some us => Some (ss ++ us) end
      end
  end.

(** The value a slot must hold: the symbol's address, or the stub's, plus
    the addend. *)
Definition slot_value (s : slot) : Z :=
  u64 (bind_address (s_ordinal s) (s_symbol s) + s_addend s).

Definition fill_slot (ms : mem * stub_state) (s : slot) : res (mem * stub_state) :=
  let '(m, st) := ms in
  m ← (if s_write s then store64 m (s_target s) (slot_value s) else Ok m);
  Ok (m, if s_note s then note_unresolved (s_ordinal s) (s_symbol s) st else st).

Definition fill_slots (ss : list slot) (ms : mem * stub_state) : res (mem * stub_state) :=
  fold_res fill_slot ss ms.

End spec.

(** ** Lemmas *)

Lemma read_cstring_spec name rest :
  Forall (fun b => 0 < b < 256) name -> read_cstring (name ++ 0 :: rest) = Some (name, rest).
Proof.
  induction 1 as [|b name Hb _ IH]; cbn; [done|].
  replace (b =? 0) with false by lia. by rewrite IH.
Qed.

Lemma read_cstring_length bs s rest :
  read_cstring bs = Some (s, rest) -> (length rest <= length bs)%nat.
Proof.
  revert s. induction bs as [|b bs IH]; intros s; cbn; [done|].
  destruct (b =? 0); [intros [= _ ->]; lia|].
  destruct (read_cstring bs) as [[s' r']|]; [|done]. intros [= _ ->].
  specialize (IH s' eq_refl). lia.
Qed.

Section proofs.
  Context `{Linker} (segs : list loaded_segment).
  Context (Hsegs : (length segs <= MAX_SEGMENTS)%nat).

Definition at_k (k : bcursor) (ms : mem * stub_state) : bd_state :=
  mk_bd (k_ordinal k) (k_symbol k) (k_type k) (k_addend k) (k_seg k) (k_off k) ms.1 ms.2.

Lemma k_slot_inv k w n s :
  k_slot segs k w n = Some s -> exists seg,
    1 <= k_ordinal k <= g_ndylibs /\ 0 <= k_seg k < nsegments segs /\
    segment_at segs (k_seg k) = Ok seg /\
    s = mk_slot (u64 (vmaddr seg + k_off k)) (k_ordinal k - 1)
                (strip_underscore (k_symbol k)) (k_addend k) w n.
Proof.
  unfold k_slot. destruct (_ || _ || _) eqn:E; [done|]. bool_to_prop.
  destruct (segs !! Z.to_nat (k_seg k)) as [seg|] eqn:Es; [|done]. intros [= <-].
  assert (0 <= k_seg k < nsegments segs) as Hr.
  { apply lookup_lt_Some in Es. unfold nsegments. lia. }
  destruct (segment_at_valid segs (k_seg k) Hr Hsegs) as (s & Hs & Hat).
  exists seg. repeat split; try lia. congruence.
Qed.

Lemma do_bind_spec k ms ss k' :
  one_slot segs k = Some (ss, k') ->
  do_bind segs (at_k k ms) =
  (ms' ← fill_slots ss ms; Ok (Continue (at_k k' ms'))).
Proof.
  unfold one_slot. destruct (k_slot segs k _ true) as [s|] eqn:E; [|done].
  intros [= <- <-]. destruct (k_slot_inv _ _ _ _ E) as (seg & Ho & Hr & Hat & ->).
  unfold do_bind, ordinal_ok. destruct ms as [m st]. cbn.
  replace ((k_ordinal k <? 1) || (k_ordinal k >? g_ndylibs)) with false by lia. cbn.
  replace ((k_seg k <? 0) || (k_seg k >=? nsegments segs)) with false by lia.
  rewrite Hat. cbn. destruct (k_type k =? BIND_TYPE_POINTER); [|done].
  unfold slot_value. cbn. by destruct (store64 m _ _).
Qed.

Lemma bind_times_spec count skip k ms ss k' :
  times_slots segs count skip k = Some (ss, k') ->
  bind_times segs count skip (at_k k ms) =
  (ms' ← fill_slots ss ms; Ok (Continue (at_k k' ms'))).
Proof.
  revert k ms ss. induction count as [|count IH]; intros k ms ss; cbn [times_slots bind_times].
  - intros [= <- <-]. done.
  - destruct (k_slot segs k true false) as [s|] eqn:E; [|done].
    destruct (times_slots segs count skip _) as [[ss0 k0]|] eqn:E0; [|done].
    intros [= <- <-]. destruct (k_slot_inv _ _ _ _ E) as (seg & Ho & Hr & Hat & ->).
    unfold ordinal_ok. destruct ms as [m st]. cbn.
    replace ((k_ordinal k <? 1) || (k_ordinal k >? g_ndylibs)) with false by lia. cbn.
    rewrite Hat. cbn. unfold slot_value. cbn.
    destruct (store64 m _ _) as [m1| |]; [cbn|done|done].
    exact (IH (k_skip k (8 + skip)) (m1, st) ss0 E0).
Qed.

(** One encoded opcode, in front of any bytes (a DONE, in front of some). *)
Lemma bind_step_spec o k ms ss k' rest :
  bop_wf o -> bop_slots segs o k = Some (ss, k') -> (o = BDone -> rest <> []) ->
  exists byte tl, bop_encode o = byte :: tl /\
    bind_step segs byte (tl ++ rest) (at_k k ms) =
    (ms' ← fill_slots ss ms; Ok (Continue (at_k k' ms'), rest)).
Proof.
  intros Hwf Ht Hrest. destruct k as [ord sym ty add seg off].
  destruct o as [|i|v|i|f name|i|v|s o|o| |o|i|n s]; cbn [bop_wf bop_slots bop_encode] in *;
    eexists _, _; (split; [reflexivity|]); unfold bind_step;
    try (injection Ht as <- <-);
    try match type of Hwf with 0 <= ?i < 16 =>
      first [decode_opcode 1 i Hwf; reflexivity | decode_opcode 3 i Hwf; reflexivity
            |decode_opcode 5 i Hwf; reflexivity] end;
    try match goal with
    | |- context [Z.land (Zpos ?c) 240] =>
        let v := eval vm_compute in (Z.land (Zpos c) 240) in change (Z.land (Zpos c) 240) with v
    | |- context [Z.land 0 240] => change (Z.land 0 240) with 0
    end;
    cbv iota; try (rewrite uleb_read_back by done; reflexivity).
  - destruct rest; [by destruct Hrest|done].
  - destruct Hwf as [Hf Hname]. decode_opcode 4 f Hf.
    rewrite <- app_assoc. cbn [app]. by rewrite read_cstring_spec.
  - rewrite sleb_read_back by done. reflexivity.
  - destruct Hwf as [Hs Ho]. decode_opcode 7 s Hs. by rewrite uleb_read_back.
  - rewrite (do_bind_spec _ _ _ _ Ht). by destruct (fill_slots ss ms).
  - unfold then_skip in Ht. destruct (one_slot segs _) as [[ss0 k0]|] eqn:E; [|done].
    injection Ht as <- <-. rewrite (do_bind_spec _ _ _ _ E).
    destruct (fill_slots ss0 ms); [cbn|done|done]. by rewrite uleb_read_back.
  - unfold then_skip in Ht. destruct (one_slot segs _) as [[ss0 k0]|] eqn:E; [|done].
    injection Ht as <- <-. decode_opcode 11 i Hwf. rewrite (do_bind_spec _ _ _ _ E).
    by destruct (fill_slots ss0 ms).
  - destruct Hwf as [Hn Hs]. rewrite <- app_assoc, uleb_read_back by done. cbn.
    rewrite uleb_read_back by done. cbn.
    rewrite (bind_times_spec _ _ _ _ _ _ Ht). by destruct (fill_slots ss ms).
Qed.

Lemma bop_encode_nonempty o : bop_encode o <> [].
Proof. by destruct o. Qed.

Lemma bind_loop_program ops k ms ss m' s' fuel :
  Forall bop_wf ops -> program_slots segs ops k = Some ss ->
  fill_slots ss ms = Ok (m', s') -> (length (concat (map bop_encode ops)) <= fuel)%nat ->
  bind_loop segs fuel (concat (map bop_encode ops)) (at_k k ms) = Ok (0, m', s').
Proof.
  intros Hwf. revert k ms ss fuel.
  induction Hwf as [|o ops Ho _ IH]; intros k ms ss fuel Ht Hm Hf; cbn [map concat] in *.
  - injection Ht as <-. injection Hm as ->. by destruct fuel.
  - cbn [program_slots] in Ht.
    destruct (bop_slots segs o k) as [[ss1 k1]|] eqn:E1; [|done].
    destruct (program_slots segs ops k1) as [ss2|] eqn:E2; [|done].
    injection Ht as <-. unfold fill_slots in Hm. rewrite fold_res_app in Hm. bind_inv Hm.
    destruct (decide (o = BDone /\ ops = [])) as [[-> ->]|Hnd].
    { destruct k. cbn in E1, E2, Hf. injection E1 as <- <-. injection E2 as <-.
      injection E as <-. injection Hm as ->. destruct fuel; [lia|done]. }
    destruct (bind_step_spec o k ms ss1 k1 (concat (map bop_encode ops)) Ho E1)
      as (byte & tl & Eo & Hstep).
    { intros -> Hnil. destruct ops as [|o ops]; [by destruct Hnd|]. cbn in Hnil.
      by apply app_eq_nil in Hnil as [?%bop_encode_nonempty _]. }
    rewrite Eo in Hf |- *. cbn [app length] in *.
    destruct fuel as [|fuel]; [lia|]. cbn [bind_loop].
    unfold fill_slots in Hstep. rewrite Hstep, E. cbn.
    apply (IH k1 a ss2 fuel E2 Hm). rewrite !length_app in *. lia.
Qed.
End proofs.

Section invariants.
  Context `{Linker} (segs : list loaded_segment).

(** An invariant of 8-byte stores is an invariant of the run. *)
Definition store_inv (P : mem -> Prop) : Prop :=
  forall m a v m', P m -> store64 m a v = Ok m' -> P m'.

Definition ctl_mem (P : mem -> Prop) (r : ctl bd_state) : Prop :=
  match r with Continue s | Return _ s => P (bd_mem s) end.

Lemma do_bind_inv (P : mem -> Prop) st r :
  store_inv P -> P (bd_mem st) -> do_bind segs st = Ok r -> ctl_mem P r.
Proof.
  intros HP Hst. unfold do_bind. destruct (negb _); [by intros [= <-]|].
  destruct (_ || _); [by intros [= <-]|]. intros E. bind_inv E.
  destruct (bd_type st =? BIND_TYPE_POINTER).
  - bind_inv E. injection E as <-. cbn. by apply (HP _ _ _ _ Hst E1).
  - by injection E as <-.
Qed.

Lemma bind_times_inv (P : mem -> Prop) n skip st r :
  store_inv P -> P (bd_mem st) -> bind_times segs n skip st = Ok r -> ctl_mem P r.
Proof.
  intros HP. revert st. induction n as [|n IH]; intros st Hst; cbn; [by intros [= <-]|].
  destruct (negb _); [by intros [= <-]|]. intros E. bind_inv E. bind_inv E.
  apply IH in E; [done|]. by apply (HP _ _ _ _ Hst E1).
Qed.

Lemma bind_step_inv (P : mem -> Prop) byte bs st r bs' :
  store_inv P -> P (bd_mem st) -> bind_step segs byte bs st = Ok (r, bs') ->
  ctl_mem P r /\ (length bs' <= length bs)%nat.
Proof.
  intros HP Hst E. unfold bind_step in E.
  destruct (read_cstring bs) as [[nm rest]|] eqn:Es;
    [apply read_cstring_length in Es|]; destruct bs as [|b bs];
  step_cases E; try (split; [done|lia]);
  repeat match goal with
  | E : read_uleb128 _ = Ok _ |- _ => apply read_uleb128_length in E
  | E : read_sleb128 _ = Ok _ |- _ => apply read_sleb128_length in E
  | E : bind_times _ _ _ _ = Ok _ |- _ => apply (bind_times_inv P) in E; [|done|done]
  | E : do_bind _ _ = Ok _ |- _ => apply (do_bind_inv P) in E; [|done|done]
  end; split; cbn in *; try done; lia.
Qed.

Lemma bind_loop_inv (P : mem -> Prop) fuel bs st c m' s' :
  store_inv P -> P (bd_mem st) -> bind_loop segs fuel bs st = Ok (c, m', s') -> P m'.
Proof.
  intros HP. revert bs st. induction fuel as [|fuel IH]; intros [|byte bs] st Hst; cbn;
    try (intros [= <- <- <-]; done).
  intros E. bind_inv E. destruct a as [r bs'].
  destruct (bind_step_inv P byte bs st r bs' HP Hst E0) as [Hr _].
  destruct r as [s|c0 s]; [by apply (IH bs' s)|]. by injection E as <- <- <-.
Qed.

Lemma do_bind_no_fuel st : do_bind segs st <> NoFuel.
Proof.
  unfold do_bind, segment_at. destruct (negb _); [done|]. destruct (_ || _); [done|].
  destruct (_ || _); [done|]. cbn. destruct (_ =? _); [|done].
  destruct (store64 _ _ _) eqn:E2; [done|done|by apply store_no_fuel in E2].
Qed.

Lemma bind_times_no_fuel n skip st : bind_times segs n skip st <> NoFuel.
Proof.
  revert st. induction n as [|n IH]; intros st; cbn; [done|].
  destruct (negb _); [done|]. unfold segment_at. destruct (_ || _); [done|]. cbn.
  destruct (store64 _ _ _) eqn:E2; [apply IH|done|by apply store_no_fuel in E2].
Qed.

Lemma bind_step_no_fuel byte bs st : bind_step segs byte bs st <> NoFuel.
Proof.
  unfold bind_step, read_uleb128, read_sleb128.
  pose proof (do_bind_no_fuel st). pose proof uleb_loop_no_fuel as Hu.
  pose proof sleb_loop_no_fuel as Hs. pose proof bind_times_no_fuel as Ht.
  repeat first
    [ done
    | match goal with
      | |- mbind _ (uleb_loop ?b ?r ?s) <> _ =>
          pose proof (Hu b r s); destruct (uleb_loop b r s) as [[? ?]| |]; cbn
      | |- mbind _ (sleb_loop ?b ?r ?s ?c) <> _ =>
          pose proof (Hs b r s c); destruct (sleb_loop b r s c) as [[? ?]| |]; cbn
      | |- mbind _ (bind_times _ ?n ?k ?s) <> _ =>
          pose proof (Ht n k s); destruct (bind_times segs n k s) as [[?|? ?]| |]; cbn
      | |- mbind _ (do_bind _ _) <> _ => destruct (do_bind segs st) as [[?|? ?]| |]; cbn
      | |- context [match ?z with 0 => _ | _ => _ end] => destruct z
      | |- context [match ?p with xI _ => _ | _ => _ end] => destruct p
      | |- context [match ?l with [] => _ | _ => _ end] => destruct l
      | |- context [match read_cstring ?l with None => _ | _ => _ end] =>
          destruct (read_cstring l) as [[? ?]|]
      end ].
Qed.

Lemma bind_loop_fuel fuel bs st :
  (length bs <= fuel)%nat -> bind_loop segs fuel bs st <> NoFuel.
Proof.
  revert bs st. induction fuel as [|fuel IH]; intros [|byte bs] st Hf; cbn in *; try done; [lia|].
  pose proof (bind_step_no_fuel byte bs st).
  destruct (bind_step segs byte bs st) as [[r bs']| |] eqn:E; cbn; try done.
  destruct (bind_step_inv (fun _ => True) byte bs st r bs') as [_ Hl]; [done|done|done|].
  destruct r as [s|c s]; [|done]. apply IH. lia.
Qed.
End invariants.

(** Pairwise disjoint 8-byte slots, all of them written. *)
Fixpoint slots_disjoint (ss : list slot) : Prop :=
  match ss with
  | [] => True
  | s :: ss => Forall (fun s' => s_target s + 8 <= s_target s' \/
                                 s_target s' + 8 <= s_target s) ss /\ slots_disjoint ss
  end.

Lemma fill_slots_other `{Linker} ss ms ms' a :
  Forall (fun s => a + 8 <= s_target s \/ s_target s + 8 <= a) ss ->
  fill_slots ss ms = Ok ms' -> load64 ms'.1 a = load64 ms.1 a.
Proof.
  intros Ho. revert ms. induction Ho as [|s ss Hs _ IH]; intros [m st].
  - intros [= <-]. done.
  - unfold fill_slots. cbn. intros E. bind_inv E. bind_inv E0.
    injection E0 as <-. rewrite (IH _ E). cbn. destruct (s_write s); [|by injection E1 as <-].
    apply (load64_store64_other _ _ _ _ _ E1). lia.
Qed.

Lemma fill_slots_hold `{Linker} ss ms ms' :
  slots_disjoint ss -> fill_slots ss ms = Ok ms' ->
  Forall (fun s => s_write s = true -> load64 ms'.1 (s_target s) = Ok (slot_value s)) ss.
Proof.
  revert ms. induction ss as [|s ss IH]; intros [m st] Hd; [constructor|].
  destruct Hd as [Ho Hd]. unfold fill_slots. cbn. intros E. bind_inv E. bind_inv E0.
  injection E0 as <-. constructor; [|by apply (IH _ Hd E)].
  intros Hw. rewrite Hw in E1. rewrite (fill_slots_other ss _ _ (s_target s) Ho E). cbn.
  rewrite (load64_store64_same _ _ _ _ E1). f_equal. apply u64_idemp.
Qed.

Lemma execute_binds_program `{Linker} segs ops pre post ss m s m' s' lo ls :
  (length segs <= MAX_SEGMENTS)%nat -> Forall bop_wf ops ->
  program_slots segs ops bcursor0 = Some ss ->
  fill_slots ss (m, s) = Ok (m', s') ->
  buf_len (pre ++ concat (map bop_encode ops)) < 2 ^ 32 ->
  execute_binds segs (pre ++ concat (map bop_encode ops) ++ post)
    (mk_info (buf_len pre) (buf_len (concat (map bop_encode ops))) lo ls) m s = Ok (0, m', s').
Proof.
  intros Hsegs Hwf Hp Hm Hlen. unfold execute_binds. cbn [g_bind_off g_bind_size].
  set (code := concat (map bop_encode ops)) in *.
  rewrite buf_len_app in Hlen.
  pose proof (buf_len_nonneg pre). pose proof (buf_len_nonneg code). pose proof (buf_len_nonneg post).
  destruct (Z.eqb_spec (buf_len code) 0) as [E0|_].
  { destruct ops as [|o ops].
    - injection Hp as <-. injection Hm as <- <-. done.
    - exfalso. unfold buf_len, code in E0. cbn in E0. rewrite length_app in E0.
      destruct (bop_encode o) eqn:Eo; [by apply bop_encode_nonempty in Eo|]. cbn in E0. lia. }
  rewrite u32_small by lia. rewrite (buf_len_app pre), (buf_len_app code post).
  replace (_ >? _) with false by lia. rewrite buf_slice_in. cbn.
  exact (bind_loop_program segs Hsegs ops bcursor0 (m, s) ss m' s' (length code) Hwf Hp Hm (le_n _)).
Qed.

(** ** The linker of Symbols.v *)

Definition symbols_linker (dlsym : Z -> string -> Z) (shim_lookup : string -> Z)
    (L : link_state) (stub : Z)
    (Hd : forall h s, is_u64 (dlsym h s)) (Hs : forall s, is_u64 (shim_lookup s))
    (He : Forall (fun e => is_u64 e.2) (all_exports (g_macho_dylibs L)))
    (Hstub : 0 < stub < 2 ^ 64) : Linker :=
  {| g_ndylibs := Z.of_nat (length (g_dylibs L));
     resolve := resolve_symbol dlsym shim_lookup L;
     unresolved_stub := stub;
     resolve_u64 := fun o s => resolve_symbol_u64 dlsym shim_lookup Hd Hs L o s He;
     stub_nonnull := Hstub |}.

(** ** Properties *)


Definition demo_linker : Linker.
Proof.
  refine {| g_ndylibs := 1;
            resolve := fun _ s => if streq s "write" then 0x7000 else 0;
            unresolved_stub := 0x9999 |}.
  - intros o s. unfold is_u64. destruct (streq _ _); lia.
  - lia.
Defined.

Definition demo_segs : list loaded_segment := [mk_segment 0x1000 0x1000 3 3 "__DATA" false].
Definition demo_mem : mem := list_to_map (zip (seqZ 0x1008 16) (replicate 16 0)).

(** Bind [_write] to the slot at offset 8 and an unknown name to the next. *)
Definition demo_program : list bop :=
  [BOrdImm 1; BSeg 0 8; BSymbol 0 [95; 119; 114; 105; 116; 101]; BDo;
   BSymbol 0 [95; 113]; BDo; BDone].

Definition demo_slots : list slot :=
  [mk_slot 0x1008 0 "write" 0 true true; mk_slot 0x1010 0 "q" 0 true true].

Definition demo_result : mem * stub_state :=
  (put_bytes (put_bytes demo_mem 0x1008 (le_bytes 8 0x7000)) 0x1010 (le_bytes 8 0x9999),
   mk_stubs 1 ["q"%string]).


(** After a bind program whose slots do not overlap, every
    pointer slot holds the resolved address plus the addend, modulo 2^64;
    with a zero addend it is the symbol's own address, or the stub's when the
    linker does not know the symbol, and never null. *)
Theorem execute_binds_slots `{Linker}
    (segs : list loaded_segment) (ops : list bop) (pre post : list Z) (ss : list slot)
    (m m' : mem) (s s' : stub_state) (lo ls : Z) :
  (length segs <= MAX_SEGMENTS)%nat -> Forall bop_wf ops ->
  program_slots segs ops bcursor0 = Some ss -> slots_disjoint ss ->
  fill_slots ss (m, s) = Ok (m', s') ->
  buf_len (pre ++ concat (map bop_encode ops)) < 2 ^ 32 ->
  exists m1 s1,
    execute_binds segs (pre ++ concat (map bop_encode ops) ++ post)
      (mk_info (buf_len pre) (buf_len (concat (map bop_encode ops))) lo ls) m s = Ok (0, m1, s1) /\
    Forall (fun x => s_write x = true ->
      load64 m1 (s_target x) = Ok (slot_value x) /\
      (s_addend x = 0 ->
       slot_value x = (if resolve (s_ordinal x) (s_symbol x) =? 0 then unresolved_stub
                       else resolve (s_ordinal x) (s_symbol x)) /\ slot_value x <> 0)) ss.
Proof.
  intros Hsegs Hwf Hp Hd Hm Hlen. exists m', s'. split; [by eapply execute_binds_program|].
  eapply Forall_impl; [|exact (fill_slots_hold ss (m, s) (m', s') Hd Hm)].
  intros x Hx Hw. split; [by apply Hx|]. intros Ha. unfold slot_value, bind_address.
  rewrite Ha, Z.add_0_r. pose proof (resolve_u64 (s_ordinal x) (s_symbol x)) as Hr.
  pose proof stub_nonnull. unfold is_u64 in Hr.
  destruct (Z.eqb_spec (resolve (s_ordinal x) (s_symbol x)) 0); rewrite u64_small; lia.
Qed.

Lemma execute_binds_slots_witness :
  exists m1 s1, @execute_binds demo_linker demo_segs
    ([9] ++ concat (map bop_encode demo_program) ++ [7])
    (mk_info (buf_len [9]) (buf_len (concat (map bop_encode demo_program))) 0 0)
    demo_mem (mk_stubs 0 []) = Ok (0, m1, s1) /\ load64 m1 0x1008 = Ok 0x7000.
Proof.
  destruct (@execute_binds_slots demo_linker demo_segs demo_program [9] [7] demo_slots
    demo_mem demo_result.1 (mk_stubs 0 []) demo_result.2 0 0) as (m1 & s1 & Hrun & Hf).
  - unfold MAX_SEGMENTS. cbn. lia.
  - repeat constructor; unfold is_u64; lia.
  - vm_compute. reflexivity.
  - repeat constructor; cbn; lia.
  - vm_compute. reflexivity.
  - vm_compute. reflexivity.
  - exists m1, s1. split; [exact Hrun|]. inversion Hf as [|x l Hx _]; subst.
    apply (Hx eq_refl).
Defined.

(** Whatever bytes the bind section holds, the interpreter
    ends, and a run that returns, with 0 or with -1, maps and unmaps nothing
    and keeps every byte of memory a byte; [execute_lazy_binds] does the same
    on the lazy range and leaves the four opcode-range globals as they were. *)
Theorem execute_binds_safe `{Linker}
    (segs : list loaded_segment) (file : list Z) (g : dyld_info) (m : mem) (s : stub_state) :
  execute_binds segs file g m s <> NoFuel /\
  (forall code m' s', mem_wf m -> execute_binds segs file g m s = Ok (code, m', s') ->
     dom m' = dom m /\ mem_wf m') /\
  (forall code m' s' g', execute_lazy_binds segs file g m s = Ok (code, m', s', g') ->
     g' = g /\ (g_lazy_bind_size g <> 0 ->
       execute_binds segs file (mk_info (g_lazy_bind_off g) (g_lazy_bind_size g)
         (g_lazy_bind_off g) (g_lazy_bind_size g)) m s = Ok (code, m', s'))).
Proof.
  split; [|split].
  - unfold execute_binds. destruct (_ =? _); [done|]. destruct (_ >? _); [done|].
    unfold buf_slice. destruct (_ || _); [done|]. cbn. by apply bind_loop_fuel.
  - intros code m' s' Hwf. unfold execute_binds.
    destruct (_ =? _); [intros [= <- <- <-]; done|].
    destruct (_ >? _); [intros [= <- <- <-]; done|]. intros E. bind_inv E.
    apply (bind_loop_inv segs (fun m1 => dom m1 = dom m /\ mem_wf m1)) in E; [done| |done].
    intros m1 t v m2 [Hd Hw] Hs. split; [by rewrite (store64_dom _ _ _ _ Hs)|].
    by apply (store64_wf _ _ _ _ Hw Hs).
  - intros code m' s' g'. unfold execute_lazy_binds. destruct g as [a b c d]. cbn.
    destruct (Z.eqb_spec d 0); [intros [= <- <- <- <-]; done|].
    intros E. bind_inv E. destruct a0 as [[r m1] s1]. injection E as <- <- <- <-. done.
Qed.

Lemma execute_binds_safe_witness :
  @execute_lazy_binds demo_linker demo_segs (concat (map bop_encode demo_program))
    (mk_info 0 0 0 (buf_len (concat (map bop_encode demo_program)))) demo_mem (mk_stubs 0 [])
  <> NoFuel /\
  (forall code m' s' g', @execute_lazy_binds demo_linker demo_segs (concat (map bop_encode demo_program))
    (mk_info 0 0 0 (buf_len (concat (map bop_encode demo_program)))) demo_mem (mk_stubs 0 [])
    = Ok (code, m', s', g') -> g_bind_size g' = 0).
Proof.
  split; [vm_compute; discriminate|]. intros code m' s' g' E.
  destruct (@execute_binds_safe demo_linker demo_segs (concat (map bop_encode demo_program))
    (mk_info 0 0 0 (buf_len (concat (map bop_encode demo_program)))) demo_mem (mk_stubs 0 []))
    as (_ & _ & H). destruct (H _ _ _ _ E) as [-> _]. reflexivity.
Defined.

(** The plain DO_BIND opcode rejects an out-of-range segment
    index and skips a slot whose type is not a pointer; the
    ULEB_TIMES_SKIPPING opcode checks neither: with the same state it writes
    through the unchecked index, whatever the type, and an unresolved name is
    bound to the stub without being reported. *)
Theorem bind_times_skips_the_checks `{Linker}
    (segs : list loaded_segment) (st : bd_state) (m' : mem) :
  ordinal_ok st = true -> bd_seg_index st = nsegments segs ->
  (length segs < MAX_SEGMENTS)%nat ->
  store64 (bd_mem st) (u64 (bd_seg_offset st))
    (u64 (bind_address (bd_ordinal st - 1) (strip_underscore (bd_symbol st)) + bd_addend st)) = Ok m' ->
  (exists s, do_bind segs st = Ok (Return (-1) (bd_put st (bd_mem st) s))) /\
  bind_times segs 1 0 st = Ok (Continue (bd_advance (bd_put st m' (bd_stubs st)) 8)).
Proof.
  intros Ho Hi Hl Hs. split.
  - unfold do_bind. rewrite Ho. cbn.
    replace ((bd_seg_index st <? 0) || (bd_seg_index st >=? nsegments segs)) with true; [eauto|].
    symmetry. apply orb_true_iff. right. rewrite Hi. apply Z.geb_le. lia.
  - cbn. rewrite Ho. cbn. unfold segment_at, nsegments, MAX_SEGMENTS in *.
    destruct ((bd_seg_index st <? 0) || _) eqn:E.
    { apply orb_true_iff in E as [?|?]; bool_to_prop; lia. }
    rewrite lookup_ge_None_2 by lia. change (vmaddr zero_segment) with 0.
    cbn. by rewrite ?Z.add_0_l, Hs.
Qed.

Lemma bind_times_skips_the_checks_witness :
  let st := mk_bd 1 "_write" 2 0 0 0x1008 demo_mem (mk_stubs 0 []) in
  let m' := put_bytes demo_mem 0x1008 (le_bytes 8 0x7000) in
  @bind_times demo_linker [] 1 0 st = Ok (Continue (bd_advance (bd_put st m' (mk_stubs 0 [])) 8)) /\
  load64 m' 0x1008 = Ok 0x7000.
Proof.
  intros st m'. split; [|vm_compute; reflexivity].
  apply (@bind_times_skips_the_checks demo_linker [] st m').
  - reflexivity.
  - reflexivity.
  - unfold MAX_SEGMENTS. cbn. lia.
  - vm_compute. reflexivity.
Defined.
