(* ===== verification/ChainedFixups.v ===== *)
(** * Chained fixups (src/src/fixups.c [execute_chained_fixups],
      src/src/macho_dylib.c [process_dylib_chained_fixups])

    The main image and the dylibs walk their fixup chains with two copies of
    the same loops, which differ in how an entry is decoded ([main_entry],
    [dylib_entry]), in the load base and in the checks around them.  The walk
    is modelled once, over the function that treats one entry. *)
From Stdlib Require Import ZArith Lia Bool.
From stdpp Require Import base gmap list strings numbers.
From S2P Require Import Prelude LoaderState Leb128 Symbols Binds.

Definition DYLD_CHAINED_PTR_64 : Z := 2.
Definition DYLD_CHAINED_PTR_64_OFFSET : Z := 6.

(** Reads from the file image. *)
Definition rd16 (f : list Z) (i : Z) : res Z := read_le (buf_get f) 2 i.
Definition rd32 (f : list Z) (i : Z) : res Z := read_le (buf_get f) 4 i.
Definition rd64 (f : list Z) (i : Z) : res Z := read_le (buf_get f) 8 i.

(** The NUL-terminated string at an offset of the file image. *)
Definition rd_cstring (f : list Z) (i : Z) : res string :=
  if i <? 0 then Undef else
  match read_cstring (drop (Z.to_nat i) f) with
  | Some (s, _) => Ok (string_of_bytes s)
  | None => Undef
  end.

(** [dyld_chained_fixups_header], the fields read once the version is 0. *)
Record fixups_header := mk_fixups_header {
  starts_offset : Z; imports_offset : Z; symbols_offset : Z; imports_count : Z
}.

Definition read_fixups_header (f : list Z) (fx : Z) : res fixups_header :=
  so ← rd32 f (fx + 4);
  io ← rd32 f (fx + 8);
  sy ← rd32 f (fx + 12);
  ic ← rd32 f (fx + 16);
  Ok (mk_fixups_header so io sy ic).

(** [dyld_chained_starts_in_segment], the fields the code uses. *)
Record segment_starts := mk_starts {
  page_size : Z; ptr_format : Z; page_count : Z; page_starts : Z (* file offset *)
}.

Definition read_segment_starts (f : list Z) (p : Z) : res segment_starts :=
  _ ← rd32 f p;
  ps ← rd16 f (p + 4);
  pf ← rd16 f (p + 6);
  _ ← rd64 f (p + 8);
  _ ← rd32 f (p + 16);
  pc ← rd16 f (p + 20);
  Ok (mk_starts ps pf pc (p + 22)).

(** Memory, the unresolved-symbol report and the load base. *)
Record cf_state := mk_cf { cf_mem : mem; cf_stubs : stub_state; cf_load_base : Z }.

Definition cf_set_mem (s : cf_state) (m : mem) : cf_state :=
  mk_cf m (cf_stubs s) (cf_load_base s).

(** One DYLD_CHAINED_IMPORT: the library ordinal and the name. *)
Definition read_import (f : list Z) (imports_base ordinal : Z) : res (Z * Z) :=
  imp_raw ← rd32 f (imports_base + ordinal * 4);
  Ok (Z.land imp_raw 0xFF, Z.land (Z.shiftr imp_raw 9) 0x7FFFFF).

(** Ordinals 0 and 0xFB..0xFF mean a flat lookup. *)
Definition import_ordinal (lib : Z) : Z :=
  if (lib =? 0) || (lib >=? 0xFB) then -1 else lib - 1.

Definition entry_is_bind (value : Z) : bool := negb (Z.land (Z.shiftr value 63) 1 =? 0).
Definition entry_next (value : Z) : Z := Z.land (Z.shiftr value 51) 0xFFF.

Section walk.
  Context (fix_entry : Z -> Z -> cf_state -> res cf_state).

(** [while (chain_iter < 16384)]; [n] counts the iterations left. *)
Fixpoint walk_chain (n : nat) (chain_ptr page_end : Z) (s : cf_state) : res cf_state :=
  match n with
  | O => Ok s
  | S n =>
      value ← load64 (cf_mem s) chain_ptr;
      s ← fix_entry chain_ptr value s;
      if entry_next value =? 0 then Ok s else
      let chain_ptr := u64 (chain_ptr + entry_next value * 4) in
      if u64 (chain_ptr + 8) >? page_end then Ok s
      else walk_chain n chain_ptr page_end s
  end.

Definition CHAIN_LIMIT : nat := Z.to_nat 16384.

(** One page of a segment mapped at [base]; [prep] is what the main image
    does about the load base before the chain is walked. *)
Definition walk_page (prep : cf_state -> cf_state) (f : list Z) (base size : Z)
    (ss : segment_starts) (s : cf_state) (page_idx : Z) : res cf_state :=
  page_start ← rd16 f (page_starts ss + 2 * page_idx);
  if page_start =? 0xFFFF then Ok s else
  let page_base := u64 (base + page_idx * page_size ss) in
  let page_end := u64 (page_base + page_size ss) in
  let page_end := if page_end >? u64 (base + size) then u64 (base + size) else page_end in
  let s := prep s in
  let chain_ptr := u64 (page_base + page_start) in
  if u64 (chain_ptr + 8) >? page_end then Ok s
  else walk_chain CHAIN_LIMIT chain_ptr page_end s.

Definition walk_pages (prep : cf_state -> cf_state) (f : list Z) (base size : Z)
    (ss : segment_starts) (s : cf_state) : res cf_state :=
  fold_res (walk_page prep f base size ss) (seqZ 0 (page_count ss)) s.
End walk.

(** ** The main image *)
Section main_image.
  Context `{Linker} (file_data : list Z) (hdr : fixups_header) (imports_base symbols_base : Z).

Definition main_rebase_value (value load_base : Z) : Z :=
  let target := Z.land value 0xFFFFFFFFF in
  let high8 := Z.land (Z.shiftr value 36) 0xFF in
  u64 (Z.lor (u64 (Z.shiftl high8 43)) target + load_base).

Definition main_entry (chain_ptr value : Z) (s : cf_state) : res cf_state :=
  if entry_is_bind value then
    let ordinal := Z.land value 0xFFFFFF in
    let addend := Z.land (Z.shiftr value 24) 0xFF in
    if ordinal >=? imports_count hdr then Ok s else
    '(lib, name_offset) ← read_import file_data imports_base ordinal;
    name ← rd_cstring file_data (symbols_base + name_offset);
    let sym := strip_underscore name in
    m ← store64 (cf_mem s) chain_ptr (u64 (bind_address (import_ordinal lib) sym + addend));
    Ok (mk_cf m (note_unresolved (import_ordinal lib) sym (cf_stubs s)) (cf_load_base s))
  else
    m ← store64 (cf_mem s) chain_ptr (main_rebase_value value (cf_load_base s));
    Ok (cf_set_mem s m).
End main_image.

(** The slid address of the first segment that is not __PAGEZERO. *)
Fixpoint first_vmaddr (segs : list loaded_segment) : Z :=
  match segs with
  | [] => 0
  | seg :: segs => if is_pagezero seg then first_vmaddr segs else vmaddr seg
  end.

(** [static uint64_t load_base], computed when it is still 0. *)
Definition main_load_base (segs : list loaded_segment) (s : cf_state) : cf_state :=
  if cf_load_base s =? 0 then mk_cf (cf_mem s) (cf_stubs s) (first_vmaddr segs) else s.

(** The segment loop: [Return (-1)] on an unsupported pointer format. *)
Definition main_segment `{Linker} (segs : list loaded_segment) (f : list Z) (fx : Z)
    (hdr : fixups_header) (s : cf_state) (seg_idx : Z) : res (ctl cf_state) :=
  let starts_base := fx + starts_offset hdr in
  start ← rd32 f (starts_base + 4 + 4 * seg_idx);
  if start =? 0 then Ok (Continue s) else
  ss ← read_segment_starts f (starts_base + start);
  if negb (ptr_format ss =? DYLD_CHAINED_PTR_64) && negb (ptr_format ss =? DYLD_CHAINED_PTR_64_OFFSET)
  then Ok (Return (-1) s) else
  seg ← segment_at segs seg_idx;
  s ← walk_pages (main_entry f hdr (fx + imports_offset hdr) (fx + symbols_offset hdr))
        (main_load_base segs) f (vmaddr seg) (vmsize seg) ss s;
  Ok (Continue s).

Fixpoint main_segments `{Linker} (segs : list loaded_segment) (f : list Z) (fx : Z)
    (hdr : fixups_header) (idxs : list Z) (s : cf_state) : res (Z * cf_state) :=
  match idxs with
  | [] => Ok (0, s)
  | i :: idxs =>
      r ← main_segment segs f fx hdr s i;
      match r with
      | Return c s => Ok (c, s)
      | Continue s => main_segments segs f fx hdr idxs s
      end
  end.

Definition execute_chained_fixups `{Linker} (segs : list loaded_segment)
    (g_has_chained_fixups : bool) (g_chained_fixups_off g_chained_fixups_size : Z)
    (file_data : list Z) (s : cf_state) : res (Z * cf_state) :=
  if negb g_has_chained_fixups || (g_chained_fixups_size =? 0) then Ok (0, s) else
  if u32 (g_chained_fixups_off + g_chained_fixups_size) >? buf_len file_data then Ok (-1, s) else
  fixups_version ← rd32 file_data g_chained_fixups_off;
  if negb (fixups_version =? 0) then Ok (-1, s) else
  hdr ← read_fixups_header file_data g_chained_fixups_off;
  starts_count ← rd32 file_data (g_chained_fixups_off + starts_offset hdr);
  main_segments segs file_data g_chained_fixups_off hdr
    (seqZ 0 (Z.min starts_count (nsegments segs))) s.

(** ** Dylibs *)

(** [dylib_segment]: static addresses, not slid. *)
Record dylib_segment := mk_dseg { d_vmaddr : Z; d_vmsize : Z; d_fileoff : Z; d_filesize : Z }.

Section dylib_image.
  Context `{Linker} (file_data : list Z) (hdr : fixups_header) (fx : Z).

Definition dylib_rebase_value (value load_base : Z) : Z :=
  let target := Z.land value 0x7FFFFFFFFFF in
  let high8 := Z.land (Z.shiftr value 43) 0xFF in
  u64 (Z.lor (u64 (Z.shiftl high8 43)) target + load_base).

Definition dylib_import_name (name_off : Z) : res string :=
  if symbols_offset hdr =? 0 then Ok EmptyString
  else rd_cstring file_data (fx + symbols_offset hdr + name_off).

(** Every bind is a flat lookup; an unresolved one is not reported and gets
    the stub without the addend. *)
Definition dylib_entry (chain_ptr value : Z) (s : cf_state) : res cf_state :=
  if entry_is_bind value then
    let ordinal := Z.land value 0xFFFF in
    let addend := Z.land (Z.shiftr value 16) 0xFFFF in
    if ordinal <? imports_count hdr then
      '(_, name_off) ← read_import file_data (fx + imports_offset hdr) ordinal;
      name ← dylib_import_name name_off;
      let addr := resolve (-1) (strip_underscore name) in
      m ← store64 (cf_mem s) chain_ptr
            (if addr =? 0 then unresolved_stub else u64 (addr + addend));
      Ok (cf_set_mem s m)
    else Ok s
  else
    m ← store64 (cf_mem s) chain_ptr (dylib_rebase_value value (cf_load_base s));
    Ok (cf_set_mem s m).
End dylib_image.

Fixpoint first_dylib_base (segs : list dylib_segment) (slide : Z) : Z :=
  match segs with
  | [] => 0
  | d :: segs => if (d_vmaddr d =? 0) && (d_vmsize d >? 0x80000000) then first_dylib_base segs slide
                 else u64 (d_vmaddr d + slide)
  end.

Definition dylib_load_base (segs : list dylib_segment) (slide : Z) : Z :=
  let b := first_dylib_base segs slide in if b =? 0 then u64 slide else b.

Definition dylib_fixup_segment `{Linker} (segs : list dylib_segment) (slide : Z) (f : list Z) (fx : Z)
    (hdr : fixups_header) (s : cf_state) (si : Z) : res cf_state :=
  let starts_base := fx + starts_offset hdr in
  start ← rd32 f (starts_base + 4 + 4 * si);
  if start =? 0 then Ok s else
  ss ← read_segment_starts f (starts_base + start);
  d ← of_option (segs !! Z.to_nat si);
  walk_pages (dylib_entry f hdr fx) (fun s => s) f (u64 (d_vmaddr d + slide)) (d_vmsize d) ss s.

Definition process_dylib_chained_fixups `{Linker} (file_data : list Z) (slide : Z)
    (fixups_off fixups_size : Z) (segs : list dylib_segment) (m : mem) (st : stub_state)
    : res (mem * stub_state) :=
  if (fixups_off =? 0) || (fixups_size =? 0) then Ok (m, st) else
  if u32 (fixups_off + fixups_size) >? buf_len file_data then Ok (m, st) else
  fixups_version ← rd32 file_data fixups_off;
  if negb (fixups_version =? 0) then Ok (m, st) else
  hdr ← read_fixups_header file_data fixups_off;
  n ← rd32 file_data (fixups_off + starts_offset hdr);
  s ← fold_res (dylib_fixup_segment segs slide file_data fixups_off hdr)
        (seqZ 0 (Z.min n (Z.of_nat (length segs)))) (mk_cf m st (dylib_load_base segs slide));
  Ok (cf_mem s, cf_stubs s).

(** ** Abstract chains *)

(** An entry by its fields, and the 64-bit word that packs it with the
    distance to the next one (bits 51-62, in units of four bytes). *)
Inductive fixup :=
| FRebase (target high8 : Z)
| FBind (ordinal addend : Z).

Definition fixup_wf (f : fixup) : Prop :=
  match f with
  | FRebase t h => 0 <= t < 2 ^ 36 /\ 0 <= h < 2 ^ 8
  | FBind o a => 0 <= o < 2 ^ 24 /\ 0 <= a < 2 ^ 8
  end.

Definition pack (f : fixup) (next : Z) : Z :=
  match f with
  | FRebase t h => t + h * 2 ^ 36 + next * 2 ^ 51
  | FBind o a => o + a * 2 ^ 24 + next * 2 ^ 51 + 2 ^ 63
  end.

(** A chain in a page: its entries by address, in increasing order. *)
Definition chain := list (Z * fixup).

Definition gap (a : Z) (l : chain) : Z := match l with [] => 0 | (b, _) :: _ => (b - a) / 4 end.

(** Entries do not overlap, are four-byte aligned to each other, near enough
    for twelve bits, and inside the page. *)
Fixpoint chain_wf (page_end : Z) (l : chain) : Prop :=
  match l with
  | [] => True
  | (a, f) :: l' =>
      fixup_wf f /\ 0 <= a /\ a + 8 <= page_end /\
      match l' with
      | [] => True
      | (b, _) :: _ => 8 <= b - a /\ (b - a) mod 4 = 0 /\ (b - a) / 4 < 2 ^ 12
      end /\ chain_wf page_end l'
  end.

Fixpoint chain_in (m : mem) (l : chain) : Prop :=
  match l with
  | [] => True
  | (a, f) :: l' => load64 m a = Ok (pack f (gap a l')) /\ chain_in m l'
  end.

(** What an entry of the main image must become. *)
Definition fixup_value `{Linker} (f : list Z) (hdr : fixups_header)
    (imports_base symbols_base load_base : Z) (x : fixup) : res Z :=
  match x with
  | FRebase t h => Ok (u64 (h * 2 ^ 43 + t + load_base))
  | FBind o a =>
      '(lib, name_offset) ← read_import f imports_base o;
      name ← rd_cstring f (symbols_base + name_offset);
      Ok (u64 (bind_address (import_ordinal lib) (strip_underscore name) + a))
  end.

(** ** Lemmas: the entry decoder *)

(** A field of a packed word: [lo] below, [x] of [w] bits, [hi] above. *)
Lemma field_of lo p x w hi :
  0 <= p -> 0 <= w -> 0 <= lo < 2 ^ p -> 0 <= x < 2 ^ w -> 0 <= hi ->
  Z.land (Z.shiftr (lo + x * 2 ^ p + hi * 2 ^ (p + w)) p) (Z.ones w) = x.
Proof.
  intros Hp Hw Hlo Hx Hhi. rewrite Z.land_ones, Z.shiftr_div_pow2 by lia.
  assert (0 < 2 ^ p) by (apply Z.pow_pos_nonneg; lia).
  rewrite Z.pow_add_r by lia.
  replace ((lo + x * 2 ^ p + hi * (2 ^ p * 2 ^ w)) / 2 ^ p) with (x + hi * 2 ^ w).
  - symmetry. apply (Z.mod_unique _ _ hi); lia.
  - apply (Z.div_unique _ _ _ lo); [lia|]. ring.
Qed.

Lemma pack_next f next :
  fixup_wf f -> 0 <= next < 2 ^ 12 -> entry_next (pack f next) = next.
Proof.
  intros Hf Hn. unfold entry_next. change 0xFFF with (Z.ones 12).
  destruct f as [t h|o a]; cbn [pack fixup_wf] in *.
  - replace (t + h * 2 ^ 36 + next * 2 ^ 51)
      with ((t + h * 2 ^ 36) + next * 2 ^ 51 + 0 * 2 ^ (51 + 12)) by ring.
    apply field_of; lia.
  - replace (o + a * 2 ^ 24 + next * 2 ^ 51 + 2 ^ 63)
      with ((o + a * 2 ^ 24) + next * 2 ^ 51 + 1 * 2 ^ (51 + 12)) by (change (51 + 12) with 63; ring).
    apply field_of; lia.
Qed.

Lemma pack_is_bind f next :
  fixup_wf f -> 0 <= next < 2 ^ 12 ->
  entry_is_bind (pack f next) = match f with FRebase _ _ => false | FBind _ _ => true end.
Proof.
  intros Hf Hn. unfold entry_is_bind. change 1 with (Z.ones 1) at 1.
  destruct f as [t h|o a]; cbn [pack fixup_wf] in *.
  - replace (t + h * 2 ^ 36 + next * 2 ^ 51)
      with ((t + h * 2 ^ 36 + next * 2 ^ 51) + 0 * 2 ^ 63 + 0 * 2 ^ (63 + 1)) by ring.
    rewrite field_of; [done|lia..].
  - replace (o + a * 2 ^ 24 + next * 2 ^ 51 + 2 ^ 63)
      with ((o + a * 2 ^ 24 + next * 2 ^ 51) + 1 * 2 ^ 63 + 0 * 2 ^ (63 + 1)) by ring.
    rewrite field_of; [done|lia..].
Qed.

Lemma lor_high h t p :
  0 <= p -> 0 <= t < 2 ^ p -> Z.lor (h * 2 ^ p) t = h * 2 ^ p + t.
Proof.
  intros Hp Ht. rewrite Z.lor_comm, Leb128.lor_add_high by lia. lia.
Qed.

Lemma main_rebase_pack t h next lb :
  fixup_wf (FRebase t h) -> 0 <= next < 2 ^ 12 ->
  main_rebase_value (pack (FRebase t h) next) lb = u64 (h * 2 ^ 43 + t + lb).
Proof.
  intros [Ht Hh] Hn. unfold main_rebase_value. cbn [pack].
  change 0xFFFFFFFFF with (Z.ones 36). change 0xFF with (Z.ones 8).
  replace (Z.land (t + h * 2 ^ 36 + next * 2 ^ 51) (Z.ones 36)) with t.
  2:{ symmetry. pose proof (field_of 0 0 t 36 (h + next * 2 ^ 15)) as F.
      rewrite Z.shiftr_0_r in F. rewrite <- F at 2 by lia. f_equal.
      change (0 + 36) with 36. ring. }
  replace (t + h * 2 ^ 36 + next * 2 ^ 51) with (t + h * 2 ^ 36 + next * 2 ^ 7 * 2 ^ (36 + 8))
    by (change (36 + 8) with 44; ring).
  rewrite field_of by lia. rewrite Z.shiftl_mul_pow2, (u64_small (h * 2 ^ 43)) by lia.
  by rewrite lor_high by lia.
Qed.

Lemma bind_fields o a next :
  fixup_wf (FBind o a) -> 0 <= next < 2 ^ 12 ->
  Z.land (pack (FBind o a) next) 0xFFFFFF = o /\
  Z.land (Z.shiftr (pack (FBind o a) next) 24) 0xFF = a.
Proof.
  intros [Ho Ha] Hn. cbn [pack].
  change 0xFFFFFF with (Z.ones 24). change 0xFF with (Z.ones 8). split.
  - pose proof (field_of 0 0 o 24 (a + next * 2 ^ 27 + 2 ^ 39)) as F.
    rewrite Z.shiftr_0_r in F. rewrite <- F at 2 by lia. f_equal.
    change (0 + 24) with 24. ring.
  - replace (o + a * 2 ^ 24 + next * 2 ^ 51 + 2 ^ 63)
      with (o + a * 2 ^ 24 + (next * 2 ^ 19 + 2 ^ 31) * 2 ^ (24 + 8))
      by (change (24 + 8) with 32; ring).
    apply field_of; lia.
Qed.

Section chains.
  Context `{Linker} (f : list Z) (hdr : fixups_header) (ib sb : Z).

Abbreviation entry := (main_entry f hdr ib sb).
Abbreviation value lb := (fixup_value f hdr ib sb lb).

(** The import an entry names exists and can be read. *)
Definition fixup_known (lb : Z) (x : fixup) : Prop :=
  (exists v, value lb x = Ok v) /\
  match x with FRebase _ _ => True | FBind o _ => o < imports_count hdr end.

Lemma main_entry_spec x next ptr s v m' :
  fixup_wf x -> 0 <= next < 2 ^ 12 -> fixup_known (cf_load_base s) x ->
  value (cf_load_base s) x = Ok v -> store64 (cf_mem s) ptr v = Ok m' ->
  exists st, entry ptr (pack x next) s = Ok (mk_cf m' st (cf_load_base s)).
Proof.
  intros Hwf Hn [_ Hk] Hv Hs. unfold main_entry. rewrite pack_is_bind by done.
  destruct x as [t h|o a].
  - rewrite main_rebase_pack by done. injection Hv as <-. rewrite Hs. eauto.
  - destruct (bind_fields o a next Hwf Hn) as [-> ->].
    destruct (Z.geb_spec o (imports_count hdr)); [lia|]. cbn in Hv.
    destruct (read_import f ib o) as [[lib no]| |]; [cbn in *|done|done].
    destruct (rd_cstring f (sb + no)) as [name| |]; [cbn in *|done|done].
    injection Hv as <-. rewrite Hs. eauto.
Qed.

Lemma fixup_value_u64 lb x v : value lb x = Ok v -> u64 v = v.
Proof.
  destruct x as [t h|o a]; cbn.
  - intros [= <-]. apply u64_idemp.
  - intros E. bind_inv E. destruct a0 as [lib no]. bind_inv E. injection E as <-. apply u64_idemp.
Qed.

Lemma chain_wf_above pe a x l :
  chain_wf pe ((a, x) :: l) -> Forall (fun e => a + 8 <= e.1) l.
Proof.
  revert a x. induction l as [|[b y] l IH]; intros a x; [constructor|].
  cbn [chain_wf]. intros (_ & _ & _ & (Hg & _) & Hl). constructor; [cbn; lia|].
  eapply Forall_impl; [|exact (IH b y Hl)]. cbn. intros e He. lia.
Qed.

Lemma chain_in_store pe a x l m v m' :
  chain_wf pe ((a, x) :: l) -> store64 m a v = Ok m' -> chain_in m l -> chain_in m' l.
Proof.
  intros Hwf Hs. apply chain_wf_above in Hwf.
  induction Hwf as [|[b y] l Hb Hl IH]; [done|]. cbn in *. intros [H0 Hin].
  split; [|by apply IH]. rewrite <- H0. apply (load64_store64_other _ _ _ _ _ Hs). lia.
Qed.

Lemma gap_range pe a x b y l :
  chain_wf pe ((a, x) :: (b, y) :: l) ->
  0 < gap a ((b, y) :: l) < 2 ^ 12 /\ a + gap a ((b, y) :: l) * 4 = b.
Proof.
  cbn. intros (_ & _ & _ & (H8 & Hm & Hd) & _).
  pose proof (Z.div_mod (b - a) 4 ltac:(lia)). lia.
Qed.

Lemma load64_store64_ok m a w v : load64 m a = Ok w -> exists m', store64 m a v = Ok m'.
Proof.
  unfold load64, read_le. destruct (get_bytes (mem_get m) a 8) eqn:E; [|done]. intros _.
  apply store64_defined. apply mapped_spec. intros y Hy.
  assert (forall n z bs, get_bytes (mem_get m) z n = Some bs ->
    forall y, z <= y < z + Z.of_nat n -> is_Some (m !! y)) as G.
  { clear. induction n as [|n IH]; intros z bs E y Hy; [lia|]. cbn in E. unfold mem_get at 1 in E.
    destruct (m !! z) eqn:Ez; [|done]. destruct (get_bytes _ _ n) eqn:En; [|done].
    destruct (decide (y = z)) as [->|]; [eauto|]. eapply (IH _ _ En). lia. }
  eapply (G 8%nat a _ E). lia.
Qed.

(** The whole chain is treated, in order, and nothing else is touched. *)
Lemma walk_chain_spec pe l : forall a x n s,
  pe < 2 ^ 64 - 2 ^ 16 -> chain_wf pe ((a, x) :: l) -> chain_in (cf_mem s) ((a, x) :: l) ->
  Forall (fun e => fixup_known (cf_load_base s) e.2) ((a, x) :: l) -> (length l < n)%nat ->
  exists s', walk_chain entry n a pe s = Ok s' /\ cf_load_base s' = cf_load_base s /\
    Forall (fun e => exists v, value (cf_load_base s) e.2 = Ok v /\
                               load64 (cf_mem s') e.1 = Ok v) ((a, x) :: l) /\
    (forall y, Forall (fun e => y + 8 <= e.1 \/ e.1 + 8 <= y) ((a, x) :: l) ->
       load64 (cf_mem s') y = load64 (cf_mem s) y).
Proof.
  induction l as [|[b y] l IH]; intros a x n s Hpe Hwf Hin Hk Hn;
    (destruct n as [|n]; [lia|]); destruct Hin as [Hload Hin]; inversion Hk as [|? ? Hkx Hkl]; subst;
    destruct (proj1 Hkx) as [v Hv]; destruct (load64_store64_ok _ _ _ v Hload) as [m1 Hs];
    pose proof (fixup_value_u64 _ _ _ Hv) as Hu; pose proof Hwf as (Hfx & Ha0 & Hape & Hrest).
  - destruct (main_entry_spec x 0 a s v m1 Hfx ltac:(lia) Hkx Hv Hs) as [st He].
    exists (mk_cf m1 st (cf_load_base s)). cbn [walk_chain].
    rewrite Hload. cbn -[entry_next]. cbn [gap] in He. rewrite He. cbn -[entry_next].
    rewrite pack_next by (done || lia). repeat split.
    + repeat constructor. exists v. split; [done|]. cbn. by rewrite (load64_store64_same _ _ _ _ Hs), Hu.
    + intros z Hz. inversion Hz; subst. cbn in *. apply (load64_store64_other _ _ _ _ _ Hs). lia.
  - destruct (gap_range _ _ _ _ _ _ Hwf) as [Hg Hb]. destruct Hrest as [_ Hwl].
    destruct (main_entry_spec x (gap a ((b, y) :: l)) a s v m1 Hfx ltac:(lia) Hkx Hv Hs) as [st He].
    destruct (IH b y n (mk_cf m1 st (cf_load_base s)) Hpe Hwl) as (s' & Hw & Hlb & Hall & Hfr).
    { exact (chain_in_store _ _ _ _ _ _ _ Hwf Hs Hin). }
    { done. }
    { cbn in Hn. lia. }
    exists s'. cbn [walk_chain]. rewrite Hload. cbn -[entry_next gap]. rewrite He.
    cbn -[entry_next gap]. rewrite pack_next by (done || lia).
    replace (gap a ((b, y) :: l) =? 0) with false by lia. cbv zeta.
    pose proof Hwl as (_ & Hb0 & Hbpe & _).
    rewrite Hb, (u64_small b) by lia. rewrite (u64_small (b + 8)) by lia.
    replace (b + 8 >? pe) with false by lia. split; [exact Hw|]. split; [exact Hlb|].
    pose proof (chain_wf_above _ _ _ _ Hwf) as Habove. split.
    + constructor; [|exact Hall]. exists v. split; [done|]. cbn [fst].
      rewrite Hfr; cbn [cf_mem]; [by rewrite (load64_store64_same _ _ _ _ Hs), Hu|].
      eapply Forall_impl; [|exact Habove]. cbn. intros e Hle. lia.
    + intros z Hz. inversion Hz as [|? ? Hz1 Hz2]; subst. rewrite Hfr by exact Hz2. cbn in *.
      apply (load64_store64_other _ _ _ _ _ Hs). lia.
Qed.
End chains.

(** ** Lemmas: confinement *)

(** An entry writes at most its own eight bytes. *)
Definition entry_local (fix_entry : Z -> Z -> cf_state -> res cf_state) : Prop :=
  forall ptr value s s', fix_entry ptr value s = Ok s' ->
    cf_mem s' = cf_mem s \/ exists v, store64 (cf_mem s) ptr v = Ok (cf_mem s').

Lemma main_entry_local `{Linker} f hdr ib sb : entry_local (main_entry f hdr ib sb).
Proof.
  intros ptr value s s'. unfold main_entry. destruct (entry_is_bind value).
  - destruct (_ >=? _); [intros [= <-]; by left|]. intros E. bind_inv E. destruct a as [lib no].
    bind_inv E. bind_inv E. injection E as <-. right. eauto.
  - intros E. bind_inv E. injection E as <-. right. eauto.
Qed.

Lemma dylib_entry_local `{Linker} f hdr fx : entry_local (dylib_entry f hdr fx).
Proof.
  intros ptr value s s'. unfold dylib_entry. destruct (entry_is_bind value).
  - destruct (_ <? _); [|intros [= <-]; by left]. intros E. bind_inv E. destruct a as [lib no].
    bind_inv E. bind_inv E. injection E as <-. right. eauto.
  - intros E. bind_inv E. injection E as <-. right. eauto.
Qed.

Lemma entry_next_range value : 0 <= entry_next value < 2 ^ 12.
Proof.
  unfold entry_next. change 0xFFF with (Z.ones 12). rewrite Z.land_ones by lia.
  apply Z.mod_pos_bound. lia.
Qed.

Section confinement.
  Context (fix_entry : Z -> Z -> cf_state -> res cf_state) (Hlocal : entry_local fix_entry).
  Context (lo hi : Z) (Hlo : 0 <= lo) (Hhi : hi <= 2 ^ 63).

Lemma walk_chain_confined n ptr pe s s' :
  lo <= ptr -> ptr + 8 <= pe -> pe <= hi ->
  walk_chain fix_entry n ptr pe s = Ok s' -> agree_outside lo hi (cf_mem s) (cf_mem s').
Proof.
  revert ptr s. induction n as [|n IH]; intros ptr s H1 H2 H3; cbn.
  { intros [= <-]. auto with memory. }
  intros E. bind_inv E. bind_inv E.
  assert (agree_outside lo hi (cf_mem s) (cf_mem a0)) as Ha.
  { destruct (Hlocal _ _ _ _ E1) as [->|[v Hv]]; [auto with memory|].
    apply (store64_agree _ _ _ _ _ _ Hv); lia. }
  destruct (entry_next a =? 0); [by injection E as <-|].
  pose proof (entry_next_range a) as Hn.
  rewrite (u64_small (ptr + entry_next a * 4)) in E by lia.
  rewrite (u64_small (ptr + entry_next a * 4 + 8)) in E by lia.
  destruct (_ >? _) eqn:Ec; [by injection E as <-|]. bool_to_prop.
  eapply agree_outside_trans; [exact Ha|]. eapply IH; [..|exact E]; lia.
Qed.

Lemma walk_page_confined prep f ss s pi s' :
  (forall s, cf_mem (prep s) = cf_mem s) -> Forall is_byte f ->
  0 <= page_size ss < 2 ^ 16 -> 0 <= pi < 2 ^ 16 -> lo <= hi ->
  walk_page fix_entry prep f lo (hi - lo) ss s pi = Ok s' ->
  agree_outside lo hi (cf_mem s) (cf_mem s').
Proof.
  intros Hprep Hf Hps Hpi Hle. unfold walk_page. intros E. bind_inv E.
  apply (read_le_buf_range 2) in E0; [|done]. cbn in E0.
  destruct (a =? 0xFFFF); [injection E as <-; auto with memory|].
  assert (0 <= pi * page_size ss < 2 ^ 32) by nia.
  rewrite (u64_small (lo + pi * page_size ss)) in E by lia.
  rewrite (u64_small (lo + pi * page_size ss + page_size ss)) in E by lia.
  rewrite (u64_small (lo + pi * page_size ss + a)) in E by lia.
  rewrite (u64_small (lo + pi * page_size ss + a + 8)) in E by lia.
  rewrite (u64_small (lo + (hi - lo))) in E by lia.
  rewrite <- (Hprep s).
  destruct (lo + pi * page_size ss + page_size ss >? lo + (hi - lo)) eqn:E1; cbv iota zeta in E;
    match type of E with (if ?c then _ else _) = _ => destruct c eqn:E2 end; bool_to_prop;
    try (injection E as <-; auto with memory);
    (eapply walk_chain_confined; [..|exact E]); lia.
Qed.

Lemma walk_pages_confined prep f ss s s' :
  (forall s, cf_mem (prep s) = cf_mem s) -> Forall is_byte f ->
  0 <= page_size ss < 2 ^ 16 -> 0 <= page_count ss < 2 ^ 16 -> lo <= hi ->
  walk_pages fix_entry prep f lo (hi - lo) ss s = Ok s' ->
  agree_outside lo hi (cf_mem s) (cf_mem s').
Proof.
  intros Hprep Hf Hps Hpc Hle. unfold walk_pages.
  assert (Forall (fun i => 0 <= i < 2 ^ 16) (seqZ 0 (page_count ss))) as Hr.
  { apply Forall_forall. intros i Hi%list_elem_of_In%elem_of_seqZ. lia. }
  revert s. induction Hr as [|i idx Hi _ IH]; intros s; cbn.
  - intros [= <-]. auto with memory.
  - intros E. bind_inv E. eapply agree_outside_trans; [|exact (IH _ E)].
    eapply walk_page_confined; eauto.
Qed.
End confinement.

Lemma read_segment_starts_range f p ss :
  Forall is_byte f -> read_segment_starts f p = Ok ss ->
  0 <= page_size ss < 2 ^ 16 /\ 0 <= page_count ss < 2 ^ 16.
Proof.
  intros Hf. unfold read_segment_starts. intros E. repeat bind_inv E. injection E as <-. cbn.
  split; eapply (read_le_buf_range 2); eauto.
Qed.

(** Segments that lie in the low half of the address space. *)
Definition seg_ok (seg : loaded_segment) : Prop :=
  0 <= vmaddr seg /\ 0 <= vmsize seg /\ vmaddr seg + vmsize seg <= 2 ^ 63.

Definition in_segments (segs : list loaded_segment) (x : Z) : Prop :=
  exists seg, seg ∈ segs /\ vmaddr seg <= x < vmaddr seg + vmsize seg.

(** The same addresses are mapped and only bytes of the segments differ. *)
Definition only_segments (segs : list loaded_segment) (m m' : mem) : Prop :=
  dom m' = dom m /\ forall x, ~ in_segments segs x -> m' !! x = m !! x.

Lemma main_segment_confined `{Linker} segs f fx hdr s i r :
  Forall is_byte f -> Forall seg_ok segs -> (length segs <= MAX_SEGMENTS)%nat ->
  0 <= i < nsegments segs -> main_segment segs f fx hdr s i = Ok r ->
  match r with Continue s' | Return _ s' => only_segments segs (cf_mem s) (cf_mem s') end.
Proof.
  intros Hf Hok Hl Hi. unfold main_segment. intros E. bind_inv E.
  destruct (a =? 0); [by injection E as <-|]. bind_inv E.
  destruct (_ && _); [by injection E as <-|].
  destruct (segment_at_valid segs i Hi Hl) as (seg & Hseg & Hat). rewrite Hat in E. cbn in E.
  bind_inv E. injection E as <-.
  destruct (read_segment_starts_range _ _ _ Hf E1) as [Hps Hpc].
  pose proof (Forall_lookup_1 _ _ _ _ Hok Hseg) as (H1 & H2 & H3).
  replace (vmsize seg) with (vmaddr seg + vmsize seg - vmaddr seg) in E2 by lia.
  apply walk_pages_confined in E2 as [Hd Hx];
    [|apply main_entry_local|lia|lia| |done|done|done|lia].
  2:{ intros s0. unfold main_load_base. by destruct (_ =? 0). }
  split; [done|]. intros x Hn. apply Hx.
  destruct (decide (vmaddr seg <= x < vmaddr seg + vmsize seg)); [|lia].
  destruct Hn. exists seg. split; [by eapply list_elem_of_lookup_2|done].
Qed.

Lemma main_segments_confined `{Linker} segs f fx hdr idxs s c s' :
  Forall is_byte f -> Forall seg_ok segs -> (length segs <= MAX_SEGMENTS)%nat ->
  Forall (fun i => 0 <= i < nsegments segs) idxs ->
  main_segments segs f fx hdr idxs s = Ok (c, s') -> only_segments segs (cf_mem s) (cf_mem s').
Proof.
  intros Hf Hok Hl Hr. revert s. induction Hr as [|i idx Hi _ IH]; intros s; cbn.
  - by intros [= <- <-].
  - intros E. bind_inv E. apply main_segment_confined in E0; [|done..].
    destruct a as [s1|c1 s1]; [|by injection E as <- <-].
    destruct E0 as [Hd1 H1], (IH _ E) as [Hd2 H2].
    split; [congruence|]. intros x Hx. by rewrite H2, H1.
Qed.

(** ** Lemmas: the two decoders *)

Lemma dylib_rebase_pack t next lb :
  0 <= t < 2 ^ 36 -> 0 <= next < 2 ^ 12 ->
  dylib_rebase_value (pack (FRebase t 0) next) lb = u64 (t + lb).
Proof.
  intros Ht Hn. unfold dylib_rebase_value. cbn [pack].
  change 0x7FFFFFFFFFF with (Z.ones 43). change 0xFF with (Z.ones 8).
  replace (Z.land (t + 0 * 2 ^ 36 + next * 2 ^ 51) (Z.ones 43)) with t.
  2:{ symmetry. pose proof (field_of 0 0 t 43 (next * 2 ^ 8)) as F.
      rewrite Z.shiftr_0_r in F. rewrite <- F at 2 by lia. f_equal.
      change (0 + 43) with 43. ring. }
  replace (t + 0 * 2 ^ 36 + next * 2 ^ 51) with (t + 0 * 2 ^ 43 + next * 2 ^ (43 + 8))
    by (change (43 + 8) with 51; ring).
  rewrite field_of by lia. done.
Qed.

Lemma dylib_bind_fields o a next :
  0 <= o < 2 ^ 16 -> 0 <= a < 2 ^ 8 -> 0 <= next < 2 ^ 12 ->
  Z.land (pack (FBind o a) next) 0xFFFF = o /\
  Z.land (Z.shiftr (pack (FBind o a) next) 16) 0xFFFF = 256 * a.
Proof.
  intros Ho Ha Hn. cbn [pack]. change 0xFFFF with (Z.ones 16). split.
  - pose proof (field_of 0 0 o 16 (a * 2 ^ 8 + next * 2 ^ 35 + 2 ^ 47)) as F.
    rewrite Z.shiftr_0_r in F. rewrite <- F at 2 by lia. f_equal.
    change (0 + 16) with 16. ring.
  - replace (o + a * 2 ^ 24 + next * 2 ^ 51 + 2 ^ 63)
      with (o + (256 * a) * 2 ^ 16 + (next * 2 ^ 19 + 2 ^ 31) * 2 ^ (16 + 16))
      by (change (16 + 16) with 32; ring).
    apply field_of; lia.
Qed.

(** ** Lemmas: the walk always ends *)

(** Case analysis on every read and store of a run that cannot lack fuel. *)
Ltac no_fuel :=
  repeat match goal with
  | |- Ok _ <> NoFuel => done
  | |- Undef <> NoFuel => done
  | |- (if ?b then _ else _) <> NoFuel => destruct b
  | |- (let '(_, _) := ?p in _) <> NoFuel => destruct p
  | |- mbind _ ?r <> NoFuel =>
      let E := fresh in
      assert (r <> NoFuel) as E;
      [first [apply read_le_no_fuel | apply store_no_fuel | idtac]|destruct r; cbn; [|done..]]
  end.

Lemma rd_cstring_no_fuel f i : rd_cstring f i <> NoFuel.
Proof. unfold rd_cstring. destruct (_ <? _); [done|]. by destruct (read_cstring _) as [[? ?]|]. Qed.

Lemma main_entry_no_fuel `{Linker} f hdr ib sb ptr value s : main_entry f hdr ib sb ptr value s <> NoFuel.
Proof.
  unfold main_entry, read_import, rd32. no_fuel; try apply rd_cstring_no_fuel.
Qed.

Lemma walk_chain_no_fuel fix_entry n ptr pe s :
  (forall p v s, fix_entry p v s <> NoFuel) -> walk_chain fix_entry n ptr pe s <> NoFuel.
Proof.
  intros Hf. revert ptr s. induction n as [|n IH]; intros ptr s; cbn; [done|].
  no_fuel; [apply Hf|apply IH].
Qed.

Lemma walk_pages_no_fuel fix_entry prep f base size ss s :
  (forall p v s, fix_entry p v s <> NoFuel) -> walk_pages fix_entry prep f base size ss s <> NoFuel.
Proof.
  intros Hf. apply fold_res_no_fuel. intros s0 pi. unfold walk_page. no_fuel;
  by apply walk_chain_no_fuel.
Qed.

Lemma main_segments_no_fuel `{Linker} segs f fx hdr idxs s :
  main_segments segs f fx hdr idxs s <> NoFuel.
Proof.
  revert s. induction idxs as [|i idxs IH]; intros s; cbn; [done|].
  assert (main_segment segs f fx hdr s i <> NoFuel) as Hs.
  { unfold main_segment, read_segment_starts, segment_at. no_fuel.
    apply walk_pages_no_fuel. intros. apply main_entry_no_fuel. }
  destruct (main_segment segs f fx hdr s i) as [[s1|c s1]| |]; cbn; auto.
Qed.

(** ** Properties *)

(** The value the format gives a rebase of an offset: high8 is the top eight
    bits. *)
Definition dyld_rebase_value (t h lb : Z) : Z := u64 (h * 2 ^ 56 + t + lb).

(** The code agrees with the format exactly when high8 is 0. *)
Theorem high8_misplaced (t h next lb : Z) :
  fixup_wf (FRebase t h) -> 0 <= next < 2 ^ 12 -> 0 <= lb -> t + lb < 2 ^ 43 ->
  (main_rebase_value (pack (FRebase t h) next) lb = dyld_rebase_value t h lb <-> h = 0).
Proof.
  intros Hwf Hn Hlb Hsmall. rewrite main_rebase_pack by done. destruct Hwf as [Ht Hh]. unfold dyld_rebase_value.
  split; [|by intros ->]. intros E. rewrite !u64_small in E by lia. lia.
Qed.

Lemma high8_misplaced_witness : main_rebase_value (pack (FRebase 0x4000 1) 0) 0x1000 <> dyld_rebase_value 0x4000 1 0x1000.
Proof. intros E. apply (high8_misplaced 0x4000 1 0 0x1000) in E; [done|cbn; lia..]. Defined.


(** A file image with one import, ["_write"], and a page with a rebase
    followed by a bind of it. *)
Definition demo_file : list Z := [1; 0; 0; 0; 95; 119; 114; 105; 116; 101; 0].
Definition demo_chain : chain := [(0x1000, FRebase 0x40 0); (0x1008, FBind 0 3)].
Definition demo_page : mem :=
  put_bytes ∅ 0x1000 (le_bytes 8 (pack (FRebase 0x40 0) 2) ++ le_bytes 8 (pack (FBind 0 3) 0)).


(** C4 (safety): whatever the file holds, [execute_chained_fixups] ends,
    and when it returns, with 0 or with -1, it has mapped and unmapped
    nothing and written only inside the loaded segments (which must lie in
    the low half of the address space). *)
Theorem execute_chained_fixups_confined `{Linker}
    (segs : list loaded_segment) (has : bool) (off size : Z) (file : list Z) (s : cf_state) :
  Forall is_byte file -> Forall seg_ok segs -> (length segs <= MAX_SEGMENTS)%nat ->
  execute_chained_fixups segs has off size file s <> NoFuel /\
  (forall c s', execute_chained_fixups segs has off size file s = Ok (c, s') ->
     only_segments segs (cf_mem s) (cf_mem s')).
Proof.
  intros Hf Hok Hl. split.
  - unfold execute_chained_fixups, read_fixups_header. no_fuel. apply main_segments_no_fuel.
  - intros c s'. unfold execute_chained_fixups. destruct (_ || _); [by intros [= <- <-]|].
    destruct (_ >? _); [by intros [= <- <-]|]. intros E. bind_inv E.
    destruct (negb _); [by injection E as <- <-|]. bind_inv E. bind_inv E.
    eapply main_segments_confined; [..|exact E]; try done.
    apply Forall_forall. intros i Hi%list_elem_of_In%elem_of_seqZ. lia.
Qed.

(** A fixups header with one segment, whose one page has a chain at its start,
    the import table and the names. *)
Definition demo_fixups : list Z :=
  le_bytes 4 0 ++ le_bytes 4 28 ++ le_bytes 4 60 ++ le_bytes 4 64 ++ le_bytes 4 1 ++ le_bytes 8 0 ++
  le_bytes 4 1 ++ le_bytes 4 8 ++
  le_bytes 4 24 ++ le_bytes 2 0x1000 ++ le_bytes 2 6 ++ le_bytes 8 0 ++ le_bytes 4 0 ++
  le_bytes 2 1 ++ le_bytes 2 0 ++ demo_file.

Lemma execute_chained_fixups_confined_witness :
  exists s', @execute_chained_fixups demo_linker demo_segs true 0 71 demo_fixups
    (mk_cf demo_page (mk_stubs 0 []) 0) = Ok (0, s') /\
  load64 (cf_mem s') 0x1000 = Ok 0x1040 /\ load64 (cf_mem s') 0x1008 = Ok 0x7003 /\
  only_segments demo_segs demo_page (cf_mem s').
Proof.
  assert (exists s', @execute_chained_fixups demo_linker demo_segs true 0 71 demo_fixups
    (mk_cf demo_page (mk_stubs 0 []) 0) = Ok (0, s') /\
    load64 (cf_mem s') 0x1000 = Ok 0x1040 /\ load64 (cf_mem s') 0x1008 = Ok 0x7003)
    as (s' & E & H1 & H2).
  { eexists. repeat split; vm_compute; reflexivity. }
  exists s'. split; [exact E|]. split; [exact H1|]. split; [exact H2|].
  eapply (@execute_chained_fixups_confined demo_linker demo_segs true 0 71 demo_fixups
      (mk_cf demo_page (mk_stubs 0 []) 0)); [..|exact E].
  - apply (bool_decide_unpack _). vm_compute. exact I.
  - repeat constructor; cbn; lia.
  - unfold MAX_SEGMENTS. cbn. lia.
Defined.

(** The dylib loader's copy of the decoder agrees with
    the main image's on rebases without high bits, but reads the bind addend
    from the wrong bits: for an import index below 2^16 the main image adds
    the eight-bit addend, the dylib copy adds 256 times it, so they agree on
    a resolved import exactly when the addend is 0. *)
Theorem dylib_decoder_agrees_up_to_addend `{Linker}
    (f : list Z) (hdr : fixups_header) (fx lib no next o a lb t : Z) (name : string) :
  0 <= o < 2 ^ 16 -> 0 <= a < 2 ^ 8 -> 0 <= next < 2 ^ 12 -> 0 <= t < 2 ^ 36 ->
  main_rebase_value (pack (FRebase t 0) next) lb = dylib_rebase_value (pack (FRebase t 0) next) lb /\
  (o < imports_count hdr -> symbols_offset hdr <> 0 ->
   read_import f (fx + imports_offset hdr) o = Ok (lib, no) -> import_ordinal lib = -1 ->
   rd_cstring f (fx + symbols_offset hdr + no) = Ok name ->
   resolve (-1) (strip_underscore name) <> 0 ->
   forall s ptr m1 m2 st1 st2,
     main_entry f hdr (fx + imports_offset hdr) (fx + symbols_offset hdr) ptr
       (pack (FBind o a) next) s = Ok (mk_cf m1 st1 (cf_load_base s)) ->
     dylib_entry f hdr fx ptr (pack (FBind o a) next) s = Ok (mk_cf m2 st2 (cf_load_base s)) ->
     load64 m1 ptr = Ok (u64 (resolve (-1) (strip_underscore name) + a)) /\
     load64 m2 ptr = Ok (u64 (resolve (-1) (strip_underscore name) + 256 * a)) /\
     (m1 = m2 <-> a = 0)).
Proof.
  intros Ho Ha Hn Ht. split.
  { rewrite dylib_rebase_pack, main_rebase_pack by (cbn; lia). done. }
  intros Hc Hsy Hi Hlib Hname Hr s ptr m1 m2 st1 st2 E1 E2.
  assert (fixup_wf (FBind o a)) as Hwf by (cbn; lia).
  unfold main_entry in E1. unfold dylib_entry, dylib_import_name in E2.
  rewrite pack_is_bind in E1, E2 by done.
  destruct (bind_fields o a next Hwf Hn) as [F1 F2]. rewrite F1, F2 in E1.
  destruct (dylib_bind_fields o a next Ho Ha Hn) as [G1 G2]. rewrite G1, G2 in E2.
  replace (o >=? imports_count hdr) with false in E1 by lia.
  replace (o <? imports_count hdr) with true in E2 by lia.
  replace (symbols_offset hdr =? 0) with false in E2 by lia.
  rewrite Hi in E1, E2. cbn in E1, E2. rewrite Hname in E1, E2. cbn in E1, E2.
  rewrite Hlib in E1. unfold bind_address in E1.
  replace (resolve (-1) (strip_underscore name) =? 0) with false in E1, E2 by lia.
  bind_inv E1. bind_inv E2. injection E1 as <- <-. injection E2 as <- <-.
  pose proof (load64_store64_same _ _ _ _ E) as L1. rewrite u64_idemp in L1.
  pose proof (load64_store64_same _ _ _ _ E0) as L2. rewrite u64_idemp in L2.
  split; [done|]. split; [done|]. split.
  - intros ->. rewrite L1 in L2. injection L2 as L.
    assert (u64 (256 * a - a) = 0) as Z0.
    { unfold u64 in *. set (r := resolve _ _) in *.
      replace (256 * a - a) with (r + 256 * a - (r + a)) by ring.
      rewrite Zminus_mod, <- L, Z.sub_diag. done. }
    rewrite u64_small in Z0 by lia. lia.
  - intros ->. rewrite Z.mul_0_r in E0. congruence.
Qed.

Lemma dylib_decoder_agrees_up_to_addend_witness :
  let hdr := mk_fixups_header 0 4 8 1 in
  let file := [9; 9; 9; 9; 0; 0; 0; 0; 95; 119; 114; 105; 116; 101; 0] in
  let s := mk_cf demo_page (mk_stubs 0 []) 0 in
  let go (e : Z -> Z -> cf_state -> res cf_state) :=
    match e 0x1000 (pack (FBind 0 3) 0) s with Ok s' => cf_mem s' | _ => ∅ end in
  go (@main_entry demo_linker file hdr 4 8) <> go (@dylib_entry demo_linker file hdr 0) /\
  load64 (go (@dylib_entry demo_linker file hdr 0)) 0x1000 = Ok 0x7300.
Proof.
  intros hdr file s go.
  destruct (@dylib_decoder_agrees_up_to_addend demo_linker file hdr 0 0 0 0 0 3 0 0 "_write")
    as [_ H]; try lia.
  destruct (H ltac:(cbn; lia) ltac:(cbn; lia) ltac:(vm_compute; reflexivity) ltac:(reflexivity)
    ltac:(vm_compute; reflexivity) ltac:(vm_compute; discriminate) s 0x1000
    (go (@main_entry demo_linker file hdr 4 8)) (go (@dylib_entry demo_linker file hdr 0))
    (mk_stubs 0 []) (mk_stubs 0 []) ltac:(vm_compute; reflexivity) ltac:(vm_compute; reflexivity))
    as (_ & H2 & H3).
  split; [intros E; apply H3 in E; lia|]. rewrite H2. vm_compute. reflexivity.
Defined.

(** What the two pointer formats ask for (the comments of src/src/macify.h):
    a [PTR_64] target is a static address, a [PTR_64_OFFSET] target an offset
    from the image's own base. *)
Definition expected_rebase (format t base slide : Z) : Z :=
  if format =? DYLD_CHAINED_PTR_64 then u64 (t + slide) else u64 (t + base + slide).

(** Rebases of the main image: with the image based at
    [base] and slid by [slide], an entry without high bits becomes what
    PTR_64_OFFSET asks for, but the same computation is used for PTR_64,
    whose targets already contain the base: those agree with their format
    only for an image based at 0. *)
Theorem rebase_value_per_format (t next base slide : Z) :
  0 <= t < 2 ^ 36 -> 0 <= next < 2 ^ 12 -> is_u64 base ->
  let v := main_rebase_value (pack (FRebase t 0) next) (u64 (base + slide)) in
  v = expected_rebase DYLD_CHAINED_PTR_64_OFFSET t base slide /\
  (v = expected_rebase DYLD_CHAINED_PTR_64 t base slide <-> base = 0).
Proof.
  intros Ht Hn Hb v. unfold v. rewrite main_rebase_pack by (cbn; lia).
  replace (0 * 2 ^ 43 + t) with t by lia.
  unfold expected_rebase. cbn. rewrite u64_add_r, Z.add_assoc. split; [done|].
  unfold is_u64 in Hb. split; [|intros ->; by rewrite Z.add_0_r].
  intros E. assert (u64 base = 0) as Z0.
  { unfold u64 in *. replace base with (t + base + slide - (t + slide)) by ring.
    rewrite Zminus_mod, E, Z.sub_diag. done. }
  by rewrite u64_small in Z0.
Qed.

Lemma rebase_value_per_format_witness :
  main_rebase_value (pack (FRebase 0x100004000 0) 0) (u64 (0x100000000 + 0x5000)) <>
  expected_rebase DYLD_CHAINED_PTR_64 0x100004000 0x100000000 0x5000.
Proof.
  intros E. apply (rebase_value_per_format 0x100004000 0 0x100000000 0x5000) in E;
    unfold is_u64; lia.
Defined.
