(* ===== verification/Segments.v ===== *)
(** * Segments and sections (src/src/segments.c)

    Reading a file, decoding a segment command with its sections, mapping a
    segment and looking a section up.  The kernel's [mprotect] and [mmap] are
    the class [Pages]: on success the range is mapped and nothing outside it
    changes.  Messages are left out. *)
From Stdlib Require Import ZArith Lia Bool.
From stdpp Require Import base gmap list strings numbers.
From S2P Require Import Prelude LoaderState Leb128 Symbols Binds ChainedFixups.

Definition VM_PROT_READ : Z := 1.
Definition VM_PROT_WRITE : Z := 2.
Definition VM_PROT_EXECUTE : Z := 4.
Definition PROT_NONE : Z := 0.
Definition PROT_READ : Z := 1.
Definition PROT_WRITE : Z := 2.
Definition PROT_EXEC : Z := 4.
Definition S_ATTR_PURE_INSTRUCTIONS : Z := 0x80000000.
Definition S_ATTR_SOME_INSTRUCTIONS : Z := 0x400.

Definition prot_from_macos (macos_prot : Z) : Z :=
  let p := 0 in
  let p := if has macos_prot VM_PROT_READ then Z.lor p PROT_READ else p in
  let p := if has macos_prot VM_PROT_WRITE then Z.lor p PROT_WRITE else p in
  if has macos_prot VM_PROT_EXECUTE then Z.lor p PROT_EXEC else p.

(** [strncmp(a, b, 16) == 0]. *)
Definition streq16 (a b : string) : bool := streq (stake 16 a) (stake 16 b).

Definition find_section (g_sections : list loaded_section) (segn sectn : string)
    : option loaded_section :=
  List.find (fun s => streq16 (segname s) segn && streq16 (sectname s) sectn) g_sections.

Definition section_is_code (s : option loaded_section) : bool :=
  match s with
  | None => false
  | Some s => has (sec_flags s) S_ATTR_SOME_INSTRUCTIONS ||
              has (sec_flags s) S_ATTR_PURE_INSTRUCTIONS
  end.

(** ** Decoding *)

Record segment_command_64 := mk_segcmd {
  sc_segname : string; sc_vmaddr : Z; sc_vmsize : Z; sc_fileoff : Z; sc_filesize : Z;
  sc_initprot : Z; sc_nsects : Z
}.

Record section_64 := mk_sect {
  s_sectname : string; s_segname : string; s_addr : Z; s_size : Z;
  s_offset : Z; s_flags : Z; s_reserved1 : Z; s_reserved2 : Z
}.

(** A [char[16]]: the characters before the first NUL, if there is one. *)
Fixpoint until_nul (bs : list Z) : list Z :=
  match bs with
  | [] => []
  | b :: bs => if b =? 0 then [] else b :: until_nul bs
  end.

Definition name16 (f : list Z) (off : Z) : res string :=
  match get_bytes (buf_get f) off 16 with
  | Some bs => Ok (string_of_bytes (until_nul bs))
  | None => Undef
  end.

Definition SEGMENT_COMMAND_SIZE : Z := 72.
Definition SECTION_SIZE : Z := 80.

Definition parse_segment (f : list Z) (off : Z) : res segment_command_64 :=
  name ← name16 f (off + 8);
  va ← rd64 f (off + 24);
  vs ← rd64 f (off + 32);
  fo ← rd64 f (off + 40);
  fs ← rd64 f (off + 48);
  ip ← rd32 f (off + 60);
  ns ← rd32 f (off + 64);
  Ok (mk_segcmd name va vs fo fs (i32 ip) ns).

Definition parse_section (f : list Z) (off : Z) : res section_64 :=
  sn ← name16 f off;
  gn ← name16 f (off + 16);
  a ← rd64 f (off + 32);
  z ← rd64 f (off + 40);
  o ← rd32 f (off + 48);
  fl ← rd32 f (off + 64);
  r1 ← rd32 f (off + 68);
  r2 ← rd32 f (off + 72);
  Ok (mk_sect sn gn a z o fl r1 r2).

(** ** Mapping *)

(** The kernel: [os_mprotect m a n] and [os_mmap_fixed m a n] give the memory
    after a successful call, [None] when the call fails. *)
Class Pages := {
  os_mprotect : mem -> Z -> Z -> option mem;
  os_mmap_fixed : mem -> Z -> Z -> option mem;
  os_mprotect_ok : forall m a n m', os_mprotect m a n = Some m' ->
    (forall x, a <= x < a + n -> is_Some (m' !! x)) /\
    (forall x, x < a \/ a + n <= x -> m' !! x = m !! x);
  os_mmap_ok : forall m a n m', os_mmap_fixed m a n = Some m' ->
    (forall x, a <= x < a + n -> is_Some (m' !! x)) /\
    (forall x, x < a \/ a + n <= x -> m' !! x = m !! x)
}.

Record image := mk_image {
  im_segments : list loaded_segment;
  im_sections : list loaded_section;
  im_mem : mem
}.

(** [(n + 4095) & ~4095UL] *)
Definition page_round (n : Z) : Z := Z.land (u64 (n + 4095)) (Z.lnot 4095).

(** [strncpy(dst, src, 15)] into zeroed memory. *)
Definition name15 (s : string) : string := stake 15 s.

Definition slide_section (g_slide : Z) (s : section_64) : loaded_section :=
  mk_section (name15 (s_sectname s)) (name15 (s_segname s)) (u64 (s_addr s + g_slide))
             (s_size s) (s_offset s) (s_flags s) (s_reserved1 s) (s_reserved2 s).

(** The section loop: -1 when the table is full. *)
Fixpoint add_sections (g_slide : Z) (f : list Z) (off : Z) (n : nat) (ls : list loaded_section)
    : res (Z * list loaded_section) :=
  match n with
  | O => Ok (0, ls)
  | S n =>
      if (MAX_SECTIONS <=? length ls)%nat then Ok (-1, ls) else
      s ← parse_section f off;
      add_sections g_slide f (off + SECTION_SIZE) n (ls ++ [slide_section g_slide s])
  end.

(** [mprotect], and [mmap] with MAP_FIXED when it fails. *)
Definition open_pages `{Pages} (m : mem) (a n : Z) : option mem :=
  match os_mprotect m a n with Some m' => Some m' | None => os_mmap_fixed m a n end.

Definition map_segment `{Pages} (g_slide : Z) (file_data : list Z) (lc : Z) (im : image)
    : res (Z * image) :=
  if (MAX_SEGMENTS <=? length (im_segments im))%nat then Ok (-1, im) else
  seg ← parse_segment file_data lc;
  if sc_vmsize seg =? 0 then Ok (0, im) else
  if streq (sc_segname seg) "__PAGEZERO" then
    Ok (0, mk_image (im_segments im ++
              [mk_segment (sc_vmaddr seg) (sc_vmsize seg) PROT_NONE PROT_NONE
                          (name15 (sc_segname seg)) true]) (im_sections im) (im_mem im))
  else
  let slid := u64 (sc_vmaddr seg + g_slide) in
  let initial_prot := if has (sc_initprot seg) VM_PROT_EXECUTE
                      then Z.lor (Z.lor PROT_READ PROT_WRITE) PROT_EXEC
                      else Z.lor PROT_READ PROT_WRITE in
  match open_pages (im_mem im) slid (page_round (sc_vmsize seg)) with
  | None => Ok (-1, im)
  | Some m =>
      if (sc_filesize seg >? 0) && (u64 (sc_fileoff seg + sc_filesize seg) >? buf_len file_data)
      then Ok (-1, mk_image (im_segments im) (im_sections im) m) else
      m ← (if sc_filesize seg >? 0 then
             bs ← buf_slice file_data (sc_fileoff seg) (sc_filesize seg);
             store m slid bs
           else Ok m);
      m ← (if sc_vmsize seg >? sc_filesize seg then
             store m (u64 (slid + sc_filesize seg))
               (replicate (Z.to_nat (sc_vmsize seg - sc_filesize seg)) 0)
           else Ok m);
      '(code, sects) ← add_sections g_slide file_data (lc + SEGMENT_COMMAND_SIZE)
                         (Z.to_nat (sc_nsects seg)) (im_sections im);
      Ok (code, mk_image (im_segments im ++
              [mk_segment slid (sc_vmsize seg) initial_prot (prot_from_macos (sc_initprot seg))
                          (name15 (sc_segname seg)) false]) sects m)
  end.

(** ** Reading a file *)

(** What one [read] call gives: data, end of file, EINTR or another error. *)
Inductive read_out :=
| RData (bs : list Z)
| REof
| REintr
| RError.

(** The read loop over the results of successive calls; [Some] is the filled
    buffer.  [NoFuel] when the calls given are too few to finish. *)
Fixpoint read_loop (outs : list read_out) (size : Z) (data : list Z) : res (option (list Z)) :=
  if buf_len data <? size then
    match outs with
    | [] => NoFuel
    | RData bs :: outs => read_loop outs size (data ++ bs)
    | REof :: _ => Ok None
    | REintr :: outs => read_loop outs size data
    | RError :: _ => Ok None
    end
  else Ok (Some data).

(** [load_file]: [size] is what [fstat] reports, [None] when it or [open] fails;
    [malloc] is taken to succeed. *)
Definition load_file (size : option Z) (outs : list read_out) : res (option (list Z)) :=
  match size with
  | None => Ok None
  | Some size => if size =? 0 then Ok None else read_loop outs size []
  end.

(** ** Lemmas *)

Lemma page_round_ge n : 0 <= n <= 2 ^ 63 -> n <= page_round n.
Proof.
  intros Hn. unfold page_round. rewrite u64_small by lia.
  change 4095 with (Z.ones 12). rewrite <- Z.ldiff_land, Z.ldiff_ones_r by lia.
  rewrite Z.shiftl_mul_pow2, Z.shiftr_div_pow2 by lia.
  pose proof (Z.div_mod (n + Z.ones 12) (2 ^ 12) ltac:(lia)).
  pose proof (Z.mod_pos_bound (n + Z.ones 12) (2 ^ 12) ltac:(lia)).
  change (Z.ones 12) with 4095 in *. lia.
Qed.

Lemma open_pages_ok `{Pages} m a n m' :
  open_pages m a n = Some m' ->
  (forall x, a <= x < a + n -> is_Some (m' !! x)) /\
  (forall x, x < a \/ a + n <= x -> m' !! x = m !! x).
Proof.
  unfold open_pages. destruct (os_mprotect m a n) eqn:E.
  - intros [= <-]. by apply os_mprotect_ok.
  - apply os_mmap_ok.
Qed.

Lemma store_defined m a bs :
  (forall x, a <= x < a + buf_len bs -> is_Some (m !! x)) -> store m a bs = Ok (put_bytes m a bs).
Proof. intros Hm. unfold store. replace (mapped m a (length bs)) with true; [done|].
  symmetry. by apply mapped_spec.
Qed.

Lemma put_bytes_mapped m a bs x : is_Some (m !! x) -> is_Some (put_bytes m a bs !! x).
Proof.
  intros Hm. rewrite lookup_put_bytes. case_decide; [|done].
  apply lookup_lt_is_Some_2. lia.
Qed.

Lemma buf_slice_ok f off n :
  0 <= off -> 0 <= n -> off + n <= buf_len f ->
  exists bs, buf_slice f off n = Ok bs /\ buf_len bs = n /\
    (forall i, 0 <= i < n -> bs !! Z.to_nat i = buf_get f (off + i)).
Proof.
  intros Ho Hn Hl. unfold buf_slice.
  replace ((off <? 0) || (n <? 0) || (buf_len f <? off + n)) with false by lia.
  eexists. split; [done|]. unfold buf_len in *. split.
  - rewrite length_take, length_drop. lia.
  - intros i Hi. rewrite lookup_take_lt by lia. rewrite lookup_drop. unfold buf_get.
    replace (off + i <? 0) with false by lia. f_equal. lia.
Qed.

Lemma add_sections_spec slide f off n ls c ls' :
  add_sections slide f off n ls = Ok (c, ls') -> (length ls <= MAX_SECTIONS)%nat ->
  (length ls' <= MAX_SECTIONS)%nat /\
  exists new, ls' = ls ++ new /\ (c = 0 -> length new = n) /\
    (c = 0 \/ (c = -1 /\ length ls' = MAX_SECTIONS)) /\
    (forall i s, new !! i = Some s -> exists raw,
       parse_section f (off + SECTION_SIZE * Z.of_nat i) = Ok raw /\ s = slide_section slide raw).
Proof.
  revert off ls. induction n as [|n IH]; intros off ls; cbn [add_sections].
  - intros [= <- <-] Hl. split; [done|]. exists []. rewrite app_nil_r.
    repeat split; auto. intros i s. by rewrite lookup_nil.
  - destruct (Nat.leb_spec MAX_SECTIONS (length ls)).
    { intros [= <- <-] Hl. split; [done|]. exists []. rewrite app_nil_r.
      split; [done|]. split; [done|]. split; [right; split; [done|lia]|]. intros i s. by rewrite lookup_nil. }
    intros E Hl. bind_inv E. apply IH in E as (Hl' & new & -> & Hc & Hcc & Hnew).
    2:{ rewrite length_app. cbn. lia. }
    split; [done|]. exists (slide_section slide a :: new). rewrite <- app_assoc. cbn.
    split; [done|]. split; [intros Hz; by rewrite (Hc Hz)|]. split.
    { destruct Hcc as [->|[-> Hlen]]; [by left|right]. split; [done|].
      rewrite <- Hlen, !length_app. cbn. lia. }
    intros [|i] s; cbn.
    + intros [= <-]. exists a. split; [|done]. by rewrite Z.mul_0_r, Z.add_0_r.
    + intros Hs. destruct (Hnew i s Hs) as (raw & Hraw & ->). exists raw. split; [|done].
      rewrite <- Hraw. f_equal. lia.
Qed.

Lemma add_sections_defined slide f off n ls :
  (forall i, (i < n)%nat -> exists raw, parse_section f (off + SECTION_SIZE * Z.of_nat i) = Ok raw) ->
  exists r, add_sections slide f off n ls = Ok r.
Proof.
  revert off ls. induction n as [|n IH]; intros off ls Hp; cbn [add_sections]; [eauto|].
  destruct (_ <=? _)%nat; [eauto|]. destruct (Hp O ltac:(lia)) as [raw Hraw].
  rewrite Z.mul_0_r, Z.add_0_r in Hraw. rewrite Hraw. cbn. apply IH. intros i Hi.
  destruct (Hp (S i) ltac:(lia)) as [r Hr]. exists r. rewrite <- Hr. f_equal. lia.
Qed.

(** The bytes of a freshly mapped segment: the file, then zeros. *)
Definition segment_byte (f : list Z) (seg : segment_command_64) (i : Z) : option Z :=
  if i <? sc_filesize seg then buf_get f (sc_fileoff seg + i) else Some 0.

(** Copying the file part and clearing the rest of an open range. *)
Lemma fill_segment f seg m slid :
  0 <= sc_filesize seg <= sc_vmsize seg -> 0 <= sc_fileoff seg ->
  sc_fileoff seg + sc_filesize seg <= buf_len f ->
  0 <= slid -> slid + sc_vmsize seg < 2 ^ 64 ->
  (forall x, slid <= x < slid + sc_vmsize seg -> is_Some (m !! x)) ->
  exists m1 m2,
    (if sc_filesize seg >? 0 then
       bs ← buf_slice f (sc_fileoff seg) (sc_filesize seg); store m slid bs else Ok m) = Ok m1 /\
    (if sc_vmsize seg >? sc_filesize seg then
       store m1 (u64 (slid + sc_filesize seg))
         (replicate (Z.to_nat (sc_vmsize seg - sc_filesize seg)) 0) else Ok m1) = Ok m2 /\
    (forall i, 0 <= i < sc_vmsize seg -> m2 !! (slid + i) = segment_byte f seg i) /\
    (forall x, x < slid \/ slid + sc_vmsize seg <= x -> m2 !! x = m !! x).
Proof.
  intros Hfs Hfo Hend Hs Hse Hm.
  destruct (buf_slice_ok f (sc_fileoff seg) (sc_filesize seg)) as (bs & Hbs & Hlen & Hget); [lia..|].
  assert (exists m1, (if sc_filesize seg >? 0 then
       bs ← buf_slice f (sc_fileoff seg) (sc_filesize seg); store m slid bs else Ok m) = Ok m1 /\
     m1 = put_bytes m slid bs) as (m1 & E1 & ->).
  { destruct (Z.gtb_spec (sc_filesize seg) 0).
    - rewrite Hbs. cbn. eexists. rewrite store_defined; [done|]. rewrite Hlen.
      intros x Hx. apply Hm. lia.
    - exists m. split; [done|]. destruct bs; [done|]. unfold buf_len in Hlen. cbn in Hlen. lia. }
  exists (put_bytes m slid bs).
  exists (put_bytes (put_bytes m slid bs) (slid + sc_filesize seg)
            (replicate (Z.to_nat (sc_vmsize seg - sc_filesize seg)) 0)).
  split; [exact E1|]. split.
  { rewrite u64_small by lia. destruct (Z.gtb_spec (sc_vmsize seg) (sc_filesize seg)).
    - apply store_defined. unfold buf_len. rewrite length_replicate. intros x Hx.
      apply put_bytes_mapped, Hm. lia.
    - by replace (Z.to_nat (sc_vmsize seg - sc_filesize seg)) with O by lia. }
  unfold buf_len in Hlen. split.
  - intros i Hi. rewrite !lookup_put_bytes, length_replicate. unfold segment_byte.
    destruct (Z.ltb_spec i (sc_filesize seg)); repeat case_decide; try lia.
    + rewrite <- Hget by lia. f_equal. lia.
    + apply lookup_replicate_2. lia.
  - intros x Hx. rewrite !lookup_put_bytes, length_replicate. by repeat case_decide; try lia.
Qed.

(** ** Properties *)

(** C6 (functional): mapping a regular segment whose file part lies in the
    file and fits its memory size, in a range the kernel opens, returns (0,
    or -1 when the section table is full); the memory of the segment holds the
    bytes of the file followed by zeros, nothing outside the opened pages
    changes, and the tables gain exactly this segment, at the slid address,
    and its sections, each moved by the slide. *)
Theorem map_segment_loads `{Pages}
    (g_slide : Z) (f : list Z) (lc : Z) (im : image) (seg : segment_command_64) (m : mem) :
  let slid := u64 (sc_vmaddr seg + g_slide) in
  parse_segment f lc = Ok seg -> (length (im_segments im) < MAX_SEGMENTS)%nat ->
  (length (im_sections im) <= MAX_SECTIONS)%nat ->
  sc_segname seg <> "__PAGEZERO"%string -> 0 < sc_vmsize seg <= 2 ^ 63 ->
  0 <= sc_filesize seg <= sc_vmsize seg -> 0 <= sc_fileoff seg ->
  sc_fileoff seg + sc_filesize seg <= buf_len f -> buf_len f < 2 ^ 63 ->
  slid + sc_vmsize seg < 2 ^ 64 ->
  open_pages (im_mem im) slid (page_round (sc_vmsize seg)) = Some m ->
  (forall i, (i < Z.to_nat (sc_nsects seg))%nat -> exists raw,
     parse_section f (lc + SEGMENT_COMMAND_SIZE + SECTION_SIZE * Z.of_nat i) = Ok raw) ->
  exists c im', map_segment g_slide f lc im = Ok (c, im') /\
  (forall i, 0 <= i < sc_vmsize seg -> im_mem im' !! (slid + i) = segment_byte f seg i) /\
  (forall x, x < slid \/ slid + page_round (sc_vmsize seg) <= x -> im_mem im' !! x = im_mem im !! x) /\
  (exists p, im_segments im' = im_segments im ++
     [mk_segment slid (sc_vmsize seg) p (prot_from_macos (sc_initprot seg))
        (name15 (sc_segname seg)) false]) /\
  (c = 0 \/ (c = -1 /\ length (im_sections im') = MAX_SECTIONS)) /\
  (length (im_sections im') <= MAX_SECTIONS)%nat /\
  exists new, im_sections im' = im_sections im ++ new /\
    (c = 0 -> length new = Z.to_nat (sc_nsects seg)) /\
    (forall i s, new !! i = Some s -> exists raw,
       parse_section f (lc + SEGMENT_COMMAND_SIZE + SECTION_SIZE * Z.of_nat i) = Ok raw /\
       s = slide_section g_slide raw).
Proof.
  intros slid Hparse Hns Hnc Hpz Hvm Hfs Hfo Hend Hfl Hslid Hopen Hsects.
  unfold map_segment. replace (MAX_SEGMENTS <=? length (im_segments im))%nat with false by
    (symmetry; by apply Nat.leb_gt).
  rewrite Hparse. cbn -[page_round]. replace (sc_vmsize seg =? 0) with false by lia.
  replace (streq (sc_segname seg) "__PAGEZERO") with false
    by (symmetry; by apply bool_decide_eq_false).
  fold slid. rewrite Hopen.
  pose proof (u64_range (sc_vmaddr seg + g_slide)) as Hr. fold slid in Hr.
  destruct (open_pages_ok _ _ _ _ Hopen) as [Hin Hout].
  pose proof (page_round_ge (sc_vmsize seg) ltac:(lia)) as Hpr.
  destruct (fill_segment f seg m slid) as (m1 & m2 & E1 & E2 & Hb & Ho); try lia.
  { intros x Hx. apply Hin. lia. }
  rewrite (u64_small (sc_fileoff seg + sc_filesize seg)) by lia.
  replace ((sc_filesize seg >? 0) && (sc_fileoff seg + sc_filesize seg >? buf_len f)) with false.
  2:{ symmetry. apply andb_false_iff. right. rewrite Z.gtb_ltb. apply Z.ltb_ge. lia. }
  rewrite E1. cbn -[page_round]. rewrite E2. cbn -[page_round].
  destruct (add_sections_defined g_slide f (lc + SEGMENT_COMMAND_SIZE)
    (Z.to_nat (sc_nsects seg)) (im_sections im) Hsects) as [[c sects] E0].
  rewrite E0. cbn -[page_round]. eexists _, _. split; [reflexivity|]. cbn -[page_round].
  destruct (add_sections_spec _ _ _ _ _ _ _ E0 Hnc) as (Hlen & new & Hnew & Hn & Hc & Hraw).
  split; [exact Hb|]. split; [intros x Hx; rewrite Ho by lia; by apply Hout; lia|].
  split; [eauto|]. split; [exact Hc|]. split; [exact Hlen|]. eauto.
Qed.

(** A kernel whose [mprotect] fails and whose [mmap] gives zeroed pages. *)
Definition demo_pages : Pages.
Proof.
  refine {| os_mprotect := fun _ _ _ => None;
            os_mmap_fixed := fun m a n => Some (put_bytes m a (replicate (Z.to_nat n) 0)) |}.
  - done.
  - intros m a n m' [= <-]. split; intros x Hx; rewrite lookup_put_bytes, length_replicate.
    + rewrite decide_True by lia. apply lookup_lt_is_Some_2. rewrite length_replicate. lia.
    + by rewrite decide_False by lia.
Defined.

(** A segment command ["__D"] at 0x1000, size 4, file bytes 72 and 73. *)
Definition demo_segcmd : list Z :=
  replicate 8 0 ++ [95; 95; 68] ++ replicate 13 0 ++ le_bytes 8 0x1000 ++ le_bytes 8 4 ++
  le_bytes 8 72 ++ le_bytes 8 2 ++ le_bytes 4 7 ++ le_bytes 4 3 ++ le_bytes 4 0 ++ le_bytes 4 0 ++ [5; 6].

Lemma map_segment_loads_witness :
  let seg := mk_segcmd "__D" 0x1000 4 72 2 3 0 in
  exists c im', @map_segment demo_pages 0x2000 demo_segcmd 0 (mk_image [] [] ∅) = Ok (c, im') /\
    im_mem im' !! 0x3001 = Some 6 /\ im_mem im' !! 0x3002 = Some 0.
Proof.
  intros seg.
  destruct (@map_segment_loads demo_pages 0x2000 demo_segcmd 0 (mk_image [] [] ∅) seg
    (put_bytes ∅ (u64 (sc_vmaddr seg + 0x2000))
       (replicate (Z.to_nat (page_round (sc_vmsize seg))) 0))) as (c & im' & Hrun & Hb & _).
  - vm_compute. reflexivity.
  - unfold MAX_SEGMENTS. cbn. lia.
  - unfold MAX_SECTIONS. cbn. lia.
  - discriminate.
  - cbn. lia.
  - cbn. lia.
  - cbn. lia.
  - vm_compute. discriminate.
  - vm_compute. reflexivity.
  - vm_compute. reflexivity.
  - reflexivity.
  - cbn. lia.
  - exists c, im'. split; [exact Hrun|].
    split; [exact (Hb 1 ltac:(cbn; lia))|exact (Hb 2 ltac:(cbn; lia))].
Defined.

(** The end-of-file test of [map_segment] adds two 64-bit
    numbers: a file range past the end of the file is refused, leaving the
    segment table alone, unless offset and size add up to 2^64 or more, when
    the sum wraps below the file size and the copy reads outside the file. *)
Theorem map_segment_file_bounds `{Pages}
    (g_slide : Z) (f : list Z) (lc : Z) (im : image) (seg : segment_command_64) (m : mem) :
  let slid := u64 (sc_vmaddr seg + g_slide) in
  parse_segment f lc = Ok seg -> (length (im_segments im) < MAX_SEGMENTS)%nat ->
  sc_segname seg <> "__PAGEZERO"%string -> 0 < sc_vmsize seg -> 0 < sc_filesize seg < 2 ^ 64 ->
  is_u64 (sc_fileoff seg) -> buf_len f < sc_fileoff seg + sc_filesize seg ->
  open_pages (im_mem im) slid (page_round (sc_vmsize seg)) = Some m ->
  (sc_fileoff seg + sc_filesize seg < 2 ^ 64 ->
   map_segment g_slide f lc im = Ok (-1, mk_image (im_segments im) (im_sections im) m)) /\
  (2 ^ 64 <= sc_fileoff seg + sc_filesize seg <= 2 ^ 64 + buf_len f ->
   map_segment g_slide f lc im = Undef).
Proof.
  intros slid Hparse Hns Hpz Hvm Hfs Hfo Hend Hopen. unfold is_u64 in Hfo.
  unfold map_segment. replace (MAX_SEGMENTS <=? length (im_segments im))%nat with false by
    (symmetry; by apply Nat.leb_gt).
  rewrite Hparse. cbn -[page_round]. replace (sc_vmsize seg =? 0) with false by lia.
  replace (streq (sc_segname seg) "__PAGEZERO") with false
    by (symmetry; by apply bool_decide_eq_false).
  fold slid. rewrite Hopen. replace (sc_filesize seg >? 0) with true by lia. cbn [andb].
  split; intros Hw.
  - rewrite u64_small by lia.
    by replace (sc_fileoff seg + sc_filesize seg >? buf_len f) with true by lia.
  - assert (u64 (sc_fileoff seg + sc_filesize seg) = sc_fileoff seg + sc_filesize seg - 2 ^ 64) as ->
      by (symmetry; apply (Z.mod_unique _ _ 1); lia).
    replace (_ >? _) with false by lia. unfold buf_slice.
    by replace ((sc_fileoff seg <? 0) || (sc_filesize seg <? 0) ||
             (buf_len f <? sc_fileoff seg + sc_filesize seg)) with true by lia.
Qed.

(** The same command with a file offset of 2^64 - 1. *)
Definition demo_wrapcmd : list Z :=
  replicate 8 0 ++ [95; 95; 68] ++ replicate 13 0 ++ le_bytes 8 0x1000 ++ le_bytes 8 4 ++
  le_bytes 8 (2 ^ 64 - 1) ++ le_bytes 8 2 ++ le_bytes 4 7 ++ le_bytes 4 3 ++ le_bytes 4 0 ++ le_bytes 4 0.

Lemma map_segment_file_bounds_witness :
  @map_segment demo_pages 0x2000 demo_wrapcmd 0 (mk_image [] [] ∅) = Undef.
Proof.
  eapply (@map_segment_file_bounds demo_pages 0x2000 demo_wrapcmd 0 (mk_image [] [] ∅)
    (mk_segcmd "__D" 0x1000 4 (2 ^ 64 - 1) 2 3 0)).
  - vm_compute. reflexivity.
  - unfold MAX_SEGMENTS. cbn. lia.
  - discriminate.
  - cbn. lia.
  - cbn. lia.
  - unfold is_u64. cbn. lia.
  - vm_compute. reflexivity.
  - reflexivity.
  - split; vm_compute; discriminate.
Defined.

Lemma stored_name_matches a b :
  (String.length b <= 15)%nat -> streq16 (name15 a) b = streq (name15 a) b.
Proof.
  intros Hb. unfold streq16, name15.
  rewrite (stake_all 16 b) by lia. rewrite (stake_all 16 (stake 15 a)); [done|].
  rewrite length_stake. lia.
Qed.

Lemma stored_name_differs a b :
  (16 <= String.length b)%nat -> streq16 (name15 a) b = false.
Proof.
  intros Hb. apply bool_decide_eq_false. intros E. apply (f_equal String.length) in E.
  unfold name15 in E. rewrite !length_stake in E. lia.
Qed.

(** After the section loop a section is found under its
    names whenever both have at most fifteen characters (the first one stored
    with these names), but a name that fills all sixteen characters of its
    field is stored cut to fifteen and no lookup by the full name finds it,
    although both sides are compared up to sixteen. *)
Theorem find_section_stored (g_slide : Z) (raws : list section_64) (segn sectn : string) :
  let ls := map (slide_section g_slide) raws in
  ((String.length segn <= 15)%nat -> (String.length sectn <= 15)%nat ->
   find_section ls segn sectn =
   match List.find (fun r => streq (name15 (s_segname r)) segn && streq (name15 (s_sectname r)) sectn) raws with
   | Some r => Some (slide_section g_slide r)
   | None => None
   end) /\
  ((16 <= String.length sectn)%nat -> find_section ls segn sectn = None).
Proof.
  intros ls. unfold find_section, ls. split.
  - intros Hg Hs. clear ls. induction raws as [|r raws IH]; cbn -[streq16 streq name15]; [done|].
    rewrite !stored_name_matches by done.
    by destruct (streq (name15 (s_segname r)) segn && streq (name15 (s_sectname r)) sectn).
  - intros Hl. clear ls. induction raws as [|r raws IH]; cbn -[streq16 streq name15]; [done|].
    by rewrite (stored_name_differs _ sectn), andb_false_r.
Qed.

(** The hypotheses of both halves at a concrete table. *)
Lemma find_section_stored_witness :
  let r := mk_sect "__objc_classlist" "__DATA" 0x10 8 0 0 0 0 in
  let q := mk_sect "__mod_init_func" "__DATA" 0x20 8 0 0 0 0 in
  find_section (map (slide_section 0) [r; q]) "__DATA" "__objc_classlist" = None /\
  find_section (map (slide_section 0) [r; q]) "__DATA" "__mod_init_func" = Some (slide_section 0 q).
Proof.
  intros r q. split.
  - apply (find_section_stored 0 [r; q] "__DATA" "__objc_classlist"). vm_compute. lia.
  - rewrite (proj1 (find_section_stored 0 [r; q] "__DATA" "__mod_init_func"));
      [reflexivity|vm_compute; lia|vm_compute; lia].
Defined.

(** The results of [read] that deliver [content] in pieces, with any number
    of interruptions before each. *)
Inductive delivers : list read_out -> list Z -> Prop :=
| delivers_nil : delivers [] []
| delivers_eintr outs bs : delivers outs bs -> delivers (REintr :: outs) bs
| delivers_data c outs bs : c <> [] -> delivers outs bs -> delivers (RData c :: outs) (c ++ bs).

Lemma read_loop_delivers outs content rest data size :
  delivers outs content -> buf_len data + buf_len content = size ->
  read_loop (outs ++ rest) size data =
  if buf_len content =? 0 then Ok (Some data) else Ok (Some (data ++ content)).
Proof.
  intros Hd. revert data. induction Hd as [|outs bs _ IH|c outs bs Hc _ IH]; intros data Hs.
  - cbn in Hs. unfold buf_len in *. cbn in *. destruct rest; cbn [read_loop]; unfold buf_len;
      by replace (Z.of_nat (length data) <? size) with false by lia.
  - cbn [app read_loop]. destruct (Z.ltb_spec (buf_len data) size).
    + by apply IH.
    + pose proof (buf_len_nonneg bs). by replace (buf_len bs =? 0) with true by lia.
  - rewrite buf_len_app in Hs. pose proof (buf_len_nonneg bs).
    assert (0 < buf_len c) by (unfold buf_len; destruct c; cbn; [done|lia]).
    cbn [app read_loop]. replace (buf_len data <? size) with true by lia.
    rewrite IH by (rewrite buf_len_app; lia). rewrite buf_len_app.
    replace (buf_len c + buf_len bs =? 0) with false by lia.
    destruct (Z.eqb_spec (buf_len bs) 0) as [E|]; [|by rewrite app_assoc].
    assert (bs = []) as -> by (destruct bs; [done|unfold buf_len in E; cbn in E; lia]).
    by rewrite app_nil_r.
Qed.

(** [load_file] returns the whole content of a file
    whatever pieces [read] delivers it in and however often it is
    interrupted; an end of file before the reported size, or an error, gives
    NULL, and so does an empty file. *)
Theorem load_file_spec (outs rest : list read_out) (content : list Z) (extra : Z) :
  delivers outs content ->
  (content <> [] -> load_file (Some (buf_len content)) (outs ++ rest) = Ok (Some content)) /\
  (0 < extra -> forall stop, stop = REof \/ stop = RError ->
     load_file (Some (buf_len content + extra)) (outs ++ stop :: rest) = Ok None) /\
  load_file (Some 0) (outs ++ rest) = Ok None.
Proof.
  intros Hd. pose proof (buf_len_nonneg content) as Hc. split; [|split; [|done]].
  - intros Hne. unfold load_file.
    assert (buf_len content <> 0) by (destruct content; [done|unfold buf_len; cbn; lia]).
    replace (buf_len content =? 0) with false by lia.
    rewrite (read_loop_delivers outs content rest [] _ Hd) by done.
    by replace (buf_len content =? 0) with false by lia.
  - intros He stop Hstop. unfold load_file.
    replace (buf_len content + extra =? 0) with false by lia.
    assert (forall data, buf_len data + buf_len content < buf_len data + buf_len content + extra ->
      read_loop (outs ++ stop :: rest) (buf_len data + buf_len content + extra) data = Ok None) as G.
    { induction Hd as [|outs bs _ IH|c outs bs Hne _ IH]; intros data _; cbn [app read_loop].
      - change (buf_len []) with 0. rewrite Z.add_0_r.
        destruct (Z.ltb_spec (buf_len data) (buf_len data + extra)); [|lia].
        by destruct Hstop as [-> | ->].
      - pose proof (buf_len_nonneg bs).
        destruct (Z.ltb_spec (buf_len data) (buf_len data + buf_len bs + extra)); [apply IH; lia|lia].
      - rewrite buf_len_app. pose proof (buf_len_nonneg bs). pose proof (buf_len_nonneg c).
        destruct (Z.ltb_spec (buf_len data) (buf_len data + (buf_len c + buf_len bs) + extra)); [|lia].
        replace (buf_len data + (buf_len c + buf_len bs) + extra)
          with (buf_len (data ++ c) + buf_len bs + extra) by (rewrite buf_len_app; lia).
        apply IH; lia. }
    specialize (G [] ltac:(lia)). unfold buf_len at 1 in G. cbn in G. exact G.
Qed.

Lemma load_file_spec_witness :
  load_file (Some 3) ([RData [1; 2]; REintr; RData [3]] ++ []) = Ok (Some [1; 2; 3]).
Proof.
  apply (load_file_spec [RData [1; 2]; REintr; RData [3]] [] [1; 2; 3] 1); [|discriminate].
  apply (delivers_data [1; 2] _ [3]); [discriminate|]. apply delivers_eintr.
  apply (delivers_data [3] _ []); [discriminate|]. apply delivers_nil.
Defined.
