(* ===== verification/Patcher.v ===== *)
(** * The syscall patcher (src/src/syscall/patcher.c)

    Code scanning and rewriting over the bytes of an executable segment.
    [base] holds the bytes of the segment's pages from its first address on,
    [vmsize] is the segment's size.  The backward scans read only offsets of
    the bytes already scanned, so they use a total read; the forward reads
    and all writes are checked.  Messages are left out. *)
From Stdlib Require Import ZArith Lia Bool.
From stdpp Require Import base gmap list strings numbers.
From S2P Require Import Prelude SyscallTable LoaderState Leb128 Symbols Binds ChainedFixups Segments.

Definition BACKWARD_SCAN_BYTES : Z := 32.

Definition byte_at (t : list Z) (i : Z) : Z := default 0 (buf_get t i).

(** [memcmp(base + off, bs, len) == 0] *)
Fixpoint bytes_at (t : list Z) (off : Z) (bs : list Z) : bool :=
  match bs with
  | [] => true
  | b :: bs => (byte_at t off =? b) && bytes_at t (off + 1) bs
  end.

(** [memcpy(base + off, bs, len)] *)
Fixpoint patch_bytes (t : list Z) (off : Z) (bs : list Z) : res (list Z) :=
  match bs with
  | [] => Ok t
  | b :: bs => t ← buf_wr t off b; patch_bytes t (off + 1) bs
  end.

(** [mov eax, 0x2000XXXX], as the code spells it: B8 XX XX 00 20. *)
Definition is_mov (t : list Z) (j : Z) : bool :=
  (byte_at t j =? 0xB8) && (byte_at t (j + 3) =? 0x00) && (byte_at t (j + 4) =? 0x20).

Definition rex_before (t : list Z) (j : Z) : bool :=
  (0 <? j) && (0x40 <=? byte_at t (j - 1)) && (byte_at t (j - 1) <=? 0x4F).

(** [add rax, 0x2000000] *)
Definition is_go_add (t : list Z) (j : Z) : bool :=
  (5 <=? j) && bytes_at t j [0x48; 0x05; 0x00; 0x00; 0x00; 0x02].

(** The first scan; [n] is the number of candidates from [j] downwards. *)
Fixpoint scan_pattern (t : list Z) (i : Z) (n : nat) (j : Z) : bool :=
  match n with
  | O => false
  | S n =>
      if is_mov t j && (j + 4 <? i) then
        if rex_before t j then scan_pattern t i n (j - 1) else true
      else if is_go_add t j then true
      else if j =? 0 then false else scan_pattern t i n (j - 1)
  end.

(** The second scan. *)
Fixpoint find_mov (t : list Z) (n : nat) (j : Z) : option Z :=
  match n with
  | O => None
  | S n => if is_mov t j && negb (rex_before t j) then Some j else find_mov t n (j - 1)
  end.

Definition scan_first (i : Z) : Z := if 5 <=? i then i - 5 else 0.
Definition scan_last (i : Z) : Z := if BACKWARD_SCAN_BYTES <=? i then i - BACKWARD_SCAN_BYTES else 0.
Definition scan_count (i : Z) : nat := Z.to_nat (scan_first i - scan_last i + 1).

Definition found_pattern (t : list Z) (i : Z) : bool :=
  (scan_first i <? i) && scan_pattern t i (scan_count i) (scan_first i).

Record patch_state := mk_patch { pt_base : list Z; pt_fast : Z; pt_slow : Z }.

(** [base[i+1] = 0x0B], one more slow site. *)
Definition make_ud2 (st : patch_state) (i : Z) : res patch_state :=
  t ← buf_wr (pt_base st) (i + 1) 0x0B;
  Ok (mk_patch t (pt_fast st) (pt_slow st + 1)).

(** Is the syscall one whose number can be rewritten in place?  The flags are
    read into a [uint8_t]. *)
Definition fast_path (g_no_fast_path : bool) (bsd_nr : Z) : bool :=
  let linux_nr := bsd_to_linux bsd_nr in
  let flags := u8 (bsd_arg_flags bsd_nr) in
  let needs_translation := has flags (Z.lnot ARG_FORCE_SLOW) in
  let force_slow := has flags ARG_FORCE_SLOW in
  negb g_no_fast_path && (0 <? linux_nr) && negb needs_translation && negb force_slow.

(** The loop body, from the test for 0F 05 on. *)
Definition patch_site (g_no_fast_path : bool) (st : patch_state) (i : Z) : res patch_state :=
  let t := pt_base st in
  b0 ← buf_rd t i;
  if negb (b0 =? 0x0F) then Ok st else
  b1 ← buf_rd t (i + 1);
  if negb (b1 =? 0x05) then Ok st else
  if negb (found_pattern t i) then Ok st else
  match find_mov t (scan_count i) (scan_first i) with
  | None => make_ud2 st i
  | Some m =>
      let bsd_nr := Z.lor (byte_at t (m + 1)) (Z.shiftl (byte_at t (m + 2)) 8) in
      if bsd_nr >=? BSD_SYSCALL_MAX then make_ud2 st i
      else if fast_path g_no_fast_path bsd_nr then
        let linux_nr := bsd_to_linux bsd_nr in
        t ← patch_bytes t (m + 1) [Z.land linux_nr 0xFF; Z.land (Z.shiftr linux_nr 8) 0xFF; 0; 0];
        Ok (mk_patch t (pt_fast st + 1) (pt_slow st))
      else make_ud2 st i
  end.

(** [for (i = range_start; i + 1 < range_end; i++)] in 64 bits. *)
Fixpoint patch_loop (g_no_fast_path : bool) (fuel : nat) (range_end : Z) (i : Z) (st : patch_state)
    : res patch_state :=
  if u64 (i + 1) <? range_end then
    match fuel with
    | O => NoFuel
    | S fuel => st ← patch_site g_no_fast_path st i;
                patch_loop g_no_fast_path fuel range_end (u64 (i + 1)) st
    end
  else Ok st.

Definition range_end_of (vmsize range_start range_len : Z) : Z :=
  let e := u64 (range_start + range_len) in if e >? vmsize then vmsize else e.

Definition patch_syscalls_in_range (g_no_fast_path : bool) (vmsize : Z)
    (range_start range_len : Z) (st : patch_state) : res patch_state :=
  let range_end := range_end_of vmsize range_start range_len in
  patch_loop g_no_fast_path (Z.to_nat range_end) range_end range_start st.

(** ** Go's GS probe *)

Definition gs_head : list Z :=
  [0x65; 0x48; 0xc7; 0x04; 0x25; 0x30; 0x00; 0x00; 0x00; 0x23; 0x01; 0x00; 0x00; 0x48; 0x8b; 0x05].
Definition gs_tail : list Z := [0x48; 0x3d; 0x23; 0x01; 0x00; 0x00; 0x74].
Definition je_off : Z := 26.

Definition gs_probe_at (t : list Z) (i : Z) : bool :=
  bytes_at t i gs_head && bytes_at t (i + 20) gs_tail &&
  (let rel := i8 (byte_at t (i + je_off + 1)) in (0 <? rel) && (rel <=? 16)) &&
  (byte_at t (i + je_off + 2) =? 0xe8).

Fixpoint gs_probe_loop (n : nat) (i : Z) (t : list Z) : res (list Z) :=
  match n with
  | O => Ok t
  | S n => if gs_probe_at t i then patch_bytes t (i + je_off) [0xeb]
           else gs_probe_loop n (i + 1) t
  end.

(** [i + je_off + 2 < vmsize] bounds the number of positions. *)
Definition patch_go_gs_probe (vmsize : Z) (t : list Z) : res (list Z) :=
  gs_probe_loop (Z.to_nat (vmsize - je_off - 2)) 0 t.

(** ** Go's systemstack *)

Definition ss_pattern : list Z :=
  [0x65; 0x48; 0x89; 0x04; 0x25; 0x30; 0x00; 0x00; 0x00; 0x48; 0x8b; 0x60; 0x38; 0x48].

(** The number of CC bytes from [j] on, below [vmsize]; [n] bounds the count. *)
Fixpoint int3_run (t : list Z) (n : nat) (j : Z) : Z :=
  match n with
  | O => 0
  | S n => if byte_at t j =? 0xCC then 1 + int3_run t n (j + 1) else 0
  end.

Fixpoint find_padding (t : list Z) (vmsize : Z) (n : nat) (j : Z) : Z :=
  match n with
  | O => 0
  | S n =>
      if bytes_at t j [0xCC; 0xCC; 0xCC] && (39 <=? int3_run t (Z.to_nat (vmsize - j)) j) then j
      else find_padding t vmsize n (j + 1)
  end.

Fixpoint find_pop_ret (t : list Z) (n : nat) (j : Z) : Z :=
  match n with
  | O => 0
  | S n => if bytes_at t j [0x5d; 0xc3] then j else find_pop_ret t n (j + 1)
  end.

(** An [int32_t] as it is copied into the code. *)
Definition rel32 (z : Z) : list Z := le_bytes 4 z.

Definition trampoline1 (t1_off pop_ret_off : Z) : list Z :=
  [0x48; 0x8b; 0x03] ++ take 9 ss_pattern ++ [0xE9] ++ rel32 (pop_ret_off - (t1_off + 17)) ++
  replicate 5 0x90.

Definition trampoline2 (i t2_off disp : Z) : list Z :=
  take 9 ss_pattern ++ take 4 (drop 9 ss_pattern) ++ [0x48; 0x8b; 0x68; disp] ++ [0xE9] ++
  rel32 ((i + 17) - (t2_off + 22)).

Definition systemstack_patch (i t1_off t2_off : Z) : list Z :=
  [0x48; 0x85; 0xC0; 0x0F; 0x84] ++ rel32 (t1_off - (i + 3 + 6)) ++ [0xE9] ++ rel32 (t2_off - (i + 14)).

Fixpoint systemstack_loop (n : nat) (vmsize i : Z) (t : list Z) : res (list Z) :=
  match n with
  | O => Ok t
  | S n =>
      if negb (bytes_at t i ss_pattern) || negb (bytes_at t (i + 14) [0x8b; 0x68])
      then systemstack_loop n vmsize (i + 1) t else
      let trampoline_off := find_padding t vmsize (Z.to_nat (vmsize - 39 - (i + 20))) (i + 20) in
      if trampoline_off =? 0 then systemstack_loop n vmsize (i + 1) t else
      let pop_ret_off := find_pop_ret t 33 (i + 17) in
      if pop_ret_off =? 0 then systemstack_loop n vmsize (i + 1) t else
      let t1_off := trampoline_off in
      t ← patch_bytes t t1_off (trampoline1 t1_off pop_ret_off);
      let t2_off := trampoline_off + 22 in
      t ← patch_bytes t t2_off (trampoline2 i t2_off (byte_at t (i + 16)));
      patch_bytes t i (systemstack_patch i t1_off t2_off)
  end.

Definition patch_go_systemstack (vmsize : Z) (t : list Z) : res (list Z) :=
  systemstack_loop (Z.to_nat (vmsize - 34)) vmsize 0 t.

(** ** A whole segment *)

Record patch_totals := mk_totals { g_fast_path_sites : Z; g_slow_path_sites : Z }.

Definition code_section_of (seg : loaded_segment) (s : loaded_section) : bool :=
  streq16 (segname s) (seg_name seg) && section_is_code (Some s).

(** The first and the last [mprotect]; 0 or a negative result. *)
Definition patch_syscalls_in_segment (g_no_fast_path : bool) (g_sections : list loaded_section)
    (rwx_ok final_ok : bool) (seg : loaded_segment) (base : list Z) (g : patch_totals)
    : res (Z * loaded_segment * list Z * patch_totals) :=
  if negb (has (prot seg) PROT_EXEC) then Ok (0, seg, base, g) else
  if is_pagezero seg then Ok (0, seg, base, g) else
  if negb rwx_ok then Ok (-1, seg, base, g) else
  let code := List.filter (code_section_of seg) g_sections in
  let st := mk_patch base 0 0 in
  st ← match code with
       | [] => patch_syscalls_in_range g_no_fast_path (vmsize seg) 0 (vmsize seg) st
       | _ => fold_res (fun st s =>
                patch_syscalls_in_range g_no_fast_path (vmsize seg)
                  (u64 (sec_addr s - vmaddr seg)) (sec_size s) st) code st
       end;
  t ← patch_go_systemstack (vmsize seg) (pt_base st);
  t ← patch_go_gs_probe (vmsize seg) t;
  if negb final_ok then Ok (-1, seg, t, g) else
  Ok (pt_fast st + pt_slow st,
      mk_segment (vmaddr seg) (vmsize seg) (target_prot seg) (target_prot seg)
                 (seg_name seg) (is_pagezero seg), t,
      mk_totals (g_fast_path_sites g + pt_fast st) (g_slow_path_sites g + pt_slow st)).

(** ** Lemmas: reads and writes *)

Lemma buf_get_app_r pre l k : 0 <= k -> buf_get (pre ++ l) (buf_len pre + k) = buf_get l k.
Proof.
  intros Hk. unfold buf_get, buf_len.
  pose proof (Zle_0_nat (length pre)).
  replace (Z.of_nat (length pre) + k <? 0) with false by lia. replace (k <? 0) with false by lia.
  rewrite lookup_app_r by lia. f_equal. lia.
Qed.

Lemma byte_at_app_r pre l k : 0 <= k -> byte_at (pre ++ l) (buf_len pre + k) = byte_at l k.
Proof. intros Hk. unfold byte_at. by rewrite buf_get_app_r. Qed.

Lemma buf_wr_app pre b b' post :
  buf_wr (pre ++ b :: post) (buf_len pre) b' = Ok (pre ++ b' :: post).
Proof.
  unfold buf_wr. pose proof (buf_get_app_r pre (b :: post) 0 ltac:(lia)) as E.
  rewrite Z.add_0_r in E. rewrite E. cbn. f_equal. unfold buf_len. rewrite Nat2Z.id.
  rewrite insert_app_r_alt by lia. by rewrite Nat.sub_diag.
Qed.

Lemma patch_bytes_app pre old bs post :
  length old = length bs ->
  patch_bytes (pre ++ old ++ post) (buf_len pre) bs = Ok (pre ++ bs ++ post).
Proof.
  revert pre old. induction bs as [|b bs IH]; intros pre [|o old] Hl; try done. cbn [patch_bytes app].
  rewrite buf_wr_app. cbn. injection Hl as Hl.
  pose proof (IH (pre ++ [b]) old Hl) as E. rewrite <- !app_assoc in E. cbn in E.
  rewrite buf_len_app in E. exact E.
Qed.

Lemma buf_wr_spec t i b :
  0 <= i < buf_len t -> exists t', buf_wr t i b = Ok t' /\ length t' = length t /\
    (forall x, x <> i -> buf_get t' x = buf_get t x) /\
    (Forall is_byte t -> is_byte b -> Forall is_byte t').
Proof.
  unfold buf_len. intros Hi. unfold buf_wr, buf_get. replace (i <? 0) with false by lia.
  destruct (lookup_lt_is_Some_2 t (Z.to_nat i)) as [o Ho]; [lia|]. rewrite Ho.
  eexists. split; [done|]. rewrite length_insert. split; [done|]. split.
  - intros x Hx. destruct (Z.ltb_spec x 0); [done|]. rewrite list_lookup_insert_ne; [done|lia].
  - intros Ht Hb. by apply Forall_insert.
Qed.

Lemma patch_bytes_spec t off bs :
  0 <= off -> off + buf_len bs <= buf_len t ->
  exists t', patch_bytes t off bs = Ok t' /\ length t' = length t /\
    (forall x, x < off \/ off + buf_len bs <= x -> buf_get t' x = buf_get t x) /\
    (Forall is_byte t -> Forall is_byte bs -> Forall is_byte t').
Proof.
  revert t off. induction bs as [|b bs IH]; intros t off Ho Hl; cbn [patch_bytes].
  { exists t. auto. }
  change (b :: bs) with ([b] ++ bs) in Hl |- *. rewrite buf_len_app in Hl |- *.
  change (buf_len [b]) with 1 in Hl |- *. pose proof (buf_len_nonneg bs).
  destruct (buf_wr_spec t off b ltac:(lia)) as (t1 & E1 & L1 & F1 & B1).
  assert (buf_len t1 = buf_len t) as L1' by (unfold buf_len; by rewrite L1).
  destruct (IH t1 (off + 1) ltac:(lia) ltac:(lia)) as (t2 & E2 & L2 & F2 & B2).
  exists t2. cbn. rewrite E1. cbn. split; [exact E2|]. split; [congruence|]. split.
  - intros x Hx. rewrite F2, F1 by lia. done.
  - intros Ht Hbs. inversion Hbs; subst. auto.
Qed.

Lemma buf_rd_spec t i : 0 <= i < buf_len t -> buf_rd t i = Ok (byte_at t i).
Proof.
  unfold buf_len, buf_rd, byte_at, buf_get. intros Hi. replace (i <? 0) with false by lia.
  destruct (lookup_lt_is_Some_2 t (Z.to_nat i)) as [o Ho]; [lia|]. by rewrite Ho.
Qed.

(** ** Lemmas: the scans *)

Lemma find_mov_range t n j m : find_mov t n j = Some m -> j - Z.of_nat n < m <= j.
Proof.
  revert j. induction n as [|n IH]; intros j; cbn [find_mov]; [done|].
  destruct (_ && _); [intros [= <-]; lia|]. intros E%IH. lia.
Qed.

Lemma found_pattern_far t i : 0 <= i -> found_pattern t i = true -> 5 <= i.
Proof.
  intros Hi. unfold found_pattern, scan_first, scan_count, scan_last, scan_first, BACKWARD_SCAN_BYTES.
  destruct (Z.leb_spec 5 i); [done|]. replace (32 <=? i) with false by lia.
  change (Z.to_nat (0 - 0 + 1)) with 1%nat. cbn [scan_pattern].
  replace (0 + 4 <? i) with false by lia. rewrite andb_false_r. cbn [is_go_add andb Z.leb Z.eqb].
  replace (is_go_add t 0) with false by done. by rewrite andb_false_r.
Qed.

Lemma scan_first_first i : 5 <= i -> scan_first i = i - 5.
Proof. intros Hi. unfold scan_first. by replace (5 <=? i) with true by lia. Qed.

Lemma scan_window i : 5 <= i -> i - 32 <= scan_first i - Z.of_nat (scan_count i) + 1 /\ 0 <= scan_last i.
Proof.
  intros Hi. unfold scan_count. rewrite scan_first_first by done. unfold scan_last, BACKWARD_SCAN_BYTES.
  destruct (Z.leb_spec 32 i); lia.
Qed.

Lemma scan_count_pos i : 5 <= i -> exists n, scan_count i = S n.
Proof.
  intros Hi. unfold scan_count. rewrite scan_first_first by done. unfold scan_last, BACKWARD_SCAN_BYTES.
  destruct (Z.leb_spec 32 i); eexists; apply Z2Nat.inj_succ; lia.
Qed.

Lemma find_mov_window t i m :
  5 <= i -> find_mov t (scan_count i) (scan_first i) = Some m -> i - 32 <= m <= i - 5 /\ 0 <= m.
Proof.
  intros Hi E%find_mov_range. destruct (scan_window i Hi) as [Hw Hl]. rewrite scan_first_first in * by done.
  unfold scan_count in *. rewrite scan_first_first in * by done.
  unfold scan_last, BACKWARD_SCAN_BYTES in *. destruct (Z.leb_spec 32 i); lia.
Qed.

Lemma land_ff_byte z : is_byte (Z.land z 0xFF).
Proof.
  unfold is_byte. change 0xFF with (Z.ones 8). rewrite Z.land_ones by lia.
  apply Z.mod_pos_bound. lia.
Qed.

(** What a site may do: change bytes from 31 before it to its last one. *)
Definition site_frame (lo hi : Z) (st st' : patch_state) : Prop :=
  length (pt_base st') = length (pt_base st) /\
  (forall x, x < lo \/ hi <= x -> buf_get (pt_base st') x = buf_get (pt_base st) x) /\
  (Forall is_byte (pt_base st) -> Forall is_byte (pt_base st')) /\
  0 <= pt_fast st' - pt_fast st /\ 0 <= pt_slow st' - pt_slow st /\
  pt_fast st' - pt_fast st + (pt_slow st' - pt_slow st) <= 1.

Lemma make_ud2_frame st i :
  0 <= i -> i + 1 < buf_len (pt_base st) ->
  exists st', make_ud2 st i = Ok st' /\ site_frame (i - 31) (i + 2) st st'.
Proof.
  intros Hi Hl. unfold make_ud2.
  destruct (buf_wr_spec (pt_base st) (i + 1) 0x0B ltac:(lia)) as (t & E & L & F & B).
  rewrite E. cbn. eexists. split; [done|]. unfold site_frame. cbn [pt_base pt_fast pt_slow]. split; [done|]. split; [|split; [|lia]].
  - intros x Hx. apply F. lia.
  - intros Ht. apply B; [done|]. unfold is_byte. lia.
Qed.

Lemma patch_site_frame nofast st i :
  0 <= i -> i + 1 < buf_len (pt_base st) ->
  exists st', patch_site nofast st i = Ok st' /\ site_frame (i - 31) (i + 2) st st'.
Proof.
  intros Hi Hl.
  assert (exists st', Ok st = Ok st' /\ site_frame (i - 31) (i + 2) st st') as Hsame.
  { exists st. unfold site_frame. repeat split; auto; lia. }
  unfold patch_site. rewrite !buf_rd_spec by lia. cbn [mbind res_bind].
  destruct (negb _); [done|]. destruct (negb _); [done|].
  destruct (found_pattern (pt_base st) i) eqn:Ef; [cbn [negb]|done].
  apply found_pattern_far in Ef; [|done].
  destruct (find_mov _ _ _) as [m|] eqn:Em; [|by apply make_ud2_frame].
  destruct (_ >=? _); [by apply make_ud2_frame|].
  destruct (fast_path _ _); [|by apply make_ud2_frame].
  apply find_mov_window in Em as [Hm Hm0]; [|done].
  cbv zeta. match goal with |- context [patch_bytes _ _ ?bs] => set (imm := bs) end.
  destruct (patch_bytes_spec (pt_base st) (m + 1) imm)
    as (t & E & L & F & B); [lia|unfold buf_len at 1; cbn; lia|].
  rewrite E. cbn. eexists. split; [done|]. unfold site_frame. cbn [pt_base pt_fast pt_slow]. split; [done|]. split; [|split; [|lia]].
  - intros x Hx. apply F. unfold buf_len at 1. cbn. lia.
  - intros Ht. apply B; [done|]. unfold imm. repeat constructor; try apply land_ff_byte; unfold is_byte; lia.
Qed.

Lemma patch_loop_frame nofast fuel : forall e i st,
  0 <= i < 2 ^ 64 - 1 -> e <= buf_len (pt_base st) -> e < 2 ^ 64 -> e <= i + Z.of_nat fuel + 1 ->
  exists st', patch_loop nofast fuel e i st = Ok st' /\
    length (pt_base st') = length (pt_base st) /\
    (forall x, x < i - 31 \/ e <= x -> buf_get (pt_base st') x = buf_get (pt_base st) x) /\
    (Forall is_byte (pt_base st) -> Forall is_byte (pt_base st')) /\
    0 <= pt_fast st' - pt_fast st /\ 0 <= pt_slow st' - pt_slow st /\
    pt_fast st' - pt_fast st + (pt_slow st' - pt_slow st) <= Z.max 0 (e - 1 - i).
Proof.
  induction fuel as [|fuel IH]; intros e i st Hi He He2 Hf; cbn [patch_loop];
    rewrite u64_small by lia; destruct (Z.ltb_spec (i + 1) e).
  - lia.
  - exists st. repeat split; auto; lia.
  - destruct (patch_site_frame nofast st i ltac:(lia) ltac:(lia)) as (st1 & E1 & L1 & F1 & B1 & Ha1 & Hb1 & Hc1).
    rewrite E1. cbn [mbind res_bind].
    destruct (IH e (i + 1) st1) as (st2 & E2 & L2 & F2 & B2 & Ha2 & Hb2 & Hc2); [lia|unfold buf_len in *; rewrite L1; lia|lia|lia|].
    exists st2. split; [exact E2|]. split; [congruence|]. split.
    { intros x Hx. rewrite F2, F1 by lia. done. }
    split; [auto|]. lia.
  - exists st. repeat split; auto; lia.
Qed.

(** ** Lemmas: one site in context *)

Definition rex_ended (pre : list Z) : bool := rex_before pre (buf_len pre).

Lemma byte_at_app_l pre l i : i < buf_len pre -> byte_at (pre ++ l) i = byte_at pre i.
Proof.
  unfold byte_at, buf_get, buf_len. intros Hi. destruct (Z.ltb_spec i 0); [done|].
  by rewrite lookup_app_l by lia.
Qed.

Lemma rex_before_app pre l : rex_before (pre ++ l) (buf_len pre) = rex_ended pre.
Proof.
  unfold rex_ended, rex_before. by rewrite byte_at_app_l by lia.
Qed.

Lemma patch_site_skip nofast st i :
  0 <= i -> i + 1 < buf_len (pt_base st) ->
  byte_at (pt_base st) i <> 0x0F \/ byte_at (pt_base st) (i + 1) <> 0x05 ->
  patch_site nofast st i = Ok st.
Proof.
  intros Hi Hl Hb. unfold patch_site. rewrite !buf_rd_spec by lia. cbn [mbind res_bind].
  destruct (Z.eqb_spec (byte_at (pt_base st) i) 0x0F); [|done]. cbn [negb].
  destruct (Z.eqb_spec (byte_at (pt_base st) (i + 1)) 0x05); [|done]. lia.
Qed.

(** [mov eax, class << 24 | nr], and the syscall instruction. *)
Definition mov_eax (class nr : Z) : list Z := 0xB8 :: le_bytes 4 (class * 2 ^ 24 + nr).
Definition syscall_insn : list Z := [0x0F; 0x05].

Lemma mov_eax_bytes class nr :
  0 <= class < 256 -> 0 <= nr < 65536 ->
  mov_eax class nr = [0xB8; nr mod 256; nr / 256; 0; class].
Proof.
  intros Hc Hn. unfold mov_eax. f_equal.
  pose proof (Z.div_mod nr 256 ltac:(lia)). pose proof (Z.mod_pos_bound nr 256 ltac:(lia)).
  rewrite <- (le_bytes_value [nr mod 256; nr / 256; 0; class]).
  - cbn [length le_value]. f_equal. lia.
  - repeat constructor; unfold is_byte; lia.
Qed.

Lemma nr_of_bytes nr : 0 <= nr < 65536 -> Z.lor (nr mod 256) (Z.shiftl (nr / 256) 8) = nr.
Proof.
  intros Hn. pose proof (Z.div_mod nr 256 ltac:(lia)). pose proof (Z.mod_pos_bound nr 256 ltac:(lia)).
  rewrite Z.shiftl_mul_pow2, lor_add_high by lia. change (2 ^ 8) with 256. lia.
Qed.

(** Sites that do nothing are passed over. *)
Lemma patch_loop_skip nofast e st n : forall fuel i,
  0 <= i -> i + Z.of_nat n < e -> e < 2 ^ 64 ->
  (forall k, 0 <= k < Z.of_nat n -> patch_site nofast st (i + k) = Ok st) ->
  patch_loop nofast (n + fuel) e i st = patch_loop nofast fuel e (i + Z.of_nat n) st.
Proof.
  induction n as [|n IH]; intros fuel i Hi He H64 Hs; [by rewrite Z.add_0_r|].
  cbn [Nat.add patch_loop]. rewrite u64_small by lia.
  destruct (Z.ltb_spec (i + 1) e); [|lia].
  pose proof (Hs 0 ltac:(lia)) as H0. rewrite Z.add_0_r in H0. rewrite H0. cbn [mbind res_bind].
  rewrite IH; [f_equal; lia|lia|lia|lia|].
  intros k Hk. rewrite <- Z.add_assoc. apply Hs. lia.
Qed.

(** The loop over exactly [mov eax, imm; syscall] acts only at the syscall. *)
Lemma patch_range_one nofast vmsize class nr pre post f s :
  0 <= class < 256 -> class <> 0x0F -> 0 <= nr < BSD_SYSCALL_MAX ->
  let t := pre ++ mov_eax class nr ++ syscall_insn ++ post in
  buf_len t <= vmsize -> vmsize < 2 ^ 64 ->
  patch_syscalls_in_range nofast vmsize (buf_len pre) 7 (mk_patch t f s) =
  patch_site nofast (mk_patch t f s) (buf_len pre + 5).
Proof.
  intros Hc Hc0 Hn t Hl Hv. unfold BSD_SYSCALL_MAX in Hn.
  unfold patch_syscalls_in_range, range_end_of.
  assert (nr / 256 < 3) as Hhi by (apply Z.div_lt_upper_bound; lia).
  assert (0 <= nr / 256) by (apply Z.div_pos; lia).
  unfold t in *. rewrite mov_eax_bytes in * by lia.
  rewrite buf_len_app in Hl. pose proof (buf_len_nonneg pre). pose proof (buf_len_nonneg post).
  assert (buf_len ([184; nr mod 256; nr / 256; 0; class] ++ syscall_insn ++ post) = 7 + buf_len post) as E7
    by (unfold buf_len; cbn; lia).
  rewrite E7 in Hl.
  rewrite (u64_small (buf_len pre + 7)) by lia. replace (buf_len pre + 7 >? vmsize) with false by lia.
  replace (Z.to_nat (buf_len pre + 7)) with (7 + Z.to_nat (buf_len pre))%nat by lia.
  set (tt := [184; nr mod 256; nr / 256; 0; class] ++ syscall_insn ++ post) in *.
  assert (forall k, 0 <= k -> byte_at (pre ++ tt) (buf_len pre + k) = byte_at tt k) as Hb
    by (intros; by apply byte_at_app_r).
  assert (buf_len (pre ++ tt) = buf_len pre + 7 + buf_len post) as Hlen
    by (rewrite buf_len_app; lia).
  assert (forall k, 0 <= k < 5 -> patch_site nofast (mk_patch (pre ++ tt) f s) (buf_len pre + k) =
    Ok (mk_patch (pre ++ tt) f s)) as Hskip.
  { assert (byte_at tt 0 = 184 /\ byte_at tt 2 = nr / 256 /\ byte_at tt 3 = 0 /\ byte_at tt 4 = class)
      as (B0 & B2 & B3 & B4) by done.
    intros k Hk. apply patch_site_skip; cbn [pt_base]; [lia|lia|].
    rewrite Hb by lia. rewrite <- Z.add_assoc, Hb by lia.
    assert (k = 0 \/ k = 1 \/ k = 2 \/ k = 3 \/ k = 4) as [->|[->|[->|[->| ->]]]] by lia;
      [left; lia|right; change (1 + 1) with 2; lia|left; lia..]. }
  change (7 + Z.to_nat (buf_len pre))%nat with (5 + (2 + Z.to_nat (buf_len pre)))%nat.
  rewrite patch_loop_skip by (done || lia). cbn [Nat.add patch_loop].
  change (Z.of_nat 5) with 5. rewrite (u64_small (buf_len pre + 5 + 1)) by lia.
  destruct (Z.ltb_spec (buf_len pre + 5 + 1) (buf_len pre + 7)); [|lia].
  destruct (patch_site nofast _ (buf_len pre + 5)); [cbn [mbind res_bind]|done|done].
  rewrite u64_small by lia. destruct (Z.ltb_spec (buf_len pre + 5 + 1 + 1) (buf_len pre + 7)); [lia|done].
Qed.

Lemma scan_pattern_none t i n : forall j,
  0 <= j - Z.of_nat n + 1 ->
  (forall x, j - Z.of_nat n < x <= j -> is_mov t x = false /\ byte_at t x <> 0x48) ->
  scan_pattern t i n j = false.
Proof.
  induction n as [|n IH]; intros j Hj Hx; [done|]. cbn [scan_pattern].
  destruct (Hx j ltac:(lia)) as [Hm Hg]. rewrite Hm. cbn [andb].
  replace (is_go_add t j) with false.
  2:{ symmetry. unfold is_go_add. cbn [bytes_at]. replace (byte_at t j =? 0x48) with false by lia.
      cbn. apply andb_false_r. }
  destruct (Z.eqb_spec j 0); [done|]. apply IH; [lia|]. intros x Hxx. apply Hx. lia.
Qed.

Lemma is_mov_at pre class nr rest :
  0 <= class < 256 -> 0 <= nr < 65536 ->
  is_mov (pre ++ mov_eax class nr ++ rest) (buf_len pre) = (class =? 0x20).
Proof.
  intros Hc Hn. rewrite mov_eax_bytes by done. unfold is_mov.
  rewrite !byte_at_app_r by lia.
  pose proof (byte_at_app_r pre ([184; nr mod 256; nr / 256; 0; class] ++ rest) 0 ltac:(lia)) as B0.
  rewrite Z.add_0_r in B0. rewrite B0. done.
Qed.

(** No flag of the table is lost in the [uint8_t]: the calls whose number is
    rewritten are those without flags that have a positive Linux number. *)
Lemma fast_path_spec {A} nofast nr (x y : A) :
  0 <= nr < BSD_SYSCALL_MAX ->
  (if fast_path nofast nr then x else y) =
  if decide (nofast = false /\ bsd_arg_flags nr = 0 /\ 0 < bsd_to_linux nr) then x else y.
Proof.
  unfold BSD_SYSCALL_MAX. intros Hn.
  pose proof (range_forallb (fun nr => Bool.eqb (fast_path false nr)
    ((bsd_arg_flags nr =? 0) && (0 <? bsd_to_linux nr))) 0 600 ltac:(vm_compute; reflexivity) nr ltac:(lia)) as C.
  cbv beta in C. apply Bool.eqb_prop in C. destruct nofast.
  - rewrite decide_False by (by intros [? _]). done.
  - rewrite C. destruct (Z.eqb_spec (bsd_arg_flags nr) 0), (Z.ltb_spec 0 (bsd_to_linux nr)); cbn [andb].
    + by rewrite decide_True.
    + rewrite decide_False by lia. done.
    + rewrite decide_False by tauto. done.
    + rewrite decide_False by tauto. done.
Qed.

(** A recognised site: what the patcher makes of it. *)
Lemma patch_site_mov nofast pre nr post f s :
  0 <= nr < BSD_SYSCALL_MAX -> rex_ended pre = false ->
  patch_site nofast (mk_patch (pre ++ mov_eax 0x20 nr ++ syscall_insn ++ post) f s) (buf_len pre + 5) =
  if fast_path nofast nr
  then Ok (mk_patch (pre ++ mov_eax 0 (bsd_to_linux nr) ++ syscall_insn ++ post) (f + 1) s)
  else Ok (mk_patch (pre ++ mov_eax 0x20 nr ++ [0x0F; 0x0B] ++ post) f (s + 1)).
Proof.
  unfold BSD_SYSCALL_MAX. intros Hn Hrex. pose proof (buf_len_nonneg pre) as Hp.
  set (rest := syscall_insn ++ post). set (t := pre ++ mov_eax 0x20 nr ++ rest).
  set (i := buf_len pre + 5).
  assert (scan_first i = buf_len pre) as Hfirst by (unfold i; rewrite scan_first_first by lia; lia).
  destruct (scan_count_pos i ltac:(lia)) as [n Hcount].
  assert (is_mov t (buf_len pre) = true) as Hmov by (unfold t; by rewrite is_mov_at by lia).
  assert (rex_before t (buf_len pre) = false) as Hr by (unfold t; by rewrite rex_before_app).
  assert (found_pattern t i = true) as Hfound.
  { unfold found_pattern. rewrite Hfirst, Hcount. cbn [scan_pattern]. rewrite Hmov, Hr.
    unfold i. replace (buf_len pre <? buf_len pre + 5) with true by lia.
    by replace (buf_len pre + 4 <? buf_len pre + 5) with true by lia. }
  assert (find_mov t (scan_count i) (scan_first i) = Some (buf_len pre)) as Hfind.
  { rewrite Hfirst, Hcount. cbn [find_mov]. by rewrite Hmov, Hr. }
  assert (forall k, 0 <= k -> byte_at t (buf_len pre + k) = byte_at (mov_eax 0x20 nr ++ rest) k) as Hb
    by (intros; unfold t; by apply byte_at_app_r).
  assert (buf_len t = buf_len pre + 7 + buf_len post) as Hlen.
  { unfold t, rest. rewrite !buf_len_app. unfold mov_eax, buf_len. cbn. lia. }
  pose proof (buf_len_nonneg post).
  rewrite mov_eax_bytes in Hb by lia.
  assert (buf_rd t i = Ok 0x0F) as R0 by (unfold i; rewrite buf_rd_spec, Hb by lia; done).
  assert (buf_rd t (i + 1) = Ok 0x05) as R1.
  { replace (i + 1) with (buf_len pre + 6) by (unfold i; lia). rewrite buf_rd_spec, Hb by lia. done. }
  assert (Z.lor (byte_at t (buf_len pre + 1)) (Z.shiftl (byte_at t (buf_len pre + 2)) 8) = nr) as Hnr.
  { rewrite !Hb by lia. apply nr_of_bytes. lia. }
  unfold patch_site. cbn [pt_base pt_fast pt_slow]. rewrite R0. cbn [mbind res_bind Z.eqb Pos.eqb negb].
  rewrite R1. cbn [mbind res_bind Z.eqb Pos.eqb negb]. rewrite Hfound, Hfind. cbn [negb]. cbv zeta.
  rewrite Hnr. replace (nr >=? BSD_SYSCALL_MAX) with false by (unfold BSD_SYSCALL_MAX; lia).
  destruct (fast_path nofast nr).
  - assert (t = (pre ++ [0xB8]) ++ [nr mod 256; nr / 256; 0; 0x20] ++ rest) as ->.
    { unfold t. rewrite mov_eax_bytes by lia. by rewrite <- app_assoc. }
    assert (buf_len pre + 1 = buf_len (pre ++ [0xB8])) as -> by by rewrite buf_len_app.
    rewrite patch_bytes_app by done. cbn [mbind res_bind]. rewrite <- app_assoc.
    pose proof (bsd_to_linux_range nr) as Hlr.
    rewrite (mov_eax_bytes 0 (bsd_to_linux nr)) by lia.
    change 255 with (Z.ones 8). rewrite !Z.land_ones, Z.shiftr_div_pow2 by lia.
    rewrite (Z.mod_small (_ / 2 ^ 8)); [done|].
    split; [apply Z.div_pos; lia|]. apply Z.div_lt_upper_bound; lia.
  - unfold make_ud2. cbn [pt_base pt_fast pt_slow].
    assert (t = (pre ++ mov_eax 0x20 nr ++ [0x0F]) ++ [0x05] ++ post) as ->.
    { unfold t, rest, syscall_insn. by rewrite <- !app_assoc. }
    assert (i + 1 = buf_len (pre ++ mov_eax 0x20 nr ++ [0x0F])) as ->.
    { rewrite !buf_len_app. unfold i, mov_eax, buf_len. cbn. lia. }
    cbn [app]. rewrite buf_wr_app. cbn [mbind res_bind]. by rewrite <- !app_assoc.
Qed.

(** ** Properties *)

(** C20 (functional): the code [mov eax, 0x20000000 + nr; syscall] (the form
    the patcher looks for; a macOS program has 0x02000000, which it leaves
    alone, [real_syscall_class_not_patched]), after bytes that do not end in a REX prefix: the
    scan of these seven bytes rewrites the number in place to the Linux one
    exactly when the fast path is not disabled, the table has no argument
    flags for the call and gives it a positive Linux number; otherwise it
    turns the instruction into UD2, which includes read, whose Linux number is
    0 ([read_site_not_rewritten]); nothing else changes and the site is
    counted once. *)
Theorem patch_range_patches_site
    (nofast : bool) (vmsize nr f s : Z) (pre post : list Z) :
  0 <= nr < BSD_SYSCALL_MAX -> rex_ended pre = false ->
  buf_len (pre ++ mov_eax 0x20 nr ++ syscall_insn ++ post) <= vmsize < 2 ^ 64 ->
  patch_syscalls_in_range nofast vmsize (buf_len pre) 7
    (mk_patch (pre ++ mov_eax 0x20 nr ++ syscall_insn ++ post) f s) =
  if decide (nofast = false /\ bsd_arg_flags nr = 0 /\ 0 < bsd_to_linux nr)
  then Ok (mk_patch (pre ++ mov_eax 0 (bsd_to_linux nr) ++ syscall_insn ++ post) (f + 1) s)
  else Ok (mk_patch (pre ++ mov_eax 0x20 nr ++ [0x0F; 0x0B] ++ post) f (s + 1)).
Proof.
  intros Hn Hrex Hv. rewrite patch_range_one by (lia || done). rewrite patch_site_mov by done.
  by rewrite fast_path_spec by done.
Qed.

Lemma patch_range_patches_site_witness :
  (* write(2): fast; open(2): needs its flags translated *)
  patch_syscalls_in_range false 100 (buf_len [0x90]) 7
    (mk_patch ([0x90] ++ mov_eax 0x20 4 ++ syscall_insn ++ [0xC3]) 0 0) =
    Ok (mk_patch ([0x90] ++ mov_eax 0 SYS_write ++ syscall_insn ++ [0xC3]) 1 0) /\
  patch_syscalls_in_range false 100 (buf_len [0x90]) 7
    (mk_patch ([0x90] ++ mov_eax 0x20 5 ++ syscall_insn ++ [0xC3]) 0 0) =
    Ok (mk_patch ([0x90] ++ mov_eax 0x20 5 ++ [0x0F; 0x0B] ++ [0xC3]) 0 1).
Proof.
  split; rewrite patch_range_patches_site; try reflexivity; vm_compute; split; discriminate || reflexivity.
Defined.

(** read needs no translation and has the Linux number 0, which the test for
    an untranslated call takes for a missing one: its sites are turned into
    UD2 like those of the calls that need the slow path. *)
Theorem read_site_not_rewritten (vmsize f s : Z) (pre post : list Z) :
  rex_ended pre = false ->
  buf_len (pre ++ mov_eax 0x20 3 ++ syscall_insn ++ post) <= vmsize < 2 ^ 64 ->
  bsd_arg_flags 3 = 0 /\ bsd_to_linux 3 = SYS_read /\
  patch_syscalls_in_range false vmsize (buf_len pre) 7
    (mk_patch (pre ++ mov_eax 0x20 3 ++ syscall_insn ++ post) f s) =
  Ok (mk_patch (pre ++ mov_eax 0x20 3 ++ [0x0F; 0x0B] ++ post) f (s + 1)).
Proof.
  intros Hrex Hv. split; [reflexivity|]. split; [reflexivity|].
  rewrite patch_range_one by (lia || done). by rewrite patch_site_mov by done.
Qed.

Lemma read_site_not_rewritten_witness :
  patch_syscalls_in_range false 100 (buf_len [0x90]) 7
    (mk_patch ([0x90] ++ mov_eax 0x20 3 ++ syscall_insn ++ [0xC3]) 0 0) =
  Ok (mk_patch ([0x90] ++ mov_eax 0x20 3 ++ [0x0F; 0x0B] ++ [0xC3]) 0 1).
Proof.
  apply read_site_not_rewritten; [reflexivity|]. vm_compute. split; discriminate || reflexivity.
Defined.

(** The class of a BSD syscall is 2 (the number is
    0x2000000 + nr, as syscall_table.c says), but the pattern asks for a top
    byte of 0x20: the instruction pair a macOS program contains is not
    recognised, and the scan leaves it as a raw Linux syscall. *)
Theorem real_syscall_class_not_patched
    (nofast : bool) (vmsize nr f s : Z) (pre post : list Z) :
  0 <= nr < BSD_SYSCALL_MAX -> Forall (fun b => b <> 0xB8 /\ b <> 0x48) pre ->
  buf_len (pre ++ mov_eax 0x02 nr ++ syscall_insn ++ post) <= vmsize < 2 ^ 64 ->
  patch_syscalls_in_range nofast vmsize (buf_len pre) 7
    (mk_patch (pre ++ mov_eax 0x02 nr ++ syscall_insn ++ post) f s) =
  Ok (mk_patch (pre ++ mov_eax 0x02 nr ++ syscall_insn ++ post) f s).
Proof.
  intros Hn Hpre Hv. rewrite patch_range_one by (lia || done). unfold BSD_SYSCALL_MAX in Hn.
  set (rest := syscall_insn ++ post). set (t := pre ++ mov_eax 0x02 nr ++ rest).
  pose proof (buf_len_nonneg pre). pose proof (buf_len_nonneg post).
  assert (buf_len t = buf_len pre + 7 + buf_len post) as Hlen.
  { unfold t, rest. rewrite !buf_len_app. unfold mov_eax, buf_len. cbn. lia. }
  assert (found_pattern t (buf_len pre + 5) = false) as Hf.
  { unfold found_pattern. rewrite scan_pattern_none; [apply andb_false_r|..].
    - unfold scan_count, scan_first, scan_last, BACKWARD_SCAN_BYTES.
      replace (5 <=? buf_len pre + 5) with true by lia.
      destruct (Z.leb_spec 32 (buf_len pre + 5)); lia.
    - rewrite scan_first_first by lia. intros x Hx.
      assert (buf_len pre + 5 - 5 = buf_len pre) as E5 by lia. rewrite E5 in Hx.
      destruct (Z.eq_dec x (buf_len pre)) as [->|Hne].
      + split; [unfold t; by rewrite is_mov_at by lia|].
        pose proof (byte_at_app_r pre (mov_eax 2 nr ++ rest) 0 ltac:(lia)) as B0.
        rewrite Z.add_0_r in B0. unfold t. rewrite B0. discriminate.
      + destruct (Z.ltb_spec x 0) as [Hneg|Hpos].
        { unfold is_mov, byte_at, buf_get. replace (x <? 0) with true by lia. split; [done|discriminate]. }
        unfold is_mov. unfold t. rewrite !(byte_at_app_l pre _ x) by lia.
        assert (exists b, pre !! Z.to_nat x = Some b) as [b Eb]
          by (apply lookup_lt_is_Some_2; unfold buf_len in *; lia).
        pose proof (Forall_lookup_1 _ _ _ _ Hpre Eb) as [H1 H2].
        assert (byte_at pre x = b) as -> by
          (unfold byte_at, buf_get; replace (x <? 0) with false by lia; by rewrite Eb).
        by replace (b =? 0xB8) with false by lia. }
  unfold patch_site. cbn [pt_base]. fold rest t. rewrite !buf_rd_spec by lia. cbn [mbind res_bind].
  destruct (negb _); [done|]. destruct (negb _); [done|]. by rewrite Hf.
Qed.

Lemma real_syscall_class_not_patched_witness :
  patch_syscalls_in_range false 100 (buf_len [0x90]) 7
    (mk_patch ([0x90] ++ [0xB8; 4; 0; 0; 2] ++ [0x0F; 0x05] ++ [0xC3]) 0 0) =
  Ok (mk_patch ([0x90] ++ [0xB8; 4; 0; 0; 2] ++ [0x0F; 0x05] ++ [0xC3]) 0 0).
Proof.
  apply (real_syscall_class_not_patched false 100 4 0 0 [0x90] [0xC3]).
  - unfold BSD_SYSCALL_MAX. lia.
  - repeat constructor; discriminate.
  - vm_compute. split; [discriminate|reflexivity].
Defined.

(** Scanning any range of a segment, whatever its bytes,
    returns without touching anything outside the segment: the length is
    kept, bytes stay bytes, only bytes from 31 before the range up to its end
    can change, and no more sites are counted than there are positions. *)
Theorem patch_range_safe (nofast : bool) (vmsize range_start range_len : Z) (st : patch_state) :
  0 <= range_start < 2 ^ 64 - 1 -> 0 <= vmsize < 2 ^ 64 -> vmsize <= buf_len (pt_base st) ->
  let e := range_end_of vmsize range_start range_len in
  exists st', patch_syscalls_in_range nofast vmsize range_start range_len st = Ok st' /\
    length (pt_base st') = length (pt_base st) /\
    (forall x, x < range_start - 31 \/ e <= x ->
       buf_get (pt_base st') x = buf_get (pt_base st) x) /\
    (Forall is_byte (pt_base st) -> Forall is_byte (pt_base st')) /\
    0 <= pt_fast st' - pt_fast st /\ 0 <= pt_slow st' - pt_slow st /\
    pt_fast st' - pt_fast st + (pt_slow st' - pt_slow st) <= Z.max 0 (e - 1 - range_start).
Proof.
  intros Hs Hv Hl e. unfold patch_syscalls_in_range. fold e.
  assert (0 <= e <= vmsize) as He.
  { unfold e, range_end_of. pose proof (u64_range (range_start + range_len)).
    destruct (_ >? _) eqn:E; bool_to_prop; lia. }
  apply patch_loop_frame; lia.
Qed.

Lemma patch_range_safe_witness :
  exists st', patch_syscalls_in_range false 3 1 10 (mk_patch [0x0F; 0x0F; 0x05] 0 0) = Ok st' /\
    length (pt_base st') = 3%nat.
Proof.
  destruct (patch_range_safe false 3 1 10 (mk_patch [0x0F; 0x0F; 0x05] 0 0)) as (st' & E & L & _).
  - lia.
  - lia.
  - vm_compute. discriminate.
  - exists st'. split; [exact E|exact L].
Defined.

Lemma rel32_back z : - 2 ^ 31 <= z < 2 ^ 31 -> i32 (le_value (rel32 z)) = z.
Proof.
  intros Hz. unfold rel32, i32. rewrite le_value_bytes. unfold signed. rewrite Z.mod_mod by lia.
  change (signed 32 z = z). by apply signed_small.
Qed.

(** The target of the jump whose displacement is the four bytes at [off]
    of code placed at [at_]. *)
Definition jump_target (at_ : Z) (code : list Z) (off : Z) : Z :=
  at_ + off + 4 + i32 (le_value (take 4 (drop (Z.to_nat off) code))).

(** The code written for systemstack jumps where it should:
    the 14-byte patch goes to the two trampolines, the first trampoline to
    the [pop rbp; ret], the second back to the instruction after the patched
    ones; the three pieces have the lengths the offsets assume. *)
Theorem systemstack_jumps (i t1_off pop_ret_off disp : Z) :
  0 <= i < 2 ^ 30 -> 0 <= t1_off < 2 ^ 30 -> 0 <= pop_ret_off < 2 ^ 30 ->
  let t2_off := t1_off + 22 in
  let p := systemstack_patch i t1_off t2_off in
  length p = 14%nat /\ length (trampoline1 t1_off pop_ret_off) = 22%nat /\
  length (trampoline2 i t2_off disp) = 22%nat /\
  jump_target i p 5 = t1_off /\ jump_target i p 10 = t2_off /\
  jump_target t1_off (trampoline1 t1_off pop_ret_off) 13 = pop_ret_off /\
  jump_target t2_off (trampoline2 i t2_off disp) 18 = i + 17.
Proof.
  intros Hi Ht Hp t2_off p. split; [done|]. split; [done|]. split; [done|].
  unfold p, jump_target.
  change (take 4 (drop (Z.to_nat 5) (systemstack_patch i t1_off t2_off))) with (rel32 (t1_off - (i + 3 + 6))).
  change (take 4 (drop (Z.to_nat 10) (systemstack_patch i t1_off t2_off))) with (rel32 (t2_off - (i + 14))).
  change (take 4 (drop (Z.to_nat 13) (trampoline1 t1_off pop_ret_off)))
    with (rel32 (pop_ret_off - (t1_off + 17))).
  change (take 4 (drop (Z.to_nat 18) (trampoline2 i t2_off disp))) with (rel32 ((i + 17) - (t2_off + 22))).
  unfold t2_off. rewrite !rel32_back by lia. lia.
Qed.

Lemma systemstack_jumps_witness :
  jump_target 100 (systemstack_patch 100 500 522) 5 = 500 /\
  jump_target 522 (trampoline2 100 522 0x60) 18 = 117.
Proof.
  destruct (systemstack_jumps 100 500 150 0x60) as (_ & _ & _ & H1 & _ & _ & H2); [lia|lia|lia|].
  split; [exact H1|exact H2].
Defined.

(** A systemstack body, then exactly 39 bytes of padding, then a function
    whose first bytes are 55 48 89 E5 C3. *)
Definition tight_text : list Z :=
  ss_pattern ++ [0x8b; 0x68; 0x60] ++ [0x5d; 0xc3] ++ [0x90] ++ replicate 39 0xCC ++
  [0x55; 0x48; 0x89; 0xE5; 0xC3] ++ replicate 4 0x90.

(** The padding search accepts 39 bytes (17 + 22), but the two
    trampolines are written with 22 bytes each: with exactly 39 bytes of
    padding the first five bytes of the code after it are overwritten. *)
Theorem systemstack_overwrites_code :
  exists t', patch_go_systemstack (buf_len tight_text) tight_text = Ok t' /\
    take 5 (drop 59 tight_text) = [0x55; 0x48; 0x89; 0xE5; 0xC3] /\
    take 5 (drop 59 t') = 0xE9 :: rel32 (17 - (20 + 22 + 22)).
Proof.
  eexists. split; [vm_compute; reflexivity|]. split; vm_compute; reflexivity.
Qed.
