(* ===== verification/SlowPath.v ===== *)
(** * The SIGILL slow path (src/src/syscall/sigill_handler.c)

    The handler that runs for every syscall turned into UD2: number lookup,
    argument translation, the raw Linux call and the conversion of its
    result.  Registers are [long] values; the kernel is a parameter, a
    function from the number, the arguments and the memory to the result and
    the memory it leaves.  The handler's static buffers live at addresses of
    the same memory.  Tracing is left out. *)
From Stdlib Require Import ZArith Lia Bool.
From stdpp Require Import base gmap list strings numbers pretty.
From S2P Require Import Prelude SyscallTable.

(** The registers the handler reads or writes. *)
Record regs := mk_regs {
  rax : Z; rdi : Z; rsi : Z; rdx : Z; r10 : Z; r8 : Z; r9 : Z; efl : Z; rip : Z
}.

(** What one invocation does: resume the guest, with the [errno] set if it
    was, or end the process. *)
Inductive outcome :=
| Resume (r : regs) (errno : option Z) (m : mem)
| ExitProcess (code : Z).

(** The kernel and the environment of the handler. *)
Record handler_env := mk_env {
  raw_syscall : Z -> list Z -> mem -> Z * mem;
  lenient : bool;                  (* MACIFY_LENIENT_SYSCALLS *)
  g_tls_g_addr : Z;                (* non-zero for Go binaries *)
  go_signal_wrapper : Z;           (* 0 when not resolved *)
  saved_go_handlers : Z;
  linux_sa : Z; linux_old_sa : Z;  (* static buffers *)
  linux_set : Z; linux_oset : Z;
  linux_ss : Z; linux_oss : Z;
  fallback_sigstack : Z;
  kpath : Z
}.

Definition set_result (r : regs) (result : Z) (err : bool) : regs :=
  mk_regs result (rdi r) (rsi r) (rdx r) (r10 r) (r8 r) (r9 r)
    (if err then Z.lor (efl r) 1 else Z.land (efl r) (Z.lnot 1)) (rip r + 2).

Definition is_error (result : Z) : bool := (result <? 0) && (result >? -4096).

Definition finish_slow_result (r : regs) (result : Z) (m : mem) : outcome :=
  let err := is_error result in
  Resume (set_result r (if err then -1 else result) err)
         (if err then Some (i32 (- result)) else None) m.

(** The local variables of the handler. *)
Record hs := mk_hs {
  a1 : Z; a2 : Z; a3 : Z; a4 : Z; a5 : Z; a6 : Z; h_mem : mem;
  save_oset : Z; save_oss : Z; save_oldact : Z
}.

Inductive stage :=
| Next (h : hs)
| Finish (o : outcome).

Definition set_a1 (h : hs) (v : Z) : hs :=
  mk_hs v (a2 h) (a3 h) (a4 h) (a5 h) (a6 h) (h_mem h) (save_oset h) (save_oss h) (save_oldact h).
Definition set_a2 (h : hs) (v : Z) : hs :=
  mk_hs (a1 h) v (a3 h) (a4 h) (a5 h) (a6 h) (h_mem h) (save_oset h) (save_oss h) (save_oldact h).
Definition set_a3 (h : hs) (v : Z) : hs :=
  mk_hs (a1 h) (a2 h) v (a4 h) (a5 h) (a6 h) (h_mem h) (save_oset h) (save_oss h) (save_oldact h).
Definition set_a4 (h : hs) (v : Z) : hs :=
  mk_hs (a1 h) (a2 h) (a3 h) v (a5 h) (a6 h) (h_mem h) (save_oset h) (save_oss h) (save_oldact h).
Definition set_mem (h : hs) (m : mem) : hs :=
  mk_hs (a1 h) (a2 h) (a3 h) (a4 h) (a5 h) (a6 h) m (save_oset h) (save_oss h) (save_oldact h).
Definition set_saves (h : hs) (oset oss oldact : Z) : hs :=
  mk_hs (a1 h) (a2 h) (a3 h) (a4 h) (a5 h) (a6 h) (h_mem h) oset oss oldact.

(** ** Simple argument translations *)

Definition translate_open (flags : Z) (h : hs) : hs :=
  if has flags ARG_OPEN_FLAGS then set_a2 h (translate_open_flags (i32 (a2 h))) else h.
Definition translate_mmap (flags : Z) (h : hs) : hs :=
  if has flags ARG_MMAP_FLAGS then set_a4 h (translate_mmap_flags (i32 (a4 h))) else h.
Definition translate_kill (flags : Z) (h : hs) : hs :=
  if has flags ARG_KILL_SIGNAL then set_a2 h (translate_kill_signal (i32 (a2 h))) else h.
Definition translate_advice (flags : Z) (h : hs) : hs :=
  if has flags ARG_MADVISE then set_a3 h (translate_madvise (i32 (a3 h))) else h.

(** ** fcntl *)

Definition MACOS_F_RDADVISE : Z := 44.
Definition MACOS_F_RDAHEAD : Z := 45.
Definition MACOS_F_NOCACHE : Z := 48.
Definition MACOS_F_GETPATH : Z := 50.
Definition MACOS_F_FULLFSYNC : Z := 51.
Definition MACOS_F_GLOBAL_NOCACHE : Z := 55.
Definition MACOS_F_SETNOSIGPIPE : Z := 73.
Definition MACOS_F_GETNOSIGPIPE : Z := 74.
Definition AT_FDCWD : Z := -100.

Definition fcntl_no_op (cmd : Z) : bool :=
  (cmd =? MACOS_F_RDADVISE) || (cmd =? MACOS_F_RDAHEAD) || (cmd =? MACOS_F_NOCACHE) ||
  (cmd =? MACOS_F_GLOBAL_NOCACHE) || (cmd =? MACOS_F_SETNOSIGPIPE) || (cmd =? MACOS_F_GETNOSIGPIPE).

Fixpoint bytes_of_string (s : string) : list Z :=
  match s with
  | EmptyString => []
  | String c s => Z.of_N (Ascii.N_of_ascii c) :: bytes_of_string s
  end.

(** [snprintf(kpath, 64, "/proc/self/fd/%ld", a1)], with its NUL. *)
Definition fd_path (fd : Z) : list Z :=
  bytes_of_string (snprintf 64 ("/proc/self/fd/" +:+ pretty fd)) ++ [0].

Definition fcntl_getpath (e : handler_env) (r : regs) (h : hs) : res outcome :=
  m ← store (h_mem h) (kpath e) (fd_path (a1 h));
  let '(res, m) := raw_syscall e SYS_readlinkat [AT_FDCWD; kpath e; a3 h; a4 h; 0; 0] m in
  m ← (if (res >=? 0) && negb (a3 h =? 0) && (res <? a4 h)
       then store m (a3 h + res) [0] else Ok m);
  Ok (finish_slow_result r (if res >=? 0 then 0 else res) m).

Definition fcntl_stage (e : handler_env) (flags : Z) (r : regs) (h : hs) : res stage :=
  if negb (has flags ARG_FCNTL_CMD) then Ok (Next h) else
  let cmd := i32 (a2 h) in
  if cmd =? MACOS_F_GETPATH then o ← fcntl_getpath e r h; Ok (Finish o)
  else if cmd =? MACOS_F_FULLFSYNC then
    let '(res, m) := raw_syscall e SYS_fsync [a1 h; 0; 0; 0; 0; 0] (h_mem h) in
    Ok (Finish (finish_slow_result r res m))
  else if fcntl_no_op cmd then Ok (Finish (finish_slow_result r 0 (h_mem h)))
  else
    let new := translate_fcntl_cmd cmd in
    if new <? 0 then
      (* rax and rip only: neither errno nor the carry flag is set *)
      Ok (Finish (Resume (mk_regs (- EINVAL) (rdi r) (rsi r) (rdx r) (r10 r) (r8 r) (r9 r)
                            (efl r) (rip r + 2)) None (h_mem h)))
    else Ok (Next (set_a2 h new)).

(** ** Signal masks *)

(** [for ms in 1..31: if (mask & 1 << (ms-1)) linux |= 1 << (ls-1)] *)
Definition mask_to_linux (macos_mask : Z) : Z :=
  fold_left (fun acc ms =>
    if Z.testbit macos_mask (ms - 1) then
      let ls := translate_kill_signal ms in
      if (ls >? 0) && (ls <? 64) then Z.lor acc (Z.shiftl 1 (ls - 1)) else acc
    else acc) (seqZ 1 31) 0.

(** The first macOS signal that translates to [ls]. *)
Definition first_macos (ls : Z) : option Z :=
  List.find (fun ms => translate_kill_signal ms =? ls) (seqZ 1 31).

(** The reverse loop; [bit ls] is the bit of the Linux mask it tests. *)
Definition mask_to_macos (bit : Z -> Z) (linux_mask : Z) : Z :=
  fold_left (fun acc ls =>
    if Z.testbit linux_mask (bit ls) then
      match first_macos ls with
      | Some ms => Z.lor acc (Z.shiftl 1 (ms - 1))
      | None => acc
      end
    else acc) (seqZ 1 31) 0.

(** ** sigaction *)

Definition SA_NOCLDSTOP : Z := 0x1.
Definition SA_NOCLDWAIT : Z := 0x2.
Definition SA_SIGINFO : Z := 0x4.
Definition SA_ONSTACK : Z := 0x08000000.
Definition SA_RESTART : Z := 0x10000000.
Definition SA_NODEFER : Z := 0x40000000.
Definition SA_RESETHAND : Z := 0x80000000.

Definition sa_flags_to_linux (f : Z) : Z :=
  let l := lor_if (has f 0x0001) SA_ONSTACK 0 in
  let l := lor_if (has f 0x0002) SA_RESTART l in
  let l := lor_if (has f 0x0004) SA_RESETHAND l in
  let l := lor_if (has f 0x0008) SA_NOCLDSTOP l in
  let l := lor_if (has f 0x0010) SA_NODEFER l in
  let l := lor_if (has f 0x0020) SA_NOCLDWAIT l in
  lor_if (has f 0x0040) SA_SIGINFO l.

Definition sa_flags_to_macos (f : Z) : Z :=
  let m := lor_if (has f SA_ONSTACK) 0x0001 0 in
  let m := lor_if (has f SA_RESTART) 0x0002 m in
  let m := lor_if (has f SA_RESETHAND) 0x0004 m in
  let m := lor_if (has f SA_NOCLDSTOP) 0x0008 m in
  let m := lor_if (has f SA_NODEFER) 0x0010 m in
  let m := lor_if (has f SA_NOCLDWAIT) 0x0020 m in
  lor_if (has f SA_SIGINFO) 0x0040 m.

(** The Linux struct: handler at 0, flags at 8, restorer at 16, mask at 24. *)
Definition linux_sigaction (handler flags mask : Z) : list Z :=
  le_bytes 8 handler ++ le_bytes 8 flags ++ le_bytes 8 0 ++ le_bytes 128 mask.

(** The handler and flags to install: for Go programs the deferral wrapper,
    with the guest's handler saved in the shim's table. *)
Definition sa_install (e : handler_env) (signum handler linux_flags : Z) (m : mem) : res (Z * Z * mem) :=
  if negb (g_tls_g_addr e =? 0) then
    if negb (go_signal_wrapper e =? 0) && negb (saved_go_handlers e =? 0) then
      let ls := translate_kill_signal (i32 signum) in
      m ← (if (ls >? 0) && (ls <? 32) then store64 m (saved_go_handlers e + 8 * ls) handler else Ok m);
      Ok (go_signal_wrapper e, Z.lor (Z.lor SA_SIGINFO SA_ONSTACK) SA_NODEFER, m)
    else Ok (handler, Z.lor linux_flags SA_ONSTACK, m)
  else Ok (handler, Z.lor linux_flags SA_ONSTACK, m).

(** The new action: [if (a2) { ... }]. *)
Definition sa_new_action (e : handler_env) (h : hs) : res hs :=
  let macos_sa := a2 h in
  macos_flags ← load32 (h_mem h) (macos_sa + 12);
  handler ← load64 (h_mem h) macos_sa;
  '(lh, lf, m) ← sa_install e (a1 h) handler (sa_flags_to_linux macos_flags) (h_mem h);
  macos_mask ← load32 m (macos_sa + 8);
  m ← store m (linux_sa e) (linux_sigaction lh lf (mask_to_linux macos_mask));
  Ok (set_a1 (set_a2 (set_mem h m) (linux_sa e)) (translate_kill_signal (i32 (a1 h)))).

(** From the label [translate_sigaction] on. *)
Definition translate_sigaction (e : handler_env) (h : hs) : res hs :=
  h ← (if a2 h =? 0 then Ok h else sa_new_action e h);
  Ok (set_saves (if a3 h =? 0 then h else set_a3 h (linux_old_sa e))
        (save_oset h) (save_oss h) (a3 h)).

Definition sigaction_stage (e : handler_env) (flags : Z) (r : regs) (h : hs) : res stage :=
  if negb (has flags ARG_SIGACTION) then Ok (Next h) else
  if (a1 h =? 4) || (a1 h =? 11) || (a1 h =? 10) then
    if negb (a1 h =? 4) && negb (g_tls_g_addr e =? 0) then
      h ← translate_sigaction e (set_a1 h (translate_kill_signal (i32 (a1 h))));
      Ok (Next h)
    else
      (* pretend success; the carry flag is left alone *)
      Ok (Finish (Resume (mk_regs 0 (rdi r) (rsi r) (rdx r) (r10 r) (r8 r) (r9 r)
                            (efl r) (rip r + 2)) None (h_mem h)))
  else h ← translate_sigaction e h; Ok (Next h).

(** ** sigprocmask *)

(** SIGSEGV and SIGABRT stay deliverable for SIG_BLOCK and SIG_SETMASK. *)
Definition guard_mask (how mask : Z) : Z :=
  if (how =? 1) || (how =? 3)
  then Z.land (Z.land mask (Z.lnot (Z.shiftl 1 10))) (Z.lnot (Z.shiftl 1 5))
  else mask.

Definition sigprocmask_stage (e : handler_env) (flags : Z) (h : hs) : res hs :=
  if negb (has flags ARG_SIGPROCMASK) then Ok h else
  let h := set_saves h (a3 h) (save_oss h) (save_oldact h) in
  h ← (if a2 h =? 0 then Ok h else
    macos_mask ← load32 (h_mem h) (a2 h);
    m ← store64 (h_mem h) (linux_set e) (guard_mask (a1 h) (mask_to_linux macos_mask));
    Ok (set_a2 (set_mem h m) (linux_set e)));
  let h := if a3 h =? 0 then h else set_a3 h (linux_oset e) in
  Ok (set_a4 h 8).

(** ** sigaltstack *)

Definition FALLBACK_SIZE : Z := 1024 * 1024.

(** Linux [stack_t]: sp at 0, flags (int) at 8, size at 16; macOS: sp at 0,
    size at 8, flags at 16. *)
Definition linux_stack (sp flags size : Z) : list Z :=
  le_bytes 8 sp ++ le_bytes 4 flags ++ le_bytes 4 0 ++ le_bytes 8 size.

Definition sigaltstack_stage (e : handler_env) (flags : Z) (h : hs) : res hs :=
  if negb (has flags ARG_SIGALTSTACK) then Ok h else
  let h := set_saves h (save_oset h) (a2 h) (save_oldact h) in
  h ← (if a1 h =? 0 then Ok h else
    sp ← load64 (h_mem h) (a1 h);
    fl ← load32 (h_mem h) (a1 h + 16);
    sz ← load64 (h_mem h) (a1 h + 8);
    let '(sp, fl, sz) := if has fl 0x1 then (fallback_sigstack e, 0, FALLBACK_SIZE) else (sp, fl, sz) in
    m ← store (h_mem h) (linux_ss e) (linux_stack sp (Z.land fl (Z.lnot 0x2)) sz);
    Ok (set_a1 (set_mem h m) (linux_ss e)));
  Ok (if a2 h =? 0 then h else set_a2 h (linux_oss e)).

(** ** After the call *)

Definition sigaction_post (e : handler_env) (h : hs) (result : Z) (m : mem) : res mem :=
  if (save_oldact h =? 0) || negb (result =? 0) then Ok m else
  let lsa := linux_old_sa e in
  let mo := save_oldact h in
  handler ← load64 m lsa;
  m ← store64 m mo handler;
  mask ← read_le (mem_get m) 128 (lsa + 24);
  m ← store32 m (mo + 8) (mask_to_macos (fun ls => ls) mask);
  lflags ← load64 m (lsa + 8);
  store32 m (mo + 12) (sa_flags_to_macos lflags).

Definition sigprocmask_post (e : handler_env) (flags : Z) (h : hs) (result : Z) (m : mem) : res mem :=
  if has flags ARG_SIGPROCMASK && negb (save_oset h =? 0) && (result =? 0) then
    linux_mask ← load64 m (linux_oset e);
    store32 m (save_oset h) (mask_to_macos (fun ls => ls - 1) linux_mask)
  else Ok m.

Definition sigaltstack_post (e : handler_env) (flags : Z) (h : hs) (result : Z) (m : mem) : res mem :=
  if has flags ARG_SIGALTSTACK && negb (save_oss h =? 0) && (result =? 0) then
    sp ← load64 m (linux_oss e);
    m ← store64 m (save_oss h) sp;
    sz ← load64 m (linux_oss e + 16);
    m ← store64 m (save_oss h + 8) sz;
    fl ← load32 m (linux_oss e + 8);
    store32 m (save_oss h + 16) fl
  else Ok m.

(** The raw call and everything after it. *)
Definition run_syscall (e : handler_env) (flags linux_nr : Z) (r : regs) (h : hs) : res outcome :=
  let '(result, m) := raw_syscall e linux_nr [a1 h; a2 h; a3 h; a4 h; a5 h; a6 h] (h_mem h) in
  let err := is_error result in
  let errno := if err then Some (i32 (- result)) else None in
  let result := if err then -1 else result in
  m ← sigaction_post e h result m;
  m ← sigprocmask_post e flags h result m;
  m ← sigaltstack_post e flags h result m;
  Ok (Resume (set_result r result err) errno m).

(** ** The handler *)

Definition unhandled (e : handler_env) (r : regs) (m : mem) : outcome :=
  if lenient e then finish_slow_result r (- ENOSYS) m else ExitProcess 127.

Definition sigill_handler (e : handler_env) (r : regs) (m : mem) : res outcome :=
  let macos_nr := u64 (rax r) in
  let bsd_nr := Z.land macos_nr 0xFFFFFF in
  if bsd_nr >=? BSD_SYSCALL_MAX then Ok (unhandled e r m) else
  let linux_nr := bsd_to_linux bsd_nr in
  if linux_nr <=? 0 then Ok (unhandled e r m) else
  let flags := bsd_arg_flags bsd_nr in
  if bsd_nr =? 1 then Ok (ExitProcess (rdi r)) else
  let h := mk_hs (rdi r) (rsi r) (rdx r) (r10 r) (r8 r) (r9 r) m 0 0 0 in
  let h := translate_kill flags (translate_mmap flags (translate_open flags h)) in
  s ← fcntl_stage e flags r h;
  match s with
  | Finish o => Ok o
  | Next h =>
      s ← sigaction_stage e flags r (translate_advice flags h);
      match s with
      | Finish o => Ok o
      | Next h =>
          h ← sigprocmask_stage e flags h;
          h ← sigaltstack_stage e flags h;
          run_syscall e flags linux_nr r h
      end
  end.

(** ** Lemmas: masks *)

(** A mask built by setting one bit per selected element. *)
Lemma testbit_fold_set {A} (sel : A -> option Z) (l : list A) : forall acc k,
  0 <= k -> Forall (fun x => match sel x with Some b => 0 <= b | None => True end) l ->
  Z.testbit (fold_left (fun acc x => match sel x with
                                     | Some b => Z.lor acc (Z.shiftl 1 b) | None => acc end) l acc) k =
  Z.testbit acc k || existsb (fun x => match sel x with Some b => b =? k | None => false end) l.
Proof.
  induction l as [|x l IH]; intros acc k Hk Hl; cbn; [by rewrite orb_false_r|].
  inversion Hl as [|? ? Hx Hl']; subst. rewrite IH by done.
  destruct (sel x) as [b|]; [|done].
  rewrite Z.lor_spec, Z.shiftl_1_l, Z.pow2_bits_eqb by done. by rewrite orb_assoc.
Qed.

Definition linux_bit (macos_mask ms : Z) : option Z :=
  if Z.testbit macos_mask (ms - 1) then Some (translate_kill_signal ms - 1) else None.

Lemma fold_left_ext_in {A B} (f g : A -> B -> A) l : forall a,
  (forall a x, In x l -> f a x = g a x) -> fold_left f l a = fold_left g l a.
Proof.
  induction l as [|x l IH]; intros a H; cbn; [done|].
  rewrite (H a x) by (by left). apply IH. intros. apply H. by right.
Qed.

Lemma existsb_same {A} (f g : A -> bool) l :
  (forall x, f x = g x) -> existsb f l = existsb g l.
Proof. intros H. induction l as [|x l IH]; cbn; [done|]. by rewrite H, IH. Qed.

Lemma in_signals s : In s (seqZ 1 31) <-> 1 <= s <= 31.
Proof. rewrite <- list_elem_of_In, elem_of_seqZ. lia. Qed.

Lemma mask_to_linux_fold m :
  mask_to_linux m = fold_left (fun acc ms => match linux_bit m ms with
    | Some b => Z.lor acc (Z.shiftl 1 b) | None => acc end) (seqZ 1 31) 0.
Proof.
  apply fold_left_ext_in. intros acc ms Hin%in_signals. unfold linux_bit.
  destruct (Z.testbit m (ms - 1)); [|done]. pose proof (kill_signal_range ms Hin).
  by replace ((translate_kill_signal ms >? 0) && (translate_kill_signal ms <? 64)) with true by lia.
Qed.

Lemma mask_to_linux_bits m k :
  0 <= k -> Z.testbit (mask_to_linux m) k =
  existsb (fun ms => Z.testbit m (ms - 1) && (translate_kill_signal ms - 1 =? k)) (seqZ 1 31).
Proof.
  intros Hk. rewrite mask_to_linux_fold, testbit_fold_set; [|done|].
  - rewrite Z.bits_0. cbn [orb]. apply existsb_same. intros ms. unfold linux_bit.
    by destruct (Z.testbit m (ms - 1)).
  - apply List.Forall_forall. intros ms Hin. rewrite in_signals in Hin. unfold linux_bit.
    destruct (Z.testbit m (ms - 1)); [|done]. pose proof (kill_signal_range ms Hin). lia.
Qed.

Definition macos_bit (bit : Z -> Z) (linux_mask ls : Z) : option Z :=
  if Z.testbit linux_mask (bit ls) then option_map (fun ms => ms - 1) (first_macos ls) else None.

Lemma first_macos_range ls ms : first_macos ls = Some ms -> 1 <= ms <= 31 /\ translate_kill_signal ms = ls.
Proof.
  unfold first_macos. intros H. apply find_some in H as [Hin H%Z.eqb_eq].
  rewrite in_signals in Hin. done.
Qed.

Lemma mask_to_macos_bits bit m k :
  0 <= k -> Z.testbit (mask_to_macos bit m) k =
  existsb (fun ls => Z.testbit m (bit ls) &&
             match first_macos ls with Some ms => ms - 1 =? k | None => false end) (seqZ 1 31).
Proof.
  intros Hk. unfold mask_to_macos.
  rewrite (fold_left_ext_in _ (fun acc ls => match macos_bit bit m ls with
    | Some b => Z.lor acc (Z.shiftl 1 b) | None => acc end)).
  - rewrite testbit_fold_set; [|done|].
    + rewrite Z.bits_0. cbn [orb]. apply existsb_same. intros ls. unfold macos_bit.
      destruct (Z.testbit m (bit ls)); [|done]. by destruct (first_macos ls).
    + apply List.Forall_forall. intros ls _. unfold macos_bit. destruct (Z.testbit m (bit ls)); [|done].
      destruct (first_macos ls) as [ms|] eqn:E; [|done]. apply first_macos_range in E. cbn. lia.
  - intros acc ls _. unfold macos_bit. destruct (Z.testbit m (bit ls)); [|done].
    by destruct (first_macos ls).
Qed.

(** The signals the reverse search gives back: all but SIGINFO and SIGUSR1. *)
Definition reversible_signal (s : Z) : bool :=
  (1 <=? s) && (s <=? 31) && negb (s =? 29) && negb (s =? 30).

Lemma first_macos_reversible s :
  1 <= s <= 31 -> first_macos (translate_kill_signal s) = Some (if reversible_signal s then s else 7).
Proof.
  intros Hs.
  pose proof (range_forallb (fun s => match first_macos (translate_kill_signal s) with
    | Some t => t =? (if reversible_signal s then s else 7) | None => false end) 1 31
    ltac:(vm_compute; reflexivity) s ltac:(lia)) as C. cbv beta in C.
  destruct (first_macos _); [|done]. apply Z.eqb_eq in C. by subst.
Qed.

Lemma existsb_eq {A} (f : A -> bool) l b :
  ((exists x, In x l /\ f x = true) <-> b = true) -> existsb f l = b.
Proof. intros H. apply eq_true_iff_eq. rewrite existsb_exists. exact H. Qed.

(** Translating a mask and back. *)
Lemma mask_round_trip_bits m k :
  0 <= k ->
  Z.testbit (mask_to_macos (fun ls => ls - 1) (mask_to_linux m)) k =
  existsb (fun s => Z.testbit m (s - 1) && ((if reversible_signal s then s else 7) - 1 =? k)) (seqZ 1 31).
Proof.
  intros Hk. rewrite mask_to_macos_bits by done. apply existsb_eq. rewrite existsb_exists. split.
  - intros (ls & Hls & H). apply andb_true_iff in H as [Hb Hf]. rewrite in_signals in Hls.
    rewrite mask_to_linux_bits in Hb by lia. apply existsb_exists in Hb as (s & Hs & Hb).
    bool_to_prop. exists s. split; [done|]. rewrite in_signals in Hs.
    assert (translate_kill_signal s = ls) as <- by lia.
    rewrite first_macos_reversible in Hf by done. rewrite H. exact Hf.
  - intros (s & Hs & H). apply andb_true_iff in H as [Hb Hf]. rewrite in_signals in Hs.
    exists (translate_kill_signal s). pose proof (kill_signal_range s Hs).
    split; [apply in_signals; lia|]. rewrite first_macos_reversible by done.
    rewrite mask_to_linux_bits by lia. rewrite Hf, andb_true_r. apply existsb_exists.
    exists s. split; [by apply in_signals|]. by rewrite Hb, Z.eqb_refl.
Qed.

(** ** Lemmas: the handler *)

Lemma cf_set x : Z.testbit (Z.lor x 1) 0 = true.
Proof. by rewrite Z.lor_spec, orb_true_r. Qed.

Lemma cf_clear x : Z.testbit (Z.land x (Z.lnot 1)) 0 = false.
Proof. by rewrite Z.land_spec, andb_false_r. Qed.

(** The syscall number the guest asked for. *)
Definition bsd_nr_of (r : regs) : Z := Z.land (u64 (rax r)) 0xFFFFFF.

(** Calls whose arguments need at most the simple translations. *)
Definition plain_call (nr : Z) : bool :=
  (nr <? BSD_SYSCALL_MAX) && (0 <? bsd_to_linux nr) && negb (nr =? 1) &&
  negb (has (bsd_arg_flags nr) ARG_FCNTL_CMD) && negb (has (bsd_arg_flags nr) ARG_SIGACTION) &&
  negb (has (bsd_arg_flags nr) ARG_SIGPROCMASK) && negb (has (bsd_arg_flags nr) ARG_SIGALTSTACK).

Definition plain_args (r : regs) : list Z :=
  let f := bsd_arg_flags (bsd_nr_of r) in
  [rdi r;
   if has f ARG_OPEN_FLAGS then translate_open_flags (i32 (rsi r))
   else if has f ARG_KILL_SIGNAL then translate_kill_signal (i32 (rsi r)) else rsi r;
   if has f ARG_MADVISE then translate_madvise (i32 (rdx r)) else rdx r;
   if has f ARG_MMAP_FLAGS then translate_mmap_flags (i32 (r10 r)) else r10 r;
   r8 r; r9 r].

(** No entry of the flags table asks for two translations. *)
Lemma flags_exclusive nr :
  has (bsd_arg_flags nr) ARG_OPEN_FLAGS = true -> has (bsd_arg_flags nr) ARG_KILL_SIGNAL = false.
Proof.
  unfold bsd_arg_flags.
  assert (forallb (fun p => implb (has p.2 ARG_OPEN_FLAGS) (negb (has p.2 ARG_KILL_SIGNAL)))
    bsd_arg_flags_table = true) as C by (vm_compute; reflexivity).
  induction bsd_arg_flags_table as [|[k v] tbl IH]; cbn in *; [done|].
  apply andb_true_iff in C as [C1 C2]. destruct (k =? nr); [|by apply IH].
  intros H. rewrite H in C1. cbn in C1. by apply negb_true_iff in C1.
Qed.

Lemma plain_call_runs e r m result m' :
  plain_call (bsd_nr_of r) = true ->
  raw_syscall e (bsd_to_linux (bsd_nr_of r)) (plain_args r) m = (result, m') ->
  sigill_handler e r m = Ok (finish_slow_result r result m').
Proof.
  unfold plain_call. intros Hp Hk. bool_to_prop. unfold sigill_handler. fold (bsd_nr_of r).
  set (nr := bsd_nr_of r) in *. set (f := bsd_arg_flags nr) in *.
  replace (nr >=? BSD_SYSCALL_MAX) with false by lia.
  replace (bsd_to_linux nr <=? 0) with false by lia. replace (nr =? 1) with false by lia.
  unfold fcntl_stage.
  replace (has f ARG_FCNTL_CMD) with false by done. cbn [negb mbind res_bind].
  unfold sigaction_stage. replace (has f ARG_SIGACTION) with false by done. cbn [negb mbind res_bind].
  unfold sigprocmask_stage. replace (has f ARG_SIGPROCMASK) with false by done. cbn [negb mbind res_bind].
  unfold sigaltstack_stage. replace (has f ARG_SIGALTSTACK) with false by done. cbn [negb mbind res_bind].
  pose proof (flags_exclusive nr) as Hex. fold f in Hex.
  unfold run_syscall, translate_advice, translate_kill, translate_mmap, translate_open.
  unfold plain_args in Hk. fold nr f in Hk.
  destruct (has f ARG_OPEN_FLAGS), (has f ARG_KILL_SIGNAL), (has f ARG_MADVISE), (has f ARG_MMAP_FLAGS);
    try (by specialize (Hex eq_refl)); cbn [a1 a2 a3 a4 a5 a6 h_mem set_a1 set_a2 set_a3 set_a4 set_mem] in *;
    rewrite Hk; unfold sigaction_post, sigprocmask_post, sigaltstack_post; cbn [save_oldact save_oset save_oss Z.eqb orb];
    replace (has f ARG_SIGPROCMASK) with false by done; replace (has f ARG_SIGALTSTACK) with false by done;
    done.
Qed.

(** ** Specification: the simple calls *)

(** The numbers the handler makes one Linux call for, without help: all that
    the table translates but exit, read (Linux number 0), the signal calls,
    fcntl and openat. *)
Definition simple_call (nr : Z) : bool :=
  (nr <? BSD_SYSCALL_MAX) && negb (bsd_to_linux nr =? 0) &&
  negb (existsb (Z.eqb nr) [1; 3; 396; 46; 48; 53; 92; 406; 463; 464]).

(** The arguments Linux should get: the flags of open and open_nocancel, the
    signal of kill, the advice of madvise and the flags of mmap in Linux's
    numbers, everything else as it is. *)
Definition linux_args (r : regs) : list Z :=
  let nr := bsd_nr_of r in
  if (nr =? 5) || (nr =? 398) then [rdi r; translate_open_flags (i32 (rsi r)); rdx r; r10 r; r8 r; r9 r]
  else if nr =? 37 then [rdi r; translate_kill_signal (i32 (rsi r)); rdx r; r10 r; r8 r; r9 r]
  else if nr =? 75 then [rdi r; rsi r; translate_madvise (i32 (rdx r)); r10 r; r8 r; r9 r]
  else if nr =? 197 then [rdi r; rsi r; rdx r; translate_mmap_flags (i32 (r10 r)); r8 r; r9 r]
  else [rdi r; rsi r; rdx r; r10 r; r8 r; r9 r].

Lemma simple_call_plain r :
  simple_call (bsd_nr_of r) = true -> plain_call (bsd_nr_of r) = true /\ plain_args r = linux_args r.
Proof.
  assert (0 <= bsd_nr_of r) as H0 by (unfold bsd_nr_of; apply Z.land_nonneg; lia).
  intros H. assert (bsd_nr_of r < BSD_SYSCALL_MAX) as H1 by (unfold simple_call in H; bool_to_prop; lia).
  unfold BSD_SYSCALL_MAX in H1. unfold plain_args, linux_args. set (nr := bsd_nr_of r) in *.
  pose proof (range_forallb (fun nr => implb (simple_call nr)
    (plain_call nr && Bool.eqb (has (bsd_arg_flags nr) ARG_OPEN_FLAGS) ((nr =? 5) || (nr =? 398)) &&
     Bool.eqb (has (bsd_arg_flags nr) ARG_KILL_SIGNAL) (nr =? 37) &&
     Bool.eqb (has (bsd_arg_flags nr) ARG_MADVISE) (nr =? 75) &&
     Bool.eqb (has (bsd_arg_flags nr) ARG_MMAP_FLAGS) (nr =? 197))) 0 600
    ltac:(vm_compute; reflexivity) nr ltac:(lia)) as C. cbv beta in C. rewrite H in C. cbn [implb] in C.
  rewrite !andb_true_iff, !Bool.eqb_true_iff in C. destruct C as [[[[-> ->] ->] ->] ->]. split; [done|].
  destruct (Z.eqb_spec nr 5), (Z.eqb_spec nr 398), (Z.eqb_spec nr 37), (Z.eqb_spec nr 75), (Z.eqb_spec nr 197);
    first [done|lia].
Qed.

(** ** Properties *)


Definition demo_env (kernel : Z -> list Z -> mem -> Z * mem) : handler_env :=
  mk_env kernel false 0 0 0 0x100 0x200 0x300 0x310 0x400 0x420 0x500 0x600.


(** A number outside the table or without a Linux counterpart
    ends the process with 127, or with MACIFY_LENIENT_SYSCALLS is answered
    with ENOSYS; since the Linux number of read is 0, the value that marks an
    unused slot, this is also what happens to read(2) (3 and 396), although
    the table translates it. *)
Theorem unhandled_syscalls (e : handler_env) (r : regs) (m : mem) :
  BSD_SYSCALL_MAX <= bsd_nr_of r \/ bsd_to_linux (bsd_nr_of r) <= 0 \/
  bsd_nr_of r = 3 \/ bsd_nr_of r = 396 ->
  sigill_handler e r m =
  Ok (if lenient e
      then Resume (mk_regs (-1) (rdi r) (rsi r) (rdx r) (r10 r) (r8 r) (r9 r)
                           (Z.lor (efl r) 1) (rip r + 2)) (Some ENOSYS) m
      else ExitProcess 127).
Proof.
  intros H. unfold sigill_handler. fold (bsd_nr_of r).
  assert (forall b : bool, (if b then Ok (unhandled e r m) else Ok (unhandled e r m)) = Ok (unhandled e r m)) as Hb
    by (by intros []).
  assert (Ok (unhandled e r m) = Ok (if lenient e
      then Resume (mk_regs (-1) (rdi r) (rsi r) (rdx r) (r10 r) (r8 r) (r9 r)
                           (Z.lor (efl r) 1) (rip r + 2)) (Some ENOSYS) m
      else ExitProcess 127)) as <- by (unfold unhandled; by destruct (lenient e)).
  destruct (Z.geb_spec (bsd_nr_of r) BSD_SYSCALL_MAX); [done|].
  replace (bsd_to_linux (bsd_nr_of r) <=? 0) with true; [done|]. symmetry. apply Z.leb_le.
  destruct H as [H|[H|[H|H]]]; [lia|done|by rewrite H|by rewrite H].
Qed.

Lemma unhandled_syscalls_witness :
  sigill_handler (demo_env (fun _ _ m => (0, m))) (mk_regs 0x2000003 0 0x5000 16 0 0 0 0x246 0x1000) ∅
  = Ok (ExitProcess 127).
Proof.
  rewrite unhandled_syscalls; [reflexivity|]. right. right. left. vm_compute. reflexivity.
Defined.

(** The signal-set translation: a Linux signal is in the
    translated mask exactly when a macOS signal that translates to it is in
    the guest's; translating back recovers the guest's mask of signals 1 to
    31 when SIGINFO and SIGUSR1 are not in it, and reports SIGUSR1 as
    SIGEMT, which shares its Linux number. *)
Theorem signal_mask_translation (m k : Z) :
  (0 <= k -> Z.testbit (mask_to_linux m) k =
     existsb (fun ms => Z.testbit m (ms - 1) && (translate_kill_signal ms - 1 =? k)) (seqZ 1 31)) /\
  (0 <= m < 2 ^ 31 -> Z.testbit m 28 = false -> Z.testbit m 29 = false ->
   mask_to_macos (fun ls => ls - 1) (mask_to_linux m) = m) /\
  mask_to_macos (fun ls => ls - 1) (mask_to_linux (2 ^ 29)) = 2 ^ 6.
Proof.
  split; [apply mask_to_linux_bits|]. split; [|vm_compute; reflexivity].
  intros Hm H28 H29. apply Z.bits_inj'. intros j Hj. rewrite mask_round_trip_bits by done.
  apply existsb_eq. split.
  - intros (s & Hs%in_signals & H). bool_to_prop.
    destruct (reversible_signal s) eqn:Er; [by replace j with (s - 1) by lia|].
    unfold reversible_signal in Er.
    assert (s = 29 \/ s = 30) as [-> | ->].
    { destruct (Z.eq_dec s 29); [by left|]. destruct (Z.eq_dec s 30); [by right|].
      exfalso. replace (1 <=? s) with true in Er by lia. replace (s <=? 31) with true in Er by lia.
      replace (s =? 29) with false in Er by lia. replace (s =? 30) with false in Er by lia. done. }
    + change (29 - 1) with 28 in H. congruence.
    + change (30 - 1) with 29 in H. congruence.
  - intros Hb. exists (j + 1).
    assert (j < 31) as Hj31.
    { destruct (Z.lt_ge_cases j 31); [done|]. rewrite Z.bits_above_log2 in Hb; [done|lia|].
      destruct (Z.eq_dec m 0) as [->|]; [cbn; lia|].
      apply Z.lt_le_trans with 31; [apply Z.log2_lt_pow2; lia|done]. }
    split; [apply in_signals; lia|]. replace (j + 1 - 1) with j by lia. rewrite Hb. cbn [andb].
    assert (j <> 28 /\ j <> 29) as [? ?] by (split; intros ->; congruence).
    unfold reversible_signal. replace (1 <=? j + 1) with true by lia.
    replace (j + 1 <=? 31) with true by lia. replace (j + 1 =? 29) with false by lia.
    replace (j + 1 =? 30) with false by lia. cbn. lia.
Qed.

Lemma signal_mask_translation_witness :
  (* SIGURG (16, Linux 23) and SIGCHLD (20, Linux 17) *)
  mask_to_linux (2 ^ 15 + 2 ^ 19) = 2 ^ 22 + 2 ^ 16 /\
  mask_to_macos (fun ls => ls - 1) (mask_to_linux (2 ^ 15 + 2 ^ 19)) = 2 ^ 15 + 2 ^ 19.
Proof.
  split; [vm_compute; reflexivity|].
  apply (signal_mask_translation (2 ^ 15 + 2 ^ 19) 0); [lia|reflexivity|reflexivity].
Defined.

Lemma guard_mask_bits how mask k :
  (how = 1 \/ how = 3) -> 0 <= k ->
  Z.testbit (guard_mask how mask) k = Z.testbit mask k && negb (k =? 10) && negb (k =? 5).
Proof.
  intros Hh Hk. unfold guard_mask. replace ((how =? 1) || (how =? 3)) with true by lia.
  rewrite !Z.land_spec, !Z.lnot_spec, !Z.shiftl_1_l, !Z.pow2_bits_eqb by lia.
  by rewrite (Z.eqb_sym 10 k), (Z.eqb_sym 5 k).
Qed.

(** [SIG_BLOCK], [SIG_UNBLOCK] and [SIG_SETMASK]: 1, 2, 3 on macOS, 0, 1, 2
    on Linux. *)
Definition linux_how (how : Z) : Z := how - 1.

(** Sigprocmask with a new set, on memory that holds it:
    the kernel is called with the translated set in the handler's buffer,
    from which SIGSEGV and SIGABRT are removed when the guest blocks or sets
    a mask, and a set size of 8; the first argument, though, is passed as the
    guest gave it, so the kernel sees another operation: block becomes
    unblock, unblock becomes set, set is invalid. *)
Theorem sigprocmask_call (e : handler_env) (r : regs) (m m1 : mem) (mask : Z) :
  bsd_nr_of r = 48 -> rsi r <> 0 -> load32 m (rsi r) = Ok mask ->
  let lmask := guard_mask (rdi r) (mask_to_linux mask) in
  store64 m (linux_set e) lmask = Ok m1 ->
  let a3' := if rdx r =? 0 then 0 else linux_oset e in
  let args := [rdi r; linux_set e; a3'; 8; r8 r; r9 r] in
  (forall k, rdx r = 0 -> raw_syscall e SYS_rt_sigprocmask args m1 = (k, m1) ->
     sigill_handler e r m = Ok (finish_slow_result r k m1)) /\
  (rdi r = 1 \/ rdi r = 3 -> Z.testbit lmask 10 = false /\ Z.testbit lmask 5 = false) /\
  nth 0 args 0 <> linux_how (rdi r).
Proof.
  intros Hnr Hsi Hload lmask Hst a3' args.
  split; [|split].
  - intros k Hdx Hk. unfold sigill_handler. fold (bsd_nr_of r). rewrite Hnr.
    change (48 >=? BSD_SYSCALL_MAX) with false. change (bsd_to_linux 48 <=? 0) with false.
    change (bsd_to_linux 48) with SYS_rt_sigprocmask. change (bsd_arg_flags 48) with 192.
    change (48 =? 1) with false. cbv beta iota zeta.
    set (h0 := mk_hs (rdi r) (rsi r) (rdx r) (r10 r) (r8 r) (r9 r) m 0 0 0).
    change (translate_kill 192 (translate_mmap 192 (translate_open 192 h0))) with h0.
    change (fcntl_stage e 192 r h0) with (Ok (Next h0)). cbn [mbind res_bind].
    change (sigaction_stage e 192 r (translate_advice 192 h0)) with (Ok (Next h0)). cbn [mbind res_bind].
    assert (sigprocmask_stage e 192 h0 =
      Ok (mk_hs (rdi r) (linux_set e) 0 8 (r8 r) (r9 r) m1 0 0 0)) as ->.
    { unfold sigprocmask_stage. change (negb (has 192 ARG_SIGPROCMASK)) with false. cbv iota zeta.
      change (a2 (set_saves h0 (a3 h0) (save_oss h0) (save_oldact h0))) with (rsi r).
      replace (rsi r =? 0) with false by lia.
      change (h_mem (set_saves h0 (a3 h0) (save_oss h0) (save_oldact h0))) with m.
      rewrite Hload. cbn [mbind res_bind].
      change (a1 (set_saves h0 (a3 h0) (save_oss h0) (save_oldact h0))) with (rdi r).
      fold lmask. rewrite Hst. cbn [mbind res_bind]. unfold h0. cbn. by rewrite Hdx. }
    cbn [mbind res_bind].
    change (sigaltstack_stage e 192 ?h) with (Ok h). cbn [mbind res_bind].
    unfold run_syscall. cbn [a1 a2 a3 a4 a5 a6 h_mem].
    unfold args, a3' in Hk. rewrite Hdx in Hk. change (0 =? 0) with true in Hk. cbv iota in Hk. rewrite Hk.
    by unfold sigaction_post, sigprocmask_post, sigaltstack_post.
  - intros Hh. unfold lmask. rewrite !guard_mask_bits by lia. by rewrite !andb_false_r.
  - unfold args, linux_how. cbn. lia.
Qed.

Lemma sigprocmask_call_witness :
  let e := demo_env (fun _ _ m => (0, m)) in
  let r := mk_regs 0x2000030 1 0x700 0 0 0 0 0x246 0x1000 in
  let m : mem := put_bytes (put_bytes ∅ 0x300 (replicate 8 0)) 0x700 [0; 4; 0; 0] in
  let m1 := put_bytes m 0x300 (le_bytes 8 0) in
  (* blocking macOS SIGSEGV (11) alone leaves an empty Linux set *)
  sigill_handler e r m = Ok (finish_slow_result r 0 m1).
Proof.
  intros e r m m1. eapply (sigprocmask_call e r m m1 0x400).
  - reflexivity.
  - cbn. lia.
  - vm_compute. reflexivity.
  - vm_compute. reflexivity.
  - reflexivity.
  - reflexivity.
Defined.

(** The signal-handling calls of the guest, up to the raw call. *)
Definition sigaction_args (e : handler_env) (r : regs) (m : mem) : res stage :=
  sigaction_stage e (bsd_arg_flags 46) r (mk_hs (rdi r) (rsi r) (rdx r) (r10 r) (r8 r) (r9 r) m 0 0 0).

Lemma translate_sigaction_args e h h' :
  translate_sigaction e h = Ok h' ->
  a1 h' = (if a2 h =? 0 then a1 h else translate_kill_signal (i32 (a1 h))) /\
  a2 h' = (if a2 h =? 0 then 0 else linux_sa e) /\ a4 h' = a4 h.
Proof.
  unfold translate_sigaction. destruct (Z.eqb_spec (a2 h) 0) as [E0|].
  - intros [= <-]. destruct (a3 h =? 0); cbn; auto.
  - destruct (sa_new_action e h) as [h1| |] eqn:E; [|done|done]. intros [= <-].
    unfold sa_new_action in E.
    destruct (load32 _ _) as [fl| |]; [|done|done]. cbn [mbind res_bind] in E.
    destruct (load64 _ _) as [hd| |]; [|done|done]. cbn [mbind res_bind] in E.
    destruct (sa_install _ _ _ _ _) as [[[lh lf] m1]| |]; [|done|done]. cbn [mbind res_bind] in E.
    destruct (load32 _ _) as [mk| |]; [|done|done]. cbn [mbind res_bind] in E.
    destruct (store _ _ _) as [m2| |]; [|done|done]. injection E as <-.
    destruct (a3 _ =? 0); cbn; auto.
Qed.

Lemma kill_signal_protected s :
  translate_kill_signal s = 4 \/ translate_kill_signal s = 7 \/ translate_kill_signal s = 11 ->
  s = 4 \/ s = 10 \/ s = 11.
Proof.
  intros H. destruct (decide (0 <= s < 32)) as [Hr|Hn].
  - pose proof (range_forallb (fun s => implb ((translate_kill_signal s =? 4) ||
      (translate_kill_signal s =? 7) || (translate_kill_signal s =? 11))
      ((s =? 4) || (s =? 10) || (s =? 11))) 0 32 ltac:(vm_compute; reflexivity) s ltac:(lia)) as C.
    cbv beta in C.
    replace ((translate_kill_signal s =? 4) || (translate_kill_signal s =? 7) ||
      (translate_kill_signal s =? 11)) with true in C by lia. cbn in C. lia.
  - rewrite kill_signal_outside in H by done. lia.
Qed.

(** A guest that is not a Go program cannot replace the
    loader's SIGILL, SIGSEGV and SIGBUS handlers: a sigaction call with a new
    action either returns success at once, without the kernel, or reaches the
    kernel with another signal number - provided the register holds a signal
    number.  The check compares all 64 bits while the translation takes the
    low 32, so with bits set above them the call for SIGILL goes through. *)
Theorem sigaction_protects_handlers (e : handler_env) (r : regs) (m : mem) :
  rsi r <> 0 -> g_tls_g_addr e = 0 ->
  (0 <= rdi r < 2 ^ 31 -> forall s, sigaction_args e r m = Ok s ->
     match s with
     | Finish o => (rdi r = 4 \/ rdi r = 10 \/ rdi r = 11) /\
         o = Resume (mk_regs 0 (rdi r) (rsi r) (rdx r) (r10 r) (r8 r) (r9 r) (efl r) (rip r + 2)) None m
     | Next h => ~ (a1 h = 4 \/ a1 h = 7 \/ a1 h = 11)
     end) /\
  (rdi r = 2 ^ 32 + 4 -> forall s, sigaction_args e r m = Ok s ->
     exists h, s = Next h /\ a1 h = 4 /\ a2 h = linux_sa e).
Proof.
  intros Hsi Hgo. unfold sigaction_args, sigaction_stage.
  change (negb (has (bsd_arg_flags 46) ARG_SIGACTION)) with false. cbv iota. cbn [a1].
  split.
  - intros Hd s. destruct ((rdi r =? 4) || (rdi r =? 11) || (rdi r =? 10)) eqn:Ep.
    + rewrite Hgo. cbn [Z.eqb negb andb]. rewrite andb_false_r. intros [= <-].
      split; [lia|done].
    + intros E. bind_inv E. injection E as <-.
      destruct (translate_sigaction_args _ _ _ E0) as (Ha & _ & _). cbn in Ha.
      replace (rsi r =? 0) with false in Ha by lia. rewrite Ha.
      unfold i32. rewrite signed_small by lia. intros Hk%kill_signal_protected. lia.
  - intros Hd s. rewrite Hd.
    change ((2 ^ 32 + 4 =? 4) || (2 ^ 32 + 4 =? 11) || (2 ^ 32 + 4 =? 10)) with false. cbv iota.
    intros E. bind_inv E. injection E as <-.
    destruct (translate_sigaction_args _ _ _ E0) as (Ha & Hb & _). cbn in Ha, Hb.
    replace (rsi r =? 0) with false in Ha, Hb by lia. eauto.
Qed.

Definition demo_sa_mem : mem :=
  put_bytes (put_bytes ∅ 0x100 (replicate 152 0)) 0x700 (replicate 16 0).

Lemma sigaction_protects_handlers_witness :
  let e := demo_env (fun _ _ m => (0, m)) in
  (exists o, sigaction_args e (mk_regs 0x200002e 4 0x700 0 0 0 0 0x246 0x1000) demo_sa_mem = Ok (Finish o)) /\
  (exists h, sigaction_args e (mk_regs 0x200002e (2 ^ 32 + 4) 0x700 0 0 0 0 0x246 0x1000) demo_sa_mem
     = Ok (Next h) /\ a1 h = 4).
Proof.
  intros e. split.
  - destruct (sigaction_args e (mk_regs 0x200002e 4 0x700 0 0 0 0 0x246 0x1000) demo_sa_mem) as [s| |] eqn:E;
      [|vm_compute in E; discriminate|vm_compute in E; discriminate].
    pose proof (proj1 (sigaction_protects_handlers e (mk_regs 0x200002e 4 0x700 0 0 0 0 0x246 0x1000)
      demo_sa_mem ltac:(cbn; lia) eq_refl) ltac:(cbn; lia) s E) as H.
    destruct s as [h|o]; [|eauto]. vm_compute in E. discriminate.
  - destruct (sigaction_args e (mk_regs 0x200002e (2 ^ 32 + 4) 0x700 0 0 0 0 0x246 0x1000) demo_sa_mem)
      as [s| |] eqn:E; [|vm_compute in E; discriminate|vm_compute in E; discriminate].
    destruct (proj2 (sigaction_protects_handlers e
      (mk_regs 0x200002e (2 ^ 32 + 4) 0x700 0 0 0 0 0x246 0x1000) demo_sa_mem ltac:(cbn; lia) eq_refl)
      eq_refl s E) as (h & -> & H & _). eauto.
Defined.

(** For a Go program the number of SIGBUS (10 on macOS, 7
    on Linux) is translated twice, and the kernel is asked to install the
    handler on signal 10, Linux SIGUSR1; for every signal the set size, the
    fourth argument of rt_sigaction, is whatever the guest left in r10. *)
Theorem go_sigbus_translated_twice (e : handler_env) (r : regs) (m : mem) (h : hs) :
  rsi r <> 0 -> g_tls_g_addr e <> 0 -> sigaction_args e r m = Ok (Next h) ->
  (rdi r = 10 -> a1 h = 10 /\ translate_kill_signal 10 = 7) /\ a4 h = r10 r.
Proof.
  intros Hsi Hgo. unfold sigaction_args, sigaction_stage.
  change (negb (has (bsd_arg_flags 46) ARG_SIGACTION)) with false. cbv iota. cbn [a1].
  destruct ((rdi r =? 4) || (rdi r =? 11) || (rdi r =? 10)) eqn:Ep.
  - destruct (negb (rdi r =? 4) && negb (g_tls_g_addr e =? 0)) eqn:Eq; [|done].
    intros E. bind_inv E. injection E as <-.
    destruct (translate_sigaction_args _ _ _ E0) as (Ha & _ & H4). cbn in Ha, H4.
    replace (rsi r =? 0) with false in Ha by lia. split; [|done].
    intros Hd. rewrite Ha, Hd. split; reflexivity.
  - intros E. bind_inv E. injection E as <-.
    destruct (translate_sigaction_args _ _ _ E0) as (_ & _ & H4). split; [|done].
    intros Hd. rewrite Hd in Ep. done.
Qed.

Lemma go_sigbus_translated_twice_witness :
  let e := mk_env (fun _ _ m => (0, m)) false 0x9000 0 0 0x100 0x200 0x300 0x310 0x400 0x420 0x500 0x600 in
  exists h, sigaction_args e (mk_regs 0x200002e 10 0x700 0 0 0 0 0x246 0x1000) demo_sa_mem = Ok (Next h) /\
    a1 h = 10.
Proof.
  intros e.
  destruct (sigaction_args e (mk_regs 0x200002e 10 0x700 0 0 0 0 0x246 0x1000) demo_sa_mem) as [s| |] eqn:E;
    [|vm_compute in E; discriminate|vm_compute in E; discriminate].
  destruct s as [h|o]; [|vm_compute in E; discriminate]. exists h. split; [reflexivity|].
  apply (go_sigbus_translated_twice e (mk_regs 0x200002e 10 0x700 0 0 0 0 0x246 0x1000) demo_sa_mem h).
  - cbn. lia.
  - cbn. lia.
  - exact E.
  - reflexivity.
Defined.

(** The old action sigaction reports: a Linux mask keeps
    signal [n] at bit [n-1], as the translation of the new action does, but
    the reverse loop of the old action reads bit [n]: the guest is shown the
    translation of the mask shifted down by one, so a blocked SIGINT (2) is
    reported as SIGHUP (1) and a blocked SIGHUP is lost. *)
Theorem oldact_mask_off_by_one (mask : Z) :
  0 <= mask ->
  mask_to_macos (fun ls => ls) mask = mask_to_macos (fun ls => ls - 1) (Z.shiftr mask 1) /\
  mask_to_macos (fun ls => ls) (mask_to_linux (2 ^ 1)) = 2 ^ 0 /\
  mask_to_macos (fun ls => ls) (mask_to_linux (2 ^ 0)) = 0.
Proof.
  intros Hm. split; [|split; vm_compute; reflexivity].
  apply fold_left_ext_in. intros acc ls Hin%in_signals.
  rewrite Z.shiftr_spec by lia. by replace (ls - 1 + 1) with ls by lia.
Qed.

Lemma oldact_mask_off_by_one_witness :
  mask_to_macos (fun ls => ls) (mask_to_linux (2 ^ 13)) = mask_to_macos (fun ls => ls - 1) (Z.shiftr (2 ^ 13) 1).
Proof. apply (oldact_mask_off_by_one (2 ^ 13)). lia. Defined.

(** Open(2) translates its flags, the second argument;
    openat (463 and 464) is marked with the same flag although its flags are
    the third: the path pointer is cut to 32 bits and rearranged as if it
    were flags, and the flags reach the kernel untranslated. *)
Theorem openat_translates_the_path (e : handler_env) (r : regs) :
  bsd_nr_of r = 463 \/ bsd_nr_of r = 464 ->
  plain_call (bsd_nr_of r) = true /\
  plain_args r = [rdi r; translate_open_flags (i32 (rsi r)); rdx r; r10 r; r8 r; r9 r].
Proof. intros [H|H]; unfold plain_args; rewrite H; split; reflexivity. Qed.

Lemma openat_translates_the_path_witness :
  (* a path at 0x7fff00001200, flags O_CREAT *)
  plain_args (mk_regs 0x20001cf (-2) 0x7fff00001200 0x200 0 0 0 0x246 0x1000)
  = [-2; 0x40; 0x200; 0; 0; 0].
Proof.
  rewrite (proj2 (openat_translates_the_path (demo_env (fun _ _ m => (0, m)))
    (mk_regs 0x20001cf (-2) 0x7fff00001200 0x200 0 0 0 0x246 0x1000) (or_introl eq_refl))).
  vm_compute. reflexivity.
Defined.
