(* ===== verification/PrefixPath.v ===== *)
(** * The filesystem prefix (src/src/prefix.c)

    Where the prefix is, which paths are rewritten into it, and which are
    hidden.  The environment is a record; [macify_prefix] is kept between
    calls, as in the code.  Trace output is left out; the creation of the
    prefix on disk is in PrefixInit.v. *)
From Stdlib Require Import ZArith Lia Bool.
From stdpp Require Import base gmap list strings numbers.
From S2P Require Import Prelude.

Definition PATH_MAX : nat := Z.to_nat 4096.

Record environment := mk_environ {
  env_HOME : option string;
  env_MACIFY_PREFIX : option string;
  env_MACIFY_JAILED : bool
}.

Definition slash : Ascii.ascii := Ascii.ascii_of_nat 47.

(** [macify_prefix_initialized] and [macify_prefix]. *)
Definition prefix_state := option string.

Definition macify_get_prefix (env : environment) (st : prefix_state) : string * prefix_state :=
  match st with
  | Some p => (p, st)
  | None =>
      let p :=
        match env_MACIFY_PREFIX env with
        | Some (String c s) => snprintf PATH_MAX (String c s)
        | _ => snprintf PATH_MAX (default "/tmp"%string (env_HOME env) +:+ "/.macify")
        end in
      (p, Some p)
  end.

(** [path[n] == '/'] and [path[n] == '\0'], for [n] up to the length. *)
Definition slash_at (n : nat) (path : string) : bool :=
  match shead (sdrop n path) with Some c => Ascii.eqb c slash | None => false end.
Definition end_at (n : nat) (path : string) : bool :=
  match shead (sdrop n path) with Some _ => false | None => true end.

(** [strncmp(path, "<dir>/", ...) == 0 || strcmp(path, "<dir>") == 0] *)
Definition dir_or_below (dir path : string) : bool :=
  starts_with (dir +:+ "/") path || streq path dir.

(** [Some out] is a return of 0 with the result, [None] is -1. *)
Definition macify_translate_path (env : environment) (st : prefix_state)
    (path : string) (out_size : nat) : option string * prefix_state :=
  if (out_size =? 0)%nat then (None, st) else
  if env_MACIFY_JAILED env then (Some (snprintf out_size path), st) else
  let '(prefix, st) := macify_get_prefix env st in
  if (String.length prefix =? 0)%nat then (None, st) else
  let plen := String.length prefix in
  if starts_with prefix path && (slash_at plen path || end_at plen path)
  then (Some (snprintf out_size path), st) else
  if negb (slash_at 0 path) then
    match env_HOME env with
    | Some home =>
        let home_len := String.length home in
        if starts_with home path && slash_at home_len path &&
           (starts_with "Library/" (sdrop (home_len + 1) path) ||
            streq (sdrop (home_len + 1) path) "Library")
        then (Some (snprintf out_size (prefix +:+ sdrop home_len path)), st)
        else (None, st)
    | None => (None, st)
    end
  else if dir_or_below "/dev" path then (None, st)
  else if dir_or_below "/proc" path then (None, st)
  else if dir_or_below "/sys" path then (None, st)
  else if dir_or_below "/tmp" path then (None, st)
  else (Some (snprintf out_size (prefix +:+ path)), st).

Definition hidden_dirs : list string := [".config"; ".cache"; ".local"; ".pki"; ".gnupg"]%string.

Definition macify_should_hide_path (env : environment) (path : string) : bool :=
  match env_HOME env with
  | None => false
  | Some home =>
      let home_len := String.length home in
      if negb (starts_with home path) || negb (slash_at home_len path) then false else
      let rest := sdrop (home_len + 1) path in
      existsb (fun dir => starts_with dir rest &&
                 (end_at (String.length dir) rest || slash_at (String.length dir) rest)) hidden_dirs
  end.

(** ** Specification *)

(** [path] is [dir] or something below it, as names go. *)
Definition within (dir path : string) : Prop := path = dir \/ exists rest, path = dir +:+ "/" +:+ rest.

Definition absolute (path : string) : Prop := exists rest, path = ("/" +:+ rest)%string.

(** The directories of the real system a guest sees. *)
Definition shared_dirs : list string := ["/dev"; "/proc"; "/sys"; "/tmp"]%string.

(** ** Lemmas *)

Lemma slash_at_app p t : slash_at (String.length p) (p +:+ t) = true <-> exists r, t = ("/" +:+ r)%string.
Proof.
  unfold slash_at. rewrite sdrop_app. destruct t as [|c t]; cbn.
  - split; [done|]. intros [r E]. discriminate E.
  - rewrite Ascii.eqb_eq. split; [intros ->; by exists t|]. intros [r E]. by injection E as -> _.
Qed.

Lemma end_at_app p t : end_at (String.length p) (p +:+ t) = true <-> t = EmptyString.
Proof. unfold end_at. rewrite sdrop_app. by destruct t. Qed.

Lemma string_app_nil_r (s : string) : s +:+ EmptyString = s.
Proof. induction s as [|c s IH]; [done|]. exact (f_equal (String c) IH). Qed.

Lemma string_app_inj (p a b : string) : p +:+ a = p +:+ b -> a = b.
Proof.
  induction p as [|c p IH]; [done|]. intros E. apply IH.
  by injection E.
Qed.

Lemma within_test dir path :
  starts_with dir path && (slash_at (String.length dir) path || end_at (String.length dir) path) = true
  <-> within dir path.
Proof.
  rewrite andb_true_iff, orb_true_iff, starts_with_spec. split.
  - intros [[t ->] [H|H]].
    + apply slash_at_app in H as [r ->]. right. by exists r.
    + apply end_at_app in H as ->. left. apply string_app_nil_r.
  - intros [-> |[r ->]].
    + split; [exists EmptyString; by rewrite string_app_nil_r|]. right.
      rewrite <- (string_app_nil_r dir) at 2. by apply end_at_app.
    + split; [eauto|]. left. apply slash_at_app. eauto.
Qed.

Lemma dir_or_below_spec dir path : dir_or_below dir path = true <-> within dir path.
Proof.
  unfold dir_or_below. rewrite orb_true_iff, starts_with_spec. unfold streq, within.
  rewrite bool_decide_eq_true. split.
  - intros [[t ->]| ->]; [right|by left]. exists t. by rewrite string_app_assoc.
  - intros [-> |[r ->]]; [by right|left]. exists r. by rewrite string_app_assoc.
Qed.

Lemma absolute_test path : slash_at 0 path = true <-> absolute path.
Proof. exact (slash_at_app EmptyString path). Qed.

Definition shared (path : string) : Prop := exists dir, dir ∈ shared_dirs /\ within dir path.

Lemma shared_test path :
  dir_or_below "/dev" path || dir_or_below "/proc" path ||
  dir_or_below "/sys" path || dir_or_below "/tmp" path = true <-> shared path.
Proof.
  rewrite !orb_true_iff, !dir_or_below_spec. unfold shared, shared_dirs. split.
  - intros [[[H|H]|H]|H]; eexists; (split; [|exact H]); set_solver.
  - intros (dir & Hin & H). repeat setoid_rewrite elem_of_cons in Hin.
    destruct Hin as [-> |[->|[-> |[->|Hn]]]]; auto. by apply elem_of_nil in Hn.
Qed.

#[export] Instance within_dec dir path : Decision (within dir path).
Proof. refine (cast_if (decide (_ = true))); [apply within_test; eassumption|rewrite <- within_test; eassumption]. Defined.

#[export] Instance shared_dec path : Decision (shared path).
Proof. refine (cast_if (decide (_ = true))); [apply shared_test; eassumption|rewrite <- shared_test; eassumption]. Defined.

(** The translation of an absolute path, outside the jail. *)
Lemma translate_absolute env st path n p st1 :
  env_MACIFY_JAILED env = false -> n <> 0%nat -> macify_get_prefix env st = (p, st1) ->
  p <> EmptyString -> absolute path ->
  macify_translate_path env st path n =
  (if decide (within p path) then Some (snprintf n path)
   else if decide (shared path) then None else Some (snprintf n (p +:+ path)), st1).
Proof.
  intros Hj Hn Hp Hne Habs. unfold macify_translate_path.
  destruct (Nat.eqb_spec n 0) as [|_]; [done|]. rewrite Hj, Hp.
  destruct (Nat.eqb_spec (String.length p) 0) as [E|_]; [by destruct p|].
  destruct (decide (within p path)) as [Hw|Hw].
  - by rewrite (proj2 (within_test p path) Hw).
  - assert (starts_with p path && (slash_at (String.length p) path || end_at (String.length p) path) = false)
      as -> by (apply not_true_iff_false; by rewrite within_test).
    rewrite (proj2 (absolute_test path) Habs). cbn [negb].
    pose proof (shared_test path) as Hs.
    destruct (decide (shared path)) as [Hsh|Hsh].
    + apply Hs in Hsh. destruct (dir_or_below "/dev" path); [done|]. destruct (dir_or_below "/proc" path); [done|].
      destruct (dir_or_below "/sys" path); [done|]. destruct (dir_or_below "/tmp" path); [done|]. done.
    + rewrite <- Hs in Hsh. destruct (dir_or_below "/dev" path); [done|]. destruct (dir_or_below "/proc" path); [done|].
      destruct (dir_or_below "/sys" path); [done|]. by destruct (dir_or_below "/tmp" path).
Qed.

(** Every result outside the jail is a path within the prefix, cut to the
    buffer. *)
Lemma translate_result env st path n out st1 p :
  env_MACIFY_JAILED env = false -> (macify_get_prefix env st).1 = p ->
  macify_translate_path env st path n = (Some out, st1) ->
  exists full, out = snprintf n full /\ within p full /\ p <> EmptyString /\ n <> 0%nat.
Proof.
  intros Hj Hp. unfold macify_translate_path.
  destruct (Nat.eqb_spec n 0) as [|Hn]; [done|]. rewrite Hj.
  destruct (macify_get_prefix env st) as [p' st'] eqn:Eg. cbn in Hp. subst p'.
  destruct (Nat.eqb_spec (String.length p) 0) as [|Hl]; [done|].
  assert (p <> EmptyString) as Hne by (intros ->; done).
  destruct (starts_with p path && _) eqn:Ew.
  { intros [= <- _]. apply within_test in Ew. eauto 10. }
  destruct (slash_at 0 path) eqn:Es; cbn [negb].
  - apply absolute_test in Es as [r ->].
    repeat (destruct (dir_or_below _ _); [done|]). intros [= <- _].
    exists (p +:+ "/" +:+ r). repeat split; auto. right. by exists r.
  - destruct (env_HOME env) as [home|]; [|done].
    destruct (starts_with home path && slash_at (String.length home) path) eqn:Eh; cbn [andb]; [|done].
    destruct (starts_with "Library/" _ || streq _ "Library"); [|intros E; discriminate E].
    intros [= <- _]. apply andb_true_iff in Eh as [[t ->]%starts_with_spec Hs]. apply slash_at_app in Hs as [r ->].
    rewrite sdrop_app. exists (p +:+ "/" +:+ r). repeat split; auto. right. by exists r.
Qed.

Lemma get_prefix_stable env st p st1 :
  macify_get_prefix env st = (p, st1) -> st1 = Some p /\ forall env', macify_get_prefix env' st1 = (p, st1).
Proof. unfold macify_get_prefix. destruct st as [q|]; intros [= <- <-]; auto. Qed.

(** ** Properties *)

(** C28 (functional): the translation of every absolute path outside the
    jail: a path within the prefix is kept, one within /dev, /proc, /sys or
    /tmp is left to the real system, and every other path gets the prefix in
    front, those below the home directory included (two comments of the file
    say that these and, in one, /etc, /var, /usr/bin and /usr/share pass
    through); the result is cut to the caller's buffer, and the prefix found
    on the first call is used from then on, whatever happens to the
    environment. *)
Theorem translate_path_spec (env : environment) (st : prefix_state) (path : string) (n : nat)
    (p : string) (st1 : prefix_state) :
  env_MACIFY_JAILED env = false -> n <> 0%nat -> macify_get_prefix env st = (p, st1) ->
  p <> EmptyString -> absolute path ->
  macify_translate_path env st path n =
    (if decide (within p path) then Some (snprintf n path)
     else if decide (shared path) then None else Some (snprintf n (p +:+ path)), st1) /\
  forall env', macify_get_prefix env' st1 = (p, st1).
Proof.
  intros Hj Hn Hp Hne Habs. split; [by apply translate_absolute|].
  by apply (get_prefix_stable env st).
Qed.

Definition demo_environ : environment := mk_environ (Some "/home/u"%string) None false.

Lemma translate_path_spec_witness :
  macify_translate_path demo_environ None "/bin/sh" 100 =
    (Some "/home/u/.macify/bin/sh"%string, Some "/home/u/.macify"%string) /\
  macify_translate_path demo_environ None "/tmp/x" 100 = (None, Some "/home/u/.macify"%string).
Proof.
  split.
  - rewrite (proj1 (translate_path_spec demo_environ None "/bin/sh" 100 "/home/u/.macify"
      (Some "/home/u/.macify"%string) eq_refl ltac:(done) ltac:(vm_compute; reflexivity)
      ltac:(discriminate) ltac:(by exists "bin/sh"%string))). vm_compute. reflexivity.
  - rewrite (proj1 (translate_path_spec demo_environ None "/tmp/x" 100 "/home/u/.macify"
      (Some "/home/u/.macify"%string) eq_refl ltac:(done) ltac:(vm_compute; reflexivity)
      ltac:(discriminate) ltac:(by exists "tmp/x"%string))). vm_compute. reflexivity.
Defined.

(** Every translated path that fits the buffer is within
    the prefix as names go, and translating it again changes nothing, so
    nested wrappers cannot prefix a path twice. *)
Theorem translate_path_idempotent (env : environment) (st : prefix_state) (path out : string)
    (n : nat) (st1 : prefix_state) :
  env_MACIFY_JAILED env = false ->
  macify_translate_path env st path n = (Some out, st1) -> (String.length out < n - 1)%nat ->
  within (macify_get_prefix env st).1 out /\
  forall st2 k, macify_get_prefix env st2 = macify_get_prefix env st -> (String.length out < k)%nat ->
    (macify_translate_path env st2 out k).1 = Some out.
Proof.
  intros Hj Ht Hlen.
  destruct (translate_result env st path n out st1 _ Hj eq_refl Ht) as (full & Hout & Hw & Hne & Hn).
  assert (full = out) as ->.
  { unfold snprintf in Hout. destruct (le_lt_dec (String.length full) (n - 1)) as [Hle|Hlt].
    - by rewrite stake_all in Hout.
    - subst out. rewrite length_stake in Hlen. lia. }
  split; [done|]. intros st2 k Hp Hk. unfold macify_translate_path.
  destruct (Nat.eqb_spec k 0) as [|_]; [lia|]. rewrite Hj, Hp.
  destruct (macify_get_prefix env st) as [p st']. cbn in Hw, Hne.
  destruct (Nat.eqb_spec (String.length p) 0) as [E|_]; [by destruct p|].
  rewrite (proj2 (within_test p out) Hw). cbn. unfold snprintf. by rewrite stake_all by lia.
Qed.

Lemma translate_path_idempotent_witness :
  (macify_translate_path demo_environ (Some "/home/u/.macify"%string) "/home/u/.macify/bin/sh" 100).1
  = Some "/home/u/.macify/bin/sh"%string.
Proof.
  apply (translate_path_idempotent demo_environ None "/bin/sh" "/home/u/.macify/bin/sh" 100
    (Some "/home/u/.macify"%string)).
  - reflexivity.
  - vm_compute. reflexivity.
  - vm_compute. lia.
  - vm_compute. reflexivity.
  - vm_compute. lia.
Defined.

(** The documented rule that ~/Library goes to the
    prefix's Library does not apply to the absolute path of a home directory:
    $HOME/Library/x is treated like any absolute path and becomes
    <prefix>$HOME/Library/x; the rule is only reached when HOME itself is not
    an absolute path. *)
Theorem home_library_not_special (env : environment) (st : prefix_state) (home rest : string)
    (n : nat) (p : string) (st1 : prefix_state) :
  env_MACIFY_JAILED env = false -> n <> 0%nat -> macify_get_prefix env st = (p, st1) ->
  p <> EmptyString -> env_HOME env = Some home -> absolute home ->
  let path := home +:+ "/Library/" +:+ rest in
  ~ within p path -> ~ shared path ->
  macify_translate_path env st path n = (Some (snprintf n (p +:+ home +:+ "/Library/" +:+ rest)), st1).
Proof.
  intros Hj Hn Hp Hne Hh [r ->] path Hw Hs.
  rewrite (translate_absolute env st path n p st1 Hj Hn Hp Hne).
  - by rewrite (decide_False (P := within p path)), (decide_False (P := shared path)) by done.
  - exists (r +:+ "/Library/" +:+ rest). unfold path. by rewrite string_app_assoc.
Qed.

Lemma home_library_not_special_witness :
  macify_translate_path demo_environ None ("/home/u" +:+ "/Library/" +:+ "Caches") 100 =
  (Some "/home/u/.macify/home/u/Library/Caches"%string, Some "/home/u/.macify"%string).
Proof.
  rewrite (home_library_not_special demo_environ None "/home/u" "Caches" 100 "/home/u/.macify"
    (Some "/home/u/.macify"%string)).
  - vm_compute. reflexivity.
  - reflexivity.
  - done.
  - vm_compute. reflexivity.
  - discriminate.
  - reflexivity.
  - by exists "home/u"%string.
  - apply (bool_decide_unpack _). vm_compute. exact I.
  - apply (bool_decide_unpack _). vm_compute. exact I.
Defined.

(** A path is hidden exactly when HOME is set and the path
    is, or is below, one of the five XDG-style directories of it. *)
Theorem should_hide_path_spec (env : environment) (path : string) :
  macify_should_hide_path env path = true <->
  exists home dir, env_HOME env = Some home /\ dir ∈ hidden_dirs /\ within (home +:+ "/" +:+ dir) path.
Proof.
  unfold macify_should_hide_path. destruct (env_HOME env) as [home|].
  2:{ split; [done|]. intros (h & d & E & _). discriminate E. }
  assert (forall t, sdrop (String.length home + 1) (home +:+ "/" +:+ t) = t) as Hdrop.
  { intros t. replace (String.length home + 1)%nat with (String.length (home +:+ "/"))
      by (rewrite string_length_app; cbn; lia).
    rewrite <- string_app_assoc. apply sdrop_app. }
  split.
  - destruct (starts_with home path) eqn:Es; cbn [negb orb]; [|done].
    destruct (slash_at _ path) eqn:Ea; cbn [negb]; [|done].
    apply starts_with_spec in Es as [t ->]. apply slash_at_app in Ea as [r ->].
    rewrite Hdrop. intros H. apply existsb_exists in H as (dir & Hin & H).
    rewrite orb_comm in H. apply within_test in H. exists home, dir.
    split; [done|]. split; [by apply list_elem_of_In|].
    destruct H as [-> |[q ->]]; [left; done|right]. exists q. by rewrite !string_app_assoc.
  - intros (h & dir & E & Hin & Hw). injection E as <-.
    assert (exists t, path = home +:+ "/" +:+ t /\ within dir t) as (t & -> & Ht).
    { destruct Hw as [-> |[q ->]]; [exists dir|exists (dir +:+ "/" +:+ q)].
      - split; [done|by left].
      - split; [by rewrite !string_app_assoc|right; by exists q]. }
    rewrite starts_with_app. cbn [negb orb].
    rewrite (proj2 (slash_at_app home ("/" +:+ t)%string)) by (by exists t). cbn [negb].
    rewrite Hdrop. apply existsb_exists. exists dir. split; [by apply list_elem_of_In|].
    rewrite orb_comm. by apply within_test.
Qed.
