(* ===== verification/MachoDylib.v ===== *)
(** * Mach-O shared libraries (src/src/macho_dylib.c)

    [macho_load_dylib] and the passes it makes over the load commands of a
    dylib: mapping the segments, loading the dependencies, parsing the export
    table, applying rebases, chained fixups (ChainedFixups.v) and binds, and
    filling the symbol pointer sections.  The table of loaded dylibs is an
    array with a count, and a dylib being loaded is the index of its slot,
    since the code keeps a pointer into the array across the recursive load
    of the dependencies.  [load_file], [access], [dlopen], [dlsym] and the
    kernel are parameters.  Messages are left out, and so is the protection
    of pages: memory is what can be accessed. *)
From Stdlib Require Import ZArith Lia Bool.
From stdpp Require Import base gmap list strings numbers.
From S2P Require Import Prelude LoaderState Leb128 Rebase Symbols Binds ChainedFixups Segments.

Definition MH_MAGIC_64 : Z := 0xFEEDFACF.
Definition MH_DYLIB : Z := 6.
Definition MH_HEADER_SIZE : Z := 32.
Definition LC_SYMTAB : Z := 0x02.
Definition LC_DYSYMTAB : Z := 0x0B.
Definition LC_LOAD_DYLIB : Z := 0x0C.
Definition LC_SEGMENT_64 : Z := 0x19.
Definition LC_LOAD_WEAK_DYLIB : Z := 0x80000018.
Definition LC_DYLD_INFO : Z := 0x22.
Definition LC_DYLD_INFO_ONLY : Z := 0x80000022.
Definition LC_DYLD_CHAINED_FIXUPS : Z := 0x80000034.
Definition MAX_DYLIB_SEGS : nat := 16.

(** ** The loop over the load commands *)

(** How one iteration ends: [Next] reaches the [lc += lc->cmdsize] at the end
    of the body, [Stay] is a [continue] that jumps over it, [Stop] a [break]. *)
Inductive lc_out (S : Type) : Type :=
| Next (s : S)
| Stay (s : S)
| Stop (s : S).
Arguments Next {S} s.
Arguments Stay {S} s.
Arguments Stop {S} s.

(** [for (i = 0; i < ncmds; i++) { ...; lc += lc->cmdsize; }] *)
Fixpoint lc_loop {S} (f : list Z) (body : Z -> Z -> S -> res (lc_out S))
    (n : nat) (lc : Z) (s : S) : res S :=
  match n with
  | O => Ok s
  | Datatypes.S n =>
      cmd ← rd32 f lc;
      r ← body cmd lc s;
      match r with
      | Next s => size ← rd32 f (lc + 4); lc_loop f body n (lc + size) s
      | Stay s => lc_loop f body n lc s
      | Stop s => Ok s
      end
  end.

Definition for_commands {S} (f : list Z) (body : Z -> Z -> S -> res (lc_out S)) (s : S) : res S :=
  ncmds ← rd32 f 16;
  lc_loop f body (Z.to_nat ncmds) MH_HEADER_SIZE s.

(** ** Exports *)

(** [symtab_command]: the symbol and string tables. *)
Record symtab := mk_symtab { symoff : Z; nsyms : Z; stroff : Z; strsize : Z }.
Definition no_symtab : symtab := mk_symtab 0 0 0 0.

Definition read_symtab (f : list Z) (lc : Z) : res symtab :=
  so ← rd32 f (lc + 8);
  ns ← rd32 f (lc + 12);
  to ← rd32 f (lc + 16);
  ts ← rd32 f (lc + 20);
  Ok (mk_symtab so ns to ts).

Definition find_symtab (f : list Z) (cmd lc : Z) (t : symtab) : res (lc_out symtab) :=
  if cmd =? LC_SYMTAB then t ← read_symtab f lc; Ok (Stop t) else Ok (Next t).

(** [strncpy] of at most [n] characters from the file image. *)
Fixpoint rd_strn (f : list Z) (i : Z) (n : nat) : res string :=
  match n with
  | O => Ok EmptyString
  | S n =>
      b ← buf_rd f i;
      if b =? 0 then Ok EmptyString
      else s ← rd_strn f (i + 1) n; Ok (String (Ascii.ascii_of_N (Z.to_N b)) s)
  end.

Definition N_TYPE : Z := 0x0e.
Definition N_SECT : Z := 0x0e.
Definition N_EXT : Z := 0x01.

(** The name and unslid address symbol [i] exports, if it is exported. *)
Definition exported_symbol (f : list Z) (t : symtab) (i : Z) : res (option (string * Z)) :=
  let nl := symoff t + 16 * i in
  ty ← buf_rd f (nl + 4);
  if negb (Z.land ty N_TYPE =? N_SECT) then Ok None else
  if Z.land ty N_EXT =? 0 then Ok None else
  v ← rd64 f (nl + 8);
  if v =? 0 then Ok None else
  strx ← rd32 f nl;
  if strx >=? strsize t then Ok None else
  let name := stroff t + strx in
  c ← buf_rd f name;
  if c =? 0 then Ok None else
  s ← rd_strn f (if c =? 95 then name + 1 else name) 255;
  Ok (Some (s, v)).

(** The symbol loop, from index [i] with [n] symbols left. *)
Fixpoint export_loop (f : list Z) (t : symtab) (n : nat) (i : Z) (md : macho_dylib)
    : res macho_dylib :=
  match n with
  | O => Ok md
  | S n =>
      if Z.of_nat (length (md_exports md)) <? MAX_DYLIB_SYMS then
        e ← exported_symbol f t i;
        export_loop f t n (i + 1)
          match e with
          | None => md
          | Some (s, v) => mk_macho_dylib (md_name md) (md_slide md)
                             (md_exports md ++ [(s, u64 (v + md_slide md))])
          end
      else Ok md
  end.

Definition parse_dylib_exports (f : list Z) (md : macho_dylib) : res macho_dylib :=
  magic ← rd32 f 0;
  if negb (magic =? MH_MAGIC_64) then Ok md else
  t ← for_commands f (find_symtab f) no_symtab;
  if (symoff t =? 0) || (nsyms t =? 0) then Ok md else
  export_loop f t (Z.to_nat (nsyms t)) 0 md.

(** ** Segments *)

Definition UINT64_MAX : Z := 2 ^ 64 - 1.

(** First pass: the lowest and the highest address. *)
Definition span_segment (f : list Z) (cmd lc : Z) (s : Z * Z) : res (lc_out (Z * Z)) :=
  let '(lo, hi) := s in
  if cmd =? LC_SEGMENT_64 then
    seg ← parse_segment f lc;
    if (sc_vmsize seg >? 0) && negb ((sc_vmaddr seg =? 0) && (sc_vmsize seg >? 0x80000000)) then
      let lo := if sc_vmaddr seg <? lo then sc_vmaddr seg else lo in
      let top := u64 (sc_vmaddr seg + sc_vmsize seg) in
      Ok (Next (lo, if top >? hi then top else hi))
    else Ok (Next (lo, hi))
  else Ok (Next (lo, hi)).

(** The skipped segments of the second pass. *)
Definition skipped (seg : segment_command_64) : bool :=
  (sc_vmsize seg =? 0) || ((sc_vmaddr seg =? 0) && (sc_vmsize seg >=? 0x80000000)).

(** [mprotect] (whose result is not looked at), [memcpy] and [memset]. *)
Definition place_segment `{Pages} (f : list Z) (slide : Z) (seg : segment_command_64) (m : mem)
    : res mem :=
  let target := u64 (sc_vmaddr seg + slide) in
  let m := default m (os_mprotect m target (page_round (sc_vmsize seg))) in
  m ← (if sc_filesize seg >? 0 then
         bs ← buf_slice f (sc_fileoff seg) (sc_filesize seg);
         store m target bs
       else Ok m);
  if sc_vmsize seg >? sc_filesize seg then
    store m (u64 (target + sc_filesize seg))
      (replicate (Z.to_nat (sc_vmsize seg - sc_filesize seg)) 0)
  else Ok m.

(** Second pass: the two [continue]s leave [lc] where it is. *)
Definition copy_segment `{Pages} (f : list Z) (slide : Z) (cmd lc : Z) (m : mem)
    : res (lc_out mem) :=
  if cmd =? LC_SEGMENT_64 then
    seg ← parse_segment f lc;
    if skipped seg then Ok (Stay m) else
    m ← place_segment f slide seg m;
    Ok (Next m)
  else Ok (Next m).

(** [os_reserve n] is [mmap(NULL, n, PROT_NONE, ...)]: an address, or [None]. *)
Definition map_dylib_segments `{Pages} (os_reserve : mem -> Z -> option Z) (f : list Z) (m : mem)
    : res (Z * mem) :=
  magic ← rd32 f 0;
  if negb (magic =? MH_MAGIC_64) then Ok (-1, m) else
  '(lo, hi) ← for_commands f (span_segment f) (UINT64_MAX, 0);
  if lo =? UINT64_MAX then Ok (-1, m) else
  match os_reserve m (u64 (hi - lo)) with
  | None => Ok (-1, m)
  | Some base =>
      let slide := i64 (base - lo) in
      m ← for_commands f (copy_segment f slide) m;
      Ok (slide, m)
  end.

(** ** Rebases *)

Section dylib_rebases.
  Context (segs : list dylib_segment) (slide : Z).

Definition dylib_seg (i : Z) : option dylib_segment :=
  if (i >=? 0) && (i <? Z.of_nat (length segs)) then segs !! Z.to_nat i else None.

(** One [*ptr += slide], skipped when the segment index is out of range, and
    the advance that follows. *)
Definition dylib_rebase_one (adv : Z) (st : rb_state) : res rb_state :=
  m ← match dylib_seg (rb_seg_index st) with
      | Some d =>
          let target := u64 (d_vmaddr d + rb_seg_offset st + slide) in
          v ← load64 (rb_mem st) target;
          store64 (rb_mem st) target (u64 (v + slide))
      | None => Ok (rb_mem st)
      end;
  Ok (mk_rb (rb_type st) (rb_seg_index st) (u64 (rb_seg_offset st + adv)) m).

Fixpoint dylib_rebase_times (count : nat) (skip : Z) (st : rb_state) : res rb_state :=
  match count with
  | O => Ok st
  | S count => st ← dylib_rebase_one (8 + skip) st; dylib_rebase_times count skip st
  end.

(** The opcode switch; the code of [Return] is not used. *)
Definition dylib_rebase_step (byte : Z) (bs : list Z) (st : rb_state)
    : res (ctl rb_state * list Z) :=
  let imm := Z.land byte 0x0F in
  match Z.land byte 0xF0 with
  | 0x00 => Ok (Return 0 st, bs)
  | 0x10 => Ok (Continue (mk_rb imm (rb_seg_index st) (rb_seg_offset st) (rb_mem st)), bs)
  | 0x20 =>
      '(off, bs) ← read_uleb128 bs;
      Ok (Continue (mk_rb (rb_type st) imm off (rb_mem st)), bs)
  | 0x30 =>
      '(off, bs) ← read_uleb128 bs;
      Ok (Continue (rb_advance st off), bs)
  | 0x40 => Ok (Continue (rb_advance st (imm * 8)), bs)
  | 0x50 =>
      st ← dylib_rebase_times (Z.to_nat imm) 0 st;
      Ok (Continue st, bs)
  | 0x60 =>
      '(count, bs) ← read_uleb128 bs;
      st ← dylib_rebase_times (Z.to_nat count) 0 st;
      Ok (Continue st, bs)
  | 0x70 =>
      st ← dylib_rebase_one 8 st;
      '(off, bs) ← read_uleb128 bs;
      Ok (Continue (rb_advance st off), bs)
  | 0x80 =>
      '(count, bs) ← read_uleb128 bs;
      '(skip, bs) ← read_uleb128 bs;
      st ← dylib_rebase_times (Z.to_nat count) skip st;
      Ok (Continue st, bs)
  | _ => Ok (Return 0 st, bs)
  end.

Fixpoint dylib_rebase_loop (fuel : nat) (bs : list Z) (st : rb_state) : res mem :=
  match bs with
  | [] => Ok (rb_mem st)
  | byte :: bs =>
      match fuel with
      | O => NoFuel
      | S fuel =>
          '(r, bs) ← dylib_rebase_step byte bs st;
          match r with
          | Return _ st => Ok (rb_mem st)
          | Continue st => dylib_rebase_loop fuel bs st
          end
      end
  end.

Definition process_dylib_rebases (f : list Z) (rebase_off rebase_size : Z) (m : mem) : res mem :=
  if (rebase_off =? 0) || (rebase_size =? 0) then Ok m else
  bs ← buf_slice f rebase_off rebase_size;
  dylib_rebase_loop (length bs) bs (mk_rb 0 (-1) 0 m).

End dylib_rebases.

(** ** Binds *)

(** The variables [process_dylib_binds] uses; the bind type and the library
    ordinal are stored by the code but never read. *)
Record db_state := mk_db {
  db_symbol : string; db_addend : Z; db_seg_index : Z; db_seg_offset : Z; db_mem : mem
}.

Definition db_advance (st : db_state) (n : Z) : db_state :=
  mk_db (db_symbol st) (db_addend st) (db_seg_index st) (u64 (db_seg_offset st + n)) (db_mem st).

(** Up to [n] characters of a symbol name, then one byte is skipped, which is
    the terminator unless the name is too long. *)
Fixpoint read_symbol (bs : list Z) (n : nat) : list Z * list Z :=
  match bs, n with
  | [], _ => ([], [])
  | _ :: bs, O => ([], bs)
  | b :: bs, S n =>
      if b =? 0 then ([], bs) else let '(s, rest) := read_symbol bs n in (b :: s, rest)
  end.

Section dylib_binds.
  Context `{Linker} (segs : list dylib_segment) (slide : Z).

(** The store of the DO_BIND opcodes; [stub] says whether an unresolved
    symbol gets the stub (only plain DO_BIND) or is left alone. *)
Definition dylib_bind_store (stub : bool) (d : dylib_segment) (st : db_state) : res mem :=
  let target := u64 (d_vmaddr d + db_seg_offset st + slide) in
  let addr := resolve (-1) (strip_underscore (db_symbol st)) in
  if negb (addr =? 0) then store64 (db_mem st) target (u64 (addr + db_addend st))
  else if stub then store64 (db_mem st) target unresolved_stub
  else Ok (db_mem st).

Definition db_set_mem (st : db_state) (m : mem) : db_state :=
  mk_db (db_symbol st) (db_addend st) (db_seg_index st) (db_seg_offset st) m.

Fixpoint dylib_bind_times (count : nat) (skip : Z) (st : db_state) : res db_state :=
  match count with
  | O => Ok st
  | S count =>
      m ← match dylib_seg segs (db_seg_index st) with
          | Some d => dylib_bind_store false d st
          | None => Ok (db_mem st)
          end;
      dylib_bind_times count skip (db_advance (db_set_mem st m) (skip + 8))
  end.

Definition dylib_bind_step (byte : Z) (bs : list Z) (st : db_state)
    : res (ctl db_state * list Z) :=
  let imm := Z.land byte 0x0F in
  match Z.land byte 0xF0 with
  | 0x00 => Ok (Return 0 st, bs)
  | 0x10 | 0x30 | 0x50 => Ok (Continue st, bs)
  | 0x20 =>
      '(_, bs) ← read_uleb128 bs;
      Ok (Continue st, bs)
  | 0x40 =>
      let '(s, bs) := read_symbol bs 255 in
      Ok (Continue (mk_db (string_of_bytes s) (db_addend st) (db_seg_index st)
                          (db_seg_offset st) (db_mem st)), bs)
  | 0x60 =>
      '(v, bs) ← read_sleb128 bs;
      Ok (Continue (mk_db (db_symbol st) v (db_seg_index st) (db_seg_offset st) (db_mem st)), bs)
  | 0x70 =>
      '(off, bs) ← read_uleb128 bs;
      Ok (Continue (mk_db (db_symbol st) (db_addend st) imm off (db_mem st)), bs)
  | 0x80 =>
      '(off, bs) ← read_uleb128 bs;
      Ok (Continue (db_advance st off), bs)
  | 0x90 =>
      match dylib_seg segs (db_seg_index st) with
      | None => Ok (Continue st, bs)
      | Some d =>
          m ← dylib_bind_store true d st;
          Ok (Continue (db_advance (db_set_mem st m) 8), bs)
      end
  | 0xA0 =>
      match dylib_seg segs (db_seg_index st) with
      | None => Ok (Continue st, bs)
      | Some d =>
          m ← dylib_bind_store false d st;
          '(off, bs) ← read_uleb128 bs;
          Ok (Continue (db_advance (db_set_mem st m) (8 + off)), bs)
      end
  | 0xB0 =>
      match dylib_seg segs (db_seg_index st) with
      | None => Ok (Continue st, bs)
      | Some d =>
          m ← dylib_bind_store false d st;
          Ok (Continue (db_advance (db_set_mem st m) (imm * 8 + 8)), bs)
      end
  | 0xC0 =>
      '(count, bs) ← read_uleb128 bs;
      '(skip, bs) ← read_uleb128 bs;
      st ← dylib_bind_times (Z.to_nat count) skip st;
      Ok (Continue st, bs)
  | _ => Ok (Return 0 st, bs)
  end.

Fixpoint dylib_bind_loop (fuel : nat) (bs : list Z) (st : db_state) : res mem :=
  match bs with
  | [] => Ok (db_mem st)
  | byte :: bs =>
      match fuel with
      | O => NoFuel
      | S fuel =>
          '(r, bs) ← dylib_bind_step byte bs st;
          match r with
          | Return _ st => Ok (db_mem st)
          | Continue st => dylib_bind_loop fuel bs st
          end
      end
  end.

Definition process_dylib_binds (f : list Z) (bind_off bind_size : Z) (m : mem) : res mem :=
  if (bind_off =? 0) || (bind_size =? 0) then Ok m else
  if u32 (bind_off + bind_size) >? buf_len f then Ok m else
  bs ← buf_slice f bind_off bind_size;
  dylib_bind_loop (length bs) bs (mk_db EmptyString 0 (-1) 0 m).

(** ** Symbol pointer sections *)

(** The symbol and indirect symbol tables, of the last commands that name
    them. *)
Definition find_tables (f : list Z) (cmd lc : Z) (s : symtab * Z) : res (lc_out (symtab * Z)) :=
  let '(t, indirect) := s in
  if cmd =? LC_SYMTAB then t ← read_symtab f lc; Ok (Next (t, indirect))
  else if cmd =? LC_DYSYMTAB then i ← rd32 f (lc + 56); Ok (Next (t, i))
  else Ok (Next (t, indirect)).

(** Entry [k] of a section whose first entry is [start_idx] of the table. *)
Definition pointer_entry (f : list Z) (t : symtab) (indirect start_idx sec_base : Z)
    (m : mem) (k : Z) : res mem :=
  sym_idx ← rd32 f (indirect + 4 * u32 (start_idx + k));
  if has sym_idx 0x80000000 then Ok m else
  if sym_idx >=? nsyms t then Ok m else
  strx ← rd32 f (symoff t + 16 * sym_idx);
  if strx >=? strsize t then Ok m else
  name ← rd_cstring f (stroff t + strx);
  let addr := resolve (-1) (strip_underscore name) in
  if negb (addr =? 0) then store64 m (u64 (sec_base + u32 (k * 8))) addr else Ok m.

Definition pointer_section (f : list Z) (t : symtab) (indirect lc : Z) (m : mem) (j : Z) : res mem :=
  s ← parse_section f (lc + SEGMENT_COMMAND_SIZE + SECTION_SIZE * j);
  let sec_type := Z.land (s_flags s) 0xff in
  if ((sec_type =? 7) || (sec_type =? 6)) && (s_reserved1 s >? 0) then
    fold_res (pointer_entry f t indirect (s_reserved1 s) (u64 (s_addr s + slide)))
      (seqZ 0 (u32 (s_size s / 8))) m
  else Ok m.

Definition pointer_segment (f : list Z) (t : symtab) (indirect cmd lc : Z) (m : mem)
    : res (lc_out mem) :=
  if cmd =? LC_SEGMENT_64 then
    seg ← parse_segment f lc;
    m ← fold_res (pointer_section f t indirect lc) (seqZ 0 (sc_nsects seg)) m;
    Ok (Next m)
  else Ok (Next m).

Definition resolve_pointers (f : list Z) (m : mem) : res mem :=
  '(t, indirect) ← for_commands f (find_tables f) (no_symtab, 0);
  if (indirect >? 0) && (symoff t >? 0) && (stroff t >? 0)
  then for_commands f (pointer_segment f t indirect) m
  else Ok m.

End dylib_binds.

(** ** Dependencies *)

Definition slash : Ascii.ascii := Ascii.ascii_of_nat 47.

(** Everything before the last [c] ([strrchr] and a cut), if there is one. *)
Fixpoint before_last (c : Ascii.ascii) (s : string) : option string :=
  match s with
  | EmptyString => None
  | String d s =>
      match before_last c s with
      | Some p => Some (String d p)
      | None => if Ascii.eqb c d then Some EmptyString else None
      end
  end.

Definition dylib_dir (path : string) : string :=
  default "."%string (before_last slash (stake 4095 path)).

Definition PATH_SIZE : nat := Z.to_nat 4096.

(** Where the dependency [dep_name] of a dylib in directory [dir] is. *)
Definition dep_path (prefix dir dep_name : string) : string :=
  if starts_with "@loader_path/" dep_name
  then snprintf PATH_SIZE (dir +:+ "/" +:+ sdrop 13 dep_name)
  else if starts_with "@rpath/" dep_name
  then snprintf PATH_SIZE (dir +:+ "/" +:+ sdrop 7 dep_name)
  else if contains "@@HOMEBREW_CELLAR@@" dep_name
  then snprintf PATH_SIZE (prefix +:+ "/usr/local/Cellar" +:+ sdrop 19 dep_name)
  else if contains "@@HOMEBREW_PREFIX@@" dep_name
  then snprintf PATH_SIZE (prefix +:+ "/usr/local" +:+ sdrop 19 dep_name)
  else if starts_with "/usr/local/" dep_name
  then snprintf PATH_SIZE (prefix +:+ "/usr/local/" +:+ sdrop 11 dep_name)
  else stake 4095 dep_name.

(** What is done about a dependency: a Mach-O file to load, a system library
    to replace by the first of some Linux libraries that opens, or nothing. *)
Inductive dep_action :=
| DepLoad (path : string)
| DepLinux (lib : string)
| DepNcurses
| DepNone.

Definition linux_equivalent (dep_name : string) : dep_action :=
  if contains "libz" dep_name then DepLinux "libz.so.1"
  else if contains "libresolv" dep_name then DepLinux "libresolv.so.2"
  else if contains "libiconv" dep_name then DepLinux "libiconv.so.2"
  else if contains "libncurses" dep_name then DepNcurses
  else if contains "libedit" dep_name then DepLinux "libedit.so.2"
  else if contains "libreadline" dep_name then DepLinux "libreadline.so.8"
  else DepNone.

Definition dep_decide (access : string -> bool) (dep_name path : string) : dep_action :=
  if contains ".dylib" path && access path then DepLoad path
  else if head_is slash dep_name && negb (contains "@@HOMEBREW" dep_name) &&
          negb (contains "@rpath" dep_name) && negb (contains "@loader_path" dep_name) &&
          negb (access path)
  then linux_equivalent dep_name
  else DepNone.

(** ** Loading *)

(** The table of dylibs and its count, the extra handles of the resolver, the
    ranges reported to the shim and the memory. *)
Record dl_state := mk_dl {
  dl_slots : list macho_dylib;
  dl_n : nat;
  dl_extra : list Z;
  dl_text : list (Z * Z);
  dl_mem : mem
}.

Definition empty_dylib : macho_dylib := mk_macho_dylib EmptyString 0 [].

Definition set_mem (st : dl_state) (m : mem) : dl_state :=
  mk_dl (dl_slots st) (dl_n st) (dl_extra st) (dl_text st) m.
Definition set_slot (st : dl_state) (i : nat) (md : macho_dylib) : dl_state :=
  mk_dl (<[i := md]> (dl_slots st)) (dl_n st) (dl_extra st) (dl_text st) (dl_mem st).
Definition get_slot (st : dl_state) (i : nat) : macho_dylib :=
  default empty_dylib (dl_slots st !! i).

(** The system a dylib is loaded in. *)
Class System := {
  sys_pages :: Pages;
  sys_reserve : mem -> Z -> option Z;
  sys_load_file : string -> option (list Z);
  sys_access : string -> bool;
  sys_dlopen : string -> Z;
  sys_dlsym : Z -> string -> Z;
  sys_shim_lookup : string -> Z;
  sys_dylibs : list loaded_dylib;
  sys_prefix : string;
  sys_stub : Z;
  sys_stub_nonnull : 0 < sys_stub < 2 ^ 64
}.

Section load.
  Context `{System}.

Definition links (st : dl_state) : link_state :=
  mk_link sys_dylibs (dl_extra st) (take (dl_n st) (dl_slots st)).

(** [resolve_symbol] over the dylibs registered so far, as a 64-bit address. *)
Definition state_linker (st : dl_state) : Linker :=
  {| g_ndylibs := Z.of_nat (length sys_dylibs);
     resolve := fun o s => u64 (resolve_symbol sys_dlsym sys_shim_lookup (links st) o s);
     unresolved_stub := sys_stub;
     resolve_u64 := fun o s => u64_range _;
     stub_nonnull := sys_stub_nonnull |}.

(** [register_extra_handle] if [dlopen] gave one. *)
Definition add_handle (h : Z) (st : dl_state) : dl_state :=
  mk_dl (dl_slots st) (dl_n st) (g_extra_handles (register_extra_handle h (links st)))
        (dl_text st) (dl_mem st).

(** [__macify_add_text_range] for the first __TEXT segment. *)
Definition text_segment (f : list Z) (slide : Z) (cmd lc : Z) (st : dl_state)
    : res (lc_out dl_state) :=
  if cmd =? LC_SEGMENT_64 then
    seg ← parse_segment f lc;
    if streq (sc_segname seg) "__TEXT" && (sc_vmsize seg >? 0) then
      let lo := u64 (sc_vmaddr seg + slide) in
      Ok (Stop (mk_dl (dl_slots st) (dl_n st) (dl_extra st)
                      (dl_text st ++ [(lo, u64 (lo + sc_vmsize seg))]) (dl_mem st)))
    else Ok (Next st)
  else Ok (Next st).

Definition register_text (f : list Z) (slide : Z) (st : dl_state) : res dl_state :=
  if sys_dlsym (shim_handle (links st)) "__macify_add_text_range" =? 0 then Ok st
  else for_commands f (text_segment f slide) st.

(** One dependency command; [load] is the recursive call, whose result code
    is not looked at.  The ncurses case ends in a [continue]. *)
Definition load_dependency (load : string -> dl_state -> res (Z * dl_state))
    (f : list Z) (path : string) (cmd lc : Z) (st : dl_state) : res (lc_out dl_state) :=
  if (cmd =? LC_LOAD_DYLIB) || (cmd =? LC_LOAD_WEAK_DYLIB) then
    name_offset ← rd32 f (lc + 8);
    dep_name ← rd_cstring f (lc + name_offset);
    match dep_decide sys_access dep_name (dep_path sys_prefix (dylib_dir path) dep_name) with
    | DepLoad p => '(_, st) ← load p st; Ok (Next st)
    | DepLinux lib => Ok (Next (add_handle (sys_dlopen lib) st))
    | DepNcurses =>
        let h := sys_dlopen "libncursesw.so.6" in
        let h := if h =? 0 then sys_dlopen "libncurses.so.6" else h in
        Ok (Stay (add_handle h st))
    | DepNone => Ok (Next st)
    end
  else Ok (Next st).

(** The segments (all that are not empty, __PAGEZERO too) and the places of
    the rebase opcodes and of the chained fixups. *)
Record fixup_info := mk_fixup_info {
  fi_segs : list dylib_segment;
  fi_rebase : Z * Z;
  fi_chained : Z * Z
}.

Definition collect_command (f : list Z) (cmd lc : Z) (fi : fixup_info) : res (lc_out fixup_info) :=
  if cmd =? LC_SEGMENT_64 then
    seg ← parse_segment f lc;
    if (sc_vmsize seg >? 0) && (length (fi_segs fi) <? MAX_DYLIB_SEGS)%nat then
      Ok (Next (mk_fixup_info
        (fi_segs fi ++ [mk_dseg (sc_vmaddr seg) (sc_vmsize seg) (sc_fileoff seg) (sc_filesize seg)])
        (fi_rebase fi) (fi_chained fi)))
    else Ok (Next fi)
  else if (cmd =? LC_DYLD_INFO_ONLY) || (cmd =? LC_DYLD_INFO) then
    off ← rd32 f (lc + 8); size ← rd32 f (lc + 12);
    Ok (Next (mk_fixup_info (fi_segs fi) (off, size) (fi_chained fi)))
  else if cmd =? LC_DYLD_CHAINED_FIXUPS then
    off ← rd32 f (lc + 8); size ← rd32 f (lc + 12);
    Ok (Next (mk_fixup_info (fi_segs fi) (fi_rebase fi) (off, size)))
  else Ok (Next fi).

(** The bind and lazy bind ranges of the first LC_DYLD_INFO command. *)
Definition find_binds (f : list Z) (cmd lc : Z) (s : dyld_info) : res (lc_out dyld_info) :=
  if (cmd =? LC_DYLD_INFO_ONLY) || (cmd =? LC_DYLD_INFO) then
    bo ← rd32 f (lc + 16); bs ← rd32 f (lc + 20);
    lo ← rd32 f (lc + 32); ls ← rd32 f (lc + 36);
    Ok (Stop (mk_info bo bs lo ls))
  else Ok (Next s).

(** Rebases, chained fixups, binds, lazy binds and symbol pointers; a count
    above the size of the table makes the lookups read past its end. *)
Definition apply_fixups (f : list Z) (slide : Z) (fi : fixup_info) (st : dl_state) : res dl_state :=
  if (MAX_MACHO_DYLIBS <? dl_n st)%nat then Undef else
  let L := state_linker st in
  let '(rebase_off, rebase_size) := fi_rebase fi in
  let '(chained_off, chained_size) := fi_chained fi in
  m ← (if (rebase_off >? 0) && (rebase_size >? 0)
       then process_dylib_rebases (fi_segs fi) slide f rebase_off rebase_size (dl_mem st)
       else Ok (dl_mem st));
  '(m, _) ← (if (chained_off >? 0) && (chained_size >? 0)
       then process_dylib_chained_fixups f slide chained_off chained_size (fi_segs fi) m
              (mk_stubs 0 [])
       else Ok (m, mk_stubs 0 []));
  b ← for_commands f (find_binds f) (mk_info 0 0 0 0);
  m ← (if (g_bind_off b >? 0) && (g_bind_size b >? 0)
       then process_dylib_binds (fi_segs fi) slide f (g_bind_off b) (g_bind_size b) m
       else Ok m);
  m ← (if (g_lazy_bind_off b >? 0) && (g_lazy_bind_size b >? 0)
       then process_dylib_binds (fi_segs fi) slide f (g_lazy_bind_off b) (g_lazy_bind_size b) m
       else Ok m);
  m ← resolve_pointers slide f m;
  Ok (set_mem st m).

(** [parse_dylib_exports(md, ...); g_n_macho_dylibs++;] *)
Definition register_exports (f : list Z) (self : nat) (st : dl_state) : res dl_state :=
  md ← parse_dylib_exports f (get_slot st self);
  let st := set_slot st self md in
  Ok (mk_dl (dl_slots st) (S (dl_n st)) (dl_extra st) (dl_text st) (dl_mem st)).

(** What follows the dependencies. *)
Definition finish_dylib (f : list Z) (slide : Z) (self : nat) (st : dl_state) : res dl_state :=
  fi ← for_commands f (collect_command f) (mk_fixup_info [] (0, 0) (0, 0));
  st ← register_exports f self st;
  apply_fixups f slide fi st.

(** Up to the dependencies: the slot is filled in and the image mapped. *)
Definition open_dylib (f : list Z) (path : string) (st : dl_state) : res (Z * dl_state) :=
  let self := dl_n st in
  let st := set_slot st self (mk_macho_dylib (stake 255 path) 0 []) in
  '(slide, m) ← map_dylib_segments sys_reserve f (dl_mem st);
  let st := set_mem st m in
  if slide <? 0 then Ok (-1, st) else
  let st := set_slot st self (mk_macho_dylib (stake 255 path) slide []) in
  st ← register_text f slide st;
  Ok (slide, st).

(** [fuel] bounds the depth of the recursion. *)
Fixpoint macho_load_dylib (fuel : nat) (path : string) (st : dl_state) : res (Z * dl_state) :=
  match fuel with
  | O => NoFuel
  | S fuel =>
      if (MAX_MACHO_DYLIBS <=? dl_n st)%nat then Ok (-1, st) else
      if existsb (fun md => streq (md_name md) path) (take (dl_n st) (dl_slots st))
      then Ok (0, st) else
      match sys_load_file path with
      | None => Ok (-1, st)
      | Some f =>
          magic ← rd32 f 0;
          if negb (magic =? MH_MAGIC_64) then Ok (-1, st) else
          filetype ← rd32 f 12;
          if negb (filetype =? MH_DYLIB) then Ok (-1, st) else
          '(slide, st') ← open_dylib f path st;
          if slide <? 0 then Ok (-1, st') else
          st' ← for_commands f (load_dependency (macho_load_dylib fuel) f path) st';
          st' ← finish_dylib f slide (dl_n st) st';
          Ok (0, st')
      end
  end.

End load.

(** ** Lemmas: load commands *)

(** The commands of a file: their code and offset. *)
Fixpoint lc_list (f : list Z) (n : nat) (lc : Z) : res (list (Z * Z)) :=
  match n with
  | O => Ok []
  | S n =>
      cmd ← rd32 f lc;
      size ← rd32 f (lc + 4);
      l ← lc_list f n (lc + size);
      Ok ((cmd, lc) :: l)
  end.

Definition commands (f : list Z) : res (list (Z * Z)) :=
  ncmds ← rd32 f 16; lc_list f (Z.to_nat ncmds) MH_HEADER_SIZE.

(** The segment commands among them, decoded. *)
Fixpoint segments_of (f : list Z) (l : list (Z * Z)) : res (list segment_command_64) :=
  match l with
  | [] => Ok []
  | (cmd, lc) :: l =>
      if cmd =? LC_SEGMENT_64 then
        seg ← parse_segment f lc; segs ← segments_of f l; Ok (seg :: segs)
      else segments_of f l
  end.

Definition dylib_segments (f : list Z) : res (list segment_command_64) :=
  l ← commands f; segments_of f l.

(** An iteration that stays without changing the state uses up the loop. *)
Lemma lc_loop_stay {S} f (body : Z -> Z -> S -> res (lc_out S)) g n lc cmd s :
  rd32 f lc = Ok cmd -> (forall s, body cmd lc s = Ok (Stay (g s))) ->
  lc_loop f body n lc s = Ok (Nat.iter n g s).
Proof.
  intros Hc Hb. revert s. induction n as [|n IH]; intros s; cbn [lc_loop]; [done|].
  rewrite Hc. cbn. rewrite Hb. cbn. rewrite IH. f_equal.
  symmetry. apply Nat.iter_succ_r.
Qed.

(** An invariant of the body is one of the loop. *)
Lemma lc_loop_inv {S} (P : S -> Prop) f (body : Z -> Z -> S -> res (lc_out S)) n lc s s' :
  (forall cmd lc s r, P s -> body cmd lc s = Ok r ->
     match r with Next s | Stay s | Stop s => P s end) ->
  P s -> lc_loop f body n lc s = Ok s' -> P s'.
Proof.
  intros Hb. revert lc s. induction n as [|n IH]; intros lc s Hs E; cbn [lc_loop] in E.
  - by injection E as <-.
  - bind_inv E. bind_inv E. pose proof (Hb _ _ _ _ Hs E1) as Ha.
    destruct a0 as [s1|s1|s1]; [bind_inv E|..|by injection E as <-]; by apply (IH _ _ Ha E).
Qed.

Lemma for_commands_inv {S} (P : S -> Prop) f (body : Z -> Z -> S -> res (lc_out S)) s s' :
  (forall cmd lc s r, P s -> body cmd lc s = Ok r ->
     match r with Next s | Stay s | Stop s => P s end) ->
  P s -> for_commands f body s = Ok s' -> P s'.
Proof. unfold for_commands. intros Hb Hs E. bind_inv E. by apply (lc_loop_inv P) in E. Qed.

(** Lift a statement about the command list to the loop that starts at the
    first command. *)
Lemma commands_inv f l :
  commands f = Ok l -> exists ncmds, rd32 f 16 = Ok ncmds /\
    lc_list f (Z.to_nat ncmds) MH_HEADER_SIZE = Ok l.
Proof. unfold commands. intros E. bind_inv E. eauto. Qed.

Lemma dylib_segments_inv f segs :
  dylib_segments f = Ok segs -> exists l, commands f = Ok l /\ segments_of f l = Ok segs.
Proof. unfold dylib_segments. intros E. bind_inv E. eauto. Qed.

(** The first pass over the segments. *)
Definition span_of (s : Z * Z) (seg : segment_command_64) : Z * Z :=
  if (sc_vmsize seg >? 0) && negb ((sc_vmaddr seg =? 0) && (sc_vmsize seg >? 0x80000000)) then
    (if sc_vmaddr seg <? s.1 then sc_vmaddr seg else s.1,
     if u64 (sc_vmaddr seg + sc_vmsize seg) >? s.2 then u64 (sc_vmaddr seg + sc_vmsize seg) else s.2)
  else s.

Definition dylib_span (segs : list segment_command_64) : Z * Z :=
  foldl span_of (UINT64_MAX, 0) segs.

Lemma span_segment_step f cmd lc s :
  span_segment f cmd lc s =
  if cmd =? LC_SEGMENT_64 then seg ← parse_segment f lc; Ok (Next (span_of s seg))
  else Ok (Next s).
Proof.
  destruct s as [lo hi]. unfold span_segment, span_of. destruct (_ =? _); [|done].
  destruct (parse_segment f lc); cbn; [|done|done]. by destruct (_ && _).
Qed.

Lemma lc_loop_span f n lc l segs s :
  lc_list f n lc = Ok l -> segments_of f l = Ok segs ->
  lc_loop f (span_segment f) n lc s = Ok (foldl span_of s segs).
Proof.
  revert lc l segs s. induction n as [|n IH]; intros lc l segs s; cbn [lc_list lc_loop].
  - intros [= <-] [= <-]. done.
  - intros El Es. bind_inv El. bind_inv El. bind_inv El. injection El as <-.
    cbn [segments_of] in Es. cbn. rewrite span_segment_step.
    destruct (a =? LC_SEGMENT_64); cbn.
    + bind_inv Es. bind_inv Es. injection Es as <-. cbn. by apply (IH _ a1).
    + by apply (IH _ a1).
Qed.

(** The second pass places the segments up to the first it should skip. *)
Fixpoint until_skipped (segs : list segment_command_64) : list segment_command_64 :=
  match segs with
  | [] => []
  | seg :: segs => if skipped seg then [] else seg :: until_skipped segs
  end.

Lemma lc_loop_copy `{Pages} f slide n lc l segs m :
  lc_list f n lc = Ok l -> segments_of f l = Ok segs ->
  lc_loop f (copy_segment f slide) n lc m =
  fold_res (fun m seg => place_segment f slide seg m) (until_skipped segs) m.
Proof.
  revert lc l segs m. induction n as [|n IH]; intros lc l segs m; cbn [lc_list lc_loop].
  - intros [= <-] [= <-]. done.
  - intros El Es. bind_inv El. bind_inv El. bind_inv El. injection El as <-.
    cbn [segments_of] in Es. cbn.
    assert (forall m, copy_segment f slide a lc m =
      if a =? LC_SEGMENT_64 then seg ← parse_segment f lc; if skipped seg then Ok (Stay m) else
        m ← place_segment f slide seg m; Ok (Next m) else Ok (Next m)) as Hb by done.
    rewrite Hb. destruct (a =? LC_SEGMENT_64); cbn.
    + bind_inv Es. bind_inv Es. injection Es as <-. cbn in *.
      destruct (skipped a2) eqn:Esk; cbn.
      * rewrite (lc_loop_stay f _ (fun m => m) n lc a m E Hb).
        f_equal. clear. induction n; cbn; auto.
      * destruct (place_segment f slide a2 m) as [m'| |]; cbn; [|done|done].
        by apply (IH _ a1).
    + by apply (IH _ a1).
Qed.

(** ** Lemmas: placing segments *)

Lemma foldl_span_bounds segs s :
  Forall (fun seg => 0 < sc_vmsize seg /\ 0 <= sc_vmaddr seg /\
                     sc_vmaddr seg + sc_vmsize seg < 2 ^ 64 /\ skipped seg = false) segs ->
  let r := foldl span_of s segs in
  r.1 <= s.1 /\ s.2 <= r.2 /\
  (forall seg, In seg segs -> r.1 <= sc_vmaddr seg /\ sc_vmaddr seg + sc_vmsize seg <= r.2) /\
  (r.1 = s.1 \/ exists seg, In seg segs /\ r.1 = sc_vmaddr seg).
Proof.
  revert s. induction segs as [|seg segs IH]; intros s Hf; cbv zeta; cbn [foldl].
  { split; [lia|]. split; [lia|]. split; [intros ? []|by left]. }
  inversion Hf as [|? ? (Hv & Ha & He & Hs) Hf']; subst.
  specialize (IH (span_of s seg) Hf'). cbv zeta in IH. destruct IH as (I1 & I2 & I3 & I4).
  unfold skipped in Hs.
  assert (span_of s seg = (Z.min (sc_vmaddr seg) s.1, Z.max (sc_vmaddr seg + sc_vmsize seg) s.2))
    as Es.
  { unfold span_of. rewrite u64_small by lia.
    replace ((sc_vmsize seg >? 0) && _) with true by lia.
    f_equal; [destruct (Z.ltb_spec (sc_vmaddr seg) s.1)|destruct (Z.gtb_spec (sc_vmaddr seg + sc_vmsize seg) s.2)]; lia. }
  rewrite Es in *. cbn [fst snd] in *. set (r := foldl _ _ _) in *.
  split; [lia|]. split; [lia|]. split.
  - intros seg' [<-|Hin]; [lia|]. by apply I3.
  - destruct I4 as [I4|(seg' & Hin & I4)]; [|right; exists seg'; split; [by right|done]].
    destruct (Z.le_gt_cases (sc_vmaddr seg) s.1); [right; exists seg; split; [by left|lia]|left; lia].
Qed.

(** A segment whose file part lies in the file and fits, at a slide. *)
Definition placeable (f : list Z) (slide : Z) (seg : segment_command_64) : Prop :=
  0 < sc_vmsize seg <= 2 ^ 63 /\ 0 <= sc_vmaddr seg /\ sc_vmaddr seg + sc_vmsize seg < 2 ^ 64 /\
  0 <= sc_filesize seg <= sc_vmsize seg /\ 0 <= sc_fileoff seg /\
  sc_fileoff seg + sc_filesize seg <= buf_len f /\ skipped seg = false /\
  0 <= sc_vmaddr seg + slide /\ sc_vmaddr seg + slide + sc_vmsize seg < 2 ^ 64.

(** An address in the pages of a slid segment. *)
Definition in_pages (slide : Z) (seg : segment_command_64) (x : Z) : Prop :=
  sc_vmaddr seg + slide <= x < sc_vmaddr seg + slide + page_round (sc_vmsize seg).

(** The pages of two segments do not overlap. *)
Definition apart (s t : segment_command_64) : Prop :=
  sc_vmaddr s + page_round (sc_vmsize s) <= sc_vmaddr t \/
  sc_vmaddr t + page_round (sc_vmsize t) <= sc_vmaddr s.

(** The bytes of a segment are in place. *)
Definition loaded_at (f : list Z) (slide : Z) (m : mem) (seg : segment_command_64) : Prop :=
  forall i, 0 <= i < sc_vmsize seg -> m !! (sc_vmaddr seg + slide + i) = segment_byte f seg i.

Section placing.
  Context `{Pages} (f : list Z) (slide : Z).
  (** [mprotect] of the pages of the segments succeeds. *)
  Context (segs0 : list segment_command_64).
  Context (Hprot : forall m seg, In seg segs0 ->
    is_Some (os_mprotect m (sc_vmaddr seg + slide) (page_round (sc_vmsize seg)))).

Lemma place_segment_spec seg m :
  In seg segs0 -> placeable f slide seg ->
  exists m', place_segment f slide seg m = Ok m' /\ loaded_at f slide m' seg /\
    forall x, ~ in_pages slide seg x -> m' !! x = m !! x.
Proof.
  intros Hin (Hv & Ha & Hav & Hfs & Hfo & Hend & _ & Hs & Hse). unfold place_segment.
  rewrite (u64_small (_ + slide)) by lia.
  destruct (Hprot m seg Hin) as [m1 E1]. rewrite E1. change (default m (Some m1)) with m1.
  destruct (os_mprotect_ok _ _ _ _ E1) as [Hin1 Hout1].
  pose proof (page_round_ge (sc_vmsize seg) ltac:(lia)) as Hpr.
  destruct (fill_segment f seg m1 (sc_vmaddr seg + slide)) as (m2 & m3 & -> & E3 & Hb & Ho);
    [lia..|intros x Hx; apply Hin1; lia|].
  exists m3. cbn. rewrite E3. split; [done|]. split; [exact Hb|].
  intros x Hx. unfold in_pages in Hx. cbn in *. rewrite Ho by lia. apply Hout1. lia.
Qed.

Lemma place_segments_spec segs m :
  incl segs segs0 -> Forall (placeable f slide) segs -> ForallOrdPairs apart segs ->
  exists m', fold_res (fun m seg => place_segment f slide seg m) segs m = Ok m' /\
    Forall (loaded_at f slide m') segs /\
    forall x, Forall (fun seg => ~ in_pages slide seg x) segs -> m' !! x = m !! x.
Proof.
  intros Hincl Hok Hap. revert m Hincl. induction Hap as [|seg segs Hd _ IH]; intros m Hincl.
  { exists m. split; [done|]. split; [constructor|done]. }
  inversion Hok as [|? ? Hseg Hsegs]; subst.
  destruct (place_segment_spec seg m) as (m1 & E1 & Hb1 & Ho1); [apply Hincl; by left|done|].
  destruct (IH Hsegs m1) as (m2 & E2 & Hb2 & Ho2).
  { intros x Hx. apply Hincl. by right. }
  exists m2. cbn [fold_res]. rewrite E1. cbn. split; [exact E2|]. split; [constructor; [|done]|].
  - intros i Hi. rewrite <- Hb1 by done. apply Ho2.
    apply List.Forall_forall. intros t Ht. rewrite List.Forall_forall in Hd.
    specialize (Hd t Ht). unfold apart, in_pages in *.
    destruct Hseg as (Hv & _). pose proof (page_round_ge (sc_vmsize seg) ltac:(lia)). lia.
  - intros x Hx. inversion Hx; subst. rewrite Ho2 by done. by apply Ho1.
Qed.
End placing.

Lemma until_skipped_all segs :
  Forall (fun seg => skipped seg = false) segs -> until_skipped segs = segs.
Proof. induction 1 as [|seg segs Hs _ IH]; cbn; [done|]. by rewrite Hs, IH. Qed.

(** Both passes, over the decoded segments. *)
Lemma map_dylib_segments_passes `{Pages} (reserve : mem -> Z -> option Z) f m segs :
  rd32 f 0 = Ok MH_MAGIC_64 -> dylib_segments f = Ok segs ->
  map_dylib_segments reserve f m =
  let '(lo, hi) := dylib_span segs in
  if lo =? UINT64_MAX then Ok (-1, m) else
  match reserve m (u64 (hi - lo)) with
  | None => Ok (-1, m)
  | Some base =>
      m ← fold_res (fun m seg => place_segment f (i64 (base - lo)) seg m) (until_skipped segs) m;
      Ok (i64 (base - lo), m)
  end.
Proof.
  intros Hm (l & (n & Hn & Hl)%commands_inv & Hs)%dylib_segments_inv.
  unfold map_dylib_segments, for_commands. rewrite Hm. cbn. rewrite Hn. cbn.
  rewrite (lc_loop_span _ _ _ _ _ _ Hl Hs). unfold dylib_span.
  destruct (foldl span_of (UINT64_MAX, 0) segs) as [lo hi]. cbn.
  destruct (_ =? _); [done|]. destruct (reserve _ _) as [base|]; [|done].
  by rewrite (lc_loop_copy _ _ _ _ _ _ _ Hl Hs).
Qed.

(** ** Lemmas: exports *)

(** A symbol at the slide of its dylib. *)
Definition slid_export (slide : Z) (e : string * Z) : string * Z := (e.1, u64 (e.2 + slide)).

Definition add_exports (md : macho_dylib) (es : list (string * Z)) : macho_dylib :=
  mk_macho_dylib (md_name md) (md_slide md)
    (md_exports md ++ take (Z.to_nat MAX_DYLIB_SYMS - length (md_exports md))
                        (map (slid_export (md_slide md)) es)).

Lemma export_loop_spec f t (sym : Z -> option (string * Z)) n i md :
  (forall j, i <= j < i + Z.of_nat n -> exported_symbol f t j = Ok (sym j)) ->
  export_loop f t n i md = Ok (add_exports md (omap sym (seqZ i (Z.of_nat n)))).
Proof.
  revert i md. induction n as [|n IH]; intros i md Hs; cbn [export_loop].
  { unfold add_exports. change (omap sym (seqZ i (Z.of_nat 0))) with (@nil (string * Z)).
    cbn [map]. rewrite take_nil, app_nil_r. by destruct md. }
  rewrite Nat2Z.inj_succ, seqZ_cons, Z.pred_succ by lia. cbn [omap list_omap].
  destruct (Z.ltb_spec (Z.of_nat (length (md_exports md))) MAX_DYLIB_SYMS) as [Hl|Hl].
  - rewrite Hs by lia. cbn. change (i + 1) with (Z.succ i).
    rewrite IH by (intros j Hj; apply Hs; lia).
    destruct (sym i) as [[s v]|]; [|done]. unfold add_exports. cbn [md_name md_slide md_exports].
    f_equal. f_equal. rewrite <- app_assoc, length_app. f_equal. cbn [length map].
    replace (Z.to_nat MAX_DYLIB_SYMS - length (md_exports md))%nat
      with (S (Z.to_nat MAX_DYLIB_SYMS - (length (md_exports md) + 1))) by lia. done.
  - unfold add_exports.
    replace (Z.to_nat MAX_DYLIB_SYMS - length (md_exports md))%nat with 0%nat by lia.
    rewrite take_0, app_nil_r. by destruct md.
Qed.

(** What a file exports: its symbol table and, for each index, the symbol. *)
Definition exports_are (f : list Z) (es : list (string * Z)) : Prop :=
  rd32 f 0 = Ok MH_MAGIC_64 /\
  exists t sym, for_commands f (find_symtab f) no_symtab = Ok t /\ symoff t <> 0 /\ 0 < nsyms t /\
    (forall j, 0 <= j < nsyms t -> exported_symbol f t j = Ok (sym j)) /\
    es = omap sym (seqZ 0 (nsyms t)).

Lemma parse_exports f es md :
  exports_are f es -> parse_dylib_exports f md = Ok (add_exports md es).
Proof.
  intros (Hm & t & sym & Ht & Hso & Hn & Hs & ->). unfold parse_dylib_exports.
  rewrite Hm. cbn. rewrite Ht. cbn.
  replace ((symoff t =? 0) || (nsyms t =? 0)) with false by lia.
  rewrite (export_loop_spec f t sym); rewrite Z2Nat.id by lia; [done|].
  intros j Hj. apply Hs. lia.
Qed.

(** ** Lemmas: registration *)

Section registration.
  Context `{System}.

Lemma apply_fixups_slots f slide fi st st' :
  apply_fixups f slide fi st = Ok st' ->
  dl_slots st' = dl_slots st /\ dl_n st' = dl_n st.
Proof.
  unfold apply_fixups. destruct (_ <? _)%nat; [done|].
  destruct (fi_rebase fi) as [ro rs], (fi_chained fi) as [co cs]. intros E.
  bind_inv E. bind_inv E. destruct a0 as [m1 ?]. bind_inv E. bind_inv E. bind_inv E.
  bind_inv E. injection E as <-. done.
Qed.

Lemma finish_dylib_slots f slide self st st' es :
  exports_are f es -> (self < length (dl_slots st))%nat ->
  finish_dylib f slide self st = Ok st' ->
  get_slot st' self = add_exports (get_slot st self) es /\ dl_n st' = S (dl_n st) /\
  forall i, i <> self -> get_slot st' i = get_slot st i.
Proof.
  intros He Hl E. unfold finish_dylib in E. bind_inv E. bind_inv E.
  unfold register_exports in E1. rewrite (parse_exports _ _ _ He) in E1. injection E1 as <-.
  apply apply_fixups_slots in E as [Es En]. unfold get_slot at 1 3. rewrite Es, En. cbn.
  split; [by rewrite list_lookup_insert_eq by done|]. split; [done|].
  intros i Hi. by rewrite list_lookup_insert_ne by done.
Qed.

Lemma register_text_slots f slide st st' :
  register_text f slide st = Ok st' -> dl_slots st' = dl_slots st /\ dl_n st' = dl_n st.
Proof.
  unfold register_text. destruct (_ =? 0); [intros [= <-]; done|].
  apply (for_commands_inv (fun s => dl_slots s = dl_slots st /\ dl_n s = dl_n st)); [|done].
  clear st'. intros cmd lc s r Hs E. unfold text_segment in E.
  destruct (_ =? LC_SEGMENT_64); [bind_inv E; destruct (_ && _)|]; by injection E as <-.
Qed.

Lemma open_dylib_slot f path st slide st' :
  open_dylib f path st = Ok (slide, st') -> 0 <= slide ->
  dl_slots st' = <[dl_n st := mk_macho_dylib (stake 255 path) slide []]> (dl_slots st) /\
  dl_n st' = dl_n st.
Proof.
  unfold open_dylib. intros E Hs. bind_inv E. destruct a as [sl m].
  destruct (sl <? 0); [injection E as <- <-; lia|]. bind_inv E. injection E as <- <-.
  apply register_text_slots in E1 as [-> ->]. cbn. by rewrite list_insert_insert_eq.
Qed.

Lemma dependencies_length load f path st st' :
  (forall p s c s', load p s = Ok (c, s') -> length (dl_slots s') = length (dl_slots s)) ->
  for_commands f (load_dependency load f path) st = Ok st' ->
  length (dl_slots st') = length (dl_slots st).
Proof.
  intros Hl. apply (for_commands_inv (fun s => length (dl_slots s) = length (dl_slots st))); [|done].
  clear st'. intros cmd lc s r Hs E. unfold load_dependency in E.
  destruct (_ || _); [|by injection E as <-]. bind_inv E. bind_inv E.
  destruct (dep_decide _ _ _); [bind_inv E; destruct a1 as [c s1]; apply Hl in E2|..];
    injection E as <-; [congruence|done..].
Qed.

(** The table keeps its length. *)
Lemma macho_load_dylib_length fuel path st c st' :
  macho_load_dylib fuel path st = Ok (c, st') -> length (dl_slots st') = length (dl_slots st).
Proof.
  revert path st c st'. induction fuel as [|fuel IH]; intros path st c st'; cbn [macho_load_dylib]; [done|].
  destruct (_ <=? _)%nat; [intros [= <- <-]; done|].
  destruct (existsb _ _); [intros [= <- <-]; done|].
  destruct (sys_load_file path) as [f|]; [|intros [= <- <-]; done]. intros E.
  bind_inv E. destruct (negb _); [by injection E as <- <-|].
  bind_inv E. destruct (negb _); [by injection E as <- <-|].
  bind_inv E. destruct a1 as [slide st1].
  assert (length (dl_slots st1) = length (dl_slots st)) as H1.
  { unfold open_dylib in E2. bind_inv E2. destruct a1 as [sl m].
    destruct (sl <? 0); [injection E2 as <- <-; cbn; by rewrite length_insert|].
    bind_inv E2. injection E2 as <- <-. apply register_text_slots in E4 as [-> _]. cbn.
    by rewrite !length_insert. }
  destruct (slide <? 0); [by injection E as <- <-|]. bind_inv E. bind_inv E. injection E as <- <-.
  apply (dependencies_length (macho_load_dylib fuel)) in E3; [|exact IH].
  unfold finish_dylib in E4. bind_inv E4. bind_inv E4. apply apply_fixups_slots in E4 as [-> _].
  unfold register_exports in E5. bind_inv E5. injection E5 as <-. cbn. rewrite length_insert. lia.
Qed.
(** A dylib that was opened, with its slide; 0 when it could not be mapped. *)
Definition opened (q : string) (slide : Z) : Prop :=
  exists f s0 s1 r, sys_load_file q = Some f /\ open_dylib f q s0 = Ok (r, s1) /\ slide = Z.max 0 r.

(** Slot [n] carries the name and the slide of such a dylib. *)
Definition owned (n : nat) (st : dl_state) : Prop :=
  exists q slide, opened q slide /\ md_name (get_slot st n) = stake 255 q /\ md_slide (get_slot st n) = slide.

Lemma open_dylib_table f path st slide st' :
  open_dylib f path st = Ok (slide, st') ->
  dl_slots st' = <[dl_n st := mk_macho_dylib (stake 255 path) (Z.max 0 slide) []]> (dl_slots st) /\ dl_n st' = dl_n st.
Proof.
  intros E. destruct (Z.ltb_spec slide 0) as [Hs|Hs].
  2:{ rewrite Z.max_r by lia. by apply (open_dylib_slot f). }
  unfold open_dylib in E. bind_inv E. destruct a as [sl m].
  destruct (Z.ltb_spec sl 0); [injection E as <- <-; done|]. bind_inv E. injection E as <- <-. lia.
Qed.

Lemma export_loop_keeps f t n i md md' :
  export_loop f t n i md = Ok md' -> md_name md' = md_name md /\ md_slide md' = md_slide md.
Proof.
  revert i md. induction n as [|n IH]; intros i md; cbn [export_loop]; [by intros [= <-]|].
  destruct (_ <? MAX_DYLIB_SYMS); [|by intros [= <-]]. intros E. bind_inv E. apply IH in E as [-> ->]. by destruct a as [[? ?]|].
Qed.

Lemma finish_dylib_keeps f slide self st st' n :
  finish_dylib f slide self st = Ok st' -> (self < length (dl_slots st))%nat ->
  md_name (get_slot st' n) = md_name (get_slot st n) /\ md_slide (get_slot st' n) = md_slide (get_slot st n) /\ dl_n st' = S (dl_n st).
Proof.
  intros E Hl. unfold finish_dylib in E. bind_inv E. bind_inv E. apply apply_fixups_slots in E as [Es En].
  unfold register_exports in E1. bind_inv E1. injection E1 as <-. unfold get_slot. rewrite Es, En. cbn [dl_slots set_slot dl_n].
  assert (md_name a1 = md_name (get_slot st self) /\ md_slide a1 = md_slide (get_slot st self)) as [Hn Hs].
  { unfold parse_dylib_exports in E. bind_inv E. destruct (negb _); [by injection E as <-|]. bind_inv E.
    destruct (_ || _); [by injection E as <-|]. by apply export_loop_keeps in E. }
  destruct (decide (n = self)) as [-> |Hne].
  - rewrite list_lookup_insert_eq by done. cbn. by rewrite Hn, Hs.
  - by rewrite list_lookup_insert_ne.
Qed.

(** Loading anything later keeps an owned slot owned, perhaps by another. *)
Lemma macho_load_dylib_owned fuel n : forall path st c st',
  macho_load_dylib fuel path st = Ok (c, st') -> (n <= dl_n st)%nat -> length (dl_slots st) = MAX_MACHO_DYLIBS ->
  owned n st -> owned n st' /\ (n <= dl_n st')%nat.
Proof.
  induction fuel as [|fuel IH]; intros path st c st'; cbn [macho_load_dylib]; [done|].
  destruct (Nat.leb_spec MAX_MACHO_DYLIBS (dl_n st)) as [|Hmax]; [by intros [= <- <-]|].
  destruct (existsb _ _); [by intros [= <- <-]|].
  destruct (sys_load_file path) as [f|] eqn:Ef; [|by intros [= <- <-]]. intros E Hn Hlen Hown.
  bind_inv E. destruct (negb _); [by injection E as <- <-|].
  bind_inv E. destruct (negb _); [by injection E as <- <-|].
  bind_inv E. destruct a1 as [slide st1].
  destruct (open_dylib_table _ _ _ _ _ E2) as [Ht1 Hn1].
  assert (owned n st1) as Hown1.
  { destruct (decide (n = dl_n st)) as [-> |Hne].
    - exists path, (Z.max 0 slide). split; [by exists f, st, st1, slide|]. unfold get_slot. rewrite Ht1, list_lookup_insert_eq by lia. done.
    - unfold owned, get_slot in *. by rewrite Ht1, list_lookup_insert_ne by done. }
  assert (length (dl_slots st1) = MAX_MACHO_DYLIBS) as Hlen1 by (by rewrite Ht1, length_insert).
  destruct (slide <? 0); [injection E as <- <-; split; [done|lia]|]. bind_inv E. bind_inv E. injection E as <- <-.
  assert (owned n a1 /\ (n <= dl_n a1)%nat /\ length (dl_slots a1) = MAX_MACHO_DYLIBS) as (Hown2 & Hn2 & Hlen2).
  { revert E3. apply (for_commands_inv (fun s => owned n s /\ (n <= dl_n s)%nat /\ length (dl_slots s) = MAX_MACHO_DYLIBS)); [|split_and!; [done|lia|done]].
    intros cmd lc s r (Ho & Hns & Hls) Es. unfold load_dependency in Es.
    destruct (_ || _); [|by injection Es as <-]. bind_inv Es. bind_inv Es.
    destruct (dep_decide _ _ _); [bind_inv Es; destruct a5 as [c s2]|..]; injection Es as <-; try done.
    match goal with H : macho_load_dylib _ _ s = Ok _ |- _ => destruct (IH _ _ _ _ H Hns Hls Ho); split_and!; [done|done|]; by rewrite (macho_load_dylib_length _ _ _ _ _ H) end. }
  destruct (finish_dylib_keeps f slide (dl_n st) a1 a2 n E4) as (Hnm & Hsl & Hcnt); [by rewrite Hlen2|].
  split; [|lia]. destruct Hown2 as (q & sl & Hq & Hqn & Hqs). exists q, sl. by rewrite Hnm, Hsl.
Qed.

Lemma dependencies_owned fuel n f path st st' :
  for_commands f (load_dependency (macho_load_dylib fuel) f path) st = Ok st' ->
  (n <= dl_n st)%nat -> length (dl_slots st) = MAX_MACHO_DYLIBS -> owned n st -> owned n st'.
Proof.
  intros E Hn Hlen Ho. eapply (for_commands_inv (fun s => owned n s /\ (n <= dl_n s)%nat /\ length (dl_slots s) = MAX_MACHO_DYLIBS)); [|done|exact E].
  intros cmd lc s r (Hos & Hns & Hls) Es. unfold load_dependency in Es.
  destruct (_ || _); [|by injection Es as <-]. bind_inv Es. bind_inv Es.
  destruct (dep_decide _ _ _); [bind_inv Es; destruct a1 as [c s2]|..]; injection Es as <-; try done.
  destruct (macho_load_dylib_owned _ _ _ _ _ _ E2 Hns Hls Hos). split_and!; [done|done|]. by rewrite (macho_load_dylib_length _ _ _ _ _ E2).
Qed.
End registration.

(** ** Lemmas: rebases *)

(** The segments of a dylib as the main image's interpreter sees them. *)
Definition slid_segment (slide : Z) (d : dylib_segment) : loaded_segment :=
  mk_segment (u64 (d_vmaddr d + slide)) (d_vmsize d) 0 0 EmptyString false.

(** A program that only ever rebases pointers. *)
Definition pointer_typed (o : rop) : Prop :=
  match o with RSetType t => t = REBASE_TYPE_POINTER | _ => True end.

Section dylib_rebase_proofs.
  Context (segs : list dylib_segment) (slide : Z).

Abbreviation slid := (map (slid_segment slide) segs).

Lemma slid_lookup i : slid !! i = slid_segment slide <$> (segs !! i).
Proof. apply list_lookup_fmap. Qed.

Lemma dylib_rebase_one_spec c m adv seg :
  c_type c = REBASE_TYPE_POINTER -> 0 <= c_seg c -> slid !! Z.to_nat (c_seg c) = Some seg ->
  dylib_rebase_one segs slide adv (at_cursor c m) =
  (m' ← slide_pointers slide [u64 (vmaddr seg + c_off c)] m;
   Ok (at_cursor (cursor_skip c adv) m')).
Proof.
  intros Ht Hc Hs. rewrite slid_lookup in Hs.
  destruct (segs !! Z.to_nat (c_seg c)) as [d|] eqn:Ed; [|done]. injection Hs as <-.
  pose proof (lookup_lt_Some _ _ _ Ed) as Hl.
  unfold dylib_rebase_one, dylib_seg, at_cursor. cbn [rb_seg_index rb_seg_offset rb_mem rb_type].
  replace ((c_seg c >=? 0) && (c_seg c <? Z.of_nat (length segs))) with true by lia.
  rewrite Ed. unfold slid_segment. cbn [vmaddr].
  replace (u64 (u64 (d_vmaddr d + slide) + c_off c)) with (u64 (d_vmaddr d + c_off c + slide))
    by (rewrite u64_add_l; f_equal; ring).
  unfold slide_pointers, fold_res, slide_pointer. cbn.
  destruct (load64 m _) as [v| |]; [cbn|done|done]. rewrite u64_add_r.
  by destruct (store64 m _ _).
Qed.

Lemma dylib_rebase_times_spec count skip c m ts c' :
  c_type c = REBASE_TYPE_POINTER -> do_targets slid count skip c = Some (ts, c') ->
  dylib_rebase_times segs slide count skip (at_cursor c m) =
  (m' ← slide_pointers slide ts m; Ok (at_cursor c' m')).
Proof.
  revert c m ts. induction count as [|count IH]; intros c m ts Ht; cbn [do_targets dylib_rebase_times].
  - intros [= <- <-]. done.
  - destruct (c_seg c <? 0) eqn:Eneg; [done|]. bool_to_prop.
    destruct (slid !! Z.to_nat (c_seg c)) as [seg|] eqn:Eseg; [|done].
    destruct (do_targets slid count skip _) as [[ts0 c0]|] eqn:E; [|done].
    intros [= <- <-]. rewrite (dylib_rebase_one_spec c m (8 + skip) seg) by done.
    rewrite Ht, Z.eqb_refl, slide_pointers_app.
    destruct (slide_pointers slide [_] m) as [m1| |]; [cbn|done|done].
    replace (cursor_skip c (8 + skip)) with (cursor_skip (cursor_skip c 8) skip).
    2:{ unfold cursor_skip. cbn. f_equal. rewrite u64_add_l. f_equal. ring. }
    by apply IH.
Qed.

Lemma do_targets_type count skip c ts c' :
  do_targets slid count skip c = Some (ts, c') -> c_type c' = c_type c.
Proof.
  revert c ts. induction count as [|count IH]; intros c ts; cbn [do_targets].
  - by intros [= _ <-].
  - destruct (if c_seg c <? 0 then None else _); [|done].
    destruct (do_targets slid count skip _) as [[ts0 c0]|] eqn:E; [|done].
    intros [= _ <-]. by apply IH in E.
Qed.

Lemma rop_targets_type o c ts c' :
  pointer_typed o -> c_type c = REBASE_TYPE_POINTER -> rop_targets slid o c = Some (ts, c') ->
  c_type c' = REBASE_TYPE_POINTER.
Proof.
  intros Hp Ht E.
  destruct o; cbn [rop_targets] in E; try (injection E as <- <-; done); apply do_targets_type in E; congruence.
Qed.

Lemma dylib_rebase_step_spec o c m ts c' rest :
  rop_wf o -> c_type c = REBASE_TYPE_POINTER -> rop_targets slid o c = Some (ts, c') ->
  exists byte tl, rop_encode o = byte :: tl /\
    dylib_rebase_step segs slide byte (tl ++ rest) (at_cursor c m) =
    (m' ← slide_pointers slide ts m; Ok (Continue (at_cursor c' m'), rest)).
Proof.
  intros Hwf Hty Ht.
  destruct o as [i|s off|off|i|n|n|off|n s]; cbn [rop_wf rop_targets rop_encode] in *;
    eexists _, _; split; try reflexivity; unfold dylib_rebase_step.
  - decode_opcode 1 i Hwf. cbn. injection Ht as <- <-. done.
  - destruct Hwf as [Hs Hoff]. decode_opcode 2 s Hs.
    rewrite uleb_read_back by done. injection Ht as <- <-. done.
  - change (Z.land 48 240) with 48. cbv iota.
    rewrite uleb_read_back by done. injection Ht as <- <-. done.
  - decode_opcode 4 i Hwf. cbn. injection Ht as <- <-. done.
  - decode_opcode 5 n Hwf.
    rewrite (dylib_rebase_times_spec _ _ _ _ _ _ Hty Ht). by destruct (slide_pointers _ ts m).
  - change (Z.land 96 240) with 96. cbv iota. rewrite uleb_read_back by done. cbn.
    rewrite (dylib_rebase_times_spec _ _ _ _ _ _ Hty Ht). by destruct (slide_pointers _ ts m).
  - change (Z.land 112 240) with 112. cbv iota. cbn [do_targets] in Ht.
    destruct (c_seg c <? 0) eqn:Eneg; [done|]. bool_to_prop.
    destruct (slid !! Z.to_nat (c_seg c)) as [seg|] eqn:Eseg; [|done].
    injection Ht as <- <-. rewrite (dylib_rebase_one_spec c m 8 seg) by done.
    rewrite app_nil_r, Hty, Z.eqb_refl.
    destruct (slide_pointers _ _ m) as [m1| |]; [cbn|done|done].
    by rewrite uleb_read_back by done.
  - change (Z.land 128 240) with 128. cbv iota. destruct Hwf as [Hn Hs].
    rewrite <- app_assoc, uleb_read_back by done. cbn. rewrite uleb_read_back by done. cbn.
    rewrite (dylib_rebase_times_spec _ _ _ _ _ _ Hty Ht). by destruct (slide_pointers _ ts m).
Qed.

Lemma dylib_rebase_loop_program ops c m ts m' fuel rest :
  Forall rop_wf ops -> Forall pointer_typed ops -> c_type c = REBASE_TYPE_POINTER ->
  program_targets slid ops c = Some ts -> slide_pointers slide ts m = Ok m' ->
  (length (concat (map rop_encode ops) ++ rest) <= fuel)%nat ->
  exists c' fuel', (length rest <= fuel')%nat /\
    dylib_rebase_loop segs slide fuel (concat (map rop_encode ops) ++ rest) (at_cursor c m) =
    dylib_rebase_loop segs slide fuel' rest (at_cursor c' m').
Proof.
  intros Hwf Hpt. revert c m ts fuel.
  induction Hwf as [|o ops Ho _ IH]; intros c m ts fuel Hty Ht Hm Hf; cbn [map concat] in *.
  - injection Ht as <-. injection Hm as <-. exists c, fuel. done.
  - inversion Hpt as [|? ? Hp Hpt']; subst. cbn [program_targets] in Ht.
    destruct (rop_targets slid o c) as [[ts1 c1]|] eqn:E1; [|done].
    destruct (program_targets slid ops c1) as [ts2|] eqn:E2; [|done].
    injection Ht as <-. rewrite slide_pointers_app in Hm. bind_inv Hm.
    destruct (dylib_rebase_step_spec o c m ts1 c1 (concat (map rop_encode ops) ++ rest) Ho Hty E1)
      as (byte & tl & Eo & Hstep).
    rewrite Eo in Hf |- *. cbn [app length] in *.
    destruct fuel as [|fuel]; [lia|].
    rewrite <- !app_assoc in *. cbn [dylib_rebase_loop]. rewrite Hstep, E. cbn.
    apply (IH Hpt' c1 a ts2 fuel); [by apply (rop_targets_type o c ts1)|done..|].
    rewrite !length_app in *. lia.
Qed.
End dylib_rebase_proofs.

(** ** Lemmas: binds *)

(** What a bind program says about the next slot of a dylib. *)
Record dcursor := mk_dcursor { dk_symbol : string; dk_addend : Z; dk_seg : Z; dk_off : Z }.

Definition dk_skip (k : dcursor) (n : Z) : dcursor :=
  mk_dcursor (dk_symbol k) (dk_addend k) (dk_seg k) (u64 (dk_off k + n)).

(** A slot: where, which symbol, and whether it gets the stub if unresolved. *)
Record dslot := mk_dslot { ds_target : Z; ds_symbol : string; ds_addend : Z; ds_stub : bool }.

Section dylib_bind_spec.
  Context `{Linker} (segs : list dylib_segment) (slide : Z).

Definition write_dslot (m : mem) (s : dslot) : res mem :=
  let addr := resolve (-1) (ds_symbol s) in
  if negb (addr =? 0) then store64 m (ds_target s) (u64 (addr + ds_addend s))
  else if ds_stub s then store64 m (ds_target s) unresolved_stub else Ok m.

Definition dk_slot (k : dcursor) (stub : bool) : option dslot :=
  if dk_seg k <? 0 then None else
  match segs !! Z.to_nat (dk_seg k) with
  | None => None
  | Some d => Some (mk_dslot (u64 (d_vmaddr d + dk_off k + slide))
                      (strip_underscore (dk_symbol k)) (dk_addend k) stub)
  end.

(** One slot and the advance after it. *)
Definition dk_bind (k : dcursor) (stub : bool) (n : Z) : option (list dslot * dcursor) :=
  match dk_slot k stub with Some s => Some ([s], dk_skip k n) | None => None end.

Fixpoint dk_times (count : nat) (skip : Z) (k : dcursor) : option (list dslot * dcursor) :=
  match count with
  | O => Some ([], k)
  | S count =>
      match dk_bind k false (skip + 8) with
      | None => None
      | Some (ss, k) =>
          match dk_times count skip k with None => None | Some (ts, k) => Some (ss ++ ts, k) end
      end
  end.

(** [None] for a segment out of range, and for DONE, which ends a program. *)
Definition dbop_slots (o : bop) (k : dcursor) : option (list dslot * dcursor) :=
  match o with
  | BDone => None
  | BOrdImm _ | BOrdUleb _ | BSpecial _ | BType _ => Some ([], k)
  | BSymbol _ name =>
      Some ([], mk_dcursor (string_of_bytes name) (dk_addend k) (dk_seg k) (dk_off k))
  | BAddend v => Some ([], mk_dcursor (dk_symbol k) v (dk_seg k) (dk_off k))
  | BSeg s off => Some ([], mk_dcursor (dk_symbol k) (dk_addend k) s off)
  | BAddAddr n => Some ([], dk_skip k n)
  | BDo => dk_bind k true 8
  | BDoAdd n => dk_bind k false (8 + n)
  | BDoScaled i => dk_bind k false (i * 8 + 8)
  | BTimes n s => dk_times (Z.to_nat n) s k
  end.

Fixpoint dprogram_slots (ops : list bop) (k : dcursor) : option (list dslot) :=
  match ops with
  | [] => Some []
  | o :: ops =>
      match dbop_slots o k with
      | None => None
      | Some (ss, k) =>
          match dprogram_slots ops k with None => None | Some ts => Some (ss ++ ts) end
      end
  end.

(** Names fit the 256-byte buffer. *)
Definition name_fits (o : bop) : Prop :=
  match o with BSymbol _ name => (length name <= 255)%nat | _ => True end.

Definition at_dk (k : dcursor) (m : mem) : db_state :=
  mk_db (dk_symbol k) (dk_addend k) (dk_seg k) (dk_off k) m.

Lemma dk_slot_store k stub s m :
  dk_slot k stub = Some s -> exists d, dylib_seg segs (dk_seg k) = Some d /\
    dylib_bind_store slide stub d (at_dk k m) = write_dslot m s.
Proof.
  unfold dk_slot. destruct (dk_seg k <? 0) eqn:En; [done|]. bool_to_prop.
  destruct (segs !! Z.to_nat (dk_seg k)) as [d|] eqn:Ed; [|done]. intros [= <-].
  pose proof (lookup_lt_Some _ _ _ Ed). exists d. unfold dylib_seg.
  replace ((dk_seg k >=? 0) && (dk_seg k <? Z.of_nat (length segs))) with true by lia. done.
Qed.

Lemma dk_times_spec count skip k m ss k' :
  dk_times count skip k = Some (ss, k') ->
  dylib_bind_times segs slide count skip (at_dk k m) =
  (m' ← fold_res write_dslot ss m; Ok (at_dk k' m')).
Proof.
  revert k m ss. induction count as [|count IH]; intros k m ss; cbn [dk_times dylib_bind_times].
  - by intros [= <- <-].
  - unfold dk_bind. destruct (dk_slot k false) as [s|] eqn:Es; [|done].
    destruct (dk_times count skip _) as [[ts k1]|] eqn:Et; [|done]. intros [= <- <-].
    destruct (dk_slot_store k false s m Es) as (d & Hd & Hst).
    change (db_seg_index (at_dk k m)) with (dk_seg k). rewrite Hd, Hst. cbn.
    destruct (write_dslot m s) as [m1| |]; cbn; [|done|done].
    exact (IH (dk_skip k (skip + 8)) m1 ts Et).
Qed.

Lemma read_symbol_spec name rest n :
  Forall (fun b => 0 < b < 256) name -> (length name <= n)%nat ->
  read_symbol (name ++ 0 :: rest) n = (name, rest).
Proof.
  intros Hn. revert n. induction Hn as [|b name Hb _ IH]; intros n Hl; cbn.
  - by destruct n.
  - destruct n as [|n]; [cbn in Hl; lia|]. replace (b =? 0) with false by lia.
    rewrite IH; [done|cbn in Hl; lia].
Qed.

Lemma read_symbol_long name rest n :
  Forall (fun b => 0 < b < 256) name -> (n < length name)%nat ->
  read_symbol (name ++ 0 :: rest) n = (take n name, drop (S n) name ++ 0 :: rest).
Proof.
  intros Hn. revert n. induction Hn as [|b name Hb _ IH]; intros n Hl; [cbn in Hl; lia|].
  destruct n as [|n]; [done|]. cbn in Hl |- *. replace (b =? 0) with false by lia. rewrite IH by lia. done.
Qed.

Lemma dylib_bind_step_spec o k m ss k' rest :
  bop_wf o -> name_fits o -> dbop_slots o k = Some (ss, k') ->
  exists byte tl, bop_encode o = byte :: tl /\
    dylib_bind_step segs slide byte (tl ++ rest) (at_dk k m) =
    (m' ← fold_res write_dslot ss m; Ok (Continue (at_dk k' m'), rest)).
Proof.
  intros Hwf Hfit Ht.
  destruct o as [|i|v|i|f name|i|v|s o|o| |o|i|n s]; cbn [bop_wf dbop_slots bop_encode] in *;
    [done|..]; eexists _, _; (split; [reflexivity|]); unfold dylib_bind_step;
    try (injection Ht as <- <-);
    try match type of Hwf with 0 <= ?i < 16 =>
      first [decode_opcode 1 i Hwf; reflexivity | decode_opcode 3 i Hwf; reflexivity
            |decode_opcode 5 i Hwf; reflexivity] end;
    try match goal with
    | |- context [Z.land (Zpos ?c) 240] =>
        let v := eval vm_compute in (Z.land (Zpos c) 240) in change (Z.land (Zpos c) 240) with v
    end;
    cbv iota; try (rewrite uleb_read_back by done; reflexivity);
    try (unfold dk_bind in Ht; destruct (dk_slot k _) as [s|] eqn:Es; [|done];
         injection Ht as <- <-; destruct (dk_slot_store k _ s m Es) as (d & Hd & Hst)).
  - destruct Hwf as [Hf Hname]. decode_opcode 4 f Hf. rewrite <- app_assoc. cbn [app].
    by rewrite read_symbol_spec.
  - by rewrite sleb_read_back.
  - destruct Hwf as [Hs Ho]. decode_opcode 7 s Hs. by rewrite uleb_read_back.
  - change (db_seg_index (at_dk k m)) with (dk_seg k). rewrite Hd, Hst. cbn.
    by destruct (write_dslot m s).
  - change (db_seg_index (at_dk k m)) with (dk_seg k). rewrite Hd, Hst. cbn.
    destruct (write_dslot m s); cbn; [|done|done]. by rewrite uleb_read_back.
  - decode_opcode 11 i Hwf. change (db_seg_index (at_dk k m)) with (dk_seg k).
    rewrite Hd, Hst. cbn. by destruct (write_dslot m s).
  - destruct Hwf as [Hn Hs]. rewrite <- app_assoc, uleb_read_back by done. cbn.
    rewrite uleb_read_back by done. cbn. rewrite (dk_times_spec _ _ _ _ _ _ Ht).
    by destruct (fold_res write_dslot ss m).
Qed.

Lemma dylib_bind_loop_program ops k m ss fuel tail :
  Forall bop_wf ops -> Forall name_fits ops -> dprogram_slots ops k = Some ss ->
  tail = [] \/ (exists junk, tail = 0x00 :: junk) ->
  (length (concat (map bop_encode ops) ++ tail) <= fuel)%nat ->
  dylib_bind_loop segs slide fuel (concat (map bop_encode ops) ++ tail) (at_dk k m) =
  fold_res write_dslot ss m.
Proof.
  intros Hwf Hfit Ht Htail. revert k m ss fuel Hfit Ht.
  induction Hwf as [|o ops Ho _ IH]; intros k m ss fuel Hfit Ht Hf; cbn [map concat] in *.
  - injection Ht as <-. destruct Htail as [-> | [junk ->]]; [by destruct fuel|].
    destruct fuel as [|fuel]; [cbn in Hf; lia|done].
  - inversion Hfit as [|? ? Hn Hfit']; subst. cbn [dprogram_slots] in Ht.
    destruct (dbop_slots o k) as [[ss1 k1]|] eqn:E1; [|done].
    destruct (dprogram_slots ops k1) as [ss2|] eqn:E2; [|done]. injection Ht as <-.
    destruct (dylib_bind_step_spec o k m ss1 k1 (concat (map bop_encode ops) ++ tail) Ho Hn E1)
      as (byte & tl & Eo & Hstep).
    rewrite Eo in Hf |- *. cbn [app length] in *. destruct fuel as [|fuel]; [lia|].
    rewrite <- !app_assoc in *. cbn [dylib_bind_loop]. rewrite Hstep, fold_res_app.
    destruct (fold_res write_dslot ss1 m) as [m1| |]; cbn; [|done|done].
    apply (IH k1 m1 ss2 fuel Hfit' E2). rewrite !length_app in *. lia.
Qed.
End dylib_bind_spec.

(** ** Small dylibs *)

Fixpoint bytes_of_string (s : string) : list Z :=
  match s with
  | EmptyString => []
  | String c s => Z.of_N (Ascii.N_of_ascii c) :: bytes_of_string s
  end.

Definition pad (n : nat) (bs : list Z) : list Z := bs ++ replicate (n - length bs) 0.

Definition header_bytes (ncmds : Z) : list Z :=
  le_bytes 4 MH_MAGIC_64 ++ le_bytes 8 0 ++ le_bytes 4 MH_DYLIB ++ le_bytes 4 ncmds ++
  replicate 12 0.

Definition segment_bytes (name : string) (va vs fo fs : Z) : list Z :=
  le_bytes 4 LC_SEGMENT_64 ++ le_bytes 4 72 ++ pad 16 (bytes_of_string name) ++
  le_bytes 8 va ++ le_bytes 8 vs ++ le_bytes 8 fo ++ le_bytes 8 fs ++
  le_bytes 4 7 ++ le_bytes 4 3 ++ le_bytes 8 0.

Definition symtab_bytes (t : symtab) : list Z :=
  le_bytes 4 LC_SYMTAB ++ le_bytes 4 24 ++ le_bytes 4 (symoff t) ++ le_bytes 4 (nsyms t) ++
  le_bytes 4 (stroff t) ++ le_bytes 4 (strsize t).

Definition dylib_bytes (name : string) : list Z :=
  le_bytes 4 LC_LOAD_DYLIB ++ le_bytes 4 56 ++ le_bytes 4 24 ++ replicate 12 0 ++
  pad 32 (bytes_of_string name).

(** An external symbol defined in a section, with the name at [strx]. *)
Definition nlist_bytes (strx value : Z) : list Z :=
  le_bytes 4 strx ++ [0x0f; 1; 0; 0] ++ le_bytes 8 value.

(** liba depends on libb; each exports one symbol at 0x1004, and the two
    differ in size, by which [mmap] below tells them apart. *)
Definition demo_b : list Z :=
  header_bytes 2 ++ segment_bytes "__DATA" 0x1000 16 0 0 ++
  symtab_bytes (mk_symtab 128 1 144 8) ++ nlist_bytes 1 0x1004 ++ pad 8 [0; 95; 98; 0].

Definition demo_a : list Z :=
  header_bytes 3 ++ segment_bytes "__DATA" 0x1000 8 0 0 ++
  symtab_bytes (mk_symtab 184 1 200 8) ++ dylib_bytes "@loader_path/b.dylib" ++
  nlist_bytes 1 0x1004 ++ pad 8 [0; 95; 97; 0].

Definition failing_pages : Pages.
Proof. refine {| os_mprotect := fun _ _ _ => None; os_mmap_fixed := fun _ _ _ => None |}; done. Defined.

(** A kernel whose [mprotect] opens the pages it is given. *)
Definition granting_pages : Pages :=
  {| os_mprotect := @os_mmap_fixed demo_pages; os_mmap_fixed := @os_mmap_fixed demo_pages;
     os_mprotect_ok := @os_mmap_ok demo_pages; os_mmap_ok := @os_mmap_ok demo_pages |}.

Definition demo_system : System :=
  {| sys_pages := failing_pages;
     sys_reserve := fun _ n => Some (if n =? 8 then 0x10000 else 0x20000);
     sys_load_file := fun p => if streq p "/l/a.dylib" then Some demo_a
                               else if streq p "/l/b.dylib" then Some demo_b else None;
     sys_access := fun p => streq p "/l/b.dylib";
     sys_dlopen := fun _ => 0;
     sys_dlsym := fun _ _ => 0;
     sys_shim_lookup := fun _ => 0;
     sys_dylibs := [];
     sys_prefix := "/p";
     sys_stub := 1;
     sys_stub_nonnull := ltac:(lia) |}.

(** The memory [mmap] gives to the two dylibs, accessible. *)
Definition demo_state : dl_state :=
  mk_dl (replicate MAX_MACHO_DYLIBS empty_dylib) 0 [] []
    (put_bytes (put_bytes ∅ 0x10000 (replicate 8 0)) 0x20000 (replicate 16 0)).

(** ** Properties *)

(** C8 (functional): when every segment of a dylib has a size and does not
    start at address 0 with 2 GiB or more, which is what the code takes for
    __PAGEZERO (a segment of either kind makes the copy stall,
    [map_dylib_segments_stalls]), has a file part that lies in the file and is
    no longer than its memory (otherwise the copy overruns it), and no two
    share a page, and when the kernel reserves a range and grants every change
    of protection, [map_dylib_segments] returns the distance from the lowest
    address to the reserved range, puts every segment's file bytes and zero
    fill at that slide, inside the reserved span, and changes nothing outside
    the segments' pages. *)
Theorem map_dylib_segments_loads `{Pages} (reserve : mem -> Z -> option Z) (f : list Z) (m : mem)
    (segs : list segment_command_64) (lo hi base : Z) :
  rd32 f 0 = Ok MH_MAGIC_64 -> dylib_segments f = Ok segs -> segs <> [] ->
  dylib_span segs = (lo, hi) -> reserve m (u64 (hi - lo)) = Some base ->
  0 <= base < 2 ^ 63 -> lo <= 2 ^ 63 ->
  Forall (placeable f (base - lo)) segs -> ForallOrdPairs apart segs ->
  (forall m seg, In seg segs ->
    is_Some (os_mprotect m (sc_vmaddr seg + (base - lo)) (page_round (sc_vmsize seg)))) ->
  exists m', map_dylib_segments reserve f m = Ok (base - lo, m') /\
    Forall (loaded_at f (base - lo) m') segs /\
    Forall (fun seg => base <= sc_vmaddr seg + (base - lo) /\
                       sc_vmaddr seg + (base - lo) + sc_vmsize seg <= base + (hi - lo)) segs /\
    forall x, Forall (fun seg => ~ in_pages (base - lo) seg x) segs -> m' !! x = m !! x.
Proof.
  intros Hm Hs Hne Hsp Hres Hb Hlo Hok Hap Hprot.
  rewrite (map_dylib_segments_passes _ _ _ _ Hm Hs), Hsp.
  destruct (foldl_span_bounds segs (UINT64_MAX, 0)) as (H1 & H2 & H3 & H4).
  { apply (List.Forall_impl _ (P := placeable f (base - lo))); [|exact Hok].
    intros seg (? & ? & ? & ? & ? & ? & ? & _). repeat split; try lia. done. }
  change (foldl span_of (UINT64_MAX, 0) segs) with (dylib_span segs) in *. rewrite Hsp in *.
  cbn [fst snd] in *. unfold UINT64_MAX in *.
  assert (0 <= lo) as Hlo0.
  { destruct H4 as [->|(seg & Hin & ->)]; [lia|]. rewrite List.Forall_forall in Hok.
    destruct (Hok seg Hin) as (_ & ? & _). done. }
  replace (lo =? 2 ^ 64 - 1) with false by lia. rewrite Hres.
  replace (i64 (base - lo)) with (base - lo) by (symmetry; apply signed_small; lia).
  rewrite until_skipped_all.
  2:{ apply (List.Forall_impl _ (P := placeable f (base - lo))); [|exact Hok].
      by intros seg (_ & _ & _ & _ & _ & _ & ? & _). }
  destruct (place_segments_spec f (base - lo) segs Hprot segs m) as (m' & -> & Hl & Ho); auto.
  { by intros x. }
  exists m'. cbn. split; [done|]. split; [done|]. split; [|done].
  apply List.Forall_forall. intros seg Hin. destruct (H3 seg Hin). lia.
Qed.

Lemma map_dylib_segments_loads_witness :
  let f := header_bytes 1 ++ segment_bytes "__DATA" 0x1000 4 32 2 in
  exists m', @map_dylib_segments granting_pages (fun _ _ => Some 0x9000) f ∅ = Ok (0x8000, m') /\
    m' !! 0x9000 = Some 0x19 /\ m' !! 0x9003 = Some 0.
Proof.
  intros f. pose (seg := mk_segcmd "__DATA" 0x1000 4 32 2 3 0).
  destruct (@map_dylib_segments_loads granting_pages (fun _ _ => Some 0x9000) f ∅ [seg] 0x1000 0x1004
    0x9000) as (m' & Hrun & Hl & _).
  - reflexivity.
  - reflexivity.
  - discriminate.
  - reflexivity.
  - reflexivity.
  - lia.
  - lia.
  - constructor; [|constructor]. unfold placeable. cbn [sc_vmsize sc_vmaddr sc_fileoff sc_filesize seg].
    repeat split; try lia; vm_compute; congruence.
  - repeat constructor.
  - intros m s _. eexists. reflexivity.
  - exists m'. split; [exact Hrun|]. inversion Hl as [|? ? Hseg _]; subst.
    split; [exact (Hseg 0 ltac:(cbn; lia))|exact (Hseg 3 ltac:(cbn; lia))].
Defined.

(** An empty or __PAGEZERO segment ends the mapping: the
    [continue] that should skip it leaves the command pointer where it is, so
    [map_dylib_segments] reserves room for all the segments but copies only
    those before it, whatever the later ones are. *)
Theorem map_dylib_segments_stalls `{Pages} (reserve : mem -> Z -> option Z) (f : list Z) (m : mem)
    (before after : list segment_command_64) (seg : segment_command_64) (lo hi base : Z) :
  rd32 f 0 = Ok MH_MAGIC_64 -> dylib_segments f = Ok (before ++ seg :: after) ->
  Forall (fun s => skipped s = false) before -> skipped seg = true ->
  dylib_span (before ++ seg :: after) = (lo, hi) -> lo <> UINT64_MAX ->
  reserve m (u64 (hi - lo)) = Some base ->
  map_dylib_segments reserve f m =
    (m' ← fold_res (fun m s => place_segment f (i64 (base - lo)) s m) before m;
     Ok (i64 (base - lo), m')).
Proof.
  intros Hm Hs Hb Hseg Hsp Hlo Hres.
  rewrite (map_dylib_segments_passes _ _ _ _ Hm Hs), Hsp.
  replace (lo =? UINT64_MAX) with false by lia. rewrite Hres.
  replace (until_skipped (before ++ seg :: after)) with before; [done|].
  clear -Hb Hseg. induction Hb as [|s l Hs _ IH]; cbn; [by rewrite Hseg|]. by rewrite Hs, <- IH.
Qed.

Lemma map_dylib_segments_stalls_witness :
  let f := header_bytes 2 ++ segment_bytes "__EMPTY" 0 0 0 0 ++
           segment_bytes "__DATA" 0x1000 4 32 2 in
  @map_dylib_segments demo_pages (fun _ _ => Some 0x9000) f ∅ = Ok (0x8000, ∅).
Proof.
  intros f. rewrite (@map_dylib_segments_stalls demo_pages (fun _ _ => Some 0x9000) f ∅ []
    [mk_segcmd "__DATA" 0x1000 4 32 2 3 0] (mk_segcmd "__EMPTY" 0 0 0 0 3 0) 0x1000 0x1004 0x9000).
  - reflexivity.
  - reflexivity.
  - reflexivity.
  - constructor.
  - reflexivity.
  - reflexivity.
  - discriminate.
  - reflexivity.
Defined.

(** [parse_dylib_exports] appends, in symbol-table order and
    up to MAX_DYLIB_SYMS, every external symbol that is defined in a section,
    has a value and a name, without its leading underscore and at its value
    plus the dylib's slide; name and slide are kept. *)
Theorem parse_dylib_exports_spec (f : list Z) (t : symtab) (sym : Z -> option (string * Z))
    (md : macho_dylib) :
  rd32 f 0 = Ok MH_MAGIC_64 -> for_commands f (find_symtab f) no_symtab = Ok t ->
  symoff t <> 0 -> 0 < nsyms t ->
  (forall j, 0 <= j < nsyms t -> exported_symbol f t j = Ok (sym j)) ->
  exists md', parse_dylib_exports f md = Ok md' /\
    md_name md' = md_name md /\ md_slide md' = md_slide md /\
    md_exports md' = md_exports md ++
      take (Z.to_nat MAX_DYLIB_SYMS - length (md_exports md))
        (map (slid_export (md_slide md)) (omap sym (seqZ 0 (nsyms t)))).
Proof.
  intros Hm Ht Hso Hn Hs. eexists. split.
  - apply parse_exports. split; [done|]. exists t, sym. auto.
  - done.
Qed.

Lemma parse_dylib_exports_spec_witness :
  exists md', parse_dylib_exports demo_b (mk_macho_dylib "b" 0x1F000 []) = Ok md' /\
    md_exports md' = [("b"%string, 0x20004)].
Proof.
  destruct (parse_dylib_exports_spec demo_b (mk_symtab 128 1 144 8)
    (fun _ => Some ("b"%string, 0x1004)) (mk_macho_dylib "b" 0x1F000 []))
    as (md' & Hrun & _ & _ & He).
  - reflexivity.
  - reflexivity.
  - discriminate.
  - cbn. lia.
  - intros j Hj. cbn in Hj. assert (j = 0) as -> by lia. reflexivity.
  - exists md'. split; [exact Hrun|]. rewrite He. reflexivity.
Defined.

(** C10 (equivalence): on a rebase program that sets the pointer type and a
    segment first, sets no other type later, and that the main image's
    interpreter accepts, the dylib interpreter does the same: both add the
    slide to exactly the pointers the program names in the slid segments.
    The condition is needed: after another type is set the main interpreter
    leaves the pointers alone and the dylib's slides them all the same. *)
Theorem dylib_rebases_agree (segs : list dylib_segment) (slide s off : Z) (ops : list rop)
    (pre tail post : list Z) (m m' : mem) (ts : list Z) :
  let prog := RSetType REBASE_TYPE_POINTER :: RSetSeg s off :: ops in
  let code := concat (map rop_encode prog) ++ tail in
  (length segs <= MAX_DYLIB_SEGS)%nat -> Forall rop_wf prog -> Forall pointer_typed ops ->
  (tail = [] \/ exists junk, tail = 0x00 :: junk) ->
  program_targets (map (slid_segment slide) segs) prog (mk_cursor 0 0 0) = Some ts ->
  slide_pointers slide ts m = Ok m' -> pre <> [] -> buf_len (pre ++ code) < 2 ^ 32 ->
  process_dylib_rebases segs slide (pre ++ code ++ post) (buf_len pre) (buf_len code) m = Ok m' /\
  execute_rebases (map (slid_segment slide) segs) slide (pre ++ code ++ post)
    (buf_len pre) (buf_len code) m = Ok (0, m').
Proof.
  intros prog code Hsegs Hwf Hpt Htail Ht Hm Hpre Hlen. split.
  2:{ apply (execute_rebases_program _ _ _ _ _ _ _ _ ts); auto. rewrite length_map.
      unfold MAX_DYLIB_SEGS in Hsegs. unfold MAX_SEGMENTS. lia. }
  apply Forall_cons_iff in Hwf as [_ [[Hs Ho] Hwf2]%Forall_cons_iff].
  unfold process_dylib_rebases.
  assert (0 < buf_len pre) by (destruct pre; [done|unfold buf_len; cbn; lia]).
  assert (0 < buf_len code) by (unfold buf_len, code; cbn; lia).
  replace ((buf_len pre =? 0) || (buf_len code =? 0)) with false by lia.
  rewrite buf_slice_in. cbn [mbind res_bind].
  unfold prog in Ht. cbn [program_targets rop_targets c_type c_seg c_off] in Ht.
  destruct (program_targets (map (slid_segment slide) segs) ops (mk_cursor REBASE_TYPE_POINTER s off))
    as [us|] eqn:Eu; [injection Ht as <-|done].
  assert (forall fuel rest, dylib_rebase_loop segs slide (S (S fuel))
    (rop_encode (RSetType REBASE_TYPE_POINTER) ++ rop_encode (RSetSeg s off) ++ rest)
    (mk_rb 0 (-1) 0 m) = dylib_rebase_loop segs slide fuel rest (at_cursor (mk_cursor 1 s off) m)) as Hpro.
  { intros fuel rest. cbn [rop_encode app dylib_rebase_loop].
    unfold dylib_rebase_step. change (Z.land (16 + REBASE_TYPE_POINTER) 240) with 16.
    cbv iota. cbn [mbind res_bind]. decode_opcode 2 s Hs. rewrite uleb_read_back by done. done. }
  assert (length code = S (S (length code - 2))) as ->
    by (unfold code; cbn; rewrite !length_app; lia).
  replace code with (rop_encode (RSetType REBASE_TYPE_POINTER) ++ rop_encode (RSetSeg s off) ++
    concat (map rop_encode ops) ++ tail) at 2
    by (unfold code, prog; cbn [map concat]; by rewrite <- !app_assoc).
  rewrite Hpro.
  destruct (dylib_rebase_loop_program segs slide ops (mk_cursor 1 s off) m us m'
    (length code - 2) tail Hwf2 Hpt eq_refl Eu Hm) as (c' & fuel' & Hf & Hrun).
  { unfold code. cbn. rewrite !length_app. lia. }
  rewrite Hrun. destruct Htail as [-> | [junk ->]]; [by destruct fuel'|].
  destruct fuel' as [|fuel']; [cbn in Hf; lia|]. done.
Qed.

(** After another type than pointer the main interpreter moves on without a
    write, the dylib's slides the pointer. *)
Theorem dylib_ignores_rebase_type (segs : list dylib_segment) (slide t s off v : Z) (m m' : mem) (d : dylib_segment) :
  t <> REBASE_TYPE_POINTER -> 0 <= s -> segs !! Z.to_nat s = Some d -> (length segs <= MAX_DYLIB_SEGS)%nat ->
  let target := u64 (d_vmaddr d + off + slide) in
  load64 m target = Ok v -> store64 m target (u64 (v + slide)) = Ok m' ->
  do_one_rebase (map (slid_segment slide) segs) slide (mk_rb t s off m) = Ok (Continue (mk_rb t s (u64 (off + 8)) m)) /\
  dylib_rebase_one segs slide 8 (mk_rb t s off m) = Ok (mk_rb t s (u64 (off + 8)) m').
Proof.
  intros Ht%Z.eqb_neq Hs Hd Hlen target Hl Hst. pose proof (lookup_lt_Some _ _ _ Hd) as Hlt. split.
  - destruct (segment_at_valid (map (slid_segment slide) segs) s) as (sg & _ & Esg).
    { unfold nsegments. rewrite length_map. lia. }
    { rewrite length_map. unfold MAX_DYLIB_SEGS, MAX_SEGMENTS in *. lia. }
    unfold do_one_rebase, nsegments. cbn [rb_seg_index rb_type rb_seg_offset rb_mem]. rewrite length_map, Esg.
    replace ((s <? 0) || (s >=? Z.of_nat (length segs))) with false by lia. cbn [mbind res_bind]. by rewrite Ht.
  - unfold dylib_rebase_one, dylib_seg. cbn [rb_seg_index rb_type rb_seg_offset rb_mem].
    replace ((s >=? 0) && (s <? Z.of_nat (length segs))) with true by lia. rewrite Hd. fold target. rewrite Hl. cbn [mbind res_bind]. by rewrite Hst.
Qed.

Lemma dylib_ignores_rebase_type_witness :
  let m : mem := put_bytes ∅ 0x1508 (le_bytes 8 0x10) in
  do_one_rebase (map (slid_segment 0x500) [mk_dseg 0x1000 0x1000 0 0]) 0x500 (mk_rb 2 0 8 m) = Ok (Continue (mk_rb 2 0 16 m)) /\
  dylib_rebase_one [mk_dseg 0x1000 0x1000 0 0] 0x500 8 (mk_rb 2 0 8 m) = Ok (mk_rb 2 0 16 (put_bytes m 0x1508 (le_bytes 8 0x510))).
Proof.
  intros m. apply (dylib_ignores_rebase_type [mk_dseg 0x1000 0x1000 0 0] 0x500 2 0 8 0x10 m (put_bytes m 0x1508 (le_bytes 8 0x510)) (mk_dseg 0x1000 0x1000 0 0));
    first [discriminate | lia | reflexivity | vm_compute; reflexivity | unfold MAX_DYLIB_SEGS; cbn; lia].
Defined.

Lemma dylib_rebases_agree_witness :
  let m : mem := list_to_map (zip (seqZ 0x1508 8) [0x10; 0; 0; 0; 0; 0; 0; 0]) in
  process_dylib_rebases [mk_dseg 0x1000 0x1000 0 0] 0x500 [9; 0x11; 0x20; 8; 0x51; 0; 7] 1 5 m =
  Ok (put_bytes m 0x1508 (le_bytes 8 0x510)).
Proof.
  intros m.
  apply (dylib_rebases_agree [mk_dseg 0x1000 0x1000 0 0] 0x500 0 8 [RDoImm 1] [9] [0] [7] m
    (put_bytes m 0x1508 (le_bytes 8 0x510)) [0x1508]).
  - unfold MAX_DYLIB_SEGS. cbn. lia.
  - repeat constructor; cbn; unfold is_u64, REBASE_TYPE_POINTER; lia.
  - repeat constructor.
  - right. by exists [].
  - reflexivity.
  - vm_compute. reflexivity.
  - discriminate.
  - vm_compute. reflexivity.
Defined.



(** A dependency replaced by the Linux ncurses ends the
    dependency pass: its [continue] keeps the command pointer, so the rest of
    the iterations register the same handle again and no later dependency is
    looked at; the table of dylibs does not change. *)
Theorem ncurses_ends_the_dependencies `{System} (load : string -> dl_state -> res (Z * dl_state))
    (f : list Z) (path dep : string) (n : nat) (lc cmd name_offset : Z) (st : dl_state) :
  let h := if sys_dlopen "libncursesw.so.6" =? 0 then sys_dlopen "libncurses.so.6"
           else sys_dlopen "libncursesw.so.6" in
  rd32 f lc = Ok cmd -> cmd = LC_LOAD_DYLIB \/ cmd = LC_LOAD_WEAK_DYLIB ->
  rd32 f (lc + 8) = Ok name_offset -> rd_cstring f (lc + name_offset) = Ok dep ->
  dep_decide sys_access dep (dep_path sys_prefix (dylib_dir path) dep) = DepNcurses ->
  lc_loop f (load_dependency load f path) n lc st = Ok (Nat.iter n (add_handle h) st) /\
  dl_slots (Nat.iter n (add_handle h) st) = dl_slots st.
Proof.
  intros h Hc Hcmd Hno Hdep Hd. split.
  - apply (lc_loop_stay f _ _ n lc cmd st Hc). intros s. unfold load_dependency.
    replace ((cmd =? LC_LOAD_DYLIB) || (cmd =? LC_LOAD_WEAK_DYLIB)) with true.
    2:{ by destruct Hcmd as [->| ->]. }
    rewrite Hno. cbn [mbind res_bind]. rewrite Hdep. cbn [mbind res_bind]. by rewrite Hd.
  - induction n as [|n IH]; [done|]. exact IH.
Qed.

Lemma ncurses_ends_the_dependencies_witness :
  let f := dylib_bytes "/usr/lib/libncurses.dylib" ++ dylib_bytes "/l/b.dylib" in
  lc_loop f (@load_dependency demo_system (fun _ st => Undef) f "/l/a.dylib") 2 0 demo_state =
  Ok (Nat.iter 2 (@add_handle demo_system 0) demo_state).
Proof.
  intros f.
  apply (@ncurses_ends_the_dependencies demo_system (fun _ st => Undef) f "/l/a.dylib"
    "/usr/lib/libncurses.dylib" 2 0 LC_LOAD_DYLIB 24 demo_state).
  - reflexivity.
  - by left.
  - reflexivity.
  - reflexivity.
  - reflexivity.
Defined.

(** C9 (refinement): [process_dylib_binds] on the encoding of a bind program
    whose symbol names have at most 255 bytes and whose segments exist does
    what the program says, whatever type and ordinal it sets: each slot it
    names gets the address the flat lookup finds plus the addend, an
    unresolved symbol gets the stub (DO_BIND) or leaves the slot alone (the
    other opcodes), in order; it stops at the first DONE, so what follows one
    in a lazy-bind range has no effect.  A longer name is cut to 255 bytes,
    one more byte is skipped, and what is left of it is run as opcodes. *)
Theorem process_dylib_binds_refines `{Linker} (segs : list dylib_segment) (slide : Z)
    (ops : list bop) (pre tail post : list Z) (m : mem) (ss : list dslot) :
  let code := concat (map bop_encode ops) ++ tail in
  Forall bop_wf ops -> Forall name_fits ops ->
  dprogram_slots segs slide ops (mk_dcursor EmptyString 0 (-1) 0) = Some ss ->
  tail = [] \/ (exists junk, tail = 0x00 :: junk) ->
  pre <> [] -> buf_len (pre ++ code) < 2 ^ 32 ->
  process_dylib_binds segs slide (pre ++ code ++ post) (buf_len pre) (buf_len code) m =
  fold_res write_dslot ss m /\
  forall i name rest st, 0 <= i < 16 -> Forall (fun b => 0 < b < 256) name -> (255 < length name)%nat ->
    dylib_bind_step segs slide (0x40 + i) (name ++ 0 :: rest) st =
    Ok (Continue (mk_db (string_of_bytes (take 255 name)) (db_addend st) (db_seg_index st) (db_seg_offset st) (db_mem st)),
        drop 256 name ++ 0 :: rest).
Proof.
  intros code Hwf Hfit Ht Htail Hpre Hlen. split.
  2:{ intros i name rest st Hi Hn Hl. unfold dylib_bind_step. decode_opcode 4 i Hi. by rewrite read_symbol_long. }
  unfold process_dylib_binds.
  rewrite buf_len_app in Hlen. pose proof (buf_len_nonneg code). pose proof (buf_len_nonneg post).
  assert (0 < buf_len pre) by (destruct pre; [done|unfold buf_len; cbn; lia]).
  replace (buf_len pre =? 0) with false by lia. cbn [orb].
  destruct (Z.eqb_spec (buf_len code) 0) as [E0|_].
  { destruct ops as [|o ops]; [by injection Ht as <-|]. exfalso. unfold buf_len, code in E0.
    cbn in E0. rewrite !length_app in E0. destruct o; cbn in E0; lia. }
  rewrite u32_small by lia. rewrite (buf_len_app pre), (buf_len_app code post).
  replace (_ >? _) with false by lia. rewrite buf_slice_in. cbn [mbind res_bind].
  apply (dylib_bind_loop_program segs slide ops _ m ss (length code) tail Hwf Hfit Ht Htail).
  done.
Qed.

Lemma process_dylib_binds_refines_witness :
  let m : mem := put_bytes ∅ 0x1508 (replicate 8 0) in
  let L := @state_linker demo_system (mk_dl [mk_macho_dylib "b" 0 [("f"%string, 0x77)]] 1 [] [] ∅) in
  process_dylib_binds (H := L) [mk_dseg 0x1000 0x1000 0 0] 0x500
    [9; 0x40; 95; 102; 0; 0x70; 8; 0x90; 0; 0x70; 8; 0x90] 1 11 m =
  Ok (put_bytes m 0x1508 (le_bytes 8 0x77)).
Proof.
  intros m L.
  etransitivity; [apply (process_dylib_binds_refines (H := L) [mk_dseg 0x1000 0x1000 0 0] 0x500
    [BSymbol 0 [95; 102]; BSeg 0 8; BDo] [9] [0; 0x70; 8; 0x90] [] m
    [mk_dslot 0x1508 "f" 0 true])|].
  - repeat constructor; cbn; unfold is_u64; lia.
  - repeat constructor; cbn; lia.
  - reflexivity.
  - right. by exists [0x70; 8; 0x90].
  - discriminate.
  - vm_compute. reflexivity.
  - vm_compute. reflexivity.
Defined.
