(* ===== verification/Entry.v ===== *)
(** * From the command line to the image (src/src/main.c)

    Options, the resolution of the program to a file (guest paths, "#!"
    chains), the name of a Homebrew package, the choice of a slice in a fat
    binary and the checks of the Mach-O header.  Files are a parameter, a
    function from host paths to contents; path translation is PrefixPath.v.
    Usage and error messages are left out. *)
From Stdlib Require Import ZArith Lia Bool.
From stdpp Require Import base gmap list strings numbers.
From S2P Require Import Prelude Leb128 LoaderState Symbols Binds ChainedFixups Segments PrefixPath MachoDylib.

(** ** Options *)

Inductive options :=
| OptExit (code : Z)
| OptRun (g_verbose g_no_fast_path : bool) (user_argv : list string).

(** The option loop over the arguments after [argv[0]]. *)
Fixpoint parse_options (args : list string) (verbose no_fast : bool) : options :=
  match args with
  | [] => OptExit 1
  | a :: rest =>
      if negb (starts_with "-" a) then OptRun verbose no_fast args
      else if streq a "-v" || streq a "--verbose" then parse_options rest true no_fast
      else if streq a "-q" || streq a "--quiet" then parse_options rest false no_fast
      else if streq a "--no-fast-path" then parse_options rest verbose true
      else if streq a "--" then
        match rest with [] => OptExit 1 | _ => OptRun verbose no_fast rest end
      else if streq a "-h" || streq a "--help" then OptExit 0
      else OptExit 1
  end.

(** ** Entry resolution *)

Section entry.
  Context (files : string -> option (list Z)) (env : environment).

Definition macify_entry_exists (path : string) : bool :=
  match files path with Some _ => true | None => false end.

Definition macify_entry_is_macho (path : string) : bool :=
  match files path with
  | None => false
  | Some f =>
      match read_le (buf_get f) 4 0 with
      | Ok magic => (magic =? 0xFEEDFACF) || (magic =? 0xBEBAFECA)
      | _ => false
      end
  end.

Definition is_eol (c : Ascii.ascii) : bool :=
  Ascii.eqb c (Ascii.ascii_of_nat 10) || Ascii.eqb c (Ascii.ascii_of_nat 13).
Definition is_blank (c : Ascii.ascii) : bool :=
  Ascii.eqb c (Ascii.ascii_of_nat 32) || Ascii.eqb c (Ascii.ascii_of_nat 9).

(** [strpbrk] and a cut. *)
Fixpoint before_eol (s : string) : string :=
  match s with
  | EmptyString => EmptyString
  | String c s => if is_eol c then EmptyString else String c (before_eol s)
  end.

Fixpoint skip_blanks (s : string) : string :=
  match s with
  | String c t => if is_blank c then skip_blanks t else s
  | EmptyString => EmptyString
  end.

(** The interpreter a "#!" line names. *)
Definition macify_entry_parse_shebang (path : string) (isz : nat) : option string :=
  match files path with
  | None => None
  | Some f =>
      let line := take 511 f in
      if (length line <=? 2)%nat then None else
      let line := string_of_bytes (until_nul line) in
      if negb (starts_with "#!" line) then None else
      let p := skip_blanks (sdrop 2 (before_eol line)) in
      match p with
      | EmptyString => None
      | _ => Some (snprintf isz (before_char (Ascii.ascii_of_nat 32) p))
      end
  end.

Definition BUF : nat := Z.to_nat 4096.

(** [macify_translate_path(...) == 0 && macify_entry_exists(translated)] *)
Definition translated_existing (st : prefix_state) (path : string) : option string * prefix_state :=
  let '(t, st) := macify_translate_path env st path BUF in
  (match t with Some t => if macify_entry_exists t then Some t else None | None => None end, st).

(** [while (hops < 5)]: [n] hops are left; the tokens found so far, newest
    last, and the effective path. *)
Fixpoint hop_loop (n : nat) (eff : string) (toks : list string) (st : prefix_state)
    : string * list string * prefix_state :=
  match n with
  | O => (eff, toks, st)
  | S n =>
      if macify_entry_is_macho eff then (eff, toks, st) else
      match macify_entry_parse_shebang eff BUF with
      | None => (eff, toks, st)
      | Some raw =>
          let '(t, st) := translated_existing st raw in
          let host := snprintf BUF (default raw t) in
          hop_loop n host (toks ++ [snprintf BUF raw]) st
      end
  end.

Definition MAX_HOPS : nat := 5.
Definition MACIFY_ENTRY_ARGV_MAX : nat := Z.to_nat 1024.

(** [av]: the last interpreter, the scripts back to the entry, the arguments. *)
Definition exec_argv (path : string) (toks argv_in : list string) : list string :=
  let head := rev (path :: toks) in
  head ++ take (MACIFY_ENTRY_ARGV_MAX - 1 - length head) (drop 1 argv_in).

Definition macify_resolve_entry (st : prefix_state) (path : string) (argv_in : list string)
    : string * list string * prefix_state :=
  let '(eff, st) :=
    if macify_entry_exists path then (path, st)
    else match translated_existing st path with
         | (Some t, st) => (snprintf BUF t, st)
         | (None, st) => (path, st)
         end in
  let '(eff, toks, st) := hop_loop MAX_HOPS eff [] st in
  match toks with
  | [] => (eff, argv_in, st)
  | _ => (eff, exec_argv path toks argv_in, st)
  end.

End entry.

(** ** Homebrew placeholders *)

(** Up to the next '/', at most 255 characters. *)
Definition macify_extract_homebrew_pkg (name : string) : option string :=
  let p :=
    if contains "@@HOMEBREW_CELLAR@@" name then
      let p := sdrop 19 name in Some (if head_is slash p then sdrop 1 p else p)
    else if contains "@@HOMEBREW_PREFIX@@" name then
      let p := sdrop 19 name in if starts_with "/opt/" p then Some (sdrop 5 p) else None
    else None in
  match p with
  | None => None
  | Some p => match stake 255 (before_char slash p) with
              | EmptyString => None
              | pkg => Some pkg
              end
  end.

(** ** Fat binaries and the header *)

(** [__builtin_bswap32] of a 32-bit read. *)
Definition rd32_be (f : list Z) (i : Z) : res Z :=
  match get_bytes (buf_get f) i 4 with Some bs => Ok (le_value (rev bs)) | None => Undef end.

Definition CPU_TYPE_X86_64 : Z := 0x01000007.
Definition MH_EXECUTE : Z := 2.

(** The architecture loop from index [i], [n] iterations left: [file_data]
    is at offset [base] of the file and [size] is [file_size].  [None] when
    the slice ends past the end of the file. *)
Fixpoint fat_loop (f : list Z) (n : nat) (i base size : Z) : res (option (Z * Z)) :=
  match n with
  | O => Ok (Some (base, size))
  | S n =>
      let arch := base + 8 + i * 20 in
      cputype ← rd32_be f arch;
      offset ← rd32_be f (arch + 8);
      sz ← rd32_be f (arch + 12);
      if cputype =? CPU_TYPE_X86_64 then
        if u32 (offset + sz) >? size then Ok None
        else fat_loop f n (i + 1) (base + offset) sz
      else fat_loop f n (i + 1) base size
  end.

(** Where the image starts in the file and its size. *)
Definition fat_slice (f : list Z) : res (option (Z * Z)) :=
  if buf_len f <? 4 then Ok None else
  magic ← rd32 f 0;
  if magic =? 0xBEBAFECA then
    if buf_len f <? 8 then Ok None else
    nfat ← rd32_be f 4;
    fat_loop f (Z.to_nat (Z.min nfat 16)) 0 0 (buf_len f)
  else Ok (Some (0, buf_len f)).

(** The image of an x86-64 executable, [None] when the file is refused.  A
    slice that the accepted offsets put outside the file is undefined. *)
Definition check_image (f : list Z) : res (option (list Z)) :=
  r ← fat_slice f;
  match r with
  | None => Ok None
  | Some (base, size) =>
      if size <? MH_HEADER_SIZE then Ok None else
      img ← buf_slice f base size;
      magic ← rd32 img 0;
      if negb (magic =? MH_MAGIC_64) then Ok None else
      cputype ← rd32 img 4;
      if negb (cputype =? CPU_TYPE_X86_64) then Ok None else
      filetype ← rd32 img 12;
      if negb (filetype =? MH_EXECUTE) then Ok None else
      Ok (Some img)
  end.

(** ** Script chains *)

(** ** Specification: what a file is *)

(** A file that starts with the magic number of a 64-bit little-endian Mach-O
    image or of a fat binary, byte by byte. *)
Definition macho_file (f : list Z) : Prop :=
  exists rest, f = [0xCF; 0xFA; 0xED; 0xFE] ++ rest \/ f = [0xCA; 0xFE; 0xBA; 0xBE] ++ rest.

Fixpoint all_chars (p : Ascii.ascii -> bool) (s : string) : bool :=
  match s with EmptyString => true | String c s => p c && all_chars p s end.

Definition token_char (c : Ascii.ascii) : bool :=
  negb (is_blank c || is_eol c || Ascii.eqb c Ascii.zero).

(** A script for the interpreter [raw]: "#!", blanks, the interpreter, and the
    end of the file, a NUL, the end of the line, or a space and whatever
    follows; up to there at most 511 bytes. *)
Definition script_file (f : list Z) (raw : string) : Prop :=
  exists ws rest, f = bytes_of_string ("#!" +:+ ws +:+ raw) ++ rest /\
    all_chars is_blank ws = true /\ all_chars token_char raw = true /\ raw <> EmptyString /\
    (String.length ("#!" +:+ ws +:+ raw) <= 511)%nat /\
    match rest with [] => True | b :: _ => b ∈ [0; 10; 13; 32] end.

Lemma string_of_bytes_app a b : string_of_bytes (a ++ b) = string_of_bytes a +:+ string_of_bytes b.
Proof. induction a as [|x a IH]; [done|]. cbn [app string_of_bytes]. rewrite IH. done. Qed.

Lemma string_of_bytes_of_string s : string_of_bytes (bytes_of_string s) = s.
Proof.
  induction s as [|c s IH]; [done|]. cbn [bytes_of_string string_of_bytes].
  by rewrite N2Z.id, Ascii.ascii_N_embedding, IH.
Qed.

Lemma length_bytes_of_string s : length (bytes_of_string s) = String.length s.
Proof. induction s as [|c s IH]; [done|]. cbn. by rewrite IH. Qed.

Lemma until_nul_string s r :
  all_chars (fun c => negb (Ascii.eqb c Ascii.zero)) s = true ->
  until_nul (bytes_of_string s ++ r) = bytes_of_string s ++ until_nul r.
Proof.
  induction s as [|c s IH]; [done|]. cbn [all_chars bytes_of_string app until_nul]. intros [Hc Hs]%andb_prop.
  assert (Z.of_N (Ascii.N_of_ascii c) <> 0).
  { intros E. apply negb_true_iff, Ascii.eqb_neq in Hc. apply Hc.
    rewrite <- (Ascii.ascii_N_embedding c). by replace (Ascii.N_of_ascii c) with 0%N by lia. }
  rewrite (proj2 (Z.eqb_neq _ 0)) by done. by rewrite IH.
Qed.

Lemma all_chars_app p a b : all_chars p (a +:+ b) = all_chars p a && all_chars p b.
Proof.
  induction a as [|c a IH]; [done|]. change (String c a +:+ b) with (String c (a +:+ b)).
  cbn [all_chars]. by rewrite IH, andb_assoc.
Qed.

Lemma all_chars_impl (p q : Ascii.ascii -> bool) s :
  (forall c, p c = true -> q c = true) -> all_chars p s = true -> all_chars q s = true.
Proof.
  intros Hpq. induction s as [|c s IH]; [done|]. cbn. intros [Hc Hs]%andb_prop. by rewrite Hpq, IH.
Qed.

Lemma before_eol_app a b :
  all_chars (fun c => negb (is_eol c)) a = true -> before_eol (a +:+ b) = a +:+ before_eol b.
Proof.
  induction a as [|c a IH]; [done|]. cbn [all_chars]. intros [Hc Ha]%andb_prop.
  change (String c a +:+ b) with (String c (a +:+ b)). cbn [before_eol].
  apply negb_true_iff in Hc. by rewrite Hc, IH.
Qed.

Lemma skip_blanks_token ws raw x :
  all_chars is_blank ws = true -> all_chars token_char raw = true -> raw <> EmptyString ->
  skip_blanks (ws +:+ raw +:+ x) = raw +:+ x.
Proof.
  intros Hw Hr Hne. induction ws as [|c ws IH].
  - destruct raw as [|c raw]; [done|]. cbn in Hr. apply andb_prop in Hr as [Hc _].
    unfold token_char in Hc. change (EmptyString +:+ String c raw +:+ x) with (String c (raw +:+ x)).
    cbn [skip_blanks]. by destruct (is_blank c).
  - cbn in Hw. apply andb_prop in Hw as [Hc Hw].
    change (String c ws +:+ raw +:+ x) with (String c (ws +:+ raw +:+ x)). cbn [skip_blanks]. by rewrite Hc, IH.
Qed.

Lemma token_no_space raw : all_chars token_char raw = true -> has_char (Ascii.ascii_of_nat 32) raw = false.
Proof.
  induction raw as [|c raw IH]; [done|]. cbn [all_chars has_char]. intros [Hc Hr]%andb_prop. rewrite IH by done.
  rewrite orb_false_r. unfold token_char, is_blank in Hc. apply negb_true_iff in Hc.
  rewrite Ascii.eqb_sym. by destruct (Ascii.eqb c (Ascii.ascii_of_nat 32)).
Qed.

Lemma before_char_app c a s :
  has_char c a = false -> before_char c (a +:+ String c s) = a.
Proof.
  induction a as [|d a IH]; cbn [String.append before_char has_char].
  - intros _. change (EmptyString +:+ String c s) with (String c s). cbn [before_char].
    by rewrite Ascii.eqb_refl.
  - intros H. change (String d a +:+ String c s) with (String d (a +:+ String c s)).
    cbn [before_char]. apply orb_false_iff in H as [Hd Ha]. rewrite Hd. f_equal. by apply IH.
Qed.

(** What the parser keeps of a line after the interpreter is nothing, or
    starts with the space. *)
Lemma line_end rest n :
  match rest with [] => True | b :: _ => b ∈ [0; 10; 13; 32] end ->
  let x := before_eol (string_of_bytes (until_nul (take n rest))) in
  x = EmptyString \/ exists y, x = String (Ascii.ascii_of_nat 32) y.
Proof.
  cbv zeta. destruct rest as [|b rest]; [rewrite take_nil; by left|]. destruct n as [|n]; [by left|].
  intros Hb. repeat (apply elem_of_cons in Hb as [->|Hb]); [by left..|right|by apply elem_of_nil in Hb].
  eexists. reflexivity.
Qed.

Lemma script_file_parses (files : string -> option (list Z)) path f raw :
  files path = Some f -> script_file f raw ->
  macify_entry_is_macho files path = false /\ macify_entry_parse_shebang files path BUF = Some raw /\
  snprintf BUF raw = raw.
Proof.
  intros Hf (ws & rest & -> & Hw & Hr & Hne & Hl & He).
  assert (snprintf BUF raw = raw) as Hsn.
  { apply stake_all. rewrite !string_length_app in Hl. unfold BUF. lia. }
  set (h := "#!" +:+ ws +:+ raw) in *. split; [|split; [|done]].
  { unfold macify_entry_is_macho. rewrite Hf. unfold h, read_le.
    change (bytes_of_string ("#!" +:+ ws +:+ raw) ++ rest) with (35 :: 33 :: bytes_of_string (ws +:+ raw) ++ rest).
    destruct (bytes_of_string (ws +:+ raw) ++ rest) as [|x [|y l]]; [done..|].
    change (get_bytes (buf_get (35 :: 33 :: x :: y :: l)) 0 4) with (Some [35; 33; x; y]).
    cbn [le_value]. lia. }
  unfold macify_entry_parse_shebang. rewrite Hf.
  assert (all_chars (fun c => negb (Ascii.eqb c Ascii.zero)) h = true /\ all_chars (fun c => negb (is_eol c)) h = true)
    as [Hz Heol].
  { unfold h. rewrite !all_chars_app. change (all_chars _ "#!") with true. cbn [andb].
    rewrite !andb_true_iff. unfold is_blank, token_char, is_eol in *. split; split;
      (eapply all_chars_impl; [|eassumption]); intros c Hc; cbn beta in *.
    - apply orb_prop in Hc as [Hc|Hc]; apply Ascii.eqb_eq in Hc; by subst c.
    - by destruct (Ascii.eqb c Ascii.zero); [rewrite !orb_true_r in Hc|].
    - apply orb_prop in Hc as [Hc|Hc]; apply Ascii.eqb_eq in Hc; by subst c.
    - destruct (_ || _) eqn:E in |- *; [|done]. by rewrite E, orb_true_r in Hc. }
  rewrite take_app_ge by (rewrite length_bytes_of_string; lia). rewrite length_bytes_of_string.
  replace (_ <=? 2)%nat with false.
  2:{ symmetry. apply Nat.leb_gt. rewrite length_app, length_bytes_of_string. unfold h.
      rewrite !string_length_app. destruct raw; [done|]. cbn. lia. }
  cbv zeta. rewrite until_nul_string, string_of_bytes_app, string_of_bytes_of_string by done.
  pose proof (line_end rest (511 - String.length h) He) as Hx.
  rewrite before_eol_app by done. set (x := before_eol _) in *.
  unfold h. rewrite !string_app_assoc.
  change (starts_with "#!" _) with true. cbn [negb].
  change (sdrop 2 ("#!" +:+ (ws +:+ raw +:+ x))) with (ws +:+ raw +:+ x).
  rewrite skip_blanks_token by done.
  destruct (raw +:+ x) as [|c l] eqn:El; [by destruct raw|]. rewrite <- El. f_equal. apply token_no_space in Hr. destruct Hx as [->|[y ->]].
  - rewrite string_app_nil_r. by rewrite before_char_id.
  - by rewrite before_char_app.
Qed.

Lemma macho_file_known (files : string -> option (list Z)) path f :
  files path = Some f -> macho_file f -> macify_entry_is_macho files path = true.
Proof. intros Hf [rest [-> | ->]]; unfold macify_entry_is_macho; by rewrite Hf. Qed.

Section chains.
  Context (files : string -> option (list Z)) (env : environment).

(** [script_chain st eff toks final st']: from the file [eff] the "#!" lines
    name the interpreters [toks], in this order, the last of which is the
    Mach-O file [final]; each is looked for in the prefix first. *)
Inductive script_chain : prefix_state -> string -> list string -> string -> prefix_state -> Prop :=
| chain_end st eff f :
    files eff = Some f -> macho_file f -> script_chain st eff [] eff st
| chain_hop st eff f raw t st1 toks final st2 :
    files eff = Some f -> script_file f raw ->
    translated_existing files env st raw = (t, st1) ->
    script_chain st1 (snprintf BUF (default raw t)) toks final st2 ->
    script_chain st eff (raw :: toks) final st2.

Lemma hop_loop_chain st eff toks final st' n pre :
  script_chain st eff toks final st' -> (length toks <= n)%nat ->
  hop_loop files env n eff pre st = (final, pre ++ toks, st').
Proof.
  intros Hc. revert n pre.
  induction Hc as [st eff f Hf Hm|st eff f raw t st1 toks final st2 Hf Hs Ht _ IH]; intros n pre Hn.
  - rewrite app_nil_r. destruct n; cbn [hop_loop]; [done|]. by rewrite (macho_file_known _ _ _ Hf Hm).
  - destruct (script_file_parses _ _ _ _ Hf Hs) as (Hm & Hp & Hsn).
    destruct n as [|n]; [cbn in Hn; lia|]. cbn [hop_loop]. rewrite Hm, Hp, Ht, Hsn.
    rewrite IH by (cbn in Hn; lia). by rewrite <- app_assoc.
Qed.
End chains.

Lemma exec_argv_spec path toks argv :
  exec_argv path toks argv = rev toks ++ path :: take (Z.to_nat 1022 - length toks) (drop 1 argv).
Proof.
  unfold exec_argv. cbn [rev]. rewrite <- app_assoc. cbn [app]. do 3 f_equal.
  rewrite length_app, length_rev. unfold MACIFY_ENTRY_ARGV_MAX. cbn [length]. lia.
Qed.

(** ** Big-endian fields *)

Definition be_bytes (v : Z) : list Z := rev (le_bytes 4 v).

Lemma get_bytes_app pre bs post :
  get_bytes (buf_get (pre ++ bs ++ post)) (buf_len pre) (length bs) = Some bs.
Proof.
  revert pre. induction bs as [|b bs IH]; intros pre; cbn [get_bytes length]; [done|].
  unfold buf_get at 1, buf_len. replace (_ <? 0) with false by (symmetry; apply Z.ltb_ge; lia).
  rewrite Nat2Z.id, lookup_app_r, Nat.sub_diag by lia. cbn [lookup app list_lookup].
  specialize (IH (pre ++ [b])). rewrite <- app_assoc in IH. cbn [app] in IH.
  replace (Z.of_nat (length pre) + 1) with (buf_len (pre ++ [b]))
    by (unfold buf_len; rewrite length_app; cbn; lia).
  by rewrite IH.
Qed.

Lemma rd32_be_at pre v post k :
  is_u32 v -> k = buf_len pre -> rd32_be (pre ++ be_bytes v ++ post) k = Ok v.
Proof.
  intros Hv ->. unfold rd32_be.
  pose proof (get_bytes_app pre (be_bytes v) post) as E.
  assert (length (be_bytes v) = 4%nat) as Hl by (unfold be_bytes; by rewrite length_rev, length_le_bytes).
  rewrite Hl in E. rewrite E. unfold be_bytes. rewrite rev_involutive, le_value_bytes.
  f_equal. apply Z.mod_small. exact Hv.
Qed.

(** An architecture record. *)
Record fat_arch := mk_fat_arch {
  fa_cputype : Z; fa_cpusubtype : Z; fa_offset : Z; fa_size : Z; fa_align : Z
}.

Definition fat_arch_wf (a : fat_arch) : Prop :=
  is_u32 (fa_cputype a) /\ is_u32 (fa_offset a) /\ is_u32 (fa_size a).

Definition fat_arch_bytes (a : fat_arch) : list Z :=
  be_bytes (fa_cputype a) ++ be_bytes (fa_cpusubtype a) ++ be_bytes (fa_offset a) ++
  be_bytes (fa_size a) ++ be_bytes (fa_align a).

Definition fat_header (archs : list fat_arch) : list Z :=
  [0xCA; 0xFE; 0xBA; 0xBE] ++ be_bytes (Z.of_nat (length archs)) ++
  concat (map fat_arch_bytes archs).

Lemma buf_len_be v : buf_len (be_bytes v) = 4.
Proof. unfold buf_len, be_bytes. by rewrite length_rev, length_le_bytes. Qed.

Lemma buf_len_arch a : buf_len (fat_arch_bytes a) = 20.
Proof. unfold fat_arch_bytes. by rewrite !buf_len_app, !buf_len_be. Qed.

(** The three fields the loop reads of a record. *)
Lemma read_arch pre a post k :
  fat_arch_wf a -> k = buf_len pre ->
  rd32_be (pre ++ fat_arch_bytes a ++ post) k = Ok (fa_cputype a) /\
  rd32_be (pre ++ fat_arch_bytes a ++ post) (k + 8) = Ok (fa_offset a) /\
  rd32_be (pre ++ fat_arch_bytes a ++ post) (k + 12) = Ok (fa_size a).
Proof.
  intros (H1 & H2 & H3) ->. unfold fat_arch_bytes. rewrite <- !app_assoc. split.
  - by apply rd32_be_at.
  - split.
    + rewrite (app_assoc pre), (app_assoc (pre ++ _)). apply rd32_be_at; [done|].
      rewrite !buf_len_app, !buf_len_be. lia.
    + rewrite (app_assoc pre), (app_assoc (pre ++ _)), (app_assoc ((pre ++ _) ++ _)).
      apply rd32_be_at; [done|]. rewrite !buf_len_app, !buf_len_be. lia.
Qed.

Lemma fat_loop_skip pre archs post n i size :
  Forall fat_arch_wf archs -> Forall (fun a => fa_cputype a <> CPU_TYPE_X86_64) archs ->
  buf_len pre = 8 + i * 20 ->
  fat_loop (pre ++ concat (map fat_arch_bytes archs) ++ post) (length archs + n) i 0 size =
  fat_loop (pre ++ concat (map fat_arch_bytes archs) ++ post) n
    (i + Z.of_nat (length archs)) 0 size.
Proof.
  intros Hwf. revert pre i.
  induction Hwf as [|a archs Ha _ IH]; intros pre i Hne Hpre; cbn [map concat length].
  - f_equal. lia.
  - inversion Hne as [|? ? Hx Hne']; subst. cbn [fat_loop Nat.add].
    rewrite <- app_assoc.
    destruct (read_arch pre a (concat (map fat_arch_bytes archs) ++ post) (0 + 8 + i * 20) Ha
      ltac:(lia)) as (-> & -> & ->). cbn [mbind res_bind].
    replace (fa_cputype a =? CPU_TYPE_X86_64) with false by lia.
    rewrite (app_assoc pre). rewrite IH; [|done|rewrite buf_len_app, buf_len_arch; lia].
    f_equal. lia.
Qed.

(** ** Lemmas: strings *)

Lemma contains_prefix p s : contains p (p +:+ s) = true.
Proof. destruct (p +:+ s) eqn:E; cbn; rewrite <- E, starts_with_app; done. Qed.

(** ** Properties *)

(** Where the entry is: on the host under its own name, or else, where the
    prefix has it, in the prefix. *)
Definition entry_at (files : string -> option (list Z)) (env : environment) (st : prefix_state) (path : string)
    (eff : string) (st' : prefix_state) : Prop :=
  match files path with
  | Some _ => eff = path /\ st' = st
  | None => exists t, translated_existing files env st path = (Some t, st') /\ eff = snprintf BUF t
  end.


(** A script ["/s"] for the interpreter ["/i"], which the prefix ["/p"] has. *)
Definition demo_files (p : string) : option (list Z) :=
  if streq p "/s" then Some (bytes_of_string "#! /i -x" ++ [10; 7])
  else if streq p "/p/i" then Some (le_bytes 4 0xFEEDFACF ++ [1]) else None.


(** When the options are accepted, what is run is a
    non-empty suffix of the arguments, preceded only by arguments that start
    with '-'; it starts with the first argument that does not, or follows a
    "--"; --no-fast-path is in force exactly if it was among the options. *)
Theorem parse_options_spec (args u : list string) (v n v' n' : bool) :
  parse_options args v n = OptRun v' n' u ->
  u <> [] /\ exists opts, args = opts ++ u /\
    Forall (fun a => starts_with "-" a = true) opts /\
    n' = n || existsb (streq "--no-fast-path") opts /\
    ((exists a t, u = a :: t /\ starts_with "-" a = false) \/ (exists l, opts = l ++ ["--"%string])).
Proof.
  revert v n. induction args as [|a args IH]; intros v n; cbn [parse_options]; [done|].
  destruct (starts_with "-" a) eqn:Ea; cbn [negb].
  2:{ intros [= <- <- <-]. split; [done|]. exists []. split; [done|]. split; [constructor|].
      split; [by rewrite orb_false_r|]. left. eauto. }
  assert (forall v1 n1, n1 = n || streq "--no-fast-path" a ->
    parse_options args v1 n1 = OptRun v' n' u ->
    u <> [] /\ exists opts, a :: args = opts ++ u /\
      Forall (fun a => starts_with "-" a = true) opts /\
      n' = n || existsb (streq "--no-fast-path") opts /\
      ((exists a t, u = a :: t /\ starts_with "-" a = false) \/
       (exists l, opts = l ++ ["--"%string]))) as Hgo.
  { intros v1 n1 Hn1 E. destruct (IH _ _ E) as (Hu & opts & -> & Ho & Hn & Hlast).
    split; [done|]. exists (a :: opts). split; [done|]. split; [by constructor|].
    split; [cbn; rewrite Hn, Hn1; by rewrite orb_assoc|].
    destruct Hlast as [?|[l ->]]; [by left|right]. by exists (a :: l). }
  unfold streq in *.
  destruct (bool_decide_reflect (a = "-v"%string)) as [->|Hv]; cbn [orb].
  { apply Hgo. by rewrite orb_false_r. }
  destruct (bool_decide_reflect (a = "--verbose"%string)) as [->|Hv2]; cbn [orb].
  { apply Hgo. by rewrite orb_false_r. }
  destruct (bool_decide_reflect (a = "-q"%string)) as [->|Hq]; cbn [orb].
  { apply Hgo. by rewrite orb_false_r. }
  destruct (bool_decide_reflect (a = "--quiet"%string)) as [->|Hq2]; cbn [orb].
  { apply Hgo. by rewrite orb_false_r. }
  destruct (bool_decide_reflect (a = "--no-fast-path"%string)) as [->|Hn].
  { apply Hgo. by rewrite orb_true_r. }
  destruct (bool_decide_reflect (a = "--"%string)) as [->|Hd].
  2:{ intros E. exfalso. revert E. by destruct (bool_decide (a = "-h"%string) || _). }
  destruct args as [|b args]; [done|]. intros [= <- <- <-]. split; [done|].
  exists ["--"%string]. split; [done|]. split; [by repeat constructor|].
  split; [by rewrite orb_false_r|]. right. by exists [].
Qed.

Lemma parse_options_spec_witness :
  exists opts, ["-v"; "--"; "-prog"; "x"]%string = opts ++ ["-prog"; "x"]%string /\
    Forall (fun a => starts_with "-" a = true) opts.
Proof.
  destruct (parse_options_spec ["-v"; "--"; "-prog"; "x"]%string ["-prog"; "x"]%string
    false false true false eq_refl) as (_ & opts & E & Ho & _).
  exists opts. split; [exact E|exact Ho].
Defined.

(** In a fat binary whose last architecture, of at most 16,
    is the only x86-64 one and lies in the file, the loader picks that slice,
    and accepts it if it is the header of a 64-bit x86 executable. *)
Theorem fat_slice_found (archs : list fat_arch) (x : fat_arch) (body : list Z) :
  let f := fat_header (archs ++ [x]) ++ body in
  Forall fat_arch_wf (archs ++ [x]) -> (length archs < 16)%nat ->
  Forall (fun a => fa_cputype a <> CPU_TYPE_X86_64) archs -> fa_cputype x = CPU_TYPE_X86_64 ->
  fa_offset x + fa_size x <= buf_len f -> fa_offset x + fa_size x < 2 ^ 32 ->
  fat_slice f = Ok (Some (fa_offset x, fa_size x)).
Proof.
  intros f Hwf Hl Hne Hx Hend Hu.
  assert (f = ([0xCA; 0xFE; 0xBA; 0xBE] ++ be_bytes (Z.of_nat (length (archs ++ [x])))) ++
    concat (map fat_arch_bytes archs) ++ fat_arch_bytes x ++ body) as Ef.
  { unfold f, fat_header. rewrite map_app, concat_app. cbn [map concat].
    by rewrite app_nil_r, <- !app_assoc. }
  assert (buf_len f >= 8) as Hlen.
  { rewrite Ef, buf_len_app, buf_len_app, buf_len_be.
    pose proof (buf_len_nonneg (concat (map fat_arch_bytes archs) ++ fat_arch_bytes x ++ body)).
    change (buf_len [202; 254; 186; 190]) with 4. lia. }
  unfold fat_slice. replace (buf_len f <? 4) with false by lia.
  assert (rd32 f 0 = Ok 0xBEBAFECA) as -> by reflexivity.
  cbn [mbind res_bind]. change (0xBEBAFECA =? 0xBEBAFECA) with true. cbv iota.
  replace (buf_len f <? 8) with false by lia.
  rewrite length_app in Ef. cbn [length] in Ef.
  assert (rd32_be f 4 = Ok (Z.of_nat (length archs + 1))) as ->.
  { rewrite Ef, <- app_assoc. apply rd32_be_at; [unfold is_u32; lia|reflexivity]. }
  cbn [mbind res_bind]. rewrite Z.min_l, Nat2Z.id by lia.
  apply Forall_app in Hwf as [Hwf [Hwx _]%Forall_cons_iff].
  rewrite Ef at 1. rewrite fat_loop_skip; [|done..|by rewrite buf_len_app, buf_len_be].
  cbn [fat_loop].
  set (pre := ([0xCA; 0xFE; 0xBA; 0xBE] ++ _)). rewrite app_assoc.
  assert (buf_len (pre ++ concat (map fat_arch_bytes archs)) = 8 + 20 * Z.of_nat (length archs)) as Hp.
  { rewrite buf_len_app. unfold pre. rewrite buf_len_app, buf_len_be.
    change (buf_len [202; 254; 186; 190]) with 4.
    clear. induction archs as [|a archs IH]; [done|]. cbn [map concat length].
    rewrite buf_len_app, buf_len_arch. lia. }
  destruct (read_arch (pre ++ concat (map fat_arch_bytes archs)) x body
    (0 + 8 + (0 + Z.of_nat (length archs)) * 20) Hwx ltac:(lia)) as (-> & -> & ->).
  cbn [mbind res_bind]. rewrite Hx, Z.eqb_refl.
  destruct Hwx as (_ & Ho & Hs). unfold is_u32 in *. rewrite u32_small by lia.
  by replace (fa_offset x + fa_size x >? buf_len f) with false by lia.
Qed.

Lemma fat_slice_found_witness :
  fat_slice (fat_header [mk_fat_arch 0x0100000C 0 100 4 0; mk_fat_arch 0x01000007 3 48 2 0] ++ [5; 6])
  = Ok (Some (48, 2)).
Proof.
  apply (fat_slice_found [mk_fat_arch 0x0100000C 0 100 4 0] (mk_fat_arch 0x01000007 3 48 2 0) [5; 6]).
  - repeat constructor; cbn; lia.
  - cbn. lia.
  - repeat constructor. cbn. discriminate.
  - reflexivity.
  - vm_compute. discriminate.
  - cbn. lia.
Defined.

(** The package of a Homebrew placeholder path is the directory after the
    Cellar placeholder, or after /opt in the prefix. *)
Theorem homebrew_pkg_spec (pkg rest : string) :
  has_char slash pkg = false -> pkg <> EmptyString -> (String.length pkg <= 255)%nat ->
  macify_extract_homebrew_pkg ("@@HOMEBREW_CELLAR@@/" +:+ pkg +:+ "/" +:+ rest) = Some pkg /\
  (contains "@@HOMEBREW_CELLAR@@" ("@@HOMEBREW_PREFIX@@/opt/" +:+ pkg +:+ "/" +:+ rest) = false ->
   macify_extract_homebrew_pkg ("@@HOMEBREW_PREFIX@@/opt/" +:+ pkg +:+ "/" +:+ rest) = Some pkg).
Proof.
  intros Hs Hne Hl.
  assert (match stake 255 (before_char slash (pkg +:+ "/" +:+ rest)) with
          | EmptyString => None | String a s => Some (String a s) end = Some pkg) as Hpkg.
  { change ("/" +:+ rest) with (String slash rest). rewrite before_char_app by done.
    rewrite stake_all by done. by destruct pkg. }
  unfold macify_extract_homebrew_pkg. split.
  - change ("@@HOMEBREW_CELLAR@@/" +:+ pkg +:+ "/" +:+ rest)
      with ("@@HOMEBREW_CELLAR@@" +:+ "/" +:+ pkg +:+ "/" +:+ rest).
    rewrite contains_prefix. exact Hpkg.
  - intros ->. change ("@@HOMEBREW_PREFIX@@/opt/" +:+ pkg +:+ "/" +:+ rest)
      with ("@@HOMEBREW_PREFIX@@" +:+ "/opt/" +:+ pkg +:+ "/" +:+ rest).
    rewrite contains_prefix. exact Hpkg.
Qed.
