(* ===== verification/Loader.v ===== *)
(** * Loading the main image (src/src/main.c)

    What [main] does with an accepted image: the slide, the LC_RPATH list,
    the libraries loaded in advance, the walk over the load commands, the
    deferred dylibs, the entry point and the fixups.  It composes Segments,
    MachoDylib, Rebase, Binds and ChainedFixups.  [realpath], the path of the
    shim, the installer of Homebrew packages and the probe for a fixed
    address are parameters.  Rewriting of stdio macros and the Go start-up
    code between the walk and the fixups are left out, and so are messages. *)
From Stdlib Require Import ZArith Lia Bool.
From stdpp Require Import base gmap list strings numbers.
From S2P Require Import Prelude LoaderState Leb128 Rebase Symbols Binds ChainedFixups Segments MachoDylib Entry.

Definition LC_UNIXTHREAD : Z := 0x05.
Definition LC_REEXPORT_DYLIB : Z := 0x8000001F.
Definition LC_LAZY_LOAD_DYLIB : Z := 0x20.
Definition LC_MAIN : Z := 0x80000028.
Definition LC_RPATH : Z := 0x8000001C.
Definition x86_THREAD_STATE64 : Z := 4.
Definition MH_PIE : Z := 0x200000.
Definition MAX_RPATHS : nat := 16.
Definition MAX_DEFERRED_DYLIBS : nat := 8.

(** ** The slide *)

(** The scan for the address span: [for (i < ncmds && scan + 8 <= scan_end)]. *)
Fixpoint scan_span (f : list Z) (n : nat) (scan scan_end lo hi : Z) : res (Z * Z) :=
  match n with
  | O => Ok (lo, hi)
  | S n =>
      if scan + 8 >? scan_end then Ok (lo, hi) else
      cmd ← rd32 f scan;
      cmdsize ← rd32 f (scan + 4);
      if cmdsize =? 0 then Ok (lo, hi) else
      '(lo, hi) ←
        (if cmd =? LC_SEGMENT_64 then
           seg ← parse_segment f scan;
           if negb (streq (sc_segname seg) "__PAGEZERO") && (sc_vmsize seg >? 0) then
             let top := u64 (sc_vmaddr seg + sc_vmsize seg) in
             Ok (if sc_vmaddr seg <? lo then sc_vmaddr seg else lo, if top >? hi then top else hi)
           else Ok (lo, hi)
         else Ok (lo, hi));
      scan_span f n (scan + cmdsize) scan_end lo hi
  end.

(** [g_slide]: [reserve] is [mmap(NULL, n, PROT_NONE)], [probe a n] says
    whether [mmap] of that range with MAP_FIXED succeeds. *)
Definition compute_slide (reserve : Z -> option Z) (probe : Z -> Z -> bool) (f : list Z) : res Z :=
  ncmds ← rd32 f 16;
  sizeofcmds ← rd32 f 20;
  flags ← rd32 f 24;
  '(lo, hi) ← scan_span f (Z.to_nat ncmds) MH_HEADER_SIZE (MH_HEADER_SIZE + sizeofcmds) UINT64_MAX 0;
  if negb (lo =? UINT64_MAX) && (hi >? lo) then
    let moved := match reserve (hi - lo) with Some base => i64 (base - lo) | None => 0 end in
    Ok (if has flags MH_PIE then moved else if probe lo (hi - lo) then 0 else moved)
  else Ok 0.

(** ** Library names *)

(** The expansion of one LC_RPATH entry. *)
Definition expand_rpath (exec_dir rp : string) : string :=
  if starts_with "@loader_path" rp then snprintf PATH_SIZE (exec_dir +:+ sdrop 12 rp)
  else if starts_with "@executable_path" rp then snprintf PATH_SIZE (exec_dir +:+ sdrop 16 rp)
  else stake 4095 rp.

(** The LC_RPATH pass. *)
Fixpoint collect_rpaths (f : list Z) (exec_dir : string) (n : nat) (lc lc_end : Z)
    (rpaths : list string) : res (list string) :=
  match n with
  | O => Ok rpaths
  | S n =>
      if lc + 8 >? lc_end then Ok rpaths else
      cmd ← rd32 f lc;
      cmdsize ← rd32 f (lc + 4);
      rpaths ← (if (cmd =? LC_RPATH) && (length rpaths <? MAX_RPATHS)%nat then
                  off ← rd32 f (lc + 8);
                  rp ← rd_cstring f (lc + off);
                  Ok (rpaths ++ [expand_rpath exec_dir rp])
                else Ok rpaths);
      collect_rpaths f exec_dir n (lc + cmdsize) lc_end rpaths
  end.

(** [dirname] of the absolute path, or ".". *)
Definition exec_dir_of (real : option string) : string :=
  match real with Some p => dylib_dir p | None => "."%string end.

Fixpoint try_rpaths (access : string -> bool) (rpaths : list string) (rest : string) : option string :=
  match rpaths with
  | [] => None
  | r :: rpaths =>
      let p := snprintf PATH_SIZE (r +:+ "/" +:+ rest) in
      if access p then Some p else try_rpaths access rpaths rest
  end.

Definition in_exec_dir (access : string -> bool) (exec_dir rest : string) : option string :=
  let p := snprintf PATH_SIZE (exec_dir +:+ "/" +:+ rest) in if access p then Some p else None.

(** [resolved_name]. *)
Definition resolve_dylib_name (access : string -> bool) (rpaths : list string) (exec_dir name : string)
    : option string :=
  if starts_with "@rpath/" name then try_rpaths access rpaths (sdrop 7 name)
  else if starts_with "@loader_path/" name then in_exec_dir access exec_dir (sdrop 13 name)
  else if starts_with "@executable_path/" name then in_exec_dir access exec_dir (sdrop 17 name)
  else None.

(** ** The state of the walk *)

Record main_state := mk_main {
  ms_sys : System;                     (* changes when a package is installed *)
  ms_segments : list loaded_segment;
  ms_sections : list loaded_section;
  ms_dylibs : list loaded_dylib;
  ms_dl : dl_state;
  ms_entry_rip : Z;
  ms_main : option Z;                  (* entryoff of LC_MAIN *)
  ms_rebase : Z * Z;
  ms_info : dyld_info;
  ms_symtab : symtab;
  ms_indirect : Z * Z;
  ms_chained : option (Z * Z);
  ms_deferred : list string
}.

(** The system with the dylibs registered so far. *)
Definition with_dylibs (s : System) (ds : list loaded_dylib) : System :=
  {| sys_pages := @sys_pages s; sys_reserve := @sys_reserve s; sys_load_file := @sys_load_file s;
     sys_access := @sys_access s; sys_dlopen := @sys_dlopen s; sys_dlsym := @sys_dlsym s;
     sys_shim_lookup := @sys_shim_lookup s; sys_dylibs := ds; sys_prefix := @sys_prefix s;
     sys_stub := @sys_stub s; sys_stub_nonnull := @sys_stub_nonnull s |}.

Definition ms_system (st : main_state) : System := with_dylibs (ms_sys st) (ms_dylibs st).

Definition set_dl (st : main_state) (dl : dl_state) : main_state :=
  mk_main (ms_sys st) (ms_segments st) (ms_sections st) (ms_dylibs st) dl (ms_entry_rip st)
    (ms_main st) (ms_rebase st) (ms_info st) (ms_symtab st) (ms_indirect st) (ms_chained st)
    (ms_deferred st).
Definition set_sys (st : main_state) (s : System) : main_state :=
  mk_main s (ms_segments st) (ms_sections st) (ms_dylibs st) (ms_dl st) (ms_entry_rip st)
    (ms_main st) (ms_rebase st) (ms_info st) (ms_symtab st) (ms_indirect st) (ms_chained st)
    (ms_deferred st).
Definition set_image (st : main_state) (im : image) : main_state :=
  mk_main (ms_sys st) (im_segments im) (im_sections im) (ms_dylibs st) (set_mem (ms_dl st) (im_mem im))
    (ms_entry_rip st) (ms_main st) (ms_rebase st) (ms_info st) (ms_symtab st) (ms_indirect st)
    (ms_chained st) (ms_deferred st).
Definition set_entry (st : main_state) (rip : Z) : main_state :=
  mk_main (ms_sys st) (ms_segments st) (ms_sections st) (ms_dylibs st) (ms_dl st) rip
    (ms_main st) (ms_rebase st) (ms_info st) (ms_symtab st) (ms_indirect st) (ms_chained st)
    (ms_deferred st).
Definition set_main (st : main_state) (off : Z) : main_state :=
  mk_main (ms_sys st) (ms_segments st) (ms_sections st) (ms_dylibs st) (ms_dl st) (ms_entry_rip st)
    (Some off) (ms_rebase st) (ms_info st) (ms_symtab st) (ms_indirect st) (ms_chained st)
    (ms_deferred st).
Definition set_info (st : main_state) (rebase : Z * Z) (i : dyld_info) : main_state :=
  mk_main (ms_sys st) (ms_segments st) (ms_sections st) (ms_dylibs st) (ms_dl st) (ms_entry_rip st)
    (ms_main st) rebase i (ms_symtab st) (ms_indirect st) (ms_chained st) (ms_deferred st).
Definition set_symtab (st : main_state) (t : symtab) : main_state :=
  mk_main (ms_sys st) (ms_segments st) (ms_sections st) (ms_dylibs st) (ms_dl st) (ms_entry_rip st)
    (ms_main st) (ms_rebase st) (ms_info st) t (ms_indirect st) (ms_chained st) (ms_deferred st).
Definition set_indirect (st : main_state) (i : Z * Z) : main_state :=
  mk_main (ms_sys st) (ms_segments st) (ms_sections st) (ms_dylibs st) (ms_dl st) (ms_entry_rip st)
    (ms_main st) (ms_rebase st) (ms_info st) (ms_symtab st) i (ms_chained st) (ms_deferred st).
Definition set_chained (st : main_state) (c : Z * Z) : main_state :=
  mk_main (ms_sys st) (ms_segments st) (ms_sections st) (ms_dylibs st) (ms_dl st) (ms_entry_rip st)
    (ms_main st) (ms_rebase st) (ms_info st) (ms_symtab st) (ms_indirect st) (Some c) (ms_deferred st).
Definition add_deferred (st : main_state) (p : string) : main_state :=
  if (length (ms_deferred st) <? MAX_DEFERRED_DYLIBS)%nat then
    mk_main (ms_sys st) (ms_segments st) (ms_sections st) (ms_dylibs st) (ms_dl st) (ms_entry_rip st)
      (ms_main st) (ms_rebase st) (ms_info st) (ms_symtab st) (ms_indirect st) (ms_chained st)
      (ms_deferred st ++ [stake 4095 p])
  else st.
Definition add_dylib (st : main_state) (d : loaded_dylib) : main_state :=
  mk_main (ms_sys st) (ms_segments st) (ms_sections st) (ms_dylibs st ++ [d]) (ms_dl st)
    (ms_entry_rip st) (ms_main st) (ms_rebase st) (ms_info st) (ms_symtab st) (ms_indirect st)
    (ms_chained st) (ms_deferred st).

(** [register_extra_handle]. *)
Definition add_extra (st : main_state) (h : Z) : main_state :=
  set_dl st (@add_handle (ms_system st) h (ms_dl st)).

(** ** Load commands *)

(** The first of two libraries that opens. *)
Definition dlopen2 (s : System) (a b : string) : Z :=
  let h := @sys_dlopen s a in if h =? 0 then @sys_dlopen s b else h.

Section main.
  Context (shim_path : string) (install : string -> option System) (fuel : nat)
          (g_slide : Z) (exec_dir : string) (rpaths : list string).

(** [macho_load_dylib] with the dylibs registered so far. *)
Definition load_macho (path : string) (st : main_state) : res (Z * main_state) :=
  '(rc, dl) ← @macho_load_dylib (ms_system st) fuel path (ms_dl st);
  Ok (rc, set_dl st dl).

(** The libraries loaded before the walk; the shim becomes [g_dylibs[0]]. *)
Definition preload (st : main_state) : res main_state :=
  let s := ms_sys st in
  let lib n := snprintf PATH_SIZE (@sys_prefix s +:+ "/usr/local/lib/" +:+ n) in
  let st := add_extra st (dlopen2 s (lib "libunwind.so.1") "libunwind.so.1") in
  let st := add_extra st (dlopen2 s (lib "libc++abi.so.1") "libc++abi.so.1") in
  let st := add_extra st (dlopen2 s (lib "libc++.so.1") "libc++.so.1") in
  let tinfo := dlopen2 s "libtinfo.so.6" "libtinfo.so.5" in
  let tinfo := if tinfo =? 0 then dlopen2 s "libncursesw.so.6" "libncurses.so.6" else tinfo in
  let st := add_extra st tinfo in
  let shim_h := dlopen2 s shim_path "libmacify_shim.so" in
  let st := if shim_h =? 0 then st
            else add_dylib st (mk_dylib EmptyString shim_h (@sys_dlopen s "libc.so.6")
                                        (@sys_dlopen s "libm.so.6")) in
  '(_, st) ← load_macho (snprintf PATH_SIZE
               (@sys_prefix s +:+ "/usr/local/opt/ncurses/lib/libncursesw.6.dylib")) st;
  Ok st.

(** Where a Homebrew placeholder points. *)
Definition homebrew_path (prefix name : string) : string :=
  if contains "@@HOMEBREW_CELLAR@@" name
  then snprintf PATH_SIZE (prefix +:+ "/usr/local/Cellar" +:+ sdrop 19 name)
  else snprintf PATH_SIZE (prefix +:+ "/usr/local" +:+ sdrop 19 name).

(** Load it; when that fails, install its package and try once more. *)
Definition load_homebrew (name : string) (st : main_state) : res (bool * main_state) :=
  let p := homebrew_path (@sys_prefix (ms_sys st)) name in
  '(rc, st) ← load_macho p st;
  if rc =? 0 then Ok (true, st) else
  match macify_extract_homebrew_pkg name with
  | None => Ok (false, st)
  | Some pkg =>
      match install pkg with
      | None => Ok (false, st)
      | Some s => '(rc, st) ← load_macho p (set_sys st s); Ok (rc =? 0, st)
      end
  end.

(** The Linux library that stands for a system library; 0 when there is none. *)
Definition system_library (s : System) (name : string) : Z :=
  if contains "libncurses" name then dlopen2 s "libncursesw.so.6" "libncurses.so.6"
  else if contains "libz" name then @sys_dlopen s "libz.so.1"
  else if contains "libresolv" name then @sys_dlopen s "libresolv.so.2"
  else if contains "libiconv" name then @sys_dlopen s "libiconv.so.2"
  else if contains "libedit" name || contains "libreadline" name
  then dlopen2 s "libedit.so.2" "libreadline.so.8"
  else 0.

(** The handles a new dylib entry gets: shim, libc and libm. *)
Definition dylib_handles (st : main_state) : Z * Z * Z :=
  match ms_dylibs st with
  | [] => (dlopen2 (ms_sys st) shim_path "libmacify_shim.so",
           @sys_dlopen (ms_sys st) "libc.so.6", @sys_dlopen (ms_sys st) "libm.so.6")
  | d :: _ => (dy_handle d, libc_handle d, libm_handle d)
  end.

(** One dylib command; the exit status is 1 when the table is full or the
    shim is missing. *)
Definition main_dylib (name : string) (st : main_state) : res (ctl main_state) :=
  let resolved := resolve_dylib_name (@sys_access (ms_sys st)) rpaths exec_dir name in
  let name := default name resolved in
  if (MAX_DYLIBS <=? length (ms_dylibs st))%nat then Ok (Return 1 st) else
  let '(shim_h, libc_h, libm_h) := dylib_handles st in
  '(loaded, st) ←
    (if contains "@@HOMEBREW_CELLAR@@" name || contains "@@HOMEBREW_PREFIX@@" name
     then load_homebrew name st
     else match resolved with
          | Some p => Ok (true, add_deferred st p)
          | None => Ok (contains "libc++" name || contains "libc++abi" name ||
                        contains "libunwind" name, st)
          end);
  let extra1 := if loaded : bool then 0 else system_library (ms_sys st) name in
  let st := if extra1 =? 0 then st else add_extra st extra1 in
  if (shim_h =? 0) || (libc_h =? 0) then Ok (Return 1 st)
  else Ok (Continue (add_dylib st (mk_dylib (stake 255 name) shim_h libc_h libm_h))).

(** [LC_UNIXTHREAD]: the instruction pointer of the thread state. *)
Definition main_thread (f : list Z) (lc : Z) (st : main_state) : res main_state :=
  flavor ← rd32 f (lc + 8);
  count ← rd32 f (lc + 12);
  if (flavor =? x86_THREAD_STATE64) && (count =? 42) then
    rip ← rd64 f (lc + 16 + 128);
    Ok (set_entry st (u64 (rip + g_slide)))
  else Ok st.

Definition main_segment_command (f : list Z) (lc : Z) (st : main_state) : res (ctl main_state) :=
  '(code, im) ← @map_segment (@sys_pages (ms_sys st)) g_slide f lc
                  (mk_image (ms_segments st) (ms_sections st) (dl_mem (ms_dl st)));
  Ok (if code <? 0 then Return 1 (set_image st im) else Continue (set_image st im)).

Definition is_dylib_command (cmd : Z) : bool :=
  (cmd =? LC_LOAD_DYLIB) || (cmd =? LC_LOAD_WEAK_DYLIB) || (cmd =? LC_REEXPORT_DYLIB) ||
  (cmd =? LC_LAZY_LOAD_DYLIB).

(** The body of the walk. *)
Definition main_command (f : list Z) (cmd lc : Z) (st : main_state) : res (ctl main_state) :=
  if cmd =? LC_SEGMENT_64 then main_segment_command f lc st
  else if cmd =? LC_UNIXTHREAD then st ← main_thread f lc st; Ok (Continue st)
  else if cmd =? LC_MAIN then off ← rd64 f (lc + 8); Ok (Continue (set_main st off))
  else if is_dylib_command cmd then
    name_offset ← rd32 f (lc + 8);
    name ← rd_cstring f (lc + name_offset);
    main_dylib name st
  else if cmd =? LC_DYLD_INFO_ONLY then
    ro ← rd32 f (lc + 8); rs ← rd32 f (lc + 12);
    bo ← rd32 f (lc + 16); bs ← rd32 f (lc + 20);
    lo ← rd32 f (lc + 32); ls ← rd32 f (lc + 36);
    Ok (Continue (set_info st (ro, rs) (mk_info bo bs lo ls)))
  else if cmd =? LC_SYMTAB then t ← read_symtab f lc; Ok (Continue (set_symtab st t))
  else if cmd =? LC_DYSYMTAB then
    o ← rd32 f (lc + 56); c ← rd32 f (lc + 60);
    Ok (Continue (set_indirect st (o, c)))
  else if cmd =? LC_DYLD_CHAINED_FIXUPS then
    o ← rd32 f (lc + 8); c ← rd32 f (lc + 12);
    Ok (Continue (set_chained st (o, c)))
  else Ok (Continue st).

(** [for (i < ncmds && lc + 8 <= lc_end)], [n] commands left. *)
Fixpoint walk_commands (f : list Z) (n : nat) (lc lc_end : Z) (st : main_state)
    : res (ctl main_state) :=
  match n with
  | O => Ok (Continue st)
  | S n =>
      if lc + 8 >? lc_end then Ok (Continue st) else
      cmd ← rd32 f lc;
      cmdsize ← rd32 f (lc + 4);
      if (cmdsize =? 0) || (lc + cmdsize >? lc_end) then Ok (Return 1 st) else
      r ← main_command f cmd lc st;
      match r with
      | Return c st => Ok (Return c st)
      | Continue st => walk_commands f n (lc + cmdsize) lc_end st
      end
  end.

(** The deferred dylibs, in order; a failure is only reported. *)
Definition load_deferred (st : main_state) : res main_state :=
  fold_res (fun st p => '(_, st) ← load_macho p st; Ok st) (ms_deferred st) st.

(** [g_entry_rip] after the walk, and the text range when LC_MAIN gave it. *)
Definition entry_point (st : main_state) : option (main_state * option (Z * Z)) :=
  let '(st, text) :=
    match ms_main st with
    | Some off =>
        if ms_entry_rip st =? 0 then
          match List.find (fun s => streq (seg_name s) "__TEXT") (ms_segments st) with
          | Some s => (set_entry st (u64 (vmaddr s + off)),
                       Some (vmaddr s, u64 (vmaddr s + vmsize s)))
          | None => (st, None)
          end
        else (st, None)
    | None => (st, None)
    end in
  if ms_entry_rip st =? 0 then None else Some (st, text).

(** The walk, the deferred dylibs and the entry point: the exit status, or
    the state in which the image is complete. *)
Definition load_image (f : list Z) (st : main_state) : res (Z + main_state * option (Z * Z)) :=
  ncmds ← rd32 f 16;
  sizeofcmds ← rd32 f 20;
  r ← walk_commands f (Z.to_nat ncmds) MH_HEADER_SIZE (MH_HEADER_SIZE + sizeofcmds) st;
  match r with
  | Return c _ => Ok (inl c)
  | Continue st =>
      st ← load_deferred st;
      Ok (match entry_point st with None => inl 1 | Some r => inr r end)
  end.

End main.

(** ** Fixups of the main image *)

Definition main_linker (st : main_state) : Linker := @state_linker (ms_system st) (ms_dl st).

(** The symbol pointer sections of the main image. *)
Definition main_pointer_section `{Linker} (f : list Z) (t : symtab) (indirect : Z) (m : mem)
    (s : loaded_section) : res mem :=
  let sec_type := Z.land (sec_flags s) 0xff in
  if ((sec_type =? 7) || (sec_type =? 6)) && (sec_reserved1 s >? 0) then
    fold_res (pointer_entry f t indirect (sec_reserved1 s) (sec_addr s))
      (seqZ 0 (u32 (sec_size s / 8))) m
  else Ok m.

Definition main_pointers (f : list Z) (st : main_state) (m : mem) : res mem :=
  let L := main_linker st in
  let t := ms_symtab st in
  if ((ms_indirect st).1 >? 0) && (symoff t >? 0) && (stroff t >? 0)
  then fold_res (main_pointer_section f t (ms_indirect st).1) (ms_sections st) m
  else Ok m.

(** Rebases, binds, lazy binds, chained fixups and symbol pointers; the first
    interpreter that fails ends the program with status 1. *)
Definition main_fixups (f : list Z) (g_slide : Z) (st : main_state) (stubs : stub_state)
    : res (option (mem * stub_state)) :=
  let L := main_linker st in
  let segs := ms_segments st in
  '(c, m) ← (if snd (ms_rebase st) >? 0
             then execute_rebases segs g_slide f (fst (ms_rebase st)) (snd (ms_rebase st)) (dl_mem (ms_dl st))
             else Ok (0, dl_mem (ms_dl st)));
  if c <? 0 then Ok None else
  '(c, m, stubs) ← (if g_bind_size (ms_info st) >? 0
                    then execute_binds segs f (ms_info st) m stubs else Ok (0, m, stubs));
  if c <? 0 then Ok None else
  '(c, m, stubs, _) ← (if g_lazy_bind_size (ms_info st) >? 0
                       then execute_lazy_binds segs f (ms_info st) m stubs
                       else Ok (0, m, stubs, ms_info st));
  if c <? 0 then Ok None else
  '(c, cf) ← (match ms_chained st with
              | Some (off, size) => execute_chained_fixups segs true off size f (mk_cf m stubs 0)
              | None => Ok (0, mk_cf m stubs 0)
              end);
  if c <? 0 then Ok None else
  m ← main_pointers f st (cf_mem cf);
  Ok (Some (m, cf_stubs cf)).

(** ** Lemmas: the tables *)

(** All dylib entries have the handles of the first. *)
Definition same_handles (ds : list loaded_dylib) : Prop :=
  forall d d', In d ds -> In d' ds ->
    dy_handle d = dy_handle d' /\ libc_handle d = libc_handle d' /\ libm_handle d = libm_handle d'.

(** No table is over-full. *)
Definition tables_ok (st : main_state) : Prop :=
  (length (ms_segments st) <= MAX_SEGMENTS)%nat /\ (length (ms_sections st) <= MAX_SECTIONS)%nat /\
  (length (ms_dylibs st) <= MAX_DYLIBS)%nat /\ (length (ms_deferred st) <= MAX_DEFERRED_DYLIBS)%nat /\
  same_handles (ms_dylibs st).

Lemma map_segment_lengths `{Pages} slide f lc im code im' :
  map_segment slide f lc im = Ok (code, im') ->
  (length (im_segments im) <= MAX_SEGMENTS)%nat -> (length (im_sections im) <= MAX_SECTIONS)%nat ->
  (length (im_segments im') <= MAX_SEGMENTS)%nat /\ (length (im_sections im') <= MAX_SECTIONS)%nat.
Proof.
  unfold map_segment. intros E Hs Ht.
  destruct (Nat.leb_spec MAX_SEGMENTS (length (im_segments im))); [by injection E as <- <-|].
  bind_inv E. destruct (_ =? 0); [by injection E as <- <-|].
  destruct (streq _ _); [injection E as <- <-; cbn; rewrite length_app; cbn; lia|].
  destruct (open_pages _ _ _) as [m|]; [|by injection E as <- <-].
  destruct (_ && _); [by injection E as <- <-|]. bind_inv E. bind_inv E. bind_inv E.
  destruct a2 as [c sects]. injection E as <- <-. cbn. rewrite length_app. cbn.
  destruct (add_sections_spec _ _ _ _ _ _ _ E3 Ht). split; [lia|done].
Qed.

Lemma same_handles_snoc ds d :
  same_handles ds ->
  match ds with
  | [] => True
  | e :: _ => dy_handle d = dy_handle e /\ libc_handle d = libc_handle e /\ libm_handle d = libm_handle e
  end -> same_handles (ds ++ [d]).
Proof.
  intros Hs Hd x y Hx Hy. apply in_app_iff in Hx, Hy. destruct ds as [|e ds].
  - destruct Hx as [[]|[<-|[]]], Hy as [[]|[<-|[]]]. done.
  - assert (In e (e :: ds)) as He by (by left).
    destruct Hx as [Hx|[<-|[]]], Hy as [Hy|[<-|[]]].
    + by apply Hs.
    + destruct (Hs x e Hx He) as (? & ? & ?), Hd as (? & ? & ?). repeat split; congruence.
    + destruct (Hs y e Hy He) as (? & ? & ?), Hd as (? & ? & ?). repeat split; congruence.
    + done.
Qed.

Section tables.
  Context (shim_path : string) (install : string -> option System) (fuel : nat)
          (g_slide : Z) (exec_dir : string) (rpaths : list string).

(** What loading and registering libraries leaves alone. *)
Definition same_tables (st st' : main_state) : Prop :=
  ms_segments st' = ms_segments st /\ ms_sections st' = ms_sections st /\
  ms_dylibs st' = ms_dylibs st.

Lemma load_macho_tables p st rc st' :
  load_macho fuel p st = Ok (rc, st') -> same_tables st st' /\ ms_deferred st' = ms_deferred st.
Proof. unfold load_macho. intros E. bind_inv E. destruct a as [c dl]. by injection E as <- <-. Qed.

Lemma load_homebrew_tables name st b st' :
  load_homebrew install fuel name st = Ok (b, st') ->
  same_tables st st' /\ ms_deferred st' = ms_deferred st.
Proof.
  unfold load_homebrew. intros E. bind_inv E. destruct a as [rc st1].
  apply load_macho_tables in E0 as [(H1 & H2 & H3) Hd].
  destruct (rc =? 0); [by injection E as <- <-|].
  destruct (macify_extract_homebrew_pkg name); [|by injection E as <- <-].
  destruct (install _) as [s'|]; [|by injection E as <- <-]. bind_inv E. destruct a as [rc2 st2].
  apply load_macho_tables in E0 as [(H4 & H5 & H6) Hd2]. injection E as <- <-.
  unfold same_tables. cbn in *. repeat split; congruence.
Qed.

(** The state a dylib command ends in, with the entry it may add. *)
Lemma main_dylib_tables name st r :
  main_dylib shim_path install fuel exec_dir rpaths name st = Ok r -> tables_ok st ->
  match r with Continue s | Return _ s => tables_ok s end.
Proof.
  intros E (Hs & Hc & Hd & Hf & Hh). unfold main_dylib in E.
  destruct (Nat.leb_spec MAX_DYLIBS (length (ms_dylibs st))) as [|Hlt].
  { injection E as <-. unfold tables_ok. auto. }
  destruct (dylib_handles shim_path st) as [[shim_h libc_h] libm_h] eqn:Eh. bind_inv E.
  destruct a as [loaded st1].
  assert (same_tables st st1 /\ (length (ms_deferred st1) <= MAX_DEFERRED_DYLIBS)%nat)
    as [(H1 & H2 & H3) Hf1].
  { revert E0. destruct (contains _ _ || contains _ _).
    - intros [? ->]%load_homebrew_tables. done.
    - destruct (resolve_dylib_name _ _ _ _); intros [= <- <-]; [|done].
      unfold add_deferred. destruct (Nat.ltb_spec (length (ms_deferred st)) MAX_DEFERRED_DYLIBS); [|done].
      split; [done|]. cbn. rewrite length_app. cbn. lia. }
  set (st2 := if _ =? 0 then st1 else _) in E.
  assert (tables_ok st2 /\ ms_dylibs st2 = ms_dylibs st) as [Hok2 Hd2].
  { assert (tables_ok st1) by (unfold tables_ok; rewrite H1, H2, H3; auto).
    unfold st2. destruct (_ =? 0); done. }
  destruct ((shim_h =? 0) || (libc_h =? 0)); injection E as <-; [done|].
  destruct Hok2 as (G1 & G2 & G3 & G4 & G5). unfold tables_ok, add_dylib.
  cbn [ms_segments ms_sections ms_dylibs ms_deferred]. split; [done|]. split; [done|].
  split; [rewrite length_app, Hd2; cbn; lia|]. split; [done|].
  apply same_handles_snoc; [done|]. rewrite Hd2. unfold dylib_handles in Eh.
  destruct (ms_dylibs st); [done|]. injection Eh as <- <- <-. done.
Qed.
End tables.

Section walk.
  Context (shim_path : string) (install : string -> option System) (fuel : nat)
          (g_slide : Z) (exec_dir : string) (rpaths : list string).

Abbreviation command := (main_command shim_path install fuel g_slide exec_dir rpaths).
Abbreviation walk := (walk_commands shim_path install fuel g_slide exec_dir rpaths).

Lemma main_command_tables f cmd lc st r :
  command f cmd lc st = Ok r -> tables_ok st ->
  match r with Continue s | Return _ s => tables_ok s end.
Proof.
  intros E Hok. unfold main_command in E.
  repeat (match type of E with (if ?b then _ else _) = _ => destruct b end).
  all: try (repeat bind_inv E; injection E as <-; exact Hok).
  - unfold main_segment_command in E. bind_inv E. destruct a as [code im].
    destruct Hok as (Hs & Hc & Hok).
    destruct (map_segment_lengths _ _ _ _ _ _ E0 Hs Hc).
    destruct (code <? 0); injection E as <-; unfold tables_ok; cbn; auto.
  - bind_inv E. injection E as <-. unfold main_thread in E0. bind_inv E0. bind_inv E0.
    destruct (_ && _); [bind_inv E0|]; injection E0 as <-; exact Hok.
  - bind_inv E. bind_inv E. by apply (main_dylib_tables _ _ _ _ _ _ _ _ E).
Qed.

Lemma walk_commands_tables f n lc lc_end st r :
  walk f n lc lc_end st = Ok r -> tables_ok st ->
  match r with Continue s | Return _ s => tables_ok s end.
Proof.
  revert lc st. induction n as [|n IH]; intros lc st E Hok; cbn [walk_commands] in E.
  - by injection E as <-.
  - destruct (_ >? _); [by injection E as <-|]. bind_inv E. bind_inv E.
    destruct (_ || _); [by injection E as <-|]. bind_inv E.
    pose proof (main_command_tables _ _ _ _ _ E2 Hok) as H1.
    destruct a1 as [s|c s]; [by apply (IH _ _ E)|by injection E as <-].
Qed.
End walk.

(** With the same handles everywhere, the ordinal does not matter. *)
Lemma resolve_same_handles dlsym shim L i j sym :
  same_handles (g_dylibs L) ->
  0 <= i < Z.of_nat (length (g_dylibs L)) -> 0 <= j < Z.of_nat (length (g_dylibs L)) ->
  resolve_symbol dlsym shim L i sym = resolve_symbol dlsym shim L j sym.
Proof.
  intros Hs Hi Hj. unfold resolve_symbol.
  destruct (negb _); [done|].
  replace (i =? -1) with false by lia. replace (j =? -1) with false by lia.
  replace ((i <? 0) || (i >=? Z.of_nat (length (g_dylibs L)))) with false by lia.
  replace ((j <? 0) || (j >=? Z.of_nat (length (g_dylibs L)))) with false by lia.
  destruct (lookup_lt_is_Some_2 (g_dylibs L) (Z.to_nat i)) as [d Hd]; [lia|].
  destruct (lookup_lt_is_Some_2 (g_dylibs L) (Z.to_nat j)) as [e He]; [lia|].
  rewrite Hd, He.
  destruct (Hs d e) as (H1 & H2 & H3).
  { apply list_elem_of_In. by apply list_elem_of_lookup_2 in Hd. }
  { apply list_elem_of_In. by apply list_elem_of_lookup_2 in He. }
  assert (forall s, dylib_lookup dlsym d s = dylib_lookup dlsym e s) as Hl
    by (intros s; unfold dylib_lookup; by rewrite H1, H2, H3).
  unfold resolve_two_level. rewrite Hl. destruct (dollar_base sym); [by rewrite Hl|done].
Qed.

(** ** Lemmas: the slide *)

(** The commands the scan visits. *)
Fixpoint scan_list (f : list Z) (n : nat) (scan scan_end : Z) : res (list (Z * Z)) :=
  match n with
  | O => Ok []
  | S n =>
      if scan + 8 >? scan_end then Ok [] else
      cmd ← rd32 f scan;
      cmdsize ← rd32 f (scan + 4);
      if cmdsize =? 0 then Ok [] else
      l ← scan_list f n (scan + cmdsize) scan_end;
      Ok ((cmd, scan) :: l)
  end.

(** The segments of the image, by the header. *)
Definition image_segments (f : list Z) : res (list segment_command_64) :=
  ncmds ← rd32 f 16;
  sizeofcmds ← rd32 f 20;
  l ← scan_list f (Z.to_nat ncmds) MH_HEADER_SIZE (MH_HEADER_SIZE + sizeofcmds);
  segments_of f l.

(** A segment that takes room. *)
Definition takes_room (seg : segment_command_64) : bool :=
  negb (streq (sc_segname seg) "__PAGEZERO") && (sc_vmsize seg >? 0).

Definition widen (s : Z * Z) (seg : segment_command_64) : Z * Z :=
  if takes_room seg then
    (if sc_vmaddr seg <? s.1 then sc_vmaddr seg else s.1,
     if u64 (sc_vmaddr seg + sc_vmsize seg) >? s.2 then u64 (sc_vmaddr seg + sc_vmsize seg) else s.2)
  else s.

Definition image_span (segs : list segment_command_64) : Z * Z := foldl widen (UINT64_MAX, 0) segs.

Lemma scan_span_widen f n scan scan_end l segs s :
  scan_list f n scan scan_end = Ok l -> segments_of f l = Ok segs ->
  scan_span f n scan scan_end s.1 s.2 = Ok (foldl widen s segs).
Proof.
  revert scan l segs s. induction n as [|n IH]; intros scan l segs s; cbn [scan_list scan_span].
  - intros [= <-] [= <-]. by destruct s.
  - destruct (_ >? _); [intros [= <-] [= <-]; by destruct s|].
    intros El Es. bind_inv El. bind_inv El. cbn.
    destruct (a0 =? 0); [injection El as <-; injection Es as <-; by destruct s|].
    bind_inv El. injection El as <-. cbn [segments_of] in Es.
    destruct (a =? LC_SEGMENT_64).
    + bind_inv Es. bind_inv Es. injection Es as <-. cbn.
      rewrite <- (IH _ _ _ (widen s a2) E1 E3). unfold widen, takes_room.
      destruct (_ && _); done.
    + cbn. by apply (IH _ a1).
Qed.

Lemma image_span_bounds segs s :
  Forall (fun seg => 0 <= sc_vmaddr seg /\ 0 <= sc_vmsize seg /\
                     sc_vmaddr seg + sc_vmsize seg < 2 ^ 64) segs ->
  let r := foldl widen s segs in
  r.1 <= s.1 /\ s.2 <= r.2 /\ (0 <= s.1 -> 0 <= r.1) /\
  (forall seg, In seg segs -> takes_room seg = true ->
     r.1 <= sc_vmaddr seg /\ sc_vmaddr seg + sc_vmsize seg <= r.2).
Proof.
  revert s. induction segs as [|seg segs IH]; intros s Hf; cbv zeta; cbn [foldl].
  { split; [lia|]. split; [lia|]. split; [done|intros ? []]. }
  inversion Hf as [|? ? (Ha & Hv & He) Hf']; subst.
  specialize (IH (widen s seg) Hf'). cbv zeta in IH. destruct IH as (I1 & I2 & I0 & I3).
  assert ((widen s seg).1 <= s.1 /\ s.2 <= (widen s seg).2 /\ (0 <= s.1 -> 0 <= (widen s seg).1) /\
    (takes_room seg = true -> (widen s seg).1 <= sc_vmaddr seg /\
       sc_vmaddr seg + sc_vmsize seg <= (widen s seg).2)) as (W1 & W2 & W0 & W3).
  { unfold widen. destruct (takes_room seg); [|repeat split; [lia|lia|done|done..]].
    rewrite u64_small by lia. cbn [fst snd].
    destruct (Z.ltb_spec (sc_vmaddr seg) s.1), (Z.gtb_spec (sc_vmaddr seg + sc_vmsize seg) s.2);
      repeat split; lia. }
  split; [lia|]. split; [lia|]. split; [auto|].
  intros seg' [<-|Hin] Ht; [destruct (W3 Ht); lia|by apply I3].
Qed.

(** ** Properties *)

(** For a position-independent image the slide puts the
    lowest segment at the address [mmap] reserved, and every segment but
    __PAGEZERO then lies inside the reserved range; an image that is not
    position-independent stays where it is unless its range cannot be had. *)
Theorem compute_slide_spec (reserve : Z -> option Z) (probe : Z -> Z -> bool) (f : list Z)
    (flags lo hi base : Z) (segs : list segment_command_64) :
  rd32 f 24 = Ok flags -> image_segments f = Ok segs -> image_span segs = (lo, hi) ->
  Forall (fun seg => 0 <= sc_vmaddr seg /\ 0 <= sc_vmsize seg /\
                     sc_vmaddr seg + sc_vmsize seg < 2 ^ 64) segs ->
  lo < hi -> lo <= 2 ^ 63 -> reserve (hi - lo) = Some base -> 0 <= base < 2 ^ 63 ->
  compute_slide reserve probe f =
    Ok (if negb (has flags MH_PIE) && probe lo (hi - lo) then 0 else base - lo) /\
  forall seg, In seg segs -> takes_room seg = true ->
    base <= sc_vmaddr seg + (base - lo) /\
    sc_vmaddr seg + (base - lo) + sc_vmsize seg <= base + (hi - lo).
Proof.
  intros Hfl Hs Hsp Hok Hlh Hlo Hres Hb. unfold image_segments in Hs.
  destruct (image_span_bounds segs (UINT64_MAX, 0) Hok) as (_ & _ & H0 & H3).
  unfold image_span in Hsp. rewrite Hsp in H0, H3. cbn [fst snd] in H0, H3.
  unfold UINT64_MAX in H0. split.
  - bind_inv Hs. bind_inv Hs. bind_inv Hs. unfold compute_slide. rewrite E, E0, Hfl.
    cbn [mbind res_bind].
    pose proof (scan_span_widen _ _ _ _ _ _ (UINT64_MAX, 0) E1 Hs) as Hscan.
    cbn [fst snd] in Hscan. rewrite Hscan, Hsp. cbn [mbind res_bind].
    unfold UINT64_MAX. replace (negb (lo =? 2 ^ 64 - 1) && (hi >? lo)) with true by lia.
    rewrite Hres. replace (i64 (base - lo)) with (base - lo) by (symmetry; apply signed_small; lia).
    by destruct (has flags MH_PIE).
  - intros seg Hin Ht. destruct (H3 seg Hin Ht). lia.
Qed.

(** A position-independent executable with one segment. *)
Definition demo_exec : list Z :=
  le_bytes 4 MH_MAGIC_64 ++ le_bytes 4 CPU_TYPE_X86_64 ++ le_bytes 4 3 ++ le_bytes 4 MH_EXECUTE ++
  le_bytes 4 1 ++ le_bytes 4 72 ++ le_bytes 4 MH_PIE ++ le_bytes 4 0 ++
  segment_bytes "__TEXT" 0x100000000 0x1000 0 0.

Lemma compute_slide_spec_witness :
  compute_slide (fun _ => Some 0x555000000000) (fun _ _ => false) demo_exec = Ok 0x554F00000000.
Proof.
  apply (compute_slide_spec (fun _ => Some 0x555000000000) (fun _ _ => false) demo_exec MH_PIE
    0x100000000 0x100001000 0x555000000000 [mk_segcmd "__TEXT" 0x100000000 0x1000 0 0 3 0]).
  - reflexivity.
  - reflexivity.
  - reflexivity.
  - repeat constructor; cbn; lia.
  - lia.
  - lia.
  - reflexivity.
  - lia.
Defined.

(** C12 (invariant): whatever load commands the image holds, the walk over
    them never overfills the tables of segments, sections, dylibs and
    deferred dylibs, whether it finishes or stops with an error; and since
    every dylib entry gets the handles of the shim entry, a symbol resolves
    to the same address under every library ordinal, so that the shim's
    extra entry in front, which shifts the ordinals by one, does no harm. *)
Theorem walk_keeps_tables (shim_path : string) (install : string -> option System) (fuel n : nat)
    (g_slide lc lc_end : Z) (exec_dir : string) (rpaths : list string) (f : list Z)
    (st : main_state) (r : ctl main_state) :
  tables_ok st ->
  walk_commands shim_path install fuel g_slide exec_dir rpaths f n lc lc_end st = Ok r ->
  match r with
  | Continue s | Return _ s =>
      tables_ok s /\
      forall dlsym shim i j sym,
        0 <= i < Z.of_nat (length (ms_dylibs s)) -> 0 <= j < Z.of_nat (length (ms_dylibs s)) ->
        resolve_symbol dlsym shim (@links (ms_system s) (ms_dl s)) i sym =
        resolve_symbol dlsym shim (@links (ms_system s) (ms_dl s)) j sym
  end.
Proof.
  intros Hok E. pose proof (walk_commands_tables _ _ _ _ _ _ _ _ _ _ _ _ E Hok) as H.
  destruct r as [s|c s]; (split; [done|]); intros dlsym shim i j sym Hi Hj;
    (apply resolve_same_handles; [apply H|exact Hi|exact Hj]).
Qed.

Definition demo_main : main_state :=
  mk_main demo_system [] [] [mk_dylib "" 0x5 0x6 0x7] demo_state 0 None (0, 0) (mk_info 0 0 0 0)
    no_symtab (0, 0) None [].

Lemma walk_keeps_tables_witness :
  exists s, walk_commands "/shim" (fun _ => None) 1 0 "/l" [] (dylib_bytes "/usr/lib/libSystem.B.dylib")
    1 0 56 demo_main = Ok (Continue s) /\
  tables_ok s /\ length (ms_dylibs s) = 2%nat.
Proof.
  assert (exists s, walk_commands "/shim" (fun _ => None) 1 0 "/l" []
    (dylib_bytes "/usr/lib/libSystem.B.dylib") 1 0 56 demo_main = Ok (Continue s) /\
    length (ms_dylibs s) = 2%nat) as (s & E & Hl).
  { eexists. split; vm_compute; reflexivity. }
  exists s. split; [exact E|]. split; [|exact Hl].
  apply (walk_keeps_tables "/shim" (fun _ => None) 1 1 0 0 56 "/l" []
    (dylib_bytes "/usr/lib/libSystem.B.dylib") demo_main (Continue s)); [|exact E].
  unfold tables_ok, demo_main. cbn [ms_segments ms_sections ms_dylibs ms_deferred length].
  unfold MAX_SEGMENTS, MAX_SECTIONS, MAX_DYLIBS, MAX_DEFERRED_DYLIBS.
  repeat split; try lia; destruct H as [<-|[]], H0 as [<-|[]]; reflexivity.
Defined.


(** One pointer to rebase and one slot to bind to a dylib's export. *)
Definition demo_fix : main_state :=
  mk_main demo_system [mk_segment 0x1000 0x1000 3 3 "__DATA" false] [] [mk_dylib "" 0x5 0x6 0x7]
    (mk_dl [mk_macho_dylib "b" 0 [("f"%string, 0x77)]] 1 [] []
       (put_bytes ∅ 0x1008 (le_bytes 8 0x10 ++ le_bytes 8 0)))
    0 None (1, 5) (mk_info 6 8 0 0) no_symtab (0, 0) None [].


(** An @rpath name resolves to the first accessible candidate, in the order
    of the LC_RPATH commands. *)
Theorem try_rpaths_first (access : string -> bool) (rpaths : list string) (rest : string) :
  try_rpaths access rpaths rest =
  List.find access (map (fun r => snprintf PATH_SIZE (r +:+ "/" +:+ rest)) rpaths).
Proof. induction rpaths as [|r rpaths IH]; cbn [try_rpaths map List.find]; [done|]. by rewrite IH. Qed.
