(* ===== verification/Stack.v ===== *)
(** * The initial stack (src/src/runtime.c, [setup_stack])

    The stack the program starts on: argc, the argv and envp pointers with
    their NULLs, the apple vector, and above them the strings.  [mmap] is a
    parameter, as is the effect of [setrlimit]; strings are lists of
    nonzero bytes without the terminator.  The two callocs succeed. *)
From Stdlib Require Import ZArith Lia Bool.
From stdpp Require Import base gmap list strings numbers.
From S2P Require Import Prelude Segments.

(** [struct rlimit] *)
Record rlimit := Rlimit { rlim_cur : Z; rlim_max : Z }.

Definition RLIM_INFINITY : Z := 2 ^ 64 - 1.

(** The limits after [setup_stack] raised the soft one; [None] when
    [getrlimit] fails.  [setrlimit] lets a process raise its soft limit up to
    the hard one; its result is not looked at. *)
Definition raise_stack_limit (os_setrlimit : rlimit -> rlimit -> rlimit) (rl : option rlimit)
    : option rlimit :=
  match rl with
  | None => None
  | Some rl =>
      let cap := 64 * 1024 * 1024 in
      let new_cur :=
        if negb (rlim_max rl =? RLIM_INFINITY) && (cap >? rlim_max rl) then rlim_max rl else cap in
      Some (if rlim_cur rl <? new_cur then os_setrlimit rl (Rlimit new_cur (rlim_max rl)) else rl)
  end.

(** [z & ~0xFULL] *)
Definition align16 (z : Z) : Z := Z.land z (Z.lnot 15).

(** [memcpy(str, s, strlen(s) + 1); str += len;] for each string: the
    pointers and the end. *)
Fixpoint copy_strings (m : mem) (str : Z) (ss : list (list Z)) : res (mem * list Z * Z) :=
  match ss with
  | [] => Ok (m, [], str)
  | s :: ss =>
      m ← store m str (s ++ [0]);
      '(m, ptrs, e) ← copy_strings m (u64 (str + buf_len s + 1)) ss;
      Ok (m, str :: ptrs, e)
  end.

(** [*p++ = w] for each word. *)
Fixpoint push_words (m : mem) (p : Z) (ws : list Z) : res mem :=
  match ws with
  | [] => Ok m
  | w :: ws => m ← store64 m p w; push_words m (u64 (p + 8)) ws
  end.

(** The room for the strings of a list, terminators included. *)
Definition str_space (ss : list (list Z)) : Z := foldr (fun s n => buf_len s + 1 + n) 0 ss.

(** Filling the stack mapped at [stack]; [None] is [exit(1)]. *)
Definition fill_stack (argv envp : list (list Z)) (stack stack_size : Z) (m : mem)
    : res (option (Z * mem)) :=
  match argv with
  | [] => Undef
  | argv0 :: _ =>
      let argc := Z.of_nat (length argv) in
      let nenv := Z.of_nat (length envp) in
      let top := align16 (u64 (stack + stack_size)) in
      let top := align16 (u64 (top - (str_space argv + str_space envp + buf_len argv0 + 1))) in
      if argc >=? 1000000 then Ok None else
      '(m, argv_ptrs, str) ← copy_strings m top argv;
      '(m, envp_ptrs, apple0) ← copy_strings m str envp;
      m ← store m apple0 (argv0 ++ [0]);
      let ptr_count := 1 + (argc + 1) + (nenv + 1) + 2 in
      let top := align16 (u64 (top - ptr_count * 8)) in
      m ← push_words m top (argc :: argv_ptrs ++ [0] ++ envp_ptrs ++ [0; apple0; 0]);
      Ok (Some (top, m))
  end.

(** What [setup_stack] returns: the stack pointer, and through its out
    parameters the base and the size of the mapping; [stk_limit] is the
    resource limit it leaves. *)
Record stack_info := StackInfo
  { stk_top : Z; stk_base : Z; stk_size : Z; stk_limit : option rlimit }.

(** [setup_stack]: 16 MB, or 8 MB when they cannot be had. *)
Definition setup_stack (os_setrlimit : rlimit -> rlimit -> rlimit)
    (os_mmap : mem -> Z -> option (Z * mem))
    (rl : option rlimit) (argv envp : list (list Z)) (m : mem) : res (option (stack_info * mem)) :=
  let rl := raise_stack_limit os_setrlimit rl in
  let try size := match os_mmap m size with Some (a, m) => Some (a, size, m) | None => None end in
  match (match try (16 * 1024 * 1024) with Some r => Some r | None => try (8 * 1024 * 1024) end) with
  | None => Ok None
  | Some (stack, stack_size, m) =>
      r ← fill_stack argv envp stack stack_size m;
      Ok (match r with
          | None => None
          | Some (top, m) => Some (StackInfo top stack stack_size rl, m)
          end)
  end.

(** ** Lemmas *)

Lemma align16_spec z : 0 <= z -> align16 z <= z < align16 z + 16 /\ align16 z mod 16 = 0 /\ 0 <= align16 z.
Proof.
  intros Hz. unfold align16. change 15 with (Z.ones 4).
  rewrite <- Z.ldiff_land, Z.ldiff_ones_r, Z.shiftl_mul_pow2, Z.shiftr_div_pow2 by lia.
  change (2 ^ 4) with 16. pose proof (Z.div_mod z 16 ltac:(lia)).
  pose proof (Z.mod_pos_bound z 16 ltac:(lia)). pose proof (Z.div_pos z 16 Hz ltac:(lia)).
  split; [lia|]. split; [apply Z.mod_mul; lia|lia].
Qed.

Lemma put_bytes_app m a x y :
  put_bytes m a (x ++ y) = put_bytes (put_bytes m a x) (a + buf_len x) y.
Proof.
  revert m a. induction x as [|b x IH]; intros m a; cbn [app put_bytes].
  - by rewrite Z.add_0_r.
  - rewrite IH. f_equal. unfold buf_len. cbn. lia.
Qed.

(** Reading back a part of what was written. *)
Lemma get_bytes_put_part m a x bs y k :
  k = a + buf_len x ->
  get_bytes (mem_get (put_bytes m a (x ++ bs ++ y))) k (length bs) = Some bs.
Proof.
  intros ->. rewrite !put_bytes_app.
  rewrite get_bytes_put_other by (left; unfold buf_len; lia). apply get_bytes_put_same.
Qed.

(** The strings of a list with their terminators, and where they start. *)
Definition flat (ss : list (list Z)) : list Z := concat (map (fun s => s ++ [0]) ss).

Fixpoint starts (a : Z) (ss : list (list Z)) : list Z :=
  match ss with [] => [] | s :: ss => a :: starts (a + buf_len s + 1) ss end.

Lemma buf_len_flat ss : buf_len (flat ss) = str_space ss.
Proof.
  induction ss as [|s ss IH]; [done|]. unfold flat in *. cbn [map concat str_space foldr].
  rewrite !buf_len_app, IH. change (buf_len [0]) with 1. unfold str_space. lia.
Qed.

Lemma length_starts a ss : length (starts a ss) = length ss.
Proof. revert a. induction ss as [|s ss IH]; intros a; cbn; auto. Qed.

Lemma starts_lookup a ss i s :
  ss !! i = Some s -> exists x y, flat ss = x ++ (s ++ [0]) ++ y /\ starts a ss !! i = Some (a + buf_len x).
Proof.
  revert a i. induction ss as [|t ss IH]; intros a [|i]; cbn; try done.
  - intros [= ->]. exists [], (flat ss). split; [done|]. by rewrite Z.add_0_r.
  - intros Hs. destruct (IH (a + buf_len t + 1) i Hs) as (x & y & E & Hl).
    exists (t ++ [0] ++ x), y. unfold flat in *. cbn [map concat]. rewrite E, <- !app_assoc.
    split; [done|]. etransitivity; [exact Hl|]. f_equal. rewrite !buf_len_app.
    change (buf_len [0]) with 1. lia.
Qed.

Section range.
  (** The mapped stack. *)
  Context (lo hi : Z) (Hlo : 0 <= lo) (Hhi : hi < 2 ^ 64).

Definition stack_mapped (m : mem) : Prop := forall x, lo <= x < hi -> is_Some (m !! x).

Lemma stack_mapped_put m a bs : stack_mapped m -> stack_mapped (put_bytes m a bs).
Proof. intros Hm x Hx. by apply put_bytes_mapped, Hm. Qed.

Lemma store_on_stack m a bs :
  stack_mapped m -> lo <= a -> a + buf_len bs <= hi -> store m a bs = Ok (put_bytes m a bs).
Proof. intros Hm Ha He. apply store_defined. intros x Hx. apply Hm. lia. Qed.

Lemma copy_strings_spec m str ss :
  stack_mapped m -> lo <= str -> str + str_space ss <= hi ->
  copy_strings m str ss = Ok (put_bytes m str (flat ss), starts str ss, str + str_space ss).
Proof.
  revert m str. induction ss as [|s ss IH]; intros m str Hm Ha He.
  - cbn. by rewrite Z.add_0_r.
  - unfold flat. cbn [copy_strings starts str_space foldr map concat] in *.
    fold (str_space ss) in *. pose proof (buf_len_nonneg s).
    assert (0 <= str_space ss) by (rewrite <- buf_len_flat; apply buf_len_nonneg).
    rewrite store_on_stack by (rewrite ?buf_len_app; change (buf_len [0]) with 1; auto; lia).
    cbn [mbind res_bind]. rewrite u64_small by lia.
    rewrite IH by (auto using stack_mapped_put; lia). cbn [mbind res_bind].
    rewrite (put_bytes_app m str (s ++ [0])), buf_len_app. change (buf_len [0]) with 1.
    f_equal. f_equal; [|lia]. f_equal. f_equal. lia.
Qed.

Lemma push_words_spec m p ws :
  stack_mapped m -> lo <= p -> p + 8 * Z.of_nat (length ws) <= hi ->
  push_words m p ws = Ok (put_bytes m p (concat (map (le_bytes 8) ws))).
Proof.
  revert m p. induction ws as [|w ws IH]; intros m p Hm Hp He; cbn [push_words map concat length] in *; [done|].
  assert (buf_len (le_bytes 8 w) = 8) as H8 by (unfold buf_len; by rewrite length_le_bytes).
  unfold store64. rewrite store_on_stack by (auto; lia). cbn [mbind res_bind].
  rewrite u64_small by lia. rewrite IH by (auto using stack_mapped_put; lia).
  by rewrite put_bytes_app, H8.
Qed.
End range.

Lemma buf_len_words ws : buf_len (concat (map (le_bytes 8) ws)) = 8 * Z.of_nat (length ws).
Proof.
  induction ws as [|w ws IH]; [done|]. cbn [map concat length]. rewrite buf_len_app, IH.
  unfold buf_len. rewrite length_le_bytes. lia.
Qed.

Lemma load_pushed m p ws i w :
  ws !! i = Some w -> is_u64 w ->
  load64 (put_bytes m p (concat (map (le_bytes 8) ws))) (p + 8 * Z.of_nat i) = Ok w.
Proof.
  intros Hi Hw. rewrite <- (take_drop_middle ws i w Hi) at 1. rewrite map_app, concat_app.
  cbn [map concat]. pose proof (lookup_lt_Some _ _ _ Hi).
  pose proof (get_bytes_put_part m p (concat (map (le_bytes 8) (take i ws))) (le_bytes 8 w)
    (concat (map (le_bytes 8) (drop (S i) ws))) (p + 8 * Z.of_nat i)) as E.
  rewrite length_le_bytes in E. unfold load64, read_le. rewrite E.
  - rewrite le_value_bytes. f_equal. apply Z.mod_small. exact Hw.
  - rewrite buf_len_words, length_take. lia.
Qed.

(** The C string [s] is at address [p]. *)
Definition cstring_at (m : mem) (p : Z) (s : list Z) : Prop :=
  get_bytes (mem_get m) p (length s + 1) = Some (s ++ [0]).

(** A string below which the words were pushed. *)
Lemma string_on_stack m t x s y top ws p :
  p = t + buf_len x -> top + 8 * Z.of_nat (length ws) <= t ->
  cstring_at (put_bytes (put_bytes m t (x ++ (s ++ [0]) ++ y)) top (concat (map (le_bytes 8) ws))) p s.
Proof.
  intros -> Ht. unfold cstring_at. pose proof (buf_len_nonneg x).
  pose proof (buf_len_words ws) as Hw. unfold buf_len in Hw.
  rewrite get_bytes_put_other by (right; lia).
  replace (length s + 1)%nat with (length (s ++ [0])) by (rewrite length_app; done).
  by apply get_bytes_put_part.
Qed.

(** The memory [fill_stack] leaves: all strings at [t], the words at [top]. *)
Definition stack_strings (argv0 : list Z) (argv envp : list (list Z)) : list Z :=
  flat argv ++ flat envp ++ argv0 ++ [0].

Definition stack_words (t : Z) (argv envp : list (list Z)) : list Z :=
  Z.of_nat (length argv) :: starts t argv ++ [0] ++ starts (t + str_space argv) envp ++
  [0; t + str_space argv + str_space envp; 0].

Definition stack_need (argv0 : list Z) (argv envp : list (list Z)) : Z :=
  str_space argv + str_space envp + buf_len argv0 + 1 +
  8 * (Z.of_nat (length argv) + Z.of_nat (length envp) + 5).

Lemma length_stack_words t argv envp :
  length (stack_words t argv envp) = (length argv + length envp + 5)%nat.
Proof.
  unfold stack_words. cbn [length]. rewrite !length_app, !length_starts. cbn. lia.
Qed.

Lemma str_space_nonneg ss : 0 <= str_space ss.
Proof. rewrite <- buf_len_flat. apply buf_len_nonneg. Qed.

Lemma fill_stack_memory argv0 rest envp stack size m :
  let argv := argv0 :: rest in
  0 <= stack -> stack + size < 2 ^ 64 -> (length argv < Z.to_nat 1000000)%nat ->
  stack_mapped stack (stack + size) m -> stack_need argv0 argv envp + 48 <= size ->
  exists t top,
    fill_stack argv envp stack size m =
      Ok (Some (top, put_bytes (put_bytes m t (stack_strings argv0 argv envp)) top
                       (concat (map (le_bytes 8) (stack_words t argv envp))))) /\
    top mod 16 = 0 /\ stack <= top /\
    top + 8 * Z.of_nat (length (stack_words t argv envp)) <= t /\
    t + buf_len (stack_strings argv0 argv envp) <= stack + size.
Proof.
  intros argv Hst Hend Hargc Hm Hneed. unfold stack_need in Hneed.
  pose proof (str_space_nonneg argv). pose proof (str_space_nonneg envp).
  pose proof (buf_len_nonneg argv0).
  set (need := str_space argv + str_space envp + buf_len argv0 + 1) in *.
  destruct (align16_spec (stack + size) ltac:(lia)) as (A0 & _ & _).
  set (t0 := align16 (stack + size)) in *.
  destruct (align16_spec (t0 - need) ltac:(lia)) as (A1 & _ & _).
  set (t1 := align16 (t0 - need)) in *.
  set (pc := 1 + (Z.of_nat (length argv) + 1) + (Z.of_nat (length envp) + 1) + 2).
  destruct (align16_spec (t1 - pc * 8) ltac:(lia)) as (A2 & M2 & _).
  set (t2 := align16 (t1 - pc * 8)) in *.
  exists t1, t2. rewrite length_stack_words.
  assert (buf_len (stack_strings argv0 argv envp) = need) as Hlen.
  { unfold stack_strings. rewrite !buf_len_app, !buf_len_flat. change (buf_len [0]) with 1. lia. }
  split; [|split; [exact M2|split; [lia|split; [lia|lia]]]].
  unfold fill_stack. fold argv. cbn [argv]. fold argv. fold need. fold pc.
  rewrite (u64_small (stack + size)), (u64_small (align16 (stack + size) - need)) by lia.
  fold t0. fold t1. rewrite (u64_small (t1 - pc * 8)) by lia. fold t2.
  replace (Z.of_nat (length argv) >=? 1000000) with false by lia.
  rewrite (copy_strings_spec stack (stack + size) Hst Hend) by (auto; lia). cbn [mbind res_bind].
  rewrite (copy_strings_spec stack (stack + size) Hst Hend) by (auto using stack_mapped_put; lia).
  cbn [mbind res_bind].
  rewrite (store_on_stack stack (stack + size))
    by (auto using stack_mapped_put; rewrite ?buf_len_app; change (buf_len [0]) with 1; lia).
  cbn [mbind res_bind].
  fold (stack_words t1 argv envp).
  rewrite (push_words_spec stack (stack + size) Hst Hend);
    [|auto using stack_mapped_put|lia|rewrite length_stack_words; lia].
  cbn [mbind res_bind]. unfold stack_strings. by rewrite !put_bytes_app, !buf_len_flat.
Qed.

(** ** Lemmas: the words by index *)

Lemma words_succ t argv envp k :
  stack_words t argv envp !! S k =
  (starts t argv ++ [0] ++ starts (t + str_space argv) envp ++
   [0; t + str_space argv + str_space envp; 0]) !! k.
Proof. done. Qed.

Lemma words_argv t argv envp i p :
  starts t argv !! i = Some p -> stack_words t argv envp !! S i = Some p.
Proof.
  intros Hp. rewrite words_succ, lookup_app_l; [done|]. by apply (lookup_lt_Some _ _ _ Hp).
Qed.

(** The words after the argv pointers. *)
Lemma words_after t argv envp k :
  stack_words t argv envp !! S (length argv + k) =
  ([0] ++ starts (t + str_space argv) envp ++ [0; t + str_space argv + str_space envp; 0]) !! k.
Proof.
  rewrite words_succ, lookup_app_r by (rewrite length_starts; lia). rewrite length_starts.
  f_equal. lia.
Qed.

Lemma words_envp t argv envp i p :
  starts (t + str_space argv) envp !! i = Some p ->
  stack_words t argv envp !! S (length argv + S i) = Some p.
Proof.
  intros Hp. rewrite words_after, lookup_app_r by (cbn; lia).
  cbn [length]. replace (S i - 1)%nat with i by lia.
  rewrite lookup_app_l; [done|]. by apply (lookup_lt_Some _ _ _ Hp).
Qed.

Lemma words_tail t argv envp j :
  stack_words t argv envp !! S (length argv + S (length envp + j)) =
  [0; t + str_space argv + str_space envp; 0] !! j.
Proof.
  rewrite words_after, lookup_app_r by (cbn; lia).
  cbn [length]. replace (S (length envp + j) - 1)%nat with (length envp + j)%nat by lia.
  rewrite lookup_app_r by (rewrite length_starts; lia). rewrite length_starts. f_equal. lia.
Qed.

(** ** Lemmas: the finished stack *)

Section finished.
  Context (m : mem) (t top hi : Z) (argv0 : list Z) (argv envp : list (list Z)).
  Context (Ht : 0 <= top) (Hhi : hi < 2 ^ 64).
  Context (Hwt : top + 8 * Z.of_nat (length (stack_words t argv envp)) <= t).
  Context (Hte : t + buf_len (stack_strings argv0 argv envp) <= hi).

Definition finished : mem :=
  put_bytes (put_bytes m t (stack_strings argv0 argv envp)) top
    (concat (map (le_bytes 8) (stack_words t argv envp))).

Lemma finished_word k w z :
  stack_words t argv envp !! k = Some w -> is_u64 w -> z = Z.of_nat k ->
  load64 finished (top + 8 * z) = Ok w.
Proof. intros Hk Hw ->. by apply load_pushed. Qed.

Lemma finished_string x s y :
  stack_strings argv0 argv envp = x ++ (s ++ [0]) ++ y ->
  cstring_at finished (t + buf_len x) s /\ is_u64 (t + buf_len x).
Proof.
  intros E. split.
  - unfold finished. rewrite E. by apply string_on_stack.
  - rewrite E, !buf_len_app in Hte. pose proof (buf_len_nonneg x). pose proof (buf_len_nonneg s).
    pose proof (buf_len_nonneg y). pose proof (buf_len_nonneg [0]). unfold is_u64. lia.
Qed.

(** Pointer [S i] is argument [i]. *)
Lemma finished_argv i s :
  argv !! i = Some s -> exists p,
    load64 finished (top + 8 * (1 + Z.of_nat i)) = Ok p /\ cstring_at finished p s.
Proof.
  intros Hs. destruct (starts_lookup t argv i s Hs) as (x & y & E & Hp).
  destruct (finished_string x s (y ++ flat envp ++ argv0 ++ [0])) as [Hc Hu].
  { unfold stack_strings. rewrite E. by rewrite <- !app_assoc. }
  exists (t + buf_len x). split; [|exact Hc].
  apply (finished_word (S i)); [by apply words_argv|exact Hu|lia].
Qed.

Lemma finished_envp i s :
  envp !! i = Some s -> exists p,
    load64 finished (top + 8 * (2 + Z.of_nat (length argv) + Z.of_nat i)) = Ok p /\
    cstring_at finished p s.
Proof.
  intros Hs. destruct (starts_lookup (t + str_space argv) envp i s Hs) as (x & y & E & Hp).
  destruct (finished_string (flat argv ++ x) s (y ++ argv0 ++ [0])) as [Hc Hu].
  { unfold stack_strings. rewrite E. by rewrite <- !app_assoc. }
  rewrite buf_len_app, buf_len_flat, Z.add_assoc in Hc, Hu.
  exists (t + str_space argv + buf_len x). split; [|exact Hc].
  apply (finished_word (S (length argv + S i))); [by apply words_envp|exact Hu|lia].
Qed.

Lemma finished_apple :
  exists p, load64 finished (top + 8 * (3 + Z.of_nat (length argv) + Z.of_nat (length envp))) = Ok p /\
    cstring_at finished p argv0.
Proof.
  destruct (finished_string (flat argv ++ flat envp) argv0 []) as [Hc Hu].
  { unfold stack_strings. by rewrite app_nil_r, <- !app_assoc. }
  rewrite buf_len_app, !buf_len_flat, Z.add_assoc in Hc, Hu.
  exists (t + str_space argv + str_space envp). split; [|exact Hc].
  apply (finished_word (S (length argv + S (length envp + 1)))); [by rewrite words_tail|exact Hu|lia].
Qed.

Lemma finished_outside x : x < top \/ hi <= x -> finished !! x = m !! x.
Proof.
  intros Hx. unfold finished. rewrite !lookup_put_bytes.
  pose proof (buf_len_words (stack_words t argv envp)) as Hw.
  pose proof (buf_len_nonneg (stack_strings argv0 argv envp)). unfold buf_len in *.
  rewrite Hw. repeat case_decide; try lia. done.
Qed.
End finished.

(** The stack a macOS program expects at its stack pointer: argc, the argv
    pointers, NULL, the environment pointers, NULL, the path of the program
    as the apple vector, NULL; every pointer leads to its C string. *)
Definition stack_layout (argv0 : list Z) (argv envp : list (list Z)) (top : Z) (m : mem) : Prop :=
  let argc := Z.of_nat (length argv) in
  let nenv := Z.of_nat (length envp) in
  load64 m top = Ok argc /\
  (forall i s, argv !! i = Some s -> exists p,
     load64 m (top + 8 * (1 + Z.of_nat i)) = Ok p /\ cstring_at m p s) /\
  load64 m (top + 8 * (1 + argc)) = Ok 0 /\
  (forall i s, envp !! i = Some s -> exists p,
     load64 m (top + 8 * (2 + argc + Z.of_nat i)) = Ok p /\ cstring_at m p s) /\
  load64 m (top + 8 * (2 + argc + nenv)) = Ok 0 /\
  (exists p, load64 m (top + 8 * (3 + argc + nenv)) = Ok p /\ cstring_at m p argv0) /\
  load64 m (top + 8 * (4 + argc + nenv)) = Ok 0.

Lemma fill_stack_layout (argv0 : list Z) (rest envp : list (list Z)) (stack size : Z) (m : mem) :
  let argv := argv0 :: rest in
  0 <= stack -> stack + size < 2 ^ 64 -> (length argv < Z.to_nat 1000000)%nat ->
  stack_mapped stack (stack + size) m -> stack_need argv0 argv envp + 48 <= size ->
  exists top m', fill_stack argv envp stack size m = Ok (Some (top, m')) /\
    top mod 16 = 0 /\
    (stack <= top /\ top + 8 * (5 + Z.of_nat (length argv) + Z.of_nat (length envp)) <= stack + size) /\
    stack_layout argv0 argv envp top m' /\
    forall x, x < stack \/ stack + size <= x -> m' !! x = m !! x.
Proof.
  intros argv Hst Hend Hargc Hm Hneed. unfold stack_layout.
  set (argc := Z.of_nat (length argv)). set (nenv := Z.of_nat (length envp)).
  destruct (fill_stack_memory argv0 rest envp stack size m Hst Hend Hargc Hm Hneed)
    as (t & top & Hrun & Hal & Hlow & Hwt & Hte). fold argv in Hrun, Hwt, Hte.
  exists top, (finished m t top argv0 argv envp). split; [exact Hrun|]. split; [exact Hal|].
  assert (0 <= top) as Ht by lia.
  pose proof (buf_len_nonneg (stack_strings argv0 argv envp)).
  assert (forall k, stack_words t argv envp !! k = Some 0 -> forall z, z = Z.of_nat k ->
    load64 (finished m t top argv0 argv envp) (top + 8 * z) = Ok 0) as Hz
    by (intros k Hk z Ez; apply (finished_word m t top argv0 argv envp k); [done|unfold is_u64; lia|done]).
  split; [rewrite length_stack_words in Hwt; lia|]. split; [repeat split|].
  - replace top with (top + 8 * 0) at 2 by lia.
    apply (finished_word m t top argv0 argv envp 0%nat); [done|unfold is_u64, argc; lia|done].
  - intros i s. by apply (finished_argv m t top (stack + size)).
  - apply (Hz (S (length argv + 0))); [by rewrite words_after|unfold argc; lia].
  - intros i s. by apply (finished_envp m t top (stack + size)).
  - apply (Hz (S (length argv + S (length envp + 0)))); [by rewrite words_tail|unfold argc, nenv; lia].
  - by apply (finished_apple m t top (stack + size)).
  - apply (Hz (S (length argv + S (length envp + 2)))); [by rewrite words_tail|unfold argc, nenv; lia].
  - intros x Hx. apply (finished_outside m t top (stack + size)); [done|done|lia].
Qed.

(** [mmap] as documented: a mapping of the size asked for, inside the
    address space, where nothing was mapped; the rest of memory is kept. *)
Definition mmap_ok (os_mmap : mem -> Z -> option (Z * mem)) : Prop :=
  forall m size a m', os_mmap m size = Some (a, m') ->
    0 <= a /\ a + size < 2 ^ 64 /\ stack_mapped a (a + size) m' /\
    (forall x, a <= x < a + size -> m !! x = None) /\
    forall x, x < a \/ a + size <= x -> m' !! x = m !! x.

(** Where the stack is, with room for all its words. *)
Lemma setup_stack_spec (os_setrlimit : rlimit -> rlimit -> rlimit)
    (os_mmap : mem -> Z -> option (Z * mem)) (rl : option rlimit)
    (argv0 : list Z) (rest envp : list (list Z)) (m : mem) :
  let argv := argv0 :: rest in
  mmap_ok os_mmap ->
  is_Some (os_mmap m (16 * 1024 * 1024)) \/ is_Some (os_mmap m (8 * 1024 * 1024)) ->
  (length argv < Z.to_nat 1000000)%nat ->
  stack_need argv0 argv envp + 48 <= 8 * 1024 * 1024 ->
  exists info m', setup_stack os_setrlimit os_mmap rl argv envp m = Ok (Some (info, m')) /\
    stk_top info mod 16 = 0 /\
    (stk_base info <= stk_top info /\
     stk_top info + 8 * (5 + Z.of_nat (length argv) + Z.of_nat (length envp)) <= stk_base info + stk_size info /\
     0 <= stk_base info /\ stk_base info + stk_size info < 2 ^ 64) /\
    stk_limit info = raise_stack_limit os_setrlimit rl /\
    stack_layout argv0 argv envp (stk_top info) m' /\
    (forall x, x < stk_base info \/ stk_base info + stk_size info <= x -> m' !! x = m !! x) /\
    forall x b, m !! x = Some b -> m' !! x = Some b.
Proof.
  intros argv Hos Hgrant Hargc Hneed.
  assert (forall size a m1, os_mmap m size = Some (a, m1) -> 8 * 1024 * 1024 <= size ->
    exists top m', fill_stack argv envp a size m1 = Ok (Some (top, m')) /\ top mod 16 = 0 /\
      (a <= top /\ top + 8 * (5 + Z.of_nat (length argv) + Z.of_nat (length envp)) <= a + size /\ 0 <= a /\ a + size < 2 ^ 64) /\
      stack_layout argv0 argv envp top m' /\
      (forall x, x < a \/ a + size <= x -> m' !! x = m !! x) /\
      forall x b, m !! x = Some b -> m' !! x = Some b) as Hfill.
  { intros size a m1 E Hs. destruct (Hos _ _ _ _ E) as (Ha & He & Hm & Hfree & Hrest).
    destruct (fill_stack_layout argv0 rest envp a size m1) as (top & m' & R & Al & In & L & O);
      [done|done|done|done|unfold argv in *; lia|].
    exists top, m'. split; [done|]. split; [done|].
    split; [destruct In as [? ?]; split_and!; done|]. split; [done|].
    split; [intros x Hx; by rewrite O, Hrest|]. intros x b Hx.
    destruct (decide (a <= x < a + size)) as [Hin|Hout]; [by rewrite Hfree in Hx|].
    by rewrite O, Hrest by lia. }
  unfold setup_stack.
  destruct (os_mmap m (16 * 1024 * 1024)) as [[a m1]|] eqn:E16;
    [|destruct Hgrant as [[? [=]]|[[a m1] E8]]; rewrite E8].
  - destruct (Hfill _ _ _ E16) as (top & m' & -> & ? & ? & ? & ? & ?); [lia|].
    eexists (StackInfo _ _ _ _), m'. split; [reflexivity|]. cbn [stk_top stk_base stk_size stk_limit].
    split; [done|]. split; [eassumption|]. split; [done|]. split; [done|]. split; done.
  - destruct (Hfill _ _ _ E8) as (top & m' & -> & ? & ? & ? & ? & ?); [lia|].
    eexists (StackInfo _ _ _ _), m'. split; [reflexivity|]. cbn [stk_top stk_base stk_size stk_limit].
    split; [done|]. split; [eassumption|]. split; [done|]. split; [done|]. split; done.
Qed.

(** ** Properties *)

(** Where [mmap] grants one of the two sizes and the
    strings and pointers fit into 8 MB, [setup_stack] returns a 16-byte
    aligned stack pointer into the mapping it reports, at which memory holds
    argc, the argv pointers, NULL, the environment pointers, NULL, the apple
    vector with the program's path and NULL, each pointer leading to its
    string; memory mapped before is unchanged. *)
Theorem setup_stack_layout (os_setrlimit : rlimit -> rlimit -> rlimit)
    (os_mmap : mem -> Z -> option (Z * mem)) (rl : option rlimit)
    (argv0 : list Z) (rest envp : list (list Z)) (m : mem) :
  let argv := argv0 :: rest in
  mmap_ok os_mmap ->
  is_Some (os_mmap m (16 * 1024 * 1024)) \/ is_Some (os_mmap m (8 * 1024 * 1024)) ->
  (length argv < Z.to_nat 1000000)%nat ->
  stack_need argv0 argv envp + 48 <= 8 * 1024 * 1024 ->
  exists info m', setup_stack os_setrlimit os_mmap rl argv envp m = Ok (Some (info, m')) /\
    stk_top info mod 16 = 0 /\
    stk_base info <= stk_top info < stk_base info + stk_size info /\
    stk_limit info = raise_stack_limit os_setrlimit rl /\
    stack_layout argv0 argv envp (stk_top info) m' /\
    forall x b, m !! x = Some b -> m' !! x = Some b.
Proof.
  intros argv Hos Hgrant Hargc Hneed.
  destruct (setup_stack_spec os_setrlimit os_mmap rl argv0 rest envp m) as (info & m' & E & Hal & Hin & Hl & L & _ & H);
    [done..|]. exists info, m'. split; [exact E|]. split; [exact Hal|]. split; [lia|]. by split.
Qed.

(** An [mmap] that maps at 0x1000 as long as nothing is mapped. *)
Definition demo_mmap (m : mem) (size : Z) : option (Z * mem) :=
  if decide (m = ∅ /\ 0 <= size < 2 ^ 32)
  then Some (0x1000, put_bytes ∅ 0x1000 (replicate (Z.to_nat size) 0)) else None.

Lemma demo_mmap_ok : mmap_ok demo_mmap.
Proof.
  intros m size a m' E. unfold demo_mmap in E. case_decide as Hd; [|done]. destruct Hd as [-> Hs].
  injection E as <- <-. split; [lia|]. split; [lia|].
  split; [|split; [intros x _; apply lookup_empty|]]; intros x Hx;
    rewrite lookup_put_bytes, length_replicate.
  - rewrite decide_True by lia. apply lookup_lt_is_Some_2. rewrite length_replicate. lia.
  - rewrite decide_False by lia. done.
Qed.

Lemma setup_stack_layout_witness :
  exists info m', setup_stack (fun _ new => new) demo_mmap (Some (Rlimit (8 * 1024 * 1024) RLIM_INFINITY))
      [[97]; [98; 99]] [[100]] ∅ = Ok (Some (info, m')) /\
    stk_limit info = Some (Rlimit (64 * 1024 * 1024) RLIM_INFINITY) /\
    load64 m' (stk_top info) = Ok 2 /\
    exists p, load64 m' (stk_top info + 16) = Ok p /\ cstring_at m' p [98; 99].
Proof.
  destruct (setup_stack_layout (fun _ new => new) demo_mmap
    (Some (Rlimit (8 * 1024 * 1024) RLIM_INFINITY)) [97] [[98; 99]] [[100]] ∅)
    as (info & m' & Hrun & _ & _ & Hl & (Hc & Ha & _) & _).
  - exact demo_mmap_ok.
  - left. unfold demo_mmap. rewrite decide_True by (split; [done|lia]). eauto.
  - cbn [length]. lia.
  - vm_compute. discriminate.
  - exists info, m'. split; [exact Hrun|]. split; [exact Hl|]. split; [exact Hc|].
    exact (Ha 1%nat [98; 99] eq_refl).
Defined.
