(* ===== verification/Once.v ===== *)
(** * One-time initialisation and locks between threads

    [pthread_once] (src/shim/pthread/tls.c), the spin lock of
    src/shim/pthread/core.c, and the lazily filled tables of function
    pointers ([MACIFY_LAZY_INIT] of src/shim/shim.h, used by sync.c, attr.c
    and flags.c), as threads that interleave at their atomic accesses.  A
    memory access is one step of one thread, and steps of different threads
    interleave in any order (the accesses are atomic and ordered by acquire
    and release). *)
From Stdlib Require Import ZArith Lia Bool.
From stdpp Require Import base list strings relations numbers.
From S2P Require Import Prelude.

(** ** Schedules: lemmas any of the machines below can use *)

(** A machine with a step function for each thread; a thread that cannot move
    lets its turn pass. *)
Definition turn {S} (step : S -> nat -> option S) (s : S) (i : nat) : S := default s (step s i).

Definition run_schedule {S} (step : S -> nat -> option S) : S -> list nat -> S := foldl (turn step).

Definition moves {S} (step : S -> nat -> option S) (s s' : S) : Prop := exists i, step s i = Some s'.

Section schedules.
  Context {S : Type} (step : S -> nat -> option S) (Inv : S -> Prop).
  Context (Hinv : forall s i s', Inv s -> step s i = Some s' -> Inv s').

Lemma turn_inv s i : Inv s -> Inv (turn step s i).
Proof. intros Hs. unfold turn. destruct (step s i) eqn:E; cbn; eauto. Qed.

Lemma run_inv s sched : Inv s -> Inv (run_schedule step s sched).
Proof. revert s. induction sched as [|i sched IH]; intros s Hs; [done|]. cbn. by apply IH, turn_inv. Qed.

Lemma reach_inv s s' : rtc (moves step) s s' -> Inv s -> Inv s'.
Proof. induction 1 as [|s s1 s' [i Hi] _ IH]; eauto. Qed.

(** A property of each thread that is kept by all turns and established by the
    thread's own turn holds of all threads after a round. *)
Lemma round_establishes (Q : nat -> S -> Prop) (ids round : list nat) s :
  (forall i j s, Inv s -> Q i s -> Q i (turn step s j)) ->
  (forall i s, Inv s -> Q i (turn step s i)) ->
  Inv s -> (forall i, i ∈ ids -> i ∈ round \/ Q i s) ->
  forall i, i ∈ ids -> Q i (run_schedule step s round).
Proof.
  intros Hkeep Hown. revert s. induction round as [|j round IH]; intros s Hs Hids i Hi; cbn.
  - destruct (Hids i Hi) as [Hn|]; [|done]. by apply elem_of_nil in Hn.
  - apply IH; [by apply turn_inv| |done]. intros k Hk.
    destruct (Hids k Hk) as [[-> |Hin]%elem_of_cons|HQ]; auto.
Qed.
End schedules.

(** ** [pthread_once] *)
Module Once.

Definition MACOS_PTHREAD_ONCE_INIT : Z := 0x30B1BCBA.

(** Where a thread is in [pthread_once]; [OCas val] has loaded [val]. *)
Inductive once_pc :=
| OLoad | OCas (val : Z) | OInit | ORun | OForce | OStore | OWait | ODone.

(** [once_control], the OpenSSL [ret_] integers, how often [init_routine] was
    entered and left, and the threads. *)
Record once_state := OnceState {
  once_control : Z;
  ret_globals : list Z;
  inits_begun : nat;
  inits_ended : nat;
  once_threads : list once_pc
}.

(** [*p == 0 ? 1 : *p] *)
Definition force_one (v : Z) : Z := if v =? 0 then 1 else v.

Section machine.
  (** [MACIFY_FORCE_SSL] is set and the image header known; what
      [init_routine] leaves in the [ret_] integers. *)
  Context (force_ssl : bool) (init_routine : list Z -> list Z).

(** The next access of a thread at [pc]: the shared state and where it is then. *)
Definition once_access (s : once_state) (pc : once_pc) : option (once_state * once_pc) :=
  let '(OnceState c g b e ts) := s in
  match pc with
  | OLoad =>
      Some (s, if c =? 1 then ODone
               else if (c =? MACOS_PTHREAD_ONCE_INIT) || (c =? 0) then OCas c else OWait)
  | OCas val => if c =? val then Some (OnceState 2 g b e ts, OInit) else Some (s, OWait)
  | OInit => Some (OnceState c g (S b) e ts, ORun)
  | ORun => Some (OnceState c (init_routine g) b (S e) ts, OForce)
  | OForce => Some (OnceState c (if force_ssl then map force_one g else g) b e ts, OStore)
  | OStore => Some (OnceState 1 g b e ts, ODone)
  | OWait => Some (s, if c =? 2 then OWait else OLoad)
  | ODone => None
  end.

Definition set_thread (s : once_state) (i : nat) (pc : once_pc) : once_state :=
  OnceState (once_control s) (ret_globals s) (inits_begun s) (inits_ended s)
            (<[i := pc]> (once_threads s)).

Definition once_step (s : once_state) (i : nat) : option once_state :=
  match once_threads s !! i with
  | None => None
  | Some pc => match once_access s pc with
               | None => None
               | Some (s', pc') => Some (set_thread s' i pc')
               end
  end.

(** [n] threads call [pthread_once] on a control word that is [v]. *)
Definition once_start (v : Z) (g : list Z) (n : nat) : once_state :=
  OnceState v g 0 0 (replicate n OLoad).

(** ** Lemmas: the invariant *)

Definition fresh_value (v : Z) : Prop := v = 0 \/ v = MACOS_PTHREAD_ONCE_INIT.

Definition outside (v : Z) (pc : once_pc) : Prop := pc = OLoad \/ pc = OCas v \/ pc = OWait.

(** How far the claiming thread still has to go; [None] for others. *)
Definition claim_rank (pc : once_pc) : option nat :=
  match pc with OInit => Some 4 | ORun => Some 3 | OForce => Some 2 | OStore => Some 1 | _ => None end%nat.

Definition claim_begun (pc : once_pc) : nat := match pc with OInit => 0 | _ => 1 end.
Definition claim_ended (pc : once_pc) : nat := match pc with OInit | ORun => 0 | _ => 1 end.

Definition forced (s : once_state) : Prop := force_ssl = true -> Forall (fun v => v <> 0) (ret_globals s).

Inductive once_inv (v : Z) (s : once_state) : Prop :=
| inv_fresh : once_control s = v -> inits_begun s = 0%nat -> inits_ended s = 0%nat ->
    (forall i pc, once_threads s !! i = Some pc -> pc = OLoad \/ pc = OCas v) -> once_inv v s
| inv_claimed c pc : once_control s = 2 -> once_threads s !! c = Some pc -> is_Some (claim_rank pc) ->
    inits_begun s = claim_begun pc -> inits_ended s = claim_ended pc ->
    (pc = OStore -> forced s) ->
    (forall i q, i <> c -> once_threads s !! i = Some q -> outside v q) -> once_inv v s
| inv_done : once_control s = 1 -> inits_begun s = 1%nat -> inits_ended s = 1%nat -> forced s ->
    (forall i pc, once_threads s !! i = Some pc -> outside v pc \/ pc = ODone) -> once_inv v s.

Lemma force_one_nonzero l : Forall (fun v => v <> 0) (map force_one l).
Proof.
  induction l as [|v l IH]; constructor; [|done]. unfold force_one. destruct (Z.eqb_spec v 0); lia.
Qed.

Lemma lookup_set {A} (l : list A) i j x y :
  <[i := x]> l !! j = Some y -> (j = i /\ y = x) \/ (j <> i /\ l !! j = Some y).
Proof.
  destruct (decide (i = j)) as [<-|Hne].
  - intros H. left. destruct (decide (i < length l)%nat) as [Hl|Hl].
    + rewrite list_lookup_insert_eq in H by done. by injection H.
    + rewrite list_insert_ge, lookup_ge_None_2 in H by lia. done.
  - rewrite list_lookup_insert_ne by done. eauto.
Qed.

Lemma lookup_set_same {A} (l : list A) i x y : l !! i = Some x -> <[i := y]> l !! i = Some y.
Proof. intros H. apply list_lookup_insert_eq. by apply lookup_lt_Some in H. Qed.

Context (v : Z) (Hv : fresh_value v).

Lemma fresh_tests : ((v =? 1) = false /\ ((v =? MACOS_PTHREAD_ONCE_INIT) || (v =? 0)) = true /\ v <> 2).
Proof. destruct Hv as [-> | ->]; repeat split; vm_compute; congruence. Qed.

Ltac step_of H :=
  unfold once_step in H;
  match type of H with
  | match ?l !! ?i with _ => _ end = _ =>
      let pc := fresh "pc" in let E := fresh "Epc" in
      destruct (l !! i) as [pc|] eqn:E; [|discriminate H]
  end.

Lemma inv_step_fresh s i s' :
  once_control s = v -> inits_begun s = 0%nat -> inits_ended s = 0%nat ->
  (forall i pc, once_threads s !! i = Some pc -> pc = OLoad \/ pc = OCas v) ->
  once_step s i = Some s' -> once_inv v s'.
Proof.
  intros Hc Hb He Ht H. step_of H. destruct fresh_tests as (F1 & F2 & F3).
  destruct s as [c g b e ts]. cbn in *. subst c b e.
  destruct (Ht i pc Epc) as [-> | ->]; cbn in H.
  - rewrite F1, F2 in H. injection H as <-. apply inv_fresh; try done. cbn.
    intros j q [[-> ->]|[_ Hq]]%lookup_set; eauto.
  - rewrite Z.eqb_refl in H. injection H as <-.
    apply (inv_claimed v _ i OInit); try done; cbn.
    + by eapply lookup_set_same.
    + intros j q Hj [[-> _]|[_ Hq]]%lookup_set; [done|].
      destruct (Ht j q Hq) as [-> | ->]; unfold outside; auto.
Qed.

Lemma outside_step c pc pc' s s' :
  outside v pc -> once_control s = c -> c = 1 \/ c = 2 -> once_access s pc = Some (s', pc') ->
  s' = s /\ (outside v pc' \/ c = 1 /\ pc' = ODone).
Proof.
  intros Hpc Hc Hcase H. destruct s as [c' g b e ts]. cbn in Hc. subst c'.
  destruct fresh_tests as (F1 & F2 & F3). apply Z.eqb_neq in F1.
  destruct Hpc as [-> |[-> | ->]]; cbn in H.
  - destruct Hcase as [-> | ->]; injection H as <- <-; split; auto.
    left. unfold outside. auto.
  - destruct (Z.eqb_spec c v) as [->|_]; [lia|]. injection H as <- <-. unfold outside. auto.
  - destruct (c =? 2); injection H as <- <-; unfold outside; auto.
Qed.

Lemma inv_step_claimed s i s' c pc :
  once_control s = 2 -> once_threads s !! c = Some pc -> is_Some (claim_rank pc) ->
  inits_begun s = claim_begun pc -> inits_ended s = claim_ended pc -> (pc = OStore -> forced s) ->
  (forall i q, i <> c -> once_threads s !! i = Some q -> outside v q) ->
  once_step s i = Some s' -> once_inv v s'.
Proof.
  intros Hc Hl Hr Hb He Hf Ho H. step_of H.
  destruct (once_access s pc0) as [[s1 pc1]|] eqn:Ea; [|done]. injection H as <-.
  destruct (decide (i = c)) as [->|Hne].
  - rewrite Hl in Epc. injection Epc as <-. destruct s as [c' g b e ts]; cbn in *. subst c' b e.
    assert (forall q, <[c:=q]> ts !! c = Some q) as Hsame by (intros; by eapply lookup_set_same).
    assert (forall q j x, j <> c -> <[c:=q]> ts !! j = Some x -> outside v x) as Hout
      by (intros q j x Hj [[-> _]|[_ Hx]]%lookup_set; eauto; done).
    destruct pc; try (by destruct Hr); cbn in Ea; injection Ea as <- <-.
    + by apply (inv_claimed v _ c ORun); cbn; eauto.
    + by apply (inv_claimed v _ c OForce); cbn; eauto.
    + apply (inv_claimed v _ c OStore); cbn; eauto. intros _. unfold forced. cbn.
      intros ->. apply force_one_nonzero.
    + apply inv_done; try done; [by apply Hf|]. cbn.
      intros j q [[-> ->]|[Hj Hx]]%lookup_set; eauto.
  - destruct (outside_step 2 pc0 pc1 s s1) as [-> [Ho'|[? _]]]; eauto; [|done].
    apply (inv_claimed v _ c pc); cbn; auto.
    + by rewrite list_lookup_insert_ne.
    + intros j q Hj [[-> ->]|[_ Hq]]%lookup_set; eauto.
Qed.

Lemma inv_step_done s i s' :
  once_control s = 1 -> inits_begun s = 1%nat -> inits_ended s = 1%nat -> forced s ->
  (forall i pc, once_threads s !! i = Some pc -> outside v pc \/ pc = ODone) ->
  once_step s i = Some s' -> once_inv v s'.
Proof.
  intros Hc Hb He Hf Ht H. step_of H.
  destruct (once_access s pc) as [[s1 pc1]|] eqn:Ea; [|done]. injection H as <-.
  destruct (Ht i pc Epc) as [Ho| ->]; [|by destruct s].
  destruct (outside_step 1 pc pc1 s s1) as [-> Ho']; auto.
  apply inv_done; cbn; auto. intros j q [[-> ->]|[_ Hq]]%lookup_set; eauto. tauto.
Qed.

Lemma once_inv_step s i s' : once_inv v s -> once_step s i = Some s' -> once_inv v s'.
Proof.
  intros Hs H. destruct Hs;
    eauto using inv_step_fresh, inv_step_claimed, inv_step_done.
Qed.

Lemma once_start_inv g n : once_inv v (once_start v g n).
Proof.
  apply inv_fresh; try done. cbn. intros i pc [-> _]%lookup_replicate. auto.
Qed.

(** ** Lemmas: progress *)

Abbreviation once_turn := (turn once_step).
Abbreviation once_run := (run_schedule once_step).

Lemma step_access s i s' :
  once_step s i = Some s' -> exists pc s1 pc',
    once_threads s !! i = Some pc /\ once_access s pc = Some (s1, pc') /\ s' = set_thread s1 i pc' /\
    once_threads s1 = once_threads s /\
    (once_control s1 = once_control s \/ once_control s1 = 2 \/ once_control s1 = 1).
Proof.
  intros H. step_of H. destruct (once_access s pc) as [[s1 pc']|] eqn:Ea; [|done]. injection H as <-.
  exists pc, s1, pc'. do 3 (split; [done|]). destruct s as [c g b e ts].
  destruct pc; cbn in Ea; try (injection Ea as <- <-; cbn; auto).
  - destruct (c =? val); injection Ea as <- <-; cbn; auto.
  - done.
Qed.

Lemma turn_length s i : length (once_threads (once_turn s i)) = length (once_threads s).
Proof.
  unfold turn. destruct (once_step s i) as [s'|] eqn:E; [|done].
  apply step_access in E as (pc & s1 & pc' & _ & _ & -> & Et & _). cbn.
  by rewrite length_insert, Et.
Qed.

Lemma run_length s sched : length (once_threads (once_run s sched)) = length (once_threads s).
Proof. revert s. induction sched as [|i sched IH]; intros s; [done|]. cbn. rewrite IH. apply turn_length. Qed.

(** Somebody claimed the control word. *)
Definition claimed (s : once_state) : Prop := once_inv v s /\ once_control s <> v.

Lemma claimed_step s i s' : claimed s -> once_step s i = Some s' -> claimed s'.
Proof.
  intros [Hs Hc] H. split; [by eapply once_inv_step|].
  apply step_access in H as (pc & s1 & pc' & _ & _ & -> & _ & Hcc). cbn.
  destruct fresh_tests as (F1 & F2 & F3). apply Z.eqb_neq in F1. destruct Hcc as [-> |[-> | ->]]; auto.
Qed.

(** The threads are numbered from 0 to [n - 1]; a round gives each a turn. *)
Definition covers (n : nat) (round : list nat) : Prop := forall i, (i < n)%nat -> i ∈ round.

(** A round in which [round_establishes] applies to all threads. *)
Lemma once_round (Inv : once_state -> Prop) (Q : nat -> once_state -> Prop) n round s :
  (forall s i s', Inv s -> once_step s i = Some s' -> Inv s') ->
  (forall i j s, Inv s -> Q i s -> Q i (once_turn s j)) ->
  (forall i s, Inv s -> Q i (once_turn s i)) ->
  Inv s -> covers n round -> forall i, (i < n)%nat -> Q i (once_run s round).
Proof.
  intros Hinv Hkeep Hown Hs Hcov i Hi.
  apply (round_establishes once_step Inv Hinv Q (seq 0 n)); auto.
  - intros j Hj%elem_of_seq. left. apply Hcov. lia.
  - apply elem_of_seq. lia.
Qed.

(** After one round everybody has loaded the control word, or it is claimed. *)
Definition loaded (i : nat) (s : once_state) : Prop :=
  once_control s <> v \/ once_threads s !! i = Some (OCas v).

Lemma fresh_turn s i pc :
  once_inv v s -> once_control s = v -> once_threads s !! i = Some pc ->
  once_control (once_turn s i) = 2 \/
  pc = OLoad /\ once_turn s i = set_thread s i (OCas v).
Proof.
  intros Hs Hc Hpc. destruct fresh_tests as (F1 & F2 & F3). apply Z.eqb_neq in F1 as F1'.
  destruct Hs as [_ _ _ Ht| |]; [|congruence|congruence]. unfold turn, once_step. rewrite Hpc.
  destruct s as [c g b e ts]. cbn in *. subst c. destruct (Ht i pc Hpc) as [-> | ->]; cbn.
  - rewrite F1, F2. auto.
  - rewrite Z.eqb_refl. auto.
Qed.

Lemma loaded_keep i j s : once_inv v s -> loaded i s -> loaded i (once_turn s j).
Proof.
  intros Hs [Hc|Hl].
  - left. apply (turn_inv once_step claimed claimed_step). by split.
  - destruct (decide (once_control s = v)) as [Hc|Hc].
    + destruct (once_threads s !! j) as [pc|] eqn:Ej.
      * destruct (fresh_turn s j pc Hs Hc Ej) as [H2|[-> ->]].
        -- left. rewrite H2. by destruct fresh_tests as (_ & _ & F3).
        -- right. cbn. rewrite list_lookup_insert_ne; [done|]. intros ->. congruence.
      * right. unfold turn, once_step. by rewrite Ej.
    + left. apply (turn_inv once_step claimed claimed_step). by split.
Qed.

Lemma loaded_own n i s :
  once_inv v s /\ length (once_threads s) = n -> (i < n)%nat -> loaded i (once_turn s i).
Proof.
  intros [Hs Hn] Hi. destruct (decide (once_control s = v)) as [Hc|Hc].
  - destruct (lookup_lt_is_Some_2 (once_threads s) i) as [pc Hpc]; [lia|].
    destruct (fresh_turn s i pc Hs Hc Hpc) as [H2|[-> ->]].
    + left. rewrite H2. by destruct fresh_tests as (_ & _ & F3).
    + right. cbn. by eapply lookup_set_same.
  - left. apply (turn_inv once_step claimed claimed_step). by split.
Qed.

Definition sized (n : nat) (s : once_state) : Prop := once_inv v s /\ length (once_threads s) = n.

Lemma sized_step n s i s' : sized n s -> once_step s i = Some s' -> sized n s'.
Proof.
  intros [Hs Hn] H. split; [by eapply once_inv_step|].
  pose proof (turn_length s i) as E. unfold turn in E. rewrite H in E. cbn in E. lia.
Qed.

(** A property of one thread below [n], which others satisfy trivially. *)
Lemma sized_round n (Q : nat -> once_state -> Prop) (P : once_state -> Prop) round s :
  (forall s i s', sized n s -> P s -> once_step s i = Some s' -> P s') ->
  (forall i j s, sized n s -> P s -> Q i s -> Q i (once_turn s j)) ->
  (forall i s, (i < n)%nat -> sized n s -> P s -> Q i (once_turn s i)) ->
  sized n s -> P s -> covers n round ->
  sized n (once_run s round) /\ P (once_run s round) /\
  forall i, (i < n)%nat -> Q i (once_run s round).
Proof.
  intros HP Hkeep Hown Hs Hp Hcov.
  assert (forall s i s', sized n s /\ P s -> once_step s i = Some s' -> sized n s' /\ P s') as Hstep
    by (intros s0 i s0' [? ?] ?; eauto using sized_step).
  pose proof (run_inv once_step _ Hstep s round (conj Hs Hp)) as [Hs' Hp'].
  split; [done|]. split; [done|]. intros i Hi.
  apply (once_round (fun s => sized n s /\ P s) (fun i s => (i < n)%nat -> Q i s) n); auto.
  - intros i0 j s0 [? ?] HQ Hi0. auto.
  - intros i0 s0 [? ?] Hi0. auto.
Qed.

Lemma phase_claim n s r1 r2 :
  (0 < n)%nat -> sized n s -> covers n r1 -> covers n r2 ->
  sized n (once_run s (r1 ++ r2)) /\ once_control (once_run s (r1 ++ r2)) <> v.
Proof.
  intros Hn Hs H1 H2. unfold run_schedule. rewrite foldl_app.
  destruct (sized_round n loaded (fun _ => True) r1 s) as (Hs1 & _ & Hl); auto.
  { intros i j s0 [Hi _] _. by apply loaded_keep. }
  { intros i s0 Hi Hs0 _. by apply (loaded_own n). }
  fold (once_run s r1) in *.
  destruct (sized_round n (fun _ s => once_control s <> v)
    (fun s => forall i, (i < n)%nat -> loaded i s) r2 (once_run s r1)) as (Hs2 & _ & Hc); auto.
  - intros s0 i s0' [Hi0 _] Hall Hst j Hj. pose proof (loaded_keep j i s0 Hi0 (Hall j Hj)) as Hk.
    unfold turn in Hk. by rewrite Hst in Hk.
  - intros _ j s0 [Hi0 _] _ Hc. apply (turn_inv once_step claimed claimed_step). by split.
  - intros i s0 Hi [Hi0 Hn0] Hall. destruct (Hall i Hi) as [Hc|Hl0].
    + apply (turn_inv once_step claimed claimed_step). by split.
    + destruct (decide (once_control s0 = v)) as [Hc|Hc].
      * destruct (fresh_turn s0 i _ Hi0 Hc Hl0) as [E|[E _]]; [|done]. rewrite E.
        by destruct fresh_tests as (_ & _ & F3).
      * apply (turn_inv once_step claimed claimed_step). by split.
  - split; [done|]. by apply (Hc 0%nat).
Qed.

(** The claiming thread has at most [k] accesses to go. *)
Definition rank_le (k i : nat) (s : once_state) : Prop :=
  forall pc r, once_threads s !! i = Some pc -> claim_rank pc = Some r -> (r <= k)%nat.

Definition left_le (k i : nat) (s : once_state) : Prop :=
  once_control s = 1 \/ once_control s = 2 /\ rank_le k i s.

Definition run_left (k : nat) (s : once_state) : Prop :=
  once_control s = 1 \/ once_control s = 2 /\ forall i, rank_le k i s.

Lemma done_control_step s i s' :
  once_inv v s -> once_control s = 1 -> once_step s i = Some s' -> once_control s' = 1.
Proof.
  intros Hs Hc H. destruct fresh_tests as (F1 & _ & _). apply Z.eqb_neq in F1.
  destruct Hs as [|c pc Hc'|_ _ _ _ Ht]; [congruence|congruence|].
  apply step_access in H as (pc & s1 & pc' & Hpc & Ha & -> & _ & _).
  destruct (Ht i pc Hpc) as [Ho| ->]; [|by destruct s].
  by destruct (outside_step 1 pc pc' s s1) as [-> _]; auto.
Qed.

Lemma claimed_turn s i :
  once_inv v s -> once_control s = 2 ->
  once_control (once_turn s i) = 1 \/
  once_control (once_turn s i) = 2 /\
  forall j k, (rank_le k j s -> rank_le k j (once_turn s i)) /\
              (rank_le (S k) i s -> rank_le k i (once_turn s i)).
Proof.
  intros Hs Hc. destruct fresh_tests as (_ & _ & F3).
  destruct Hs as [|c pc _ Hl Hr _ _ _ Ho|]; [congruence| |congruence].
  unfold turn. destruct (once_step s i) as [s'|] eqn:E; cbn.
  - apply step_access in E as (q & s1 & q' & Hq & Ha & -> & Et & _). unfold rank_le. cbn. rewrite Et.
    assert (once_control s1 = 1 \/ once_control s1 = 2 /\
      (forall r', claim_rank q' = Some r' -> exists r, claim_rank q = Some r /\ r = S r')) as [?|[H2 Hq']]; [| by left|].
    { destruct (decide (i = c)) as [->|Hne].
      - rewrite Hl in Hq. injection Hq as <-. destruct s as [c' g b e ts]. cbn in Hc. subst c'.
        destruct pc; try (by destruct Hr); cbn in Ha; injection Ha as <- <-; cbn; auto;
          right; (split; [done|]); intros r' [= <-]; eauto.
      - destruct (outside_step 2 q q' s s1) as [-> [Ho'|[? _]]]; eauto; [|done].
        right. split; [done|]. intros r'. by destruct Ho' as [-> |[-> | ->]]. }
    right. split; [done|]. intros j k. split; intros Hk x r Hx Hxr;
      apply lookup_set in Hx as [[? ->]|[Hj Hx]]; subst; eauto.
    + destruct (Hq' r Hxr) as (r0 & Hr0 & ->). specialize (Hk q _ Hq Hr0). lia.
    + destruct (Hq' r Hxr) as (r0 & Hr0 & ->). specialize (Hk q _ Hq Hr0). lia.
    + done.
  - right. split; [done|]. intros j k. split; [done|]. intros Hk x r Hx Hxr.
    exfalso. unfold once_step in E. rewrite Hx in E.
    destruct (once_access s x) as [[? ?]|] eqn:Ea; [done|]. by destruct s, x.
Qed.

Lemma phase_run_round k n s round :
  (0 < n)%nat -> sized n s -> run_left (S k) s -> covers n round ->
  sized n (once_run s round) /\ run_left k (once_run s round).
Proof.
  intros Hn Hs Hk Hcov.
  destruct (sized_round n (left_le k) (run_left (S k)) round s) as (Hs' & Hk' & HQ); auto.
  - intros s0 i s0' [Hi _] [Hc|[Hc Hr]] Hst; [left; by eapply done_control_step|].
    destruct (claimed_turn s0 i Hi Hc) as [H1|[H2 Hj]]; unfold turn in *; rewrite Hst in *; cbn in *;
      [by left|right]. split; [done|]. intros j. by apply Hj.
  - intros i j s0 [Hi _] _ [Hc|[Hc Hr]].
    + left. by apply (turn_inv once_step (fun s => once_inv v s /\ once_control s = 1)
        (fun s i s' H E => conj (once_inv_step s i s' (proj1 H) E)
          (done_control_step s i s' (proj1 H) (proj2 H) E))).
    + destruct (claimed_turn s0 j Hi Hc) as [H1|[H2 Hj]]; [by left|right]. split; [done|]. by apply Hj.
  - intros i s0 _ [Hi _] [Hc|[Hc Hr]].
    + left. by apply (turn_inv once_step (fun s => once_inv v s /\ once_control s = 1)
        (fun s i s' H E => conj (once_inv_step s i s' (proj1 H) E)
          (done_control_step s i s' (proj1 H) (proj2 H) E))).
    + destruct (claimed_turn s0 i Hi Hc) as [H1|[H2 Hj]]; [by left|right]. split; [done|].
      by apply (Hj i).
  - split; [done|]. destruct (HQ 0%nat Hn) as [Hc|[Hc _]]; [by left|right]. split; [done|].
    intros i pc r Hpc. destruct (HQ i) as [|[_ Hr]]; [|lia|by apply Hr].
    apply lookup_lt_Some in Hpc. destruct Hs' as [_ <-]. done.
Qed.

Lemma phase_run n s rounds :
  (0 < n)%nat -> sized n s -> run_left (length rounds) s -> Forall (covers n) rounds ->
  sized n (once_run s (concat rounds)) /\ once_control (once_run s (concat rounds)) = 1.
Proof.
  intros Hn. revert s. induction rounds as [|r rounds IH]; intros s Hs Hk Hcov; cbn.
  - split; [done|]. destruct Hk as [|[Hc Hk]]; [done|]. destruct Hs as [Hs _].
    destruct fresh_tests as (_ & _ & F3).
    destruct Hs as [|c pc _ Hl [k Hr] _ _ _ _|]; [congruence| |done].
    specialize (Hk c pc k Hl Hr). by destruct pc; inversion Hr; subst; cbn in Hk; lia.
  - apply Forall_cons_iff in Hcov as [Hr Hcov]. unfold run_schedule. rewrite foldl_app.
    destruct (phase_run_round (length rounds) n s r) as [Hs' Hk']; auto.
    by apply IH.
Qed.

Definition wait_rank (pc : once_pc) : nat :=
  match pc with ODone => 0 | OLoad => 1 | OWait => 2 | _ => 3 end.

Definition wait_le (k i : nat) (s : once_state) : Prop :=
  forall pc, once_threads s !! i = Some pc -> (wait_rank pc <= k)%nat.

Lemma wait_turn s i :
  once_inv v s -> once_control s = 1 ->
  once_control (once_turn s i) = 1 /\
  forall j k, (wait_le k j s -> wait_le k j (once_turn s i)) /\
              (wait_le (S k) i s -> wait_le k i (once_turn s i)).
Proof.
  intros Hs Hc. destruct fresh_tests as (F1 & _ & _). apply Z.eqb_neq in F1.
  unfold turn. destruct (once_step s i) as [s'|] eqn:E; cbn.
  - split; [by eapply done_control_step|].
    destruct Hs as [|c pc Hc'|_ _ _ _ Ht]; [congruence|congruence|].
    apply step_access in E as (pc & s1 & pc' & Hpc & Ha & -> & Et & _). unfold wait_le. cbn. rewrite Et.
    assert (wait_rank pc = S (wait_rank pc')) as Hrank.
    { destruct s as [c g b e ts]. cbn in Hc. subst c.
      destruct (Ht i pc Hpc) as [[-> |[-> | ->]]| ->]; unfold once_access in Ha;
        rewrite ?(proj2 (Z.eqb_neq 1 v)) in Ha by congruence; cbn in Ha; by simplify_eq. }
    intros j k. split; intros Hk x Hx;
      apply lookup_set in Hx as [[? ->]|[Hj Hx]]; subst; eauto.
    + specialize (Hk pc Hpc). lia.
    + specialize (Hk pc Hpc). lia.
    + done.
  - split; [done|]. intros j k. split; [done|]. intros Hk x Hx. unfold once_step in E. rewrite Hx in E.
    destruct s as [c g b e ts], x; cbn in *; try done; try (by destruct (_ =? _)). lia.
Qed.

Lemma phase_wait n s rounds :
  sized n s -> once_control s = 1 -> (forall i, (i < n)%nat -> wait_le (length rounds) i s) ->
  Forall (covers n) rounds ->
  once_control (once_run s (concat rounds)) = 1 /\
  forall i, (i < n)%nat -> wait_le 0 i (once_run s (concat rounds)).
Proof.
  revert s. induction rounds as [|r rounds IH]; intros s Hs Hc Hk Hcov; cbn; [done|].
  apply Forall_cons_iff in Hcov as [Hr Hcov]. unfold run_schedule. rewrite foldl_app.
  destruct (sized_round n (wait_le (length rounds))
    (fun s => once_control s = 1 /\ forall i, (i < n)%nat -> wait_le (S (length rounds)) i s) r s)
    as (Hs' & [Hc' _] & HQ); auto.
  - intros s0 i s0' [Hi _] [Hc0 H0] Hst.
    destruct (wait_turn s0 i Hi Hc0) as [Hc1 Hj]. unfold turn in *. rewrite Hst in *. cbn in *.
    split; [done|]. intros j Hj'. by apply Hj, H0.
  - intros i j s0 [Hi _] [Hc0 _]. by apply (wait_turn s0 j Hi Hc0).
  - intros i s0 Hi' [Hi _] [Hc0 H0]. destruct (wait_turn s0 i Hi Hc0) as [_ Hj]. by apply (Hj i), H0.
  - by apply IH.
Qed.

Lemma finished_run n s sched :
  length (once_threads s) = n -> (forall i, (i < n)%nat -> wait_le 0 i s) -> once_run s sched = s.
Proof.
  intros Hn Hd. induction sched as [|i sched IH]; [done|].
  change (once_run s (i :: sched)) with (once_run (once_turn s i) sched).
  replace (once_turn s i) with s; [done|]. unfold turn, once_step.
  destruct (once_threads s !! i) as [pc|] eqn:E; [|done].
  pose proof (Hd i ltac:(apply lookup_lt_Some in E; lia) pc E) as Hr.
  destruct pc; cbn in Hr; try lia. by destruct s.
Qed.

Lemma run_app s x y : once_run s (x ++ y) = once_run (once_run s x) y.
Proof. unfold run_schedule. apply foldl_app. Qed.

(** Nine rounds are enough: two to claim the word, four for the thread that
    did, three for the others to see that it is done. *)
Lemma nine_rounds n s rounds :
  (0 < n)%nat -> sized n s -> (9 <= length rounds)%nat -> Forall (covers n) rounds ->
  once_control (once_run s (concat rounds)) = 1 /\
  forall i, (i < n)%nat -> wait_le 0 i (once_run s (concat rounds)).
Proof.
  intros Hn Hs Hlen Hcov. rewrite <- (take_drop 9 rounds), concat_app, run_app.
  rewrite <- (take_drop 9 rounds) in Hcov. apply Forall_app in Hcov as [Hcov _].
  assert (length (take 9 rounds) = 9%nat) as H9 by (rewrite length_take; lia).
  set (nine := take 9 rounds) in *. clearbody nine.
  destruct nine as [|r1 [|r2 nine]]; [done|done|].
  apply Forall_cons_iff in Hcov as [H1 [H2 Hcov]%Forall_cons_iff].
  rewrite <- (take_drop 4 nine) in Hcov |- *. apply Forall_app in Hcov as [Hrun Hwait].
  cbn [concat]. rewrite app_assoc, run_app, concat_app, run_app.
  destruct (phase_claim n s r1 r2 Hn Hs H1 H2) as [Hs1 Hc1].
  set (s1 := once_run s (r1 ++ r2)) in *. clearbody s1.
  cbn in H9.
  destruct (phase_run n s1 (take 4 nine) Hn Hs1) as [Hs2 Hc2]; [|done|].
  { rewrite length_take. replace (min 4 (length nine)) with 4%nat by lia.
    assert (forall i, rank_le 4 i s1) as Hr
      by (intros i pc r _; destruct pc; cbn; intros [= <-]; lia).
    destruct (proj1 Hs1) as [|c pc Hc|Hc]; [done|right; done|by left]. }
  set (s2 := once_run s1 (concat (take 4 nine))) in *. clearbody s2.
  destruct (phase_wait n s2 (drop 4 nine) Hs2 Hc2) as [Hc3 Hd3]; [|done|].
  { rewrite length_drop. replace (length nine - 4)%nat with 3%nat by lia.
    intros i _ pc _. destruct pc; cbn; lia. }
  assert (length (once_threads (once_run s2 (concat (drop 4 nine)))) = n) as Hn3
    by (rewrite run_length; apply Hs2).
  by rewrite (finished_run n _ _ Hn3 Hd3).
Qed.
End machine.

(** ** Properties *)

(** C13 (safety): whatever the interleaving of the threads that call
    [pthread_once] on one control word, [init_routine] is entered at most
    once, and a thread returns only after it has been left (and, with
    MACIFY_FORCE_SSL, after all OpenSSL [ret_] integers are nonzero). *)
Theorem pthread_once_safe (force_ssl : bool) (init_routine : list Z -> list Z)
    (v : Z) (g : list Z) (n : nat) (s : once_state) :
  fresh_value v -> rtc (moves (once_step force_ssl init_routine)) (once_start v g n) s ->
  (inits_begun s <= 1)%nat /\
  forall i, once_threads s !! i = Some ODone ->
    inits_begun s = 1%nat /\ inits_ended s = 1%nat /\
    (force_ssl = true -> Forall (fun r => r <> 0) (ret_globals s)).
Proof.
  intros Hv Hreach.
  assert (once_inv force_ssl v s) as Hs.
  { eapply (reach_inv _ (once_inv force_ssl v)); [|exact Hreach|by apply once_start_inv].
    intros s0 i s0'. by apply once_inv_step. }
  destruct Hs as [_ Hb _ Ht|c pc Hc Hl Hr Hb _ _ Ho|_ Hb He Hf Ht].
  - split; [lia|]. intros i Hi. by destruct (Ht i _ Hi).
  - split; [rewrite Hb; destruct pc; cbn; lia|]. intros i Hi. exfalso.
    destruct (decide (i = c)) as [->|Hne].
    + rewrite Hl in Hi. injection Hi as ->. by destruct Hr.
    + by destruct (Ho i _ Hne Hi) as [|[|]].
  - split; [lia|auto].
Qed.

Lemma pthread_once_safe_witness :
  let s := run_schedule (once_step true (fun g => g)) (once_start MACOS_PTHREAD_ONCE_INIT [0; 5] 2)
             [0; 1; 0; 1; 0; 1; 0; 0; 0; 1; 1]%nat in
  once_threads s = [ODone; ODone] /\ inits_begun s = 1%nat /\ Forall (fun r => r <> 0) (ret_globals s).
Proof.
  intros s.
  destruct (pthread_once_safe true (fun g => g) MACOS_PTHREAD_ONCE_INIT [0; 5] 2 s) as [_ H].
  - right. reflexivity.
  - apply (run_inv _ (rtc (moves (once_step true (fun g => g)))
      (once_start MACOS_PTHREAD_ONCE_INIT [0; 5] 2))); [|apply rtc_refl].
    intros s0 i s0' H0 H1. apply (rtc_r _ _ _ H0). by exists i.
  - destruct (H 0%nat eq_refl) as (H1 & _ & H3). split; [reflexivity|]. auto.
Defined.

(** C14 (liveness): from every reachable state, a schedule that goes nine times
    round all threads, in any order and with any repetitions, makes every
    caller of [pthread_once] return, and [init_routine] has run exactly once:
    no waiting thread is left behind.  ([init_routine] itself returns.) *)
Theorem pthread_once_live (force_ssl : bool) (init_routine : list Z -> list Z)
    (v : Z) (g : list Z) (n : nat) (s : once_state) (rounds : list (list nat)) :
  fresh_value v -> (0 < n)%nat ->
  rtc (moves (once_step force_ssl init_routine)) (once_start v g n) s ->
  (9 <= length rounds)%nat -> Forall (covers n) rounds ->
  let s' := run_schedule (once_step force_ssl init_routine) s (concat rounds) in
  once_threads s' = replicate n ODone /\ once_control s' = 1 /\
  inits_begun s' = 1%nat /\ inits_ended s' = 1%nat.
Proof.
  intros Hv Hn Hreach Hlen Hcov s'.
  assert (sized force_ssl v n s) as Hs.
  { eapply (reach_inv _ (sized force_ssl v n)); [|exact Hreach|].
    - intros s0 i s0'. by apply sized_step.
    - split; [by apply once_start_inv|]. cbn. apply length_replicate. }
  destruct (nine_rounds force_ssl init_routine v Hv n s rounds Hn Hs Hlen Hcov) as [Hc Hd].
  fold s' in Hc, Hd. destruct (fresh_tests v Hv) as (F1 & _ & _). apply Z.eqb_neq in F1.
  assert (sized force_ssl v n s') as [Hs' Hn'].
  { apply (run_inv _ (sized force_ssl v n)); [|done]. intros s0 i s0'. by apply sized_step. }
  assert (once_threads s' = replicate n ODone) as Ht.
  { apply list_eq. intros i. destruct (once_threads s' !! i) as [pc|] eqn:E.
    - apply lookup_lt_Some in E as Hi. rewrite lookup_replicate_2 by lia.
      pose proof (Hd i ltac:(lia) pc E) as Hr. by destruct pc; cbn in Hr; try lia.
    - symmetry. apply lookup_ge_None in E. apply lookup_ge_None. rewrite length_replicate. lia. }
  split; [done|]. split; [done|]. by destruct Hs' as [|c pc|]; [congruence|congruence|].
Qed.

Lemma pthread_once_live_witness :
  let s' := run_schedule (once_step false (fun g => g)) (once_start 0 [] 3) (concat (replicate 9 [2; 0; 1]%nat)) in
  once_threads s' = [ODone; ODone; ODone] /\ inits_ended s' = 1%nat.
Proof.
  destruct (pthread_once_live false (fun g => g) 0 [] 3 (once_start 0 [] 3) (replicate 9 [2; 0; 1]%nat))
    as (H1 & _ & _ & H4).
  - left. reflexivity.
  - lia.
  - apply rtc_refl.
  - cbn. lia.
  - apply Forall_replicate. intros i Hi. repeat setoid_rewrite elem_of_cons. lia.
  - split; [exact H1|exact H4].
Defined.
End Once.

(** ** Lazily filled tables of function pointers *)
Module Lazy.

(** The groups of glibc functions that [init_real_pthread_funcs] (sync.c),
    [init_real_attr_funcs] (attr.c) and [init_real_io_funcs] (flags.c) look up,
    in the order of their stores. *)
Definition real_pthread_funcs : list string :=
  ["pthread_mutex_lock"; "pthread_mutex_trylock"; "pthread_mutex_unlock"; "pthread_mutex_init";
   "pthread_mutex_destroy"; "pthread_cond_wait"; "pthread_cond_timedwait"; "pthread_cond_signal";
   "pthread_cond_broadcast"; "pthread_cond_init"; "pthread_cond_destroy"; "pthread_rwlock_rdlock";
   "pthread_rwlock_wrlock"; "pthread_rwlock_unlock"; "pthread_rwlock_init"; "pthread_rwlock_destroy"]%string.

Definition real_attr_funcs : list string :=
  ["pthread_attr_init"; "pthread_attr_destroy"; "pthread_attr_setstacksize";
   "pthread_attr_getstacksize"; "pthread_attr_setguardsize"; "pthread_attr_setdetachstate";
   "pthread_attr_getdetachstate"; "pthread_attr_setinheritsched"; "pthread_attr_getinheritsched";
   "pthread_attr_setscope"; "pthread_attr_getscope"; "pthread_attr_setstack"]%string.

Definition real_io_funcs : list string :=
  ["mmap"; "open"; "madvise"; "fcntl"; "mprotect"; "sysconf"]%string.

(** A wrapper: the acquire load of the flag, the stores of the table, the
    release store of the flag, and the read of the pointer it calls. *)
Inductive lazy_pc := LGate | LFill (k : nat) | LPublish | LCall | LUsed (p : Z).

Record lazy_state := LazyState {
  lazy_ready : bool;
  lazy_table : list Z;
  lazy_threads : list lazy_pc
}.

Section machine.
  (** The group, the lookup (glibc's symbol table), and the entry of the table
      the wrapper of each thread calls. *)
  Context (names : list string) (macify_elf_lookup : string -> Z) (entry : nat -> nat).

Definition lazy_step (s : lazy_state) (i : nat) : option lazy_state :=
  let '(LazyState ready table ts) := s in
  match ts !! i with
  | Some LGate => Some (LazyState ready table (<[i := if ready then LCall else LFill 0]> ts))
  | Some (LFill k) =>
      match names !! k with
      | Some name => Some (LazyState ready (<[k := macify_elf_lookup name]> table) (<[i := LFill (S k)]> ts))
      | None => Some (LazyState ready table (<[i := LPublish]> ts))
      end
  | Some LPublish => Some (LazyState true table (<[i := LCall]> ts))
  | Some LCall =>
      match table !! entry i with
      | Some p => Some (LazyState ready table (<[i := LUsed p]> ts))
      | None => None
      end
  | Some (LUsed _) | None => None
  end.

(** All pointers NULL, the flag clear, [n] callers. *)
Definition lazy_start (n : nat) : lazy_state :=
  LazyState false (replicate (length names) 0) (replicate n LGate).

(** ** Lemmas *)

Definition filled (s : lazy_state) (k : nat) : Prop :=
  forall name, names !! k = Some name -> lazy_table s !! k = Some (macify_elf_lookup name).

Definition all_filled (s : lazy_state) : Prop := forall k, filled s k.

Definition pc_ok (s : lazy_state) (i : nat) (pc : lazy_pc) : Prop :=
  match pc with
  | LGate => True
  | LFill k => forall j, (j < k)%nat -> filled s j
  | LPublish | LCall => all_filled s
  | LUsed p => forall name, names !! entry i = Some name -> p = macify_elf_lookup name
  end.

Record lazy_inv (s : lazy_state) : Prop := {
  inv_length : length (lazy_table s) = length names;
  inv_ready : lazy_ready s = true -> all_filled s;
  inv_threads : forall i pc, lazy_threads s !! i = Some pc -> pc_ok s i pc
}.

Lemma pc_ok_mono s s' i pc : (forall k, filled s k -> filled s' k) -> pc_ok s i pc -> pc_ok s' i pc.
Proof. destruct pc; cbn; unfold all_filled; auto. Qed.

Lemma lazy_inv_set s s' i pc :
  lazy_inv s -> length (lazy_table s') = length names -> (forall k, filled s k -> filled s' k) ->
  (lazy_ready s' = true -> lazy_ready s = true \/ all_filled s') ->
  lazy_threads s' = <[i := pc]> (lazy_threads s) -> pc_ok s' i pc -> lazy_inv s'.
Proof.
  intros [Hl Hr Ht] Hl' Hf Hready Hts Hpc. split; [done| |].
  - intros H. destruct (Hready H) as [H0|]; [|done]. intros k. by apply Hf, Hr.
  - intros j q. rewrite Hts. intros [[-> ->]|[_ Hq]]%Once.lookup_set; [done|].
    by apply (pc_ok_mono s), Ht.
Qed.

Lemma filled_set s k name j ready ts :
  names !! k = Some name -> filled s j ->
  filled (LazyState ready (<[k := macify_elf_lookup name]> (lazy_table s)) ts) j.
Proof.
  intros Hk Hf name' Hj. cbn. specialize (Hf name' Hj). destruct (decide (k = j)) as [<-|Hne].
  - rewrite (Once.lookup_set_same _ _ _ _ Hf). congruence.
  - by rewrite list_lookup_insert_ne.
Qed.

Lemma lazy_inv_step s i s' : lazy_inv s -> lazy_step s i = Some s' -> lazy_inv s'.
Proof.
  intros Hs H. destruct s as [ready table ts]. cbn in H. pose proof Hs as [Hl Hr Ht]. cbn in *.
  destruct (ts !! i) as [pc|] eqn:Epc; [|done]. specialize (Ht i pc Epc).
  destruct pc as [|k| | |p]; cbn in Ht; [| | | |done].
  - injection H as <-. eapply lazy_inv_set; [exact Hs| | | |reflexivity|]; cbn; auto.
    destruct ready; cbn; [by apply Hr|]. intros; lia.
  - destruct (names !! k) as [name|] eqn:En; injection H as <-.
    + eapply lazy_inv_set; [exact Hs| | | |reflexivity|]; cbn; auto.
      * by rewrite length_insert.
      * intros j Hj. by apply (filled_set (LazyState ready table ts)).
      * intros j Hj. destruct (decide (j = k)) as [->|Hne].
        -- intros nm Hnm. cbn. rewrite list_lookup_insert_eq; [congruence|].
           apply lookup_lt_Some in En. lia.
        -- apply (filled_set (LazyState ready table ts)); [done|]. apply Ht. lia.
    + eapply lazy_inv_set; [exact Hs| | | |reflexivity|]; cbn; auto.
      intros j nm Hj. apply Ht; [|done]. apply lookup_ge_None in En. apply lookup_lt_Some in Hj. lia.
  - injection H as <-. eapply lazy_inv_set; [exact Hs| | | |reflexivity|]; cbn; auto.
  - destruct (table !! entry i) as [p|] eqn:Ep; [|done]. injection H as <-.
    eapply lazy_inv_set; [exact Hs| | | |reflexivity|]; cbn; auto.
    intros name Hn. specialize (Ht (entry i) name Hn). cbn in Ht. congruence.
Qed.

Lemma lazy_start_inv n : lazy_inv (lazy_start n).
Proof.
  split; cbn; [apply length_replicate|done|]. intros i pc [-> _]%lookup_replicate. done.
Qed.
End machine.

(** With the flag stored last, no interleaving of first callers
    makes a wrapper call a pointer that is not yet stored: the pointer it
    reads is the one the lookup gives for its function, never the NULL of a
    half-filled table, and a caller that passed the gate never blocks. *)
Theorem lazy_init_safe (names : list string) (macify_elf_lookup : string -> Z) (entry : nat -> nat)
    (n : nat) (s : lazy_state) (i : nat) (name : string) :
  rtc (moves (lazy_step names macify_elf_lookup entry)) (lazy_start names n) s ->
  names !! entry i = Some name ->
  (forall p, lazy_threads s !! i = Some (LUsed p) -> p = macify_elf_lookup name) /\
  (lazy_threads s !! i = Some LCall ->
   exists s', lazy_step names macify_elf_lookup entry s i = Some s' /\
     lazy_threads s' !! i = Some (LUsed (macify_elf_lookup name))).
Proof.
  intros Hreach Hn.
  assert (lazy_inv names macify_elf_lookup entry s) as [_ _ Ht].
  { eapply (reach_inv _ (lazy_inv names macify_elf_lookup entry)); [|exact Hreach|apply lazy_start_inv].
    intros s0 j s0'. apply lazy_inv_step. }
  split.
  - intros p Hp. exact (Ht i _ Hp name Hn).
  - intros Hc. specialize (Ht i _ Hc (entry i) name Hn). destruct s as [ready table ts]. cbn in *.
    rewrite Hc, Ht. eexists. split; [reflexivity|]. cbn. by eapply Once.lookup_set_same.
Qed.

Lemma lazy_init_safe_witness :
  let look := fun s => Z.of_nat (String.length s) in
  let s := run_schedule (lazy_step real_io_funcs look (fun i => i)) (lazy_start real_io_funcs 2)
             [0; 0; 0; 0; 0; 0; 0; 1; 0; 0; 0; 1; 1; 1; 1; 1; 1; 1; 1; 1; 1]%nat in
  lazy_threads s !! 1%nat = Some (LUsed 4) /\ 4 = look "open"%string.
Proof.
  intros look s.
  assert (rtc (moves (lazy_step real_io_funcs look (fun i => i))) (lazy_start real_io_funcs 2) s) as Hr.
  { apply (run_inv _ (rtc (moves (lazy_step real_io_funcs look (fun i => i)))
      (lazy_start real_io_funcs 2))); [|apply rtc_refl].
    intros s0 i s0' H0 H1. apply (rtc_r _ _ _ H0). by exists i. }
  assert (lazy_threads s !! 1%nat = Some (LUsed 4)) as H1 by (vm_compute; reflexivity).
  split; [exact H1|].
  exact (proj1 (lazy_init_safe real_io_funcs look (fun i => i) 2 s 1 "open" Hr eq_refl) 4 H1).
Defined.
End Lazy.

(** ** [OSSpinLockLock], [OSSpinLockTry], [OSSpinLockUnlock] *)
Module Spin.

(** Outside; before the test-and-set; in the inner loop; inside. *)
Inductive spin_pc := SOut | SSet | SSpin | SIn.

#[export] Instance spin_pc_eq_dec : EqDecision spin_pc.
Proof. solve_decision. Defined.

Record spin_state := SpinState { spin_lock : Z; spin_threads : list spin_pc }.

(** One access of thread [i]. *)
Inductive spin_step : spin_state -> spin_state -> Prop :=
| spin_call l ts i : ts !! i = Some SOut ->
    spin_step (SpinState l ts) (SpinState l (<[i := SSet]> ts))
| spin_set l ts i : ts !! i = Some SSet ->
    spin_step (SpinState l ts) (SpinState 1 (<[i := if l =? 0 then SIn else SSpin]> ts))
| spin_wait l ts i : ts !! i = Some SSpin ->
    spin_step (SpinState l ts) (SpinState l (<[i := if l =? 0 then SSet else SSpin]> ts))
| spin_try l ts i : ts !! i = Some SOut ->
    spin_step (SpinState l ts) (SpinState 1 (<[i := if l =? 0 then SIn else SOut]> ts))
| spin_unlock l ts i : ts !! i = Some SIn ->
    spin_step (SpinState l ts) (SpinState 0 (<[i := SOut]> ts)).

Definition exclusive (s : spin_state) : Prop :=
  forall i j, spin_threads s !! i = Some SIn -> spin_threads s !! j = Some SIn -> i = j.

(** The lock word is nonzero exactly while a thread is inside. *)
Definition held_iff (s : spin_state) : Prop :=
  spin_lock s <> 0 <-> exists i, spin_threads s !! i = Some SIn.

Lemma spin_inv_step s s' :
  spin_step s s' -> exclusive s /\ held_iff s -> exclusive s' /\ held_iff s'.
Proof.
  assert (forall l l' ts i old new, ts !! i = Some old ->
    exclusive (SpinState l ts) /\ held_iff (SpinState l ts) ->
    (new = SIn -> (l = 0 \/ old = SIn) /\ l' <> 0) ->
    (new <> SIn -> (old = SIn /\ l' = 0) \/ (old <> SIn /\ (l' <> 0 <-> l <> 0))) ->
    exclusive (SpinState l' (<[i := new]> ts)) /\ held_iff (SpinState l' (<[i := new]> ts))) as Hset.
  { intros l l' ts i old new Hi [Hex Hh] Hin Hout. unfold exclusive, held_iff in *. cbn in *.
    destruct (decide (new = SIn)) as [->|Hn].
    - destruct (Hin eq_refl) as [Hold Hl]. split.
      + assert (forall j, ts !! j = Some SIn -> j = i) as Hu.
        { intros j Hj. destruct Hold as [-> | ->]; [|by apply Hex]. exfalso. by apply (proj2 Hh); eauto. }
        intros a b Ha Hb. apply Once.lookup_set in Ha, Hb. destruct Ha as [[-> _]|[_ Ha]], Hb as [[-> _]|[_ Hb]];
          auto; by rewrite ?(Hu a), ?(Hu b).
      + split; [|done]. intros _. exists i. by eapply Once.lookup_set_same.
    - assert (forall j, <[i := new]> ts !! j = Some SIn -> j <> i /\ ts !! j = Some SIn) as Hj.
      { intros j Hj. apply Once.lookup_set in Hj as [[-> E]|]; [by rewrite E in Hn|done]. }
      split; [intros a b [_ Ha]%Hj [_ Hb]%Hj; by apply Hex|].
      destruct (Hout Hn) as [[-> ->]|[Hold E]].
      + split; [done|]. intros [j [Hne Hin']%Hj]. by destruct (Hex i j Hi Hin').
      + rewrite E, Hh. split; intros [j Hx].
        * exists j. rewrite list_lookup_insert_ne; [done|]. intros ->. congruence.
        * apply Hj in Hx as [_ Hx]. eauto. }
  intros Hst Hs. destruct Hst as [l ts i Hi|l ts i Hi|l ts i Hi|l ts i Hi|l ts i Hi];
    (eapply Hset; [exact Hi|exact Hs| |]); try (destruct (Z.eqb_spec l 0)); try done; auto;
    intros _; right; (split; [done|lia]).
Qed.

(** Mutual exclusion of the spin lock.  Whatever threads call
    Lock, Try and Unlock (Unlock only by the thread inside), at most one is
    inside, and the lock word is nonzero exactly when one is. *)
Theorem spin_lock_exclusive (n : nat) (s : spin_state) :
  rtc spin_step (SpinState 0 (replicate n SOut)) s -> exclusive s /\ held_iff s.
Proof.
  intros H. assert (exclusive (SpinState 0 (replicate n SOut)) /\ held_iff (SpinState 0 (replicate n SOut))) as H0.
  { unfold exclusive, held_iff. cbn. split; [by intros i j [? _]%lookup_replicate|].
    split; [done|]. by intros [i [? _]%lookup_replicate]. }
  revert H0. induction H as [|x y z Hxy _ IH]; [done|]. intros H0. apply IH. by eapply spin_inv_step.
Qed.

Lemma spin_lock_exclusive_witness : exclusive (SpinState 1 [SIn; SSpin]).
Proof.
  apply (spin_lock_exclusive 2).
  eapply rtc_l; [apply (spin_call _ _ 0); reflexivity|]. cbn.
  eapply rtc_l; [apply (spin_call _ _ 1); reflexivity|]. cbn.
  eapply rtc_l; [apply (spin_set _ _ 0); reflexivity|]. cbn.
  eapply rtc_l; [apply (spin_set _ _ 1); reflexivity|]. cbn. apply rtc_refl.
Defined.
End Spin.
