(* ===== verification/ShimCore.v ===== *)
(** * The core of the shim (src/shim/shim_core.c)

    Which code is the guest's ([macify_caller_is_macos_text]), the numbers of
    errors ([macify_linux_to_macos_errno]), guest spellings of host paths
    ([macify_untranslate_path]) and the executable's path and arguments.
    Uses PrefixPath for the prefix. *)
From Stdlib Require Import ZArith Lia Bool.
From stdpp Require Import base list strings numbers.
From S2P Require Import Prelude PrefixPath.

(** ** Text ranges *)

Definition MAX_TEXT_RANGES : nat := 64.

(** [macify_text_lo], [macify_text_hi], [g_text_ranges] up to
    [g_n_text_ranges]. *)
Record text_state := TextState {
  text_lo : Z;
  text_hi : Z;
  text_ranges : list (Z * Z)
}.

Definition text_start : text_state := TextState 0 0 [].

Definition add_text_range (t : text_state) (lo hi : Z) : text_state :=
  if (lo =? 0) || (hi <=? lo) then t else
  if existsb (fun r => (r.1 =? lo) && (r.2 =? hi)) (text_ranges t) then t else
  if (MAX_TEXT_RANGES <=? length (text_ranges t))%nat then t else
  TextState (text_lo t) (text_hi t) (text_ranges t ++ [(lo, hi)]).

Definition set_text_range (t : text_state) (lo hi : Z) : text_state :=
  add_text_range (TextState lo hi (text_ranges t)) lo hi.

Definition in_range (a : Z) (r : Z * Z) : bool := (r.1 <=? a) && (a <? r.2).

Definition caller_is_macos_text (t : text_state) (ret_addr : Z) : bool :=
  if (text_lo t =? 0) || (text_hi t =? 0) then false else
  in_range ret_addr (text_lo t, text_hi t) || existsb (in_range ret_addr) (text_ranges t).

(** ** Error numbers *)

(** The cases of the switch, in its order. *)
Definition errno_cases : list (Z * Z) :=
  [(11, 35); (36, 63); (37, 77); (38, 78); (39, 66); (40, 62); (88, 38); (89, 39); (90, 40);
   (91, 41); (92, 42); (93, 43); (94, 44); (95, 45); (96, 46); (97, 47); (98, 48); (99, 49);
   (100, 50); (101, 51); (102, 52); (103, 53); (104, 54); (105, 55); (106, 56); (107, 57);
   (108, 58); (109, 59); (110, 60); (111, 61); (112, 64); (113, 65); (114, 37); (115, 36);
   (116, 70)].

Definition linux_to_macos_errno (linux_errno : Z) : Z :=
  match find (fun c => c.1 =? linux_errno) errno_cases with
  | Some c => c.2
  | None => linux_errno
  end.

(** [TRANSLATE_ERRNO_SAVED(r, saved)] of shim.h: the value of [errno] after it. *)
Definition translate_errno_saved (t : text_state) (ret_addr r saved errno : Z) : Z :=
  if (r =? -1) && caller_is_macos_text t ret_addr then linux_to_macos_errno saved else errno.

(** ** Guest spellings *)

Definition untranslate_path (env : environment) (st : prefix_state) (p : string)
    : string * prefix_state :=
  match p with
  | EmptyString => (p, st)
  | _ =>
      let '(prefix, st) := macify_get_prefix env st in
      let plen := String.length prefix in
      if (plen =? 0)%nat then (p, st) else
      if negb (starts_with prefix p) then (p, st) else
      if negb (slash_at plen p) && negb (end_at plen p) then (p, st) else
      if end_at plen p then ("/"%string, st) else (sdrop plen p, st)
  end.

(** [macify_untranslate_inplace] of src/shim/io/file.c; [None] is NULL. *)
Definition untranslate_inplace (env : environment) (st : prefix_state) (p : option string)
    : option string * prefix_state :=
  let '(prefix, st) := macify_get_prefix env st in
  match p with
  | None => (None, st)
  | Some s =>
      let plen := String.length prefix in
      if (plen =? 0)%nat then (p, st) else
      if starts_with prefix s && (slash_at plen s || end_at plen s)
      then (Some (if end_at plen s then "/"%string else sdrop plen s), st) else (p, st)
  end.

(** ** The executable's path and arguments *)

(** [__macify_argc], [__macify_argv], [__macify_exec_path], [__progname] and
    the buffer [guest] of [macify_guest_exec_path]. *)
Record args_state := ArgsState {
  macify_argc : Z;
  macify_argv : option (list string);
  macify_exec_path : string;
  macify_progname : string;
  guest_buffer : string
}.

Definition args_start : args_state := ArgsState 0 None "/macify/app" "macify-app" "".

(** What follows the last slash ([strrchr]), or the whole string. *)
Fixpoint basename (s : string) : string :=
  match s with
  | EmptyString => EmptyString
  | String c r => if has_char slash r then basename r else if Ascii.eqb c slash then r else s
  end.

Definition set_args (a : args_state) (argc : Z) (argv : option (list string))
    (exec_path : option string) : args_state :=
  ArgsState argc argv
    (match exec_path with Some p => snprintf 4096 p | None => macify_exec_path a end)
    (match argv with Some (a0 :: _) => snprintf 256 (basename a0) | _ => macify_progname a end)
    (guest_buffer a).

Definition guest_exec_path (env : environment) (st : prefix_state) (a : args_state)
    : string * args_state * prefix_state :=
  match guest_buffer a with
  | EmptyString =>
      let '(guest, st) := untranslate_path env st (snprintf 4096 (macify_exec_path a)) in
      let guest :=
        if negb (slash_at 0 guest) then
          match macify_argv a with
          | Some (a0 :: _) => if slash_at 0 a0 then snprintf 4096 a0 else guest
          | _ => guest
          end
        else guest in
      (guest, ArgsState (macify_argc a) (macify_argv a) (macify_exec_path a) (macify_progname a) guest, st)
  | g => (g, a, st)
  end.

(** [_NSGetExecutablePath] with a buffer: the return value, what is written
    to [buf] ([None]: nothing), and the new [*bufsize]. *)
Definition NSGetExecutablePath (env : environment) (st : prefix_state) (a : args_state) (bufsize : Z)
    : (Z * option string * Z) * args_state * prefix_state :=
  let '(path, a, st) := guest_exec_path env st a in
  let len := Z.of_nat (String.length path) in
  if bufsize <? len + 1 then ((-1, None, u32 (len + 1)), a, st)
  else ((0, Some path, u32 len), a, st).

(** ** Lemmas *)

Definition valid_range (r : Z * Z) : Prop := r.1 <> 0 /\ r.1 < r.2.

#[export] Instance valid_range_dec r : Decision (valid_range r).
Proof. unfold valid_range. apply _. Defined.

(** The table holds valid, distinct ranges and fits its array. *)
Record text_wf (t : text_state) : Prop := {
  wf_nodup : NoDup (text_ranges t);
  wf_valid : Forall valid_range (text_ranges t);
  wf_size : (length (text_ranges t) <= MAX_TEXT_RANGES)%nat
}.

Lemma existsb_range l lo hi :
  existsb (fun r : Z * Z => (r.1 =? lo) && (r.2 =? hi)) l = true <-> (lo, hi) ∈ l.
Proof.
  rewrite existsb_exists. split.
  - intros ([x y] & Hin & H). cbn in H. apply andb_true_iff in H as [->%Z.eqb_eq ->%Z.eqb_eq].
    by apply list_elem_of_In.
  - intros H. exists (lo, hi). split; [by apply list_elem_of_In|]. cbn. by rewrite !Z.eqb_refl.
Qed.

(** The three early returns of [add_text_range]. *)
Lemma add_text_range_cases t lo hi :
  (add_text_range t lo hi = t) /\
    (~ valid_range (lo, hi) \/ ((lo, hi) ∈ text_ranges t) \/ (MAX_TEXT_RANGES <= length (text_ranges t))%nat) \/
  add_text_range t lo hi = TextState (text_lo t) (text_hi t) (text_ranges t ++ [(lo, hi)]) /\
    valid_range (lo, hi) /\ ((lo, hi) ∉ text_ranges t) /\ (length (text_ranges t) < MAX_TEXT_RANGES)%nat.
Proof.
  unfold add_text_range, valid_range. cbn [fst snd].
  destruct ((lo =? 0) || (hi <=? lo)) eqn:E1; [left; split; [done|left; lia]|].
  destruct (existsb _ _) eqn:E2; [left; split; [done|]; right; left; by apply existsb_range|].
  destruct (Nat.leb_spec MAX_TEXT_RANGES (length (text_ranges t))); [left; auto|].
  right. split; [done|]. split; [lia|]. split; [|lia]. rewrite <- existsb_range, E2. done.
Qed.

Lemma add_text_range_wf t lo hi : text_wf t -> text_wf (add_text_range t lo hi).
Proof.
  intros [Hn Hv Hs]. destruct (add_text_range_cases t lo hi) as [[-> _]|(-> & Hr & Hnew & Hlt)]; [done|].
  split; cbn.
  - apply list.NoDup_app. split; [done|]. split; [|apply NoDup_singleton].
    intros x Hx Hx'. apply list_elem_of_singleton in Hx' as ->. done.
  - apply Forall_app. auto.
  - rewrite length_app. cbn. lia.
Qed.

Lemma add_text_range_same t lo hi :
  text_lo (add_text_range t lo hi) = text_lo t /\ text_hi (add_text_range t lo hi) = text_hi t.
Proof. by destruct (add_text_range_cases t lo hi) as [[-> _]|[-> _]]. Qed.

(** While there is room, a valid range is in the table afterwards, and
    nothing else is added. *)
Lemma add_text_range_elem t lo hi r :
  (length (text_ranges t) < MAX_TEXT_RANGES)%nat ->
  (r ∈ text_ranges (add_text_range t lo hi) <->
   r ∈ text_ranges t \/ (r = (lo, hi) /\ valid_range r)).
Proof.
  intros Hroom. destruct (add_text_range_cases t lo hi) as [[-> Hwhy]|(-> & Hv & _ & _)].
  - split; [by left|]. intros [|[-> Hv]]; [done|]. destruct Hwhy as [?|[?|?]]; [done|done|lia].
  - cbn. rewrite elem_of_app, list_elem_of_singleton. split; [|tauto]. intros [| ->]; auto.
Qed.

Lemma add_text_range_length t lo hi :
  (length (text_ranges (add_text_range t lo hi)) <= S (length (text_ranges t)))%nat.
Proof.
  destruct (add_text_range_cases t lo hi) as [[-> _]|[-> _]]; cbn; [lia|]. rewrite length_app. cbn. lia.
Qed.

Definition add_all (t : text_state) (rs : list (Z * Z)) : text_state :=
  foldl (fun t r => add_text_range t r.1 r.2) t rs.

Lemma add_all_elem t rs r :
  (length (text_ranges t) + length rs <= MAX_TEXT_RANGES)%nat ->
  (r ∈ text_ranges (add_all t rs) <-> r ∈ text_ranges t \/ (r ∈ rs /\ valid_range r)) /\
  text_lo (add_all t rs) = text_lo t /\ text_hi (add_all t rs) = text_hi t.
Proof.
  revert t. induction rs as [|[lo hi] rs IH]; intros t Hroom;
    [|cbn in Hroom; change (add_all t ((lo, hi) :: rs)) with (add_all (add_text_range t lo hi) rs)].
  - split; [|done]. split; [by left|]. intros [|[Hn _]]; [done|]. by apply elem_of_nil in Hn.
  - pose proof (add_text_range_length t lo hi). destruct (IH (add_text_range t lo hi)) as (E & -> & ->); [lia|].
    destruct (add_text_range_same t lo hi) as [-> ->]. split; [|done].
    rewrite E, add_text_range_elem by lia. rewrite elem_of_cons. intuition (subst; auto).
Qed.

Lemma caller_test t a :
  text_lo t <> 0 -> text_hi t <> 0 ->
  (caller_is_macos_text t a = true <->
   text_lo t <= a < text_hi t \/ exists r, r ∈ text_ranges t /\ r.1 <= a < r.2).
Proof.
  intros H1 H2. unfold caller_is_macos_text.
  replace ((text_lo t =? 0) || (text_hi t =? 0)) with false by lia.
  rewrite orb_true_iff, existsb_exists. unfold in_range. cbn [fst snd].
  rewrite andb_true_iff, Z.leb_le, Z.ltb_lt. split; (intros [?|(r & Hin & Hr)]; [by left|right]); exists r.
  - rewrite andb_true_iff, Z.leb_le, Z.ltb_lt in Hr. split; [by apply list_elem_of_In|done].
  - rewrite andb_true_iff, Z.leb_le, Z.ltb_lt. split; [by apply list_elem_of_In|done].
Qed.

(** ** Properties *)

(** Once the loader has announced the main image's text and
    the texts of up to 63 dylibs, a return address is classified as guest
    code exactly when it lies in one of these ranges; empty ranges and
    repetitions are harmless. *)
Theorem caller_is_macos_text_spec (lo hi : Z) (dylibs : list (Z * Z)) (a : Z) :
  0 < lo < hi -> (length dylibs < MAX_TEXT_RANGES)%nat ->
  let t := add_all (set_text_range text_start lo hi) dylibs in
  caller_is_macos_text t a = true <->
    lo <= a < hi \/ exists r, r ∈ dylibs /\ r.1 <> 0 /\ r.1 <= a < r.2.
Proof.
  intros Hr Hlen t.
  set (t0 := set_text_range text_start lo hi) in *.
  assert (t0 = TextState lo hi [(lo, hi)]) as E0.
  { unfold t0, set_text_range. destruct (add_text_range_cases (TextState lo hi (text_ranges text_start)) lo hi)
      as [[_ Hwhy]|[-> _]]; [|done]. exfalso. unfold valid_range in Hwhy. cbn in Hwhy.
    destruct Hwhy as [|[Hn|]]; [lia|by apply elem_of_nil in Hn|unfold MAX_TEXT_RANGES in *; lia]. }
  destruct (add_all_elem t0 dylibs (0, 0)) as (_ & Hlo & Hhi); [rewrite E0; cbn; lia|].
  fold t in Hlo, Hhi. rewrite E0 in Hlo, Hhi. cbn in Hlo, Hhi.
  rewrite caller_test by lia. rewrite Hlo, Hhi.
  assert (forall r, r ∈ text_ranges t <-> r = (lo, hi) \/ (r ∈ dylibs /\ valid_range r)) as E.
  { intros r. unfold t. rewrite (proj1 (add_all_elem t0 dylibs r ltac:(rewrite E0; cbn; lia))), E0. cbn.
    by rewrite list_elem_of_singleton. }
  split.
  - intros [|(r & [-> |[Hin [Hv _]]]%E & Ha)]; auto. right. eauto.
  - intros [|(r & Hin & Hv & Ha)]; [by left|right]. exists r. split; [|done]. apply E. right.
    split; [done|]. split; [done|lia].
Qed.

Lemma caller_is_macos_text_spec_witness :
  let t := add_all (set_text_range text_start 0x1000 0x2000) [(0x8000, 0x9000); (0, 5)] in
  caller_is_macos_text t 0x8010 = true /\ caller_is_macos_text t 3 = false.
Proof.
  split.
  - apply (caller_is_macos_text_spec 0x1000 0x2000 [(0x8000, 0x9000); (0, 5)] 0x8010).
    + lia.
    + unfold MAX_TEXT_RANGES. cbn. lia.
    + right. exists (0x8000, 0x9000). split; [left|cbn; lia].
  - reflexivity.
Defined.

(** The table never overflows its array, whatever ranges are announced. *)
Lemma text_ranges_bounded rs lo hi : text_wf (add_all (set_text_range text_start lo hi) rs).
Proof.
  assert (forall t, text_wf t -> text_wf (add_all t rs)) as H.
  { induction rs as [|r rs IH]; intros t Ht; cbn; [done|]. by apply IH, add_text_range_wf. }
  apply H, add_text_range_wf. split; cbn; [apply NoDup_nil_2|constructor|lia].
Qed.

Definition errno_keys : list Z := map fst errno_cases.

Lemma errno_not_found e : e ∉ errno_keys -> linux_to_macos_errno e = e.
Proof.
  intros H. unfold linux_to_macos_errno. destruct (find _ _) as [[k m]|] eqn:E; [|done].
  apply find_some in E as [Hin Hk]. cbn in Hk. apply Z.eqb_eq in Hk as ->. exfalso. apply H.
  apply list_elem_of_In, in_map_iff. by exists (e, m).
Qed.

(** The translation of error numbers is exact about what it
    merges: distinct Linux numbers become the same macOS number only if one
    of them is in the table and the other is not and is passed through as
    the number the first becomes (so EDEADLK, Linux 35, reaches the guest as
    EAGAIN, which macOS numbers 35). *)
Theorem linux_to_macos_errno_merges (a b : Z) :
  a <> b ->
  (linux_to_macos_errno a = linux_to_macos_errno b <->
   (a ∈ errno_keys /\ ~ (b ∈ errno_keys) /\ b = linux_to_macos_errno a) \/
   (b ∈ errno_keys /\ ~ (a ∈ errno_keys) /\ a = linux_to_macos_errno b)).
Proof.
  intros Hne. split.
  - intros E. destruct (decide (a ∈ errno_keys)) as [Ha|Ha], (decide (b ∈ errno_keys)) as [Hb|Hb].
    + exfalso. apply Hne.
      assert (Forall (fun a => Forall (fun b => linux_to_macos_errno a = linux_to_macos_errno b -> a = b)
        errno_keys) errno_keys) as Hall by (apply (bool_decide_unpack _); vm_compute; exact I).
      rewrite list.Forall_forall in Hall. specialize (Hall a Ha).
      rewrite list.Forall_forall in Hall. by apply Hall.
    + left. rewrite (errno_not_found b) in E by done. done.
    + right. rewrite (errno_not_found a) in E by done. done.
    + by rewrite !errno_not_found in E.
  - intros [(Ha & Hb & E)|(Hb & Ha & E)].
    + by rewrite (errno_not_found b), <- E by done.
    + by rewrite (errno_not_found a), <- E by done.
Qed.

Lemma linux_to_macos_errno_merges_witness : linux_to_macos_errno 11 = linux_to_macos_errno 35.
Proof.
  apply linux_to_macos_errno_merges; [lia|]. left.
  split; [|split]; [apply (bool_decide_unpack _); vm_compute; exact I..|reflexivity].
Defined.

(** ** Guest paths and back *)

Lemma untranslate_within env st p q st1 rest :
  macify_get_prefix env st = (q, st1) -> q <> EmptyString ->
  p = q +:+ "/" +:+ rest ->
  untranslate_path env st p = (("/" +:+ rest)%string, st1) /\
  untranslate_inplace env st (Some p) = (Some ("/" +:+ rest)%string, st1).
Proof.
  intros Hq Hne ->. unfold untranslate_path, untranslate_inplace. rewrite Hq.
  destruct (Nat.eqb_spec (String.length q) 0) as [E|_]; [by destruct q|].
  rewrite starts_with_app, (proj2 (slash_at_app q ("/" +:+ rest)%string)) by (by exists rest).
  replace (end_at (String.length q) (q +:+ "/" +:+ rest)) with false.
  - cbn [negb andb orb]. rewrite sdrop_app. destruct q; [done|]. done.
  - symmetry. apply not_true_iff_false. intros H. by apply end_at_app in H.
Qed.

(** A guest path that is translated into the prefix and
    fits the buffer comes back unchanged when a result is shown to the guest
    (realpath, readlink, getcwd, the executable's path): untranslating the
    translation of an absolute path is the path itself. *)
Theorem guest_path_roundtrip (env : environment) (st st1 : prefix_state) (path out : string) (n : nat) :
  env_MACIFY_JAILED env = false -> absolute path ->
  ~ within (macify_get_prefix env st).1 path ->
  macify_translate_path env st path n = (Some out, st1) ->
  (String.length (macify_get_prefix env st).1 + String.length path < n)%nat ->
  untranslate_path env st1 out = (path, st1) /\
  untranslate_inplace env st1 (Some out) = (Some path, st1).
Proof.
  intros Hj Habs Hout Ht Hlen. destruct (macify_get_prefix env st) as [p st'] eqn:Ep. cbn in Hout, Hlen.
  assert (p <> EmptyString) as Hne.
  { intros ->. unfold macify_translate_path in Ht. rewrite Hj, Ep in Ht.
    destruct (n =? 0)%nat; done. }
  rewrite (translate_absolute env st path n p st' Hj ltac:(lia) Ep Hne Habs) in Ht.
  rewrite decide_False in Ht by done. destruct (decide (shared path)); [done|].
  injection Ht as <- <-. destruct (get_prefix_stable env st p st' Ep) as [-> Hst].
  unfold snprintf. rewrite stake_all by (rewrite string_length_app; lia).
  destruct Habs as [rest ->]. by apply (untranslate_within env (Some p) _ p (Some p) rest).
Qed.

Lemma guest_path_roundtrip_witness :
  untranslate_path demo_environ (Some "/home/u/.macify"%string) "/home/u/.macify/usr/bin/ruby" =
  ("/usr/bin/ruby"%string, Some "/home/u/.macify"%string).
Proof.
  apply (guest_path_roundtrip demo_environ None _ "/usr/bin/ruby" "/home/u/.macify/usr/bin/ruby" 4096).
  - reflexivity.
  - by exists "usr/bin/ruby"%string.
  - apply (bool_decide_unpack _). vm_compute. exact I.
  - vm_compute. reflexivity.
  - vm_compute. lia.
Defined.

(** The two copies of the routine agree on every nonempty string. *)
Lemma untranslate_copies_agree env st c s :
  untranslate_inplace env st (Some (String c s)) =
  (Some (untranslate_path env st (String c s)).1, (untranslate_path env st (String c s)).2).
Proof.
  unfold untranslate_inplace, untranslate_path. destruct (macify_get_prefix env st) as [p st1].
  destruct (String.length p =? 0)%nat; [done|].
  destruct (starts_with p (String c s)); cbn [andb negb]; [|done].
  destruct (slash_at _ _), (end_at _ _); done.
Qed.

Lemma length_guest_exec_path env st a path a' st' :
  guest_exec_path env st a = (path, a', st') -> path <> EmptyString ->
  guest_exec_path env st' a' = (path, a', st').
Proof.
  unfold guest_exec_path. destruct (guest_buffer a) as [|c g] eqn:E.
  - destruct (untranslate_path _ _ _) as [g st1]. intros [= Hp <- <-] Hne. rewrite Hp. cbn [guest_buffer]. by destruct path.
  - intros [= <- <- <-] _. by rewrite E.
Qed.

(** [_NSGetExecutablePath] never writes past the caller's buffer,
    and a buffer that was too small can be replaced by one of the reported
    size: the call then succeeds with the path and its length. *)
Theorem executable_path_retry (env : environment) (st : prefix_state) (a : args_state) (bufsize : Z) :
  let '((r, written, size), a1, st1) := NSGetExecutablePath env st a bufsize in
  let path := (guest_exec_path env st a).1.1 in
  path <> EmptyString -> Z.of_nat (String.length path) < 2 ^ 32 - 1 ->
  (r = 0 /\ written = Some path /\ Z.of_nat (String.length path) < bufsize /\
   size = Z.of_nat (String.length path)) \/
  (r = -1 /\ written = None /\
   (NSGetExecutablePath env st1 a1 size).1.1 =
     (0, Some path, Z.of_nat (String.length path))).
Proof.
  unfold NSGetExecutablePath. destruct (guest_exec_path env st a) as [[path a1] st1] eqn:E. cbn [fst].
  destruct (Z.ltb_spec bufsize (Z.of_nat (String.length path) + 1)); intros Hne Hlen.
  - right. do 2 (split; [done|]). rewrite (length_guest_exec_path env st a path a1 st1) by done.
    rewrite u32_small by lia. rewrite Z.ltb_irrefl. cbn. by rewrite u32_small by lia.
  - left. rewrite u32_small by lia. repeat split; lia.
Qed.

Lemma executable_path_retry_witness :
  let a := set_args args_start 1 (Some ["ruby"%string]) (Some "/home/u/.macify/bin/ruby"%string) in
  (NSGetExecutablePath demo_environ (Some "/home/u/.macify"%string)
     (guest_exec_path demo_environ None a).1.2 10).1.1 = (0, Some "/bin/ruby"%string, 9).
Proof.
  pose proof (executable_path_retry demo_environ None
    (set_args args_start 1 (Some ["ruby"%string]) (Some "/home/u/.macify/bin/ruby"%string)) 4) as H.
  vm_compute in H. destruct H as [(H & _)|(_ & _ & H)]; [discriminate|reflexivity|discriminate H|exact H].
Defined.
