(* ===== verification/ShimSignal.v ===== *)
(** * Signals in the shim (src/shim/signal)

    sigset.c (sets), sigmask.c (numbers, masks, the alternate stack),
    sigaction.c ([sigaction], [signal]), go_signal.c (the wrapper for Go
    programs) and the SIGCHLD wrapper of init.c.  A Linux signal set is a [Z]
    whose bit [s - 1] is signal [s]; the kernel's table of actions and the
    blocked set are part of the state.  Trace output is left out; the lookup
    of glibc's functions succeeds. *)
From Stdlib Require Import ZArith Lia Bool.
From stdpp Require Import base gmap list strings numbers.
From S2P Require Import Prelude SyscallTable SlowPath ShimCore.

(** ** Signal sets: src/shim/signal/sigset.c *)

(** The first word of a set as the caller sees it: 32 bits for guest code, 64
    for glibc, whose other words are [rest]. *)
Record sigset := SigSet { set_word : Z; set_rest : list Z }.

(** [1u << (signum - 1)]: undefined when the shift is not below the width. *)
Definition bit32 (signum : Z) : res Z :=
  if (1 <=? signum) && (signum <=? 32) then Ok (Z.shiftl 1 (signum - 1)) else Undef.

Definition in_64 (signum : Z) : bool := (signum >? 0) && (signum <=? 64).

Definition sigaddset (guest : bool) (s : sigset) (signum : Z) : res sigset :=
  if guest then b ← bit32 signum; Ok (SigSet (Z.lor (set_word s) b) (set_rest s))
  else Ok (if in_64 signum then SigSet (Z.lor (set_word s) (Z.shiftl 1 (signum - 1))) (set_rest s) else s).

Definition sigdelset (guest : bool) (s : sigset) (signum : Z) : res sigset :=
  if guest then b ← bit32 signum; Ok (SigSet (Z.land (set_word s) (Z.lnot b)) (set_rest s))
  else Ok (if in_64 signum
           then SigSet (Z.land (set_word s) (Z.lnot (Z.shiftl 1 (signum - 1)))) (set_rest s) else s).

Definition sigemptyset (guest : bool) (s : sigset) : sigset :=
  if guest then SigSet 0 (set_rest s) else SigSet 0 (map (fun _ => 0) (set_rest s)).

Definition sigfillset (guest : bool) (s : sigset) : sigset :=
  if guest then SigSet 0xFFFFFFFF (set_rest s)
  else SigSet (2 ^ 64 - 1) (map (fun _ => 2 ^ 64 - 1) (set_rest s)).

Definition sigismember (guest : bool) (s : sigset) (signum : Z) : res Z :=
  if guest then b ← bit32 signum; Ok (if has (set_word s) b then 1 else 0)
  else Ok (if in_64 signum then if has (set_word s) (Z.shiftl 1 (signum - 1)) then 1 else 0 else 0).

(** ** Signal numbers: src/shim/signal/sigmask.c *)

(** The table [xlate]; sigaction.c has two more copies, [sig_xlate]. *)
Definition shim_xlate : list Z :=
  [0; 1; 2; 3; 4; 5; 6; 0; 8; 9; 7; 11; 31; 13; 14; 15; 23; 19; 20; 18; 17; 21; 22; 29; 24; 25;
   26; 27; 28; 0; 10; 12].

Definition macos_sig_to_linux (macos_sig : Z) : Z :=
  if (macos_sig <? 0) || (macos_sig >=? 32) then macos_sig else nth (Z.to_nat macos_sig) shim_xlate 0.

(** The table built by the first call of [linux_sig_to_macos]. *)
Definition linux_xlate : list Z :=
  fold_left (fun t m => let l := macos_sig_to_linux m in
                        if (l >? 0) && (l <? 32) then <[Z.to_nat l := m]> t else t)
            (seqZ 0 32) (replicate 32 0).

Definition linux_sig_to_macos (linux_sig : Z) : Z :=
  if (linux_sig <? 0) || (linux_sig >=? 32) then linux_sig
  else let m := nth (Z.to_nat linux_sig) linux_xlate 0 in if m =? 0 then linux_sig else m.

(** One pass through the loop body of [macos_to_linux_sigset]: the bit it
    sets. *)
Definition to_linux_bit (macos_mask macos_sig : Z) : option Z :=
  if Z.testbit macos_mask (macos_sig - 1) then
    let linux_sig := macos_sig_to_linux macos_sig in
    if linux_sig >? 0 then Some (linux_sig - 1) else None
  else None.

Definition to_macos_bit (linux_set linux_sig : Z) : option Z :=
  if Z.testbit linux_set (linux_sig - 1) then
    let macos_sig := linux_sig_to_macos linux_sig in
    if (macos_sig >? 0) && (macos_sig <=? 31) then Some (macos_sig - 1) else None
  else None.

(** [mask |= 1 << b] for each selected bit. *)
Definition set_bits (sel : Z -> option Z) (sigs : list Z) : Z :=
  fold_left (fun acc s => match sel s with Some b => Z.lor acc (Z.shiftl 1 b) | None => acc end) sigs 0.

Definition macos_to_linux_sigset (macos_mask : Z) : Z := set_bits (to_linux_bit macos_mask) (seqZ 1 31).

Definition linux_to_macos_sigset (linux_set : Z) : Z := set_bits (to_macos_bit linux_set) (seqZ 1 31).

(** ** The kernel's side *)

Record sigact := SigAct { sa_handler : Z; sa_flags : Z; sa_mask : Z; sa_restorer : Z }.

Definition SIG_DFL : Z := 0.
Definition SIG_IGN : Z := 1.

(** The actions by Linux number (default where absent), the blocked set, and
    the shim's variables: [macify_saved_go_handlers], [macify_go_signal_ready],
    [macify_saved_sigchld_handler], [macify_in_terminal_read],
    [macify_sigchld_pending]. *)
Record sig_state := SigState {
  sig_actions : gmap Z sigact;
  sig_blocked : Z;
  saved_go_handlers : list Z;
  go_signal_ready : bool;
  saved_sigchld_handler : Z;
  in_terminal_read : bool;
  sigchld_pending : bool
}.

Definition set_actions (st : sig_state) (a : gmap Z sigact) : sig_state :=
  SigState a (sig_blocked st) (saved_go_handlers st) (go_signal_ready st)
    (saved_sigchld_handler st) (in_terminal_read st) (sigchld_pending st).
Definition set_blocked (st : sig_state) (b : Z) : sig_state :=
  SigState (sig_actions st) b (saved_go_handlers st) (go_signal_ready st)
    (saved_sigchld_handler st) (in_terminal_read st) (sigchld_pending st).
Definition set_go_handler (st : sig_state) (signum h : Z) : sig_state :=
  SigState (sig_actions st) (sig_blocked st) (<[Z.to_nat signum := h]> (saved_go_handlers st))
    (go_signal_ready st) (saved_sigchld_handler st) (in_terminal_read st) (sigchld_pending st).
Definition set_sigchld_handler (st : sig_state) (h : Z) : sig_state :=
  SigState (sig_actions st) (sig_blocked st) (saved_go_handlers st) (go_signal_ready st) h
    (in_terminal_read st) (sigchld_pending st).
Definition set_pending (st : sig_state) (p : bool) : sig_state :=
  SigState (sig_actions st) (sig_blocked st) (saved_go_handlers st) (go_signal_ready st)
    (saved_sigchld_handler st) (in_terminal_read st) p.
Definition set_go_ready (st : sig_state) : sig_state :=
  SigState (sig_actions st) (sig_blocked st) (saved_go_handlers st) true
    (saved_sigchld_handler st) (in_terminal_read st) (sigchld_pending st).

Definition default_action : sigact := SigAct SIG_DFL 0 0 0.

Definition action_of (st : sig_state) (signum : Z) : sigact := default default_action (sig_actions st !! signum).

(** glibc's [sigaction]: 0, or -1 for numbers that are no signals or that
    glibc keeps (32, 33), and for replacing SIGKILL or SIGSTOP. *)
Definition real_sigaction (signum : Z) (act : option sigact) (st : sig_state) : Z * sigact * sig_state :=
  if (signum <? 1) || (signum >? 64) || (signum =? 32) || (signum =? 33) then (-1, default_action, st) else
  match act with
  | None => (0, action_of st signum, st)
  | Some a => if (signum =? 9) || (signum =? 19) then (-1, default_action, st)
              else (0, action_of st signum, set_actions st (<[signum := a]> (sig_actions st)))
  end.

(** glibc's [pthread_sigmask]: 0 or EINVAL; the old set.  SIGKILL and SIGSTOP
    cannot be blocked. *)
Definition real_pthread_sigmask (how : Z) (set : option Z) (st : sig_state) : Z * Z * sig_state :=
  let old := sig_blocked st in
  let ok b := (0, old, set_blocked st (Z.land b (Z.lnot (2 ^ 8 + 2 ^ 18)))) in
  match set with
  | None => (0, old, st)
  | Some s => if how =? 0 then ok (Z.lor old s) else if how =? 1 then ok (Z.land old (Z.lnot s))
              else if how =? 2 then ok s else (22, old, st)
  end.

(** ** [pthread_sigmask], [sigprocmask] for guest callers *)

Definition guest_how (how : Z) : Z :=
  if how =? 1 then 0 else if how =? 2 then 1 else if how =? 3 then 2 else how.

(** The four [sigdelset] calls: SIGSEGV, SIGBUS, SIGABRT, SIGILL. *)
Definition guard_fault_signals (linux_how set : Z) : Z :=
  if (linux_how =? 0) || (linux_how =? 2)
  then fold_left (fun s sig => Z.land s (Z.lnot (Z.shiftl 1 (sig - 1)))) [11; 7; 6; 4] set else set.

(** The body both functions share; [want_old] is [oldset != NULL]. *)
Definition guest_sigmask (how : Z) (set : option Z) (want_old : bool) (st : sig_state)
    : Z * option Z * sig_state :=
  let linux_how := guest_how how in
  let linux_set := option_map (fun m => guard_fault_signals linux_how (macos_to_linux_sigset m)) set in
  let '(result, linux_oldset, st) := real_pthread_sigmask linux_how linux_set st in
  (result, if want_old && (result =? 0) then Some (linux_to_macos_sigset linux_oldset) else None, st).

(** [macify_sigaltstack]: the guest's stack_t (pointer, size, flags) is
    handed on as Linux's; [kernel] is system call 131. *)
Record stack_t := StackT { ss_sp : Z; ss_size : Z; ss_flags : Z }.

Definition sigaltstack {K} (kernel : option stack_t -> K -> Z * stack_t * K) (ss : option stack_t)
    (want_old : bool) (k : K) : Z * option stack_t * K :=
  match ss with
  | Some s => if has (ss_flags s) 1 then (0, None, k) else
      let '(result, old, k) := kernel (Some s) k in
      (result, if want_old && (result =? 0) then Some old else None, k)
  | None =>
      let '(result, old, k) := kernel None k in
      (result, if want_old && (result =? 0) then Some old else None, k)
  end.

(** ** [sigaction] and [signal]: src/shim/signal/sigaction.c *)

Record macos_sigaction := MacosSigaction { mac_handler : Z; mac_mask : Z; mac_flags : Z }.

Definition SA_SIGINFO : Z := 0x00000004.
Definition SA_ONSTACK : Z := 0x08000000.
Definition SA_RESTART : Z := 0x10000000.
Definition SA_NODEFER : Z := 0x40000000.
Definition SA_RESTORER : Z := 0x04000000.

(** The [if (macos_flags & m) linux_flags |= l] lines. *)
Definition sa_flag_bits : list (Z * Z) :=
  [(0x0001, 0x08000000); (0x0002, 0x10000000); (0x0004, 0x80000000); (0x0008, 0x00000001);
   (0x0010, 0x40000000); (0x0020, 0x00000002); (0x0040, 0x00000004); (0x0080, 0x04000000)].

Definition linux_sa_flags (macos_flags : Z) : Z :=
  fold_left (fun lf b => if has macos_flags b.1 then Z.lor lf b.2 else lf) sa_flag_bits 0.

(** [if (signum >= 0 && signum < 32 && sig_xlate[signum]) signum = sig_xlate[signum];] *)
Definition guest_signum (signum : Z) : Z :=
  if (signum >=? 0) && (signum <? 32) && negb (nth (Z.to_nat signum) shim_xlate 0 =? 0)
  then nth (Z.to_nat signum) shim_xlate 0 else signum.

Section handlers.
  (** The addresses of [macify_crash_handler], [macify_go_signal_wrapper] and
      [macify_sigchld_wrapper], [macify_sa_restorer] (0 is NULL), and whether
      the loader found a Go program ([g_tls_g_addr]). *)
  Context (crash_handler go_wrapper sigchld_wrapper restorer : Z) (is_go : bool).

Definition with_restorer (a : sigact) : sigact :=
  if restorer =? 0 then a
  else SigAct (sa_handler a) (Z.lor (sa_flags a) SA_RESTORER) (sa_mask a) restorer.

(** The Linux action for a guest's [act] on the Linux signal [signum], the
    saved Go handler included; [None] leaves the action alone. *)
Definition install_for_guest (signum : Z) (act : macos_sigaction) (st : sig_state)
    : option sigact * sig_state :=
  let mask := if mac_mask act =? 0 then 0 else macos_to_linux_sigset (mac_mask act) in
  let linux_act := SigAct (mac_handler act) (linux_sa_flags (mac_flags act)) mask 0 in
  let wrapped := SigAct go_wrapper (Z.lor (Z.lor SA_SIGINFO SA_ONSTACK) SA_NODEFER) mask 0 in
  if (signum =? 11) || (signum =? 7) then
    if is_go then (Some (with_restorer wrapped), set_go_handler st signum (mac_handler act))
    else (Some (with_restorer (SigAct crash_handler (Z.lor SA_SIGINFO SA_ONSTACK) mask 0)), st)
  else if signum =? 4 then (None, st)
  else if is_go then
    (Some (with_restorer wrapped),
     if (signum >=? 0) && (signum <? 32) then set_go_handler st signum (mac_handler act) else st)
  else (Some (with_restorer linux_act), st).

Definition guest_sigaction (signum : Z) (act : option macos_sigaction) (want_old : bool) (st : sig_state)
    : Z * option macos_sigaction * sig_state :=
  if ((signum =? 11) || (signum =? 6) || (signum =? 14)) &&
     (match act with Some _ => negb ((signum =? 11) && is_go) | None => false end)
  then (0, None, st) else
  let signum := guest_signum signum in
  let '(linux_act, st) :=
    match act with Some a => install_for_guest signum a st | None => (None, st) end in
  let '(result, old, st) := real_sigaction signum linux_act st in
  (result,
   if want_old && (result =? 0)
   then Some (MacosSigaction (sa_handler old) (u32 (sa_mask old)) (i32 (sa_flags old))) else None,
   st).

(** [macify_signal]: the return value is always SIG_DFL. *)
Definition guest_signal (signum handler : Z) (st : sig_state) : Z * sig_state :=
  if signum =? 14 then (SIG_DFL, st) else
  if (signum =? 11) || (signum =? 7) || (signum =? 6) then
    let sa := with_restorer (SigAct crash_handler (Z.lor (Z.lor SA_SIGINFO SA_ONSTACK) SA_NODEFER) 0 0) in
    (SIG_DFL, (real_sigaction signum (Some sa) st).2)
  else if signum =? 4 then (SIG_DFL, st) else
  let signum := guest_signum signum in
  let '(sa, st) :=
    if (signum =? 17) && negb (handler =? SIG_DFL) && negb (handler =? SIG_IGN)
    then (SigAct sigchld_wrapper (Z.lor SA_SIGINFO SA_RESTART) 0 0, set_sigchld_handler st handler)
    else (SigAct handler 0 0 0, st) in
  (SIG_DFL, (real_sigaction signum (Some (with_restorer sa)) st).2).

(** ** [macify_go_signal_wrapper]: src/shim/signal/go_signal.c *)

(** Which handler a signal ends in; [Deferred] re-blocks the signal. *)
Inductive delivery := CallGuest (handler : Z) | CallCrash | Deferred.

(** [si_code]s of signals that are safe to hold: SI_USER, SI_KERNEL, SI_QUEUE,
    SI_TIMER, SI_MESGQ, SI_ASYNCIO, SI_SIGIO, SI_TKILL. *)
Definition async_codes : list Z := [0; 0x80; -1; -2; -3; -4; -5; -6].

(** [go_is_ready]: reads the guest's g and m structures. *)
Definition go_is_ready (tls_g_addr : Z) (m : mem) (st : sig_state) : res (bool * sig_state) :=
  if go_signal_ready st then Ok (true, st) else
  if tls_g_addr =? 0 then Ok (false, st) else
  g ← load64 m tls_g_addr;
  if g =? 0 then Ok (false, st) else
  mm ← load64 m (u64 (g + 0x30));
  if mm =? 0 then Ok (false, st) else
  gsignal ← load64 m (u64 (mm + 0x48));
  curg ← load64 m (u64 (mm + 0xb8));
  if negb (gsignal =? 0) && negb (curg =? 0) then Ok (true, set_go_ready st) else Ok (false, st).

(** Block [sig] in addition. *)
Definition defer_signal (sig : Z) (st : sig_state) : delivery * sig_state :=
  (Deferred, (real_pthread_sigmask 0 (Some (Z.shiftl 1 (sig - 1))) st).2).

(** [si_code] is [None] when [info] is NULL. *)
Definition go_signal_wrapper (tls_g_addr : Z) (m : mem) (sig : Z) (si_code : option Z) (st : sig_state)
    : res (delivery * sig_state) :=
  '(ready, st) ← go_is_ready tls_g_addr m st;
  if (ready : bool) then
    let h := if (sig >=? 0) && (sig <? 32) then nth (Z.to_nat sig) (saved_go_handlers st) 0 else 0 in
    if h =? 0 then Ok (defer_signal sig st) else Ok (CallGuest h, st)
  else
    match si_code with
    | Some c => if existsb (Z.eqb c) async_codes then Ok (defer_signal sig st) else Ok (CallCrash, st)
    | None => Ok (CallCrash, st)
    end.

(** ** The SIGCHLD wrapper: src/shim/signal/init.c *)

(** The handler called, if any. *)
Definition run_sigchld_wrapper (st : sig_state) : option Z * sig_state :=
  if in_terminal_read st then (None, set_pending st true)
  else (if saved_sigchld_handler st =? 0 then None else Some (saved_sigchld_handler st), st).

Definition deliver_pending_sigchld (st : sig_state) : option Z * sig_state :=
  if sigchld_pending st then
    (if saved_sigchld_handler st =? 0 then None else Some (saved_sigchld_handler st), set_pending st false)
  else (None, st).

(** ** Lemmas *)

Lemma guest_signum_cases s :
  (guest_signum s = 4 -> s = 4) /\ (guest_signum s = 6 -> s = 6) /\
  (guest_signum s = 11 -> s = 11) /\ (guest_signum s = 7 -> s = 7 \/ s = 10).
Proof.
  unfold guest_signum. destruct ((s >=? 0) && (s <? 32)) eqn:E; cbn [andb].
  - pose proof (range_forallb (fun s =>
      let g := if negb (nth (Z.to_nat s) shim_xlate 0 =? 0) then nth (Z.to_nat s) shim_xlate 0 else s in
      (negb (g =? 4) || (s =? 4)) && (negb (g =? 6) || (s =? 6)) && (negb (g =? 11) || (s =? 11)) &&
      (negb (g =? 7) || (s =? 7) || (s =? 10))) 0 32 ltac:(vm_compute; reflexivity) s ltac:(lia)) as C.
    cbv beta zeta in C. destruct (negb (nth (Z.to_nat s) shim_xlate 0 =? 0)); lia.
  - lia.
Qed.

(** What any call keeps: the thread's mask has none of the fault signals, and
    their actions are the shim's.  The masks of the other actions are not part
    of it (see [handler_mask_unguarded]). *)
Definition fault_signals : list Z := [4; 6; 7; 11].

Record protected (ill : sigact) (st : sig_state) : Prop := {
  prot_mask : forall s, s ∈ fault_signals -> Z.testbit (sig_blocked st) (s - 1) = false;
  prot_ill : sig_actions st !! 4 = Some ill;
  prot_faults : forall s, s ∈ [6; 7; 11] -> exists a, sig_actions st !! s = Some a /\
                  (sa_handler a = crash_handler \/ sa_handler a = go_wrapper)
}.

Lemma with_restorer_handler a : sa_handler (with_restorer a) = sa_handler a.
Proof. unfold with_restorer. by destruct (restorer =? 0). Qed.

(** Installing on another signal, or one of the shim's handlers. *)
Lemma protected_install ill st signum a :
  protected ill st -> signum <> 4 ->
  (signum ∈ [6; 7; 11] -> sa_handler a = crash_handler \/ sa_handler a = go_wrapper) ->
  protected ill (real_sigaction signum (Some a) st).2.
Proof.
  intros [Hm Hi Hf] H4 Ha. unfold real_sigaction.
  destruct (_ || _ || _ || _); [done|]. destruct (_ || _); [done|]. cbn. split; cbn; [done| |].
  - by rewrite lookup_insert_ne.
  - intros s Hs. destruct (decide (signum = s)) as [->|Hne].
    + exists a. rewrite lookup_insert_eq. auto.
    + rewrite lookup_insert_ne by done. auto.
Qed.

(** The invariant does not look at the shim's own variables. *)
Lemma protected_same ill st st' :
  sig_actions st' = sig_actions st -> sig_blocked st' = sig_blocked st ->
  protected ill st -> protected ill st'.
Proof. intros Ea Eb [Hm Hi Hf]. split; rewrite ?Ea, ?Eb; done. Qed.

Lemma install_for_guest_same signum act st :
  sig_actions (install_for_guest signum act st).2 = sig_actions st /\
  sig_blocked (install_for_guest signum act st).2 = sig_blocked st.
Proof. unfold install_for_guest. repeat case_match; done. Qed.

Lemma real_sigaction_None signum st : (real_sigaction signum None st).2 = st.
Proof. unfold real_sigaction. by destruct (_ || _ || _ || _). Qed.

Lemma guest_sigaction_protected ill signum act want_old st :
  protected ill st -> protected ill (guest_sigaction signum act want_old st).2.
Proof.
  intros Hp. unfold guest_sigaction. destruct act as [act|].
  - destruct (_ && _) eqn:Eblk; [done|].
    destruct (guest_signum_cases signum) as (H4 & H6 & H11 & H7).
    pose proof (install_for_guest_same (guest_signum signum) act st) as [Ea Eb].
    destruct (install_for_guest (guest_signum signum) act st) as [la st1] eqn:Ei. cbn in Ea, Eb.
    pose proof (protected_same ill st st1 Ea Eb Hp) as Hp1.
    assert (protected ill (real_sigaction (guest_signum signum) la st1).2) as Hgoal.
    { destruct la as [a|]; [|by rewrite real_sigaction_None].
      unfold install_for_guest in Ei.
      destruct (Z.eqb_spec (guest_signum signum) 11) as [E|E11]; cbn [orb] in Ei.
      { apply protected_install; [done|lia|]. intros _. destruct is_go; injection Ei as <- _;
          rewrite with_restorer_handler; auto. }
      destruct (Z.eqb_spec (guest_signum signum) 7) as [E|E7].
      { apply protected_install; [done|lia|]. intros _. destruct is_go; injection Ei as <- _;
          rewrite with_restorer_handler; auto. }
      destruct (Z.eqb_spec (guest_signum signum) 4) as [E|E4]; [done|].
      apply protected_install; [done|done|]. intros Hin. exfalso.
      repeat (apply elem_of_cons in Hin as [Hin|Hin]); [|lia|lia|by apply elem_of_nil in Hin].
      specialize (H6 Hin). subst signum. cbn in Eblk. by destruct is_go. }
    by destruct (real_sigaction (guest_signum signum) la st1) as [[? ?] ?].
  - rewrite andb_false_r. pose proof (real_sigaction_None (guest_signum signum) st) as E.
    destruct (real_sigaction (guest_signum signum) None st) as [[? ?] ?]. cbn in *. by subst.
Qed.

Lemma guest_signal_protected ill signum handler st :
  signum <> 10 -> protected ill st -> protected ill (guest_signal signum handler st).2.
Proof.
  intros H10 Hp. unfold guest_signal. destruct (signum =? 14); [done|].
  destruct ((signum =? 11) || (signum =? 7) || (signum =? 6)) eqn:Ef.
  { apply protected_install; [done|lia|]. rewrite with_restorer_handler. auto. }
  destruct (Z.eqb_spec signum 4) as [|H4]; [done|].
  destruct (guest_signum_cases signum) as (G4 & G6 & G11 & G7).
  assert (forall a st', protected ill st' ->
    protected ill (real_sigaction (guest_signum signum) (Some a) st').2) as Hins.
  { intros a st' Hp'. apply protected_install; [done|lia|]. intros Hin. exfalso.
    repeat (apply elem_of_cons in Hin as [Hin|Hin]); [lia|lia|lia|by apply elem_of_nil in Hin]. }
  destruct (_ && _ && _); cbn [snd]; apply Hins; [|done].
  by apply (protected_same ill st).
Qed.
End handlers.

(** ** Lemmas: masks *)

(** The signals that have a number on both sides. *)
Definition translatable (s : Z) : bool := (1 <=? s) && (s <=? 31) && (0 <? macos_sig_to_linux s).

Lemma translatable_inverse s :
  translatable s = true -> 1 <= macos_sig_to_linux s <= 31 /\ linux_sig_to_macos (macos_sig_to_linux s) = s.
Proof.
  intros H. unfold translatable in H. bool_to_prop.
  pose proof (range_forallb (fun s => negb (0 <? macos_sig_to_linux s) ||
    ((macos_sig_to_linux s <=? 31) && (linux_sig_to_macos (macos_sig_to_linux s) =? s))) 1 31
    ltac:(vm_compute; reflexivity) s ltac:(lia)) as C. cbv beta in C. lia.
Qed.

Lemma set_bits_spec sel k :
  0 <= k -> (forall s b, 1 <= s <= 31 -> sel s = Some b -> 0 <= b) ->
  (Z.testbit (set_bits sel (seqZ 1 31)) k = true <-> exists s, 1 <= s <= 31 /\ sel s = Some k).
Proof.
  intros Hk Hsel. unfold set_bits. rewrite testbit_fold_set; [|done|].
  - rewrite Z.bits_0. cbn [orb]. rewrite existsb_exists. split; intros (s & Hin & H); exists s.
    + rewrite in_signals in Hin. split; [done|]. destruct (sel s); [|done]. f_equal. lia.
    + rewrite in_signals, H. split; [done|]. lia.
  - apply List.Forall_forall. intros s Hin. rewrite in_signals in Hin.
    destruct (sel s) eqn:E; [|done]. by apply (Hsel s).
Qed.

Lemma to_linux_bits m k :
  0 <= k -> (Z.testbit (macos_to_linux_sigset m) k = true <->
             exists s, translatable s = true /\ Z.testbit m (s - 1) = true /\ macos_sig_to_linux s = k + 1).
Proof.
  intros Hk. unfold macos_to_linux_sigset. rewrite set_bits_spec; [|done|].
  - unfold to_linux_bit, translatable. split; intros (s & H); exists s.
    + destruct H as [Hs H]. destruct (Z.testbit m (s - 1)); [|done].
      destruct (macos_sig_to_linux s >? 0) eqn:E; [|done]. injection H as H. lia.
    + destruct H as (Ht & -> & ->). replace (k + 1 >? 0) with true by lia. split; [lia|]. f_equal. lia.
  - intros s b _. unfold to_linux_bit. destruct (Z.testbit m (s - 1)); [|done].
    destruct (macos_sig_to_linux s >? 0) eqn:E; [|done]. intros [= <-]. lia.
Qed.

Lemma sigset_round_trip_bits m k :
  0 <= k ->
  Z.testbit (linux_to_macos_sigset (macos_to_linux_sigset m)) k = Z.testbit m k && translatable (k + 1).
Proof.
  intros Hk. apply eq_true_iff_eq. unfold linux_to_macos_sigset. rewrite set_bits_spec; [|done|].
  - rewrite andb_true_iff. unfold to_macos_bit. split.
    + intros (l & Hl & H). destruct (Z.testbit (macos_to_linux_sigset m) (l - 1)) eqn:Eb; [|done].
      apply to_linux_bits in Eb as (s & Ht & Hb & El); [|lia].
      destruct (translatable_inverse s Ht) as [_ Einv]. replace (l - 1 + 1) with l in El by lia.
      rewrite El in Einv. rewrite Einv in H. destruct (_ && _); [|done]. injection H as <-.
      replace (s - 1 + 1) with s by lia. done.
    + intros [Hb Ht]. destruct (translatable_inverse _ Ht) as [Hr Einv].
      exists (macos_sig_to_linux (k + 1)). split; [done|].
      rewrite (proj2 (to_linux_bits m (macos_sig_to_linux (k + 1) - 1) ltac:(lia))).
      * rewrite Einv. unfold translatable in Ht.
        replace ((k + 1 >? 0) && (k + 1 <=? 31)) with true by lia. f_equal. lia.
      * exists (k + 1). split; [done|]. split; [by replace (k + 1 - 1) with k by lia|lia].
  - intros s b _. unfold to_macos_bit. destruct (Z.testbit _ (s - 1)); [|done].
    destruct (_ && _) eqn:E; [|done]. intros [= <-]. lia.
Qed.

(** ** Properties *)

(** A signal mask the guest sets and reads back through the
    shim comes back with exactly SIGEMT, SIGINFO and bit 31 removed, the
    signals Linux has no number for; every other signal survives, whatever
    its number on either side. *)
Theorem sigset_roundtrip (m : Z) :
  0 <= m -> linux_to_macos_sigset (macos_to_linux_sigset m) =
            Z.land m (2 ^ 31 - 1 - 2 ^ 6 - 2 ^ 28).
Proof.
  intros Hm. apply Z.bits_inj'. intros k Hk. rewrite sigset_round_trip_bits, Z.land_spec by done.
  f_equal. destruct (Z.ltb_spec k 31) as [Hlt|Hge].
  - pose proof (range_forallb (fun k => eqb (translatable (k + 1))
      (Z.testbit (2 ^ 31 - 1 - 2 ^ 6 - 2 ^ 28) k)) 0 31 ltac:(vm_compute; reflexivity) k ltac:(lia)) as C.
    cbv beta in C. by apply eqb_prop in C.
  - unfold translatable. replace (k + 1 <=? 31) with false by lia. rewrite andb_false_r. cbn [andb].
    symmetry. apply Z.bits_above_log2; [lia|]. vm_compute Z.log2. lia.
Qed.

Lemma sigset_roundtrip_witness :
  linux_to_macos_sigset (macos_to_linux_sigset (2 ^ 15 + 2 ^ 28)) = 2 ^ 15.
Proof. rewrite sigset_roundtrip; [reflexivity|lia]. Defined.

(** The shim's table of signal numbers agrees with the one
    of the slow path on every signal but SIGEMT and SIGINFO, for which the
    shim has no Linux number and the slow path uses SIGUSR1. *)
Theorem shim_and_slow_path_signals (s : Z) :
  1 <= s <= 31 ->
  (macos_sig_to_linux s = translate_kill_signal s <-> s <> 7 /\ s <> 29) /\
  (s = 7 \/ s = 29 -> macos_sig_to_linux s = 0 /\ translate_kill_signal s = 10).
Proof.
  intros Hs.
  pose proof (range_forallb (fun s => if (s =? 7) || (s =? 29)
      then (macos_sig_to_linux s =? 0) && (translate_kill_signal s =? 10)
      else macos_sig_to_linux s =? translate_kill_signal s) 1 31 ltac:(vm_compute; reflexivity) s ltac:(lia)) as C.
  cbv beta in C. destruct ((s =? 7) || (s =? 29)) eqn:E; lia.
Qed.

Lemma shim_and_slow_path_signals_witness : macos_sig_to_linux 20 = 17 /\ translate_kill_signal 29 = 10.
Proof.
  split; [|apply (shim_and_slow_path_signals 29); lia].
  rewrite (proj2 (proj1 (shim_and_slow_path_signals 20 ltac:(lia))) ltac:(lia)). reflexivity.
Defined.

(** Anything guest code can call. *)
Inductive guest_call :=
| GSigaction (signum : Z) (act : option macos_sigaction) (want_old : bool)
| GSignal (signum handler : Z)
| GSigmask (how : Z) (set : option Z) (want_old : bool).

Definition run_call (crash go sigchld restorer : Z) (is_go : bool) (st : sig_state) (c : guest_call)
    : sig_state :=
  match c with
  | GSigaction signum act want_old => (guest_sigaction crash go restorer is_go signum act want_old st).2
  | GSignal signum handler => (guest_signal crash sigchld restorer signum handler st).2
  | GSigmask how set want_old => (guest_sigmask how set want_old st).2
  end.

(** [signal(SIGBUS, h)], which guests spell 10. *)
Definition is_signal_sigbus (c : guest_call) : bool :=
  match c with GSignal signum _ => signum =? 10 | _ => false end.

Lemma guard_clears how set s :
  how = 0 \/ how = 2 -> s ∈ fault_signals -> Z.testbit (guard_fault_signals how set) (s - 1) = false.
Proof.
  intros Hh Hs. unfold guard_fault_signals. replace ((how =? 0) || (how =? 2)) with true by lia.
  cbn [fold_left]. rewrite !Z.land_spec, !Z.lnot_spec
    by (repeat (apply elem_of_cons in Hs as [->|Hs]); try lia; by apply elem_of_nil in Hs).
  repeat (apply elem_of_cons in Hs as [->|Hs]); [| | | |by apply elem_of_nil in Hs];
    rewrite !Z.shiftl_1_l, !Z.pow2_bits_eqb by lia; cbn; by rewrite ?andb_false_r.
Qed.

Lemma guest_sigmask_protected crash go ill how set want_old st :
  protected crash go ill st -> protected crash go ill (guest_sigmask how set want_old st).2.
Proof.
  intros [Hm Hi Hf]. unfold guest_sigmask, real_pthread_sigmask. destruct set as [m|]; cbn [option_map]; [|done].
  set (g := guard_fault_signals (guest_how how) (macos_to_linux_sigset m)).
  assert (forall s, s ∈ fault_signals -> guest_how how = 0 \/ guest_how how = 2 -> Z.testbit g (s - 1) = false)
    as Hg by (intros; by apply guard_clears).
  assert (forall s, s ∈ fault_signals -> 0 <= s - 1) as Hpos.
  { intros s Hs. repeat (apply elem_of_cons in Hs as [->|Hs]); try lia. by apply elem_of_nil in Hs. }
  destruct (Z.eqb_spec (guest_how how) 0), (Z.eqb_spec (guest_how how) 1), (Z.eqb_spec (guest_how how) 2);
    cbn [snd]; split; cbn; try done; intros s Hs; rewrite ?Z.land_spec, ?Z.lor_spec, ?Hm by done;
    rewrite ?Hg by auto; done.
Qed.

(** C18 (invariant): whatever sequence of [sigaction], [signal],
    [pthread_sigmask] and [sigprocmask] calls the guest makes, other than
    [signal] for its SIGBUS, SIGILL keeps the loader's action, SIGSEGV, SIGBUS
    and SIGABRT keep one of the shim's handlers, and the calls put none of the
    four in the thread's mask.  This is about the mask between handlers: the
    mask of an action is not guarded, and one with a fault signal in it blocks
    that signal while its handler runs ([handler_mask_unguarded]). *)
Theorem guest_keeps_fault_signals (crash go sigchld restorer : Z) (is_go : bool)
    (ill : sigact) (calls : list guest_call) (st : sig_state) :
  protected crash go ill st -> Forall (fun c => is_signal_sigbus c = false) calls ->
  protected crash go ill (fold_left (run_call crash go sigchld restorer is_go) calls st).
Proof.
  revert st. induction calls as [|c calls IH]; intros st Hp Hc; cbn; [done|].
  apply Forall_cons_iff in Hc as [Hc1 Hc]. apply IH; [|done].
  destruct c; cbn in *.
  - by apply guest_sigaction_protected.
  - apply guest_signal_protected; [lia|done].
  - by apply guest_sigmask_protected.
Qed.

(** A state as the loader and the shim's constructor leave it. *)
Definition demo_sig_state (ill crash : Z) : sig_state :=
  let a := SigAct crash (Z.lor SA_SIGINFO SA_NODEFER) 0 0 in
  SigState (<[4 := SigAct ill SA_SIGINFO 0 0]> (<[6 := a]> (<[7 := a]> (<[11 := a]> ∅))))
    0 (replicate 32 0) false 0 false false.

Lemma demo_protected ill crash go :
  protected crash go (SigAct ill SA_SIGINFO 0 0) (demo_sig_state ill crash).
Proof.
  split; [intros s _; apply Z.testbit_0_l|reflexivity|].
  intros s Hs. repeat (apply elem_of_cons in Hs as [->|Hs]); [eauto..|by apply elem_of_nil in Hs].
Qed.

Lemma guest_keeps_fault_signals_witness :
  Z.testbit (sig_blocked (fold_left (run_call 100 200 300 0 false)
    [GSigmask 3 (Some 0xFFFFFFFF) false; GSignal 11 0; GSigaction 4 (Some (MacosSigaction 5 0 0)) false]
    (demo_sig_state 50 100))) 10 = false.
Proof.
  apply (prot_mask 100 200 (SigAct 50 SA_SIGINFO 0 0) _
    (guest_keeps_fault_signals 100 200 300 0 false (SigAct 50 SA_SIGINFO 0 0)
      [GSigmask 3 (Some 0xFFFFFFFF) false; GSignal 11 0; GSigaction 4 (Some (MacosSigaction 5 0 0)) false]
      (demo_sig_state 50 100) (demo_protected 50 100 200) ltac:(repeat constructor)) 11).
  right. right. right. left.
Defined.

(** [signal] does not protect SIGBUS: the guest's SIGBUS is
    number 10, which is not among the numbers the function intercepts, and is
    only then translated to 7, so the guest's handler replaces the crash
    handler there; the call is otherwise like any other. *)
Theorem signal_sigbus_replaces_handler (crash go sigchld restorer : Z) (handler : Z) (st : sig_state) :
  let st' := run_call crash go sigchld restorer false st (GSignal 10 handler) in
  sa_handler (action_of st' 7) = handler /\
  (forall s, s <> 7 -> action_of st' s = action_of st s).
Proof.
  intros st'. unfold st', run_call, guest_signal. change (guest_signum 10) with 7. cbn -[with_restorer].
  unfold action_of. cbn. split.
  - rewrite lookup_insert_eq. cbn. by rewrite with_restorer_handler.
  - intros s Hs. by rewrite lookup_insert_ne.
Qed.

(** The signals whose action a guest may set: translatable, not kept by the
    shim (SIGILL, SIGABRT, SIGALRM) and not SIGKILL or SIGSTOP. *)
Definition settable (s : Z) : bool :=
  translatable s && negb (existsb (Z.eqb s) [4; 6; 14; 9; 17]).

Lemma settable_signum s :
  settable s = true ->
  guest_signum s = macos_sig_to_linux s /\ 1 <= guest_signum s <= 31 /\
  guest_signum s <> 4 /\ guest_signum s <> 9 /\ guest_signum s <> 19 /\ s <> 6 /\ s <> 14.
Proof.
  intros H. assert (1 <= s <= 31) as Hs by (unfold settable, translatable in H; bool_to_prop; lia).
  pose proof (range_forallb (fun s => negb (settable s) ||
    ((guest_signum s =? macos_sig_to_linux s) && (1 <=? guest_signum s) && (guest_signum s <=? 31) &&
     negb (guest_signum s =? 4) && negb (guest_signum s =? 9) && negb (guest_signum s =? 19) &&
     negb (s =? 6) && negb (s =? 14))) 1 31 ltac:(vm_compute; reflexivity) s ltac:(lia)) as C.
  cbv beta in C. rewrite H in C. cbn [negb orb] in C. bool_to_prop. lia.
Qed.

Lemma real_sigaction_installs signum a st :
  1 <= signum <= 31 -> signum <> 9 -> signum <> 19 ->
  real_sigaction signum (Some a) st =
  (0, action_of st signum, set_actions st (<[signum := a]> (sig_actions st))).
Proof.
  intros H1 H2 H3. unfold real_sigaction.
  replace ((signum <? 1) || (signum >? 64) || (signum =? 32) || (signum =? 33)) with false by lia.
  by replace ((signum =? 9) || (signum =? 19)) with false by lia.
Qed.

(** In a program that is not Go, a guest's [sigaction] on a
    settable signal other than SIGSEGV and SIGBUS puts its handler, with
    flags and mask translated, on the Linux number of the signal and nowhere
    else; a query afterwards gives the handler back, but flags and mask in
    Linux's encoding. *)
Theorem sigaction_installs_and_reads_back (crash go restorer s : Z) (act : macos_sigaction) (st : sig_state) :
  settable s = true -> s <> 10 -> s <> 11 ->
  let linux := macos_sig_to_linux s in
  let '(r, _, st1) := guest_sigaction crash go restorer false s (Some act) false st in
  let a := with_restorer restorer
             (SigAct (mac_handler act) (linux_sa_flags (mac_flags act)) (macos_to_linux_sigset (mac_mask act)) 0) in
  r = 0 /\ action_of st1 linux = a /\ (forall s', s' <> linux -> action_of st1 s' = action_of st s') /\
  guest_sigaction crash go restorer false s None true st1 =
    (0, Some (MacosSigaction (mac_handler act) (u32 (sa_mask a)) (i32 (sa_flags a))), st1).
Proof.
  intros Hs H10 H11. destruct (settable_signum s Hs) as (Eg & Hr & N4 & N9 & N19 & N6 & N14).
  pose proof (guest_signum_cases s) as (_ & _ & G11 & G7).
  unfold guest_sigaction. replace ((s =? 11) || (s =? 6) || (s =? 14)) with false by lia. cbn [andb].
  unfold install_for_guest.
  replace ((guest_signum s =? 11) || (guest_signum s =? 7)) with false
    by (assert (s <> 7) by (intros ->; done); lia).
  replace (guest_signum s =? 4) with false by lia.
  rewrite real_sigaction_installs by lia. rewrite <- Eg. split; [done|].
  assert (forall m, (if m =? 0 then 0 else macos_to_linux_sigset m) = macos_to_linux_sigset m) as Hm.
  { intros m. destruct (Z.eqb_spec m 0) as [->|]; [vm_compute|]; done. }
  rewrite Hm. unfold action_of. cbn [set_actions sig_actions]. rewrite lookup_insert_eq. split; [done|].
  split; [intros s' Hne; by rewrite lookup_insert_ne|].
  unfold real_sigaction.
  replace ((guest_signum s <? 1) || (guest_signum s >? 64) || (guest_signum s =? 32) || (guest_signum s =? 33))
    with false by lia.
  unfold action_of. cbn [set_actions sig_actions]. rewrite lookup_insert_eq. cbn -[with_restorer].
  by rewrite with_restorer_handler.
Qed.

Lemma sigaction_installs_and_reads_back_witness :
  (guest_sigaction 100 200 0 false 20 None true
     (guest_sigaction 100 200 0 false 20 (Some (MacosSigaction 7777 (2 ^ 15) 2)) false
        (demo_sig_state 50 100)).2).1 =
  (0, Some (MacosSigaction 7777 (2 ^ 22) 0x10000000)).
Proof.
  pose proof (sigaction_installs_and_reads_back 100 200 0 20 (MacosSigaction 7777 (2 ^ 15) 2)
    (demo_sig_state 50 100) eq_refl ltac:(lia) ltac:(lia)) as H.
  cbv zeta in H. destruct (guest_sigaction 100 200 0 false 20 _ false _) as [[r o] st1].
  destruct H as (_ & _ & _ & H). cbn [snd]. rewrite H. reflexivity.
Defined.

(** The mask a thread has while the action of the Linux signal [s] runs: the
    kernel adds the action's own mask, less SIGKILL and SIGSTOP. *)
Definition mask_in_handler (st : sig_state) (s : Z) : Z :=
  Z.land (Z.lor (sig_blocked st) (sa_mask (action_of st s))) (Z.lnot (2 ^ 8 + 2 ^ 18)).

(** The mask of an action is translated without the guard that the calls on
    the thread's mask have: a fault signal a guest names there (SIGILL,
    SIGABRT, SIGBUS or SIGSEGV, in its numbers) is blocked while its handler
    runs, so that a system call the handler makes on the slow path kills the
    process. *)
Theorem handler_mask_unguarded (crash go restorer s f : Z) (act : macos_sigaction) (st : sig_state) :
  settable s = true -> s <> 10 -> s <> 11 -> f ∈ [4; 6; 10; 11] ->
  Z.testbit (mac_mask act) (f - 1) = true ->
  Z.testbit (mask_in_handler (guest_sigaction crash go restorer false s (Some act) false st).2
               (macos_sig_to_linux s)) (macos_sig_to_linux f - 1) = true.
Proof.
  intros Hs H10 H11 Hf Hb.
  pose proof (sigaction_installs_and_reads_back crash go restorer s act st Hs H10 H11) as H. cbv zeta in H.
  destruct (guest_sigaction crash go restorer false s (Some act) false st) as [[r o] st1].
  destruct H as (_ & Ha & _). cbn [snd]. unfold mask_in_handler. rewrite Ha, Z.land_spec, Z.lor_spec.
  assert (translatable f = true /\ 0 <= macos_sig_to_linux f - 1 /\
          Z.testbit (Z.lnot (2 ^ 8 + 2 ^ 18)) (macos_sig_to_linux f - 1) = true) as (Ht & Hp & ->).
  { repeat (apply elem_of_cons in Hf as [->|Hf]); [by vm_compute..|by apply elem_of_nil in Hf]. }
  assert (Z.testbit (macos_to_linux_sigset (mac_mask act)) (macos_sig_to_linux f - 1) = true) as Hm.
  { apply to_linux_bits; [done|]. exists f. repeat split; [done..|lia]. }
  unfold with_restorer. destruct (restorer =? 0); cbn [sa_mask]; by rewrite Hm, orb_true_r.
Qed.

Lemma handler_mask_unguarded_witness :
  Z.testbit (mask_in_handler
    (guest_sigaction 100 200 0 false 30 (Some (MacosSigaction 7777 0xFFFFFFFF 0)) false (demo_sig_state 50 100)).2
    10) 3 = true.
Proof.
  apply (handler_mask_unguarded 100 200 0 30 4 (MacosSigaction 7777 0xFFFFFFFF 0) (demo_sig_state 50 100));
    [reflexivity|lia|lia|left|reflexivity].
Defined.

Lemma go_is_ready_ready tls m st : go_signal_ready st = true -> go_is_ready tls m st = Ok (true, st).
Proof. intros H. unfold go_is_ready. by rewrite H. Qed.

(** The check only ever sets its own flag. *)
Lemma go_is_ready_same tls m st ready st' :
  go_is_ready tls m st = Ok (ready, st') ->
  saved_go_handlers st' = saved_go_handlers st /\ sig_blocked st' = sig_blocked st.
Proof.
  unfold go_is_ready. destruct (go_signal_ready st); [by intros [= _ <-]|].
  destruct (tls =? 0); [by intros [= _ <-]|]. intros H. bind_inv H. destruct (a =? 0); [by injection H as _ <-|].
  bind_inv H. destruct (a0 =? 0); [by injection H as _ <-|]. bind_inv H. bind_inv H.
  by destruct (_ && _); injection H as _ <-.
Qed.

(** In a Go program every settable signal, SIGSEGV and
    SIGBUS included, is delivered through the wrapper: after the guest sets
    handler [h], the kernel's action is the wrapper, and once the runtime is
    ready the wrapper calls [h]; before that, a synchronous fault goes to the
    crash handler and any other signal is blocked until later. *)
Theorem go_signals_reach_handler (crash go restorer s h mask flags tls : Z) (m : mem) (st : sig_state)
    (si_code : option Z) :
  settable s = true -> h <> 0 -> length (saved_go_handlers st) = 32%nat ->
  let linux := macos_sig_to_linux s in
  let '(r, _, st1) := guest_sigaction crash go restorer true s (Some (MacosSigaction h mask flags)) false st in
  r = 0 /\ sa_handler (action_of st1 linux) = go /\
  forall ready st2, go_is_ready tls m st1 = Ok (ready, st2) ->
    exists d st3, go_signal_wrapper tls m linux si_code st1 = Ok (d, st3) /\
    if ready then d = CallGuest h
    else match si_code with
         | Some c => if existsb (Z.eqb c) async_codes
                     then d = Deferred /\ Z.testbit (sig_blocked st3) (linux - 1) = true
                     else d = CallCrash
         | None => d = CallCrash
         end.
Proof.
  intros Hs Hh Hlen. destruct (settable_signum s Hs) as (Eg & Hr & N4 & N9 & N19 & N6 & N14).
  unfold guest_sigaction. rewrite andb_true_r. replace ((s =? 6)) with false by lia.
  replace (s =? 14) with false by lia. rewrite !orb_false_r, andb_negb_r.
  cbn zeta. rewrite <- Eg.
  assert (install_for_guest crash go restorer true (guest_signum s) (MacosSigaction h mask flags) st =
    (Some (with_restorer restorer (SigAct go (Z.lor (Z.lor SA_SIGINFO SA_ONSTACK) SA_NODEFER)
       (if mask =? 0 then 0 else macos_to_linux_sigset mask) 0)), set_go_handler st (guest_signum s) h)) as ->.
  { unfold install_for_guest. cbn [mac_handler mac_mask]. destruct (_ || _); [done|].
    replace (guest_signum s =? 4) with false by lia.
    by replace ((guest_signum s >=? 0) && (guest_signum s <? 32)) with true by lia. }
  rewrite real_sigaction_installs by lia. set (st1 := set_actions _ _). split; [done|].
  split; [unfold action_of; cbn; rewrite lookup_insert_eq; cbn; by rewrite with_restorer_handler|].
  intros ready st2 Hready. unfold go_signal_wrapper. rewrite Hready. cbn [mbind res_bind].
  assert (saved_go_handlers st2 = <[Z.to_nat (guest_signum s) := h]> (saved_go_handlers st) /\
          sig_blocked st2 = sig_blocked st) as [Eh Eb].
  { by destruct (go_is_ready_same tls m st1 ready st2 Hready) as [-> ->]. }
  destruct ready.
  - replace ((guest_signum s >=? 0) && (guest_signum s <? 32)) with true by lia. rewrite Eh.
    rewrite (nth_lookup_Some _ _ 0 h) by (apply list_lookup_insert_eq; rewrite Hlen; lia).
    replace (h =? 0) with false by lia. eauto.
  - destruct si_code as [c|]; [|eauto]. destruct (existsb _ _); [|eauto].
    unfold defer_signal, real_pthread_sigmask. change (0 =? 0) with true. cbn iota beta zeta.
    eexists _, _. split; [reflexivity|]. split; [done|]. cbn [set_blocked sig_blocked snd]. rewrite Z.land_spec, Z.lor_spec, Z.lnot_spec by lia.
    rewrite Z.shiftl_1_l, Z.pow2_bits_true by lia. rewrite orb_true_r. cbn [andb].
    replace (2 ^ 8 + 2 ^ 18) with (Z.lor (2 ^ 8) (2 ^ 18)) by reflexivity.
    rewrite Z.lor_spec, !Z.pow2_bits_eqb by lia. lia.
Qed.

Lemma go_signals_reach_handler_witness :
  let st1 := (guest_sigaction 100 200 0 true 16 (Some (MacosSigaction 7777 0 0x40)) false
                (set_go_ready (demo_sig_state 50 100))).2 in
  exists st2, go_signal_wrapper 0x1000 ∅ 23 (Some 0) st1 = Ok (CallGuest 7777, st2).
Proof.
  pose proof (go_signals_reach_handler 100 200 0 16 7777 0 0x40 0x1000 ∅
    (set_go_ready (demo_sig_state 50 100)) (Some 0) eq_refl ltac:(lia) eq_refl) as H.
  cbv zeta in H. destruct (guest_sigaction 100 200 0 true 16 _ false _) as [[r o] st1] eqn:E.
  destruct H as (_ & _ & H).
  assert (go_signal_ready st1 = true) as Hr.
  { vm_compute in E. injection E as _ _ <-. reflexivity. }
  destruct (H true st1 (go_is_ready_ready 0x1000 ∅ st1 Hr)) as (d & st3 & H1 & ->). exists st3. exact H1.
Defined.

(** The sets a guest builds with the interposed functions
    are exact: after adding or removing a signal from 1 to 32, membership is
    as set for that signal and as before for every other, and the bytes
    behind the guest's 4-byte set are never touched. *)
Theorem guest_sigset_laws (s : sigset) (a b : Z) :
  1 <= a <= 32 -> 1 <= b <= 32 -> 0 <= set_word s ->
  exists added removed,
    sigaddset true s a = Ok added /\ sigdelset true s a = Ok removed /\
    set_rest added = set_rest s /\ set_rest removed = set_rest s /\
    sigismember true added b = (if a =? b then Ok 1 else sigismember true s b) /\
    sigismember true removed b = (if a =? b then Ok 0 else sigismember true s b) /\
    sigismember true (sigemptyset true s) b = Ok 0 /\ sigismember true (sigfillset true s) b = Ok 1.
Proof.
  intros Ha Hb Hw. unfold sigaddset, sigdelset, sigismember, bit32.
  replace ((1 <=? a) && (a <=? 32)) with true by lia.
  replace ((1 <=? b) && (b <=? 32)) with true by lia. cbn [mbind res_bind].
  eexists _, _. do 4 (split; [reflexivity|]). cbn [set_word sigemptyset sigfillset].
  rewrite !Z.shiftl_1_l, !has_pow2 by lia.
  rewrite Z.lor_spec, Z.land_spec, Z.lnot_spec, Z.pow2_bits_eqb by lia.
  replace (a - 1 =? b - 1) with (a =? b) by lia.
  assert (Z.testbit 0xFFFFFFFF (b - 1) = true) as ->.
  { change 0xFFFFFFFF with (Z.ones 32). apply Z.ones_spec_low. lia. }
  rewrite Z.testbit_0_l. destruct (a =? b); cbn [negb].
  - by rewrite orb_true_r, andb_false_r.
  - by rewrite orb_false_r, andb_true_r.
Qed.

Lemma guest_sigset_laws_witness : sigismember true (SigSet 8 [7; 7]) 4 = Ok 1.
Proof.
  destruct (guest_sigset_laws (SigSet 0 [7; 7]) 4 4) as (x & y & Hx & _ & _ & _ & Hm & _); [lia|lia|cbn; lia|].
  vm_compute in Hx. injection Hx as <-. exact Hm.
Defined.
