(* ===== verification/ThreadLocal.v ===== *)
(** * Thread-local storage in the shim

    The keys of src/shim/pthread/tls.c ([pthread_key_create],
    [pthread_setspecific], [pthread_getspecific]), which map the guest's key
    numbers to glibc keys, and the thread-local variables of Mach-O images
    (src/shim/shim_tlv.c).  glibc's keys and [calloc] are interfaces. *)
From Stdlib Require Import ZArith Lia Bool.
From stdpp Require Import base gmap list strings numbers.
From S2P Require Import Prelude.

(** ** glibc's keys *)

(** Keys and values are numbers, 0 is NULL; threads are numbers too.
    [glibc_live] holds the keys in use.  [glibc_set] gives the error number,
    0 for success: on a key in use it may fail (ENOMEM), and then changes no
    value. *)
Class GlibcTls := {
  gtls : Type;
  glibc_live : gtls -> gset Z;
  glibc_get : gtls -> Z -> Z -> Z;
  glibc_key_create : gtls -> option (Z * gtls);
  glibc_set : gtls -> Z -> Z -> Z -> Z * gtls;
  glibc_create_fresh : forall g k g', glibc_key_create g = Some (k, g') ->
    (k ∉ glibc_live g) /\ glibc_live g' = {[k]} ∪ glibc_live g /\
    forall t j, glibc_get g' t j = if decide (j = k) then 0 else glibc_get g t j;
  glibc_set_works : forall g t k v, k ∈ glibc_live g ->
    let '(r, g') := glibc_set g t k v in
    glibc_live g' = glibc_live g /\
    forall t' k', glibc_get g' t' k' =
      if decide (r = 0 /\ t' = t /\ k' = k) then v else glibc_get g t' k'
}.

Definition MACIFY_MAX_KEYS : Z := 256.
Definition EAGAIN : Z := 11.
Definition EINVAL : Z := 22.

Section tls.
  Context `{GlibcTls}.

(** [macify_next_key], [glibc_tls_keys], [glibc_key_used],
    [macify_destructors] and glibc's own state. *)
Record tls_state := TlsState {
  next_key : Z;
  glibc_tls_keys : list Z;
  glibc_key_used : list bool;
  destructors : list Z;
  tls_glibc : gtls
}.

Definition tls_start (g : gtls) : tls_state :=
  TlsState 0 (replicate 256 0) (replicate 256 false) (replicate 256 0) g.

(** The result and the key written, if any; the counter is a C [int]. *)
Definition pthread_key_create (destructor : Z) (s : tls_state) : res (Z * option Z * tls_state) :=
  let k := next_key s in
  if k =? 2 ^ 31 - 1 then Undef else
  let s := TlsState (k + 1) (glibc_tls_keys s) (glibc_key_used s) (destructors s) (tls_glibc s) in
  if k >=? MACIFY_MAX_KEYS then Ok (EAGAIN, None, s) else
  match glibc_key_create (tls_glibc s) with
  | None => Ok (EAGAIN, None, s)
  | Some (gk, g) =>
      let i := Z.to_nat k in
      Ok (0, Some k, TlsState (next_key s) (<[i := gk]> (glibc_tls_keys s))
                       (<[i := true]> (glibc_key_used s)) (<[i := destructor]> (destructors s)) g)
  end.

(** The glibc key behind a guest key. *)
Definition mapped_key (s : tls_state) (key : Z) : option Z :=
  let k := u32 key in
  if (k >=? MACIFY_MAX_KEYS) || negb (nth (Z.to_nat k) (glibc_key_used s) false) then None
  else Some (nth (Z.to_nat k) (glibc_tls_keys s) 0).

Definition pthread_setspecific (thread key value : Z) (s : tls_state) : Z * tls_state :=
  match mapped_key s key with
  | None => (EINVAL, s)
  | Some gk =>
      let '(r, g) := glibc_set (tls_glibc s) thread gk value in
      (r, TlsState (next_key s) (glibc_tls_keys s) (glibc_key_used s) (destructors s) g)
  end.

Definition pthread_getspecific (thread key : Z) (s : tls_state) : Z :=
  match mapped_key s key with
  | None => 0
  | Some gk => glibc_get (tls_glibc s) thread gk
  end.

(** ** Lemmas *)

Record tls_wf (s : tls_state) : Prop := {
  wf_next : 0 <= next_key s;
  wf_keys : length (glibc_tls_keys s) = 256%nat;
  wf_used : length (glibc_key_used s) = 256%nat;
  wf_below : forall k, glibc_key_used s !! k = Some true -> Z.of_nat k < next_key s;
  wf_live : forall k gk, glibc_key_used s !! k = Some true -> glibc_tls_keys s !! k = Some gk ->
              gk ∈ glibc_live (tls_glibc s);
  wf_inj : forall j k gk, glibc_key_used s !! j = Some true -> glibc_key_used s !! k = Some true ->
              glibc_tls_keys s !! j = Some gk -> glibc_tls_keys s !! k = Some gk -> j = k
}.

Lemma tls_start_wf g : tls_wf (tls_start g).
Proof.
  assert (forall k, replicate 256 false !! k = Some true -> False) as Hno
    by (intros k [? _]%lookup_replicate; done).
  split; cbn [tls_start next_key glibc_tls_keys glibc_key_used];
    rewrite ?length_replicate; try done; try lia; intros; exfalso; eauto.
Qed.

(** The guest keys that work, with the glibc keys behind them. *)
Lemma mapped_key_spec s key gk :
  tls_wf s -> 0 <= key < 2 ^ 32 ->
  (mapped_key s key = Some gk <->
   key < 256 /\ glibc_key_used s !! Z.to_nat key = Some true /\ glibc_tls_keys s !! Z.to_nat key = Some gk).
Proof.
  intros Hwf Hk. unfold mapped_key. rewrite u32_small by lia.
  destruct (Z.geb_spec key MACIFY_MAX_KEYS) as [Hge|Hlt]; unfold MACIFY_MAX_KEYS in *; cbn [orb].
  - split; [done|lia].
  - destruct (lookup_lt_is_Some_2 (glibc_key_used s) (Z.to_nat key)) as [b Hb]; [rewrite (wf_used s Hwf); lia|].
    destruct (lookup_lt_is_Some_2 (glibc_tls_keys s) (Z.to_nat key)) as [x Hx]; [rewrite (wf_keys s Hwf); lia|].
    rewrite (nth_lookup_Some _ _ false b Hb), (nth_lookup_Some _ _ 0 x Hx), Hb, Hx.
    destruct b; cbn [negb].
    + split; [by intros [= ->]|]. by intros (_ & _ & [= ->]).
    + split; [done|]. by intros (_ & ? & _).
Qed.

Lemma key_create_cases d s r k s' :
  pthread_key_create d s = Ok (r, k, s') ->
  next_key s' = next_key s + 1 /\
  (r = EAGAIN /\ k = None /\ glibc_tls_keys s' = glibc_tls_keys s /\ glibc_key_used s' = glibc_key_used s /\
   tls_glibc s' = tls_glibc s \/
   exists gk, r = 0 /\ k = Some (next_key s) /\ next_key s < 256 /\
     glibc_key_create (tls_glibc s) = Some (gk, tls_glibc s') /\
     glibc_tls_keys s' = <[Z.to_nat (next_key s) := gk]> (glibc_tls_keys s) /\
     glibc_key_used s' = <[Z.to_nat (next_key s) := true]> (glibc_key_used s)).
Proof.
  unfold pthread_key_create. destruct (_ =? _); [done|].
  destruct (Z.geb_spec (next_key s) MACIFY_MAX_KEYS) as [|Hlt].
  { intros [= <- <- <-]. split; [done|]. by left. }
  cbn [tls_glibc]. destruct (glibc_key_create (tls_glibc s)) as [[gk g]|].
  - intros [= <- <- <-]. split; [done|]. right. by exists gk.
  - intros [= <- <- <-]. split; [done|]. by left.
Qed.

Lemma lookup_insert_or {A} (l : list A) i x j y :
  <[i := x]> l !! j = Some y -> (j = i /\ y = x) \/ (j <> i /\ l !! j = Some y).
Proof. intros H0. apply list_lookup_insert_Some in H0. naive_solver. Qed.

Lemma key_create_wf d s r k s' : tls_wf s -> pthread_key_create d s = Ok (r, k, s') -> tls_wf s'.
Proof.
  intros Hwf Hc. apply key_create_cases in Hc as [En [(_ & _ & Ek & Eu & Eg)|(gk & _ & _ & Hlt & Hg & Ek & Eu)]].
  - destruct Hwf as [H0 H1 H2 H3 H4 H5]. split; rewrite ?En, ?Ek, ?Eu, ?Eg; auto; [lia|].
    intros j Hj. specialize (H3 j Hj). lia.
  - destruct (glibc_create_fresh _ _ _ Hg) as (Hfresh & Hlive & _).
    destruct Hwf as [H0 H1 H2 H3 H4 H5]. set (n := Z.to_nat (next_key s)) in *.
    split; rewrite ?En, ?Ek, ?Eu, ?Hlive; rewrite ?length_insert; auto; [lia| | |].
    + intros j [[-> _]|[_ Hj]]%lookup_insert_or; [lia|]. specialize (H3 j Hj). lia.
    + intros j x [[-> _]|[Hne Hj]]%lookup_insert_or [[? ->]|[? Hx]]%lookup_insert_or; try done; [set_solver|].
      specialize (H4 j x Hj Hx). set_solver.
    + intros i j x [[-> _]|[Hi Hui]]%lookup_insert_or [[-> _]|[Hj Huj]]%lookup_insert_or
        [[? ->]|[? Hxi]]%lookup_insert_or [[? ?]|[? Hxj]]%lookup_insert_or; subst; try done.
      * exfalso. apply Hfresh. by apply (H4 j).
      * exfalso. apply Hfresh. by apply (H4 i).
      * by apply (H5 i j x).
Qed.

(** Guest keys that work and threads, with the values: the view of a guest. *)
Definition key_live (s : tls_state) (key : Z) : Prop :=
  0 <= key < 2 ^ 32 /\ is_Some (mapped_key s key).

Lemma mapped_key_other g s key :
  mapped_key (TlsState (next_key s) (glibc_tls_keys s) (glibc_key_used s) (destructors s) g) key =
  mapped_key s key.
Proof. done. Qed.

Lemma mapped_key_live s key gk :
  tls_wf s -> 0 <= key < 2 ^ 32 -> mapped_key s key = Some gk -> gk ∈ glibc_live (tls_glibc s).
Proof. intros Hwf Hk (_ & Hu & Hx)%mapped_key_spec; [|done|done]. by apply (wf_live s Hwf _ _ Hu Hx). Qed.

Lemma mapped_key_inj s j k gk :
  tls_wf s -> 0 <= j < 2 ^ 32 -> 0 <= k < 2 ^ 32 ->
  mapped_key s j = Some gk -> mapped_key s k = Some gk -> j = k.
Proof.
  intros Hwf Hj Hk (_ & Hu & Hx)%mapped_key_spec (_ & Hu' & Hx')%mapped_key_spec; try done.
  apply Z2Nat.inj; [lia|lia|]. by apply (wf_inj s Hwf _ _ gk).
Qed.
End tls.
Arguments tls_state : clear implicits.
Arguments tls_state {_}.

(** The abstract view of thread-local storage: which keys exist, and the
    value of each in each thread. *)
Definition tls_view `{GlibcTls} (s : tls_state) (thread key : Z) : option Z :=
  if decide (0 <= key < 2 ^ 32) then
    match mapped_key s key with Some _ => Some (pthread_getspecific thread key s) | None => None end
  else None.

(** A glibc that numbers its keys from 0, as an instance: the values of each
    key by thread.  There is memory for the first 32 keys only. *)
Abbreviation demo_gtls := (list (gmap Z Z)).

Definition demo_live (g : demo_gtls) : gset Z := list_to_set (seqZ 0 (Z.of_nat (length g))).

Lemma elem_demo_live g k : k ∈ demo_live g <-> 0 <= k < Z.of_nat (length g).
Proof. unfold demo_live. rewrite elem_of_list_to_set, elem_of_seqZ. lia. Qed.

Definition demo_get (g : demo_gtls) (t k : Z) : Z :=
  if k <? 0 then 0 else default 0 (default ∅ (g !! Z.to_nat k) !! t).

Definition ENOMEM : Z := 12.

Definition demo_set (g : demo_gtls) (t k v : Z) : Z * demo_gtls :=
  if negb ((0 <=? k) && (k <? Z.of_nat (length g))) then (EINVAL, g) else
  if 32 <=? k then (ENOMEM, g)
  else (0, <[Z.to_nat k := <[t := v]> (default ∅ (g !! Z.to_nat k))]> g).

Lemma demo_create_fresh (g : demo_gtls) k g' :
  Some (Z.of_nat (length g), g ++ [∅]) = Some (k, g') ->
  ~ (k ∈ demo_live g) /\ demo_live g' = {[k]} ∪ demo_live g /\
  forall t j, demo_get g' t j = if decide (j = k) then 0 else demo_get g t j.
Proof.
  intros [= <- <-]. split; [rewrite elem_demo_live; lia|]. split.
  - apply set_eq. intros x. rewrite elem_of_union, elem_of_singleton, !elem_demo_live, length_app. cbn. lia.
  - intros t j. unfold demo_get. destruct (Z.ltb_spec j 0); [by case_decide|].
    destruct (decide (j = Z.of_nat (length g))) as [->|Hne].
    + rewrite Nat2Z.id, lookup_app_r, Nat.sub_diag by lia. cbn. by rewrite lookup_empty.
    + destruct (decide (j < Z.of_nat (length g))) as [Hlt|Hge].
      * by rewrite lookup_app_l by lia.
      * by rewrite !lookup_ge_None_2 by (rewrite ?length_app; cbn; lia).
Qed.

Lemma demo_set_works (g : demo_gtls) t k v :
  k ∈ demo_live g ->
  let '(r, g') := demo_set g t k v in
  demo_live g' = demo_live g /\
  forall t' k', demo_get g' t' k' = if decide (r = 0 /\ t' = t /\ k' = k) then v else demo_get g t' k'.
Proof.
  intros Hk%elem_demo_live. unfold demo_set.
  replace ((0 <=? k) && (k <? Z.of_nat (length g))) with true by lia. cbn [negb].
  destruct (Z.leb_spec 32 k).
  { split; [done|]. intros t' k'. rewrite decide_False; [done|]. by intros [? _]. }
  split; [unfold demo_live; by rewrite length_insert|].
  intros t' k'. unfold demo_get. destruct (Z.ltb_spec k' 0); [rewrite decide_False by lia; done|].
  destruct (decide (k' = k)) as [->|Hne].
  - rewrite list_lookup_insert_eq by lia. cbn [from_option id]. destruct (decide (t' = t)) as [->|Ht].
    + by rewrite lookup_insert_eq, decide_True.
    + by rewrite lookup_insert_ne, decide_False by naive_solver.
  - by rewrite list_lookup_insert_ne, decide_False by (lia || naive_solver).
Qed.

Definition demo_glibc : GlibcTls := {|
  gtls := demo_gtls;
  glibc_live := demo_live;
  glibc_get := demo_get;
  glibc_key_create g := Some (Z.of_nat (length g), g ++ [∅]);
  glibc_set := demo_set;
  glibc_create_fresh := demo_create_fresh;
  glibc_set_works := demo_set_works
|}.

Lemma tls_refines_lemma `{GlibcTls} (s : tls_state) :
  tls_wf s ->
  (forall d r k s', pthread_key_create d s = Ok (r, Some k, s') ->
     r = 0 /\ tls_wf s' /\ (forall t, tls_view s t k = None /\ tls_view s' t k = Some 0) /\
     forall t j, j <> k -> tls_view s' t j = tls_view s t j) /\
  (forall d r s', pthread_key_create d s = Ok (r, None, s') ->
     r = EAGAIN /\ tls_wf s' /\ forall t j, tls_view s' t j = tls_view s t j) /\
  (forall t k v, 0 <= k < 2 ^ 32 ->
     let '(r, s') := pthread_setspecific t k v s in
     match tls_view s t k with
     | Some _ => (exists gk, mapped_key s k = Some gk /\ r = (glibc_set (tls_glibc s) t gk v).1) /\ tls_wf s' /\
         forall t' k', tls_view s' t' k' =
           if decide (r = 0 /\ t' = t /\ k' = k) then Some v else tls_view s t' k'
     | None => r = EINVAL /\ s' = s
     end) /\
  (forall t k, 0 <= k < 2 ^ 32 -> pthread_getspecific t k s = default 0 (tls_view s t k)).
Proof.
  intros Hwf. split; [|split; [|split]].
  - intros d r k s' Hc. pose proof (key_create_wf _ _ _ _ _ Hwf Hc) as Hwf'.
    apply key_create_cases in Hc as [En [(_ & [=] & _)|(gk & -> & [= ->] & Hlt & Hg & Ek & Eu)]].
    split; [done|]. split; [done|].
    destruct (glibc_create_fresh _ _ _ Hg) as (Hfresh & _ & Hval). pose proof (wf_next s Hwf) as H0.
    assert (glibc_key_used s !! Z.to_nat (next_key s) <> Some true) as Hnew
      by (intros Hu; specialize (wf_below s Hwf _ Hu); lia).
    assert (mapped_key s' (next_key s) = Some gk) as Hm'.
    { apply mapped_key_spec; [done|lia|]. rewrite Ek, Eu.
      rewrite !list_lookup_insert_eq; rewrite ?(wf_keys s Hwf), ?(wf_used s Hwf); [auto|lia|lia]. }
    split.
    + intros t. unfold tls_view. rewrite !decide_True by lia. split.
      * destruct (mapped_key s (next_key s)) as [x|] eqn:E; [|done].
        apply mapped_key_spec in E as (_ & E & _); [done|done|lia].
      * unfold pthread_getspecific. by rewrite Hm', Hval, decide_True.
    + intros t j Hj. unfold tls_view. case_decide as Hr; [|done].
      assert (mapped_key s' j = mapped_key s j) as Em.
      { apply option_eq. intros x. rewrite !mapped_key_spec, Ek, Eu by done.
        rewrite !list_lookup_insert_ne by lia. done. }
      unfold pthread_getspecific. rewrite Em. destruct (mapped_key s j) as [x|] eqn:E; [|done].
      rewrite Hval, decide_False; [done|]. intros ->. by apply Hfresh, (mapped_key_live s j).
  - intros d r s' Hc. pose proof (key_create_wf _ _ _ _ _ Hwf Hc) as Hwf'.
    apply key_create_cases in Hc as [En [(-> & _ & Ek & Eu & Eg)|(gk & _ & [=] & _)]].
    split; [done|]. split; [done|]. intros t j.
    unfold tls_view, pthread_getspecific, mapped_key. by rewrite Ek, Eu, Eg.
  - intros t k v Hk. unfold pthread_setspecific, tls_view at 1. rewrite decide_True by done.
    destruct (mapped_key s k) as [gk|] eqn:E; [|done].
    pose proof (glibc_set_works (tls_glibc s) t gk v ltac:(by eapply mapped_key_live)) as Hset.
    destruct (glibc_set (tls_glibc s) t gk v) as [r g'] eqn:Er. destruct Hset as [Hlive Hval].
    split; [exists gk; by rewrite Er|]. split.
    { destruct Hwf. split; cbn; auto. intros. rewrite Hlive. eauto. }
    intros t' k'. unfold tls_view, pthread_getspecific. rewrite mapped_key_other. cbn [tls_glibc].
    destruct (decide (0 <= k' < 2 ^ 32)) as [Hk'|Hk'].
    + destruct (mapped_key s k') as [x|] eqn:E'.
      * rewrite Hval. destruct (decide (r = 0 /\ t' = t /\ k' = k)) as [(-> & -> & ->)|Hne].
        -- rewrite E in E'. injection E' as <-. by rewrite decide_True.
        -- rewrite decide_False; [done|]. intros (-> & -> & ->). apply Hne. split_and!; [done..|].
           by apply (mapped_key_inj s k' k gk).
      * rewrite decide_False; [done|]. intros (_ & _ & ->). congruence.
    + rewrite decide_False; [done|]. intros (_ & _ & ->). done.
  - intros t k Hk. unfold tls_view. rewrite decide_True by done. unfold pthread_getspecific.
    by destruct (mapped_key s k).
Qed.

(** ** Properties *)

(** C19 (refinement): the shim's keys implement thread-local storage as the
    guest expects it, seen through [tls_view], over glibc's keys: a new key
    existed in no thread before and holds NULL in all afterwards, and other
    keys keep their values; a creation that fails gives EAGAIN and changes no
    key; setting a value under a key answers with glibc's own error number for
    the glibc key behind it, and, exactly when that is 0, the value is read
    back by that thread under that key, with every other value as it was; an
    unknown key is EINVAL and NULL. *)
Theorem tls_refines `{GlibcTls} (s : tls_state) :
  tls_wf s ->
  (forall d r k s', pthread_key_create d s = Ok (r, Some k, s') ->
     r = 0 /\ tls_wf s' /\ (forall t, tls_view s t k = None /\ tls_view s' t k = Some 0) /\
     forall t j, j <> k -> tls_view s' t j = tls_view s t j) /\
  (forall d r s', pthread_key_create d s = Ok (r, None, s') ->
     r = EAGAIN /\ tls_wf s' /\ forall t j, tls_view s' t j = tls_view s t j) /\
  (forall t k v, 0 <= k < 2 ^ 32 ->
     let '(r, s') := pthread_setspecific t k v s in
     match tls_view s t k with
     | Some _ => (exists gk, mapped_key s k = Some gk /\ r = (glibc_set (tls_glibc s) t gk v).1) /\ tls_wf s' /\
         forall t' k', tls_view s' t' k' =
           if decide (r = 0 /\ t' = t /\ k' = k) then Some v else tls_view s t' k'
     | None => r = EINVAL /\ s' = s
     end) /\
  (forall t k, 0 <= k < 2 ^ 32 -> pthread_getspecific t k s = default 0 (tls_view s t k)).
Proof. apply tls_refines_lemma. Qed.

Lemma tls_refines_witness :
  exists s1, pthread_key_create (H := demo_glibc) 0 (tls_start (H := demo_glibc) ([] : demo_gtls)) =
      Ok (0, Some 0, s1) /\
    tls_view s1 1 0 = Some 0 /\ tls_view (pthread_setspecific 1 0 77 s1).2 2 0 = Some 0 /\
    tls_view (pthread_setspecific 1 0 77 s1).2 1 0 = Some 77.
Proof.
  eexists. split; [reflexivity|].
  pose proof (tls_refines (H := demo_glibc) (tls_start (H := demo_glibc) ([] : demo_gtls))
    (tls_start_wf (H := demo_glibc) _)) as (Hc & _).
  destruct (Hc 0 0 0 _ eq_refl) as (_ & Hwf1 & Hv & _).
  split; [apply Hv|].
  pose proof (tls_refines (H := demo_glibc) _ Hwf1) as (_ & _ & Hs & _).
  specialize (Hs 1 0 77 ltac:(lia)). cbv zeta in Hs. rewrite (proj2 (Hv 1)) in Hs.
  destruct (pthread_setspecific 1 0 77 _) as [r s'] eqn:E.
  assert (r = 0) as -> by (vm_compute in E; congruence).
  destruct Hs as (_ & _ & Hv'). cbn [snd]. split.
  - rewrite Hv', decide_False by lia. apply Hv.
  - by rewrite Hv', decide_True.
Defined.

(** ** Thread-local variables: src/shim/shim_tlv.c *)

(** [calloc] as documented: fresh zero bytes, the rest of memory as it was. *)
Class Calloc := {
  calloc : mem -> Z -> option (Z * mem);
  calloc_ok : forall m n a m', calloc m n = Some (a, m') ->
    0 < a /\ a + n < 2 ^ 64 /\
    (forall x, a <= x < a + n -> m !! x = None /\ m' !! x = Some 0) /\
    forall x, x < a \/ a + n <= x -> m' !! x = m !! x
}.

Section tlv.
  Context `{GlibcTls, Calloc}.

(** [tlv_data_base], [tlv_data_size], [tlv_bss_size], [tlv_block_once],
    [tlv_block_key], the keys, memory, and [tlv_recursion_depth] by thread. *)
Record tlv_state := TlvState {
  tlv_data_base : Z;
  tlv_data_size : Z;
  tlv_bss_size : Z;
  tlv_once : bool;
  tlv_block_key : Z;
  tlv_keys : tls_state;
  tlv_mem : mem;
  tlv_depth : gmap Z Z
}.

Definition set_tlv_info (data_base data_size bss_size : Z) (s : tlv_state) : tlv_state :=
  TlvState data_base data_size bss_size (tlv_once s) (tlv_block_key s) (tlv_keys s) (tlv_mem s) (tlv_depth s).

Definition with_tlv (s : tlv_state) (once : bool) (key : Z) (keys : tls_state) (m : mem) : tlv_state :=
  TlvState (tlv_data_base s) (tlv_data_size s) (tlv_bss_size s) once key keys m (tlv_depth s).

(** [pthread_once(&tlv_block_once, tlv_block_init)]; the result of
    [pthread_key_create] is not looked at. *)
Definition tlv_block_init (s : tlv_state) : res tlv_state :=
  if tlv_once s then Ok s else
  '(_, k, keys) ← pthread_key_create 0 (tlv_keys s);
  Ok (with_tlv s true (default (tlv_block_key s) k) keys (tlv_mem s)).

Definition get_tlv_block (thread : Z) (s : tlv_state) : res (Z * tlv_state) :=
  s ← tlv_block_init s;
  let block := pthread_getspecific thread (tlv_block_key s) (tlv_keys s) in
  if negb (block =? 0) then Ok (block, s) else
  let total := u64 (tlv_data_size s + tlv_bss_size s) in
  let total := if total =? 0 then 4096 else total in
  let '(block, m) := match calloc (tlv_mem s) total with Some (a, m) => (a, m) | None => (0, tlv_mem s) end in
  m ← (if negb (tlv_data_base s =? 0) && (tlv_data_size s >? 0) then
         bs ← of_option (get_bytes (mem_get m) (tlv_data_base s) (Z.to_nat (tlv_data_size s)));
         store m block bs
       else Ok m);
  let '(_, keys) := pthread_setspecific thread (tlv_block_key s) block (tlv_keys s) in
  Ok (block, with_tlv s true (tlv_block_key s) keys m).

Definition set_depth (s : tlv_state) (thread d : Z) : tlv_state :=
  TlvState (tlv_data_base s) (tlv_data_size s) (tlv_bss_size s) (tlv_once s) (tlv_block_key s)
    (tlv_keys s) (tlv_mem s) (<[thread := d]> (tlv_depth s)).

(** [__tlv_bootstrap_impl(desc)]; [None] is [_exit(1)]. *)
Definition tlv_bootstrap_impl (thread desc : Z) (s : tlv_state) : res (option (Z * tlv_state)) :=
  let depth := default 0 (tlv_depth s !! thread) + 1 in
  let s := set_depth s thread depth in
  if depth >? 10 then Ok None else
  '(block, s) ← get_tlv_block thread s;
  offset ← load64 (tlv_mem s) (desc + 16);
  Ok (Some (u64 (block + offset), set_depth s thread (default 0 (tlv_depth s !! thread) - 1))).

Lemma get_tlv_block_known thread s b :
  tlv_once s = true -> pthread_getspecific thread (tlv_block_key s) (tlv_keys s) = b -> b <> 0 ->
  get_tlv_block thread s = Ok (b, s).
Proof.
  intros Ho Hb Hne. unfold get_tlv_block, tlv_block_init. rewrite Ho. cbn [mbind res_bind]. rewrite Hb.
  by replace (b =? 0) with false by lia.
Qed.

Lemma get_bytes_defined g a n bs :
  get_bytes g a n = Some bs -> forall x, a <= x < a + Z.of_nat n -> is_Some (g x).
Proof.
  revert a bs. induction n as [|n IH]; intros a bs; cbn; [lia|].
  destruct (g a) eqn:E; [|done]. destruct (get_bytes g (a + 1) n) eqn:E'; [|done]. intros _ x Hx.
  destruct (decide (x = a)) as [->|Hne]; [by rewrite E|]. apply (IH (a + 1) l E'). lia.
Qed.

(** What the block of a thread holds: the image of the initial data, then
    zeros. *)
Record tlv_block_at (image : list Z) (bss b : Z) (m : mem) : Prop := {
  tlv_data : get_bytes (mem_get m) b (length image) = Some image;
  tlv_bss : forall x, b + buf_len image <= x < b + buf_len image + bss -> m !! x = Some 0
}.

Lemma tlv_fill image bss base m m1 a :
  get_bytes (mem_get m) base (length image) = Some image -> 0 <= bss ->
  calloc m (buf_len image + bss) = Some (a, m1) ->
  exists m2, (bs ← of_option (get_bytes (mem_get m1) base (length image)); store m1 a bs) = Ok m2 /\
    tlv_block_at image bss a m2 /\ forall x v, m !! x = Some v -> m2 !! x = Some v.
Proof.
  intros Hi Hbss Hc. destruct (calloc_ok _ _ _ _ Hc) as (Ha & Hend & Hin & Hout).
  pose proof (buf_len_nonneg image) as Hn.
  assert (forall x v, m !! x = Some v -> m1 !! x = Some v) as Hkeep.
  { intros x v Hx. destruct (decide (a <= x < a + (buf_len image + bss))) as [Hr|Hr].
    - destruct (Hin x Hr) as [Hnone _]. congruence.
    - by rewrite Hout by lia. }
  assert (get_bytes (mem_get m1) base (length image) = Some image) as ->.
  { rewrite <- Hi. apply get_bytes_ext. intros x Hx. unfold mem_get.
    destruct (get_bytes_defined _ _ _ _ Hi x Hx) as [v Hv]. unfold mem_get in Hv. rewrite Hv. by apply Hkeep. }
  cbn [of_option mbind res_bind]. exists (put_bytes m1 a image). split.
  { unfold store. replace (mapped m1 a (length image)) with true; [done|]. symmetry.
    apply mapped_spec. intros x Hx. unfold buf_len in *. destruct (Hin x) as [_ ->]; [lia|]. eauto. }
  split; [split|].
  - apply get_bytes_put_same.
  - intros x Hx. rewrite lookup_put_bytes. unfold buf_len in *. rewrite decide_False by lia.
    apply Hin. lia.
  - intros x v Hx. rewrite lookup_put_bytes. case_decide as Hd; [|by apply Hkeep].
    exfalso. unfold buf_len in *. destruct (Hin x) as [Hnone _]; [lia|]. congruence.
Qed.
End tlv.

(** The first access of a thread to a thread-local variable
    gives it a block of its own, a copy of the image's initial data followed
    by zeros, in fresh memory, when glibc has room to store it; later accesses find the same block and change
    nothing; the blocks of other threads stay as they are. *)
Theorem tlv_block_per_thread `{GlibcTls, Calloc} (s : tlv_state) (t : Z) (image : list Z)
    (b : Z) (m1 : mem) :
  tlv_once s = true -> tls_wf (tlv_keys s) -> 0 <= tlv_block_key s < 2 ^ 32 ->
  tls_view (tlv_keys s) t (tlv_block_key s) = Some 0 ->
  0 < tlv_data_base s -> 0 < buf_len image -> 0 <= tlv_bss_size s -> tlv_data_size s = buf_len image ->
  tlv_data_size s + tlv_bss_size s < 2 ^ 64 ->
  get_bytes (mem_get (tlv_mem s)) (tlv_data_base s) (length image) = Some image ->
  calloc (tlv_mem s) (tlv_data_size s + tlv_bss_size s) = Some (b, m1) ->
  (pthread_setspecific t (tlv_block_key s) b (tlv_keys s)).1 = 0 ->
  exists s', get_tlv_block t s = Ok (b, s') /\
    tlv_block_at image (tlv_bss_size s) b (tlv_mem s') /\
    (forall x v, tlv_mem s !! x = Some v -> tlv_mem s' !! x = Some v) /\
    get_tlv_block t s' = Ok (b, s') /\
    forall t', t' <> t -> tls_view (tlv_keys s') t' (tlv_block_key s') = tls_view (tlv_keys s) t' (tlv_block_key s).
Proof.
  intros Ho Hwf Hk Hv Hbase Hpos Hbss Hsize Htot Himg Hc Hroom.
  destruct (calloc_ok _ _ _ _ Hc) as (Hb & _ & _ & _).
  rewrite Hsize in Hc, Htot. destruct (tlv_fill image _ _ _ _ _ Himg Hbss Hc) as (m2 & Hfill & Hblk & Hkeep).
  destruct (tls_refines_lemma (tlv_keys s) Hwf) as (_ & _ & Hset & Hget).
  specialize (Hset t (tlv_block_key s) b Hk). rewrite Hv in Hset.
  destruct (pthread_setspecific t (tlv_block_key s) b (tlv_keys s)) as [r keys] eqn:Er. cbn in Hroom. subst r.
  destruct Hset as (_ & Hwf' & Hview).
  exists (with_tlv s true (tlv_block_key s) keys m2). split.
  { unfold get_tlv_block, tlv_block_init. rewrite Ho. cbn [mbind res_bind]. rewrite (Hget t _ Hk), Hv.
    cbn [from_option id]. change (0 =? 0) with true. cbn [negb].
    rewrite Hsize, u64_small by lia. replace (buf_len image + tlv_bss_size s =? 0) with false by lia.
    rewrite Hc. replace (tlv_data_base s =? 0) with false by lia.
    replace (buf_len image >? 0) with true by lia. cbn [negb andb].
    replace (Z.to_nat (buf_len image)) with (length image) by (unfold buf_len; lia).
    rewrite Hfill. cbn [mbind res_bind]. by rewrite Er. }
  split; [exact Hblk|]. split; [exact Hkeep|]. split.
  - apply get_tlv_block_known; [done| |lia]. cbn.
    destruct (tls_refines_lemma keys Hwf') as (_ & _ & _ & Hget').
    by rewrite (Hget' t _ Hk), Hview, decide_True.
  - intros t' Hne. cbn. by rewrite Hview, decide_False by naive_solver.
Qed.

(** An allocator with one place, 0x10000, as an instance. *)
Definition demo_alloc (m : mem) (n : Z) : option (Z * mem) :=
  if decide (map_Forall (fun x _ => x < 0x10000 \/ 0x10000 + n <= x) m /\ 0 <= n < 2 ^ 32)
  then Some (0x10000, put_bytes m 0x10000 (replicate (Z.to_nat n) 0)) else None.

Lemma demo_alloc_ok m n a m' :
  demo_alloc m n = Some (a, m') ->
  0 < a /\ a + n < 2 ^ 64 /\
  (forall x, a <= x < a + n -> m !! x = None /\ m' !! x = Some 0) /\
  forall x, x < a \/ a + n <= x -> m' !! x = m !! x.
Proof.
  unfold demo_alloc. case_decide as Hd; [|done]. destruct Hd as [Hf Hn]. intros [= <- <-].
  split; [lia|]. split; [lia|]. split; intros x Hx; rewrite lookup_put_bytes, length_replicate.
  - split.
    + destruct (m !! x) as [v|] eqn:E; [|done]. specialize (Hf x v E). cbn in Hf. lia.
    + rewrite decide_True by lia. apply lookup_replicate_2. lia.
  - by rewrite decide_False by lia.
Qed.

Definition demo_calloc : Calloc := {| calloc := demo_alloc; calloc_ok := demo_alloc_ok |}.

(** A thread-local section with the bytes 7 and 8 and six zeros. *)
Definition demo_tlv (keys : @tls_state demo_glibc) : @tlv_state demo_glibc :=
  TlvState (H := demo_glibc) 0x2000 2 6 true 0 keys (put_bytes ∅ 0x2000 [7; 8]) ∅.

Lemma tlv_block_per_thread_witness :
  exists keys s',
    pthread_key_create (H := demo_glibc) 0 (tls_start (H := demo_glibc) ([] : demo_gtls)) = Ok (0, Some 0, keys) /\
    get_tlv_block (H := demo_glibc) (H0 := demo_calloc) 1 (demo_tlv keys) = Ok (0x10000, s') /\
    tlv_mem (H := demo_glibc) s' !! 0x10001 = Some 8.
Proof.
  eexists.
  destruct (tls_refines_lemma (H := demo_glibc) (tls_start (H := demo_glibc) ([] : demo_gtls))
    (tls_start_wf (H := demo_glibc) _)) as (Hc & _).
  destruct (Hc 0 0 0 _ eq_refl) as (_ & Hwf & Hv & _).
  destruct (tlv_block_per_thread (H := demo_glibc) (H0 := demo_calloc) (demo_tlv _) 1 [7; 8] 0x10000 _
    eq_refl Hwf ltac:(cbn; lia) (proj2 (Hv 1)) ltac:(cbn; lia) eq_refl ltac:(cbn; lia) eq_refl ltac:(cbn; lia)
    eq_refl ltac:(vm_compute; reflexivity) ltac:(vm_compute; reflexivity)) as (s' & Hg & [Hd _] & _).
  exists s'. split; [reflexivity|]. split; [exact Hg|].
  cbn in Hd. unfold mem_get in Hd. change (0x10000 + 1) with 0x10001 in Hd.
  destruct (tlv_mem s' !! 0x10000); [|discriminate Hd].
  destruct (tlv_mem s' !! 0x10001); [|discriminate Hd]. injection Hd as _ ->. reflexivity.
Defined.
