(* ===== verification/ThreadSync.v ===== *)
(** * Locks, condition variables and thread attributes in the shim

    src/shim/pthread/sync.c (objects a guest initialised statically are
    converted in place to glibc's), mutexattr.c, attr.c (the guest's 16-byte
    attribute points to a glibc one), and the thread creation and clocks of
    create.c and core.c.  glibc's functions are parameters; an object is its
    list of bytes. *)
From Stdlib Require Import ZArith Lia Bool.
From stdpp Require Import base gmap list strings numbers.
From S2P Require Import Prelude PrefixPath ShimCore ShimSignal.

(** ** Static objects: src/shim/pthread/sync.c *)

Definition MACOS_PTHREAD_MUTEX_SIG : Z := 0x32AAABA7.
Definition MACOS_PTHREAD_RECURSIVE_SIG : Z := 0x32AAABA2.
Definition MACOS_PTHREAD_ERRORCHECK_SIG : Z := 0x32AAABA1.
Definition MACOS_PTHREAD_FIRSTFIT_SIG : Z := 0x32AAABA3.
Definition MACOS_PTHREAD_COND_SIG : Z := 0x3CB0B1BB.
Definition MACOS_PTHREAD_RWLOCK_SIG : Z := 0x2DA8B3B4.

(** [*(unsigned int * )obj] *)
Definition object_sig (obj : list Z) : Z := le_value (take 4 obj).

(** glibc's initializers on x86-64: 40 bytes with the kind at offset 16
    (normal 0, recursive 1, errorcheck 2, adaptive 3), and 48 and 56 zero
    bytes. *)
Definition glibc_mutex (kind : Z) : list Z := replicate 16 0 ++ le_bytes 4 kind ++ replicate 20 0.
Definition glibc_cond : list Z := replicate 48 0.
Definition glibc_rwlock : list Z := replicate 56 0.

Definition mutex_kind (sig : Z) : option Z :=
  if sig =? MACOS_PTHREAD_MUTEX_SIG then Some 0
  else if sig =? MACOS_PTHREAD_RECURSIVE_SIG then Some 1
  else if sig =? MACOS_PTHREAD_ERRORCHECK_SIG then Some 2
  else if sig =? MACOS_PTHREAD_FIRSTFIT_SIG then Some 3
  else None.

Definition convert_macos_mutex (m : list Z) : list Z :=
  match mutex_kind (object_sig m) with
  | Some kind => glibc_mutex kind ++ drop 40 m
  | None => m
  end.

Definition convert_macos_cond (c : list Z) : list Z :=
  if object_sig c =? MACOS_PTHREAD_COND_SIG then glibc_cond ++ drop 48 c else c.

Definition convert_macos_rwlock (rw : list Z) : list Z :=
  if object_sig rw =? MACOS_PTHREAD_RWLOCK_SIG then glibc_rwlock ++ drop 56 rw else rw.

(** [sync_errno_out(r, ret_addr)] *)
Definition sync_errno_out (t : text_state) (ret_addr r : Z) : Z :=
  if negb (r =? 0) && negb (r =? -1) && caller_is_macos_text t ret_addr then linux_to_macos_errno r else r.

(** The wrappers: [real] is the glibc function on the object. *)
Definition mutex_call (real : list Z -> Z * list Z) (t : text_state) (ret_addr : Z) (m : list Z)
    : Z * list Z :=
  let '(r, m) := real (convert_macos_mutex m) in (sync_errno_out t ret_addr r, m).

Definition rwlock_call (real : list Z -> Z * list Z) (t : text_state) (ret_addr : Z) (rw : list Z)
    : Z * list Z :=
  let '(r, rw) := real (convert_macos_rwlock rw) in (sync_errno_out t ret_addr r, rw).

Definition cond_call (real : list Z -> Z * list Z) (t : text_state) (ret_addr : Z) (c : list Z)
    : Z * list Z :=
  let '(r, c) := real (convert_macos_cond c) in (sync_errno_out t ret_addr r, c).

(** [pthread_cond_wait], [pthread_cond_timedwait]. *)
Definition cond_wait_call (real : list Z -> list Z -> Z * list Z * list Z) (t : text_state)
    (ret_addr : Z) (c m : list Z) : Z * list Z * list Z :=
  let '(r, c, m) := real (convert_macos_cond c) (convert_macos_mutex m) in (sync_errno_out t ret_addr r, c, m).

Definition pthread_mutex_destroy (real : list Z -> Z * list Z) (m : list Z) : Z * list Z :=
  if negb (object_sig m =? MACOS_PTHREAD_MUTEX_SIG) then real m else (0, m).

Definition pthread_cond_destroy (real : list Z -> Z * list Z) (c : list Z) : Z * list Z :=
  if object_sig c =? MACOS_PTHREAD_COND_SIG then (0, c) else real c.

Definition pthread_rwlock_destroy (real : list Z -> Z * list Z) (rw : list Z) : Z * list Z :=
  if negb (object_sig rw =? MACOS_PTHREAD_RWLOCK_SIG) then real rw else (0, rw).

(** [pthread_mutexattr_settype]: the type handed to glibc. *)
Definition linux_mutex_type (type : Z) : Z :=
  if type =? 0 then 0 else if type =? 1 then 2 else if type =? 2 then 1 else if type =? 3 then 0 else type.

(** ** Attributes: src/shim/pthread/attr.c *)

Definition MACOS_PTHREAD_ATTR_SIG : Z := 0x54485244.

(** The guest's object, and glibc's attributes on the heap by address. *)
Record macos_attr := MacosAttr { attr_sig : Z; attr_opaque : Z }.

Record glibc_attr := GlibcAttr {
  g_stacksize : Z;
  g_detachstate : Z;
  g_inheritsched : Z;
  g_scope : Z
}.

Abbreviation attr_heap := (gmap Z glibc_attr).

Section attrs.
  (** What [pthread_attr_init] leaves, and where [calloc] puts a new one. *)
  Context (attr_default : glibc_attr) (fresh : attr_heap -> Z).

Definition new_attr (h : attr_heap) : macos_attr * attr_heap :=
  let p := fresh h in (MacosAttr MACOS_PTHREAD_ATTR_SIG p, <[p := attr_default]> h).

Definition get_glibc_attr (a : macos_attr) (h : attr_heap) : Z * macos_attr * attr_heap :=
  if negb (attr_sig a =? MACOS_PTHREAD_ATTR_SIG) || (attr_opaque a =? 0)
  then let '(a, h) := new_attr h in (attr_opaque a, a, h)
  else (attr_opaque a, a, h).

Definition pthread_attr_init (h : attr_heap) : Z * macos_attr * attr_heap :=
  let '(a, h) := new_attr h in (0, a, h).

Definition pthread_attr_destroy (a : macos_attr) (h : attr_heap) : Z * macos_attr * attr_heap :=
  if (attr_sig a =? MACOS_PTHREAD_ATTR_SIG) && negb (attr_opaque a =? 0)
  then (0, MacosAttr 0 0, delete (attr_opaque a) h) else (0, a, h).

(** A setter: glibc's check [valid] of the value, then the field. *)
Definition attr_set (valid : Z -> bool) (upd : Z -> glibc_attr -> glibc_attr) (v : Z)
    (a : macos_attr) (h : attr_heap) : Z * macos_attr * attr_heap :=
  let '(p, a, h) := get_glibc_attr a h in
  if valid v then (0, a, alter (upd v) p h) else (22, a, h).

Definition attr_get (field : glibc_attr -> Z) (a : macos_attr) (h : attr_heap)
    : option Z * macos_attr * attr_heap :=
  let '(p, a, h) := get_glibc_attr a h in (field <$> h !! p, a, h).

Definition is_flag (v : Z) : bool := (v =? 0) || (v =? 1).

(** The numbers of the two sides for detach state and scheduling inheritance. *)
Definition one_two_to_linux (v : Z) : Z := if v =? 2 then 1 else if v =? 1 then 0 else v.
Definition one_two_to_macos (v : Z) : Z := if v =? 1 then 2 else if v =? 0 then 1 else v.

(** glibc refuses stacks below PTHREAD_STACK_MIN. *)
Definition pthread_attr_setstacksize (v : Z) :=
  attr_set (fun v => 16384 <=? v)
    (fun v g => GlibcAttr v (g_detachstate g) (g_inheritsched g) (g_scope g)) v.
Definition pthread_attr_getstacksize := attr_get g_stacksize.

Definition pthread_attr_setdetachstate (v : Z) :=
  attr_set is_flag (fun v g => GlibcAttr (g_stacksize g) v (g_inheritsched g) (g_scope g)) (one_two_to_linux v).
Definition pthread_attr_getdetachstate (a : macos_attr) (h : attr_heap) :=
  let '(v, a, h) := attr_get g_detachstate a h in (one_two_to_macos <$> v, a, h).

Definition pthread_attr_setinheritsched (v : Z) :=
  attr_set is_flag (fun v g => GlibcAttr (g_stacksize g) (g_detachstate g) v (g_scope g)) (one_two_to_linux v).
Definition pthread_attr_getinheritsched (a : macos_attr) (h : attr_heap) :=
  let '(v, a, h) := attr_get g_inheritsched a h in (one_two_to_macos <$> v, a, h).

(** The attribute [pthread_create] hands to glibc: a guest one that was never
    initialised is taken for glibc's own. *)
Definition create_attr (a : macos_attr) (addr : Z) : Z :=
  if attr_sig a =? MACOS_PTHREAD_ATTR_SIG then attr_opaque a else addr.
End attrs.

(** ** Clocks and signals: src/shim/pthread/core.c *)

(** The clock [macify_clock_gettime] asks Linux for. *)
Definition linux_clock (clk_id : Z) : Z :=
  if clk_id =? 6 then 1 else if clk_id =? 12 then 2 else if clk_id =? 16 then 3
  else if (clk_id =? 8) || (clk_id =? 4) then 4 else clk_id.

(** The signal [macify_pthread_kill] sends. *)
Definition pthread_kill_signal (t : text_state) (ret_addr sig : Z) : Z :=
  if caller_is_macos_text t ret_addr then
    let linux_sig := macos_sig_to_linux sig in if linux_sig >? 0 then linux_sig else sig
  else sig.

(** The deadline of [pthread_cond_timedwait_relative_np]; times are (seconds,
    nanoseconds), and signed overflow is undefined. *)
Definition relative_deadline (now rel : Z * Z) : res (Z * Z) :=
  let fits z := (- 2 ^ 63 <=? z) && (z <? 2 ^ 63) in
  let sec := now.1 + rel.1 in
  let nsec := now.2 + rel.2 in
  if negb (fits sec) || negb (fits nsec) then Undef else
  if nsec >=? 1000000000 then (if fits (sec + 1) then Ok (sec + 1, nsec - 1000000000) else Undef)
  else Ok (sec, nsec).

(** ** Lemmas *)

Lemma object_sig_app bs rest : (4 <= length bs)%nat -> object_sig (bs ++ rest) = object_sig bs.
Proof. intros Hl. unfold object_sig. by rewrite take_app_le. Qed.

Lemma glibc_mutex_length kind : length (glibc_mutex kind) = 40%nat.
Proof. unfold glibc_mutex. by rewrite !length_app, length_le_bytes, !length_replicate. Qed.

Lemma glibc_mutex_sig kind rest : object_sig (glibc_mutex kind ++ rest) = 0.
Proof. rewrite object_sig_app by (rewrite glibc_mutex_length; lia). reflexivity. Qed.

Lemma convert_mutex_idem m : convert_macos_mutex (convert_macos_mutex m) = convert_macos_mutex m.
Proof.
  unfold convert_macos_mutex at 2 3. destruct (mutex_kind (object_sig m)) as [kind|] eqn:E.
  - unfold convert_macos_mutex. by rewrite glibc_mutex_sig.
  - unfold convert_macos_mutex. by rewrite E.
Qed.

(** A guest attribute that was initialised points to a live glibc one. *)
Definition attr_ok (a : macos_attr) (h : attr_heap) : Prop :=
  attr_sig a = MACOS_PTHREAD_ATTR_SIG -> attr_opaque a <> 0 -> is_Some (h !! attr_opaque a).

Section attr_lemmas.
  Context (attr_default : glibc_attr) (fresh : attr_heap -> Z).
  Context (Hfresh : forall h, h !! fresh h = None /\ fresh h <> 0).

Lemma get_glibc_attr_spec a h p a' h' :
  attr_ok a h -> get_glibc_attr attr_default fresh a h = (p, a', h') ->
  p <> 0 /\ a' = MacosAttr MACOS_PTHREAD_ATTR_SIG p /\ is_Some (h' !! p) /\
  (forall q g, h !! q = Some g -> h' !! q = Some g) /\
  get_glibc_attr attr_default fresh a' h' = (p, a', h').
Proof.
  intros Hok. unfold get_glibc_attr, new_attr. destruct (Hfresh h) as [Hn H0].
  destruct (negb (attr_sig a =? MACOS_PTHREAD_ATTR_SIG) || (attr_opaque a =? 0)) eqn:E; intros [= <- <- <-]; cbn [attr_opaque attr_sig].
  - split; [done|]. split; [done|]. split; [by rewrite lookup_insert_eq|]. split.
    + intros q g Hq. rewrite lookup_insert_ne; [done|]. intros <-. congruence.
    + rewrite Z.eqb_refl. by replace (fresh h =? 0) with false by lia.
  - apply orb_false_iff in E as [E1 E2]. apply negb_false_iff, Z.eqb_eq in E1. apply Z.eqb_neq in E2.
    split; [done|]. split; [destruct a; cbn in *; by subst|]. split; [by apply Hok|]. split; [done|].
    rewrite E1, Z.eqb_refl. by replace (attr_opaque a =? 0) with false by lia.
Qed.

Lemma attr_set_get valid upd field v a h :
  attr_ok a h -> valid v = true -> (forall g, field (upd v g) = v) ->
  exists a' h' p, attr_set attr_default fresh valid upd v a h = (0, a', h') /\
    a' = MacosAttr MACOS_PTHREAD_ATTR_SIG p /\
    attr_get attr_default fresh field a' h' = (Some v, a', h') /\
    forall q g, h !! q = Some g -> q <> p -> h' !! q = Some g.
Proof.
  intros Hok Hv Hf. unfold attr_set, attr_get.
  destruct (get_glibc_attr attr_default fresh a h) as [[p a'] h1] eqn:E.
  destruct (get_glibc_attr_spec a h p a' h1 Hok E) as (Hp & -> & [g Hg] & Hkeep & Hagain).
  rewrite Hv. eexists _, _, p. split; [reflexivity|]. split; [done|]. split.
  - unfold get_glibc_attr. cbn [attr_opaque attr_sig]. rewrite Z.eqb_refl.
    replace (p =? 0) with false by lia. cbn [negb orb]. rewrite lookup_alter_eq, Hg. cbn. by rewrite Hf.
  - intros q g' Hq Hne. rewrite lookup_alter_ne by done. by apply Hkeep.
Qed.
End attr_lemmas.

(** ** Properties *)

(** Every wrapper treats an object the guest initialised
    statically as glibc's fresh object of the same kind (a recursive mutex
    stays recursive), keeping the bytes behind it, and converts it only once:
    an object without a macOS signature, in particular one already
    converted, reaches glibc as it is. *)
Theorem static_objects_converted_once (t : text_state) (ret : Z) (real : list Z -> Z * list Z) (m : list Z) :
  (forall kind, mutex_kind (object_sig m) = Some kind ->
     mutex_call real t ret m = mutex_call real t ret (glibc_mutex kind ++ drop 40 m) /\
     convert_macos_mutex m = glibc_mutex kind ++ drop 40 m) /\
  (mutex_kind (object_sig m) = None -> mutex_call real t ret m =
     (sync_errno_out t ret (real m).1, (real m).2)) /\
  (object_sig m = MACOS_PTHREAD_COND_SIG ->
     cond_call real t ret m = cond_call real t ret (glibc_cond ++ drop 48 m)) /\
  (object_sig m = MACOS_PTHREAD_RWLOCK_SIG ->
     rwlock_call real t ret m = rwlock_call real t ret (glibc_rwlock ++ drop 56 m)) /\
  convert_macos_mutex (convert_macos_mutex m) = convert_macos_mutex m.
Proof.
  split; [|split; [|split; [|split]]].
  - intros kind E. assert (convert_macos_mutex m = glibc_mutex kind ++ drop 40 m) as Ec
      by (unfold convert_macos_mutex; by rewrite E).
    split; [|done]. unfold mutex_call. rewrite <- Ec. by rewrite convert_mutex_idem.
  - intros E. unfold mutex_call, convert_macos_mutex. rewrite E. by destruct (real m).
  - intros E. unfold cond_call, convert_macos_cond. rewrite E, Z.eqb_refl.
    by rewrite object_sig_app by (cbn; lia).
  - intros E. unfold rwlock_call, convert_macos_rwlock. rewrite E, Z.eqb_refl.
    by rewrite object_sig_app by (cbn; lia).
  - apply convert_mutex_idem.
Qed.

(** A never-used static mutex of any kind but the normal one reaches glibc's
    [pthread_mutex_destroy] with its macOS bytes. *)
Lemma destroy_unconverted real m kind :
  mutex_kind (object_sig m) = Some kind -> kind <> 0 -> pthread_mutex_destroy real m = real m.
Proof.
  unfold mutex_kind, pthread_mutex_destroy. intros E Hk.
  destruct (object_sig m =? MACOS_PTHREAD_MUTEX_SIG); [by injection E|done].
Qed.

(** What a guest sets in a thread attribute it reads back, in
    its own numbers, whether or not it initialised the attribute first: the
    detach state and the scheduling inheritance for both of their values and
    the stack size for any size glibc accepts; attributes of other objects
    stay as they are. *)
Theorem attr_roundtrip (attr_default : glibc_attr) (fresh : attr_heap -> Z) (a : macos_attr)
    (h : attr_heap) (v size : Z) :
  (forall h, h !! fresh h = None /\ fresh h <> 0) -> attr_ok a h ->
  v = 1 \/ v = 2 -> 16384 <= size ->
  (exists a' h' p, pthread_attr_setdetachstate attr_default fresh v a h = (0, a', h') /\
     pthread_attr_getdetachstate attr_default fresh a' h' = (Some v, a', h') /\
     forall q g, h !! q = Some g -> q <> p -> h' !! q = Some g) /\
  (exists a' h' p, pthread_attr_setinheritsched attr_default fresh v a h = (0, a', h') /\
     pthread_attr_getinheritsched attr_default fresh a' h' = (Some v, a', h') /\
     forall q g, h !! q = Some g -> q <> p -> h' !! q = Some g) /\
  (exists a' h' p, pthread_attr_setstacksize attr_default fresh size a h = (0, a', h') /\
     pthread_attr_getstacksize attr_default fresh a' h' = (Some size, a', h') /\
     create_attr a' 0 = p /\
     forall q g, h !! q = Some g -> q <> p -> h' !! q = Some g).
Proof.
  intros Hf Hok Hv Hs.
  assert (is_flag (one_two_to_linux v) = true /\ one_two_to_macos (one_two_to_linux v) = v) as [Hflag Hback]
    by (by destruct Hv as [-> | ->]).
  split; [|split].
  - destruct (attr_set_get attr_default fresh Hf is_flag
      (fun v g => GlibcAttr (g_stacksize g) v (g_inheritsched g) (g_scope g)) g_detachstate
      (one_two_to_linux v) a h Hok Hflag) as (a' & h' & p & H1 & _ & H2 & H3); [done|].
    exists a', h', p. split; [exact H1|]. split; [|exact H3].
    unfold pthread_attr_getdetachstate. rewrite H2. cbn. by rewrite Hback.
  - destruct (attr_set_get attr_default fresh Hf is_flag
      (fun v g => GlibcAttr (g_stacksize g) (g_detachstate g) v (g_scope g)) g_inheritsched
      (one_two_to_linux v) a h Hok Hflag) as (a' & h' & p & H1 & _ & H2 & H3); [done|].
    exists a', h', p. split; [exact H1|]. split; [|exact H3].
    unfold pthread_attr_getinheritsched. rewrite H2. cbn. by rewrite Hback.
  - destruct (attr_set_get attr_default fresh Hf (fun v => 16384 <=? v)
      (fun v g => GlibcAttr v (g_detachstate g) (g_inheritsched g) (g_scope g)) g_stacksize
      size a h Hok) as (a' & h' & p & H1 & -> & H2 & H3); [lia|done|].
    exists (MacosAttr MACOS_PTHREAD_ATTR_SIG p), h', p. auto.
Qed.

(** A fresh address above all others. *)
Definition demo_fresh (h : attr_heap) : Z := map_fold (fun p _ n => Z.max (p + 1) n) 1 h.

Lemma demo_fresh_ok h : h !! demo_fresh h = None /\ demo_fresh h <> 0.
Proof.
  enough (1 <= demo_fresh h /\ forall p g, h !! p = Some g -> p < demo_fresh h) as [H1 H2].
  { split; [|lia]. destruct (h !! demo_fresh h) eqn:E; [|done]. specialize (H2 _ _ E). lia. }
  unfold demo_fresh. apply (map_fold_weak_ind (fun n h => 1 <= n /\ forall p g, h !! p = Some g -> p < n)).
  - split; [lia|]. intros p g H. by rewrite lookup_empty in H.
  - intros p g h' n Hp [H1 H2]. split; [lia|]. intros q g' Hq.
    destruct (decide (p = q)) as [->|Hne]; [lia|]. rewrite lookup_insert_ne in Hq by done.
    specialize (H2 q g' Hq). lia.
Qed.

Lemma attr_roundtrip_witness :
  exists a' h' p, pthread_attr_setdetachstate (GlibcAttr 8388608 0 0 0) demo_fresh 2 (MacosAttr 0 0) ∅ = (0, a', h') /\
    pthread_attr_getdetachstate (GlibcAttr 8388608 0 0 0) demo_fresh a' h' = (Some 2, a', h') /\
    forall q g, (∅ : attr_heap) !! q = Some g -> q <> p -> h' !! q = Some g.
Proof.
  apply (attr_roundtrip (GlibcAttr 8388608 0 0 0) demo_fresh (MacosAttr 0 0) ∅ 2 65536).
  - exact demo_fresh_ok.
  - intros H. discriminate H.
  - right. reflexivity.
  - lia.
Defined.

(** The deadline of a relative wait is the sum of the two times, normalised,
    unless the sum does not fit. *)
Lemma relative_deadline_sum now rel :
  0 <= now.2 < 1000000000 -> 0 <= rel.2 < 1000000000 ->
  0 <= now.1 < 2 ^ 62 -> 0 <= rel.1 < 2 ^ 62 - 1 ->
  exists d, relative_deadline now rel = Ok d /\ 0 <= d.2 < 1000000000 /\
    d.1 * 1000000000 + d.2 = (now.1 + rel.1) * 1000000000 + now.2 + rel.2.
Proof.
  intros H1 H2 H3 H4. unfold relative_deadline.
  replace (negb _ || negb _) with false by lia.
  destruct (Z.geb_spec (now.2 + rel.2) 1000000000).
  - replace ((- 2 ^ 63 <=? now.1 + rel.1 + 1) && (now.1 + rel.1 + 1 <? 2 ^ 63)) with true by lia.
    eexists. split; [reflexivity|]. cbn [fst snd]. lia.
  - eexists. split; [reflexivity|]. cbn [fst snd]. lia.
Qed.
