(* ===== verification/ShimExec.v ===== *)
(** * Starting programs (src/shim/shim_spawn.c)

    The exec family and posix_spawn as a guest sees them: the path goes into
    the prefix, a Mach-O file is run through the loader, a script through the
    interpreter of the prefix, and anything else reaches the kernel.  The
    process has its environment as the array [environ]; the files of the
    machine, memory and the tools of glibc are the parameters of [host].  A
    call of the real [execve] is a value of [exec_outcome]. *)
From Stdlib Require Import ZArith Lia Bool Ascii.
From stdpp Require Import base sets list strings numbers.
From S2P Require Import Prelude PrefixPath.

(** ** The process and the machine *)

(** What the shim asks of glibc and the kernel: the bytes of a file it can
    open, [access(p, X_OK) == 0], [realpath], the target of /proc/self/exe,
    the file [dladdr] names for the shim, whether an allocation of so many
    bytes succeeds, and whether [macify_elf_lookup("execve")] finds it. *)
Record host := Host {
  h_file : string -> option string;
  h_access : string -> bool;
  h_realpath : string -> option string;
  h_self_exe : option string;
  h_shim_file : option string;
  h_alloc : nat -> bool;
  h_execve : bool
}.

(** [environ] and the prefix found so far. *)
Record process := Process {
  p_environ : list string;
  p_prefix : prefix_state
}.

Definition entry_of (name e : string) : bool := starts_with (name +:+ "=") e.

Definition getenv (environ : list string) (name : string) : option string :=
  match find (entry_of name) environ with
  | Some e => Some (sdrop (String.length name + 1) e)
  | None => None
  end.

(** [setenv(name, value, 1)] *)
Fixpoint setenv (environ : list string) (name value : string) : list string :=
  match environ with
  | [] => [name +:+ "=" +:+ value]
  | e :: es => if entry_of name e then (name +:+ "=" +:+ value) :: es else e :: setenv es name value
  end.

Definition prefix_env (p : process) : environment :=
  mk_environ (getenv (p_environ p) "HOME") (getenv (p_environ p) "MACIFY_PREFIX")
    (match getenv (p_environ p) "MACIFY_JAILED" with Some _ => true | None => false end).

Definition translate (p : process) (path : string) : option string :=
  (macify_translate_path (prefix_env p) (p_prefix p) path PATH_MAX).1.

Definition the_prefix (p : process) : string := (macify_get_prefix (prefix_env p) (p_prefix p)).1.

(** [eff_path]: the translation where there is one. *)
Definition host_path (p : process) (path : string) : string :=
  match translate p path with Some t => t | None => path end.

(** ** C strings *)

(** What precedes the last slash ([strrchr]), where there is one. *)
Fixpoint before_last_slash (s : string) : option string :=
  match s with
  | EmptyString => None
  | String c r =>
      if has_char slash r then
        match before_last_slash r with Some d => Some (String c d) | None => None end
      else if Ascii.eqb c slash then Some EmptyString else None
  end.

Definition byte_at (s : string) (n : nat) : Z :=
  match shead (sdrop n s) with Some c => Z.of_N (Ascii.N_of_ascii c) | None => 0 end.

Definition le32 (s : string) : Z :=
  byte_at s 0 + 2 ^ 8 * byte_at s 1 + 2 ^ 16 * byte_at s 2 + 2 ^ 24 * byte_at s 3.

Definition NUL : Ascii.ascii := Ascii.ascii_of_nat 0.
Definition TAB : Ascii.ascii := Ascii.ascii_of_nat 9.
Definition LF : Ascii.ascii := Ascii.ascii_of_nat 10.
Definition CR : Ascii.ascii := Ascii.ascii_of_nat 13.
Definition SPACE : Ascii.ascii := Ascii.ascii_of_nat 32.
Definition COLON : Ascii.ascii := Ascii.ascii_of_nat 58.

(** The C string [fgets] leaves: at most [size - 1] bytes, none after the
    first newline, read up to the first NUL. *)
Fixpoint through_newline (s : string) : string :=
  match s with
  | EmptyString => EmptyString
  | String c r => if Ascii.eqb c LF then String c EmptyString else String c (through_newline r)
  end.

Definition fgets (size : nat) (contents : string) : option string :=
  match contents with
  | EmptyString => None
  | _ => Some (before_char NUL (through_newline (stake (size - 1) contents)))
  end.

Fixpoint skip_white (s : string) : string :=
  match s with
  | String c r => if Ascii.eqb c SPACE || Ascii.eqb c TAB then skip_white r else s
  | EmptyString => s
  end.

(** Cut at the first CR or LF ([strpbrk]). *)
Fixpoint chomp (s : string) : string :=
  match s with
  | EmptyString => EmptyString
  | String c r => if Ascii.eqb c CR || Ascii.eqb c LF then EmptyString else String c (chomp r)
  end.

(** What follows the first [c]. *)
Fixpoint after_char (c : Ascii.ascii) (s : string) : string :=
  match s with
  | EmptyString => EmptyString
  | String d r => if Ascii.eqb c d then r else after_char c r
  end.

(** The tokens of [strtok(s, ":")]; [cur] is the token being read. *)
Fixpoint tokens (c : Ascii.ascii) (cur s : string) : list string :=
  match s with
  | EmptyString => if streq cur EmptyString then [] else [cur]
  | String d r =>
      if Ascii.eqb c d then
        (if streq cur EmptyString then tokens c EmptyString r else cur :: tokens c EmptyString r)
      else tokens c (cur +:+ String d EmptyString) r
  end.

(** ** Recognising programs *)

Definition macho_magics : list Z := [0xFEEDFACF; 0xCFFAEDFE; 0xFEEDFACE; 0xCEFAEDFE]%Z.

Definition is_macho_binary (h : host) (path : string) : bool :=
  match h_file h path with
  | None => false
  | Some bytes =>
      if (String.length bytes <? 4)%nat then false
      else existsb (Z.eqb (le32 bytes)) macho_magics
  end.

Definition get_macify_binary (h : host) (p : process) : option string :=
  match getenv (p_environ p) "MACIFY_BINARY" with
  | Some (String c s) => Some (String c s)
  | _ =>
      match h_self_exe h with
      | Some (String c s) => Some (stake 4095 (String c s))
      | _ =>
          let installed :=
            if h_access h "/usr/libexec/macify/macify"
            then Some "/usr/libexec/macify/macify"%string else None in
          match h_shim_file h with
          | None => installed
          | Some f =>
              match before_last_slash (snprintf 4096 f) with
              | None => installed
              | Some d =>
                  let sibling := snprintf 4096 (d +:+ "/macify") in
                  if h_access h sibling then Some sibling else installed
              end
          end
      end
  end.

(** The arguments of a call: [None] is a NULL pointer. *)
Abbreviation arguments := (option (list string)).

(** What a reader of a NULL-terminated array sees. *)
Fixpoint until_null (a : list (option string)) : list string :=
  match a with
  | Some s :: a => s :: until_null a
  | _ => []
  end.

(** [for (i = 1; i < argc; i++) new_argv[i + 1] = argv[i]] from index [i]. *)
Fixpoint copy_args (a : list (option string)) (i : nat) (args : list string)
    : list (option string) :=
  match args with
  | [] => a
  | x :: args => copy_args (<[(i + 1)%nat := Some x]> a) (S i) args
  end.

Definition build_macify_argv (h : host) (target : string) (argv : arguments)
    : option (list string) :=
  let args := default [] argv in
  let argc := length args in
  if negb (h_alloc h ((argc + 3) * 8)) then None else
  let a := replicate (argc + 3) None in
  let a := <[0%nat := Some "macify"%string]> a in
  let a := <[1%nat := Some target]> a in
  let a := copy_args a 1 (drop 1 args) in
  let a := <[(argc + 1)%nat := None]> a in
  Some (until_null a).

(** One directory of the search: where the file would be run from. *)
Definition path_candidate (p : process) (file dir : string) : string :=
  host_path p (snprintf 4096 (dir +:+ "/" +:+ file)).

Definition resolve_in_prefix_path (h : host) (p : process) (file : string) : option string :=
  if streq file EmptyString then None else
  if has_char slash file then
    match translate p file with
    | Some t => Some t
    | None => Some (stake 4095 file)
    end
  else
    let path_env := default "/usr/bin:/bin:/usr/local/bin"%string (getenv (p_environ p) "PATH") in
    let fix search dirs :=
      match dirs with
      | [] => None
      | dir :: dirs =>
          let candidate := path_candidate p file dir in
          if h_access h candidate then Some (stake 4095 candidate) else search dirs
      end in
    search (tokens COLON EmptyString (stake 4095 path_env)).

(** ** The environment of a child *)

Inductive child_env :=
  | ChildEnv (envp : list string)
  | ChildNoMemory
  | ChildOverflow.

(** The loop over [envp]: [has_prefix], [has_ldlp], [has_home], [prefix_val]. *)
Record env_scan := EnvScan {
  has_prefix : bool;
  has_ldlp : bool;
  has_home : bool;
  prefix_val : option string
}.

Definition scan_entry (s : env_scan) (e : string) : env_scan :=
  if entry_of "MACIFY_PREFIX" e then EnvScan true (has_ldlp s) (has_home s) (Some (sdrop 14 e))
  else if entry_of "LD_LIBRARY_PATH" e then EnvScan (has_prefix s) true (has_home s) (prefix_val s)
  else if entry_of "HOME" e then EnvScan (has_prefix s) (has_ldlp s) true (prefix_val s)
  else s.

Definition scan_env (envp : list string) : env_scan :=
  foldl scan_entry (EnvScan false false false None) envp.

(** [hbuf]: the prefix without a last /.macify. *)
Definition home_of_prefix (prefix : string) : string :=
  let plen := String.length prefix in
  if (8 <? plen)%nat && streq (sdrop (plen - 8) prefix) "/.macify"
  then snprintf 4096 (stake (plen - 8) prefix) else snprintf 4096 prefix.

(** The entries the code adds for a missing prefix, home and library path. *)
Definition prefix_entry (h : host) (p : process) (s : env_scan) : list string :=
  if has_prefix s then [] else
  let v := the_prefix p in
  if streq v EmptyString then [] else
  if h_alloc h (String.length v + 16) then [("MACIFY_PREFIX=" +:+ v)%string] else [].

Definition home_entry (h : host) (prefix : option string) (s : env_scan) : list string :=
  if has_home s then [] else
  match prefix with
  | Some (String c v) =>
      let hbuf := home_of_prefix (String c v) in
      if streq hbuf EmptyString || streq hbuf "/" then [] else
      if h_alloc h (String.length hbuf + 7) then [("HOME=" +:+ hbuf)%string] else []
  | _ => []
  end.

Definition ldlp_entry (h : host) (macify_bin : string) (s : env_scan) : list string :=
  if has_ldlp s then [] else
  match before_last_slash (stake 4095 macify_bin) with
  | None => []
  | Some dir =>
      if h_alloc h (String.length dir + 17) then [("LD_LIBRARY_PATH=" +:+ dir)%string] else []
  end.

(** [out] has room for [n + 3] pointers, the last NULL included. *)
Definition build_child_envp (h : host) (p : process) (envp : arguments) (macify_bin : string)
    : child_env :=
  let env := default [] envp in
  let n := length env in
  if negb (h_alloc h ((n + 3) * 8)) then ChildNoMemory else
  let s := scan_env env in
  let prefix := if has_prefix s then prefix_val s else Some (the_prefix p) in
  let out := env ++ prefix_entry h p s ++ home_entry h prefix s ++ ldlp_entry h macify_bin s in
  if (length out <? n + 3)%nat then ChildEnv out else ChildOverflow.

(** ** exec *)

Definition ENOENT : Z := 2.
Definition EFAULT : Z := 14.
Definition EINVAL : Z := 22.
Definition ENOMEM : Z := 12.
Definition ENOSYS : Z := 38.
Definition ELOOP : Z := 40.

(** How a call ends: the real execve is called, -1 without one, -1 with an
    [errno] the shim sets, or an access outside an array. *)
Inductive exec_outcome :=
  | Exec (path : string) (argv envp : arguments)
  | NoExec
  | Failed (errno : Z)
  | Undefined.

Definition call_execve (h : host) (path : string) (argv envp : arguments) : exec_outcome :=
  if h_execve h then Exec path argv envp else NoExec.

(** Run [target] through the loader; [None] where the code falls through. *)
Definition exec_macho (h : host) (p : process) (target : string) (argv envp : arguments)
    : option exec_outcome :=
  if is_macho_binary h target then
    match get_macify_binary h p with
    | None => None
    | Some macify_bin =>
        match build_macify_argv h target argv with
        | None => None
        | Some new_argv =>
            Some (match build_child_envp h p envp macify_bin with
                  | ChildEnv child => call_execve h macify_bin (Some new_argv) (Some child)
                  | ChildNoMemory => NoExec
                  | ChildOverflow => Undefined
                  end)
        end
    end
  else None.

(** The interpreter and its argument, empty where there is none. *)
Definition parse_shebang (h : host) (p : process) (path : string) : option (string * string) :=
  match h_file h (host_path p path) with
  | None => None
  | Some contents =>
      match fgets 512 contents with
      | None => None
      | Some line =>
          if negb (starts_with "#!" line) then None else
          let q := chomp (skip_white (sdrop 2 line)) in
          if streq q EmptyString then None else
          let sp := if has_char SPACE q then Some SPACE
                    else if has_char TAB q then Some TAB else None in
          match sp with
          | Some c => Some (snprintf 4096 (before_char c q), snprintf 4096 (skip_white (after_char c q)))
          | None => Some (snprintf 4096 q, EmptyString)
          end
      end
  end.

Definition MACIFY_SHEBANG_MAX_DEPTH : nat := 5.
Definition MACIFY_EXEC_MAX_ARGS : nat := Z.to_nat 1024.

(** [tinterp] *)
Definition interpreter_path (p : process) (interp : string) : string :=
  match translate p interp with Some t => t | None => snprintf 4096 interp end.

(** [abspath] *)
Definition script_path (h : host) (path : string) : option string :=
  if slash_at 0 path then Some (snprintf 4096 path) else h_realpath h path.

(** [nargv]; the loop reads [argv[1]] first, which is past the end of an
    empty array. *)
Definition script_argv (tinterp iarg abspath : string) (argv : arguments) : option (list string) :=
  let lead := tinterp :: (if streq iarg EmptyString then [] else [iarg]) ++ [abspath] in
  match argv with
  | None => Some lead
  | Some [] => None
  | Some (_ :: args) => Some (lead ++ take (MACIFY_EXEC_MAX_ARGS - 1 - length lead) args)
  end.

(** [hops] is MACIFY_SHEBANG_MAX_DEPTH - [depth]. *)
Fixpoint do_execve_inner (h : host) (p : process) (hops : nat) (path : string)
    (argv envp : arguments) : exec_outcome :=
  let eff_path := host_path p path in
  match exec_macho h p eff_path argv envp with
  | Some out => out
  | None =>
      match parse_shebang h p path with
      | None => call_execve h eff_path argv envp
      | Some (interp, iarg) =>
          let tinterp := interpreter_path p interp in
          if negb (h_access h tinterp) then Failed ENOENT else
          match hops with
          | O => Failed ELOOP
          | S hops =>
              match script_path h path with
              | None => Failed ENOENT
              | Some abspath =>
                  match script_argv tinterp iarg abspath argv with
                  | None => Undefined
                  | Some nargv => do_execve_inner h p hops tinterp (Some nargv) envp
                  end
              end
          end
      end
  end.

Definition macify_do_execve (h : host) (p : process) (path : option string)
    (argv envp : arguments) : exec_outcome :=
  match path with
  | None => Failed EFAULT
  | Some path => do_execve_inner h p MACIFY_SHEBANG_MAX_DEPTH path argv envp
  end.

(** The directory of the loader, or its whole name ([libpath]). *)
Definition libpath_of (macify_bin : string) : string :=
  let lib := stake 4095 macify_bin in default lib (before_last_slash lib).

(** The process after the call (should the exec fail) and the outcome. *)
Definition macify_do_execvp (h : host) (p : process) (file : option string)
    (argv envp : arguments) : process * exec_outcome :=
  match file with
  | None => (p, Failed EFAULT)
  | Some file =>
      match resolve_in_prefix_path h p file with
      | None => (p, Failed ENOENT)
      | Some resolved =>
          match is_macho_binary h resolved, get_macify_binary h p with
          | true, Some macify_bin =>
              match build_macify_argv h resolved argv with
              | Some new_argv =>
                  let environ :=
                    match getenv (p_environ p) "LD_LIBRARY_PATH" with
                    | Some _ => p_environ p
                    | None => setenv (p_environ p) "LD_LIBRARY_PATH" (libpath_of macify_bin)
                    end in
                  let p' := Process environ (p_prefix p) in
                  (p', match build_child_envp h p' envp macify_bin with
                       | ChildEnv child => call_execve h macify_bin (Some new_argv) (Some child)
                       | ChildNoMemory => NoExec
                       | ChildOverflow => Undefined
                       end)
              | None => (p, do_execve_inner h p MACIFY_SHEBANG_MAX_DEPTH resolved argv envp)
              end
          | _, _ => (p, do_execve_inner h p MACIFY_SHEBANG_MAX_DEPTH resolved argv envp)
          end
      end
  end.

(** ** posix_spawn *)

Definition MACOS_POSIX_SPAWN_SETPGROUP : Z := 0x1.
Definition MACOS_POSIX_SPAWN_SETSIGDEF : Z := 0x4.

(** [macify_spawnattr_t] *)
Record spawnattr := SpawnAttr {
  sa_flags : Z;
  sa_pgid : Z;
  sa_sigdefault_lo : Z;
  sa_has_sigdefault : Z
}.

Definition spawnattr_init : spawnattr := SpawnAttr 0 0 0 0.

(** [flags] is a short, stored as an uint32. *)
Definition spawnattr_setflags (a : spawnattr) (flags : Z) : spawnattr :=
  SpawnAttr (flags mod 2 ^ 32) (sa_pgid a) (sa_sigdefault_lo a) (sa_has_sigdefault a).

Definition spawnattr_setpgroup (a : spawnattr) (pgid : Z) : spawnattr :=
  SpawnAttr (Z.lor (sa_flags a) MACOS_POSIX_SPAWN_SETPGROUP) pgid
    (sa_sigdefault_lo a) (sa_has_sigdefault a).

Definition spawnattr_setsigdefault (a : spawnattr) (set : Z) : spawnattr :=
  SpawnAttr (Z.lor (sa_flags a) MACOS_POSIX_SPAWN_SETSIGDEF) (sa_pgid a) (set mod 2 ^ 32) 1.

Inductive spawn_action :=
  | AddClose (fd : Z)
  | AddDup2 (fd newfd : Z)
  | AddOpen (fd : Z) (path : string) (oflag mode : Z)
  | AddChdir (path : string)
  | AddFchdir (fd : Z).

(** The word in the guest's buffer: NULL or a list, head first. *)
Abbreviation file_actions := (option (list spawn_action)).

Definition action_bytes : nat := 40.

(** The first allocation is the action, the second its copy of the path. *)
Definition add_action (h : host) (fa : file_actions) (act : spawn_action) : Z * file_actions :=
  match fa with
  | None => (EINVAL, fa)
  | Some l =>
      if negb (h_alloc h action_bytes) then (ENOMEM, fa) else
      let copied :=
        match act with
        | AddOpen _ path _ _ | AddChdir path => h_alloc h (String.length path + 1)
        | _ => true
        end in
      if copied then (0, Some (l ++ [act])) else (ENOMEM, fa)
  end.

Definition file_actions_init (h : host) (fa : file_actions) : Z * file_actions :=
  if h_alloc h 24 then (0, Some []) else (ENOMEM, fa).

Definition file_actions_destroy (fa : file_actions) : Z * file_actions := (0, None).

(** glibc's flags and process group of the attribute that is passed on. *)
Definition linux_spawn_flags (a : spawnattr) : Z :=
  Z.lor (if Z.land (sa_flags a) MACOS_POSIX_SPAWN_SETPGROUP =? 0 then 0 else 2)
        (if Z.land (sa_flags a) MACOS_POSIX_SPAWN_SETSIGDEF =? 0 then 0 else 4).

Definition linux_pgroup (a : spawnattr) : option Z :=
  if Z.land (sa_flags a) MACOS_POSIX_SPAWN_SETPGROUP =? 0 then None else Some (sa_pgid a).

(** The cases of the switch; the others do nothing. *)
Definition linux_action (act : spawn_action) : option spawn_action :=
  match act with
  | AddClose _ | AddDup2 _ _ | AddOpen _ _ _ _ => Some act
  | AddChdir _ | AddFchdir _ => None
  end.

(** What a spawn does: nothing (a NULL path), fork and exec the loader, or
    the real posix_spawn. *)
Inductive spawn_outcome :=
  | SpawnProbe
  | SpawnFork (path : string) (argv : list string) (environ : list string)
  | SpawnReal (use_path : bool) (path : string) (actions : list spawn_action)
      (flags : Z) (pgroup : option Z) (argv envp : arguments).

(** [environ] as the child passes it to the loader. *)
Definition spawn_child_environ (p : process) (macify_bin : string) : list string :=
  let e := p_environ p in
  let e := match getenv e "LD_LIBRARY_PATH" with
           | Some _ => e
           | None => setenv e "LD_LIBRARY_PATH" (libpath_of macify_bin)
           end in
  let e := setenv e "MACIFY_BINARY" macify_bin in
  match getenv e "MACIFY_PREFIX" with
  | Some _ => e
  | None => setenv e "MACIFY_PREFIX" (the_prefix p)
  end.

Definition do_posix_spawn (h : host) (p : process) (path : option string) (fa : file_actions)
    (attr : option spawnattr) (argv envp : arguments) (use_path : bool) : spawn_outcome :=
  match path with
  | None => SpawnProbe
  | Some path =>
      let eff_path :=
        if use_path then default path (resolve_in_prefix_path h p path) else host_path p path in
      let real :=
        SpawnReal use_path eff_path (omap linux_action (default [] fa))
          (match attr with Some a => linux_spawn_flags a | None => 0 end)
          (match attr with Some a => linux_pgroup a | None => None end) argv envp in
      if is_macho_binary h eff_path then
        match get_macify_binary h p with
        | None => real
        | Some macify_bin =>
            match build_macify_argv h eff_path argv with
            | None => real
            | Some new_argv => SpawnFork macify_bin new_argv (spawn_child_environ p macify_bin)
            end
        end
      else real
  end.

(** ** Lemmas: arguments and environment *)

Lemma copy_args_into (pre : list (option string)) (args : list string) k i :
  length pre = (i + 1)%nat ->
  copy_args (pre ++ replicate (length args + k) None) i args
  = pre ++ map Some args ++ replicate k None.
Proof.
  revert pre i. induction args as [|x args IH]; intros pre i Hl; cbn [copy_args length map app Nat.add]; [done|].
  rewrite <- Hl, insert_app_r_alt, Nat.sub_diag by done. cbn [replicate].
  change (<[0%nat:=Some x]> (None :: replicate (length args + k) None))
    with ([Some x] ++ replicate (length args + k) None).
  rewrite app_assoc, IH by (rewrite length_app; cbn; lia).
  by rewrite <- app_assoc.
Qed.

Lemma until_null_app args rest : until_null (map Some args ++ None :: rest) = args.
Proof. induction args as [|x args IH]; [done|]. cbn. by rewrite IH. Qed.

Lemma build_macify_argv_cons h target a0 args :
  h_alloc h ((length args + 4) * 8) = true ->
  build_macify_argv h target (Some (a0 :: args)) = Some ("macify"%string :: target :: args).
Proof.
  intros Ha. unfold build_macify_argv. cbn [from_option id length drop].
  replace (S (length args) + 3)%nat with (length args + 4)%nat by lia. rewrite Ha. cbn [negb].
  replace (length args + 4)%nat with (S (S (length args + 2))) by lia.
  cbn [replicate]. rewrite drop_0. f_equal.
  change (<[1%nat:=Some target]> (<[0%nat:=Some "macify"%string]> (None :: None :: replicate (length args + 2) None)))
    with ([Some "macify"%string; Some target] ++ replicate (length args + 2) None).
  rewrite copy_args_into by done.
  rewrite insert_app_r_alt by (cbn; lia).
  rewrite insert_app_r_alt by (rewrite length_map; cbn [length]; lia).
  replace (_ - _ - _)%nat with 0%nat by (rewrite length_map; cbn [length]; lia).
  cbn [replicate]. apply (until_null_app ("macify"%string :: target :: args)).
Qed.

(** With no arguments at all the terminator lands on the target. *)
Lemma build_macify_argv_nil h target argv :
  h_alloc h 24 = true -> default [] argv = [] ->
  build_macify_argv h target argv = Some ["macify"%string].
Proof. intros Ha E. unfold build_macify_argv. rewrite E. cbn. by rewrite Ha. Qed.

Lemma entry_of_app name v : entry_of name (name +:+ "=" +:+ v) = true.
Proof. apply starts_with_spec. exists v. by rewrite string_app_assoc. Qed.

Lemma entry_of_inv name e : entry_of name e = true -> exists v, e = name +:+ "=" +:+ v.
Proof. intros [t ->]%starts_with_spec. exists t. by rewrite string_app_assoc. Qed.

Lemma find_setenv_ne environ n m v :
  (forall w, entry_of n (m +:+ "=" +:+ w) = false) ->
  find (entry_of n) (setenv environ m v) = find (entry_of n) environ.
Proof.
  intros Hne. induction environ as [|e es IH]; cbn [setenv find].
  - by rewrite Hne.
  - destruct (entry_of m e) eqn:Em; cbn [find].
    + apply entry_of_inv in Em as [w ->]. by rewrite !Hne.
    + by rewrite IH.
Qed.

Lemma getenv_setenv_ne environ n m v :
  (forall w, entry_of n (m +:+ "=" +:+ w) = false) ->
  getenv (setenv environ m v) n = getenv environ n.
Proof. intros Hne. unfold getenv. by rewrite find_setenv_ne. Qed.

Lemma sdrop_entry name v : sdrop (String.length name + 1) (name +:+ "=" +:+ v) = v.
Proof.
  rewrite <- string_app_assoc.
  replace (String.length name + 1)%nat with (String.length (name +:+ "=")) by (rewrite string_length_app; done).
  apply sdrop_app.
Qed.

Lemma getenv_setenv environ n v : getenv (setenv environ n v) n = Some v.
Proof.
  unfold getenv. induction environ as [|e es IH]; cbn [setenv find].
  - by rewrite entry_of_app, sdrop_entry.
  - destruct (entry_of n e) eqn:E; cbn [find].
    + by rewrite entry_of_app, sdrop_entry.
    + by rewrite E.
Qed.

(** [scan_env] finds each variable. *)
Lemma scan_env_spec envp :
  has_prefix (scan_env envp) = existsb (entry_of "MACIFY_PREFIX") envp /\
  has_ldlp (scan_env envp) = existsb (entry_of "LD_LIBRARY_PATH") envp /\
  has_home (scan_env envp) = existsb (entry_of "HOME") envp.
Proof.
  unfold scan_env. induction envp as [|e es IH] using rev_ind; [done|].
  rewrite foldl_snoc, !existsb_app. cbn [existsb]. rewrite !orb_false_r.
  destruct IH as (E1 & E2 & E3). set (s := foldl _ _ _) in *. unfold scan_entry.
  destruct (entry_of "MACIFY_PREFIX" e) eqn:H1.
  { apply entry_of_inv in H1 as [v ->]. cbn. by rewrite E2, E3, !orb_true_r, !orb_false_r. }
  destruct (entry_of "LD_LIBRARY_PATH" e) eqn:H2.
  { apply entry_of_inv in H2 as [v ->]. cbn. by rewrite E1, E3, !orb_true_r, !orb_false_r. }
  destruct (entry_of "HOME" e) eqn:H3; cbn; by rewrite ?E1, ?E2, ?E3, ?orb_true_r, ?orb_false_r.
Qed.

Lemma prefix_entry_missing h p s :
  (forall n, h_alloc h n = true) -> the_prefix p <> EmptyString ->
  prefix_entry h p s = if has_prefix s then [] else [("MACIFY_PREFIX=" +:+ the_prefix p)%string].
Proof.
  intros Ha Hp. unfold prefix_entry. destruct (has_prefix s); [done|].
  unfold streq. rewrite bool_decide_false by done. by rewrite Ha.
Qed.

Lemma ldlp_entry_missing h bin dir s :
  (forall n, h_alloc h n = true) -> before_last_slash (stake 4095 bin) = Some dir ->
  ldlp_entry h bin s = if has_ldlp s then [] else [("LD_LIBRARY_PATH=" +:+ dir)%string].
Proof. intros Ha Hd. unfold ldlp_entry. by rewrite Hd, Ha. Qed.

Definition home_derivable (prefix : string) : Prop :=
  home_of_prefix prefix <> EmptyString /\ home_of_prefix prefix <> "/"%string.

Lemma home_entry_missing h prefix s :
  (forall n, h_alloc h n = true) -> home_derivable prefix ->
  home_entry h (Some prefix) s = if has_home s then [] else [("HOME=" +:+ home_of_prefix prefix)%string].
Proof.
  intros Ha [H1 H2]. unfold home_entry. destruct (has_home s); [done|].
  destruct prefix as [|c v]; [done|].
  unfold streq. rewrite !bool_decide_false by done. cbn [orb]. by rewrite Ha.
Qed.

Lemma length_home_entry h prefix s : (length (home_entry h prefix s) <= 1)%nat.
Proof. unfold home_entry. repeat case_match; cbn; lia. Qed.

(** ** Lemmas: paths *)

Lemma stake_short n s : (String.length (stake n s) < n)%nat -> stake n s = s.
Proof. rewrite length_stake. intros H. apply stake_all. lia. Qed.

Lemma translate_fits p path t : translate p path = Some t -> (String.length t <= 4095)%nat.
Proof.
  unfold translate. destruct (env_MACIFY_JAILED (prefix_env p)) eqn:Hj.
  - unfold macify_translate_path. rewrite Hj. destruct (Nat.eqb_spec PATH_MAX 0); [done|].
    intros [= <-]. unfold snprintf. rewrite length_stake. change (PATH_MAX - 1)%nat with (Z.to_nat 4095). lia.
  - destruct (macify_translate_path _ _ _ _) as [o st1] eqn:E. cbn. intros ->.
    apply (translate_result _ _ _ _ _ _ _ Hj eq_refl) in E as (full & -> & _).
    unfold snprintf. rewrite length_stake. change (PATH_MAX - 1)%nat with (Z.to_nat 4095). lia.
Qed.

(** Translating a path that came out of a translation changes nothing. *)
Lemma translate_again p path t :
  translate p path = Some t -> (String.length t < 4095)%nat -> translate p t = Some t.
Proof.
  intros Ht Hl. unfold translate in *.
  destruct (env_MACIFY_JAILED (prefix_env p)) eqn:Hj.
  - unfold macify_translate_path. rewrite Hj. destruct (Nat.eqb_spec PATH_MAX 0); [done|].
    cbn [fst]. unfold snprintf. rewrite stake_all; [done|]. change (PATH_MAX - 1)%nat with (Z.to_nat 4095). lia.
  - destruct (macify_translate_path _ _ path _) as [o st1] eqn:E. cbn in Ht. subst o.
    refine (proj2 (translate_path_idempotent _ _ _ _ _ _ Hj E _) _ _ eq_refl _);
      [change (PATH_MAX - 1)%nat with (Z.to_nat 4095)|unfold PATH_MAX]; lia.
Qed.

Lemma host_path_again p path :
  (String.length (host_path p path) < 4095)%nat -> host_path p (host_path p path) = host_path p path.
Proof.
  unfold host_path. destruct (translate p path) as [t|] eqn:E; intros Hl.
  - by rewrite (translate_again p path t).
  - by rewrite E.
Qed.

(** Where an absolute path ends up: in the prefix or a shared directory. *)
Lemma host_path_confined p path :
  env_MACIFY_JAILED (prefix_env p) = false -> the_prefix p <> EmptyString -> absolute path ->
  (String.length (the_prefix p +:+ path) < 4096)%nat ->
  within (the_prefix p) (host_path p path) \/ shared (host_path p path).
Proof.
  intros Hj Hp Habs Hl. unfold host_path, translate. unfold the_prefix in *.
  destruct (macify_get_prefix (prefix_env p) (p_prefix p)) as [pfx st1] eqn:E. cbn [fst] in *.
  rewrite (translate_absolute _ _ _ PATH_MAX _ _ Hj ltac:(done) E Hp Habs).
  rewrite string_length_app in Hl.
  assert (forall s, (String.length s < 4096)%nat -> snprintf PATH_MAX s = s) as Hs.
  { intros s Hs. unfold snprintf. apply stake_all. change (PATH_MAX - 1)%nat with (Z.to_nat 4095). lia. }
  destruct (decide (within pfx path)) as [Hw|]; cbn [fst].
  { left. rewrite Hs; [done|lia]. }
  destruct (decide (shared path)) as [Hsh|]; cbn [fst]; [by right|].
  left. rewrite Hs by (rewrite string_length_app; lia). right.
  destruct Habs as [r ->]. by exists r.
Qed.

Lemma resolve_host_path h p file r :
  resolve_in_prefix_path h p file = Some r -> (String.length r < 4095)%nat -> host_path p r = r.
Proof.
  unfold resolve_in_prefix_path. destruct (streq file EmptyString); [done|].
  destruct (has_char slash file).
  - destruct (translate p file) as [t|] eqn:E; intros H Hl.
    + apply (inj Some) in H. subst r. unfold host_path. by rewrite (translate_again p file t).
    + apply (inj Some) in H. subst r. apply stake_short in Hl as Hs. rewrite Hs. unfold host_path. by rewrite E.
  - set (dirs := tokens _ _ _). induction dirs as [|d ds IH]; [done|].
    destruct (h_access h (path_candidate p file d)); [|exact IH].
    intros H Hl. apply (inj Some) in H. subst r.
    apply stake_short in Hl as Hs. rewrite Hs in Hl |- *.
    unfold path_candidate in *. by apply host_path_again.
Qed.

Lemma prefix_env_setenv_ldlp p v :
  prefix_env (Process (setenv (p_environ p) "LD_LIBRARY_PATH" v) (p_prefix p)) = prefix_env p.
Proof. unfold prefix_env. cbn [p_environ]. by rewrite !getenv_setenv_ne. Qed.

(** The child's environment depends on the process only through the prefix. *)
Lemma build_child_envp_prefix h p p' envp bin :
  the_prefix p' = the_prefix p -> build_child_envp h p' envp bin = build_child_envp h p envp bin.
Proof. intros E. unfold build_child_envp, prefix_entry. by rewrite E. Qed.

(** ** Lemmas: scripts *)

Lemma parse_shebang_not_macho h p path r :
  parse_shebang h p path = Some r -> is_macho_binary h (host_path p path) = false.
Proof.
  unfold parse_shebang, is_macho_binary. destruct (h_file h (host_path p path)) as [s|]; [|done].
  destruct s as [|a s]; [done|]. unfold fgets. change (512 - 1)%nat with (S (S 509)).
  destruct s as [|b s]; [done|]. cbn [stake through_newline].
  intros H. destruct (String.length _ <? 4)%nat; [done|].
  assert (a = "#"%char /\ b = "!"%char) as [-> ->].
  { destruct (Ascii.eqb a LF) eqn:Ea; [apply Ascii.eqb_eq in Ea as ->; discriminate H|].
    cbn [before_char] in H. destruct (Ascii.eqb NUL a); [discriminate H|].
    destruct (Ascii.eqb b LF) eqn:Eb; cbn [before_char] in H;
      [apply Ascii.eqb_eq in Eb as ->; cbn [before_char] in H|];
      [destruct (Ascii.eqb NUL LF) eqn:En; [discriminate En|];
       cbn [starts_with] in H; destruct (Ascii.eqb "#"%char a); discriminate H|].
    destruct (Ascii.eqb NUL b); cbn [starts_with] in H;
      [destruct (Ascii.eqb "#"%char a); discriminate H|].
    destruct (Ascii.eqb_spec "#"%char a) as [<-|]; [|discriminate H].
    destruct (Ascii.eqb_spec "!"%char b) as [<-|]; [done|discriminate H]. }
  apply not_true_iff_false. intros (m & Hm & E%Z.eqb_eq)%existsb_exists.
  assert (m mod 2 ^ 16 = 0x2123) as Hmod.
  { rewrite <- E. unfold le32. change (byte_at _ 0) with 0x23. change (byte_at _ 1) with 0x21.
    set (u := byte_at _ 2). set (v := byte_at _ 3).
    replace (0x23 + 2 ^ 8 * 0x21 + 2 ^ 16 * u + 2 ^ 24 * v)
      with (0x2123 + (u + 2 ^ 8 * v) * 2 ^ 16) by lia.
    by rewrite Z_mod_plus_full. }
  cbn in Hm. destruct Hm as [<-|[<-|[<-|[<-|[]]]]]; discriminate Hmod.
Qed.

(** One script: what it is replaced with. *)
Inductive script_hop (h : host) (p : process) : string -> arguments -> string -> arguments -> Prop :=
  | hop path argv interp iarg abspath nargv :
      parse_shebang h p path = Some (interp, iarg) ->
      h_access h (interpreter_path p interp) = true ->
      script_path h path = Some abspath ->
      script_argv (interpreter_path p interp) iarg abspath argv = Some nargv ->
      script_hop h p path argv (interpreter_path p interp) (Some nargv).

(** [n] scripts in a row. *)
Inductive script_hops (h : host) (p : process) : nat -> string -> arguments -> string -> arguments -> Prop :=
  | hops_none path argv : script_hops h p 0 path argv path argv
  | hops_one n path argv q qargv r rargv :
      script_hop h p path argv q qargv -> script_hops h p n q qargv r rargv ->
      script_hops h p (S n) path argv r rargv.

Lemma exec_script h p k path argv envp q qargv :
  script_hop h p path argv q qargv ->
  do_execve_inner h p k path argv envp =
  match k with
  | O => Failed ELOOP
  | S k => do_execve_inner h p k q qargv envp
  end.
Proof.
  intros [path' argv' interp iarg abspath nargv Hs Hx Hp Ha].
  assert (exec_macho h p (host_path p path') argv' envp = None) as Hm.
  { unfold exec_macho. by rewrite (parse_shebang_not_macho _ _ _ _ Hs). }
  destruct k; cbn [do_execve_inner]; rewrite Hm, Hs, Hx; cbn [negb]; [done|].
  by rewrite Hp, Ha.
Qed.

Lemma exec_scripts h p n path argv q qargv k envp :
  script_hops h p n path argv q qargv ->
  do_execve_inner h p k path argv envp =
  if (n <=? k)%nat then do_execve_inner h p (k - n) q qargv envp else Failed ELOOP.
Proof.
  intros H. revert k. induction H as [path argv|n path argv q qargv r rargv Hh Hr IH]; intros k.
  - by rewrite Nat.sub_0_r.
  - rewrite (exec_script h p k path argv envp q qargv Hh).
    destruct k as [|k]; [done|]. rewrite IH. by cbn [Nat.leb Nat.sub].
Qed.

(** What happens to a path that is not a script. *)
Definition exec_direct (h : host) (p : process) (path : string) (argv envp : arguments) : exec_outcome :=
  default (call_execve h (host_path p path) argv envp) (exec_macho h p (host_path p path) argv envp).

Lemma exec_not_script h p k path argv envp :
  parse_shebang h p path = None ->
  do_execve_inner h p k path argv envp = exec_direct h p path argv envp.
Proof.
  intros Hs. unfold exec_direct.
  destruct k; cbn [do_execve_inner]; rewrite Hs; by destruct (exec_macho _ _ _ _ _).
Qed.

(** Every real execve is a call of the loader on a Mach-O file or of a file
    without a "#!" line. *)
Definition exec_allowed (h : host) (p : process) (envp : arguments) (out : exec_outcome) : Prop :=
  match out with
  | Exec q a e =>
      (get_macify_binary h p = Some q /\
       exists t rest, a = Some ("macify"%string :: t :: rest) /\ is_macho_binary h t = true) \/
      (e = envp /\ exists r, q = host_path p r /\ parse_shebang h p r = None)
  | _ => True
  end.

Lemma script_argv_cons tinterp iarg abspath argv nargv :
  script_argv tinterp iarg abspath argv = Some nargv -> exists rest, nargv = tinterp :: rest.
Proof. unfold script_argv. destruct argv as [[|a args]|]; intros [= <-]; eauto. Qed.

Lemma build_macify_argv_inv h t a0 args new :
  build_macify_argv h t (Some (a0 :: args)) = Some new -> new = "macify"%string :: t :: args.
Proof.
  intros H. assert (h_alloc h ((length args + 4) * 8) = true) as Ha.
  { unfold build_macify_argv in H. cbn [from_option id length] in H.
    replace (S (length args) + 3)%nat with (length args + 4)%nat in H by lia.
    by destruct (h_alloc _ _). }
  rewrite (build_macify_argv_cons _ _ _ _ Ha) in H. by injection H.
Qed.

Lemma exec_macho_allowed h p target a0 args envp out :
  exec_macho h p target (Some (a0 :: args)) envp = Some out -> exec_allowed h p envp out.
Proof.
  unfold exec_macho. destruct (is_macho_binary h target) eqn:Em; [|done].
  destruct (get_macify_binary h p) as [bin|] eqn:Eb; [|done].
  destruct (build_macify_argv h target _) as [new|] eqn:En; [|done].
  apply build_macify_argv_inv in En as ->. intros H. apply (inj Some) in H. subst out.
  destruct (build_child_envp _ _ _ _); [|done|done]. unfold call_execve.
  destruct (h_execve h); [|done]. unfold exec_allowed. eauto 10.
Qed.

Lemma exec_inner_allowed h p k path a0 args envp :
  exec_allowed h p envp (do_execve_inner h p k path (Some (a0 :: args)) envp).
Proof.
  revert path a0 args. induction k as [|k IH]; intros path a0 args; cbn [do_execve_inner];
    (destruct (exec_macho _ _ _ _ _) as [out|] eqn:Em; [by eapply exec_macho_allowed|]);
    (destruct (parse_shebang h p path) as [[interp iarg]|] eqn:Es;
     [|unfold call_execve; destruct (h_execve h); cbn; eauto 10]);
    (destruct (h_access h _); cbn [negb]; [|done]); [done|].
  destruct (script_path h path) as [abspath|]; [|done].
  destruct (script_argv _ _ _ _) as [nargv|] eqn:Ea; [|done].
  apply script_argv_cons in Ea as [rest ->]. apply IH.
Qed.

Lemma find_candidate h p file dirs :
  (fix search dirs :=
     match dirs with
     | [] => None
     | dir :: dirs =>
         let candidate := path_candidate p file dir in
         if h_access h candidate then Some (stake 4095 candidate) else search dirs
     end) dirs =
  stake 4095 <$> find (h_access h) (map (path_candidate p file) dirs).
Proof.
  induction dirs as [|d ds IH]; cbn [map find]; [done|]. cbv zeta.
  destruct (h_access h (path_candidate p file d)); [done|exact IH].
Qed.

(** ** Properties *)

(** Exec of a script runs its interpreter from the prefix,
    as many times as scripts name scripts: after [n] hops, each of which
    builds "interpreter [argument] script arguments", a file that is no
    script is run directly, when [n] is at most 5; a longer chain ends in
    ELOOP, one that never ends included. *)
Theorem execve_follows_scripts (h : host) (p : process) (n : nat) (path : string) (argv : arguments)
    (q : string) (qargv envp : arguments) :
  script_hops h p n path argv q qargv ->
  ((n <= 5)%nat -> parse_shebang h p q = None ->
   macify_do_execve h p (Some path) argv envp = exec_direct h p q qargv envp) /\
  ((5 < n)%nat -> macify_do_execve h p (Some path) argv envp = Failed ELOOP).
Proof.
  intros H. cbn [macify_do_execve]. rewrite (exec_scripts _ _ _ _ _ _ _ _ _ H).
  unfold MACIFY_SHEBANG_MAX_DEPTH. split.
  - intros Hn Hs. rewrite (proj2 (Nat.leb_le _ _) Hn). by apply exec_not_script.
  - intros Hn. by rewrite (proj2 (Nat.leb_gt _ _) Hn).
Qed.

(** A machine with an installed loader, two scripts, a Mach-O shell and an
    ELF file in the prefix, and a script that is its own interpreter. *)
Definition macho_bytes : string := string_of_bytes [0xCF; 0xFA; 0xED; 0xFE; 7].

Definition demo_files (path : string) : option string :=
  if streq path "/p/bin/sh" then Some macho_bytes
  else if streq path "/p/run" then Some ("#! /bin/sh -e" +:+ String LF "exit")%string
  else if streq path "/p/outer" then Some ("#!/run" +:+ String LF EmptyString)%string
  else if streq path "/p/loop" then Some ("#!/loop" +:+ String LF EmptyString)%string
  else if streq path "/p/usr/bin/true" then Some (string_of_bytes [0x7F; 0x45; 0x4C; 0x46])
  else None.

Definition demo_host : host :=
  Host demo_files (fun path => match demo_files path with Some _ => true | None => false end)
    (fun path => Some ("/w/" +:+ path)%string) (Some "/opt/macify/macify"%string) None
    (fun _ => true) true.

Definition demo_process : process := Process ["PATH=/usr/bin:/bin"%string; "MACIFY_PREFIX=/p"%string] None.

Definition demo_child_env : arguments :=
  Some ["MACIFY_PREFIX=/p"; "HOME=/p"; "LD_LIBRARY_PATH=/opt/macify"]%string.

Lemma demo_hop path interp iarg abspath argv :
  parse_shebang demo_host demo_process path = Some (interp, iarg) ->
  h_access demo_host (interpreter_path demo_process interp) = true ->
  script_path demo_host path = Some abspath ->
  forall nargv, script_argv (interpreter_path demo_process interp) iarg abspath argv = Some nargv ->
  script_hop demo_host demo_process path argv (interpreter_path demo_process interp) (Some nargv).
Proof. intros. by econstructor. Qed.

Lemma execve_follows_scripts_witness :
  macify_do_execve demo_host demo_process (Some "/outer"%string) (Some ["outer"; "x"]%string)
    (Some ["MACIFY_PREFIX=/p"%string]) =
  Exec "/opt/macify/macify"
    (Some ["macify"; "/p/bin/sh"; "-e"; "/p/run"; "/outer"; "x"]%string) demo_child_env /\
  macify_do_execve demo_host demo_process (Some "/loop"%string) (Some ["loop"%string]) None = Failed ELOOP.
Proof.
  split.
  - rewrite (proj1 (execve_follows_scripts demo_host demo_process 2 "/outer"
      (Some ["outer"; "x"]%string) "/p/bin/sh" (Some ["/p/bin/sh"; "-e"; "/p/run"; "/outer"; "x"]%string)
      (Some ["MACIFY_PREFIX=/p"%string])
      ltac:(eapply hops_one; [by eapply (demo_hop "/outer" "/run" "" "/outer"); vm_compute|];
            eapply hops_one; [by eapply (demo_hop "/p/run" "/bin/sh" "-e" "/p/run"); vm_compute|];
            apply hops_none)) ltac:(lia) ltac:(vm_compute; reflexivity)).
    vm_compute. reflexivity.
  - refine (proj2 (execve_follows_scripts demo_host demo_process 6 "/loop" (Some ["loop"%string])
      "/p/loop" (Some ["/p/loop"; "/p/loop"; "/p/loop"; "/p/loop"; "/p/loop"; "/p/loop"; "/loop"]%string) None _) _);
      [|lia].
    eapply hops_one; [by eapply (demo_hop "/loop" "/loop" "" "/loop"); vm_compute|].
    do 5 (eapply hops_one; [by eapply (demo_hop "/p/loop" "/loop" "" "/p/loop"); vm_compute|]).
    apply hops_none.
Defined.

(** A text the kernel runs through an interpreter: "#!", blanks, and a
    character that is neither blank nor the end of the line.  (The kernel
    looks at the first 256 bytes.) *)
Fixpoint blanks (s : string) : bool :=
  match s with EmptyString => true | String c r => (Ascii.eqb c SPACE || Ascii.eqb c TAB) && blanks r end.

Definition names_interpreter (contents : string) : Prop :=
  exists ws c rest, contents = "#!" +:+ ws +:+ String c rest /\ blanks ws = true /\ (String.length ws < 256)%nat /\
    c ∉ [SPACE; TAB; LF; CR; NUL].

Lemma first_line_of ws c rest n :
  blanks ws = true -> (String.length ws < n)%nat -> c ∉ [SPACE; TAB; LF; CR; NUL] ->
  exists t, chomp (skip_white (before_char NUL (through_newline (stake n (ws +:+ String c rest))))) = String c t.
Proof.
  intros Hb Hl Hc. revert n Hl. induction ws as [|w ws IH]; intros n Hl.
  - destruct n as [|n]; [cbn in Hl; lia|]. change (EmptyString +:+ String c rest) with (String c rest). cbn [stake through_newline].
    assert (forall d, d ∈ [SPACE; TAB; LF; CR; NUL] -> Ascii.eqb c d = false /\ Ascii.eqb d c = false) as Hne.
    { intros d Hd. rewrite (Ascii.eqb_sym d). assert (Ascii.eqb c d = false) as -> by (apply Ascii.eqb_neq; set_solver). done. }
    destruct (Hne SPACE) as [Hs _]; [set_solver|]. destruct (Hne TAB) as [Ht _]; [set_solver|].
    destruct (Hne LF) as [Hlf _]; [set_solver|]. destruct (Hne CR) as [Hcr _]; [set_solver|]. destruct (Hne NUL) as [_ Hnul]; [set_solver|].
    rewrite Hlf. cbn [before_char]. rewrite Hnul. cbn [skip_white]. rewrite Hs, Ht. cbn [orb chomp]. rewrite Hcr, Hlf. by eexists.
  - destruct n as [|n]; [cbn in Hl; lia|]. cbn [blanks] in Hb. apply andb_prop in Hb as [Hw Hb].
    destruct (IH Hb n) as [t Ht]; [cbn in Hl; lia|]. exists t. rewrite <- Ht. f_equal.
    apply orb_prop in Hw as [->%Ascii.eqb_eq| ->%Ascii.eqb_eq]; reflexivity.
Qed.

Lemma no_shebang h p r contents :
  parse_shebang h p r = None -> h_file h (host_path p r) = Some contents -> ~ names_interpreter contents.
Proof.
  intros Hs Hf (ws & c & rest & -> & Hb & Hl & Hc). destruct (first_line_of ws c rest 509 Hb ltac:(lia) Hc) as [t Ht].
  unfold parse_shebang in Hs. rewrite Hf in Hs. set (X := before_char NUL _) in Ht.
  assert (E : fgets 512 ("#!" +:+ ws +:+ String c rest) = Some (String "#" (String "!" X))) by reflexivity.
  rewrite E in Hs. clearbody X. change (starts_with "#!" (String "#" (String "!" X))) with true in Hs.
  change (sdrop 2 (String "#" (String "!" X))) with X in Hs. cbn [negb] in Hs. rewrite Ht in Hs.
  unfold streq in Hs. rewrite bool_decide_eq_false_2 in Hs by done. by repeat case_match.
Qed.

(** C15 (safety): what an execve of a guest starts, outside the jail.  Every
    call that leaves the shim runs the loader on a Mach-O file, or runs a
    file for which the kernel picks no interpreter: if it can be read, its
    text does not go "#!", blanks (fewer than 256), a further character on
    the line.  In the second case an absolute path that fits the buffer has
    by then the prefix in front, or is in a directory shared with the host,
    by its spelling: ".." and links in it are not resolved. *)
Theorem exec_stays_in_prefix (h : host) (p : process) (path a0 : string) (args : list string)
    (envp : arguments) (q : string) (a e : arguments) :
  env_MACIFY_JAILED (prefix_env p) = false -> the_prefix p <> EmptyString ->
  macify_do_execve h p (Some path) (Some (a0 :: args)) envp = Exec q a e ->
  (get_macify_binary h p = Some q /\
   exists t rest, a = Some ("macify"%string :: t :: rest) /\ is_macho_binary h t = true) \/
  (e = envp /\ (forall contents, h_file h q = Some contents -> ~ names_interpreter contents) /\
   exists r, q = host_path p r /\
   (absolute r -> (String.length (the_prefix p +:+ r) < 4096)%nat ->
    within (the_prefix p) q \/ shared q)).
Proof.
  intros Hj Hp H. cbn [macify_do_execve] in H.
  pose proof (exec_inner_allowed h p MACIFY_SHEBANG_MAX_DEPTH path a0 args envp) as Ha.
  rewrite H in Ha. destruct Ha as [Hl|(He & r & -> & Hs)]; [by left|right].
  split; [done|]. split; [intros contents; by apply no_shebang|].
  exists r. repeat split. intros Habs Hlen. by apply host_path_confined.
Qed.

Lemma exec_stays_in_prefix_witness :
  macify_do_execve demo_host demo_process (Some "/usr/bin/true"%string) (Some ["true"%string]) None
    = Exec "/p/usr/bin/true" (Some ["true"%string]) None /\
  forall contents, h_file demo_host "/p/usr/bin/true" = Some contents -> ~ names_interpreter contents.
Proof.
  split; [vm_compute; reflexivity|].
  destruct (exec_stays_in_prefix demo_host demo_process "/usr/bin/true" "true" [] None
    "/p/usr/bin/true" (Some ["true"%string]) None eq_refl ltac:(done) ltac:(vm_compute; reflexivity)) as [(E & _)|(_ & H & _)]; [discriminate E|exact H].
Defined.

(** Execvp is execve of the file it finds: the path itself
    where the name has a slash, else the first directory of PATH, in its
    order and taken into the prefix, that has an executable of that name
    (ENOENT where none has); the library path it sets on the way changes
    nothing in what is run. *)
Theorem execvp_is_execve (h : host) (p : process) (file : string) (argv envp : arguments) :
  resolve_in_prefix_path h p file =
    (if streq file EmptyString then None
     else if has_char slash file then
       Some (default (stake 4095 file) (translate p file))
     else stake 4095 <$> find (h_access h) (map (path_candidate p file)
            (tokens COLON EmptyString (stake 4095
               (default "/usr/bin:/bin:/usr/local/bin"%string (getenv (p_environ p) "PATH")))))) /\
  (resolve_in_prefix_path h p file = None ->
   macify_do_execvp h p (Some file) argv envp = (p, Failed ENOENT)) /\
  (forall r, resolve_in_prefix_path h p file = Some r -> (String.length r < 4095)%nat ->
   (macify_do_execvp h p (Some file) argv envp).2 = macify_do_execve h p (Some r) argv envp).
Proof.
  split_and!.
  - unfold resolve_in_prefix_path. destruct (streq file EmptyString); [done|].
    destruct (has_char slash file); [by destruct (translate p file)|]. apply find_candidate.
  - intros H. cbn [macify_do_execvp]. by rewrite H.
  - intros r Hr Hl. cbn [macify_do_execvp macify_do_execve]. rewrite Hr.
    destruct (is_macho_binary h r) eqn:Em; [|done].
    destruct (get_macify_binary h p) as [bin|] eqn:Eb; [|done].
    destruct (build_macify_argv h r argv) as [new|] eqn:En; [|done].
    assert (exec_macho h p r argv envp = Some
      (match build_child_envp h p envp bin with
       | ChildEnv child => call_execve h bin (Some new) (Some child)
       | ChildNoMemory => NoExec | ChildOverflow => Undefined end)) as Hx.
    { unfold exec_macho. by rewrite Em, Eb, En. }
    unfold MACIFY_SHEBANG_MAX_DEPTH. cbn [do_execve_inner snd].
    rewrite (resolve_host_path h p file r Hr Hl), Hx.
    rewrite (build_child_envp_prefix h p); [done|]. unfold the_prefix. cbn [p_prefix].
    destruct (getenv (p_environ p) "LD_LIBRARY_PATH"); [by destruct p|].
    by rewrite prefix_env_setenv_ldlp.
Qed.

(** The environment of a child keeps the caller's entries and
    adds the missing ones, so that the new loader finds its prefix and its
    shim; but the array has room for two entries more than the caller's, so
    the call writes past its end exactly when all three are missing. *)
Theorem child_env_overflow (h : host) (p : process) (envp : list string) (bin dir : string) :
  (forall n, h_alloc h n = true) -> the_prefix p <> EmptyString -> home_derivable (the_prefix p) ->
  before_last_slash (stake 4095 bin) = Some dir ->
  let has name := existsb (entry_of name) in
  (build_child_envp h p (Some envp) bin = ChildOverflow <->
   has "MACIFY_PREFIX"%string envp = false /\ has "HOME"%string envp = false /\
  has "LD_LIBRARY_PATH"%string envp = false) /\
  (forall out, build_child_envp h p (Some envp) bin = ChildEnv out ->
   exists added, out = envp ++ added /\ (length added <= 2)%nat /\
  has "MACIFY_PREFIX"%string out = true /\ has "LD_LIBRARY_PATH"%string out = true /\
  (has "MACIFY_PREFIX"%string envp = false -> has "HOME"%string out = true)).
Proof.
  intros Ha Hp Hh Hd has. unfold has. clear has.
  destruct (scan_env_spec envp) as (E1 & E2 & E3).
  unfold build_child_envp. cbn [from_option id]. rewrite Ha. cbn [negb]. cbv zeta.
  rewrite (prefix_entry_missing h p _ Ha Hp), (ldlp_entry_missing h bin dir _ Ha Hd).
  pose proof (length_home_entry h (if has_prefix (scan_env envp) then prefix_val (scan_env envp)
    else Some (the_prefix p)) (scan_env envp)) as Hle.
  pose proof (home_entry_missing h (the_prefix p) (scan_env envp) Ha Hh) as Hhome.
  rewrite <- E1, <- E2, <- E3.
  destruct (has_prefix (scan_env envp)) eqn:Ep.
  - set (he := home_entry _ _ _) in *. rewrite app_nil_l.
    assert ((length (envp ++ he ++ (if has_ldlp (scan_env envp) then [] else ["LD_LIBRARY_PATH=" +:+ dir]))
             <? length envp + 3)%nat = true) as ->.
    { apply Nat.ltb_lt. rewrite !length_app. destruct (has_ldlp _); cbn [length]; lia. }
    split; [split; [done|intros (? & _); done]|].
    intros out [= <-]. eexists. split; [done|]. rewrite !existsb_app, <- E1, <- E2. split_and!; auto.
    + rewrite length_app. destruct (has_ldlp _); cbn [length]; lia.
    + destruct (has_ldlp _); [done|]. cbn. by rewrite !orb_true_r.
    + done.
  - rewrite Hhome. split.
    + destruct (has_home (scan_env envp)), (has_ldlp (scan_env envp));
        cbn [app]; rewrite length_app; cbn [length];
        match goal with |- context [(?a <? ?b)%nat] => destruct (Nat.ltb_spec a b) end; try lia;
        (split; [try done|intuition discriminate]).
    + match goal with |- context [(?a <? ?b)%nat] => destruct (Nat.ltb_spec a b) as [Hlt|] end; [|done].
      intros out [= <-]. eexists. split; [done|]. rewrite !length_app in Hlt.
      split; [cbn [length app] in *; rewrite ?length_app in *; lia|]. rewrite !existsb_app, <- E1, <- E2, <- E3.
      destruct (has_home (scan_env envp)), (has_ldlp (scan_env envp)); cbn; by rewrite ?orb_true_r.
Qed.

Lemma child_env_overflow_witness :
  build_child_envp demo_host demo_process (Some []) "/opt/macify/macify" = ChildOverflow /\
  build_child_envp demo_host demo_process (Some ["MACIFY_PREFIX=/p"%string]) "/opt/macify/macify"
  = ChildEnv (default [] demo_child_env).
Proof.
  assert (home_derivable (the_prefix demo_process)) as Hh by (split; vm_compute; discriminate).
  split; [|vm_compute; reflexivity].
  apply (child_env_overflow demo_host demo_process [] "/opt/macify/macify" "/opt/macify"
    (fun _ => eq_refl) ltac:(discriminate) Hh eq_refl). repeat split; reflexivity.
Defined.

(** The file actions a sequence of calls records, in the order of the calls. *)
Lemma add_actions_in_order h acts :
  (forall n, h_alloc h n = true) ->
  foldl (fun fa act => (add_action h fa act).2) (Some []) acts = Some acts.
Proof.
  intros Ha. induction acts as [|act acts IH] using rev_ind; [done|].
  rewrite foldl_snoc, IH. unfold add_action. rewrite !Ha. cbn [negb].
  by destruct act; cbn [snd]; rewrite ?Ha.
Qed.

Lemma spawn_environ_spec p bin name v :
  getenv (spawn_child_environ p bin) "MACIFY_BINARY" = Some bin /\
  getenv (spawn_child_environ p bin) "LD_LIBRARY_PATH" =
    Some (default (libpath_of bin) (getenv (p_environ p) "LD_LIBRARY_PATH")) /\
  getenv (spawn_child_environ p bin) "MACIFY_PREFIX" =
    Some (default (the_prefix p) (getenv (p_environ p) "MACIFY_PREFIX")) /\
  (name ∈ ["HOME"; "PATH"]%string -> getenv (p_environ p) name = v ->
   getenv (spawn_child_environ p bin) name = v).
Proof.
  unfold spawn_child_environ.
  assert (getenv match getenv (p_environ p) "LD_LIBRARY_PATH" with Some _ => p_environ p
            | None => setenv (p_environ p) "LD_LIBRARY_PATH" (libpath_of bin) end "LD_LIBRARY_PATH" =
          Some (default (libpath_of bin) (getenv (p_environ p) "LD_LIBRARY_PATH"))) as Hl.
  { destruct (getenv (p_environ p) "LD_LIBRARY_PATH") eqn:E; [by rewrite E|]. by rewrite getenv_setenv. }
  assert (forall n, (forall w, entry_of n ("LD_LIBRARY_PATH" +:+ "=" +:+ w) = false) ->
    getenv match getenv (p_environ p) "LD_LIBRARY_PATH" with Some _ => p_environ p
            | None => setenv (p_environ p) "LD_LIBRARY_PATH" (libpath_of bin) end n =
    getenv (p_environ p) n) as Ho.
  { intros n Hn. destruct (getenv (p_environ p) "LD_LIBRARY_PATH"); [done|]. by rewrite getenv_setenv_ne. }
  set (e1 := match getenv (p_environ p) "LD_LIBRARY_PATH" with Some _ => _ | None => _ end) in *.
  cbv zeta. rewrite (getenv_setenv_ne e1 "MACIFY_PREFIX" "MACIFY_BINARY") by done.
  rewrite (Ho "MACIFY_PREFIX"%string) by done.
  split_and!.
  - destruct (getenv (p_environ p) "MACIFY_PREFIX"); [by rewrite getenv_setenv|].
    rewrite getenv_setenv_ne by done. by rewrite getenv_setenv.
  - destruct (getenv (p_environ p) "MACIFY_PREFIX"); rewrite ?getenv_setenv_ne by done; exact Hl.
  - destruct (getenv (p_environ p) "MACIFY_PREFIX") eqn:E; [|by rewrite getenv_setenv].
    rewrite getenv_setenv_ne by done. rewrite Ho by done. by rewrite E.
  - intros Hin <-. assert (forall w, entry_of name ("MACIFY_PREFIX" +:+ "=" +:+ w) = false /\
      entry_of name ("MACIFY_BINARY" +:+ "=" +:+ w) = false /\
      entry_of name ("LD_LIBRARY_PATH" +:+ "=" +:+ w) = false) as Hn.
    { intros w. repeat setoid_rewrite elem_of_cons in Hin.
      destruct Hin as [-> | [-> | Hin]]; [done..|]. by apply elem_of_nil in Hin. }
    destruct (getenv (p_environ p) "MACIFY_PREFIX"); rewrite !getenv_setenv_ne by (intros w; apply Hn);
      apply Ho; intros w; apply Hn.
Qed.

(** Posix_spawn of a Mach-O file forks a loader that is told
    where it, its libraries and its prefix are, with the guest's arguments;
    but with the parent's environment in place of the caller's, and with none
    of the file actions and attributes.  Any other file is spawned with the
    actions in the order they were added, except that changes of directory
    are left out. *)
Theorem posix_spawn_spec (h : host) (p : process) (path a0 : string) (args : list string)
    (acts : list spawn_action) (attr : option spawnattr) (envp : arguments) (bin : string) :
  (forall n, h_alloc h n = true) -> get_macify_binary h p = Some bin ->
  let fa := foldl (fun fa act => (add_action h fa act).2) (Some []) acts in
  do_posix_spawn h p (Some path) fa attr (Some (a0 :: args)) envp false =
    (if is_macho_binary h (host_path p path)
     then SpawnFork bin ("macify"%string :: host_path p path :: args) (spawn_child_environ p bin)
     else SpawnReal false (host_path p path) (omap linux_action acts)
            (match attr with Some a => linux_spawn_flags a | None => 0 end)
            (match attr with Some a => linux_pgroup a | None => None end) (Some (a0 :: args)) envp) /\
  getenv (spawn_child_environ p bin) "MACIFY_BINARY" = Some bin /\
  getenv (spawn_child_environ p bin) "LD_LIBRARY_PATH" =
    Some (default (libpath_of bin) (getenv (p_environ p) "LD_LIBRARY_PATH")) /\
  getenv (spawn_child_environ p bin) "MACIFY_PREFIX" =
    Some (default (the_prefix p) (getenv (p_environ p) "MACIFY_PREFIX")).
Proof.
  intros Ha Hb fa. split.
  - unfold fa. rewrite add_actions_in_order by done. cbn [do_posix_spawn from_option id]. cbv zeta.
    rewrite Hb, build_macify_argv_cons by done. by destruct (is_macho_binary _ _).
  - destruct (spawn_environ_spec p bin EmptyString None) as (? & ? & ? & _). done.
Qed.

Lemma posix_spawn_spec_witness :
  do_posix_spawn demo_host demo_process (Some "/bin/sh"%string)
    (Some [AddDup2 3 1; AddChdir "/x"]) None (Some ["sh"; "-c"]%string) (Some ["A=1"%string]) false =
  SpawnFork "/opt/macify/macify" ["macify"; "/p/bin/sh"; "-c"]%string
    (spawn_child_environ demo_process "/opt/macify/macify") /\
  do_posix_spawn demo_host demo_process (Some "/usr/bin/true"%string)
    (Some [AddDup2 3 1; AddChdir "/x"; AddClose 3]) None (Some ["true"%string]) (Some ["A=1"%string]) false =
  SpawnReal false "/p/usr/bin/true" [AddDup2 3 1; AddClose 3] 0 None (Some ["true"%string]) (Some ["A=1"%string]).
Proof.
  split.
  - exact (proj1 (posix_spawn_spec demo_host demo_process "/bin/sh" "sh" ["-c"%string]
      [AddDup2 3 1; AddChdir "/x"] None (Some ["A=1"%string]) "/opt/macify/macify" (fun _ => eq_refl) eq_refl)).
  - exact (proj1 (posix_spawn_spec demo_host demo_process "/usr/bin/true" "true" []
      [AddDup2 3 1; AddChdir "/x"; AddClose 3] None (Some ["A=1"%string]) "/opt/macify/macify"
      (fun _ => eq_refl) eq_refl)).
Defined.

(** Arguments of a script past the 1023 the array holds are dropped. *)
Lemma script_args_dropped tinterp iarg abspath a0 args nargv :
  script_argv tinterp iarg abspath (Some (a0 :: args)) = Some nargv ->
  length nargv = Nat.min (MACIFY_EXEC_MAX_ARGS - 1)
    ((if streq iarg EmptyString then 2 else 3) + length args)%nat.
Proof.
  unfold script_argv. intros [= <-]. change (MACIFY_EXEC_MAX_ARGS - 1)%nat with 1023%nat.
  destruct (streq iarg EmptyString); cbn [app length]; rewrite length_take; lia.
Qed.
