(* ===== verification/ShimFile.v ===== *)
(** * Files as a guest sees them (src/shim/io/flags.c, src/shim/io/file.c)

    The wrappers of the calls that take a path, of the stat family, and the
    flags of open.  A [file_call] is both what a guest asks and what the
    kernel is asked: a wrapper turns the one into the other and translates
    the answer.  Trace output is left out.  Paths use PrefixPath through
    [host_path] of ShimExec. *)
From Stdlib Require Import ZArith Lia Bool.
From stdpp Require Import base list strings numbers.
From S2P Require Import Prelude SyscallTable PrefixPath ShimCore ShimExec.

(** ** Flags *)

Definition O_DIRECTORY : Z := 0x10000.

(** [translate_open_flags] of the shim. *)
Definition shim_open_flags (macos_flags : Z) : Z :=
  let l := Z.land macos_flags 0x3 in
  let l := lor_if (has macos_flags 0x0200) O_CREAT l in
  let l := lor_if (has macos_flags 0x0800) O_EXCL l in
  let l := lor_if (has macos_flags 0x0400) O_TRUNC l in
  let l := lor_if (has macos_flags 0x0008) O_APPEND l in
  let l := lor_if (has macos_flags 0x0004) O_NONBLOCK l in
  let l := lor_if (has macos_flags 0x20000) O_NOCTTY l in
  let l := lor_if (has macos_flags 0x0080) O_SYNC l in
  let l := lor_if (has macos_flags 0x1000000) O_CLOEXEC l in
  let l := lor_if (has macos_flags 0x100000) O_DIRECTORY l in
  lor_if (has macos_flags 0x0100) O_NOFOLLOW l.

(** The other way, in fcntl(F_GETFL). *)
Definition guest_open_flags (linux_fl : Z) : Z :=
  let m := Z.land linux_fl 0x3 in
  let m := lor_if (has linux_fl O_APPEND) 0x0008 m in
  let m := lor_if (has linux_fl O_NONBLOCK) 0x0004 m in
  let m := lor_if (has linux_fl O_CREAT) 0x0200 m in
  let m := lor_if (has linux_fl O_EXCL) 0x0800 m in
  let m := lor_if (has linux_fl O_TRUNC) 0x0400 m in
  let m := lor_if (has linux_fl O_NOCTTY) 0x20000 m in
  let m := lor_if (has linux_fl O_SYNC) 0x0080 m in
  let m := lor_if (has linux_fl O_CLOEXEC) 0x1000000 m in
  let m := lor_if (has linux_fl O_DIRECTORY) 0x100000 m in
  lor_if (has linux_fl O_NOFOLLOW) 0x0100 m.

(** Bit of the macOS word, bits of the Linux word. *)
Definition shim_open_bits : list (Z * Z) :=
  [(0, 0); (1, 1); (9, 6); (11, 7); (10, 9); (3, 10); (2, 11); (17, 8); (7, 12); (7, 20);
   (24, 19); (20, 16); (8, 17)].

(** The AT_ flags, as each wrapper has them. *)
Definition fstatat_flags (flags : Z) : Z :=
  lor_if (has flags 0x80) 0x200 (lor_if (has flags 0x20) 0x100 (lor_if (has flags 0x01) 0x200 0)).
Definition faccessat_flags (flags : Z) : Z := lor_if (has flags 0x0010) 0x0200 0.
Definition unlinkat_flags (flags : Z) : Z := lor_if (has flags 0x0200) 0x0100 0.
Definition linkat_flags (flags : Z) : Z := lor_if (has flags 0x0400) 0x0200 0.
Definition utimensat_flags (flags : Z) : Z := lor_if (has flags 0x0200) 0x0100 0.

(** AT_FDCWD *)
Definition at_fdcwd (dirfd : Z) : Z := if dirfd =? -2 then -100 else dirfd.

(** ** Calls *)

(** A path is [None] where the pointer is NULL; [inode64] marks the
    $INODE64 variants. *)
Inductive file_call :=
  | COpen (path : option string) (flags mode : Z)
  | COpen64 (path : option string) (flags mode : Z)
  | COpenat (dirfd : Z) (path : option string) (flags mode : Z)
  | CStat (inode64 : bool) (path : option string)
  | CLstat (inode64 : bool) (path : option string)
  | CFstat (inode64 : bool) (fd : Z)
  | CFstatat (inode64 : bool) (dirfd : Z) (path : option string) (flags : Z)
  | CXstat (ver : Z) (path : option string)
  | CLxstat (ver : Z) (path : option string)
  | CFxstat (ver fd : Z)
  | CAccess (path : option string) (mode : Z)
  | CFaccessat (dirfd : Z) (path : option string) (mode flags : Z)
  | CUnlinkat (dirfd : Z) (path : option string) (flags : Z)
  | CLinkat (fromfd : Z) (from : option string) (tofd : Z) (to : option string) (flags : Z)
  | CSymlinkat (target : option string) (dirfd : Z) (linkpath : option string)
  | CReadlinkat (dirfd : Z) (path : option string) (bufsiz : Z)
  | CUtimensat (dirfd : Z) (path : option string) (times : option (Z * Z)) (flags : Z)
  | CMkdir (path : option string) (mode : Z)
  | CUnlink (path : option string)
  | CRename (old newp : option string)
  | CRmdir (path : option string)
  | CChdir (path : option string).

(** The paths a wrapper translates. *)
Definition call_paths (c : file_call) : list (option string) :=
  match c with
  | COpen p _ _ | COpen64 p _ _ | COpenat _ p _ _ | CStat _ p | CLstat _ p | CFstatat _ _ p _
  | CXstat _ p | CLxstat _ p | CAccess p _ | CFaccessat _ p _ _ | CUnlinkat _ p _
  | CSymlinkat _ _ p | CReadlinkat _ p _ | CUtimensat _ p _ _ | CMkdir p _ | CUnlink p
  | CRmdir p | CChdir p => [p]
  | CLinkat _ p _ q _ | CRename p q => [p; q]
  | CFstat _ _ | CFxstat _ _ => []
  end.

(** The wrappers that ask [macify_should_hide_path]. *)
Definition hides (c : file_call) : bool :=
  match c with
  | CLinkat _ _ _ _ _ | CSymlinkat _ _ _ | CRename _ _ | CRmdir _ | CChdir _
  | CFstat _ _ | CFxstat _ _ => false
  | _ => true
  end.

(** The wrappers that leave callers other than the guest alone. *)
Definition checks_caller (c : file_call) : bool :=
  match c with
  | CStat inode64 _ | CLstat inode64 _ | CFstat inode64 _ | CFstatat inode64 _ _ _ => negb inode64
  | CMkdir _ _ | CUnlink _ | CRename _ _ | CRmdir _ | CChdir _ => false
  | _ => true
  end.

Section calls.
Context (p : process).

Definition effective (path : option string) : option string := host_path p <$> path.

Definition hidden (path : option string) : bool :=
  match path with Some s => macify_should_hide_path (prefix_env p) s | None => false end.

(** [mode] is read only when a file may be created. *)
Definition creation_mode (linux_flags mode : Z) : Z := if has linux_flags O_CREAT then mode else 0.

(** The check for hidden paths and the translation, at the head of most
    wrappers; [None] is ENOENT. *)
Definition guarded (path : option string) (k : option string -> file_call) : option file_call :=
  if hidden path then None else Some (k (effective path)).

(** ** What each wrapper asks of the kernel for a guest *)

Definition guest_open (path : option string) (flags mode : Z) : option file_call :=
  let l := shim_open_flags flags in guarded path (fun e => COpen e l (creation_mode l mode)).

Definition guest_open64 (path : option string) (flags mode : Z) : option file_call :=
  let l := shim_open_flags flags in guarded path (fun e => COpen64 e l (creation_mode l mode)).

Definition guest_openat (dirfd : Z) (path : option string) (flags mode : Z) : option file_call :=
  let l := shim_open_flags flags in
  guarded path (fun e => COpenat (at_fdcwd dirfd) e l (creation_mode l mode)).

Definition guest_stat (i : bool) (path : option string) : option file_call := guarded path (CStat i).

Definition guest_lstat (i : bool) (path : option string) : option file_call := guarded path (CLstat i).

Definition guest_fstatat (i : bool) (dirfd : Z) (path : option string) (flags : Z) : option file_call :=
  guarded path (fun e => CFstatat i (at_fdcwd dirfd) e (fstatat_flags flags)).

Definition guest_xstat (ver : Z) (path : option string) : option file_call := guarded path (CXstat ver).

Definition guest_lxstat (ver : Z) (path : option string) : option file_call := guarded path (CLxstat ver).

Definition guest_access (path : option string) (mode : Z) : option file_call :=
  guarded path (fun e => CAccess e mode).

Definition guest_faccessat (dirfd : Z) (path : option string) (mode flags : Z) : option file_call :=
  guarded path (fun e => CFaccessat (at_fdcwd dirfd) e mode (faccessat_flags flags)).

Definition guest_unlinkat (dirfd : Z) (path : option string) (flags : Z) : option file_call :=
  guarded path (fun e => CUnlinkat (at_fdcwd dirfd) e (unlinkat_flags flags)).

Definition guest_linkat (fromfd : Z) (from : option string) (tofd : Z) (to : option string) (flags : Z)
    : option file_call :=
  Some (CLinkat (at_fdcwd fromfd) (effective from) (at_fdcwd tofd) (effective to) (linkat_flags flags)).

Definition guest_symlinkat (target : option string) (dirfd : Z) (linkpath : option string) : option file_call :=
  Some (CSymlinkat target (at_fdcwd dirfd) (effective linkpath)).

Definition guest_readlinkat (dirfd : Z) (path : option string) (bufsiz : Z) : option file_call :=
  guarded path (fun e => CReadlinkat (at_fdcwd dirfd) e bufsiz).

Definition guest_utimensat (dirfd : Z) (path : option string) (times : option (Z * Z)) (flags : Z)
    : option file_call :=
  guarded path (fun e => CUtimensat (at_fdcwd dirfd) e times (utimensat_flags flags)).

Definition guest_mkdir (path : option string) (mode : Z) : option file_call :=
  guarded path (fun e => CMkdir e mode).

Definition guest_unlink (path : option string) : option file_call := guarded path CUnlink.

Definition guest_rename (old newp : option string) : option file_call :=
  Some (CRename (effective old) (effective newp)).

Definition guest_rmdir (path : option string) : option file_call := Some (CRmdir (effective path)).

Definition guest_chdir (path : option string) : option file_call := Some (CChdir (effective path)).

Definition guest_file_call (c : file_call) : option file_call :=
  match c with
  | COpen path flags mode => guest_open path flags mode
  | COpen64 path flags mode => guest_open64 path flags mode
  | COpenat dirfd path flags mode => guest_openat dirfd path flags mode
  | CStat i path => guest_stat i path
  | CLstat i path => guest_lstat i path
  | CFstat i fd => Some (CFstat i fd)
  | CFstatat i dirfd path flags => guest_fstatat i dirfd path flags
  | CXstat ver path => guest_xstat ver path
  | CLxstat ver path => guest_lxstat ver path
  | CFxstat ver fd => Some (CFxstat ver fd)
  | CAccess path mode => guest_access path mode
  | CFaccessat dirfd path mode flags => guest_faccessat dirfd path mode flags
  | CUnlinkat dirfd path flags => guest_unlinkat dirfd path flags
  | CLinkat fromfd from tofd to flags => guest_linkat fromfd from tofd to flags
  | CSymlinkat target dirfd linkpath => guest_symlinkat target dirfd linkpath
  | CReadlinkat dirfd path bufsiz => guest_readlinkat dirfd path bufsiz
  | CUtimensat dirfd path times flags => guest_utimensat dirfd path times flags
  | CMkdir path mode => guest_mkdir path mode
  | CUnlink path => guest_unlink path
  | CRename old newp => guest_rename old newp
  | CRmdir path => guest_rmdir path
  | CChdir path => guest_chdir path
  end.

(** What it asks for anyone else, where it checks. *)
Definition native_call (c : file_call) : file_call :=
  match c with
  | COpen path flags mode => COpen path flags (creation_mode flags mode)
  | COpen64 path flags mode => COpen64 path flags (creation_mode flags mode)
  | COpenat dirfd path flags mode => COpenat dirfd path flags (creation_mode flags mode)
  | c => c
  end.

(** ** stat *)

Record timespec := Timespec { tv_sec : Z; tv_nsec : Z }.

(** [struct stat] of Linux, the fields the code reads. *)
Record linux_stat := LinuxStat {
  ls_dev : Z; ls_ino : Z; ls_nlink : Z; ls_mode : Z; ls_uid : Z; ls_gid : Z; ls_rdev : Z;
  ls_size : Z; ls_blksize : Z; ls_blocks : Z;
  ls_atim : timespec; ls_mtim : timespec; ls_ctim : timespec
}.

Record macos_stat := MacosStat {
  ms_dev : Z; ms_mode : Z; ms_nlink : Z; ms_ino : Z; ms_uid : Z; ms_gid : Z; ms_rdev : Z;
  ms_atim : timespec; ms_mtim : timespec; ms_ctim : timespec; ms_birthtim : timespec;
  ms_size : Z; ms_blocks : Z; ms_blksize : Z;
  ms_flags : Z; ms_gen : Z
}.

Definition translate_stat (ls : linux_stat) : macos_stat :=
  MacosStat (i32 (ls_dev ls)) (u16 (ls_mode ls)) (u16 (ls_nlink ls)) (ls_ino ls) (ls_uid ls)
    (ls_gid ls) (i32 (ls_rdev ls)) (ls_atim ls) (ls_mtim ls) (ls_ctim ls) (ls_ctim ls)
    (ls_size ls) (ls_blocks ls) (i32 (ls_blksize ls)) 0 0.

(** The bytes the guest finds in its buffer, in the order of the struct. *)
Definition timespec_bytes (t : timespec) : list Z := le_bytes 8 (tv_sec t) ++ le_bytes 8 (tv_nsec t).

Definition macos_stat_bytes (ms : macos_stat) : list Z :=
  le_bytes 4 (ms_dev ms) ++ le_bytes 2 (ms_mode ms) ++ le_bytes 2 (ms_nlink ms) ++
  le_bytes 8 (ms_ino ms) ++ le_bytes 4 (ms_uid ms) ++ le_bytes 4 (ms_gid ms) ++
  le_bytes 4 (ms_rdev ms) ++ le_bytes 4 0 ++
  timespec_bytes (ms_atim ms) ++ timespec_bytes (ms_mtim ms) ++ timespec_bytes (ms_ctim ms) ++
  timespec_bytes (ms_birthtim ms) ++
  le_bytes 8 (ms_size ms) ++ le_bytes 8 (ms_blocks ms) ++ le_bytes 4 (ms_blksize ms) ++
  le_bytes 4 (ms_flags ms) ++ le_bytes 4 (ms_gen ms) ++ le_bytes 4 0 ++ le_bytes 8 0 ++ le_bytes 8 0.

(** ** Answers *)

(** What the kernel answers: the result, [errno] after the call, and the
    struct of a stat call. *)
Record answer := Answer { a_ret : Z; a_errno : Z; a_stat : linux_stat }.

(** The caller's buffer after a stat call. *)
Inductive stat_buffer :=
  | Untouched
  | AsLinux (s : linux_stat)
  | AsMacos (s : macos_stat).

Record seen := Seen { s_ret : Z; s_errno : Z; s_buffer : stat_buffer }.

Definition is_stat (c : file_call) : bool :=
  match c with
  | CStat _ _ | CLstat _ _ | CFstat _ _ | CFstatat _ _ _ _
  | CXstat _ _ | CLxstat _ _ | CFxstat _ _ => true
  | _ => false
  end.

(** The wrapper's ending for the answer of its call. *)
Definition finish (translated : bool) (c : file_call) (a : answer) : seen :=
  let buffer :=
    if is_stat c && (a_ret a =? 0)
    then if translated then AsMacos (translate_stat (a_stat a)) else AsLinux (a_stat a)
    else Untouched in
  let clears :=
    match c with
    | COpen _ _ _ | COpen64 _ _ _ | COpenat _ _ _ _ => 0 <=? a_ret a
    | CAccess _ _ => a_ret a =? 0
    | _ => is_stat c && translated && (a_ret a =? 0)
    end in
  Seen (a_ret a) (if clears then 0 else a_errno a) buffer.

(** The calls a wrapper makes, in order, and what its caller sees. *)
Definition file_wrapper (kernel : file_call -> answer) (is_macos : bool) (c : file_call)
    : list file_call * seen :=
  if checks_caller c && negb is_macos then
    let k := native_call c in ([k], finish false c (kernel k))
  else
    match guest_file_call c with
    | None => ([], Seen (-1) ENOENT Untouched)
    | Some k =>
        let a := kernel k in
        match k with
        | CUtimensat dirfd path times flags =>
            if (a_ret a <? 0) && (a_errno a =? EINVAL) then
              let k2 := CUtimensat dirfd path None flags in ([k; k2], finish true c (kernel k2))
            else ([k], finish true c a)
        | _ => ([k], finish true c a)
        end
    end.

End calls.

(** ** Paths that come back *)

(** readlink leaves [target] in the buffer without a terminator, in front of
    what the caller had there; [macify_untranslate_inplace] then reads the
    buffer as a C string.  The buffer and the number of bytes returned; [None]
    where there is no terminator in the buffer. *)
Definition readlink_result (p : process) (target old : string) : option (string * nat) :=
  let buf := target +:+ sdrop (String.length target) old in
  if negb (has_char NUL buf) then None else
  let s := before_char NUL buf in
  match (untranslate_inplace (prefix_env p) (p_prefix p) (Some s)).1 with
  | None => None
  | Some out =>
      if streq out s then Some (buf, String.length target)
      else Some (out +:+ String NUL EmptyString +:+ sdrop (String.length out + 1) buf, String.length target)
  end.

(** realpath into the caller's buffer, and getcwd. *)
Definition guest_result (p : process) (r : option string) : option string :=
  (untranslate_inplace (prefix_env p) (p_prefix p) r).1.

Definition realpath_call (p : process) (real : string -> option string) (path : string) : option string :=
  if macify_should_hide_path (prefix_env p) path then None
  else snprintf 4096 <$> guest_result p (real (host_path p path)).

(** ** Lemmas: flags *)

Definition swap_bits (tbl : list (Z * Z)) : list (Z * Z) := map (fun p => (p.2, p.1)) tbl.

Lemma shim_open_flags_bits f k :
  Z.testbit (shim_open_flags f) k = bit_image shim_open_bits f k.
Proof.
  unfold shim_open_flags. cbv zeta.
  change O_SYNC with (Z.lor (2 ^ 12) (2 ^ 20)).
  rewrite !testbit_lor_if, testbit_land3, Z.lor_spec.
  change 0x4 with (2 ^ 2); change 0x8 with (2 ^ 3); change 0x80 with (2 ^ 7);
  change 0x100 with (2 ^ 8); change 0x200 with (2 ^ 9); change 0x400 with (2 ^ 10);
  change 0x800 with (2 ^ 11); change 0x20000 with (2 ^ 17); change 0x100000 with (2 ^ 20);
  change 0x1000000 with (2 ^ 24).
  rewrite !has_pow2 by lia.
  change O_NONBLOCK with (2 ^ 11); change O_APPEND with (2 ^ 10); change O_NOFOLLOW with (2 ^ 17);
  change O_CREAT with (2 ^ 6); change O_TRUNC with (2 ^ 9); change O_EXCL with (2 ^ 7);
  change O_NOCTTY with (2 ^ 8); change O_CLOEXEC with (2 ^ 19); change O_DIRECTORY with (2 ^ 16).
  rewrite !testbit_pow2 by lia.
  unfold bit_image, shim_open_bits. cbn [existsb fst snd].
  apply eq_true_iff_eq. rewrite !orb_true_iff, !andb_true_iff, !orb_true_iff.
  clear. intuition (auto; discriminate).
Qed.

Lemma has_two_bits z a b : 0 <= a -> 0 <= b ->
  has z (Z.lor (2 ^ a) (2 ^ b)) = Z.testbit z a || Z.testbit z b.
Proof.
  intros Ha Hb. rewrite <- (has_pow2 z a), <- (has_pow2 z b) by done. unfold has.
  rewrite Z.land_lor_distr_r. apply eq_true_iff_eq.
  rewrite orb_true_iff, !negb_true_iff, !Z.eqb_neq, Z.lor_eq_0_iff.
  destruct (Z.eq_dec (Z.land z (2 ^ a)) 0), (Z.eq_dec (Z.land z (2 ^ b)) 0); intuition.
Qed.

Lemma guest_open_flags_bits l k :
  Z.testbit (guest_open_flags l) k = bit_image (swap_bits shim_open_bits) l k.
Proof.
  unfold guest_open_flags. cbv zeta.
  change O_SYNC with (Z.lor (2 ^ 12) (2 ^ 20)).
  rewrite !testbit_lor_if, testbit_land3, has_two_bits by lia.
  change 0x4 with (2 ^ 2); change 0x8 with (2 ^ 3); change 0x80 with (2 ^ 7);
  change 0x100 with (2 ^ 8); change 0x200 with (2 ^ 9); change 0x400 with (2 ^ 10);
  change 0x800 with (2 ^ 11); change 0x20000 with (2 ^ 17); change 0x100000 with (2 ^ 20);
  change 0x1000000 with (2 ^ 24).
  rewrite !testbit_pow2 by lia.
  change O_NONBLOCK with (2 ^ 11); change O_APPEND with (2 ^ 10); change O_NOFOLLOW with (2 ^ 17);
  change O_CREAT with (2 ^ 6); change O_TRUNC with (2 ^ 9); change O_EXCL with (2 ^ 7);
  change O_NOCTTY with (2 ^ 8); change O_CLOEXEC with (2 ^ 19); change O_DIRECTORY with (2 ^ 16).
  rewrite !has_pow2 by lia.
  unfold bit_image, shim_open_bits. cbn [existsb fst snd swap_bits map].
  apply eq_true_iff_eq. rewrite !orb_true_iff, !andb_true_iff, !orb_true_iff.
  clear. intuition (auto; discriminate).
Qed.

(** Moving bits by a table and back leaves the bits the table names. *)
Lemma bit_image_back tbl f l k :
  Forall (fun p => 0 <= p.1) tbl -> NoDup (map snd tbl) ->
  (forall j, Z.testbit l j = bit_image tbl f j) ->
  bit_image (swap_bits tbl) l k = Z.testbit (Z.land f (source_mask tbl)) k.
Proof.
  intros Hpos Hnd Hl. rewrite Z.land_spec, testbit_source_mask by done.
  assert (forall p, p ∈ tbl -> Z.testbit l p.2 = Z.testbit f p.1) as Hat.
  { intros q Hq. rewrite Hl. by apply bit_image_at. }
  unfold bit_image, swap_bits. clear -Hat. induction tbl as [|q tbl IH]; cbn [map existsb fst snd].
  - by rewrite andb_false_r.
  - rewrite IH by (intros r Hr; apply Hat; by right). rewrite Hat by left.
    destruct (Z.eqb_spec q.1 k) as [->|]; cbn [orb andb]; [|done].
    by destruct (Z.testbit f k).
Qed.

Lemma shim_open_bits_ok : Forall (fun p => 0 <= p.1) shim_open_bits /\ NoDup (map snd shim_open_bits).
Proof. split; [repeat constructor; cbn; lia|]. apply (bool_decide_unpack _). vm_compute. exact I. Qed.

Lemma bit_image_ext tbl tbl' f k :
  (forall p, p.1 ∈ map fst (tbl ++ tbl') -> Z.testbit f p.1 = true -> p ∈ tbl <-> p ∈ tbl') ->
  bit_image tbl f k = bit_image tbl' f k.
Proof.
  intros H. unfold bit_image. apply eq_true_iff_eq. rewrite !existsb_exists.
  split; intros [q [Hin Hq]]; exists q; (split; [|done]);
    apply andb_true_iff in Hq as [_ Ht]; apply list_elem_of_In in Hin; apply list_elem_of_In;
    apply H; auto; rewrite map_app, elem_of_app;
    [left|right]; apply list_elem_of_In, in_map, list_elem_of_In; done.
Qed.

(** ** Lemmas: calls *)

Ltac open_wrappers :=
  cbn [guest_file_call];
  unfold guest_open, guest_open64, guest_openat, guest_stat, guest_lstat, guest_fstatat, guest_xstat,
    guest_lxstat, guest_access, guest_faccessat, guest_unlinkat, guest_linkat, guest_symlinkat,
    guest_readlinkat, guest_utimensat, guest_mkdir, guest_unlink, guest_rename, guest_rmdir, guest_chdir,
    guarded; cbv zeta.

Lemma guest_file_call_paths p c k :
  guest_file_call p c = Some k -> call_paths k = map (effective p) (call_paths c).
Proof. destruct c; open_wrappers; try (destruct (hidden p _); [done|]); by intros [= <-]. Qed.

Lemma guest_file_call_hidden p c :
  guest_file_call p c = None <-> hides c = true /\ existsb (hidden p) (call_paths c) = true.
Proof.
  destruct c; open_wrappers; cbn [hides call_paths existsb]; rewrite ?orb_false_r; try (destruct (hidden p _)); intuition discriminate.
Qed.

Lemma guest_file_call_stat p c k : guest_file_call p c = Some k -> is_stat k = is_stat c.
Proof. destruct c; open_wrappers; try (destruct (hidden p _); [done|]); by intros [= <-]. Qed.

Lemma wrapper_calls p kernel c k :
  k ∈ (file_wrapper p kernel true c).1 ->
  exists k0, guest_file_call p c = Some k0 /\ call_paths k = call_paths k0.
Proof.
  unfold file_wrapper. rewrite andb_false_r. destruct (guest_file_call p c) as [k0|]; [|intros []%elem_of_nil].
  cbv zeta. intros H. exists k0. split; [done|]. revert H.
  destruct k0; try (intros ->%list_elem_of_singleton; done).
  destruct (_ && _); cbn [fst].
  - intros [-> | ->%list_elem_of_singleton]%elem_of_cons; done.
  - intros ->%list_elem_of_singleton. done.
Qed.

Lemma bit_image_of tbl f k p :
  p ∈ tbl -> p.2 = k -> Z.testbit f p.1 = true -> bit_image tbl f k = true.
Proof.
  intros Hp <- Ht. apply existsb_exists. exists p. by rewrite Z.eqb_refl, <- list_elem_of_In.
Qed.

(** ** Properties *)

(** C16 (safety): for a guest outside the jail and each of the twenty-two file
    wrappers modelled (open, open64, openat; stat, lstat, fstat and fstatat
    with their INODE64 forms, __xstat, __lxstat and __fxstat; access,
    faccessat; unlinkat, linkat, symlinkat, readlinkat, utimensat; mkdir,
    unlink, rename, rmdir, chdir), every call that reaches the kernel carries
    the guest's paths translated, in their order and with nothing else in
    their place (the text of a symbolic link is not a path here); an absolute
    path whose translation fits the 4096-byte buffer is by then spelled below
    the prefix or below a shared directory; and a wrapper that knows of hidden
    paths makes no call at all for one and fails with ENOENT.  This is about
    the spelling: [..] components and links are not resolved, so it does not
    confine a guest by itself.  opendirat, statfs and stat64, which are not
    among the wrappers above, have findings of their own. *)
Theorem guest_paths_confined (p : process) (kernel : file_call -> answer) (c : file_call) :
  env_MACIFY_JAILED (prefix_env p) = false -> the_prefix p <> EmptyString ->
  (forall k, k ∈ (file_wrapper p kernel true c).1 ->
   call_paths k = map (effective p) (call_paths c) /\
   forall s, Some s ∈ call_paths c -> absolute s -> (String.length (the_prefix p +:+ s) < 4096)%nat ->
   Some (host_path p s) ∈ call_paths k /\
   (within (the_prefix p) (host_path p s) \/ shared (host_path p s))) /\
  (hides c = true -> existsb (hidden p) (call_paths c) = true ->
   file_wrapper p kernel true c = ([], Seen (-1) ENOENT Untouched)).
Proof.
  intros Hj Hp. split.
  - intros k Hk. destruct (wrapper_calls p kernel c k Hk) as (k0 & Hc & E).
    rewrite E, (guest_file_call_paths p c k0 Hc). split; [done|].
    intros s Hs Ha Hl. split; [|by apply host_path_confined].
    apply list_elem_of_In, in_map_iff. exists (Some s). split; [done|]. by apply list_elem_of_In.
  - intros Hh He. unfold file_wrapper. rewrite andb_false_r.
    by rewrite (proj2 (guest_file_call_hidden p c) (conj Hh He)).
Qed.

Definition demo_stat : linux_stat :=
  LinuxStat 0x801 77 1 0x81a4 501 20 0 1234 4096 8 (Timespec 10 1) (Timespec 20 2) (Timespec 30 3).

Definition demo_kernel (c : file_call) : answer := Answer 0 0 demo_stat.

Definition demo_home : process := Process ["HOME=/home/u"; "MACIFY_PREFIX=/p"]%string None.

Lemma guest_paths_confined_witness :
  (file_wrapper demo_home demo_kernel true (CRename (Some "/a"%string) (Some "/tmp/b"%string))).1
    = [CRename (Some "/p/a"%string) (Some "/tmp/b"%string)] /\
  (Some (host_path demo_home "/a") ∈ call_paths (CRename (Some "/p/a"%string) (Some "/tmp/b"%string)) /\
   (within (the_prefix demo_home) (host_path demo_home "/a") \/ shared (host_path demo_home "/a"))) /\
  file_wrapper demo_home demo_kernel true (COpen (Some "/home/u/.cache/x"%string) 0 0)
    = ([], Seen (-1) ENOENT Untouched).
Proof.
  pose proof (guest_paths_confined demo_home demo_kernel
    (CRename (Some "/a"%string) (Some "/tmp/b"%string)) eq_refl ltac:(discriminate)) as [H _].
  pose proof (guest_paths_confined demo_home demo_kernel
    (COpen (Some "/home/u/.cache/x"%string) 0 0) eq_refl ltac:(discriminate)) as [_ H'].
  split; [vm_compute; reflexivity|]. split; [|by apply H'].
  refine (proj2 (H (CRename (Some "/p/a"%string) (Some "/tmp/b"%string)) _) "/a"%string _ _ _).
  - apply list_elem_of_In. left. vm_compute. reflexivity.
  - left.
  - by exists "a"%string.
  - vm_compute. lia.
Defined.

(** The shim's open flags and those of the patched system
    call agree exactly on the words without O_ASYNC and without O_DIRECTORY:
    the shim drops the first and the system call path the second. *)
Theorem open_flags_agree (f : Z) :
  shim_open_flags f = translate_open_flags f <->
  Z.testbit f 6 = false /\ Z.testbit f 20 = false.
Proof.
  split.
  - intros E. split; apply not_true_iff_false; intros Ht.
    + assert (Z.testbit (shim_open_flags f) 13 = true) as F.
      { rewrite E, open_flags_bits. by apply (bit_image_of _ _ _ (6, 13)); [apply (bool_decide_unpack _)|..]. }
      rewrite shim_open_flags_bits in F. discriminate F.
    + assert (Z.testbit (translate_open_flags f) 16 = true) as F.
      { rewrite <- E, shim_open_flags_bits.
        by apply (bit_image_of _ _ _ (20, 16)); [apply (bool_decide_unpack _)|..]. }
      rewrite open_flags_bits in F. discriminate F.
  - intros [H6 H20]. apply Z.bits_inj'. intros k _.
    rewrite shim_open_flags_bits, open_flags_bits. unfold bit_image, shim_open_bits, open_flag_bits.
    cbn [existsb fst snd]. rewrite H6, H20. apply eq_true_iff_eq.
    rewrite !orb_true_iff, !andb_true_iff. clear. intuition (auto; discriminate).
Qed.

(** The flags a guest sets on a descriptor (open, F_SETFL)
    come back from F_GETFL as it wrote them, cut to the twelve bits the shim
    knows. *)
Theorem open_flags_roundtrip (f : Z) :
  guest_open_flags (shim_open_flags f) = Z.land f (source_mask shim_open_bits).
Proof.
  destruct shim_open_bits_ok as [Hpos Hnd]. apply Z.bits_inj'. intros k _.
  rewrite guest_open_flags_bits. apply bit_image_back; [done..|]. apply shim_open_flags_bits.
Qed.

(** The [n] bytes at offset [off], as a little-endian number. *)
Definition field_at (bytes : list Z) (off n : nat) : Z := le_value (take n (drop off bytes)).

Lemma field_le bytes off n v :
  take n (drop off bytes) = le_bytes n v -> field_at bytes off n = v mod 2 ^ (8 * Z.of_nat n).
Proof. intros E. unfold field_at. by rewrite E, le_value_bytes. Qed.

Lemma mod_i32 z : i32 z mod 2 ^ 32 = z mod 2 ^ 32.
Proof.
  unfold i32, signed. cbv zeta. destruct (_ <? _); [apply Z.mod_mod; lia|].
  replace (z mod 2 ^ 32 - 2 ^ 32) with (z mod 2 ^ 32 + (-1) * 2 ^ 32) by lia.
  rewrite Z_mod_plus_full. apply Z.mod_mod. lia.
Qed.

(** A successful stat of a guest fills 144 bytes in the
    layout of macOS: each field of the kernel's struct at the offset the
    struct declares, reduced to the width macOS has for it (16 bits of mode
    and link count, 32 of the device), the birth time being the change time;
    and clears errno. *)
Theorem stat_layout (p : process) (kernel : file_call -> answer) (c k : file_call) :
  is_stat c = true -> guest_file_call p c = Some k -> a_ret (kernel k) = 0 ->
  let ls := a_stat (kernel k) in
  let bytes := macos_stat_bytes (translate_stat ls) in
  file_wrapper p kernel true c = ([k], Seen 0 0 (AsMacos (translate_stat ls))) /\
  length bytes = 144%nat /\
  field_at bytes 0 4 = ls_dev ls mod 2 ^ 32 /\ field_at bytes 4 2 = ls_mode ls mod 2 ^ 16 /\
  field_at bytes 6 2 = ls_nlink ls mod 2 ^ 16 /\ field_at bytes 8 8 = ls_ino ls mod 2 ^ 64 /\
  field_at bytes 16 4 = ls_uid ls mod 2 ^ 32 /\ field_at bytes 20 4 = ls_gid ls mod 2 ^ 32 /\
  field_at bytes 24 4 = ls_rdev ls mod 2 ^ 32 /\
  field_at bytes 32 8 = tv_sec (ls_atim ls) mod 2 ^ 64 /\
  field_at bytes 48 8 = tv_sec (ls_mtim ls) mod 2 ^ 64 /\
  field_at bytes 64 8 = tv_sec (ls_ctim ls) mod 2 ^ 64 /\
  field_at bytes 80 8 = tv_sec (ls_ctim ls) mod 2 ^ 64 /\
  field_at bytes 96 8 = ls_size ls mod 2 ^ 64 /\ field_at bytes 104 8 = ls_blocks ls mod 2 ^ 64 /\
  field_at bytes 112 4 = ls_blksize ls mod 2 ^ 32 /\
  field_at bytes 116 4 = 0 /\ field_at bytes 120 4 = 0.
Proof.
  intros Hs Hc Hr ls bytes. split.
  { unfold file_wrapper. rewrite andb_false_r, Hc. cbv zeta.
    assert (finish true c (kernel k) = Seen 0 0 (AsMacos (translate_stat ls))) as Hf.
    { unfold finish. rewrite Hs, Hr. destruct c; try discriminate Hs; reflexivity. }
    pose proof (guest_file_call_stat p c k Hc) as Hk. rewrite Hs in Hk.
    destruct k; try discriminate Hk; by rewrite Hf. }
  unfold bytes. clear -ls. split; [reflexivity|].
  split_and!; (etransitivity; [apply field_le; reflexivity|]); cbn [translate_stat ms_dev ms_mode ms_nlink ms_ino
    ms_uid ms_gid ms_rdev ms_size ms_blocks ms_blksize];
    change (8 * Z.of_nat 4) with 32; change (8 * Z.of_nat 2) with 16; change (8 * Z.of_nat 8) with 64;
    rewrite ?mod_i32; try reflexivity; apply Z.mod_mod; lia.
Qed.

Lemma stat_layout_witness :
  file_wrapper demo_home demo_kernel true (CStat false (Some "/x"%string)) =
    ([CStat false (Some "/p/x"%string)], Seen 0 0 (AsMacos (translate_stat demo_stat))) /\
  field_at (macos_stat_bytes (translate_stat demo_stat)) 4 2 = 0x81a4 /\
  field_at (macos_stat_bytes (translate_stat demo_stat)) 96 8 = 1234.
Proof.
  destruct (stat_layout demo_home demo_kernel (CStat false (Some "/x"%string)) (CStat false (Some "/p/x"%string))
    eq_refl ltac:(vm_compute; reflexivity) eq_refl)
    as (H1 & _ & _ & H2 & _ & _ & _ & _ & _ & _ & _ & _ & _ & H3 & _).
  split_and!; [exact H1|exact H2|exact H3].
Defined.

Lemma sdrop_app_le k a b : (k <= String.length a)%nat -> sdrop k (a +:+ b) = sdrop k a +:+ b.
Proof.
  revert a. induction k as [|k IH]; intros a Hk; [by destruct a|].
  destruct a as [|c a]; [cbn in Hk; lia|]. apply IH. cbn in Hk. lia.
Qed.

Lemma length_sdrop k s : String.length (sdrop k s) = (String.length s - k)%nat.
Proof. revert s. induction k as [|k IH]; intros [|c s]; cbn; auto. Qed.

Lemma stake_app a b : stake (String.length a) (a +:+ b) = a.
Proof. induction a as [|c a IH]; [by destruct b|]. exact (f_equal (String c) IH). Qed.

Lemma has_char_app c a b : has_char c (a +:+ b) = has_char c a || has_char c b.
Proof. induction a as [|d a IH]; [done|]. cbn. by rewrite <- orb_assoc, <- IH. Qed.

Lemma before_char_prefix c a b :
  has_char c a = false -> shead b = Some c -> before_char c (a +:+ b) = a.
Proof.
  intros Ha Hb. induction a as [|d a IH].
  - destruct b as [|e b]; [done|]. injection Hb as ->.
    change (before_char c (EmptyString +:+ String c b)) with
      (if Ascii.eqb c c then EmptyString else String c (before_char c b)). by rewrite Ascii.eqb_refl.
  - cbn [has_char] in Ha. apply orb_false_iff in Ha as [E Ha].
    change (String d a +:+ b) with (String d (a +:+ b)). cbn [before_char]. by rewrite E, (IH Ha).
Qed.

Lemma sdrop_zeros k n :
  (k < n)%nat -> exists z, sdrop k (string_of_bytes (replicate n 0)) = String NUL z.
Proof.
  revert n. induction k as [|k IH]; intros [|n] Hk; [lia|by eexists|lia|]. apply IH. lia.
Qed.

Lemma untranslate_in_prefix p rest :
  the_prefix p <> EmptyString ->
  (untranslate_inplace (prefix_env p) (p_prefix p) (Some (the_prefix p +:+ "/" +:+ rest))).1
  = Some ("/" +:+ rest).
Proof.
  unfold the_prefix, untranslate_inplace. destruct (macify_get_prefix _ _) as [pfx st]. cbn [fst].
  intros Hp. destruct (Nat.eqb_spec (String.length pfx) 0) as [E|_]; [by destruct pfx|].
  assert (slash_at (String.length pfx) (pfx +:+ "/" +:+ rest) = true) as Hs
    by (apply slash_at_app; by exists rest).
  assert (end_at (String.length pfx) (pfx +:+ "/" +:+ rest) = false) as He
    by (apply not_true_iff_false; rewrite end_at_app; done).
  assert (starts_with pfx (pfx +:+ "/" +:+ rest) = true) as Hw by (apply starts_with_spec; eauto).
  rewrite Hs, He, Hw. cbn [andb orb fst]. by rewrite sdrop_app.
Qed.

(** Readlink hands a target inside the prefix back as the
    guest's path, but with the length of the host's: the bytes the guest is
    told are the target are its path, a NUL and the tail of the host path. *)
Theorem readlink_keeps_host_length (p : process) (rest : string) (n : nat) :
  the_prefix p <> EmptyString -> has_char NUL (the_prefix p +:+ "/" +:+ rest) = false ->
  let target := (the_prefix p +:+ "/" +:+ rest)%string in
  (String.length target < n)%nat ->
  exists buf,
    readlink_result p target (string_of_bytes (replicate n 0)) = Some (buf, String.length target) /\
    stake (String.length target) buf =
      (("/" +:+ rest) +:+ String NUL EmptyString +:+ sdrop (String.length rest + 2) target)%string.
Proof.
  intros Hp Hnul target Hn. unfold readlink_result.
  destruct (sdrop_zeros (String.length target) n Hn) as [z Hz]. rewrite Hz. cbv zeta.
  rewrite has_char_app. cbn [has_char]. rewrite Ascii.eqb_refl, orb_true_r. cbn [negb].
  rewrite before_char_prefix by done. unfold target at 1. rewrite untranslate_in_prefix by done.
  assert (String.length target = (String.length (the_prefix p) + S (String.length rest))%nat) as Hl
    by (unfold target; by rewrite !string_length_app).
  assert (0 < String.length (the_prefix p))%nat as Hpl by (destruct (the_prefix p); [done|cbn; lia]).
  unfold streq. rewrite bool_decide_false by (intros E; apply (f_equal String.length) in E;
    change (S (String.length rest) = String.length target) in E; lia).
  eexists. split; [done|].
  change (String.length ("/" +:+ rest) + 1)%nat with (S (String.length rest) + 1)%nat.
  replace (S (String.length rest) + 1)%nat with (String.length rest + 2)%nat by lia.
  rewrite sdrop_app_le by lia.
  set (shown := ("/" +:+ rest) +:+ String NUL EmptyString +:+ sdrop (String.length rest + 2) target).
  assert (String.length target = String.length shown) as E.
  { unfold shown. rewrite !string_length_app, length_sdrop, Hl.
    change (String.length "/") with 1%nat. change (String.length (String NUL EmptyString)) with 1%nat. lia. }
  rewrite E. etransitivity; [|apply (stake_app shown (String NUL z))]. f_equal.
  unfold shown. by rewrite !string_app_assoc.
Qed.

Lemma readlink_keeps_host_length_witness :
  readlink_result demo_home "/p/bin/x" (string_of_bytes (replicate 20 0)) =
    Some (("/bin/x" +:+ String NUL "x")%string +:+ string_of_bytes (replicate 12 0), 8%nat) /\
  exists buf, readlink_result demo_home "/p/bin/x" (string_of_bytes (replicate 20 0)) = Some (buf, 8%nat) /\
    stake 8 buf = ("/bin/x" +:+ String NUL "x")%string.
Proof.
  split; [vm_compute; reflexivity|].
  exact (readlink_keeps_host_length demo_home "bin/x" 20 ltac:(discriminate) eq_refl ltac:(vm_compute; lia)).
Defined.

(** The AT_ flags of macOS (AT_EACCESS 0x10, AT_SYMLINK_NOFOLLOW 0x20,
    AT_SYMLINK_FOLLOW 0x40, AT_REMOVEDIR 0x80) that the wrappers lose: no
    combination of them has an effect in unlinkat, linkat or utimensat, and
    the bit unlinkat does know is not the one Linux has for AT_REMOVEDIR. *)
Lemma at_flags_lost f :
  Z.land f 0xf0 = f -> unlinkat_flags f = 0 /\ linkat_flags f = 0 /\ utimensat_flags f = 0 /\
  unlinkat_flags 0x200 = 0x100.
Proof.
  intros E. assert (forall m, Z.land 0xf0 m = 0 -> has f m = false) as H.
  { intros m Hm. unfold has. by rewrite <- E, <- Z.land_assoc, Hm, Z.land_0_r. }
  unfold unlinkat_flags, linkat_flags, utimensat_flags. by rewrite !H.
Qed.

(** ** The 64-bit names *)

(** stat64, lstat64, fstat64, fstatat64 and the __xstat64 family call the
    plain wrapper.  [shim_addr] is the return address it sees: an address of
    the shim when the call is compiled as a call, that of the guest when the
    compiler turns it into a jump. *)
Definition stat64_wrapper (p : process) (kernel : file_call -> answer) (t : text_state) (shim_addr : Z) (c : file_call)
    : list file_call * seen := file_wrapper p kernel (caller_is_macos_text t shim_addr) c.

(** The plain and the $INODE64 name of the same call. *)
Definition inode64_of (c : file_call) : file_call :=
  match c with
  | CStat _ q => CStat true q | CLstat _ q => CLstat true q | CFstat _ fd => CFstat true fd
  | CFstatat _ d q fl => CFstatat true d q fl | c => c
  end.

(** When the plain wrapper sees an address that is not the guest's, a guest
    that calls stat under one of its 64-bit names is taken
    for a Linux program: the path reaches the host as it is, neither hidden
    nor translated, and the buffer is filled in Linux's layout.  The $INODE64
    names, which do not ask for the caller, treat it as the plain ones do. *)
Theorem stat64_untranslated (p : process) (kernel : file_call -> answer) (t : text_state) (shim_addr : Z) (c : file_call) :
  caller_is_macos_text t shim_addr = false -> is_stat c = true -> checks_caller c = true ->
  stat64_wrapper p kernel t shim_addr c =
    ([c], Seen (a_ret (kernel c)) (a_errno (kernel c))
            (if a_ret (kernel c) =? 0 then AsLinux (a_stat (kernel c)) else Untouched)) /\
  (forall k, guest_file_call p c = Some k -> kernel (inode64_of k) = kernel k ->
     (file_wrapper p kernel true (inode64_of c)).2 = (file_wrapper p kernel true c).2).
Proof.
  intros Ht Hs Hc. split.
  - unfold stat64_wrapper, file_wrapper. rewrite Ht, Hc. cbn [andb negb].
    unfold finish. rewrite Hs. destruct c; try discriminate Hs; cbn [native_call andb]; by destruct (_ =? 0).
  - intros k Hk Hkern. destruct c as [| | |i q|i q|i fd|i d q fl|v q|v q|v fd|?|?|?|?|?|?|?|?|?|?|?|?]; try discriminate Hs; try reflexivity;
      cbn [inode64_of guest_file_call checks_caller] in *; unfold file_wrapper; cbn [checks_caller negb andb];
      rewrite ?andb_false_r; cbn [guest_file_call];
      unfold guest_stat, guest_lstat, guest_fstatat, guarded in *; try (destruct (hidden p _); [done|]); try (injection Hk as <-; cbn [inode64_of] in Hkern; by rewrite Hkern).
Qed.
