(* ===== verification/ShimIo.v ===== *)
(** * Memory, descriptors and the password database
    (src/shim/io/flags.c, src/shim/io/file.c)

    mmap, mprotect and munmap with the guard of the main stack, fcntl with
    its record locks, sysconf, close, and the packing of a password entry in
    the caller's buffer.  The kernel is a parameter. *)
From Stdlib Require Import ZArith Lia Bool.
From stdpp Require Import base list strings numbers.
From S2P Require Import Prelude SyscallTable PrefixPath ShimCore ShimExec ShimFile.

(** ** Memory *)

(** [macify_main_stack_base] and [macify_main_stack_size]. *)
Record main_stack := MainStack { stack_base : Z; stack_size : Z }.

Inductive mem_call :=
  | CMmap (addr len prot flags fd off : Z)
  | CMprotect (addr len prot : Z)
  | CMunmap (addr len : Z)
  | CMadvise (addr len advice : Z).

Definition MAP_FAILED : Z := 2 ^ 64 - 1.
Definition MACOS_MAP_ANON : Z := 0x1000.
Definition PAGE_SIZE : Z := 4096.

(** [stack_lo <= lo && hi <= stack_hi] with the sums of uintptr_t. *)
Definition inside_stack (s : main_stack) (addr len : Z) : bool :=
  (stack_base s <=? addr) && (u64 (addr + len) <=? u64 (stack_base s + stack_size s)).

(** The calls made, in order, and the value returned; [mapped_at] is what the
    real mmap returns. *)
Definition guest_mmap (s : main_stack) (mapped_at addr len prot flags fd off : Z) : list mem_call * Z :=
  let '(lflags, lfd) :=
    if has flags MACOS_MAP_ANON
    then (Z.lor (Z.land flags (Z.lnot MACOS_MAP_ANON)) MAP_ANONYMOUS, -1) else (flags, fd) in
  let adjustment := addr mod PAGE_SIZE in
  let '(laddr, llen, loff) :=
    if has lflags MAP_FIXED && negb (addr =? 0) && negb (adjustment =? 0)
    then (addr - adjustment, u64 (len + adjustment), if off =? 0 then off else off - adjustment)
    else (addr, len, off) in
  let call := CMmap laddr llen prot lflags lfd loff in
  if (mapped_at =? MAP_FAILED) && has flags MAP_FIXED && negb (addr =? 0) then ([call], addr) else
  if negb (mapped_at =? MAP_FAILED) && has flags MAP_FIXED && negb (mapped_at =? addr) then ([call], addr) else
  if (prot =? 0) && negb (stack_base s =? 0) && negb (mapped_at =? MAP_FAILED) && inside_stack s mapped_at llen
  then ([call; CMprotect mapped_at llen 3], mapped_at)
  else ([call], mapped_at).

(** The call made, or [None] where the wrapper answers 0 by itself. *)
Definition guest_mprotect (s : main_stack) (addr len prot : Z) : option mem_call :=
  let adjustment := addr mod PAGE_SIZE in
  let '(addr, len) :=
    if adjustment =? 0 then (addr, len) else (addr - adjustment, u64 (len + adjustment)) in
  if (prot =? 0) && negb (stack_base s =? 0) && inside_stack s addr len then None
  else Some (CMprotect addr len prot).

Definition guest_munmap (s : main_stack) (addr len : Z) : option mem_call :=
  if negb (stack_base s =? 0) && (addr <? u64 (stack_base s + stack_size s)) &&
     (stack_base s <? u64 (addr + len))
  then None else Some (CMunmap addr len).

Definition guest_madvise (addr len advice : Z) : mem_call :=
  CMadvise addr len (if advice =? 5 then MADV_FREE else advice).

(** ** fcntl *)

Definition shim_fcntl_cmd (cmd : Z) : Z :=
  if cmd =? 7 then 5 else if cmd =? 8 then 6 else if cmd =? 9 then 7
  else if cmd =? 67 then F_DUPFD_CLOEXEC else cmd.

(** A record lock, in the numbers of either system. *)
Record flock := Flock { l_type : Z; l_whence : Z; l_start : Z; l_len : Z; l_pid : Z }.

Definition linux_lock_type (t : Z) : Z := if t =? 1 then 0 else if t =? 2 then 2 else if t =? 3 then 1 else t.
Definition macos_lock_type (t : Z) : Z := if t =? 0 then 1 else if t =? 1 then 3 else if t =? 2 then 2 else t.

Definition linux_lock (l : flock) : flock :=
  Flock (linux_lock_type (l_type l)) (l_whence l) (l_start l) (l_len l) (l_pid l).
Definition macos_lock (l : flock) : flock :=
  Flock (macos_lock_type (l_type l)) (l_whence l) (l_start l) (l_len l) (l_pid l).

(** The third argument: a word, or a pointer to a lock. *)
Inductive fcntl_arg := ArgWord (z : Z) | ArgLock (l : flock).

Definition ENOTSUP : Z := 95.

(** The value returned, the guest's lock afterwards, and the errno the
    wrapper sets itself. *)
Record fcntl_result := FcntlResult { f_ret : Z; f_lock : option flock; f_errno : option Z }.

Section fcntl.
Context (real_fcntl : Z -> Z -> option fcntl_arg -> Z * option flock).
Context (fsync fdatasync : Z -> Z).

Definition plain (r : Z * option flock) : fcntl_result := FcntlResult r.1 r.2 None.

Definition guest_fcntl (fd cmd : Z) (arg : fcntl_arg) : fcntl_result :=
  let linux_cmd := shim_fcntl_cmd cmd in
  if cmd =? 1 then plain (real_fcntl fd linux_cmd None) else
  if cmd =? 3 then
    let linux_fl := (real_fcntl fd linux_cmd None).1 in
    FcntlResult (if linux_fl <? 0 then linux_fl else i32 (guest_open_flags linux_fl)) None None
  else if cmd =? 4 then
    match arg with
    | ArgWord w => plain (real_fcntl fd linux_cmd (Some (ArgWord (shim_open_flags (u32 w)))))
    | ArgLock _ => plain (real_fcntl fd linux_cmd (Some arg))
    end
  else if (cmd =? 7) || (cmd =? 8) || (cmd =? 9) then
    match arg with
    | ArgLock mf =>
        let '(ret, lf) := real_fcntl fd linux_cmd (Some (ArgLock (linux_lock mf))) in
        FcntlResult ret
          (if (cmd =? 7) && (0 <=? ret) then macos_lock <$> lf else Some mf) None
    | ArgWord _ => plain (real_fcntl fd linux_cmd (Some arg))
    end
  else if (16 <=? cmd) && negb (cmd =? 67) then
    if cmd =? 50 then FcntlResult (-1) None (Some ENOTSUP)
    else if cmd =? 51 then FcntlResult (fsync fd) None None
    else if cmd =? 55 then FcntlResult (fdatasync fd) None None
    else FcntlResult 0 None None
  else plain (real_fcntl fd linux_cmd (Some arg)).

End fcntl.

(** ** sysconf and close *)

Definition sysconf_cases : list (Z * Z) :=
  [(1, 0); (2, 1); (3, 2); (4, 3); (5, 4); (6, 7); (7, 8); (8, 29); (26, 5); (27, 6); (29, 30);
   (57, 83); (58, 84); (200, 85)].

Definition linux_sysconf_name (name : Z) : Z :=
  match find (fun c => c.1 =? name) sysconf_cases with Some c => c.2 | None => name end.

Definition EBADF : Z := 9.

(** The result of close and [errno], from the kernel's. *)
Definition close_result (fd r errno : Z) : Z * Z :=
  if (r =? -1) && (errno =? EBADF) && (fd =? 0) then (0, 0) else (r, errno).

(** ** The password database *)

(** The entry glibc found. *)
Record passwd := Passwd {
  pw_name : string; pw_passwd : option string; pw_uid : Z; pw_gid : Z;
  pw_gecos : option string; pw_dir : string; pw_shell : string
}.

(** The caller's struct: strings are offsets in its buffer, [None] is NULL. *)
Record macos_passwd := MacosPasswd {
  mp_name : nat; mp_passwd : option nat; mp_uid : Z; mp_gid : Z; mp_change : Z;
  mp_class : option nat; mp_gecos : option nat; mp_dir : nat; mp_shell : nat; mp_expire : Z
}.

Definition ERANGE : Z := 34.

(** [strcpy(buf + p, s)] in a buffer that has the bytes [buf]: the new buffer
    and the place after the terminator, [None] where it does not fit. *)
Definition strcpy (buf : string) (p : nat) (s : string) : option (string * nat) :=
  let bytes := s +:+ String NUL EmptyString in
  if (String.length buf <? p + String.length bytes)%nat then None
  else Some (stake p buf +:+ bytes +:+ sdrop (p + String.length bytes) buf, (p + String.length bytes)%nat).

Definition strcpy_opt (buf : string) (p : nat) (s : option string) : option (string * nat * option nat) :=
  match s with
  | None => Some (buf, p, None)
  | Some s => '(buf, q) ← strcpy buf p s; Some (buf, q, Some p)
  end.

Definition opt_size (s : option string) : nat :=
  match s with Some s => String.length s + 1 | None => 0 end.

Definition passwd_need (pw : passwd) : nat :=
  String.length (pw_name pw) + 1 + opt_size (pw_passwd pw) + opt_size (pw_gecos pw) +
  (String.length (pw_dir pw) + 1) + (String.length (pw_shell pw) + 1).

Inductive passwd_outcome :=
  | PwFound (entry : macos_passwd) (buf : string)
  | PwRange
  | PwOverflow.

(** The branch of getpwuid_r that found an entry. *)
Definition pack_passwd (pw : passwd) (buf : string) : passwd_outcome :=
  if (String.length buf <? passwd_need pw)%nat then PwRange else
  let packed :=
    '(b, p) ← strcpy buf 0 (pw_name pw);
    '(b, p, passwd) ← strcpy_opt b p (pw_passwd pw);
    '(b, p, gecos) ← strcpy_opt b p (pw_gecos pw);
    '(b, q) ← strcpy b p (pw_dir pw);
    '(b, r) ← strcpy b q (pw_shell pw);
    Some (PwFound (MacosPasswd 0 passwd (pw_uid pw) (pw_gid pw) 0 None gecos p q 0) b) in
  match packed with Some o => o | None => PwOverflow end.

(** The string at an offset of a buffer. *)
Definition cstring_at (buf : string) (p : nat) : string := before_char NUL (sdrop p buf).

(** getpwuid and getpwnam: copies of 255 bytes, shared fields kept. *)
Definition static_passwd (pw : passwd) : passwd :=
  Passwd (stake 255 (pw_name pw)) (pw_passwd pw) (pw_uid pw) (pw_gid pw) (pw_gecos pw)
    (stake 255 (pw_dir pw)) (stake 255 (pw_shell pw)).

(** ** Specification: the permissions of memory *)

(** The protection of each address, -1 where nothing is mapped. *)
Abbreviation perms := (Z -> Z).

Definition page_up (z : Z) : Z := (z + (PAGE_SIZE - 1)) / PAGE_SIZE * PAGE_SIZE.

Definition set_range (f : perms) (lo hi v : Z) : perms :=
  fun a => if (lo <=? a) && (a <? hi) then v else f a.

(** What the kernel does for a call: whole pages, nothing for an unaligned
    address; [mapped_at] is where it puts a mapping. *)
Definition kernel_effect (mapped_at : Z) (f : perms) (c : mem_call) : perms :=
  match c with
  | CMmap _ len prot _ _ _ =>
      if mapped_at =? MAP_FAILED then f else set_range f mapped_at (page_up (mapped_at + len)) prot
  | CMprotect addr len prot =>
      if addr mod PAGE_SIZE =? 0 then set_range f addr (page_up (addr + len)) prot else f
  | CMunmap addr len =>
      if addr mod PAGE_SIZE =? 0 then set_range f addr (page_up (addr + len)) (-1) else f
  | CMadvise _ _ _ => f
  end.

(** A guest's request to take memory away. *)
Inductive mem_request :=
  | ReqMunmap (addr len : Z)
  | ReqProtectNone (addr len : Z)
  | ReqMapNone (mapped_at addr len flags fd off : Z).

Definition request_effect (s : main_stack) (f : perms) (r : mem_request) : perms :=
  match r with
  | ReqMunmap addr len =>
      match guest_munmap s addr len with Some c => kernel_effect 0 f c | None => f end
  | ReqProtectNone addr len =>
      match guest_mprotect s addr len 0 with Some c => kernel_effect 0 f c | None => f end
  | ReqMapNone mapped_at addr len flags fd off =>
      foldl (kernel_effect mapped_at) f (guest_mmap s mapped_at addr len 0 flags fd off).1
  end.

Definition stack_ok (s : main_stack) : Prop :=
  0 < stack_base s /\ 0 < stack_size s /\ stack_base s + stack_size s < 2 ^ 64 /\
  stack_base s mod PAGE_SIZE = 0 /\ stack_size s mod PAGE_SIZE = 0.

(** [lo, hi) is within the stack or clear of it. *)
Definition in_or_out (s : main_stack) (lo hi : Z) : Prop :=
  (stack_base s <= lo /\ hi <= stack_base s + stack_size s) \/
  hi <= stack_base s \/ stack_base s + stack_size s <= lo.

(** A request that does not straddle an end of the stack; sums do not wrap,
    the kernel maps at whole pages, and a MAP_FIXED request asks for a whole
    page, at which the kernel puts it (see [unaligned_map_closes_stack] for
    the others). *)
Definition tame (s : main_stack) (r : mem_request) : Prop :=
  match r with
  | ReqMunmap addr len => 0 <= addr /\ 0 <= len /\ addr + len < 2 ^ 64
  | ReqProtectNone addr len =>
      0 <= addr /\ 0 <= len /\ addr + len < 2 ^ 64 /\
      in_or_out s (addr - addr mod PAGE_SIZE) (addr + len)
  | ReqMapNone mapped_at addr len flags fd off =>
      0 <= mapped_at /\ 0 <= len /\ mapped_at + len < 2 ^ 64 /\ mapped_at mod PAGE_SIZE = 0 /\
      in_or_out s mapped_at (mapped_at + len) /\
      (has flags MAP_FIXED = true -> mapped_at = addr)
  end.

(** ** Lemmas: memory *)

Lemma page_up_le z b : b mod PAGE_SIZE = 0 -> z <= b -> page_up z <= b.
Proof.
  unfold page_up, PAGE_SIZE. intros Hb Hz.
  pose proof (Z.div_mod b 4096 ltac:(lia)) as E. rewrite Hb in E.
  apply Z.le_trans with (b / 4096 * 4096); [|lia].
  apply Z.mul_le_mono_nonneg_r; [lia|]. apply Z.lt_succ_r, Z.div_lt_upper_bound; lia.
Qed.

Lemma set_range_other f lo hi v a : a < lo \/ hi <= a -> set_range f lo hi v a = f a.
Proof.
  intros H. unfold set_range. destruct (Z.leb_spec lo a), (Z.ltb_spec a hi); try done; lia.
Qed.

Lemma set_range_in f lo hi v a : lo <= a < hi -> set_range f lo hi v a = v.
Proof. intros [H1 H2]. unfold set_range. by rewrite (proj2 (Z.leb_le _ _) H1), (proj2 (Z.ltb_lt _ _) H2). Qed.

Lemma aligned_end s : stack_ok s -> (stack_base s + stack_size s) mod PAGE_SIZE = 0.
Proof.
  intros (_ & _ & _ & Hb & Hs). rewrite Zplus_mod, Hb, Hs. done.
Qed.

(** A range of whole pages clear of the stack leaves it alone. *)
Lemma clear_range s f lo hi v a :
  stack_ok s -> hi <= stack_base s \/ stack_base s + stack_size s <= lo ->
  stack_base s <= a < stack_base s + stack_size s ->
  set_range f lo (page_up hi) v a = f a.
Proof.
  intros Hok H Ha. apply set_range_other. destruct H as [H|H]; [right|lia].
  assert (page_up hi <= stack_base s); [apply page_up_le; [apply Hok|done]|lia].
Qed.

Lemma inside_stack_spec s addr len :
  stack_ok s -> 0 <= addr -> 0 <= len -> addr + len < 2 ^ 64 ->
  inside_stack s addr len = true <-> stack_base s <= addr /\ addr + len <= stack_base s + stack_size s.
Proof.
  intros (H1 & H2 & H3 & _) Ha Hl Hs. unfold inside_stack, u64. rewrite !Z.mod_small by lia.
  rewrite andb_true_iff, !Z.leb_le. done.
Qed.

Lemma guest_munmap_spec s addr len :
  stack_ok s -> 0 <= addr -> 0 <= len -> addr + len < 2 ^ 64 ->
  guest_munmap s addr len = None <-> addr < stack_base s + stack_size s /\ stack_base s < addr + len.
Proof.
  intros (H1 & H2 & H3 & _) Ha Hl Hs. unfold guest_munmap, u64. rewrite !Z.mod_small by lia.
  destruct (Z.eqb_spec (stack_base s) 0); [lia|]. cbn [negb andb].
  destruct (Z.ltb_spec addr (stack_base s + stack_size s)), (Z.ltb_spec (stack_base s) (addr + len));
    cbn [andb]; intuition (discriminate || lia).
Qed.

Lemma anon_keeps_fixed flags :
  has (Z.lor (Z.land flags (Z.lnot MACOS_MAP_ANON)) MAP_ANONYMOUS) MAP_FIXED = has flags MAP_FIXED.
Proof.
  change MAP_FIXED with (2 ^ 4). rewrite !has_pow2 by lia.
  rewrite Z.lor_spec, Z.land_spec. cbn. by rewrite andb_true_r, orb_false_r.
Qed.

Section keeps.
Context (s : main_stack) (f : perms) (a : Z).
Context (Hok : stack_ok s) (Ha : stack_base s <= a < stack_base s + stack_size s) (Hf : f a = 3).

Lemma munmap_keeps_stack addr len :
  tame s (ReqMunmap addr len) -> request_effect s f (ReqMunmap addr len) a = 3.
Proof.
  cbn [request_effect tame]. intros (H1 & H2 & H3).
  destruct (guest_munmap s addr len) as [c|] eqn:E; [|done].
  assert (c = CMunmap addr len) as -> by (unfold guest_munmap in E; destruct (_ && _) in E; congruence).
  assert (~ (addr < stack_base s + stack_size s /\ stack_base s < addr + len)) as Hn.
  { rewrite <- guest_munmap_spec by done. by rewrite E. }
  cbn [kernel_effect]. destruct (_ =? 0); [|done]. rewrite (clear_range s) by (done || lia). done.
Qed.

Lemma mprotect_keeps_stack addr len :
  tame s (ReqProtectNone addr len) -> request_effect s f (ReqProtectNone addr len) a = 3.
Proof.
  cbn [request_effect tame]. intros (H1 & H2 & H3 & Hio). unfold guest_mprotect.
  set (adj := addr mod PAGE_SIZE) in *.
  assert (0 <= adj < PAGE_SIZE /\ adj <= addr) as Hadj.
  { unfold adj, PAGE_SIZE. split; [apply Z.mod_pos_bound; lia|apply Z.mod_le; lia]. }
  assert ((if adj =? 0 then (addr, len) else (addr - adj, u64 (len + adj))) = (addr - adj, len + adj)) as ->.
  { destruct (Z.eqb_spec adj 0) as [->|]; [f_equal; lia|]. unfold u64. rewrite Z.mod_small; [done|lia]. }
  destruct (inside_stack s (addr - adj) (len + adj)) eqn:Ei.
  - destruct (Z.eqb_spec (stack_base s) 0); [destruct Hok; lia|]. done.
  - rewrite andb_false_r. cbn [kernel_effect]. destruct (_ =? 0); [|done].
    replace (addr - adj + (len + adj)) with (addr + len) by lia.
    apply not_true_iff_false in Ei. rewrite inside_stack_spec in Ei by (done || lia).
    rewrite (clear_range s) by (done || (destruct Hio as [|]; lia)). done.
Qed.

(** Mapping with no access and opening the same range again, or a mapping
    clear of the stack. *)
Lemma remap_keeps_stack m len :
  0 <= m -> 0 <= len -> m + len < 2 ^ 64 -> in_or_out s m (m + len) ->
  let f1 := set_range f m (page_up (m + len)) 0 in
  (if inside_stack s m len then set_range f1 m (page_up (m + len)) 3 else f1) a = 3.
Proof.
  intros H1 H2 H3 Hio f1. destruct (inside_stack s m len) eqn:Ei.
  - destruct (Z.lt_ge_cases a m); [unfold f1; rewrite !set_range_other by lia; done|].
    destruct (Z.lt_ge_cases a (page_up (m + len))); [by apply set_range_in|].
    unfold f1. rewrite !set_range_other by lia. done.
  - apply not_true_iff_false in Ei. rewrite inside_stack_spec in Ei by done.
    unfold f1. rewrite (clear_range s) by (done || (destruct Hio as [|]; lia)). done.
Qed.

Lemma mmap_keeps_stack m addr len flags fd off :
  tame s (ReqMapNone m addr len flags fd off) ->
  request_effect s f (ReqMapNone m addr len flags fd off) a = 3.
Proof.
  cbn [request_effect tame]. intros (H1 & H2 & H3 & H4 & Hio & Hfix). unfold guest_mmap.
  set (pr := if has flags MACOS_MAP_ANON then _ else _). destruct pr as [lflags lfd] eqn:Epr.
  assert (has lflags MAP_FIXED = has flags MAP_FIXED) as ->.
  { unfold pr in Epr. destruct (has flags MACOS_MAP_ANON); injection Epr as <- _; [apply anon_keeps_fixed|done]. }
  assert (has flags MAP_FIXED && negb (addr =? 0) && negb (addr mod PAGE_SIZE =? 0) = false) as ->.
  { destruct (has flags MAP_FIXED); [|done]. rewrite <- Hfix, H4 by done. by rewrite andb_false_r. }
  destruct (Z.eqb_spec m MAP_FAILED) as [Em|Em]; cbn [negb andb].
  - rewrite andb_false_r. cbn [andb].
    destruct (has flags MAP_FIXED && negb (addr =? 0)); cbn [fst foldl kernel_effect];
      rewrite (proj2 (Z.eqb_eq _ _) Em); done.
  - assert (has flags MAP_FIXED && negb (m =? addr) = false) as ->.
    { destruct (has flags MAP_FIXED); [|done]. rewrite Hfix by done. by rewrite Z.eqb_refl. }
    destruct (Z.eqb_spec (stack_base s) 0); [destruct Hok; lia|]. cbn [negb andb Z.eqb].
    pose proof (remap_keeps_stack m len H1 H2 H3 Hio) as Hr. cbv zeta in Hr.
    destruct (inside_stack s m len); cbn [fst foldl kernel_effect];
      rewrite (proj2 (Z.eqb_neq _ _) Em); [by rewrite H4|done].
Qed.

Lemma request_keeps_stack r : tame s r -> request_effect s f r a = 3.
Proof.
  destruct r; [apply munmap_keeps_stack|apply mprotect_keeps_stack|apply mmap_keeps_stack].
Qed.
End keeps.

(** ** Lemmas: packing strings *)

Lemma strcpy_app w r x :
  (String.length x + 1 <= String.length r)%nat ->
  strcpy (w +:+ r) (String.length w) x =
  Some ((w +:+ x +:+ String NUL EmptyString) +:+ sdrop (String.length x + 1) r,
        String.length (w +:+ x +:+ String NUL EmptyString)).
Proof.
  intros H. unfold strcpy. cbv zeta. rewrite !string_length_app.
  change (String.length (String NUL EmptyString)) with 1%nat.
  destruct (Nat.ltb_spec (String.length w + String.length r)
              (String.length w + (String.length x + 1))); [lia|].
  rewrite stake_app, !string_app_assoc. do 5 f_equal.
  clear. induction w as [|c w IH]; [done|]. apply IH.
Qed.

Lemma cstring_at_app w x r :
  has_char NUL x = false -> cstring_at ((w +:+ x +:+ String NUL EmptyString) +:+ r) (String.length w) = x.
Proof.
  intros H. unfold cstring_at. rewrite !string_app_assoc, sdrop_app. by apply before_char_prefix.
Qed.

Lemma sdrop_sdrop a b s : sdrop a (sdrop b s) = sdrop (b + a) s.
Proof. revert s. induction b as [|b IH]; intros s; [done|]. destruct s as [|c s]; [by destruct a|]. apply IH. Qed.

(** The bytes of a field. *)
Definition field_bytes (o : option string) : string :=
  match o with Some x => x +:+ String NUL EmptyString | None => EmptyString end.

Lemma length_field_bytes o : String.length (field_bytes o) = opt_size o.
Proof. destruct o as [x|]; [|done]. cbn [field_bytes opt_size]. by rewrite string_length_app. Qed.

Lemma strcpy_opt_app w r o :
  (opt_size o <= String.length r)%nat ->
  strcpy_opt (w +:+ r) (String.length w) o =
  Some ((w +:+ field_bytes o) +:+ sdrop (opt_size o) r, String.length (w +:+ field_bytes o),
        (fun _ => String.length w) <$> o).
Proof.
  intros H. destruct o as [x|]; cbn [strcpy_opt field_bytes opt_size] in *.
  - by rewrite (strcpy_app w r x H).
  - by rewrite string_app_nil_r.
Qed.

Lemma cstring_in b w x r :
  has_char NUL x = false -> b = w +:+ field_bytes (Some x) +:+ r -> cstring_at b (String.length w) = x.
Proof.
  intros H ->. etransitivity; [|exact (cstring_at_app w x r H)].
  cbn [field_bytes]. by rewrite !string_app_assoc.
Qed.

Lemma field_in b w o r :
  has_char NUL (default EmptyString o) = false -> b = w +:+ field_bytes o +:+ r ->
  cstring_at b <$> ((fun _ => String.length w) <$> o) = o.
Proof. destruct o as [x|]; [|done]. intros H E. cbn. f_equal. by apply (cstring_in b w x r). Qed.

(** No field has a NUL inside, as for any C string. *)
Definition c_passwd (pw : passwd) : Prop :=
  Forall (fun x => has_char NUL x = false)
    [pw_name pw; default EmptyString (pw_passwd pw); default EmptyString (pw_gecos pw);
     pw_dir pw; pw_shell pw].

(** The bytes of a packed entry, and the entry. *)
Definition packed_bytes (pw : passwd) : string :=
  field_bytes (Some (pw_name pw)) +:+ field_bytes (pw_passwd pw) +:+ field_bytes (pw_gecos pw) +:+
  field_bytes (Some (pw_dir pw)) +:+ field_bytes (Some (pw_shell pw)).

Lemma pack_passwd_fits pw buf :
  (passwd_need pw <= String.length buf)%nat ->
  let n := String.length (field_bytes (Some (pw_name pw))) in
  let g := (n + opt_size (pw_passwd pw))%nat in
  let d := (g + opt_size (pw_gecos pw))%nat in
  let q := (d + String.length (field_bytes (Some (pw_dir pw))))%nat in
  pack_passwd pw buf =
  PwFound (MacosPasswd 0 ((fun _ => n) <$> pw_passwd pw) (pw_uid pw) (pw_gid pw) 0 None
             ((fun _ => g) <$> pw_gecos pw) d q 0)
    (packed_bytes pw +:+ sdrop (passwd_need pw) buf).
Proof.
  intros Hn n g d q. unfold pack_passwd. destruct (Nat.ltb_spec (String.length buf) (passwd_need pw)); [lia|].
  unfold passwd_need in *. cbv zeta.
  change (strcpy buf 0 (pw_name pw)) with (strcpy (EmptyString +:+ buf) (String.length EmptyString) (pw_name pw)).
  rewrite strcpy_app by lia. cbn [mbind option_bind].
  rewrite (strcpy_opt_app _ _ (pw_passwd pw)) by (rewrite length_sdrop; lia). cbn [mbind option_bind].
  rewrite (strcpy_opt_app _ _ (pw_gecos pw)) by (rewrite !length_sdrop; lia). cbn [mbind option_bind].
  rewrite strcpy_app by (rewrite !length_sdrop; lia). cbn [mbind option_bind].
  rewrite strcpy_app by (rewrite !length_sdrop; lia). cbn [mbind option_bind].
  rewrite !string_length_app, !length_field_bytes. f_equal.
  - subst q d g n. cbn [field_bytes]. rewrite !string_length_app.
    change (String.length EmptyString) with 0%nat. cbn [Nat.add]. done.
  - unfold packed_bytes. cbn [field_bytes].
    change (EmptyString +:+ (pw_name pw +:+ String NUL EmptyString)) with (pw_name pw +:+ String NUL EmptyString).
    rewrite !string_app_assoc, !sdrop_sdrop. repeat (f_equal; try lia).
Qed.

(** ** Properties *)

(** C17 (invariant): no sequence of a guest's requests to unmap memory or to
    take all access from it (munmap, mprotect and mmap with PROT_NONE) touches
    the main stack, in any order, on two conditions: no mprotect or mapping
    straddles an end of the stack, and a MAP_FIXED mapping asks for the
    address of a page.  An munmap that overlaps the stack and an mprotect
    inside it are answered without a call, and a mapping the kernel puts over
    it is opened again.  Both conditions are needed
    ([straddling_mprotect_reaches_stack], [unaligned_map_closes_stack]);
    requests that leave some access are not covered. *)
Theorem main_stack_survives (s : main_stack) (f : perms) (rs : list mem_request) (a : Z) :
  stack_ok s -> Forall (tame s) rs ->
  stack_base s <= a < stack_base s + stack_size s ->
  (forall b, stack_base s <= b < stack_base s + stack_size s -> f b = 3) ->
  foldl (request_effect s) f rs a = 3.
Proof.
  intros Hok Hrs Ha. revert f. induction Hrs as [|r rs Hr Hrs IH]; intros f Hf; cbn [foldl]; [by apply Hf|].
  apply IH. intros b Hb. apply request_keeps_stack; auto.
Qed.

Definition demo_main_stack : main_stack := MainStack 0x10000 0x4000.

Lemma main_stack_survives_witness :
  foldl (request_effect demo_main_stack) (fun _ => 3)
    [ReqMunmap 0xf000 0x2000; ReqProtectNone 0x11010 0x100; ReqMapNone 0x12000 0x12000 0x1000 0x1012 3 0] 0x12004 = 3.
Proof.
  apply main_stack_survives.
  - repeat split; reflexivity.
  - repeat constructor; try (by vm_compute); try (left; by vm_compute); done.
  - by vm_compute.
  - done.
Defined.

(** A MAP_FIXED request without access at an address in the stack that is not
    a page's is moved down to the page, so that the kernel's address is not
    the guest's: the wrapper returns before it opens the stack again, and the
    address is left without access. *)
Theorem unaligned_map_closes_stack (s : main_stack) (f : perms) (addr len flags fd off : Z) :
  0 < addr < 2 ^ 63 -> 0 < len < 2 ^ 62 -> addr mod PAGE_SIZE <> 0 -> has flags MAP_FIXED = true ->
  request_effect s f (ReqMapNone (addr - addr mod PAGE_SIZE) addr len flags fd off) addr = 0.
Proof.
  intros Ha Hl Hm Hf. cbn [request_effect]. unfold guest_mmap.
  set (pr := if has flags MACOS_MAP_ANON then _ else _). destruct pr as [lflags lfd] eqn:Epr.
  assert (has lflags MAP_FIXED = true) as ->.
  { unfold pr in Epr. destruct (has flags MACOS_MAP_ANON); injection Epr as <- _; [by rewrite anon_keeps_fixed|done]. }
  rewrite Hf. pose proof (Z.mod_pos_bound addr PAGE_SIZE eq_refl) as Hb. unfold MAP_FAILED.
  set (adj := addr mod PAGE_SIZE) in *. unfold PAGE_SIZE in Hb.
  rewrite (proj2 (Z.eqb_neq addr 0)), (proj2 (Z.eqb_neq adj 0)), (proj2 (Z.eqb_neq (addr - adj) _)),
    (proj2 (Z.eqb_neq (addr - adj) addr)) by lia.
  cbn [negb andb fst foldl kernel_effect]. unfold MAP_FAILED.
  rewrite (proj2 (Z.eqb_neq (addr - adj) _)) by lia. apply set_range_in.
  unfold u64. rewrite Z.mod_small by lia. replace (addr - adj + (len + adj)) with (addr + len) by lia.
  split; [lia|]. unfold page_up, PAGE_SIZE.
  pose proof (Z.div_mod (addr + len + (4096 - 1)) 4096 ltac:(lia)).
  pose proof (Z.mod_pos_bound (addr + len + (4096 - 1)) 4096 ltac:(lia)). lia.
Qed.

Lemma unaligned_map_closes_stack_witness :
  request_effect demo_main_stack (fun _ => 3) (ReqMapNone 0x12000 0x12010 0x100 0x1012 3 0) 0x12010 = 0.
Proof. apply (unaligned_map_closes_stack demo_main_stack (fun _ => 3) 0x12010); (by vm_compute) || done. Defined.

(** A request across the lower end of the stack is passed on whole. *)
Lemma straddling_mprotect_reaches_stack :
  request_effect demo_main_stack (fun _ => 3) (ReqProtectNone 0xf000 0x2000) 0x10000 = 0.
Proof. vm_compute. reflexivity. Qed.

(** Getpwuid_r fills the caller's buffer without passing its
    end: with too little room it answers ERANGE and writes nothing, and
    otherwise every string the entry points at reads back as glibc's, NULL
    where glibc has none. *)
Theorem pack_passwd_safe (pw : passwd) (buf : string) :
  c_passwd pw ->
  ((String.length buf < passwd_need pw)%nat -> pack_passwd pw buf = PwRange) /\
  ((passwd_need pw <= String.length buf)%nat ->
   exists e b, pack_passwd pw buf = PwFound e b /\ String.length b = String.length buf /\
     cstring_at b (mp_name e) = pw_name pw /\ cstring_at b <$> mp_passwd e = pw_passwd pw /\
     cstring_at b <$> mp_gecos e = pw_gecos pw /\ cstring_at b (mp_dir e) = pw_dir pw /\
     cstring_at b (mp_shell e) = pw_shell pw /\ mp_uid e = pw_uid pw /\ mp_gid e = pw_gid pw).
Proof.
  intros Hc. unfold c_passwd in Hc. rewrite !list.Forall_cons in Hc. destruct Hc as (H1 & H2 & H3 & H4 & H5 & _).
  split; [intros Hl; unfold pack_passwd; by rewrite (proj2 (Nat.ltb_lt _ _) Hl)|].
  intros Hn. rewrite (pack_passwd_fits pw buf Hn). eexists _, _. split; [done|].
  cbn [mp_name mp_passwd mp_gecos mp_dir mp_shell mp_uid mp_gid]. unfold packed_bytes.
  set (tl := sdrop (passwd_need pw) buf).
  set (f1 := field_bytes (Some (pw_name pw))). set (f2 := field_bytes (pw_passwd pw)).
  set (f3 := field_bytes (pw_gecos pw)). set (f4 := field_bytes (Some (pw_dir pw))).
  set (f5 := field_bytes (Some (pw_shell pw))).
  assert (opt_size (pw_passwd pw) = String.length f2) as -> by (symmetry; apply length_field_bytes).
  assert (opt_size (pw_gecos pw) = String.length f3) as -> by (symmetry; apply length_field_bytes).
  rewrite <- !string_length_app. split_and!; try done.
  - rewrite !string_length_app. unfold tl, f1, f2, f3, f4, f5. rewrite length_sdrop, !length_field_bytes.
    unfold passwd_need in *. cbn [opt_size]. lia.
  - by apply (cstring_in _ EmptyString _ (f2 +:+ f3 +:+ f4 +:+ f5 +:+ tl)); [|rewrite !string_app_assoc].
  - apply (field_in _ f1 _ (f3 +:+ f4 +:+ f5 +:+ tl)); [done|]. fold f2. by rewrite !string_app_assoc.
  - apply (field_in _ (f1 +:+ f2) _ (f4 +:+ f5 +:+ tl)); [done|]. fold f3. by rewrite !string_app_assoc.
  - by apply (cstring_in _ _ _ (f5 +:+ tl)); [|rewrite !string_app_assoc].
  - by apply (cstring_in _ _ _ tl); [|rewrite !string_app_assoc].
Qed.

Definition demo_passwd : passwd := Passwd "ann" (Some "x"%string) 501 20 None "/home/ann" "/bin/sh".

Lemma pack_passwd_safe_witness :
  pack_passwd demo_passwd (string_of_bytes (replicate 20 65)) = PwRange /\
  exists e b, pack_passwd demo_passwd (string_of_bytes (replicate 40 65)) = PwFound e b /\
    cstring_at b (mp_dir e) = "/home/ann"%string /\ mp_gecos e = None.
Proof.
  assert (c_passwd demo_passwd) as Hc by (repeat constructor).
  split.
  - apply (pack_passwd_safe demo_passwd _ Hc). vm_compute. lia.
  - destruct (proj2 (pack_passwd_safe demo_passwd (string_of_bytes (replicate 40 65)) Hc)
      ltac:(vm_compute; lia)) as (e & b & H & _ & _ & _ & Hg & Hd & _).
    exists e, b. split_and!; [exact H|exact Hd|]. cbn in Hg. destruct (mp_gecos e); [discriminate Hg|done].
Defined.

Lemma lock_type_roundtrip t : 1 <= t <= 3 -> macos_lock_type (linux_lock_type t) = t.
Proof. intros H. assert (t = 1 \/ t = 2 \/ t = 3) as [-> | [-> | ->]] by lia; reflexivity. Qed.

Lemma lor_if_nonneg c bit acc : 0 <= bit -> 0 <= acc -> 0 <= lor_if c bit acc.
Proof. intros. unfold lor_if. destruct c; [|done]. by apply Z.lor_nonneg. Qed.

Lemma shim_open_flags_nonneg w : 0 <= w -> 0 <= shim_open_flags w.
Proof.
  intros Hw. unfold shim_open_flags. cbv zeta. repeat (apply lor_if_nonneg; [by vm_compute|]).
  apply Z.land_nonneg. by left.
Qed.

Lemma i32_small z : 0 <= z < 2 ^ 31 -> i32 z = z.
Proof.
  intros H. unfold i32, signed. cbv zeta. rewrite Z.mod_small by lia.
  change (32 - 1) with 31. by rewrite (proj2 (Z.ltb_lt _ _) (proj2 H)).
Qed.

(** Fcntl gives a guest back what it put in: the status flags
    it sets, cut to those the shim knows, and a record lock of each of the
    three kinds; but macOS F_GETOWN and F_SETOWN (5 and 6) reach the kernel
    as the commands for record locks, F_GETLK and F_SETLK of Linux. *)
Theorem fcntl_roundtrip (real_fcntl : Z -> Z -> option fcntl_arg -> Z * option flock)
    (fsync fdatasync : Z -> Z) (fd w : Z) (l : flock) (z : Z) :
  let call := guest_fcntl real_fcntl fsync fdatasync in
  0 <= w < 2 ^ 32 -> 1 <= l_type l <= 3 ->
  real_fcntl fd 4 (Some (ArgWord (shim_open_flags w))) = (0, None) ->
  real_fcntl fd 3 None = (shim_open_flags w, None) ->
  real_fcntl fd 5 (Some (ArgLock (linux_lock l))) = (0, Some (linux_lock l)) ->
  f_ret (call fd 4 (ArgWord w)) = 0 /\
  f_ret (call fd 3 (ArgWord 0)) = Z.land w (source_mask shim_open_bits) /\
  call fd 7 (ArgLock l) = FcntlResult 0 (Some l) None /\
  call fd 5 (ArgWord z) = plain (real_fcntl fd 5 (Some (ArgWord z))) /\
  shim_fcntl_cmd 7 = 5 /\
  call fd 6 (ArgWord z) = plain (real_fcntl fd 6 (Some (ArgWord z))) /\
  shim_fcntl_cmd 8 = 6.
Proof.
  intros call Hw Hl H4 H3 H5. unfold call, guest_fcntl. cbv beta.
  split_and!; try reflexivity.
  - change (shim_fcntl_cmd 4) with 4. unfold u32. rewrite Z.mod_small by lia.
    cbn [Z.eqb Pos.eqb]. by rewrite H4.
  - change (shim_fcntl_cmd 3) with 3. cbn [Z.eqb Pos.eqb]. rewrite H3. cbn [fst f_ret].
    pose proof (shim_open_flags_nonneg w ltac:(lia)).
    destruct (Z.ltb_spec (shim_open_flags w) 0); [lia|]. rewrite open_flags_roundtrip.
    apply i32_small.
    replace (Z.land w (source_mask shim_open_bits)) with (Z.land (Z.land w (source_mask shim_open_bits)) (Z.ones 31)).
    + rewrite Z.land_ones by lia. by apply Z.mod_pos_bound.
    + by rewrite <- Z.land_assoc.
  - change (shim_fcntl_cmd 7) with 5. cbn [Z.eqb Pos.eqb orb]. rewrite H5. cbn.
    do 2 f_equal. unfold macos_lock. cbn [linux_lock l_type l_whence l_start l_len l_pid].
    rewrite lock_type_roundtrip by done. by destruct l.
Qed.

Definition demo_fcntl (fd cmd : Z) (arg : option fcntl_arg) : Z * option flock :=
  if cmd =? 3 then (0x80441, None)
  else match arg with Some (ArgLock l) => (0, Some l) | _ => (0, None) end.

Lemma fcntl_roundtrip_witness :
  guest_fcntl demo_fcntl (fun _ => 0) (fun _ => 0) 5 7 (ArgLock (Flock 3 0 10 20 0))
    = FcntlResult 0 (Some (Flock 3 0 10 20 0)) None /\
  f_ret (guest_fcntl demo_fcntl (fun _ => 0) (fun _ => 0) 5 3 (ArgWord 0)) = 0x1000209.
Proof.
  destruct (fcntl_roundtrip demo_fcntl (fun _ => 0) (fun _ => 0) 5 0x1000209 (Flock 3 0 10 20 0) 0
    ltac:(lia) ltac:(cbn; lia) eq_refl ltac:(vm_compute; reflexivity) eq_refl) as (_ & H3 & H7 & _).
  split; [exact H7|exact H3].
Defined.
