(* ===== verification/Termios.v ===== *)
(** * Terminal attributes (src/shim/io/file.c, termios)

    [struct termios] differs between the systems in its flags, the indices of
    the control characters and the numbers for speeds.  A row of a table is
    one "if (f & m) g |= l" of the source.  The terminal itself is a
    parameter of the round trip: it gives back what was stored. *)
From Stdlib Require Import ZArith Lia Bool.
From stdpp Require Import base list strings numbers.
From S2P Require Import Prelude SyscallTable ShimFile.

(** [if (f & m) acc |= l;] for each row, in order. *)
Definition move_bits (rows : list (Z * Z)) (f acc : Z) : Z :=
  foldl (fun acc r => lor_if (has f r.1) r.2 acc) acc rows.

(** ** Flags *)

Definition iflag_linux_to_mac (lf : Z) : Z :=
  move_bits [(0x400, 0x200); (0x1000, 0x400)] lf (Z.land lf (Z.lnot (Z.lor 0x400 0x1000))).

Definition iflag_mac_to_linux (mf : Z) : Z :=
  move_bits [(0x200, 0x400); (0x400, 0x1000)] mf (Z.land mf (Z.lnot (Z.lor 0x200 0x400))).

Definition oflag_linux_to_mac (lf : Z) : Z :=
  move_bits [(0x004, 0x002); (0x008, 0x010); (0x010, 0x020); (0x020, 0x040); (0x040, 0x080);
             (0x080, 0x20000)] lf (Z.land lf 0x1).

Definition oflag_mac_to_linux (mf : Z) : Z :=
  move_bits [(0x002, 0x004); (0x010, 0x008); (0x020, 0x010); (0x040, 0x020); (0x080, 0x040);
             (0x20000, 0x080); (0x004, 0xc00)] mf (Z.land mf 0x1).

(** The switch on the character size. *)
Definition csize_linux_to_mac (v : Z) : Z :=
  if v =? 0x10 then 0x100 else if v =? 0x20 then 0x200 else if v =? 0x30 then 0x300 else 0.
Definition csize_mac_to_linux (v : Z) : Z :=
  if v =? 0x100 then 0x10 else if v =? 0x200 then 0x20 else if v =? 0x300 then 0x30 else 0.

Definition cflag_linux_to_mac (lf : Z) : Z :=
  move_bits [(0x040, 0x400); (0x080, 0x800); (0x100, 0x1000); (0x200, 0x2000); (0x400, 0x4000);
             (0x800, 0x8000)] lf (csize_linux_to_mac (Z.land lf 0x30)).

Definition cflag_mac_to_linux (mf : Z) : Z :=
  move_bits [(0x400, 0x040); (0x800, 0x080); (0x1000, 0x100); (0x2000, 0x200); (0x4000, 0x400);
             (0x8000, 0x800)] mf (csize_mac_to_linux (Z.land mf 0x300)).

Definition lflag_linux_to_mac (lf : Z) : Z :=
  move_bits [(0x800, 0x001); (0x010, 0x002); (0x020, 0x004); (0x008, 0x008); (0x040, 0x010);
             (0x400, 0x020); (0x200, 0x040); (0x001, 0x080); (0x002, 0x100); (0x8000, 0x400);
             (0x10000, 0x800); (0x100, 0x400000); (0x1000, 0x800000); (0x4000, 0x4000000);
             (0x80, 0x80000000)] lf 0.

Definition lflag_mac_to_linux (mf : Z) : Z :=
  move_bits [(0x001, 0x800); (0x002, 0x010); (0x004, 0x020); (0x008, 0x008); (0x010, 0x040);
             (0x020, 0x400); (0x040, 0x200); (0x080, 0x001); (0x100, 0x002); (0x400, 0x8000);
             (0x800, 0x10000); (0x400000, 0x100); (0x800000, 0x1000); (0x4000000, 0x4000);
             (0x80000000, 0x80)] mf 0.

(** ** Control characters *)

(** [mc[p.1] = lc[p.2]] for each row; the other slots are 0. *)
Definition cc_rows : list (nat * nat) :=
  [(0, 4); (1, 11); (2, 16); (3, 2); (5, 3); (6, 12); (8, 0); (9, 1); (10, 10); (12, 8); (13, 9);
   (14, 15); (15, 13); (16, 6); (17, 5)]%nat.

Definition copy_slots (rows : list (nat * nat)) (from to : list Z) : list Z :=
  foldl (fun to r => <[r.1 := nth r.2 from 0]> to) to rows.

Definition c_cc_linux_to_mac (lc : list Z) : list Z := copy_slots cc_rows lc (replicate 20 0).

Definition c_cc_mac_to_linux (mc : list Z) : list Z :=
  copy_slots (map (fun r => (r.2, r.1)) cc_rows) mc (replicate 32 0).

(** ** Speeds *)

Definition cbaud_code_to_rate : list Z :=
  [0; 50; 75; 110; 134; 150; 200; 300; 600; 1200; 1800; 2400; 4800; 9600; 19200; 38400].

(** The high codes of the kernel; the last four are only decoded. *)
Definition high_codes : list (Z * Z) :=
  [(0x1001, 57600); (0x1002, 115200); (0x1003, 230400); (0x1004, 460800); (0x1005, 500000);
   (0x1006, 576000); (0x1007, 921600); (0x1008, 1000000); (0x1009, 1152000); (0x100a, 1500000);
   (0x100b, 2000000); (0x100c, 2500000); (0x100d, 3000000); (0x100e, 3500000); (0x100f, 4000000)].

Definition speed_linux_to_mac (ls : Z) : Z :=
  if ls <=? 15 then nth (Z.to_nat ls) cbaud_code_to_rate 0 else
  match find (fun c => c.1 =? ls) high_codes with Some c => c.2 | None => ls end.

Definition speed_mac_to_linux (ms : Z) : Z := if ms =? 76800 then 115200 else ms.

(** [for (i = 0; i < 16; i++)] from index [i]. *)
Fixpoint rate_index (i : Z) (rates : list Z) (rate : Z) : option Z :=
  match rates with
  | [] => None
  | r :: rates => if r =? rate then Some i else rate_index (i + 1) rates rate
  end.

Definition speed_to_cbaud_code (rate : Z) : Z :=
  match rate_index 0 cbaud_code_to_rate rate with
  | Some i => i
  | None =>
      match find (fun c => c.2 =? rate) (take 11 high_codes) with Some c => c.1 | None => 0xf end
  end.

(** ** tcgetattr and tcsetattr *)

Record termios := Termios {
  c_iflag : Z; c_oflag : Z; c_cflag : Z; c_lflag : Z; c_cc : list Z; c_ispeed : Z; c_ospeed : Z
}.

(** What the guest sees of the Linux struct; [ispeed] and [ospeed] are what
    cfgetispeed and cfgetospeed say of it. *)
Definition guest_termios (lt : termios) (ispeed ospeed : Z) : termios :=
  Termios (iflag_linux_to_mac (c_iflag lt)) (oflag_linux_to_mac (c_oflag lt))
    (cflag_linux_to_mac (c_cflag lt)) (lflag_linux_to_mac (c_lflag lt))
    (c_cc_linux_to_mac (c_cc lt)) (speed_linux_to_mac ispeed) (speed_linux_to_mac ospeed).

(** The Linux struct tcsetattr builds. *)
Definition linux_termios (mt : termios) : termios :=
  let iflag := Z.lor (iflag_mac_to_linux (c_iflag mt)) 0x100 in
  let lflag := lflag_mac_to_linux (c_lflag mt) in
  let cc := c_cc_mac_to_linux (c_cc mt) in
  let cc := if has lflag 0x002 && negb (has iflag 0x100) then <[11%nat := 13]> cc else cc in
  let ospeed := speed_mac_to_linux (c_ospeed mt) in
  Termios iflag (oflag_mac_to_linux (c_oflag mt))
    (Z.lor (Z.land (cflag_mac_to_linux (c_cflag mt)) (Z.lnot 0x100f)) (speed_to_cbaud_code ospeed))
    lflag cc (speed_mac_to_linux (c_ispeed mt)) ospeed.

(** Speeds as glibc reports them: the stored rate since 2.42, the code in
    [c_cflag] before. *)
Definition stored_speed (lt : termios) : Z := c_ospeed lt.
Definition coded_speed (lt : termios) : Z := Z.land (c_cflag lt) 0x100f.

(** ** Lemmas: moving bits *)

Lemma testbit_move_bits rows f acc k :
  Z.testbit (move_bits rows f acc) k =
  Z.testbit acc k || existsb (fun r => Z.testbit r.2 k && has f r.1) rows.
Proof.
  revert acc. induction rows as [|r rows IH]; intros acc; cbn [move_bits foldl existsb].
  - by rewrite orb_false_r.
  - change (foldl _ _ rows) with (move_bits rows f (lor_if (has f r.1) r.2 acc)).
    rewrite IH, testbit_lor_if, <- orb_assoc. f_equal. f_equal. apply andb_comm.
Qed.

Definition masks (tbl : list (Z * Z)) : list (Z * Z) := map (fun p => (2 ^ p.1, 2 ^ p.2)) tbl.

Definition nonneg_bits (tbl : list (Z * Z)) : Prop := Forall (fun p => 0 <= p.1 /\ 0 <= p.2) tbl.

Lemma existsb_masks tbl f k :
  nonneg_bits tbl ->
  existsb (fun r => Z.testbit r.2 k && has f r.1) (masks tbl) = bit_image tbl f k.
Proof.
  intros H. induction H as [|p tbl [H1 H2] H IH]; [done|].
  cbn [masks map existsb bit_image fst snd]. unfold masks, bit_image in IH. rewrite IH.
  by rewrite testbit_pow2, has_pow2.
Qed.

(** Where a table puts a bit, whatever the rows after it put elsewhere. *)
Lemma moved_bit tbl extra f p :
  nonneg_bits tbl -> NoDup (map snd tbl) ->
  Forall (fun p => existsb (fun r => Z.testbit r.2 p.2) extra = false) tbl -> p ∈ tbl ->
  Z.testbit (move_bits (masks tbl ++ extra) f 0) p.2 = Z.testbit f p.1.
Proof.
  intros Hn Hnd He Hp. rewrite testbit_move_bits, Z.bits_0, existsb_app, existsb_masks, bit_image_at by done.
  rewrite list.Forall_forall in He. specialize (He p Hp). cbn [orb].
  assert (existsb (fun r => Z.testbit r.2 p.2 && has f r.1) extra = false) as ->; [|by rewrite orb_false_r].
  clear -He. induction extra as [|r extra IH]; [done|]. cbn [existsb] in *.
  apply orb_false_iff in He as [-> He]. by rewrite IH.
Qed.

(** Moving bits by a table and back. *)
Lemma move_bits_back tbl f l :
  nonneg_bits tbl -> (forall p, p ∈ tbl -> Z.testbit l p.2 = Z.testbit f p.1) ->
  move_bits (masks (swap_bits tbl)) l 0 = Z.land f (source_mask tbl).
Proof.
  intros Hn Hat. apply Z.bits_inj'. intros k _.
  rewrite testbit_move_bits, Z.bits_0, existsb_masks; cbn [orb].
  2: { clear -Hn. induction Hn as [|p tbl [] Hn IH]; cbn; constructor; auto. }
  rewrite Z.land_spec, testbit_source_mask by (eapply list.Forall_impl; [exact Hn|by intros ? []]).
  unfold bit_image, swap_bits. clear Hn. induction tbl as [|q tbl IH]; cbn [map existsb fst snd].
  - by rewrite andb_false_r.
  - rewrite IH by (intros r Hr; apply Hat; by right). rewrite Hat by left.
    destruct (Z.eqb_spec q.1 k) as [->|]; cbn [orb andb]; [|done]. by destruct (Z.testbit f k).
Qed.

Lemma move_bits_app r1 r2 f acc : move_bits (r1 ++ r2) f acc = move_bits r2 f (move_bits r1 f acc).
Proof. apply foldl_app. Qed.

Lemma land_1_row f : Z.land f 1 = move_bits [(1, 1)] f 0.
Proof.
  apply Z.bits_inj'. intros k _. rewrite testbit_move_bits, Z.bits_0. cbn [existsb fst snd orb].
  change 1 with (2 ^ 0). rewrite Z.land_spec, has_pow2, testbit_pow2 by lia.
  destruct (Z.eqb_spec 0 k) as [E|]; cbn [andb orb]; [subst k; by rewrite andb_true_r, orb_false_r|by rewrite andb_false_r].
Qed.

(** A fact about the low [n] bits of a word, checked on each of their values. *)
Lemma low_bits_ind (n : nat) (P : Z -> bool) f :
  forallb P (map Z.of_nat (seq 0 (2 ^ n))) = true -> P (f mod 2 ^ Z.of_nat n) = true.
Proof.
  intros H. rewrite forallb_forall in H. apply H.
  pose proof (Z.mod_pos_bound f (2 ^ Z.of_nat n) ltac:(lia)) as Hb.
  apply in_map_iff. exists (Z.to_nat (f mod 2 ^ Z.of_nat n)). split; [lia|].
  apply in_seq. split; [lia|]. apply Nat2Z.inj_lt. rewrite Z2Nat.id, Nat.add_0_l, Nat2Z.inj_pow by lia.
  apply Hb.
Qed.

Lemma land_low f m n : 0 <= n -> Z.land (Z.ones n) m = m -> Z.land f m = Z.land (f mod 2 ^ n) m.
Proof. intros Hn E. rewrite <- Z.land_ones, <- Z.land_assoc by done. by rewrite E. Qed.

Lemma csize_linux_rows f :
  csize_linux_to_mac (Z.land f 0x30) = move_bits [(0x10, 0x100); (0x20, 0x200)] f 0.
Proof.
  unfold move_bits, has. cbn [foldl fst snd].
  rewrite (land_low f 0x30 6), (land_low f 0x10 6), (land_low f 0x20 6) by done.
  apply Z.eqb_eq. by apply (low_bits_ind 6 (fun x => csize_linux_to_mac (Z.land x 0x30) =?
    lor_if (negb (Z.land x 0x20 =? 0)) 0x200 (lor_if (negb (Z.land x 0x10 =? 0)) 0x100 0))).
Qed.

Lemma csize_mac_rows f :
  csize_mac_to_linux (Z.land f 0x300) = move_bits [(0x100, 0x10); (0x200, 0x20)] f 0.
Proof.
  unfold move_bits, has. cbn [foldl fst snd].
  rewrite (land_low f 0x300 10), (land_low f 0x100 10), (land_low f 0x200 10) by done.
  apply Z.eqb_eq. by apply (low_bits_ind 10 (fun x => csize_mac_to_linux (Z.land x 0x300) =?
    lor_if (negb (Z.land x 0x200 =? 0)) 0x20 (lor_if (negb (Z.land x 0x100 =? 0)) 0x10 0))).
Qed.

(** ** Lemmas: each group of flags *)

Definition oflag_bits : list (Z * Z) := [(0, 0); (1, 2); (4, 3); (5, 4); (6, 5); (7, 6); (17, 7)].
Definition cflag_bits : list (Z * Z) :=
  [(8, 4); (9, 5); (10, 6); (11, 7); (12, 8); (13, 9); (14, 10); (15, 11)].
Definition lflag_bits : list (Z * Z) :=
  [(0, 11); (1, 4); (2, 5); (3, 3); (4, 6); (5, 10); (6, 9); (7, 0); (8, 1); (10, 15); (11, 16);
   (22, 8); (23, 12); (26, 14); (31, 7)].

Ltac table_ok := first [apply (bool_decide_unpack _); vm_compute; exact I | repeat constructor; cbn; lia].

Lemma oflag_moved f p : p ∈ oflag_bits -> Z.testbit (oflag_mac_to_linux f) p.2 = Z.testbit f p.1.
Proof.
  intros Hp. unfold oflag_mac_to_linux. rewrite land_1_row, <- move_bits_app.
  apply (moved_bit oflag_bits [(0x004, 0xc00)]); [table_ok..|done].
Qed.

Lemma oflag_roundtrip f : oflag_linux_to_mac (oflag_mac_to_linux f) = Z.land f 0x200f3.
Proof.
  unfold oflag_linux_to_mac. rewrite land_1_row, <- move_bits_app.
  apply (move_bits_back oflag_bits f); [table_ok|]. apply oflag_moved.
Qed.

Lemma lflag_moved f p : p ∈ lflag_bits -> Z.testbit (lflag_mac_to_linux f) p.2 = Z.testbit f p.1.
Proof. intros Hp. apply (moved_bit lflag_bits []); [table_ok..|done]. Qed.

Lemma lflag_roundtrip f : lflag_linux_to_mac (lflag_mac_to_linux f) = Z.land f 0x84c00dff.
Proof.
  apply (move_bits_back lflag_bits f); [table_ok|]. apply lflag_moved.
Qed.

Lemma cbaud_code_low rate : Z.land (speed_to_cbaud_code rate) 0xff0 = 0 /\
  Z.land (speed_to_cbaud_code rate) 0x100f = speed_to_cbaud_code rate.
Proof.
  unfold speed_to_cbaud_code, cbaud_code_to_rate. cbn [rate_index high_codes take find fst snd].
  repeat case_match; simplify_eq; done.
Qed.

Lemma cflag_moved f c p :
  Z.land c 0xff0 = 0 -> p ∈ cflag_bits ->
  Z.testbit (Z.lor (Z.land (cflag_mac_to_linux f) (Z.lnot 0x100f)) c) p.2 = Z.testbit f p.1.
Proof.
  intros Hc Hp.
  assert (Forall (fun p => Z.testbit 0xff0 p.2 = true /\ Z.testbit (Z.lnot 0x100f) p.2 = true) cflag_bits) as Hm
    by (repeat constructor).
  rewrite list.Forall_forall in Hm. destruct (Hm p Hp) as [H1 H2].
  assert (Z.testbit c p.2 = false) as Hcp.
  { apply (f_equal (fun z => Z.testbit z p.2)) in Hc. by rewrite Z.land_spec, H1, Z.bits_0, andb_true_r in Hc. }
  rewrite Z.lor_spec, Z.land_spec, H2, Hcp, andb_true_r, orb_false_r.
  unfold cflag_mac_to_linux. rewrite csize_mac_rows, <- move_bits_app.
  apply (moved_bit cflag_bits []); [table_ok..|done].
Qed.

Lemma cflag_roundtrip f c :
  Z.land c 0xff0 = 0 ->
  cflag_linux_to_mac (Z.lor (Z.land (cflag_mac_to_linux f) (Z.lnot 0x100f)) c) = Z.land f 0xff00.
Proof.
  intros Hc. unfold cflag_linux_to_mac. rewrite csize_linux_rows, <- move_bits_app.
  apply (move_bits_back cflag_bits f); [table_ok|]. intros p. by apply cflag_moved.
Qed.

Lemma testbit_clear2 l a b k :
  0 <= a -> 0 <= b -> 0 <= k ->
  Z.testbit (Z.land l (Z.lnot (Z.lor (2 ^ a) (2 ^ b)))) k = Z.testbit l k && negb ((a =? k) || (b =? k)).
Proof. intros. by rewrite Z.land_spec, Z.lnot_spec, Z.lor_spec, !testbit_pow2 by done. Qed.

Lemma testbit_move2 a b c d l acc k :
  0 <= a -> 0 <= b -> 0 <= c -> 0 <= d ->
  Z.testbit (move_bits [(2 ^ a, 2 ^ b); (2 ^ c, 2 ^ d)] l acc) k =
  Z.testbit acc k || ((b =? k) && Z.testbit l a) || ((d =? k) && Z.testbit l c).
Proof.
  intros. rewrite testbit_move_bits. cbn [existsb fst snd].
  by rewrite !has_pow2, !testbit_pow2, orb_false_r, orb_assoc by done.
Qed.

Lemma testbit_iflag f j :
  0 <= j ->
  Z.testbit (Z.lor (iflag_mac_to_linux f) 0x100) j =
    (Z.testbit f j && negb ((9 =? j) || (10 =? j))) || ((10 =? j) && Z.testbit f 9) ||
    ((12 =? j) && Z.testbit f 10) || (8 =? j).
Proof.
  intros Hj. unfold iflag_mac_to_linux. change 0x100 with (2 ^ 8). rewrite Z.lor_spec, testbit_pow2 by lia.
  f_equal. change 0x200 with (2 ^ 9). change 0x400 with (2 ^ 10). change 0x1000 with (2 ^ 12).
  rewrite testbit_move2, testbit_clear2 by lia. done.
Qed.

(** The input flags but ICRNL. *)
Definition iflag_bits : list (Z * Z) :=
  [(0, 0); (1, 1); (2, 2); (3, 3); (4, 4); (5, 5); (6, 6); (7, 7); (9, 10); (10, 12); (11, 11); (13, 13); (14, 14)].

Lemma iflag_moved f p :
  Z.testbit f 12 = false -> p ∈ iflag_bits ->
  Z.testbit (Z.lor (iflag_mac_to_linux f) 0x100) p.2 = Z.testbit f p.1.
Proof.
  intros H12. revert p. apply list.Forall_forall. unfold iflag_bits.
  repeat (apply Forall_cons_2; [cbn [fst snd]; rewrite testbit_iflag by lia; cbn [Z.eqb Pos.eqb negb andb orb];
    by rewrite ?H12, ?andb_true_r, ?andb_false_r, ?orb_false_r|]). apply Forall_nil_2.
Qed.

Lemma iflag_roundtrip f :
  Z.testbit f 12 = false ->
  iflag_linux_to_mac (Z.lor (iflag_mac_to_linux f) 0x100) = Z.lor f 0x100.
Proof.
  intros H12. apply Z.bits_inj'. intros k Hk. pose proof (testbit_iflag f) as Hl.
  unfold iflag_linux_to_mac. change 0x400 with (2 ^ 10) at 1 2. change 0x200 with (2 ^ 9) at 1.
  change 0x1000 with (2 ^ 12). change 0x400 with (2 ^ 10).
  rewrite testbit_move2, testbit_clear2, !Hl by lia.
  change 0x100 with (2 ^ 8). rewrite Z.lor_spec, testbit_pow2 by lia.
  destruct (Z.eqb_spec 8 k) as [E|]; [subst k; cbn [Z.eqb Pos.eqb negb andb orb]; by rewrite !orb_true_r|].
  destruct (Z.eqb_spec 9 k) as [E|]; [subst k; cbn [Z.eqb Pos.eqb negb andb orb]; by rewrite !andb_false_r, !orb_false_r|].
  destruct (Z.eqb_spec 10 k) as [E|]; [subst k; cbn [Z.eqb Pos.eqb negb andb orb]; by rewrite !andb_false_r, H12, !orb_false_r|].
  destruct (Z.eqb_spec 12 k) as [E|]; [subst k; cbn [Z.eqb Pos.eqb negb andb orb]; by rewrite !andb_false_r, H12|].
  cbn [Z.eqb Pos.eqb negb andb orb]. by rewrite ?andb_true_r, ?andb_false_r, ?orb_false_r, ?andb_true_r.
Qed.

(** ** Lemmas: control characters and speeds *)

(** The slots Linux has a character for, word erase (slot 4) excepted. *)
Definition shared_slots (mc : list Z) : list Z :=
  map (fun i => if decide (i ∈ [0; 1; 2; 3; 5; 6; 8; 9; 10; 12; 13; 14; 15; 16; 17]%nat) then nth i mc 0 else 0) (seq 0 20).

Lemma c_cc_roundtrip mc :
  length mc = 20%nat -> c_cc_linux_to_mac (c_cc_mac_to_linux mc) = shared_slots mc.
Proof. intros H. do 20 (destruct mc as [|? mc]; [discriminate H|]). destruct mc; [|discriminate H]. reflexivity. Qed.

(** A rate that is not one of the kernel's codes. *)
Definition plain_rate (ms : Z) : Prop := ms = 0 \/ (50 <= ms /\ ~ (0x1001 <= ms <= 0x100f) /\ ms <> 76800).

Lemma stored_speed_roundtrip ms : plain_rate ms -> speed_linux_to_mac (speed_mac_to_linux ms) = ms.
Proof.
  intros [-> |(H1 & H2 & H3)]; [done|]. unfold speed_mac_to_linux.
  destruct (Z.eqb_spec ms 76800); [done|]. unfold speed_linux_to_mac.
  destruct (Z.leb_spec ms 15); [lia|].
  destruct (find _ high_codes) as [c|] eqn:E; [|done].
  apply find_some in E as [Hc He%Z.eqb_eq].
  assert (Forall (fun c => 0x1001 <= c.1 <= 0x100f) high_codes) as Hf by (repeat constructor; cbn; lia).
  rewrite list.Forall_forall in Hf. specialize (Hf c ltac:(by apply list_elem_of_In)). lia.
Qed.

(** The rates with a code of their own. *)
Definition coded_rates : list Z := cbaud_code_to_rate ++ map snd (take 11 high_codes).

Lemma coded_speed_roundtrip ms :
  ms ∈ coded_rates -> speed_linux_to_mac (speed_to_cbaud_code (speed_mac_to_linux ms)) = ms.
Proof.
  intros H. assert (Forall (fun ms => speed_linux_to_mac (speed_to_cbaud_code (speed_mac_to_linux ms)) = ms)
    coded_rates) as Hf by (repeat constructor).
  by apply (proj1 (list.Forall_forall _ _) Hf ms H).
Qed.

(** ** What the headers say *)

(** Name, Darwin's bit (docs/xnu/headers/sys_termios.h) and Linux's
    (docs/glibc). *)
Definition input_flags : list (string * Z * Z) :=
  [("IGNBRK", 0x1, 0x1); ("BRKINT", 0x2, 0x2); ("IGNPAR", 0x4, 0x4); ("PARMRK", 0x8, 0x8); ("INPCK", 0x10, 0x10);
   ("ISTRIP", 0x20, 0x20); ("INLCR", 0x40, 0x40); ("IGNCR", 0x80, 0x80); ("IXON", 0x200, 0x400); ("IXOFF", 0x400, 0x1000);
   ("IXANY", 0x800, 0x800); ("IMAXBEL", 0x2000, 0x2000); ("IUTF8", 0x4000, 0x4000)]%string.
Definition output_flags : list (string * Z * Z) :=
  [("OPOST", 0x1, 0x1); ("ONLCR", 0x2, 0x4); ("OCRNL", 0x10, 0x8); ("ONOCR", 0x20, 0x10); ("ONLRET", 0x40, 0x20);
   ("OFILL", 0x80, 0x40); ("OFDEL", 0x20000, 0x80)]%string.
Definition control_flags : list (string * Z * Z) :=
  [("CS6", 0x100, 0x10); ("CS7", 0x200, 0x20); ("CSTOPB", 0x400, 0x40); ("CREAD", 0x800, 0x80); ("PARENB", 0x1000, 0x100);
   ("PARODD", 0x2000, 0x200); ("HUPCL", 0x4000, 0x400); ("CLOCAL", 0x8000, 0x800)]%string.
Definition local_flags : list (string * Z * Z) :=
  [("ECHOKE", 0x1, 0x800); ("ECHOE", 0x2, 0x10); ("ECHOK", 0x4, 0x20); ("ECHO", 0x8, 0x8); ("ECHONL", 0x10, 0x40);
   ("ECHOPRT", 0x20, 0x400); ("ECHOCTL", 0x40, 0x200); ("ISIG", 0x80, 0x1); ("ICANON", 0x100, 0x2);
   ("IEXTEN", 0x400, 0x8000); ("EXTPROC", 0x800, 0x10000); ("TOSTOP", 0x400000, 0x100); ("FLUSHO", 0x800000, 0x1000);
   ("NOFLSH", 0x80000000, 0x80)]%string.
Definition characters : list (string * nat * nat) :=
  [("VEOF", 0, 4); ("VEOL", 1, 11); ("VEOL2", 2, 16); ("VERASE", 3, 2); ("VKILL", 5, 3); ("VREPRINT", 6, 12);
   ("VINTR", 8, 0); ("VQUIT", 9, 1); ("VSUSP", 10, 10); ("VSTART", 12, 8); ("VSTOP", 13, 9); ("VLNEXT", 14, 15);
   ("VDISCARD", 15, 13); ("VMIN", 16, 6); ("VTIME", 17, 5)]%nat%string.

(** Each of the flags is set in Linux's word exactly when it is in Darwin's. *)
Definition same_flags (names : list (string * Z * Z)) (mac linux : Z) : Prop :=
  Forall (fun '(_, m, l) => has linux l = has mac m) names.

Lemma same_flags_moved names tbl mac linux :
  nonneg_bits tbl -> (forall p, p ∈ tbl -> Z.testbit linux p.2 = Z.testbit mac p.1) ->
  Forall (fun '(_, m, l) => (m, l) ∈ masks tbl) names -> same_flags names mac linux.
Proof.
  intros Hn Hat H. eapply list.Forall_impl; [exact H|]. intros [[nm m] l] (p & E & Hp)%list_elem_of_fmap.
  injection E as -> ->. unfold nonneg_bits in Hn. rewrite list.Forall_forall in Hn. destruct (Hn p Hp) as [H1 H2].
  rewrite !has_pow2 by done. by apply Hat.
Qed.

(** The speed and the forced flag do not disturb the others. *)
Lemma linux_termios_flags mt :
  Z.testbit (c_iflag mt) 12 = false ->
  let lt := linux_termios mt in
  same_flags input_flags (c_iflag mt) (c_iflag lt) /\ same_flags output_flags (c_oflag mt) (c_oflag lt) /\
  same_flags control_flags (c_cflag mt) (c_cflag lt) /\ same_flags local_flags (c_lflag mt) (c_lflag lt).
Proof.
  intros H12. destruct (cbaud_code_low (speed_mac_to_linux (c_ospeed mt))) as [Hlow _].
  unfold linux_termios. cbv zeta. cbn [c_iflag c_oflag c_cflag c_lflag]. split_and!.
  - apply (same_flags_moved _ iflag_bits); [table_ok|intros p; by apply iflag_moved|table_ok].
  - apply (same_flags_moved _ oflag_bits); [table_ok|apply oflag_moved|table_ok].
  - apply (same_flags_moved _ cflag_bits); [table_ok|intros p; by apply cflag_moved|table_ok].
  - apply (same_flags_moved _ lflag_bits); [table_ok|apply lflag_moved|table_ok].
Qed.

Lemma linux_termios_c_cc mt : c_cc (linux_termios mt) = c_cc_mac_to_linux (c_cc mt).
Proof.
  unfold linux_termios. cbv zeta. cbn [c_cc].
  assert (has (Z.lor (iflag_mac_to_linux (c_iflag mt)) 0x100) 0x100 = true) as ->.
  { change 0x100 with (2 ^ 8). rewrite has_pow2, Z.lor_spec, testbit_pow2 by lia. by rewrite orb_true_r. }
  cbn [negb]. by rewrite andb_false_r.
Qed.

(** ** Properties *)

(** C34 (roundtrip): what of a guest's terminal attributes reaches the
    terminal, and comes back from one that keeps what it is given.  For input
    flags without the bit 0x1000, which Darwin has no flag for, tcsetattr
    turns ICRNL on and gives the terminal the other input flags, OPOST, ONLCR,
    OCRNL, ONOCR, ONLRET, OFILL and OFDEL, character size, CSTOPB, CREAD,
    PARENB, PARODD, HUPCL and CLOCAL, fourteen local flags and fifteen
    control characters, each under Linux's own bit or index; tcgetattr gives
    exactly those back, bit 0x4000000 of the local flags with them, and every
    other bit or character as 0.  Lost are OXTABS, the delays, CRTSCTS and the
    other flow control, PENDIN and the word-erase character.  The speeds come
    back where glibc keeps the rate itself, when they are 0 or at least 50,
    not 76800 and not one of the kernel's codes 0x1001-0x100f; for the 27
    rates with a code also where glibc keeps the code in c_cflag. *)
Theorem termios_roundtrip (mt : termios) :
  length (c_cc mt) = 20%nat -> Z.testbit (c_iflag mt) 12 = false ->
  plain_rate (c_ispeed mt) -> plain_rate (c_ospeed mt) ->
  let lt := linux_termios mt in
  same_flags input_flags (c_iflag mt) (c_iflag lt) /\ same_flags output_flags (c_oflag mt) (c_oflag lt) /\
  same_flags control_flags (c_cflag mt) (c_cflag lt) /\ same_flags local_flags (c_lflag mt) (c_lflag lt) /\
  Forall (fun '(_, m, l) => nth l (c_cc lt) 0 = nth m (c_cc mt) 0) characters /\
  guest_termios lt (c_ispeed lt) (stored_speed lt) =
    Termios (Z.lor (c_iflag mt) 0x100) (Z.land (c_oflag mt) 0x200f3) (Z.land (c_cflag mt) 0xff00)
      (Z.land (c_lflag mt) 0x84c00dff) (shared_slots (c_cc mt)) (c_ispeed mt) (c_ospeed mt) /\
  (c_ospeed mt ∈ coded_rates -> speed_linux_to_mac (coded_speed lt) = c_ospeed mt).
Proof.
  intros Hcc H12 Hi Ho lt. destruct (cbaud_code_low (speed_mac_to_linux (c_ospeed mt))) as [Hlow Hmask].
  destruct (linux_termios_flags mt H12) as (F1 & F2 & F3 & F4). fold lt in F1, F2, F3, F4.
  split_and!; [done..| | |].
  - unfold lt. rewrite linux_termios_c_cc. repeat constructor.
  - unfold guest_termios, stored_speed. unfold lt at 5. rewrite linux_termios_c_cc. unfold lt, linux_termios. cbv zeta.
    cbn [c_iflag c_oflag c_cflag c_lflag c_ispeed c_ospeed].
    by rewrite iflag_roundtrip, oflag_roundtrip, cflag_roundtrip, lflag_roundtrip, c_cc_roundtrip,
      !stored_speed_roundtrip.
  - intros Hr. unfold lt, linux_termios, coded_speed. cbv zeta. cbn [c_cflag].
    rewrite Z.land_lor_distr_l, Hmask, <- Z.land_assoc.
    change (Z.land (Z.lnot 0x100f) 0x100f) with 0. rewrite Z.land_0_r, Z.lor_0_l. by apply coded_speed_roundtrip.
Qed.

Definition demo_termios : termios :=
  Termios 0x2b02 3 0x4b00 0x200005cb
    [4; 255; 255; 127; 23; 21; 18; 0; 3; 28; 26; 25; 17; 19; 22; 15; 1; 0; 20; 255] 9600 9600.

Lemma termios_roundtrip_witness :
  guest_termios (linux_termios demo_termios) 9600 9600 =
    Termios 0x2b02 3 0x4b00 0x5cb
      [4; 255; 255; 127; 0; 21; 18; 0; 3; 28; 26; 0; 17; 19; 22; 15; 1; 0; 0; 0] 9600 9600 /\
  speed_linux_to_mac (coded_speed (linux_termios demo_termios)) = 9600.
Proof.
  destruct (termios_roundtrip demo_termios eq_refl eq_refl) as (_ & _ & _ & _ & _ & H1 & H2).
  - right. cbn. lia.
  - right. cbn. lia.
  - split; [exact H1|]. apply H2. apply (bool_decide_unpack _). vm_compute. exact I.
Defined.

(** The word-erase character of a terminal does not survive a guest that
    reads the attributes and stores them again; neither do the four highest
    speeds where glibc keeps the code. *)
Lemma word_erase_lost lt ispeed ospeed :
  nth 14 (c_cc (linux_termios (guest_termios lt ispeed ospeed))) 0 = 0.
Proof.
  by rewrite linux_termios_c_cc.
Qed.

Lemma high_speeds_lost :
  map (fun ms => speed_linux_to_mac (speed_to_cbaud_code (speed_mac_to_linux ms)))
    [2500000; 3000000; 3500000; 4000000] = [38400; 38400; 38400; 38400].
Proof. reflexivity. Qed.

(** A guest's OXTABS reaches Linux as 0xc00, which there is TAB1 (0x800) with
    a bit of the carriage-return delay (0x400); TAB3 is 0x1800.  Hardware flow
    control is dropped, and PENDIN, which is 0x20000000 in Darwin's header, is
    looked for at 0x4000000. *)
Theorem terminal_flags_lost :
  oflag_mac_to_linux 0x4 = 0xc00 /\ cflag_mac_to_linux 0x30000 = 0 /\ lflag_mac_to_linux 0x20000000 = 0 /\
  lflag_linux_to_mac 0x4000 = 0x4000000.
Proof. by vm_compute. Qed.
