(* ===== verification/ShimNet.v ===== *)
(** * Sockets as a guest sees them (src/shim/io/net.c)

    Socket addresses (macOS has a length byte and one byte of family, Linux
    two bytes of family), socket options, the list getaddrinfo returns, the
    timeout of select and the redirection of name server queries.  A buffer
    is the list of its bytes; reading past its end is [Undef]. *)
From Stdlib Require Import ZArith Lia Bool.
From stdpp Require Import base list strings numbers.
From S2P Require Import Prelude SyscallTable PrefixPath ShimCore ShimExec.

Definition MACOS_AF_INET6 : Z := 30.
Definition LINUX_AF_INET6 : Z := 10.

(** ** Socket addresses *)

(** [memcpy(l + off, bs, length bs)] in a local buffer. *)
Definition splice (l : list Z) (off : nat) (bs : list Z) : list Z :=
  take off l ++ bs ++ drop (off + length bs) l.

Definition zero_addr : list Z := replicate 256 0.

(** The bytes of the guest's buffer from [off]. *)
Definition guest_bytes (p : list Z) (off n : Z) : res (list Z) := buf_slice p off n.

Definition copy_in6 (p : list Z) : res (list Z * Z) :=
  port ← guest_bytes p 2 2;
  flow ← guest_bytes p 4 4;
  a ← guest_bytes p 8 16;
  scope ← guest_bytes p 24 4;
  let l := splice zero_addr 0 (le_bytes 2 LINUX_AF_INET6) in
  Ok (splice (splice (splice (splice l 2 port) 4 flow) 8 a) 24 scope, 28).

Definition copy_in (p : list Z) : res (list Z * Z) :=
  port ← guest_bytes p 2 2;
  a ← guest_bytes p 4 4;
  Ok (splice (splice (splice zero_addr 0 (le_bytes 2 2)) 2 port) 4 a, 16).

Definition copy_raw (p : list Z) (addrlen : Z) : res (list Z) :=
  bs ← guest_bytes p 0 (Z.min addrlen 256);
  Ok (splice zero_addr 0 bs).

(** connect's test for an address in macOS format. *)
Definition connect_is_macos (p0 p1 addrlen : Z) : bool :=
  if (p0 =? 16) && (8 <=? addrlen) then true
  else if (p0 =? 28) && (8 <=? addrlen) then true
  else if (p0 =? 0) && ((p1 =? 2) || (p1 =? 30)) && (8 <=? addrlen) then true
  else negb (p0 =? 1) && negb (p0 =? 2) && negb (p0 =? 10) && negb (p0 =? 16) && negb (p0 =? 17) &&
       (1 <=? p1) && (p1 <=? 30) && (8 <=? addrlen).

(** The redirection of 127.0.0.1:53; [dns] is the address of the name server
    in /etc/resolv.conf, where it has one. *)
Definition redirect_dns (dns : option (list Z)) (family : Z) (l : list Z) : list Z :=
  if (family =? 2) && bool_decide (take 6 (drop 2 l) = [0x00; 0x35; 0x7f; 0x00; 0x00; 0x01])
  then match dns with Some ia => splice l 4 ia | None => l end
  else l.

(** The address a wrapper passes on, with its length; [None] is EINVAL. *)
Definition connect_addr (dns : option (list Z)) (addr : option (list Z)) (addrlen : Z)
    : res (option (list Z * Z)) :=
  match addr with
  | None => Ok None
  | Some p =>
      if addrlen <? 2 then Ok None else
      p0 ← buf_rd p 0; p1 ← buf_rd p 1;
      if connect_is_macos p0 p1 addrlen then
        '(l, n) ← (if p1 =? MACOS_AF_INET6 then copy_in6 p else copy_in p);
        Ok (Some (redirect_dns dns p1 l, n))
      else l ← copy_raw p addrlen; Ok (Some (l, addrlen))
  end.

(** The translation bind and sendto share; the length of a raw address is cut
    to the buffer by sendto only. *)
Definition plain_addr (cut : bool) (p : list Z) (addrlen : Z) : res (list Z * Z) :=
  p0 ← buf_rd p 0; p1 ← buf_rd p 1;
  if (p1 =? MACOS_AF_INET6) && ((p0 =? 28) || (p0 =? 0)) && (28 <=? addrlen) then copy_in6 p
  else if ((p0 =? 16) || (p0 =? 0)) && (p1 =? 2) && (8 <=? addrlen) then copy_in p
  else l ← copy_raw p addrlen; Ok (l, if cut then Z.min addrlen 256 else addrlen).

Definition bind_addr (addr : option (list Z)) (addrlen : Z) : res (option (list Z * Z)) :=
  match addr with
  | None => Ok None
  | Some p => if addrlen <? 2 then Ok None else r ← plain_addr false p addrlen; Ok (Some r)
  end.

(** [None] is a NULL address here. *)
Definition sendto_addr (addr : option (list Z)) (addrlen : Z) : res (option (list Z * Z)) :=
  match addr with
  | None => Ok None
  | Some p => if addrlen <? 2 then Ok None else r ← plain_addr true p addrlen; Ok (Some r)
  end.

Definition MSG_NOSIGNAL : Z := 0x4000.
Definition send_flags (flags : Z) : Z := Z.lor flags MSG_NOSIGNAL.

(** The way back, in place: accept, getsockname, getpeername, recvfrom. *)
Definition linux_to_macos_sockaddr (addr : list Z) (addrlen : Z) : list Z :=
  match addr with
  | f :: _ :: rest =>
      if addrlen <? 2 then addr
      else u8 addrlen :: (if f =? LINUX_AF_INET6 then MACOS_AF_INET6 else f) :: rest
  | _ => addr
  end.

(** accept, getsockname, getpeername and recvfrom once they have succeeded:
    [cap] is the length word, [kaddr] the peer's address.  The kernel stores
    what fits and the full length; the wrapper then rewrites the first two
    bytes when that length is at least 2. *)
Definition returned_addr (addr : option (list Z)) (cap : option Z) (kaddr : list Z) : res (option (list Z) * option Z) :=
  match addr, cap with
  | Some b, Some n =>
      let bs := take (Z.to_nat n) kaddr in
      if buf_len b <? buf_len bs then Undef else
      let b := bs ++ drop (length bs) b in
      let len := buf_len kaddr in
      if len <? 2 then Ok (Some b, Some len) else
      f ← buf_rd b 0;
      b ← buf_wr b 0 (u8 len);
      b ← buf_wr b 1 (if f =? LINUX_AF_INET6 then MACOS_AF_INET6 else f);
      Ok (Some b, Some len)
  | _, _ => Ok (addr, cap)
  end.

(** ** Options *)

Definition sol_socket_cases : list (Z * Z) :=
  [(0x1, 1); (0x4, 2); (0x8, 9); (0x10, 5); (0x20, 6); (0x80, 13); (0x100, 10); (0x200, 15);
   (0x1001, 7); (0x1002, 8); (0x1003, 19); (0x1004, 18); (0x1005, 47); (0x1006, 20); (0x1007, 4);
   (0x1008, 3); (0x1016, 38); (0x1022, -1)].

Definition translate_sol_socket_optname (optname : Z) : Z :=
  match find (fun c => c.1 =? optname) sol_socket_cases with Some c => c.2 | None => optname end.

Definition SOL_SOCKET : Z := 1.
Definition sock_level (level : Z) : Z := if level =? 0xFFFF then SOL_SOCKET else level.

(** The level and option the kernel is asked for; [None] where the wrapper
    answers 0 by itself.  setsockopt and getsockopt agree. *)
Definition sockopt_call (level optname : Z) : option (Z * Z) :=
  let level := sock_level level in
  if level =? SOL_SOCKET then
    if optname =? 0x1022 then None
    else
      let t := translate_sol_socket_optname optname in
      Some (level, if negb (t =? optname) && (0 <? t) then t else optname)
  else Some (level, optname).

(** The result of the call and [errno]. *)
Definition setsockopt_result (t : text_state) (ret_addr ret errno : Z) : Z * Z :=
  if (ret =? -1) && ((errno =? 92) || (errno =? 22)) then (0, errno)
  else (ret, translate_errno_saved t ret_addr ret errno errno).

Definition getsockopt_result (t : text_state) (ret_addr ret errno : Z) : Z * Z :=
  if (ret =? -1) && (errno =? 92) then (0, errno)
  else (ret, translate_errno_saved t ret_addr ret errno errno).

(** The arguments of the real socket. *)
Definition socket_args (domain type protocol : Z) : Z * Z * Z :=
  (if domain =? MACOS_AF_INET6 then LINUX_AF_INET6 else domain, type, if protocol =? 6 then 0 else protocol).

Definition inet_ntop_family (af : Z) : Z :=
  let af := if af =? MACOS_AF_INET6 then LINUX_AF_INET6 else af in
  if af =? 16 then 2 else if af =? 28 then 10 else af.

Definition inet_pton_family (af : Z) : Z := if af =? MACOS_AF_INET6 then LINUX_AF_INET6 else af.

(** ** select *)

(** The guest's timeval as 16 bytes: the seconds in 8, the microseconds in 4. *)
Definition select_timeout (tv : list Z) : res (Z * Z) :=
  sec ← guest_bytes tv 0 8; usec ← guest_bytes tv 8 4;
  Ok (i64 (le_value sec), i32 (le_value usec)).

Definition select_write_back (tv : list Z) (sec usec : Z) : list Z :=
  splice (splice tv 0 (le_bytes 8 sec)) 8 (le_bytes 4 usec).

(** ** getaddrinfo *)

(** The hint's flags, as the code has them. *)
Definition hint_flags (mf : Z) : Z :=
  let lf := lor_if (has mf 0x01) 0x01 0 in
  let lf := lor_if (has mf 0x02) 0x02 lf in
  let lf := lor_if (has mf 0x04) 0x04 lf in
  let lf := lor_if (has mf 0x08) 0x08 lf in
  let lf := lor_if (has mf 0x10) 0x10 lf in
  let lf := lor_if (has mf 0x100) 0x20 lf in
  lor_if (has mf 0x400) 0x400 lf.

(** A node of either system's list, without its link. *)
Record addrinfo := AddrInfo {
  ai_flags : Z; ai_family : Z; ai_socktype : Z; ai_protocol : Z; ai_addrlen : Z;
  ai_addr : option (list Z); ai_canonname : option string
}.

Definition linux_hints (mh : addrinfo) : addrinfo :=
  AddrInfo (hint_flags (ai_flags mh)) (ai_family mh) (ai_socktype mh) (ai_protocol mh) 0 None None.

(** [addr_copy]: a block of [addrlen] zero bytes, then the stores; undefined
    where a store leaves the block or a load the source [a]. *)
Definition copy_sockaddr (addrlen family : Z) (a : list Z) : res (list Z) :=
  let copy := replicate (Z.to_nat addrlen) 0 in
  if family =? 2 then
    if (addrlen <? 8) || (buf_len a <? 8) then Undef else
    Ok (splice (splice (splice copy 0 [16; 2]) 2 (take 2 (drop 2 a))) 4 (take 4 (drop 4 a)))
  else if family =? 10 then
    if (addrlen <? 28) || (buf_len a <? 28) then Undef else
    Ok (splice (splice copy 0 [28; 30]) 2 (take 26 (drop 2 a)))
  else if buf_len a <? addrlen then Undef else Ok (take (Z.to_nat addrlen) a).

(** [alloc k] says whether the [k]-th call of malloc succeeds. *)
Definition rebuild_node (alloc : nat -> bool) (k : nat) (p : addrinfo) : res (option (addrinfo * nat)) :=
  if negb (alloc k) then Ok None else
  let k := S k in
  '(addr, k) ← (match ai_addr p with
    | Some a =>
        if 0 <? ai_addrlen p then
          if alloc k then bs ← copy_sockaddr (ai_addrlen p) (ai_family p) a; Ok (Some bs, S k)
          else Ok (None, S k)
        else Ok (None, k)
    | None => Ok (None, k)
    end);
  let '(name, k) :=
    match ai_canonname p with
    | Some s => (if alloc k then Some s else None, S k)
    | None => (None, k)
    end in
  Ok (Some (AddrInfo (ai_flags p) (ai_family p) (ai_socktype p) (ai_protocol p) (ai_addrlen p) addr name, k)).

(** The loop: [None] is EAI_MEMORY, with what was built freed. *)
Fixpoint rebuild_list (alloc : nat -> bool) (k : nat) (l : list addrinfo) : res (option (list addrinfo)) :=
  match l with
  | [] => Ok (Some [])
  | p :: l =>
      o ← rebuild_node alloc k p;
      match o with
      | None => Ok None
      | Some (m, k) => ms ← rebuild_list alloc k l; Ok (match ms with Some ms => Some (m :: ms) | None => None end)
      end
  end.

(** ** The name server *)

(** The pieces [fgets(line, size, fp)] returns one after the other: [room]
    bytes are left in the current one, [cur]. *)
Fixpoint fgets_pieces (size room : nat) (cur s : string) : list string :=
  match s with
  | EmptyString => if streq cur EmptyString then [] else [cur]
  | String c r =>
      let cur := cur +:+ String c EmptyString in
      if Ascii.eqb c LF then cur :: fgets_pieces size (size - 1) EmptyString r
      else match room with
           | S (S k) => fgets_pieces size (S k) cur r
           | _ => cur :: fgets_pieces size (size - 1) EmptyString r
           end
  end.

(** Up to a newline, a space or a tab. *)
Fixpoint word (s : string) : string :=
  match s with
  | EmptyString => EmptyString
  | String c r =>
      if Ascii.eqb c LF || Ascii.eqb c SPACE || Ascii.eqb c TAB then EmptyString else String c (word r)
  end.

Definition nameserver_of (piece : string) : option string :=
  let p := skip_white (before_char NUL piece) in
  if negb (starts_with "nameserver" p) then None else
  let w := word (skip_white (sdrop 10 p)) in
  if streq w EmptyString then None else Some (stake 63 w).

Definition resolv_conf_dns_server (contents : option string) : option string :=
  match contents with
  | None => None
  | Some s => head (omap nameserver_of (fgets_pieces 256 255 EmptyString s))
  end.

(** ** Lemmas *)

Lemma slice_in_buffer p off n :
  0 <= off -> 0 <= n -> off + n <= buf_len p ->
  buf_slice p off n = Ok (take (Z.to_nat n) (drop (Z.to_nat off) p)).
Proof.
  intros H1 H2 H3. unfold buf_slice.
  destruct (Z.ltb_spec off 0); [lia|]. destruct (Z.ltb_spec n 0); [lia|].
  destruct (Z.ltb_spec (buf_len p) (off + n)); [lia|]. done.
Qed.

Lemma slice_out_of_buffer p off n : 0 <= off -> 0 <= n -> buf_len p < off + n -> buf_slice p off n = Undef.
Proof.
  intros H1 H2 H3. unfold buf_slice. destruct (Z.ltb_spec (buf_len p) (off + n)); [|lia].
  by rewrite orb_true_r.
Qed.

Lemma copy_in_ok p : 8 <= buf_len p -> exists l, copy_in p = Ok (l, 16).
Proof.
  intros H. unfold copy_in, guest_bytes. rewrite !slice_in_buffer by lia. cbn [mbind res_bind]. eauto.
Qed.

Lemma copy_in6_ok p : 28 <= buf_len p -> exists l, copy_in6 p = Ok (l, 28).
Proof.
  intros H. unfold copy_in6, guest_bytes. rewrite !slice_in_buffer by lia. cbn [mbind res_bind]. eauto.
Qed.

Lemma guest_bytes_fuel p off n : guest_bytes p off n <> NoFuel.
Proof. unfold guest_bytes, buf_slice. by destruct (_ || _). Qed.

Lemma copy_in6_undef p : buf_len p < 28 -> copy_in6 p = Undef.
Proof.
  intros H. assert (guest_bytes p 24 4 = Undef) as E by (apply slice_out_of_buffer; lia).
  unfold copy_in6. rewrite E.
  pose proof (guest_bytes_fuel p 2 2). pose proof (guest_bytes_fuel p 4 4). pose proof (guest_bytes_fuel p 8 16).
  by destruct (guest_bytes p 2 2), (guest_bytes p 4 4), (guest_bytes p 8 16).
Qed.

Lemma copy_raw_ok p n : 0 <= n -> n <= buf_len p -> exists l, copy_raw p n = Ok l.
Proof. intros H0 H. unfold copy_raw, guest_bytes. rewrite slice_in_buffer by lia. cbn [mbind res_bind]. eauto. Qed.

(** The first two bytes of a buffer that has them. *)
Lemma first_two p : 2 <= buf_len p -> exists p0 p1 rest, p = p0 :: p1 :: rest /\
  buf_rd p 0 = Ok p0 /\ buf_rd p 1 = Ok p1.
Proof.
  intros H. destruct p as [|p0 [|p1 rest]]; [unfold buf_len in H; cbn in H; lia..|].
  eexists _, _, _. split; [done|]. split; reflexivity.
Qed.

Lemma plain_addr_ok cut p n : 2 <= n -> n <= buf_len p -> exists r, plain_addr cut p n = Ok r.
Proof.
  intros H1 H2. destruct (first_two p ltac:(lia)) as (p0 & p1 & rest & -> & E0 & E1).
  unfold plain_addr. rewrite E0, E1. cbn [mbind res_bind].
  destruct (Z.leb_spec 28 n).
  - destruct ((p1 =? MACOS_AF_INET6) && ((p0 =? 28) || (p0 =? 0)) && true).
    { destruct (copy_in6_ok (p0 :: p1 :: rest) ltac:(lia)) as [l ->]. eauto. }
    destruct (((p0 =? 16) || (p0 =? 0)) && (p1 =? 2) && (8 <=? n)).
    { destruct (copy_in_ok (p0 :: p1 :: rest) ltac:(lia)) as [l ->]. eauto. }
    destruct (copy_raw_ok (p0 :: p1 :: rest) n ltac:(lia) H2) as [l ->]. cbn. eauto.
  - rewrite andb_false_r. destruct (Z.leb_spec 8 n).
    + destruct (((p0 =? 16) || (p0 =? 0)) && (p1 =? 2) && true).
      { destruct (copy_in_ok (p0 :: p1 :: rest) ltac:(lia)) as [l ->]. eauto. }
      destruct (copy_raw_ok (p0 :: p1 :: rest) n ltac:(lia) H2) as [l ->]. cbn. eauto.
    + rewrite andb_false_r. destruct (copy_raw_ok (p0 :: p1 :: rest) n ltac:(lia) H2) as [l ->]. cbn. eauto.
Qed.

Lemma connect_is_macos_long p0 p1 n : connect_is_macos p0 p1 n = true -> 8 <= n.
Proof.
  unfold connect_is_macos. destruct (Z.leb_spec 8 n); [done|]. rewrite !andb_false_r. done.
Qed.

Lemma in_addr_bytes (l0 : Z) rest :
  length rest = 14%nat -> exists tail,
  copy_in (l0 :: 2 :: rest) = Ok ([2; 0] ++ take 6 rest ++ replicate 8 0 ++ tail, 16).
Proof. intros H. exists (replicate 240 0). do 14 (destruct rest as [|? rest]; [discriminate H|]). destruct rest; [reflexivity|discriminate H]. Qed.

Lemma in6_addr_bytes (l0 : Z) rest :
  length rest = 26%nat -> exists tail,
  copy_in6 (l0 :: 30 :: rest) = Ok ([10; 0] ++ rest ++ tail, 28).
Proof. intros H. exists (replicate 228 0). do 26 (destruct rest as [|? rest]; [discriminate H|]). destruct rest; [reflexivity|discriminate H]. Qed.

Lemma redirect_none family l : redirect_dns None family l = l.
Proof. unfold redirect_dns. by destruct (_ && _). Qed.

(** ** Properties *)

(** An IPv4 or IPv6 address a guest passes to bind, sendto or
    connect, its length byte set or not, reaches the kernel in Linux format,
    the same from the three; and what the kernel gives back of it
    (getsockname, accept, recvfrom) is the guest's address again, the length
    byte set and the padding of IPv4 cleared. *)
Theorem sockaddr_roundtrip (l0 : Z) (rest : list Z) :
  ((l0 = 16 \/ l0 = 0) -> length rest = 14%nat ->
   exists l, let p := Some (l0 :: 2 :: rest) in
   bind_addr p 16 = Ok (Some (l, 16)) /\ sendto_addr p 16 = Ok (Some (l, 16)) /\
   connect_addr None p 16 = Ok (Some (l, 16)) /\
   linux_to_macos_sockaddr (take 16 l) 16 = 16 :: 2 :: take 6 rest ++ replicate 8 0) /\
  ((l0 = 28 \/ l0 = 0) -> length rest = 26%nat ->
   forall dns, exists l, let p := Some (l0 :: 30 :: rest) in
   bind_addr p 28 = Ok (Some (l, 28)) /\ sendto_addr p 28 = Ok (Some (l, 28)) /\
   connect_addr dns p 28 = Ok (Some (l, 28)) /\
   linux_to_macos_sockaddr (take 28 l) 28 = 28 :: 30 :: rest).
Proof.
  split.
  - intros H0 Hl. destruct (in_addr_bytes l0 rest Hl) as [tail E]. eexists. cbv zeta.
    unfold bind_addr, sendto_addr, connect_addr, plain_addr.
    change (buf_rd (l0 :: 2 :: rest) 0) with (Ok l0). change (buf_rd (l0 :: 2 :: rest) 1) with (Ok 2).
    destruct H0 as [-> | ->]; cbn [mbind res_bind Z.ltb Z.compare Pos.compare Pos.compare_cont];
      (split_and!; [by rewrite E|by rewrite E|rewrite E; cbn; by rewrite redirect_none|]); clear E;
      do 14 (destruct rest as [|? rest]; [discriminate Hl|]); destruct rest; [reflexivity|discriminate Hl|reflexivity|discriminate Hl].
  - intros H0 Hl dns. destruct (in6_addr_bytes l0 rest Hl) as [tail E]. eexists. cbv zeta.
    unfold bind_addr, sendto_addr, connect_addr, plain_addr.
    change (buf_rd (l0 :: 30 :: rest) 0) with (Ok l0). change (buf_rd (l0 :: 30 :: rest) 1) with (Ok 30).
    destruct H0 as [-> | ->]; cbn [mbind res_bind Z.ltb Z.compare Pos.compare Pos.compare_cont];
      (split_and!; [by rewrite E|by rewrite E|rewrite E; reflexivity|]); clear E;
      do 26 (destruct rest as [|? rest]; [discriminate Hl|]); destruct rest; [reflexivity|discriminate Hl|reflexivity|discriminate Hl].
Qed.

Lemma sockaddr_roundtrip_witness :
  exists l, connect_addr None (Some ([0; 2; 0; 80; 10; 0; 0; 7] ++ replicate 8 0)) 16 = Ok (Some (l, 16)) /\
    linux_to_macos_sockaddr (take 16 l) 16 = [16; 2; 0; 80; 10; 0; 0; 7] ++ replicate 8 0.
Proof.
  destruct (proj1 (sockaddr_roundtrip 0 ([0; 80; 10; 0; 0; 7] ++ replicate 8 0)) (or_intror eq_refl) eq_refl)
    as (l & _ & _ & Hc & Hb).
  exists l. split; [exact Hc|exact Hb].
Defined.

(** With an address as long as it says, bind and sendto read
    nothing past it; connect does exactly when it takes a shorter address for
    an IPv6 one, which it does from 8 bytes on. *)
Theorem address_reads (dns : option (list Z)) (p : list Z) (addrlen p0 p1 : Z) :
  2 <= addrlen -> addrlen = buf_len p -> buf_rd p 0 = Ok p0 -> buf_rd p 1 = Ok p1 ->
  (exists r, bind_addr (Some p) addrlen = Ok r) /\ (exists r, sendto_addr (Some p) addrlen = Ok r) /\
  (connect_addr dns (Some p) addrlen = Undef <->
   connect_is_macos p0 p1 addrlen = true /\ p1 = 30 /\ addrlen < 28) /\
  (connect_addr dns (Some p) addrlen = Undef \/ exists r, connect_addr dns (Some p) addrlen = Ok r).
Proof.
  intros H2 Hl E0 E1. unfold bind_addr, sendto_addr, connect_addr.
  destruct (Z.ltb_spec addrlen 2); [lia|]. split_and!.
  - destruct (plain_addr_ok false p addrlen) as [r ->]; [lia..|]. cbn. eauto.
  - destruct (plain_addr_ok true p addrlen) as [r ->]; [lia..|]. cbn. eauto.
  - rewrite E0, E1. cbn [mbind res_bind]. destruct (connect_is_macos p0 p1 addrlen) eqn:Em.
    + apply connect_is_macos_long in Em. destruct (Z.eqb_spec p1 MACOS_AF_INET6) as [->|Hne].
      * destruct (Z.lt_ge_cases addrlen 28).
        { rewrite copy_in6_undef by lia. done. }
        destruct (copy_in6_ok p ltac:(lia)) as [l ->]. cbn. split; [done|lia].
      * destruct (copy_in_ok p ltac:(lia)) as [l ->]. cbn. split; [done|]. intros (_ & -> & _). done.
    + destruct (copy_raw_ok p addrlen ltac:(lia) ltac:(lia)) as [l ->]. cbn. split; [done|]. by intros [].
  - rewrite E0, E1. cbn [mbind res_bind]. destruct (connect_is_macos p0 p1 addrlen) eqn:Em.
    + apply connect_is_macos_long in Em. destruct (p1 =? MACOS_AF_INET6).
      * destruct (Z.lt_ge_cases addrlen 28); [rewrite copy_in6_undef by lia; by left|right].
        destruct (copy_in6_ok p ltac:(lia)) as [l ->]. cbn. eauto.
      * right. destruct (copy_in_ok p ltac:(lia)) as [l ->]. cbn. eauto.
    + right. destruct (copy_raw_ok p addrlen ltac:(lia) ltac:(lia)) as [l ->]. cbn. eauto.
Qed.

Lemma address_reads_witness :
  connect_addr None (Some [28; 30; 0; 80; 0; 0; 0; 0]) 8 = Undef /\
  exists r, bind_addr (Some [28; 30; 0; 80; 0; 0; 0; 0]) 8 = Ok r.
Proof.
  destruct (address_reads None [28; 30; 0; 80; 0; 0; 0; 0] 8 28 30 ltac:(lia) eq_refl eq_refl eq_refl)
    as (Hb & _ & Hc & _).
  split; [|exact Hb]. apply Hc. split_and!; [reflexivity..|lia].
Defined.

(** The address of a Unix-domain socket (family 1) in macOS
    format is taken for an IPv4 one by connect: the kernel is asked to
    connect to the port and the address that the first six bytes of the path
    spell; bind and sendto pass it on as it is, so that the kernel reads the
    length byte and the family as one number. *)
Theorem unix_address_misread (dns : option (list Z)) (l0 : Z) (path : list Z) (addrlen : Z) :
  l0 ∉ [1; 2; 10; 17] -> 8 <= addrlen -> addrlen = buf_len (l0 :: 1 :: path) -> addrlen <= 256 ->
  (exists l, connect_addr dns (Some (l0 :: 1 :: path)) addrlen = Ok (Some (l, 16)) /\
     take 8 l = [2; 0] ++ take 6 path) /\
  (exists l, bind_addr (Some (l0 :: 1 :: path)) addrlen = Ok (Some (l, addrlen)) /\
     sendto_addr (Some (l0 :: 1 :: path)) addrlen = Ok (Some (l, addrlen)) /\
     take (Z.to_nat addrlen) l = l0 :: 1 :: path).
Proof.
  intros H0 H8 Hl H256. set (p := l0 :: 1 :: path) in *.
  assert (buf_rd p 0 = Ok l0) as E0 by done. assert (buf_rd p 1 = Ok 1) as E1 by done. split.
  - assert (connect_is_macos l0 1 addrlen = true) as Em.
    { unfold connect_is_macos. rewrite (proj2 (Z.leb_le _ _) H8), !andb_true_r.
      repeat setoid_rewrite not_elem_of_cons in H0. destruct H0 as (N1 & N2 & N3 & N4 & _).
      change (1 =? 2) with false. change (1 =? 30) with false. change (1 <=? 1) with true. change (1 <=? 30) with true.
      destruct (l0 =? 16), (l0 =? 28); try done. cbn [orb]. rewrite andb_false_r.
      rewrite (proj2 (Z.eqb_neq _ _) N1), (proj2 (Z.eqb_neq _ _) N2), (proj2 (Z.eqb_neq _ _) N3),
        (proj2 (Z.eqb_neq _ _) N4). done. }
    unfold connect_addr. destruct (Z.ltb_spec addrlen 2); [lia|]. rewrite E0, E1. cbn [mbind res_bind].
    rewrite Em. cbn [Z.eqb Pos.eqb MACOS_AF_INET6]. unfold copy_in, guest_bytes.
    rewrite !slice_in_buffer by lia. cbn [mbind res_bind]. unfold redirect_dns. cbn [Z.eqb Pos.eqb andb].
    eexists. split; [done|].
    assert (6 <= length path)%nat as Hn by (unfold p, buf_len in Hl; cbn [length] in Hl; lia). clear -Hn.
    do 6 (destruct path as [|? path]; [cbn in Hn; lia|]). reflexivity.
  - assert (forall cut, exists l, plain_addr cut p addrlen = Ok (l, addrlen) /\ take (Z.to_nat addrlen) l = p /\
      l = splice zero_addr 0 p) as Hp.
    { intros cut. unfold plain_addr. rewrite E0, E1. cbn [mbind res_bind].
      change (1 =? MACOS_AF_INET6) with false. change (1 =? 2) with false. cbn [andb].
      rewrite andb_false_r. cbn [andb]. unfold copy_raw, guest_bytes.
      rewrite Z.min_l, slice_in_buffer by lia.
      assert (take (Z.to_nat addrlen) (drop (Z.to_nat 0) p) = p) as ->.
      { rewrite Hl. unfold buf_len. rewrite Nat2Z.id. apply firstn_all. }
      cbn [mbind res_bind]. exists (splice zero_addr 0 p). split_and!; [by destruct cut| |done].
      rewrite Hl. unfold buf_len. rewrite Nat2Z.id.
      exact (take_app_length p (drop (length p) zero_addr)). }
    destruct (Hp false) as (l & Ef & Ht & Hs). destruct (Hp true) as (l' & Et & _ & Hs').
    exists l. unfold bind_addr, sendto_addr. destruct (Z.ltb_spec addrlen 2); [lia|].
    rewrite Ef, Et. cbn. subst l l'. done.
Qed.

Lemma unix_address_misread_witness :
  exists l, connect_addr None (Some [0; 1; 47; 116; 109; 112; 47; 115]) 8 = Ok (Some (l, 16)) /\
    take 8 l = [2; 0; 47; 116; 109; 112; 47; 115].
Proof.
  apply (unix_address_misread None 0 [47; 116; 109; 112; 47; 115] 8); [|lia|reflexivity|lia].
  apply (bool_decide_unpack _). vm_compute. exact I.
Defined.

(** What getaddrinfo promises of a node: the address has [ai_addrlen] bytes,
    and at least as many as an address of its family needs. *)
Definition well_sized (p : addrinfo) : Prop :=
  match ai_addr p with
  | Some a => buf_len a = ai_addrlen p /\ (ai_family p = 2 -> 8 <= ai_addrlen p) /\ (ai_family p = 10 -> 28 <= ai_addrlen p)
  | None => True
  end.

(** An address of [addrlen] bytes in macOS format. *)
Definition macos_addr (addrlen family : Z) (a : list Z) : list Z :=
  if family =? 2 then [16; 2] ++ take 6 (drop 2 a) ++ replicate (Z.to_nat addrlen - 8) 0
  else if family =? 10 then [28; 30] ++ take 26 (drop 2 a) ++ replicate (Z.to_nat addrlen - 28) 0
  else a.

(** A node of the rebuilt list when memory suffices. *)
Definition macos_node (p : addrinfo) : addrinfo :=
  AddrInfo (ai_flags p) (ai_family p) (ai_socktype p) (ai_protocol p) (ai_addrlen p)
    (if 0 <? ai_addrlen p then macos_addr (ai_addrlen p) (ai_family p) <$> ai_addr p else None) (ai_canonname p).

(** The copy stays in its block, reads only the source, and fills it. *)
Lemma copy_sockaddr_spec p a :
  well_sized p -> ai_addr p = Some a ->
  copy_sockaddr (ai_addrlen p) (ai_family p) a = Ok (macos_addr (ai_addrlen p) (ai_family p) a) /\
  buf_len (macos_addr (ai_addrlen p) (ai_family p) a) = ai_addrlen p.
Proof.
  unfold well_sized. intros H E. rewrite E in H. destruct H as (Hl & H2 & H10). clear E.
  unfold copy_sockaddr, macos_addr, buf_len in *.
  destruct (Z.eqb_spec (ai_family p) 2) as [E2|N2]; [|destruct (Z.eqb_spec (ai_family p) 10) as [E10|N10]].
  - specialize (H2 E2). replace ((ai_addrlen p <? 8) || (Z.of_nat (length a) <? 8)) with false by lia.
    destruct (Z.to_nat (ai_addrlen p)) as [|[|[|[|[|[|[|[|n]]]]]]]] eqn:En; try lia.
    do 8 (destruct a as [|? a]; [cbn in Hl; lia|]). split.
    + unfold splice. cbn. do 9 f_equal. by rewrite Nat.sub_0_r.
    + rewrite !length_app, length_take, length_drop, length_replicate. cbn [length]. lia.
  - specialize (H10 E10). replace ((ai_addrlen p <? 28) || (Z.of_nat (length a) <? 28)) with false by lia.
    replace (Z.to_nat (ai_addrlen p)) with (28 + (Z.to_nat (ai_addrlen p) - 28))%nat by lia.
    set (n := (Z.to_nat (ai_addrlen p) - 28)%nat).
    assert (length (take 26 (drop 2 a)) = 26%nat) as Ht by (rewrite length_take, length_drop; lia).
    replace (28 + n - 28)%nat with n by lia. split.
    + unfold splice. rewrite Ht. reflexivity.
    + rewrite !length_app, Ht, length_replicate. cbn. lia.
  - replace (Z.of_nat (length a) <? ai_addrlen p) with false by lia. split; [|done].
    f_equal. apply take_ge. lia.
Qed.

(** What a node may become: the fields of glibc's; the address converted and
    the name, or NULL where there is no memory for the copy. *)
Definition converted (p m : addrinfo) : Prop :=
  (ai_flags m, ai_family m, ai_socktype m, ai_protocol m, ai_addrlen m) =
  (ai_flags p, ai_family p, ai_socktype p, ai_protocol p, ai_addrlen p) /\
  (ai_addr m = None \/ ai_addr m = ai_addr (macos_node p)) /\
  (ai_canonname m = None \/ ai_canonname m = ai_canonname p).

Lemma rebuild_node_spec alloc k p :
  well_sized p ->
  match rebuild_node alloc k p with
  | Ok None => alloc k = false
  | Ok (Some (m, _)) => alloc k = true /\ converted p m /\ ((forall j, alloc j = true) -> m = macos_node p)
  | _ => False
  end.
Proof.
  intros Hw. unfold rebuild_node. destruct (alloc k) eqn:Ek; [|done]. cbn [negb].
  set (adr := match ai_addr p with Some _ => _ | None => _ end).
  assert (exists o k1, adr = Ok (o, k1) /\ (o = None \/ o = ai_addr (macos_node p)) /\
    ((forall j, alloc j = true) -> o = ai_addr (macos_node p))) as (o & k1 & -> & Ho & Hoa).
  { unfold adr, macos_node. cbn [ai_addr]. destruct (ai_addr p) as [a|] eqn:Ea; [|by destruct (0 <? ai_addrlen p); eauto 8].
    destruct (0 <? ai_addrlen p); [|by eauto 8].
    destruct (alloc (S k)) eqn:Ek1.
    - rewrite (proj1 (copy_sockaddr_spec p a Hw Ea)). cbn [mbind res_bind]. eauto 8.
    - eexists _, _. split; [done|]. split; [by left|]. intros Hall. by rewrite Hall in Ek1. }
  cbn [mbind res_bind].
  destruct (ai_canonname p) as [nm|] eqn:En; cbn.
  - split; [done|]. split.
    + split; [done|]. split; [exact Ho|]. cbn. rewrite En. destruct (alloc k1); auto.
    + intros Hall. rewrite Hall. unfold macos_node. rewrite En. f_equal. by apply Hoa.
  - split; [done|]. split.
    + split; [done|]. split; [exact Ho|]. by left.
    + intros Hall. unfold macos_node. rewrite En. f_equal. by apply Hoa.
Qed.

Lemma rebuild_list_spec alloc k l :
  Forall well_sized l ->
  match rebuild_list alloc k l with
  | Ok None => exists j, alloc j = false
  | Ok (Some ms) => Forall2 converted l ms /\ ((forall j, alloc j = true) -> ms = map macos_node l)
  | _ => False
  end.
Proof.
  intros Hl. revert k. induction Hl as [|p l Hp Hl IH]; intros k; cbn [rebuild_list map]; [split; [constructor|done]|].
  pose proof (rebuild_node_spec alloc k p Hp) as Hn.
  destruct (rebuild_node alloc k p) as [[[m k']|]| |]; [|by exists k|done|done]. cbn [mbind res_bind].
  destruct Hn as (_ & Hc & Hm). specialize (IH k').
  destruct (rebuild_list alloc k' l) as [[ms|]| |]; [|done..]. cbn [mbind res_bind].
  destruct IH as [IH1 IH2]. split; [by constructor|]. intros Hall. by rewrite Hm, IH2.
Qed.

Lemma rebuild_list_ok alloc k l :
  Forall well_sized l -> (forall j, alloc j = true) -> rebuild_list alloc k l = Ok (Some (map macos_node l)).
Proof.
  intros Hl Ha. pose proof (rebuild_list_spec alloc k l Hl) as H.
  destruct (rebuild_list alloc k l) as [[ms|]| |]; [|destruct H as [j Hj]; by rewrite Ha in Hj|done|done].
  by rewrite (proj2 H Ha).
Qed.

(** Without memory for a node nothing is returned. *)
Lemma rebuild_list_fails alloc k p l :
  alloc k = false -> rebuild_list alloc k (p :: l) = Ok None.
Proof. intros H. cbn. unfold rebuild_node. by rewrite H. Qed.

(** Getaddrinfo gives a guest glibc's list in the same order
    and with the same names and lengths, every IPv4 and IPv6 address in macOS
    format; but an IPv6 node still carries the Linux family 10 beside an
    address that says 30, and of the hint flags of macOS, AI_ADDRCONFIG
    (0x400) reaches glibc as AI_NUMERICSERV, AI_ALL (0x100) as AI_ADDRCONFIG,
    AI_NUMERICSERV (0x1000) and AI_V4MAPPED (0x800) not at all. *)
Theorem addrinfo_rebuilt (alloc : nat -> bool) (l : list addrinfo) (k : nat) :
  Forall well_sized l -> (forall j, alloc j = true) ->
  exists ms, rebuild_list alloc k l = Ok (Some ms) /\ length ms = length l /\
  (forall i p, l !! i = Some p ->
   exists m, ms !! i = Some m /\ ai_canonname m = ai_canonname p /\ ai_addrlen m = ai_addrlen p /\
     (forall f0 f1 rest, ai_addr p = Some (f0 :: f1 :: rest) -> 0 < ai_addrlen p ->
      (ai_family p = 2 -> ai_addrlen p = 16 ->
       ai_addr m = Some (16 :: 2 :: take 6 rest ++ replicate 8 0)) /\
      (ai_family p = 10 -> ai_addrlen p = 28 ->
       ai_addr m = Some (28 :: 30 :: rest) /\ ai_family m = 10))) /\
  hint_flags 0x400 = 0x400 /\ hint_flags 0x100 = 0x20 /\ hint_flags 0x1000 = 0 /\ hint_flags 0x800 = 0.
Proof.
  intros Hw Ha. exists (map macos_node l). rewrite rebuild_list_ok, length_map by done.
  split_and!; try reflexivity.
  intros i p Hi. pose proof (Forall_lookup_1 _ _ _ _ Hw Hi) as Hp. exists (macos_node p). split.
  { change (map macos_node l) with (macos_node <$> l). by rewrite list_lookup_fmap, Hi. }
  split_and!; try reflexivity. intros f0 f1 rest Ea Hlen. unfold macos_node.
  rewrite Ea, (proj2 (Z.ltb_lt _ _) Hlen). cbn [ai_addr ai_family fmap option_fmap option_map].
  unfold well_sized in Hp. rewrite Ea in Hp. destruct Hp as [Hp _]. unfold buf_len in Hp. cbn [length] in Hp.
  split; intros -> El; rewrite El in Hp |- *; unfold macos_addr; cbn [Z.eqb Pos.eqb app drop].
  - reflexivity.
  - split; [|done]. rewrite drop_0, take_ge by lia. cbn. by rewrite app_nil_r.
Qed.

Lemma addrinfo_rebuilt_witness :
  exists m, rebuild_list (fun _ => true) 0
    [AddrInfo 0 2 1 6 16 (Some ([2; 0; 0; 80; 10; 0; 0; 7] ++ replicate 8 0)) None] = Ok (Some [m]) /\
    ai_addr m = Some ([16; 2; 0; 80; 10; 0; 0; 7] ++ replicate 8 0).
Proof.
  destruct (addrinfo_rebuilt (fun _ => true)
    [AddrInfo 0 2 1 6 16 (Some ([2; 0; 0; 80; 10; 0; 0; 7] ++ replicate 8 0)) None] 0
    ltac:(constructor; [split; [reflexivity|split; [intros _; cbn; lia|discriminate]]|constructor]) (fun _ => eq_refl))
    as (ms & Hms & _ & Hm & _).
  destruct (Hm 0%nat _ eq_refl) as (m & Hm0 & _ & _ & Ha).
  vm_compute in Hms. injection Hms as <-. injection Hm0 as <-. eexists. split; [vm_compute; reflexivity|].
  exact (proj1 (Ha 2 0 _ eq_refl ltac:(cbn; lia)) eq_refl eq_refl).
Defined.

(** The options of a guest keep apart; but a caller with Linux numbers that
    asks for SO_ERROR (4) is asked about SO_REUSEADDR, and the send timeout
    goes to option 47. *)
Lemma sockopt_facts :
  NoDup (map snd sol_socket_cases) /\
  sockopt_call 0xFFFF 0x1007 = Some (1, 4) /\ sockopt_call 1 4 = Some (1, 2) /\
  sockopt_call 0xFFFF 0x1005 = Some (1, 47) /\ sockopt_call 0xFFFF 0x1022 = None.
Proof. split; [apply (bool_decide_unpack _); vm_compute; exact I|]. by vm_compute. Qed.

(** The redirection changes nothing but the address of 127.0.0.1:53. *)
Lemma redirect_exact dns family l :
  redirect_dns dns family l = l \/
  (family = 2 /\ take 6 (drop 2 l) = [0x00; 0x35; 0x7f; 0x00; 0x00; 0x01] /\
   exists ia, dns = Some ia /\ redirect_dns dns family l = splice l 4 ia).
Proof.
  unfold redirect_dns. destruct (Z.eqb_spec family 2) as [->|]; cbn [andb]; [|by left].
  destruct (bool_decide _) eqn:E; [|by left]. apply bool_decide_eq_true in E.
  destruct dns as [ia|]; [|by left]. right. eauto.
Qed.

(** What the guest's timeout becomes and what is written back. *)
Lemma select_write_back_reads tv sec usec :
  length tv = 16%nat -> select_timeout (select_write_back tv sec usec) = Ok (i64 sec, i32 usec).
Proof.
  intros H. unfold select_write_back, select_timeout, guest_bytes.
  set (l := splice _ _ _). assert (length l = 16%nat) as Hl.
  { do 16 (destruct tv as [|? tv]; [discriminate H|]). destruct tv; [reflexivity|discriminate H]. }
  rewrite !slice_in_buffer by (unfold buf_len; lia). cbn [mbind res_bind].
  assert (take (Z.to_nat 8) (drop (Z.to_nat 0) l) = le_bytes 8 sec /\
          take (Z.to_nat 4) (drop (Z.to_nat 8) l) = le_bytes 4 usec) as [-> ->].
  { do 16 (destruct tv as [|? tv]; [discriminate H|]). destruct tv; [|discriminate H]. by split. }
  rewrite !le_value_bytes. unfold i64, i32, signed.
  change (8 * Z.of_nat 8) with 64. change (8 * Z.of_nat 4) with 32. by rewrite !Z.mod_mod.
Qed.

Example resolv_conf_example :
  resolv_conf_dns_server (Some ("# hosts" +:+ String LF ("nameserver 9.9.9.9" +:+ String LF EmptyString))%string)
  = Some "9.9.9.9"%string.
Proof. reflexivity. Qed.

(** ** Addresses on the way back *)

(** The wrappers trust the length the kernel reports, which is that of the
    whole address, not the room the guest has.  With room for two bytes or
    more (and a buffer that has it) the guest gets the address in its own
    format, cut to the room; with room for none or one, a byte past the
    buffer is read or written. *)
Theorem returned_addr_spec (b kaddr : list Z) (cap : Z) :
  0 <= cap -> 2 <= buf_len kaddr ->
  (2 <= cap -> cap <= buf_len b ->
   returned_addr (Some b) (Some cap) kaddr =
     Ok (Some (linux_to_macos_sockaddr (take (Z.to_nat cap) kaddr ++ drop (length (take (Z.to_nat cap) kaddr)) b) (buf_len kaddr)),
         Some (buf_len kaddr))) /\
  (cap < 2 -> buf_len b = cap -> returned_addr (Some b) (Some cap) kaddr = Undef).
Proof.
  intros Hcap Hk. unfold buf_len in *. split.
  - intros H2 Hb. unfold returned_addr, buf_len. rewrite !length_take.
    destruct (Z.ltb_spec (Z.of_nat (length b)) (Z.of_nat (Z.to_nat cap `min` length kaddr))); [lia|].
    destruct (Z.ltb_spec (Z.of_nat (length kaddr)) 2); [lia|].
    destruct kaddr as [|f [|g kaddr]]; [cbn in Hk; lia..|].
    replace (Z.to_nat cap) with (S (S (Z.to_nat cap - 2))) by lia. cbn [take app length]. unfold linux_to_macos_sockaddr.
    destruct (Z.ltb_spec (Z.of_nat (S (S (length kaddr)))) 2); [lia|]. reflexivity.
  - intros H2 Hb. assert (cap = 0 \/ cap = 1) as Hc by lia. unfold returned_addr, buf_len.
    destruct kaddr as [|f [|g kaddr]]; [cbn in Hk; lia..|].
    destruct (Z.ltb_spec (Z.of_nat (length (f :: g :: kaddr))) 2); [cbn in *; lia|].
    destruct Hc as [-> | ->].
    + destruct b as [|]; [|cbn in Hb; lia]. reflexivity.
    + destruct b as [|x [|]]; [cbn in Hb; lia| |cbn in Hb; lia]. reflexivity.
Qed.
