(* ===== verification/StdioPatch.v ===== *)
(** * Rewriting the inlined stdio macros (src/src/main.c)

    A macOS program has the getc and putc macros compiled into its code; they
    use the fields of a macOS FILE, which on a glibc FILE are other fields.
    Before the program starts, [main] searches its __text section for the
    code of the macros and of the end-of-file test, takes out the store to
    the counter and makes the branch always go to the library call.

    [t] is the section's bytes.  Reads behind a bound check of the code are
    total ([byte_at]), the others are checked.  Page protections are left
    out, except that the putc pass skips a site whose page cannot be opened. *)
From Stdlib Require Import ZArith Lia Bool.
From stdpp Require Import base list numbers relations.
From S2P Require Import Prelude Patcher.

(** ** The decoder [dec_getc_op] *)

Record dec_op := DecOp { op_reg : Z; op_base : Z; op_disp : Z; op_len : Z }.

Definition is_rex (b : Z) : bool := Z.land b 0xF0 =? 0x40.

Definition dec_getc_op (t : list Z) (start opcode : Z) : option dec_op :=
  let n := buf_len t in
  let '(rex, p) :=
    if (start <? n) && is_rex (byte_at t start) then (byte_at t start, start + 1) else (0, start) in
  if (n <=? p) || negb (byte_at t p =? opcode) then None else
  let p := p + 1 in
  if n <=? p then None else
  let modrm := byte_at t p in
  let p := p + 1 in
  let mode := Z.shiftr modrm 6 in
  let reg := Z.land (Z.shiftr modrm 3) 7 + (if has rex 4 then 8 else 0) in
  let rm := Z.land modrm 7 + (if has rex 1 then 8 else 0) in
  if mode =? 3 then
    if negb (rm =? reg) then None else Some (DecOp reg (-1) 0 (p - start))
  else if negb (mode =? 1) then None else
  let sib_rm :=
    if Z.land modrm 7 =? 4 then
      if n <=? p then None else
      let sib := byte_at t p in
      if negb (Z.land (Z.shiftr sib 3) 7 =? 4) then None
      else Some (Z.land sib 7 + (if has rex 1 then 8 else 0), p + 1)
    else Some (rm, p) in
  match sib_rm with
  | None => None
  | Some (rm, p) =>
      if n <=? p then None else Some (DecOp reg rm (i8 (byte_at t p)) (p + 1 - start))
  end.

(** ** The getc macro *)

(** Where the store to [_r] is and how long, where the branch is, whether it
    is to become a jump, and its length. *)
Record getc_site := GetcSite {
  st_off : Z; st_len : Z; jmp_off : Z; force_jmp : bool; jmp_len : Z
}.

(** The branch after the test. *)
Definition getc_branch (t : list Z) (store store_len off : Z) : option getc_site :=
  let size := buf_len t in
  if size <=? off + 1 then None else
  if byte_at t off =? 0x7e then Some (GetcSite store store_len off true 2)
  else if byte_at t off =? 0x7f then Some (GetcSite store store_len off false 2)
  else if (byte_at t off =? 0x0f) && (off + 5 <? size) &&
          ((byte_at t (off + 1) =? 0x8e) || (byte_at t (off + 1) =? 0x8f))
  then Some (GetcSite store store_len off (byte_at t (off + 1) =? 0x8e) 6)
  else None.

(** The inner loop's body: a load of [k] bytes before the [lea] at [i]. *)
Definition getc_try (t : list Z) (i : Z) (lea : dec_op) (k : Z) : option getc_site :=
  let lea_end := i + op_len lea in
  if i <? k then None else
  match dec_getc_op t (i - k) 0x8b with
  | None => None
  | Some ld =>
    if negb (i - k + op_len ld =? i) then None else
    if negb (op_disp ld =? 8) || (op_base ld <? 0) || negb (op_reg ld =? op_base lea) then None else
    match dec_getc_op t lea_end 0x89 with
    | None => None
    | Some st =>
      if negb (op_disp st =? 8) || negb (op_base st =? op_base ld) || negb (op_reg st =? op_reg lea)
      then None else
      let st_end := lea_end + op_len st in
      match dec_getc_op t st_end 0x85 with
      | None => None
      | Some ts =>
        if negb (op_base ts =? -1) || negb (op_reg ts =? op_base lea) then None else
        getc_branch t lea_end (op_len st) (st_end + op_len ts)
      end
    end
  end.

(** The site whose [lea] is at [i], if there is one. *)
Definition getc_match (t : list Z) (i : Z) : option getc_site :=
  if negb (byte_at t i =? 0x8d) && negb (is_rex (byte_at t i)) then None else
  match dec_getc_op t i 0x8d with
  | None => None
  | Some lea =>
      if (op_base lea <? 0) || negb (op_disp lea =? -1) then None else
      match getc_try t i lea 5 with
      | Some s => Some s
      | None => match getc_try t i lea 4 with
                | Some s => Some s
                | None => getc_try t i lea 3
                end
      end
  end.

(** The four bytes of a near displacement as an [int32_t]. *)
Definition rd_disp32 (t : list Z) (off : Z) : res Z :=
  b0 ← buf_rd t off; b1 ← buf_rd t (off + 1); b2 ← buf_rd t (off + 2); b3 ← buf_rd t (off + 3);
  Ok (i32 (le_value [b0; b1; b2; b3])).

(** [0f 8x d0..d3] becomes [e9 (d+1) 90]. *)
Definition near_to_jmp (t : list Z) (off : Z) : res (list Z) :=
  disp ← rd_disp32 t (off + 2);
  patch_bytes t off (0xe9 :: le_bytes 4 (disp + 1) ++ [0x90]).

Definition getc_rewrite (t : list Z) (s : getc_site) : res (list Z) :=
  t ← patch_bytes t (st_off s) (replicate (Z.to_nat (st_len s)) 0x90);
  if force_jmp s then
    if jmp_len s =? 2 then patch_bytes t (jmp_off s) [0xeb] else near_to_jmp t (jmp_off s)
  else patch_bytes t (jmp_off s) (replicate (Z.to_nat (jmp_len s)) 0x90).

(** [for (i = 5; i + 12 < size; i++)]: the text and [getc_patched]. *)
Fixpoint getc_loop (fuel : nat) (i : Z) (t : list Z) (count : Z) : res (list Z * Z) :=
  match fuel with
  | O => Ok (t, count)
  | S fuel =>
      match getc_match t i with
      | None => getc_loop fuel (i + 1) t count
      | Some s => t ← getc_rewrite t s; getc_loop fuel (i + 1) t (count + 1)
      end
  end.

Definition patch_getc (t : list Z) : res (list Z * Z) :=
  getc_loop (Z.to_nat (buf_len t - 17)) 5 t 0.

(** ** The end-of-file test *)

(** The offset behind [test byte [fp+0x10], 0x20 or 0x40] at [i]. *)
Definition eof_match (t : list Z) (i : Z) : option Z :=
  let has_rex := byte_at t i =? 0x41 in
  let off := if has_rex then i + 1 else i in
  if (byte_at t off =? 0xf6) && (Z.land (byte_at t (off + 1)) 0xF8 =? 0x40) &&
     (byte_at t (off + 2) =? 0x10) &&
     ((byte_at t (off + 3) =? 0x20) || (byte_at t (off + 3) =? 0x40))
  then Some (off + 4) else None.

Definition eof_site (t : list Z) (i : Z) : res (list Z * bool) :=
  match eof_match t i with
  | None => Ok (t, false)
  | Some after =>
      b ← buf_rd t after;
      if b =? 0x74 then t ← patch_bytes t after [0xeb]; Ok (t, true) else
      if b =? 0x75 then t ← patch_bytes t after [0x90; 0x90]; Ok (t, true) else
      if negb (b =? 0x0f) then Ok (t, false) else
      b1 ← buf_rd t (after + 1);
      if b1 =? 0x84 then t ← near_to_jmp t after; Ok (t, true) else
      if b1 =? 0x85 then t ← patch_bytes t after (replicate 6 0x90); Ok (t, true) else Ok (t, false)
  end.

(** [for (i = 0; i + 7 < size; i++)] *)
Fixpoint eof_loop (fuel : nat) (i : Z) (t : list Z) (count : Z) : res (list Z * Z) :=
  match fuel with
  | O => Ok (t, count)
  | S fuel => '(t, hit) ← eof_site t i; eof_loop fuel (i + 1) t (if hit : bool then count + 1 else count)
  end.

Definition patch_eof (t : list Z) : res (list Z * Z) := eof_loop (Z.to_nat (buf_len t - 7)) 0 t 0.

(** ** The putc macro *)

Definition modrm_reg (b : Z) : Z := Z.land (Z.shiftr b 3) 7.
Definition modrm_rm (b : Z) : Z := Z.land b 7.
Definition modrm_mod (b : Z) : Z := Z.land b 0xC0.

(** The common prologue at [i], up to the branch. *)
Definition putc_prologue (t : list Z) (i : Z) : bool :=
  let m1 := byte_at t (i + 1) in
  let m2 := byte_at t (i + 4) in
  let m3 := byte_at t (i + 7) in
  let m4 := byte_at t (i + 10) in
  let r1 := modrm_reg m1 in
  let base := modrm_rm m1 in
  let r2 := modrm_reg m2 in
  (byte_at t i =? 0x8b) && (modrm_mod m1 =? 0x40) && negb (base =? 4) && (byte_at t (i + 2) =? 0x0c) &&
  (byte_at t (i + 3) =? 0x8d) && (modrm_mod m2 =? 0x40) && (modrm_rm m2 =? r1) &&
  (byte_at t (i + 5) =? 0xff) &&
  (byte_at t (i + 6) =? 0x89) && (modrm_mod m3 =? 0x40) && (modrm_reg m3 =? r2) &&
  (modrm_rm m3 =? base) && (byte_at t (i + 8) =? 0x0c) &&
  (byte_at t (i + 9) =? 0x85) && (modrm_mod m4 =? 0xC0) && (modrm_reg m4 =? r1) && (modrm_rm m4 =? r1) &&
  ((byte_at t (i + 11) =? 0x7f) || (byte_at t (i + 11) =? 0x7e)).

(** The slow label: where the branch, or the check behind it, goes. *)
Definition putc_slow (t : list Z) (i : Z) : option Z :=
  let p := i + 13 in
  if byte_at t (i + 11) =? 0x7e then Some (p + i8 (byte_at t (i + 12)))
  else if byte_at t p =? 0x74 then Some (p + 2 + i8 (byte_at t (p + 1)))
  else if (byte_at t p =? 0x3c) && (byte_at t (p + 1) =? 0x0a) && (byte_at t (p + 2) =? 0x74)
  then Some (p + 4 + i8 (byte_at t (p + 3)))
  else if (byte_at t p =? 0x3b) && (byte_at t (p + 3) =? 0x7e) then Some (p + 5 + i8 (byte_at t (p + 4)))
  else if (byte_at t p =? 0x3d) && (byte_at t (p + 5) =? 0x7e) then Some (p + 7 + i8 (byte_at t (p + 6)))
  else None.

(** The label loads the character for [__swbuf]. *)
Definition putc_label (t : list Z) (slow : Z) : bool :=
  (byte_at t slow =? 0xbf) || ((byte_at t slow =? 0x0f) && (byte_at t (slow + 1) =? 0xbe)).

Record putc_counts := PutcCounts { patched : Z; seen : Z; unresolved : Z }.

Definition putc_site (rwx_ok : Z -> bool) (t : list Z) (i : Z) (c : putc_counts)
    : res (list Z * putc_counts) :=
  if negb (putc_prologue t i) then Ok (t, c) else
  let c := PutcCounts (patched c) (seen c + 1) (unresolved c) in
  let missed := PutcCounts (patched c) (seen c) (unresolved c + 1) in
  match putc_slow t i with
  | None => Ok (t, c)
  | Some slow =>
      if (slow <? 0) || (buf_len t <? slow + 2) then Ok (t, missed) else
      let rel := i8 (slow - (i + 13)) in
      if negb (slow =? i + 13 + rel) then Ok (t, missed) else
      if negb (putc_label t slow) then Ok (t, missed) else
      if negb (rwx_ok i) then Ok (t, c) else
      t ← patch_bytes t (i + 6) [0x90; 0x90; 0x90];
      t ← patch_bytes t (i + 11) [0xeb; u8 rel];
      Ok (t, PutcCounts (patched c + 1) (seen c) (unresolved c))
  end.

(** [for (i = 0; i + 20 < size; i++)] *)
Fixpoint putc_loop (rwx_ok : Z -> bool) (fuel : nat) (i : Z) (t : list Z) (c : putc_counts)
    : res (list Z * putc_counts) :=
  match fuel with
  | O => Ok (t, c)
  | S fuel => '(t, c) ← putc_site rwx_ok t i c; putc_loop rwx_ok fuel (i + 1) t c
  end.

Definition patch_putc (rwx_ok : Z -> bool) (t : list Z) : res (list Z * putc_counts) :=
  putc_loop rwx_ok (Z.to_nat (buf_len t - 20)) 0 t (PutcCounts 0 0 0).

(** ** The three passes *)

(** The shim's variables [macify_getc_patched] and [macify_skip_r_patch]. *)
Record stdio_mode := StdioMode { getc_patched : bool; skip_r_patch : bool }.

(** [force_eof]: MACIFY_PATCH_EOF is set; [shim_loaded]: the shim is
    g_dylibs[0] and has the variables. *)
Definition patch_stdio (force_eof shim_loaded : bool) (rwx_ok : Z -> bool) (t : list Z)
    : res (list Z * stdio_mode) :=
  let size := buf_len t in
  '(t, getcs) ← patch_getc t;
  t ← (if (size <=? 100000) || (0 <? getcs) || force_eof
       then '(t, _) ← patch_eof t; Ok t else Ok t);
  '(t, putcs) ← patch_putc rwx_ok t;
  Ok (t, StdioMode (shim_loaded && (0 <? getcs)) (shim_loaded && (patched putcs =? 0))).

(** ** What the branches do *)

(** The flags a branch looks at: [f_le] for jle and jg, [f_zero] for je and
    jne. *)
Record flags := Flags { f_le : bool; f_zero : bool }.

(** One step of the processor from [ip], for no-ops, jumps and the branches
    the patterns end in. *)
Definition near_disp (t : list Z) (off : Z) : Z :=
  i32 (le_value [byte_at t off; byte_at t (off + 1); byte_at t (off + 2); byte_at t (off + 3)]).

Definition short_branch (t : list Z) (ip : Z) (taken : bool) : option Z :=
  Some (if taken then ip + 2 + i8 (byte_at t (ip + 1)) else ip + 2).

Definition near_branch (t : list Z) (ip : Z) (taken : bool) : option Z :=
  Some (if taken then ip + 6 + near_disp t (ip + 2) else ip + 6).

Definition step (t : list Z) (f : flags) (ip : Z) : option Z :=
  let b := byte_at t ip in
  if b =? 0x90 then Some (ip + 1)
  else if b =? 0xeb then short_branch t ip true
  else if b =? 0xe9 then Some (ip + 5 + near_disp t (ip + 1))
  else if b =? 0x7e then short_branch t ip (f_le f)
  else if b =? 0x7f then short_branch t ip (negb (f_le f))
  else if b =? 0x74 then short_branch t ip (f_zero f)
  else if b =? 0x75 then short_branch t ip (negb (f_zero f))
  else if b =? 0x0f then
    let b1 := byte_at t (ip + 1) in
    if b1 =? 0x8e then near_branch t ip (f_le f)
    else if b1 =? 0x8f then near_branch t ip (negb (f_le f))
    else if b1 =? 0x84 then near_branch t ip (f_zero f)
    else if b1 =? 0x85 then near_branch t ip (negb (f_zero f))
    else None
  else None.

Definition reaches (t : list Z) (f : flags) : Z -> Z -> Prop :=
  rtc (fun ip ip' => step t f ip = Some ip').

(** [t'] is [t] with the branch of [len] bytes at [off] replaced by code that
    goes to [d] whatever the flags; targets are within the 31 bits a near
    displacement has. *)
Record redirected (t t' : list Z) (off len d : Z) : Prop := {
  rd_length : length t' = length t;
  rd_frame : forall x, x < off \/ off + len <= x -> buf_get t' x = buf_get t x;
  rd_goes : d < 2 ^ 31 -> forall f, reaches t' f off d
}.

(** The same, with [n] no-ops at [lo] besides. *)
Record rewritten (t t' : list Z) (lo n off len d : Z) : Prop := {
  rw_length : length t' = length t;
  rw_frame : forall x, ~ (lo <= x < lo + n) -> ~ (off <= x < off + len) -> buf_get t' x = buf_get t x;
  rw_nops : forall x, lo <= x < lo + n -> byte_at t' x = 0x90;
  rw_goes : d < 2 ^ 31 -> forall f, reaches t' f off d
}.

(** ** Lemmas: patched bytes *)

(** [patch_bytes] on a range inside the text, with the bytes it leaves. *)
Lemma patch_bytes_at t off bs :
  0 <= off -> off + buf_len bs <= buf_len t ->
  exists t', patch_bytes t off bs = Ok t' /\ length t' = length t /\
    (forall x, x < off \/ off + buf_len bs <= x -> buf_get t' x = buf_get t x) /\
    (forall k, 0 <= k < buf_len bs -> buf_get t' (off + k) = buf_get bs k).
Proof.
  intros Ho Hl. set (pre := take (Z.to_nat off) t).
  set (old := take (length bs) (drop (Z.to_nat off) t)). set (post := drop (length bs) (drop (Z.to_nat off) t)).
  assert (t = pre ++ old ++ post) as Et.
  { unfold pre, old, post. by rewrite !take_drop. }
  assert (buf_len pre = off) as Epre by (unfold buf_len, pre in *; rewrite length_take; lia).
  assert (length old = length bs) as Eold.
  { unfold old. rewrite length_take, length_drop. unfold buf_len in *. lia. }
  pose proof (patch_bytes_app pre old bs post Eold) as E. rewrite <- Et, Epre in E.
  destruct (patch_bytes_spec t off bs Ho Hl) as (t' & E' & Hlen & Hfr & _).
  rewrite E' in E. injection E as E. exists t'. split; [done|]. split; [done|]. split; [done|].
  intros k Hk. rewrite E, <- Epre, buf_get_app_r by lia.
  unfold buf_get, buf_len in *. replace (k <? 0) with false by lia. rewrite lookup_app_l by lia. done.
Qed.

Lemma buf_get_replicate n b k : 0 <= k < Z.of_nat n -> buf_get (replicate n b) k = Some b.
Proof.
  intros Hk. unfold buf_get. replace (k <? 0) with false by lia. apply lookup_replicate_2. lia.
Qed.

Lemma buf_len_replicate n (b : Z) : buf_len (replicate n b) = Z.of_nat n.
Proof. unfold buf_len. by rewrite length_replicate. Qed.

Lemma byte_at_get t t' x y : buf_get t x = buf_get t' y -> byte_at t x = byte_at t' y.
Proof. unfold byte_at. by intros ->. Qed.

Lemma same_length_len (t t' : list Z) : length t' = length t -> buf_len t' = buf_len t.
Proof. unfold buf_len. lia. Qed.

(** A run of no-ops falls through. *)
Lemma nops_fall t f off n :
  0 <= n -> (forall x, off <= x < off + n -> byte_at t x = 0x90) -> reaches t f off (off + n).
Proof.
  intros Hn. rewrite <- (Z2Nat.id n Hn). clear Hn. revert off.
  induction (Z.to_nat n) as [|m IH]; intros off H.
  - rewrite Z.add_0_r. apply rtc_refl.
  - eapply rtc_l.
    + unfold step. rewrite (H off) by lia. reflexivity.
    + replace (off + Z.of_nat (S m)) with (off + 1 + Z.of_nat m) by lia. apply IH. intros x Hx. apply H. lia.
Qed.

Lemma i32_le_bytes z : i32 (le_value (le_bytes 4 z)) = i32 z.
Proof.
  unfold i32, signed. rewrite le_value_bytes. change (8 * Z.of_nat 4) with 32. by rewrite Z.mod_mod by lia.
Qed.

Lemma le_bytes_4 z : exists a b c d, le_bytes 4 z = [a; b; c; d].
Proof. by do 4 eexists. Qed.

(** ** Lemmas: one rewrite *)

Lemma rd_disp32_ok t off : 0 <= off -> off + 4 <= buf_len t -> rd_disp32 t off = Ok (near_disp t off).
Proof. intros H0 H. unfold rd_disp32. rewrite !buf_rd_spec by lia. reflexivity. Qed.

Lemma i32_range z : - 2 ^ 31 <= i32 z < 2 ^ 31.
Proof. apply (signed_range 32 z). lia. Qed.

Lemma near_redirect t off :
  0 <= off -> off + 6 <= buf_len t ->
  exists t', near_to_jmp t off = Ok t' /\ redirected t t' off 6 (off + 6 + near_disp t (off + 2)).
Proof.
  intros H0 H6. unfold near_to_jmp. rewrite rd_disp32_ok by lia. cbn [mbind res_bind].
  set (d := near_disp t (off + 2)). destruct (le_bytes_4 (d + 1)) as (a & b & c & e & El).
  destruct (patch_bytes_at t off (0xe9 :: le_bytes 4 (d + 1) ++ [0x90])) as (t' & E & Hlen & Hfr & Hnew);
    [done|rewrite El; cbn; unfold buf_len in *; cbn in *; lia|].
  exists t'. split; [exact E|]. rewrite El in Hfr, Hnew. change (buf_len _) with 6 in Hfr, Hnew.
  split; [done|exact Hfr|]. intros Hd f. apply rtc_once. unfold step.
  assert (forall k v, 0 <= k < 6 -> buf_get (0xe9 :: [a; b; c; e] ++ [0x90]) k = Some v ->
            byte_at t' (off + k) = v) as Hb.
  { intros k v Hk Hv. unfold byte_at. by rewrite Hnew, Hv. }
  assert (byte_at t' off = 0xe9) as ->.
  { rewrite <- (Z.add_0_r off). apply Hb; [lia|done]. }
  cbn -[near_disp Z.add]. f_equal.
  assert (near_disp t' (off + 1) = d + 1) as ->.
  { unfold near_disp. rewrite <- !Z.add_assoc. rewrite (Hb 1 a), (Hb (1 + 1) b), (Hb (1 + 2) c), (Hb (1 + 3) e)
      by (done || lia).
    rewrite <- El, i32_le_bytes. pose proof (i32_range (le_value [byte_at t (off + 2); byte_at t (off + 2 + 1);
      byte_at t (off + 2 + 2); byte_at t (off + 2 + 3)])) as Hr. fold (near_disp t (off + 2)) in Hr. fold d in Hr.
    apply (signed_small 32); lia. }
  lia.
Qed.

Lemma short_redirect t off :
  0 <= off -> off + 2 <= buf_len t ->
  exists t', patch_bytes t off [0xeb] = Ok t' /\ redirected t t' off 2 (off + 2 + i8 (byte_at t (off + 1))).
Proof.
  intros H0 H2. destruct (patch_bytes_at t off [0xeb]) as (t' & E & L & F & N);
    [lia|change (buf_len [0xeb]) with 1; lia|]. change (buf_len [0xeb]) with 1 in F, N.
  exists t'. split; [done|]. split; [done|intros x Hx; apply F; lia|].
  intros _ f. apply rtc_once. unfold step.
  rewrite (byte_at_get t' [0xeb] off 0) by (rewrite <- (Z.add_0_r off); apply N; lia).
  change (byte_at [0xeb] 0) with 0xeb. cbn -[Z.add byte_at]. unfold short_branch.
  by rewrite (byte_at_get t' t (off + 1) (off + 1)) by (apply F; lia).
Qed.

Lemma nops_redirect t off n :
  0 <= off -> off + Z.of_nat n <= buf_len t ->
  exists t', patch_bytes t off (replicate n 0x90) = Ok t' /\
    redirected t t' off (Z.of_nat n) (off + Z.of_nat n) /\
    (forall x, off <= x < off + Z.of_nat n -> byte_at t' x = 0x90).
Proof.
  intros H0 Hn. destruct (patch_bytes_at t off (replicate n 0x90)) as (t' & E & L & F & N);
    [lia|rewrite buf_len_replicate; lia|]. rewrite buf_len_replicate in F, N.
  assert (forall x, off <= x < off + Z.of_nat n -> byte_at t' x = 0x90) as H90.
  { intros x Hx. replace x with (off + (x - off)) by lia. unfold byte_at. by rewrite N, buf_get_replicate by lia. }
  exists t'. split; [done|]. split; [|done]. split; [done|done|]. intros _ f. apply nops_fall; [lia|done].
Qed.

(** No-ops first, then a redirection behind them. *)
Lemma rewritten_both t t1 t' lo n off len d :
  0 <= n -> lo + n <= off -> 0 <= len -> redirected t t1 lo n (lo + n) ->
  (forall x, lo <= x < lo + n -> byte_at t1 x = 0x90) -> redirected t1 t' off len d ->
  rewritten t t' lo n off len d.
Proof.
  intros Hn Hlo Hlen [L1 F1 _] N1 [L2 F2 G2]. split; [congruence| | |exact G2].
  - intros x Hx1 Hx2. rewrite F2, F1 by lia. done.
  - intros x Hx. rewrite (byte_at_get t' t1 x x) by (apply F2; lia). by apply N1.
Qed.

Lemma dec_range t start opcode d :
  0 <= start -> dec_getc_op t start opcode = Some d ->
  2 <= op_len d <= 5 /\ start + op_len d <= buf_len t.
Proof.
  intros H0. unfold dec_getc_op.
  destruct ((start <? buf_len t) && is_rex (byte_at t start)); cbn zeta;
    repeat match goal with
    | |- (if ?c then None else _) = _ -> _ => destruct c eqn:?; [done|]
    | |- (if ?c then _ else _) = _ -> _ => destruct c eqn:?
    end;
    repeat case_match; intros; simplify_eq; cbn [op_len]; lia.
Qed.

Lemma getc_branch_spec t store store_len off s :
  getc_branch t store store_len off = Some s ->
  st_off s = store /\ st_len s = store_len /\ jmp_off s = off /\ off + jmp_len s <= buf_len t /\
  exists d, (forall z, step t (Flags true z) off = Some d) /\
    ((jmp_len s = 2 /\ force_jmp s = true /\ d = off + 2 + i8 (byte_at t (off + 1))) \/
     (jmp_len s = 6 /\ force_jmp s = true /\ d = off + 6 + near_disp t (off + 2)) \/
     ((jmp_len s = 2 \/ jmp_len s = 6) /\ force_jmp s = false /\ d = off + jmp_len s)).
Proof.
  unfold getc_branch. destruct (Z.leb_spec (buf_len t) (off + 1)) as [|Hl]; [done|].
  destruct (byte_at t off =? 0x7e) eqn:E1.
  { intros [= <-]. cbn. split_and!; try done; [lia|]. eexists. split; [|by left].
    intros z. unfold step. rewrite (proj1 (Z.eqb_eq _ _) E1). reflexivity. }
  destruct (byte_at t off =? 0x7f) eqn:E2.
  { intros [= <-]. cbn. split_and!; try done; [lia|]. eexists. split; [|right; right; auto].
    intros z. unfold step. rewrite (proj1 (Z.eqb_eq _ _) E2). reflexivity. }
  destruct (byte_at t off =? 0x0f) eqn:E3; [|done]. destruct (Z.ltb_spec (off + 5) (buf_len t)); [|done].
  cbn [andb]. destruct (byte_at t (off + 1) =? 0x8e) eqn:E4; cbn [orb].
  { intros [= <-]. cbn. split_and!; try done; [lia|]. eexists. split; [|right; left; auto].
    intros z. unfold step. by rewrite (proj1 (Z.eqb_eq _ _) E3), (proj1 (Z.eqb_eq _ _) E4). }
  destruct (byte_at t (off + 1) =? 0x8f) eqn:E5; [|done].
  intros [= <-]. cbn. split_and!; try done; [lia|]. eexists. split; [|right; right; auto].
  intros z. unfold step. by rewrite (proj1 (Z.eqb_eq _ _) E3), (proj1 (Z.eqb_eq _ _) E5).
Qed.

Lemma getc_try_spec t i lea k s :
  0 <= i -> 0 <= k -> i + op_len lea <= buf_len t -> 2 <= op_len lea -> getc_try t i lea k = Some s ->
  exists store_len off, 2 <= store_len <= 5 /\ i + op_len lea + store_len + 2 <= off /\
    getc_branch t (i + op_len lea) store_len off = Some s.
Proof.
  intros H0 Hk Hl Hl2. unfold getc_try. destruct (Z.ltb_spec i k); [done|].
  destruct (dec_getc_op t (i - k) 0x8b) as [ld|]; [|done].
  destruct (negb _); [done|]. destruct (_ || _); [done|].
  destruct (dec_getc_op t (i + op_len lea) 0x89) as [st|] eqn:Est; [|done].
  apply dec_range in Est; [|lia]. destruct (_ || _); [done|].
  destruct (dec_getc_op t _ 0x85) as [ts|] eqn:Ets; [|done].
  apply dec_range in Ets; [|lia]. destruct (_ || _); [done|].
  intros E. eexists _, _. split_and!; [| | |exact E]; lia.
Qed.

Lemma getc_match_spec t i s :
  0 <= i -> getc_match t i = Some s ->
  exists lea_len store_len off, 2 <= lea_len /\ 2 <= store_len <= 5 /\ i + lea_len + store_len + 2 <= off /\
    getc_branch t (i + lea_len) store_len off = Some s.
Proof.
  intros H0. unfold getc_match. destruct (_ && _); [done|].
  destruct (dec_getc_op t i 0x8d) as [lea|] eqn:Elea; [|done]. apply dec_range in Elea; [|done].
  destruct (_ || _); [done|]. intros E.
  assert (exists k, 0 <= k /\ getc_try t i lea k = Some s) as (k & Hk & Ek).
  { destruct (getc_try t i lea 5) eqn:E5; [exists 5; by simplify_eq|].
    destruct (getc_try t i lea 4) eqn:E4; [exists 4; by simplify_eq|]. by exists 3. }
  apply getc_try_spec in Ek as (n & off & ? & ? & ?); [|lia..]. exists (op_len lea), n, off. split_and!; try done; lia.
Qed.

(** A matched site is rewritten: no-ops for the store, and from the branch on
    the code goes where the branch goes when the counter is not positive. *)
Lemma getc_rewrite_spec t i s :
  0 <= i -> getc_match t i = Some s ->
  exists t' d, getc_rewrite t s = Ok t' /\ (forall z, step t (Flags true z) (jmp_off s) = Some d) /\
    i < st_off s /\ st_off s + st_len s < jmp_off s /\ jmp_off s + jmp_len s <= buf_len t /\
    rewritten t t' (st_off s) (st_len s) (jmp_off s) (jmp_len s) d.
Proof.
  intros H0 (ll & sl & off & Hll & Hsl & Hoff & Hbr)%getc_match_spec; [|done].
  apply getc_branch_spec in Hbr as (Es & El & Ej & Hjl & d & Hstep & Hcase). rewrite Es, El, Ej in *.
  set (store := i + ll) in *. unfold getc_rewrite. rewrite Es, El, Ej.
  assert (2 <= jmp_len s <= 6) as Hjl2 by (destruct Hcase as [[-> _]|[[-> _]|[[-> | ->] _]]]; lia).
  destruct (nops_redirect t store (Z.to_nat sl)) as (t1 & E1 & R1 & N1); [lia..|].
  rewrite Z2Nat.id in R1, N1 by lia. rewrite E1. cbn [mbind res_bind].
  assert (forall k, 0 <= k -> byte_at t1 (off + k) = byte_at t (off + k)) as Hb.
  { intros k Hk. apply byte_at_get, R1. lia. }
  pose proof (same_length_len _ _ (rd_length _ _ _ _ _ R1)) as Hlen1.
  assert (exists t', (if force_jmp s then if jmp_len s =? 2 then patch_bytes t1 off [0xeb] else near_to_jmp t1 off
      else patch_bytes t1 off (replicate (Z.to_nat (jmp_len s)) 0x90)) = Ok t' /\
      redirected t1 t' off (jmp_len s) d) as (t' & E' & R').
  { destruct Hcase as [(Hj & Hf & Hd)|[(Hj & Hf & Hd)|(Hj & Hf & Hd)]]; rewrite Hf.
    - rewrite Hj, Hd, <- Hb by lia. apply short_redirect; lia.
    - rewrite Hj, Hd. replace (near_disp t (off + 2)) with (near_disp t1 (off + 2)); [apply near_redirect; lia|].
      unfold near_disp. rewrite <- !Z.add_assoc. by rewrite !Hb by lia.
    - rewrite Hd. destruct (nops_redirect t1 off (Z.to_nat (jmp_len s))) as (t' & E' & R' & _); [lia..|].
      rewrite Z2Nat.id in R' by lia. eauto. }
  exists t', d. split_and!; try done; try lia. eapply rewritten_both; eauto; lia.
Qed.

(** ** The macro as compilers emit it *)

(** [op reg, [base+disp]] in its shortest encoding, for registers 0 to 15. *)
Definition enc_rex (reg base : Z) : list Z :=
  if (8 <=? reg) || (8 <=? base)
  then [0x40 + (if 8 <=? reg then 4 else 0) + (if 8 <=? base then 1 else 0)] else [].

Definition enc_mem (opcode reg base disp : Z) : list Z :=
  enc_rex reg base ++ [opcode; 0x40 + 8 * (reg mod 8) + base mod 8] ++
  (if base mod 8 =? 4 then [0x24] else []) ++ [u8 disp].

(** [op reg, reg] *)
Definition enc_same (opcode reg : Z) : list Z :=
  enc_rex reg reg ++ [opcode; 0xC0 + 9 * (reg mod 8)].

Definition is_reg (r : Z) : Prop := 0 <= r < 16.

(** The code of the macro up to its branch, for a FILE pointer in [B]. *)
Definition getc_code (L B D : Z) : list Z :=
  enc_mem 0x8b L B 8 ++ enc_mem 0x8d D L (-1) ++ enc_mem 0x89 D B 8 ++ enc_same 0x85 L.

(** ** Lemmas: the decoder *)

(** The decoder does not look at what is before the instruction. *)
Lemma dec_shift pre t opcode : dec_getc_op (pre ++ t) (buf_len pre) opcode = dec_getc_op t 0 opcode.
Proof.
  unfold dec_getc_op. rewrite buf_len_app.
  assert (forall k, 0 <= k -> byte_at (pre ++ t) (buf_len pre + k) = byte_at t k) as Hb by apply byte_at_app_r.
  assert (byte_at (pre ++ t) (buf_len pre) = byte_at t 0) as Hb0.
  { rewrite <- (Z.add_0_r (buf_len pre)) at 1. by apply Hb. }
  rewrite Hb0. replace (buf_len pre <? buf_len pre + buf_len t) with (0 <? buf_len t) by lia.
  assert (forall p, (buf_len pre + buf_len t <=? buf_len pre + p) = (buf_len t <=? p)) as Hle by (intros; lia).
  destruct ((0 <? buf_len t) && is_rex (byte_at t 0));
    [|rewrite <- (Z.add_0_r (buf_len pre))];
    rewrite <- !Z.add_assoc; rewrite !Hle, !Hb by lia; cbn [Z.add Pos.add Pos.succ];
    destruct (_ || _); [done| |done|]; destruct (buf_len t <=? _); try done;
    destruct (_ =? 3); try (destruct (negb _); try done; do 2 f_equal; lia);
    destruct (negb _); try done; (destruct (_ =? 4); [destruct (buf_len t <=? _); try done|]);
    try (destruct (negb _); try done); cbn zeta; rewrite <- !Z.add_assoc; rewrite !Hle, ?Hb by lia;
    (destruct (buf_len t <=? _); try done); do 2 f_equal; lia.
Qed.

(** The fields of the bytes the encoder emits. *)
Lemma modrm_fields reg base :
  is_reg reg -> is_reg base ->
  let m := 0x40 + 8 * (reg mod 8) + base mod 8 in
  Z.shiftr m 6 = 1 /\ Z.land (Z.shiftr m 3) 7 = reg mod 8 /\ Z.land m 7 = base mod 8 /\
  let r := 0x40 + (if 8 <=? reg then 4 else 0) + (if 8 <=? base then 1 else 0) in
  is_rex r = true /\ has r 4 = (8 <=? reg) /\ has r 1 = (8 <=? base).
Proof.
  intros Hr Hb.
  pose proof (range_forallb (fun reg => forallb (fun base =>
    let m := 0x40 + 8 * (reg mod 8) + base mod 8 in
    let r := 0x40 + (if 8 <=? reg then 4 else 0) + (if 8 <=? base then 1 else 0) in
    (Z.shiftr m 6 =? 1) && (Z.land (Z.shiftr m 3) 7 =? reg mod 8) && (Z.land m 7 =? base mod 8) &&
    is_rex r && Bool.eqb (has r 4) (8 <=? reg) && Bool.eqb (has r 1) (8 <=? base)) (seqZ 0 16)) 0 16
    ltac:(vm_compute; reflexivity) reg Hr) as C. cbv beta in C.
  rewrite forallb_forall in C. specialize (C base). cbv zeta in *.
  rewrite !andb_true_iff, !Z.eqb_eq, !eqb_true_iff in C.
  destruct C as [[[[[? ?] ?] ?] ?] ?]; [|done]. apply list_elem_of_In, elem_of_seqZ. exact Hb.
Qed.

Lemma reg_split reg : is_reg reg -> reg mod 8 + (if 8 <=? reg then 8 else 0) = reg.
Proof.
  unfold is_reg. intros H. destruct (Z.leb_spec 8 reg).
  - replace reg with (reg - 8 + 1 * 8) at 1 by lia. rewrite Z.mod_add, Z.mod_small by lia. lia.
  - rewrite Z.mod_small; lia.
Qed.

Lemma i8_u8 z : -128 <= z < 128 -> i8 (u8 z) = z.
Proof.
  intros Hz. unfold i8, u8, signed. rewrite Z.mod_mod by lia. apply (signed_small 8); lia.
Qed.

Lemma buf_len_cons (b : Z) l : buf_len (b :: l) = 1 + buf_len l.
Proof. unfold buf_len. cbn [length]. lia. Qed.

Lemma byte_at_0 b l : byte_at (b :: l) 0 = b.
Proof. reflexivity. Qed.

Lemma byte_at_next b l k : 0 <= k -> byte_at (b :: l) (k + 1) = byte_at l k.
Proof.
  intros Hk. rewrite Z.add_comm. change 1 with (buf_len [b]). by apply (byte_at_app_r [b]).
Qed.

Ltac known_bounds :=
  repeat match goal with
  | |- context [Z.leb ?a ?b] =>
      first [rewrite (proj2 (Z.leb_le a b)) by lia | rewrite (proj2 (Z.leb_gt a b)) by lia]
  | |- context [Z.ltb ?a ?b] =>
      first [rewrite (proj2 (Z.ltb_lt a b)) by lia | rewrite (proj2 (Z.ltb_ge a b)) by lia]
  end.

Lemma dec_enc_mem opcode reg base disp post :
  opcode = 0x8b \/ opcode = 0x8d \/ opcode = 0x89 -> is_reg reg -> is_reg base -> -128 <= disp < 128 ->
  dec_getc_op (enc_mem opcode reg base disp ++ post) 0 opcode =
    Some (DecOp reg base disp (buf_len (enc_mem opcode reg base disp))).
Proof.
  intros Ho Hr Hb Hd. destruct (modrm_fields reg base Hr Hb) as (Hm & Hreg & Hrm & Hrex & H4 & H1).
  pose proof (reg_split reg Hr) as Er. pose proof (reg_split base Hb) as Eb.
  unfold enc_mem, enc_rex, dec_getc_op.
  set (m := 0x40 + 8 * (reg mod 8) + base mod 8) in *.
  set (r := 0x40 + (if 8 <=? reg then 4 else 0) + (if 8 <=? base then 1 else 0)) in *.
  assert (is_rex opcode = false) as Hop by (by destruct Ho as [->|[->| ->]]).
  pose proof (buf_len_nonneg post) as Hpost.
  assert ((8 <=? reg) || (8 <=? base) = false -> (8 <=? reg) = false /\ (8 <=? base) = false) as Hlow
    by (destruct (8 <=? reg), (8 <=? base); done).
  destruct ((8 <=? reg) || (8 <=? base)); [|destruct (Hlow eq_refl) as [Lr Lb]; rewrite Lr in Er; rewrite Lb in Eb];
    destruct (base mod 8 =? 4) eqn:E4; cbn [app]; rewrite !buf_len_cons; rewrite byte_at_0, ?Hrex, ?Hop;
    known_bounds; cbn [andb]; rewrite ?byte_at_next, ?byte_at_0 by lia; rewrite Z.eqb_refl; cbn [negb orb];
    rewrite ?byte_at_next, ?byte_at_0 by lia; rewrite Hm, Hreg, Hrm, ?H4, ?H1; known_bounds;
    cbn [Z.eqb Pos.eqb negb orb]; rewrite ?E4; known_bounds; rewrite ?byte_at_next, ?byte_at_0 by lia;
    cbn -[Z.add Z.sub Z.modulo i8 u8 byte_at buf_len]; rewrite ?byte_at_next, ?byte_at_0 by lia; known_bounds;
    change (negb (Z.land (Z.shiftr 36 3) 7 =? 4)) with false; change (Z.land 36 7) with 4;
    change (has 0 4) with false; change (has 0 1) with false; cbn iota beta;
    rewrite ?byte_at_next, ?byte_at_0 by lia; known_bounds; rewrite i8_u8 by lia;
    change (buf_len []) with 0; apply f_equal; f_equal; lia.
Qed.

Lemma dec_enc_same opcode reg post :
  opcode = 0x85 -> is_reg reg ->
  dec_getc_op (enc_same opcode reg ++ post) 0 opcode = Some (DecOp reg (-1) 0 (buf_len (enc_same opcode reg))).
Proof.
  intros -> Hr.
  pose proof (range_forallb (fun reg =>
    let m := 0xC0 + 9 * (reg mod 8) in let r := 0x40 + (if 8 <=? reg then 4 else 0) + (if 8 <=? reg then 1 else 0) in
    (Z.shiftr m 6 =? 3) && (Z.land (Z.shiftr m 3) 7 =? reg mod 8) && (Z.land m 7 =? reg mod 8) &&
    is_rex r && Bool.eqb (has r 4) (8 <=? reg) && Bool.eqb (has r 1) (8 <=? reg)) 0 16
    ltac:(vm_compute; reflexivity) reg Hr) as C. cbv zeta beta in C.
  rewrite !andb_true_iff, !Z.eqb_eq, !eqb_true_iff in C. destruct C as [[[[[Hm Hreg] Hrm] Hrex] H4] H1].
  pose proof (reg_split reg Hr) as Er. pose proof (buf_len_nonneg post) as Hpost.
  unfold enc_same, enc_rex, dec_getc_op. rewrite orb_diag. set (m := 0xC0 + 9 * (reg mod 8)) in *.
  set (r := 0x40 + (if 8 <=? reg then 4 else 0) + (if 8 <=? reg then 1 else 0)) in *.
  destruct (8 <=? reg) eqn:E; cbn [app]; rewrite !buf_len_cons; rewrite byte_at_0, ?Hrex;
    [|change (is_rex 0x85) with false]; known_bounds; cbn [andb]; rewrite ?byte_at_next, ?byte_at_0 by lia;
    rewrite Z.eqb_refl; cbn [negb orb]; rewrite ?byte_at_next, ?byte_at_0 by lia;
    rewrite Hm, Hreg, Hrm, ?H4, ?H1; change (has 0 4) with false; change (has 0 1) with false; known_bounds;
    change (3 =? 3) with true; rewrite Z.eqb_refl; cbn [negb]; change (buf_len []) with 0;
    apply f_equal; f_equal; lia.
Qed.

(** ** Lemmas: the macro is found *)

(** The branch: whether it is the jump on "not positive" (jle) or its inverse
    (jg), short or near, with its displacement. *)
Inductive getc_jump := ShortJump (le : bool) (d : Z) | NearJump (le : bool) (d : Z).

Definition enc_jump (j : getc_jump) : list Z :=
  match j with
  | ShortJump le d => [if le then 0x7e else 0x7f; u8 d]
  | NearJump le d => [0x0f; if le then 0x8e else 0x8f] ++ le_bytes 4 d
  end.

Definition jump_le (j : getc_jump) : bool := match j with ShortJump le _ | NearJump le _ => le end.

Lemma getc_branch_enc pre j post store store_len :
  getc_branch (pre ++ enc_jump j ++ post) store store_len (buf_len pre) =
    Some (GetcSite store store_len (buf_len pre) (jump_le j) (buf_len (enc_jump j))).
Proof.
  unfold getc_branch. rewrite !buf_len_app. pose proof (buf_len_nonneg post).
  assert (forall k, 0 <= k -> byte_at (pre ++ enc_jump j ++ post) (buf_len pre + k) = byte_at (enc_jump j ++ post) k)
    as Hb by apply byte_at_app_r.
  pose proof (Hb 0 ltac:(lia)) as Hb0. rewrite Z.add_0_r in Hb0. rewrite Hb0, Hb by lia.
  destruct j as [le d|le d]; cbn [enc_jump jump_le app];
    [|destruct (le_bytes_4 d) as (a & b & c & e & ->); cbn [app]];
    rewrite !buf_len_cons; change (buf_len []) with 0; known_bounds; change 1 with (0 + 1) at 1;
    rewrite ?byte_at_next, ?byte_at_0 by lia; by destruct le.
Qed.

(** Whichever load is tried, the site is the same. *)
Lemma getc_try_site t i lea k s st ts :
  dec_getc_op t (i + op_len lea) 0x89 = Some st ->
  dec_getc_op t (i + op_len lea + op_len st) 0x85 = Some ts ->
  getc_try t i lea k = Some s ->
  getc_branch t (i + op_len lea) (op_len st) (i + op_len lea + op_len st + op_len ts) = Some s.
Proof.
  intros Est Ets. unfold getc_try. destruct (i <? k); [done|].
  destruct (dec_getc_op t (i - k) 0x8b); [|done]. destruct (negb _); [done|]. destruct (_ || _); [done|].
  rewrite Est. destruct (_ || _); [done|]. rewrite Ets. by destruct (_ || _).
Qed.

Lemma enc_mem_length opcode reg base disp : 3 <= buf_len (enc_mem opcode reg base disp) <= 5.
Proof.
  unfold enc_mem, enc_rex. destruct (_ || _), (_ =? 4); cbn [app]; rewrite !buf_len_cons;
    change (buf_len []) with 0; lia.
Qed.

Lemma dec_at pre ins post opcode d :
  dec_getc_op (ins ++ post) 0 opcode = Some d ->
  dec_getc_op (pre ++ ins ++ post) (buf_len pre) opcode = Some d.
Proof. by rewrite dec_shift. Qed.

(** The site of a macro: its store and its branch. *)
Definition macro_site (off : Z) (L B D : Z) (j : getc_jump) : getc_site :=
  let lea_end := off + buf_len (enc_mem 0x8b L B 8) + buf_len (enc_mem 0x8d D L (-1)) in
  let store := buf_len (enc_mem 0x89 D B 8) in
  GetcSite lea_end store (lea_end + store + buf_len (enc_same 0x85 L)) (jump_le j) (buf_len (enc_jump j)).

(** What the decoder finds in the code of a macro. *)
Record decodes_getc (t : list Z) (off L B D : Z) (j : getc_jump) : Prop := {
  dg_load : dec_getc_op t off 0x8b = Some (DecOp L B 8 (buf_len (enc_mem 0x8b L B 8)));
  dg_lea : dec_getc_op t (off + buf_len (enc_mem 0x8b L B 8)) 0x8d =
    Some (DecOp D L (-1) (buf_len (enc_mem 0x8d D L (-1))));
  dg_store : dec_getc_op t (st_off (macro_site off L B D j)) 0x89 =
    Some (DecOp D B 8 (buf_len (enc_mem 0x89 D B 8)));
  dg_test : dec_getc_op t (st_off (macro_site off L B D j) + buf_len (enc_mem 0x89 D B 8)) 0x85 =
    Some (DecOp L (-1) 0 (buf_len (enc_same 0x85 L)));
  dg_branch : getc_branch t (st_off (macro_site off L B D j)) (buf_len (enc_mem 0x89 D B 8))
    (jmp_off (macro_site off L B D j)) = Some (macro_site off L B D j)
}.

Lemma getc_code_decodes pre post L B D j :
  is_reg L -> is_reg B -> is_reg D ->
  decodes_getc (pre ++ getc_code L B D ++ enc_jump j ++ post) (buf_len pre) L B D j.
Proof.
  intros HL HB HD. unfold getc_code. rewrite <- !app_assoc.
  set (load := enc_mem 0x8b L B 8). set (lea := enc_mem 0x8d D L (-1)).
  set (store := enc_mem 0x89 D B 8). set (test := enc_same 0x85 L).
  split; unfold macro_site; cbn [st_off jmp_off]; fold load lea store test.
  - apply dec_at, dec_enc_mem; auto; lia.
  - rewrite <- buf_len_app, (app_assoc pre). apply dec_at, dec_enc_mem; auto; lia.
  - rewrite <- !buf_len_app, (app_assoc pre), (app_assoc (pre ++ load)). apply dec_at, dec_enc_mem; auto; lia.
  - rewrite <- !buf_len_app, (app_assoc pre), (app_assoc (pre ++ load)), (app_assoc ((pre ++ load) ++ lea)).
    apply dec_at, dec_enc_same; auto; lia.
  - rewrite <- !buf_len_app, (app_assoc pre), (app_assoc (pre ++ load)),
      (app_assoc ((pre ++ load) ++ lea)), (app_assoc (((pre ++ load) ++ lea) ++ store)). apply getc_branch_enc.
Qed.

Lemma dec_first t i opcode d :
  dec_getc_op t i opcode = Some d -> (byte_at t i =? opcode) || is_rex (byte_at t i) = true.
Proof.
  unfold dec_getc_op. destruct (_ && is_rex (byte_at t i)) eqn:E.
  - apply andb_true_iff in E as [_ ->]. by rewrite orb_true_r.
  - destruct (byte_at t i =? opcode); [done|]. by rewrite orb_true_r.
Qed.

Lemma getc_try_load t off L B D j :
  0 <= off -> is_reg B -> decodes_getc t off L B D j ->
  let load := buf_len (enc_mem 0x8b L B 8) in
  getc_try t (off + load) (DecOp D L (-1) (buf_len (enc_mem 0x8d D L (-1)))) load =
    Some (macro_site off L B D j).
Proof.
  intros H0 HB [Eload _ Estore Etest Ebr]. cbv zeta. unfold getc_try.
  pose proof (enc_mem_length 0x8b L B 8). set (load := buf_len (enc_mem 0x8b L B 8)) in *.
  replace (off + load <? load) with false by lia. replace (off + load - load) with off by lia.
  rewrite Eload. cbn [op_len op_disp op_base op_reg]. rewrite !Z.eqb_refl. cbn [negb orb].
  replace (B <? 0) with false by (unfold is_reg in HB; lia). cbn [orb].
  unfold macro_site in *. cbn [st_off jmp_off] in *. fold load in Estore, Etest, Ebr |- *.
  rewrite Estore. cbn [op_disp op_base op_reg op_len]. rewrite !Z.eqb_refl. cbn [negb orb].
  rewrite Etest. cbn [op_base op_reg op_len]. rewrite !Z.eqb_refl. exact Ebr.
Qed.

Lemma getc_match_code pre post L B D j :
  is_reg L -> is_reg B -> is_reg D ->
  getc_match (pre ++ getc_code L B D ++ enc_jump j ++ post) (buf_len pre + buf_len (enc_mem 0x8b L B 8)) =
    Some (macro_site (buf_len pre) L B D j).
Proof.
  intros HL HB HD. pose proof (getc_code_decodes pre post L B D j HL HB HD) as Hdec. set (t := pre ++ _) in *.
  pose proof (getc_try_load t _ L B D j (buf_len_nonneg pre) HB Hdec) as Hthis.
  destruct Hdec as [_ Elea Estore Etest Ebr].
  pose proof (enc_mem_length 0x8b L B 8) as Hlen. set (load := enc_mem 0x8b L B 8) in *.
  set (l := DecOp D L (-1) (buf_len (enc_mem 0x8d D L (-1)))) in *.
  assert (forall k s, getc_try t (buf_len pre + buf_len load) l k = Some s -> s = macro_site (buf_len pre) L B D j)
    as Hany.
  { intros k s Hk. unfold macro_site in Estore, Etest, Ebr. cbn [st_off jmp_off] in Estore, Etest, Ebr.
    fold load in Estore, Etest, Ebr. pose proof (getc_try_site t _ l k s _ _ Estore Etest Hk) as E.
    cbn [op_len] in E. unfold l in E. cbn [op_len] in E. rewrite E in Ebr. by injection Ebr. }
  unfold getc_match. apply dec_first in Elea as Hfirst. rewrite <- negb_orb, Hfirst, Elea. fold l. cbn [negb].
  change (op_disp l =? -1) with true. replace (op_base l <? 0) with false by (cbn; unfold is_reg in HL; lia).
  cbn [negb orb]. cbv zeta in Hthis.
  destruct (getc_try t _ l 5) eqn:E5; [by rewrite <- (Hany _ _ E5)|].
  destruct (getc_try t _ l 4) eqn:E4; [by rewrite <- (Hany _ _ E4)|].
  assert (buf_len load = 3) as E3.
  { assert (buf_len load <> 5) by (intros E; rewrite E in Hthis, E5; by rewrite Hthis in E5).
    assert (buf_len load <> 4) by (intros E; rewrite E in Hthis, E4; by rewrite Hthis in E4). lia. }
  rewrite E3 in Hthis. rewrite E3. exact Hthis.
Qed.

(** ** Lemmas: the getc pass *)

(** [n] edits of the text, each of one site. *)
Inductive edits (edit : list Z -> list Z -> Prop) : list Z -> Z -> list Z -> Prop :=
| edits_none t : edits edit t 0 t
| edits_one t t1 n t2 : edit t t1 -> edits edit t1 n t2 -> edits edit t (n + 1) t2.

(** ** Specification: the macro in the text *)

(** The bytes of [t] from [a] up to [b]. *)
Definition between (t : list Z) (a b : Z) : list Z := map (fun k => byte_at t (a + k)) (seqZ 0 (b - a)).

(** A REX prefix for a register and a base: none, or one whose R and B bits
    are the high bits of the two; W and X are free. *)
Definition rex_for (rex : list Z) (reg base : Z) : Prop :=
  (rex = [] /\ reg < 8 /\ base < 8) \/
  exists w x, 0 <= w < 2 /\ 0 <= x < 2 /\ rex = [0x40 + 8 * w + 4 * (reg / 8) + 2 * x + base / 8].

(** [op reg, [base + disp]] with an 8-bit displacement: base in the ModRM byte
    or, always for rsp and r12, in a SIB byte whose index field is 4.  (With
    the X bit of REX that index is r12 and not none; see the finding.) *)
Definition mem_code (opcode reg base disp : Z) (bs : list Z) : Prop :=
  is_reg reg /\ is_reg base /\ exists rex rm sib b,
    bs = rex ++ [opcode; 0x40 + 8 * (reg mod 8) + rm] ++ sib ++ [b] /\ i8 b = disp /\ rex_for rex reg base /\
    ((rm = base mod 8 /\ rm <> 4 /\ sib = []) \/
     (rm = 4 /\ exists s, 0 <= s < 4 /\ sib = [64 * s + 0x20 + base mod 8])).

(** [op reg, reg] *)
Definition same_code (opcode reg : Z) (bs : list Z) : Prop :=
  is_reg reg /\ exists rex, bs = rex ++ [opcode; 0xC0 + 9 * (reg mod 8)] /\ rex_for rex reg reg.

(** The macro: mov L, [B+8] at [a]; lea D, [L-1] at [i]; mov [B+8], D at [s];
    test L, L at [x]; jle or jg, short or near, at [j]; its end is [e]. *)
Record getc_macro (t : list Z) (a i s x j e L B D : Z) : Prop := {
  gm_order : 0 <= a < i /\ i < s /\ s < x /\ x < j /\ j < e <= buf_len t;
  gm_load : mem_code 0x8b L B 8 (between t a i);
  gm_lea : mem_code 0x8d D L (-1) (between t i s);
  gm_store : mem_code 0x89 D B 8 (between t s x);
  gm_test : same_code 0x85 L (between t x j);
  gm_branch : exists jmp, between t j e = enc_jump jmp
}.

(** Every byte value in its fields. *)
Lemma byte_fields m :
  is_byte m ->
  m = 64 * Z.shiftr m 6 + 8 * Z.land (Z.shiftr m 3) 7 + Z.land m 7 /\
  0 <= Z.land (Z.shiftr m 3) 7 < 8 /\ 0 <= Z.land m 7 < 8 /\ 0 <= Z.shiftr m 6 < 4 /\
  (is_rex m = true -> exists w x, 0 <= w < 2 /\ 0 <= x < 2 /\
     m = 0x40 + 8 * w + 4 * (if has m 4 then 1 else 0) + 2 * x + (if has m 1 then 1 else 0)).
Proof.
  intros Hm. pose proof (range_forallb (fun m =>
    (m =? 64 * Z.shiftr m 6 + 8 * Z.land (Z.shiftr m 3) 7 + Z.land m 7) &&
    (0 <=? Z.land (Z.shiftr m 3) 7) && (Z.land (Z.shiftr m 3) 7 <? 8) &&
    (0 <=? Z.land m 7) && (Z.land m 7 <? 8) && (0 <=? Z.shiftr m 6) && (Z.shiftr m 6 <? 4) &&
    (negb (is_rex m) || (m =? 0x40 + 8 * (m / 8 mod 2) + 4 * (if has m 4 then 1 else 0) +
                              2 * (m / 2 mod 2) + (if has m 1 then 1 else 0)))) 0 256
    ltac:(vm_compute; reflexivity) m Hm) as C. cbv beta in C.
  rewrite !andb_true_iff, orb_true_iff, !Z.eqb_eq, !Z.leb_le, !Z.ltb_lt in C.
  destruct C as [[[[[[[C1 ?] ?] ?] ?] ?] ?] C8]. split_and!; try done. intros Hr. rewrite Hr in C8.
  destruct C8 as [?|C8]; [done|]. exists (m / 8 mod 2), (m / 2 mod 2).
  pose proof (Z.mod_pos_bound (m / 8) 2 ltac:(lia)). pose proof (Z.mod_pos_bound (m / 2) 2 ltac:(lia)). done.
Qed.

Lemma byte_at_byte t i : Forall is_byte t -> is_byte (byte_at t i).
Proof.
  intros Ht. unfold byte_at. destruct (buf_get t i) as [b|] eqn:E; [|unfold is_byte; cbn; lia].
  unfold buf_get in E. destruct (i <? 0); [done|]. by eapply Forall_lookup_1.
Qed.

Lemma reg_fields m (r : bool) :
  0 <= m < 8 -> let g := m + (if r then 8 else 0) in
  is_reg g /\ g mod 8 = m /\ g / 8 = (if r then 1 else 0) /\ (r = false -> g < 8).
Proof.
  intros Hm. cbv zeta. unfold is_reg. destruct r.
  - replace (m + 8) with (m + 1 * 8) by lia. rewrite Z.mod_add, Z.div_add, Z.mod_small, Z.div_small by lia.
    split_and!; lia || done.
  - rewrite Z.add_0_r, Z.mod_small, Z.div_small by lia. split_and!; lia.
Qed.

Lemma between_cons t a b : a < b -> between t a b = byte_at t a :: between t (a + 1) b.
Proof.
  intros H. unfold between. rewrite seqZ_cons by lia. cbn [map]. rewrite Z.add_0_r. f_equal.
  replace (Z.pred (b - a)) with (b - (a + 1)) by lia. unfold seqZ. rewrite !map_map.
  apply map_ext. intros k. f_equal. lia.
Qed.

Lemma between_nil t a : between t a a = [].
Proof. unfold between. by rewrite Z.sub_diag. Qed.

(** The decoder has read the prefix [rex], 0 for none, and is at [p]. *)
Definition after_rex (t : list Z) (start rex p : Z) : Prop :=
  (rex = 0 /\ p = start) \/
  (is_rex rex = true /\ is_byte rex /\ rex = byte_at t start /\ p = start + 1).

(** The prefix in front of what follows, and the high bits it stands for. *)
Lemma after_rex_prefix t start rex p mr bm :
  after_rex t start rex p -> 0 <= mr < 8 -> 0 <= bm < 8 ->
  exists rl, rex_for rl (mr + (if has rex 4 then 8 else 0)) (bm + (if has rex 1 then 8 else 0)) /\
    forall e, p < e -> between t start e = rl ++ between t p e.
Proof.
  intros Hrex Hmr Hbm.
  destruct (reg_fields mr (has rex 4) Hmr) as (_ & _ & Hrd & Hrs).
  destruct (reg_fields bm (has rex 1) Hbm) as (_ & _ & Hbd & Hbs).
  destruct Hrex as [[-> ->]|(Hr & Hrb & Er & ->)].
  - exists []. split; [left; split_and!; [done|by apply Hrs|by apply Hbs]|done].
  - exists [rex]. split.
    + right. destruct (byte_fields rex Hrb) as (_ & _ & _ & _ & Hx). destruct (Hx Hr) as (w & x & Hw & Hxx & E).
      exists w, x. split_and!; try lia. rewrite Hrd, Hbd. f_equal. exact E.
    + intros e He. rewrite between_cons by lia. by rewrite <- Er.
Qed.

(** A register operand: opcode, and a ModRM byte with twice the register. *)
Lemma dec_same_code t start rex p opcode :
  Forall is_byte t -> after_rex t start rex p -> byte_at t p = opcode ->
  let m := byte_at t (p + 1) in
  let reg := Z.land (Z.shiftr m 3) 7 + (if has rex 4 then 8 else 0) in
  Z.shiftr m 6 = 3 -> Z.land m 7 + (if has rex 1 then 8 else 0) = reg ->
  same_code opcode reg (between t start (p + 2)).
Proof.
  intros Ht Hrex Ho m reg E3 Eb.
  destruct (byte_fields m (byte_at_byte t _ Ht)) as (Em & Hmr & Hmm & _).
  destruct (reg_fields _ (has rex 4) Hmr) as (Hreg & Hregm & _). fold reg in Hreg, Hregm.
  destruct (reg_fields _ (has rex 1) Hmm) as (_ & Hb & _). rewrite Eb in Hb.
  destruct (after_rex_prefix t start rex p _ _ Hrex Hmr Hmm) as (rl & Hrl & Hsp). fold reg in Hrl. rewrite Eb in Hrl.
  split; [exact Hreg|]. exists rl. split; [|exact Hrl].
  rewrite Hsp, between_cons, between_cons by lia. replace (p + 1 + 1) with (p + 2) by lia. rewrite between_nil, Ho.
  fold m. do 3 f_equal. lia.
Qed.

(** A memory operand without and with a SIB byte. *)
Lemma dec_mem_code t start rex p opcode :
  Forall is_byte t -> after_rex t start rex p -> byte_at t p = opcode ->
  let m := byte_at t (p + 1) in
  let reg := Z.land (Z.shiftr m 3) 7 + (if has rex 4 then 8 else 0) in
  Z.shiftr m 6 = 1 ->
  (Z.land m 7 <> 4 -> mem_code opcode reg (Z.land m 7 + (if has rex 1 then 8 else 0))
     (i8 (byte_at t (p + 2))) (between t start (p + 3))) /\
  (let sb := byte_at t (p + 2) in Z.land m 7 = 4 -> Z.land (Z.shiftr sb 3) 7 = 4 ->
   mem_code opcode reg (Z.land sb 7 + (if has rex 1 then 8 else 0))
     (i8 (byte_at t (p + 3))) (between t start (p + 4))).
Proof.
  intros Ht Hrex Ho m reg E1.
  destruct (byte_fields m (byte_at_byte t _ Ht)) as (Em & Hmr & Hmm & _).
  destruct (reg_fields _ (has rex 4) Hmr) as (Hreg & Hregm & _). fold reg in Hreg, Hregm.
  assert (forall k, p + k + 1 = p + (k + 1)) as Hk by (intros; lia). split.
  - intros N4. destruct (reg_fields _ (has rex 1) Hmm) as (Hbase & Hbm & _).
    destruct (after_rex_prefix t start rex p _ _ Hrex Hmr Hmm) as (rl & Hrl & Hsp). fold reg in Hrl.
    split; [done|]. split; [done|]. exists rl, (Z.land m 7), [], (byte_at t (p + 2)). split_and!; [|done|done|].
    + rewrite Hsp by lia. do 3 (rewrite between_cons by lia; rewrite ?Hk).
      change (1 + 1) with 2. change (2 + 1) with 3. rewrite between_nil, Ho. fold m. cbn [app]. do 3 f_equal. lia.
    + left. by rewrite Hbm.
  - intros sb E4 Ei. destruct (byte_fields sb (byte_at_byte t _ Ht)) as (Es & _ & Hsm & Hss & _).
    destruct (reg_fields _ (has rex 1) Hsm) as (Hbase & Hbm & _).
    destruct (after_rex_prefix t start rex p _ _ Hrex Hmr Hsm) as (rl & Hrl & Hsp). fold reg in Hrl.
    split; [done|]. split; [done|]. exists rl, 4, [sb], (byte_at t (p + 3)). split_and!; [|done|done|].
    + rewrite Hsp by lia. do 4 (rewrite between_cons by lia; rewrite ?Hk).
      change (1 + 1) with 2. change (2 + 1) with 3. change (3 + 1) with 4. rewrite between_nil, Ho. fold m sb.
      cbn [app]. do 3 f_equal. lia.
    + right. split; [done|]. exists (Z.shiftr sb 6). split; [done|]. f_equal. rewrite Hbm. lia.
Qed.

(** What the decoder accepts is an instruction of the form asked for. *)
Lemma dec_code t start opcode d :
  Forall is_byte t -> dec_getc_op t start opcode = Some d ->
  if op_base d =? -1 then same_code opcode (op_reg d) (between t start (start + op_len d))
  else mem_code opcode (op_reg d) (op_base d) (op_disp d) (between t start (start + op_len d)).
Proof.
  intros Ht. unfold dec_getc_op.
  assert (exists rex p, after_rex t start rex p /\
    (if (start <? buf_len t) && is_rex (byte_at t start) then (byte_at t start, start + 1) else (0, start)) = (rex, p))
    as (rex & p & Hrex & ->).
  { destruct (_ && is_rex (byte_at t start)) eqn:E; eexists _, _; (split; [|reflexivity]); [right|by left].
    apply andb_true_iff in E as [_ E]. split_and!; try done. by apply byte_at_byte. }
  destruct ((buf_len t <=? p) || negb (byte_at t p =? opcode)) eqn:Eo; [done|].
  apply orb_false_iff in Eo as [_ Eo]. apply negb_false_iff, Z.eqb_eq in Eo.
  destruct (buf_len t <=? p + 1); [done|].
  pose proof (dec_same_code t start rex p opcode Ht Hrex Eo) as Hsame.
  pose proof (dec_mem_code t start rex p opcode Ht Hrex Eo) as Hmem. cbv zeta in Hsame, Hmem.
  assert (forall r, 0 <= r -> (r + (if has rex 1 then 8 else 0) =? -1) = false) as Hb by (intros; destruct (has rex 1); lia).
  assert (forall z, 0 <= Z.land z 7) as H7 by (intros z; apply Z.land_nonneg; lia).
  assert (forall k, p + k + 1 = p + (k + 1)) as Hk by (intros; lia).
  assert (forall z, start + (z - start) = z) as Hs by (intros; lia).
  rewrite !Hk. change (1 + 1) with 2. destruct (Z.eqb_spec (Z.shiftr (byte_at t (p + 1)) 6) 3) as [E3|_].
  - destruct (Z.eqb_spec (Z.land (byte_at t (p + 1)) 7 + (if has rex 1 then 8 else 0)) (Z.land (Z.shiftr (byte_at t (p + 1)) 3) 7 + (if has rex 4 then 8 else 0))); [|done].
    intros [= <-]. cbn [op_base op_reg op_len]. rewrite Hs. by apply Hsame.
  - destruct (Z.eqb_spec (Z.shiftr (byte_at t (p + 1)) 6) 1) as [E1|]; [|done]. cbn [negb].
    destruct (Hmem E1) as [H3 H4]. destruct (Z.eqb_spec (Z.land (byte_at t (p + 1)) 7) 4) as [E4|N4].
    + destruct (buf_len t <=? p + 2); [done|].
      destruct (Z.eqb_spec (Z.land (Z.shiftr (byte_at t (p + 2)) 3) 7) 4) as [Ei|]; [|done]. cbn [negb].
      rewrite !Hk. change (2 + 1) with 3. destruct (buf_len t <=? p + 3); [done|]. intros [= <-].
      cbn [op_base op_reg op_len op_disp]. rewrite Hb, Hs by done. rewrite ?Hk. by apply H4.
    + destruct (buf_len t <=? p + 2); [done|]. intros [= <-].
      cbn [op_base op_reg op_len op_disp]. rewrite Hb, Hs by done. rewrite ?Hk. by apply H3.
Qed.

(** The branch the pass accepts is one of the four. *)
Lemma branch_code t store store_len off s :
  Forall is_byte t -> getc_branch t store store_len off = Some s ->
  exists jmp, between t off (off + jmp_len s) = enc_jump jmp.
Proof.
  intros Ht. unfold getc_branch. destruct (buf_len t <=? off + 1); [done|].
  assert (forall k, off + k + 1 = off + (k + 1)) as Hk by (intros; lia).
  assert (forall i, u8 (byte_at t i) = byte_at t i) as Hu
    by (intros i; pose proof (byte_at_byte t i Ht) as Hb; unfold is_byte in Hb; apply Z.mod_small; lia).
  destruct (Z.eqb_spec (byte_at t off) 0x7e) as [E|_]; [|destruct (Z.eqb_spec (byte_at t off) 0x7f) as [E|_]].
  1, 2: intros [= <-]; cbn [jmp_len];
    do 2 (rewrite between_cons by lia; rewrite ?Hk); change (1 + 1) with 2; rewrite between_nil, E.
  - exists (ShortJump true (byte_at t (off + 1))). cbn [enc_jump]. by rewrite Hu.
  - exists (ShortJump false (byte_at t (off + 1))). cbn [enc_jump]. by rewrite Hu.
  - destruct (Z.eqb_spec (byte_at t off) 0x0f) as [E|_]; [|done]. destruct (off + 5 <? buf_len t); [|done]. cbn [andb].
    destruct (_ || _) eqn:E2; [|done]. intros [= <-]. cbn [jmp_len].
    do 6 (rewrite between_cons by lia; rewrite ?Hk). cbn [Z.add Pos.add Pos.succ]. rewrite between_nil, E.
    set (bs := [byte_at t (off + 2); byte_at t (off + 3); byte_at t (off + 4); byte_at t (off + 5)]).
    assert (le_bytes 4 (le_value bs) = bs) as Hle.
    { change 4%nat with (length bs). apply le_bytes_value. by repeat constructor; apply byte_at_byte. }
    exists (NearJump (byte_at t (off + 1) =? 0x8e) (le_value bs)). cbn [enc_jump app]. rewrite Hle. unfold bs. f_equal. f_equal.
    apply orb_prop in E2 as [E2|E2]; apply Z.eqb_eq in E2; by rewrite E2.
Qed.

(** A site that is matched is a getc macro. *)
Lemma getc_match_macro t i s :
  Forall is_byte t -> 0 <= i -> getc_match t i = Some s ->
  exists a L B D, getc_macro t a i (st_off s) (st_off s + st_len s) (jmp_off s) (jmp_off s + jmp_len s) L B D.
Proof.
  intros Ht Hi. unfold getc_match. destruct (_ && _); [done|].
  destruct (dec_getc_op t i 0x8d) as [lea|] eqn:Elea; [|done].
  destruct (_ || _) eqn:Hlb; [done|]. apply orb_false_iff in Hlb as [Hlb Hld]. apply negb_false_iff, Z.eqb_eq in Hld.
  intros E. assert (exists k, 0 < k /\ getc_try t i lea k = Some s) as (k & Hk & Ek).
  { destruct (getc_try t i lea 5) eqn:E5; [exists 5; by simplify_eq|].
    destruct (getc_try t i lea 4) eqn:E4; [exists 4; by simplify_eq|]. by exists 3. }
  clear E. revert Ek. unfold getc_try. destruct (Z.ltb_spec i k); [done|].
  destruct (dec_getc_op t (i - k) 0x8b) as [ld|] eqn:Eld; [|done].
  destruct (Z.eqb_spec (i - k + op_len ld) i) as [El|]; [|done]. cbn [negb].
  destruct (_ || _ || _) eqn:Hlc; [done|]. apply orb_false_iff in Hlc as [[Hd8 Hlb']%orb_false_iff Hlr].
  apply negb_false_iff, Z.eqb_eq in Hd8, Hlr.
  destruct (dec_getc_op t (i + op_len lea) 0x89) as [st|] eqn:Est; [|done].
  destruct (_ || _ || _) eqn:Hsc; [done|]. apply orb_false_iff in Hsc as [[Hs8 Hsb]%orb_false_iff Hsr].
  apply negb_false_iff, Z.eqb_eq in Hs8, Hsb, Hsr.
  destruct (dec_getc_op t (i + op_len lea + op_len st) 0x85) as [ts|] eqn:Ets; [|done].
  destruct (_ || _) eqn:Htc; [done|]. apply orb_false_iff in Htc as [Htb Htr].
  apply negb_false_iff, Z.eqb_eq in Htb, Htr. intros Ebr.
  pose proof (branch_code _ _ _ _ _ Ht Ebr) as Hjmp.
  apply getc_branch_spec in Ebr as (Eso & Esl & Ejo & Hje & d & _ & Hjl). rewrite Eso, Esl, Ejo in *.
  pose proof Eld as Rld. apply dec_range in Rld; [|lia]. pose proof Elea as Rlea. apply dec_range in Rlea; [|lia].
  pose proof Est as Rst. apply dec_range in Rst; [|lia]. pose proof Ets as Rts. apply dec_range in Rts; [|lia].
  apply (dec_code _ _ _ _ Ht) in Eld, Elea, Est, Ets.
  rewrite (proj2 (Z.eqb_neq (op_base ld) (-1))) in Eld by lia.
  rewrite (proj2 (Z.eqb_neq (op_base lea) (-1))) in Elea by lia.
  rewrite (proj2 (Z.eqb_neq (op_base st) (-1))) in Est by lia. rewrite Htb in Ets. cbn [Z.eqb] in Ets.
  rewrite El in Eld. rewrite Hd8, Hlr in Eld. rewrite Hld in Elea. rewrite Hs8, Hsb, Hsr in Est. rewrite Htr in Ets.
  exists (i - k), (op_base lea), (op_base ld), (op_reg lea). split; try done.
  assert (2 <= jmp_len s) by (destruct Hjl as [[-> _]|[[-> _]|[[-> | ->] _]]]; lia). lia.
Qed.

Lemma getc_rewrite_bytes t s t' :
  Forall is_byte t -> 0 <= st_off s -> 0 <= st_len s -> st_off s + st_len s <= buf_len t ->
  0 <= jmp_off s -> 2 <= jmp_len s -> jmp_off s + jmp_len s <= buf_len t ->
  (force_jmp s = true -> jmp_len s <> 2 -> jmp_len s = 6) ->
  getc_rewrite t s = Ok t' -> Forall is_byte t'.
Proof.
  intros Ht H1 H2 H3 H4 H5 H6 Hj. unfold getc_rewrite.
  assert (forall n, Forall is_byte (replicate n 0x90)) as Hnop by (intros; apply Forall_replicate; unfold is_byte; lia).
  destruct (patch_bytes_spec t (st_off s) (replicate (Z.to_nat (st_len s)) 0x90)) as (t1 & E1 & L1 & _ & B1);
    [lia|rewrite buf_len_replicate; lia|]. rewrite E1. cbn [mbind res_bind].
  assert (buf_len t1 = buf_len t) as L1' by (unfold buf_len; by rewrite L1). specialize (B1 Ht (Hnop _)).
  assert (forall bs, buf_len bs <= jmp_len s -> Forall is_byte bs -> forall t2, patch_bytes t1 (jmp_off s) bs = Ok t2 -> Forall is_byte t2) as Hp.
  { intros bs Hl Hb t2 E2. destruct (patch_bytes_spec t1 (jmp_off s) bs) as (t3 & E3 & _ & _ & B3); [lia|lia|].
    rewrite E3 in E2. injection E2 as <-. auto. }
  destruct (force_jmp s).
  - destruct (Z.eqb_spec (jmp_len s) 2) as [E2|N2].
    + apply Hp; [change (buf_len [0xeb]) with 1; lia|by repeat constructor; unfold is_byte].
    + unfold near_to_jmp. destruct (rd_disp32 _ _) as [disp| |]; [|done|done]. cbn [mbind res_bind]. apply Hp.
      * destruct (le_bytes_4 (disp + 1)) as (a & b & c & e & ->). rewrite (Hj eq_refl N2). cbn. unfold buf_len. cbn. lia.
      * constructor; [unfold is_byte; lia|]. apply Forall_app. split; [apply le_bytes_are_bytes|].
        by repeat constructor; unfold is_byte.
  - apply Hp; [rewrite buf_len_replicate; lia|apply Hnop].
Qed.

(** A getc macro: no-ops for the store, and the code goes where the branch
    goes when the counter is not positive. *)
Definition getc_edit (t t' : list Z) : Prop :=
  exists a i s x j e L B D d, getc_macro t a i s x j e L B D /\
    (forall z, step t (Flags true z) j = Some d) /\ rewritten t t' s (x - s) j (e - j) d.

(** One iteration at a site: the rewrite, of a macro, leaves bytes. *)
Lemma getc_site_edit t i s :
  Forall is_byte t -> 0 <= i -> getc_match t i = Some s ->
  exists t1, getc_rewrite t s = Ok t1 /\ getc_edit t t1 /\ Forall is_byte t1.
Proof.
  intros Ht Hi Em. destruct (getc_match_macro t i s Ht Hi Em) as (a & L & B & D & Hm).
  destruct (getc_rewrite_spec t i s Hi Em) as (t1 & d & E1 & Hd & H1 & H2 & H3 & Hrw).
  pose proof (getc_match_spec t i s Hi Em) as (ll & sl & off & _ & Hsl & _ & Hbr).
  apply getc_branch_spec in Hbr as (_ & Esl & _ & _ & dd & _ & Hjl).
  exists t1. split; [exact E1|]. split.
  - exists a, i, (st_off s), (st_off s + st_len s), (jmp_off s), (jmp_off s + jmp_len s), L, B, D, d.
    split; [exact Hm|]. split; [exact Hd|]. by replace (st_off s + st_len s - st_off s) with (st_len s) by lia;
      replace (jmp_off s + jmp_len s - jmp_off s) with (jmp_len s) by lia.
  - eapply getc_rewrite_bytes; [exact Ht|..|exact E1]; try lia.
Qed.

Lemma getc_loop_edits fuel : forall i t count, Forall is_byte t -> 0 <= i ->
  exists t' n, getc_loop fuel i t count = Ok (t', count + n) /\ edits getc_edit t n t'.
Proof.
  induction fuel as [|fuel IH]; intros i t count Ht Hi; cbn [getc_loop].
  { exists t, 0. rewrite Z.add_0_r. split; [done|constructor]. }
  destruct (getc_match t i) as [s|] eqn:Em; [|apply IH; [done|lia]].
  destruct (getc_site_edit t i s Ht Hi Em) as (t1 & E1 & He & Hb).
  rewrite E1. cbn [mbind res_bind]. destruct (IH (i + 1) t1 (count + 1) Hb ltac:(lia)) as (t2 & n & E2 & H2).
  exists t2, (n + 1). split; [rewrite E2; do 2 f_equal; lia|]. by eapply edits_one.
Qed.

(** Without an opcode 8d at the place or behind a prefix there is no site. *)
Lemma getc_match_no_lea t i : byte_at t i <> 0x8d -> byte_at t (i + 1) <> 0x8d -> getc_match t i = None.
Proof.
  intros H1 H2. unfold getc_match. rewrite (proj2 (Z.eqb_neq _ _) H1). cbn [negb andb].
  destruct (is_rex (byte_at t i)) eqn:Er; [|done]. cbn [negb]. unfold dec_getc_op. rewrite Er, andb_true_r.
  destruct (i <? buf_len t).
  - by rewrite (proj2 (Z.eqb_neq _ _) H2), orb_true_r.
  - by rewrite (proj2 (Z.eqb_neq _ _) H1), orb_true_r.
Qed.

Lemma getc_loop_skip n : forall fuel i t count,
  (forall k, i <= k < i + Z.of_nat n -> getc_match t k = None) -> (n <= fuel)%nat ->
  getc_loop fuel i t count = getc_loop (fuel - n) (i + Z.of_nat n) t count.
Proof.
  induction n as [|n IH]; intros fuel i t count Hk Hf; [by rewrite Nat.sub_0_r, Z.add_0_r|].
  destruct fuel as [|fuel]; [lia|]. cbn [getc_loop]. rewrite Hk by lia. rewrite (IH fuel) by (try (intros; apply Hk); lia).
  cbn [Nat.sub]. f_equal; lia.
Qed.

(** No byte of a load is the opcode of lea. *)
Lemma load_has_no_lea L B k :
  is_reg L -> is_reg B -> byte_at (enc_mem 0x8b L B 8) k <> 0x8d.
Proof.
  intros HL HB. destruct (decide (0 <= k < 5)) as [Hk|Hk].
  - pose proof (range_forallb (fun L => forallb (fun B => forallb (fun k =>
      negb (byte_at (enc_mem 0x8b L B 8) k =? 0x8d)) (seqZ 0 5)) (seqZ 0 16)) 0 16
      ltac:(vm_compute; reflexivity) L HL) as C. cbv beta in C.
    rewrite forallb_forall in C. specialize (C B). rewrite forallb_forall in C.
    specialize (C ltac:(by apply list_elem_of_In, elem_of_seqZ) k ltac:(apply list_elem_of_In, elem_of_seqZ; lia)). lia.
  - pose proof (enc_mem_length 0x8b L B 8) as Hl. unfold byte_at, buf_get. destruct (Z.ltb_spec k 0); [done|].
    rewrite lookup_ge_None_2; [done|]. unfold buf_len in Hl. lia.
Qed.

Lemma load_ends_in_8 L B :
  is_reg L -> is_reg B -> byte_at (enc_mem 0x8b L B 8) (buf_len (enc_mem 0x8b L B 8) - 1) = 8.
Proof.
  intros HL HB. pose proof (range_forallb (fun L => forallb (fun B =>
    byte_at (enc_mem 0x8b L B 8) (buf_len (enc_mem 0x8b L B 8) - 1) =? 8) (seqZ 0 16)) 0 16
    ltac:(vm_compute; reflexivity) L HL) as C. cbv beta in C.
  rewrite forallb_forall in C. apply Z.eqb_eq, C. by apply list_elem_of_In, elem_of_seqZ.
Qed.

Lemma byte_at_app pre l k : byte_at (pre ++ l) k = if k <? buf_len pre then byte_at pre k else byte_at l (k - buf_len pre).
Proof.
  destruct (Z.ltb_spec k (buf_len pre)).
  - destruct (Z.ltb_spec k 0); [unfold byte_at, buf_get; by rewrite (proj2 (Z.ltb_lt k 0))|]. by rewrite byte_at_app_l by lia.
  - replace k with (buf_len pre + (k - buf_len pre)) at 1 by lia. by apply byte_at_app_r; lia.
Qed.

(** The first lea of a section that is a macro's is found and rewritten. *)
Lemma first_macro_edited pre post L B D j :
  let code := pre ++ getc_code L B D ++ enc_jump j ++ post in
  let lea_at := buf_len pre + buf_len (enc_mem 0x8b L B 8) in
  is_reg L -> is_reg B -> is_reg D -> Forall is_byte code ->
  Forall (fun b => b <> 0x8d) pre -> 5 <= lea_at -> lea_at + 12 < buf_len code ->
  exists t1 t' n, getc_rewrite code (macro_site (buf_len pre) L B D j) = Ok t1 /\
    patch_getc code = Ok (t', n + 1) /\ edits getc_edit t1 n t'.
Proof.
  intros code lea_at HL HB HD Hbytes Hpre H5 H12.
  pose proof (getc_match_code pre post L B D j HL HB HD) as Em. fold code lea_at in Em.
  destruct (getc_site_edit code lea_at _ Hbytes ltac:(lia) Em) as (t1 & E1 & _ & Hb1).
  assert (forall k, k < lea_at -> byte_at code k <> 0x8d) as Hno.
  { intros k Hk. unfold code. rewrite byte_at_app. destruct (Z.ltb_spec k (buf_len pre)).
    - unfold byte_at, buf_get. destruct (k <? 0); [done|]. destruct (pre !! Z.to_nat k) as [b|] eqn:Eb; [|done].
      by apply (Forall_lookup_1 _ _ _ _ Hpre Eb).
    - unfold getc_code. rewrite <- !app_assoc, byte_at_app. unfold lea_at in Hk.
      rewrite (proj2 (Z.ltb_lt _ _)) by lia. by apply load_has_no_lea. }
  assert (forall k, 5 <= k < lea_at -> getc_match code k = None) as Hskip.
  { intros k Hk. destruct (decide (k + 1 < lea_at)); [apply getc_match_no_lea; apply Hno; lia|].
    pose proof (enc_mem_length 0x8b L B 8) as Hlen. assert (k = lea_at - 1) as Ek by lia. unfold lea_at in Ek.
    assert (byte_at code k = 8) as E8.
    { unfold code, getc_code. rewrite byte_at_app, (proj2 (Z.ltb_ge k (buf_len pre))) by lia.
      rewrite <- !app_assoc, byte_at_app, (proj2 (Z.ltb_lt _ _)) by lia.
      replace (k - buf_len pre) with (buf_len (enc_mem 0x8b L B 8) - 1) by lia. by apply load_ends_in_8. }
    unfold getc_match. by rewrite E8. }
  unfold patch_getc.
  rewrite (getc_loop_skip (Z.to_nat (lea_at - 5))) by (lia || (intros k Hk; apply Hskip; lia)).
  replace (5 + Z.of_nat (Z.to_nat (lea_at - 5))) with lea_at by lia.
  destruct (Z.to_nat (buf_len code - 17) - Z.to_nat (lea_at - 5))%nat as [|fuel] eqn:Ef; [lia|].
  cbn [getc_loop]. rewrite Em, E1. cbn [mbind res_bind].
  destruct (getc_loop_edits fuel (lea_at + 1) t1 1 Hb1 ltac:(lia)) as (t' & n & E2 & H2).
  exists t1, t', n. split; [done|]. split; [|exact H2]. rewrite (Z.add_comm n). exact E2.
Qed.

(** ** Lemmas: the end-of-file pass *)

Lemma eof_match_after t i after : eof_match t i = Some after -> i + 4 <= after <= i + 5.
Proof.
  unfold eof_match. destruct (byte_at t i =? 0x41); cbn [orb]; destruct (_ && _); try done; intros [= <-]; lia.
Qed.

(** A test of the end-of-file or error bit: its branch goes where it goes when
    the bit is clear. *)
Definition eof_edit (t t' : list Z) : Prop :=
  exists i after len d, eof_match t i = Some after /\ (forall le, step t (Flags le true) after = Some d) /\
    (len = 2 \/ len = 6) /\ redirected t t' after len d.

(** A near branch behind a test that the end of the section cuts off. *)
Definition eof_cut (t : list Z) : Prop :=
  exists i after, eof_match t i = Some after /\ byte_at t after = 0x0f /\ buf_len t < after + 6.

Lemma patch_bytes_out bs : forall t off,
  0 <= off <= buf_len t -> buf_len t < off + buf_len bs -> patch_bytes t off bs = Undef.
Proof.
  induction bs as [|b bs IH]; intros t off Ho Hl; [change (buf_len []) with 0 in Hl; lia|].
  rewrite buf_len_cons in Hl. cbn [patch_bytes]. destruct (Z.eq_dec off (buf_len t)) as [->|Hne].
  - pose proof (Zle_0_nat (length t)). unfold buf_wr, buf_get, buf_len.
    replace (Z.of_nat (length t) <? 0) with false by lia. by rewrite lookup_ge_None_2 by lia.
  - destruct (buf_wr_spec t off b ltac:(lia)) as (t1 & E1 & L1 & _). rewrite E1. cbn [mbind res_bind].
    pose proof (same_length_len _ _ L1). apply IH; lia.
Qed.

Lemma near_out t off : 0 <= off -> off + 2 <= buf_len t < off + 6 -> near_to_jmp t off = Undef.
Proof.
  intros H0 Hl. unfold near_to_jmp, rd_disp32.
  assert (forall k, buf_len t <= k -> 0 <= k -> buf_rd t k = Undef) as Hout.
  { intros k Hk Hk0. unfold buf_rd, buf_get, buf_len in *. replace (k <? 0) with false by lia.
    by rewrite lookup_ge_None_2 by lia. }
  assert (buf_len t = off + 2 \/ buf_len t = off + 3 \/ buf_len t = off + 4 \/ buf_len t = off + 5) as Hc by lia.
  destruct Hc as [Hc|[Hc|[Hc|Hc]]].
  - by rewrite (Hout (off + 2)) by lia.
  - by rewrite (buf_rd_spec t (off + 2)), (Hout (off + 2 + 1)) by lia.
  - by rewrite (buf_rd_spec t (off + 2)), (buf_rd_spec t (off + 2 + 1)), (Hout (off + 2 + 2)) by lia.
  - by rewrite (buf_rd_spec t (off + 2)), (buf_rd_spec t (off + 2 + 1)), (buf_rd_spec t (off + 2 + 2)),
      (Hout (off + 2 + 3)) by lia.
Qed.

Lemma eof_site_spec t i :
  0 <= i -> i + 7 < buf_len t ->
  (exists t', eof_site t i = Ok (t', true) /\ eof_edit t t') \/ eof_site t i = Ok (t, false) \/
  (eof_site t i = Undef /\ eof_cut t).
Proof.
  intros H0 Hl. unfold eof_site. destruct (eof_match t i) as [after|] eqn:Em; [|by right; left].
  pose proof (eof_match_after _ _ _ Em) as Ha.
  assert (forall (r : res (list Z)) t' len d, r = Ok t' -> redirected t t' after len d -> len = 2 \/ len = 6 ->
    (forall le, step t (Flags le true) after = Some d) ->
    exists t', (t ← r; Ok (t, true)) = Ok (t', true) /\ eof_edit t t') as Hdone.
  { intros r t' len d -> R Hlen Hs. exists t'. split; [done|]. by exists i, after, len, d. }
  rewrite !buf_rd_spec by lia. cbn [mbind res_bind].
  destruct (byte_at t after =? 0x74) eqn:E74; [left|destruct (byte_at t after =? 0x75) eqn:E75; [left|]].
  - destruct (short_redirect t after) as (t' & E' & R'); [lia..|]. apply (Hdone _ _ _ _ E' R'); [by left|].
    intros le. unfold step. by rewrite (proj1 (Z.eqb_eq _ _) E74).
  - destruct (nops_redirect t after 2) as (t' & E' & R' & _); [lia..|]. apply (Hdone _ _ _ _ E' R'); [by left|].
    intros le. unfold step. by rewrite (proj1 (Z.eqb_eq _ _) E75).
  - destruct (byte_at t after =? 0x0f) eqn:E0f; cbn [negb]; [|by right; left]. apply Z.eqb_eq in E0f.
    destruct (Z.lt_ge_cases (buf_len t) (after + 6)) as [Hcut|Hroom].
    { assert (eof_cut t) by (by exists i, after).
      destruct (_ =? 0x84); [right; right; by rewrite near_out by lia|].
      destruct (_ =? 0x85); [right; right; by rewrite patch_bytes_out by (rewrite ?buf_len_replicate; lia)|].
      by right; left. }
    destruct (byte_at t (after + 1) =? 0x84) eqn:E84; [left|destruct (byte_at t (after + 1) =? 0x85) eqn:E85; [left|]].
    + destruct (near_redirect t after) as (t' & E' & R'); [lia..|]. apply (Hdone _ _ _ _ E' R'); [by right|].
      intros le. unfold step. by rewrite E0f, (proj1 (Z.eqb_eq _ _) E84).
    + destruct (nops_redirect t after 6) as (t' & E' & R' & _); [lia..|]. apply (Hdone _ _ _ _ E' R'); [by right|].
      intros le. unfold step. by rewrite E0f, (proj1 (Z.eqb_eq _ _) E85).
    + by right; left.
Qed.

Lemma eof_edit_length t t' : eof_edit t t' -> buf_len t' = buf_len t.
Proof. intros (i & after & len & d & _ & _ & _ & R). apply same_length_len, R. Qed.

Lemma eof_loop_edits fuel : forall i t count, 0 <= i -> i + Z.of_nat fuel + 7 <= buf_len t ->
  (exists t' n, eof_loop fuel i t count = Ok (t', count + n) /\ edits eof_edit t n t') \/
  (eof_loop fuel i t count = Undef /\ exists t1 n, edits eof_edit t n t1 /\ eof_cut t1).
Proof.
  induction fuel as [|fuel IH]; intros i t count Hi Hl; cbn [eof_loop].
  { left. exists t, 0. rewrite Z.add_0_r. split; [done|constructor]. }
  destruct (eof_site_spec t i Hi ltac:(lia)) as [(t1 & E & He)|[E|[E Hcut]]]; rewrite E; cbn [mbind res_bind].
  - destruct (IH (i + 1) t1 (count + 1)) as [(t2 & n & E2 & H2)|(E2 & t2 & n & H2 & Hcut)];
      [lia|rewrite (eof_edit_length _ _ He); lia|left|right].
    + exists t2, (n + 1). split; [rewrite E2; do 2 f_equal; lia|]. by eapply edits_one.
    + split; [done|]. exists t2, (n + 1). split; [|done]. by eapply edits_one.
  - apply IH; lia.
  - right. split; [done|]. exists t, 0. split; [constructor|done].
Qed.

(** ** Lemmas: the putc pass *)

(** A putc macro: no-ops for the store of [_w], and a jump to the slow label,
    which is where the macro's own branch goes, or that of the check it falls
    through to. *)
Definition putc_edit (t t' : list Z) : Prop :=
  exists i slow, 0 <= i /\ putc_prologue t i = true /\ putc_slow t i = Some slow /\ putc_label t slow = true /\
    0 <= slow <= buf_len t - 2 /\ rewritten t t' (i + 6) 3 (i + 11) 2 slow.

(** The branch at [i + 11], or the one of the check behind it, goes to the
    slow label. *)
Lemma putc_slow_is_branch t i slow :
  putc_prologue t i = true -> putc_slow t i = Some slow ->
  (forall z, step t (Flags true z) (i + 11) = Some slow) \/
  ((forall z, step t (Flags true z) (i + 11) = Some (i + 13)) /\
   exists q, i + 13 <= q <= i + 18 /\ step t (Flags true true) q = Some slow).
Proof.
  intros Hp Hs. unfold putc_slow in Hs. unfold putc_prologue in Hp. cbv zeta in Hp.
  apply andb_true_iff in Hp as [_ Hp].
  assert (forall q d, byte_at t q = 0x74 \/ byte_at t q = 0x7e -> d = q + 2 + i8 (byte_at t (q + 1)) ->
            step t (Flags true true) q = Some d) as Hq.
  { intros q d [E|E] ->; unfold step; by rewrite E. }
  destruct (byte_at t (i + 11) =? 0x7e) eqn:E7e.
  { left. intros z. injection Hs as <-. unfold step. rewrite (proj1 (Z.eqb_eq _ _) E7e). cbn -[Z.add byte_at].
    unfold short_branch. do 2 f_equal; [lia|]. do 2 f_equal. lia. }
  rewrite orb_false_r in Hp. apply Z.eqb_eq in Hp. right. split.
  { intros z. unfold step. rewrite Hp. cbn -[Z.add]. unfold short_branch. cbn -[Z.add]. f_equal. lia. }
  destruct (byte_at t (i + 13) =? 0x74) eqn:E1; [|destruct (_ && (byte_at t (i + 13 + 2) =? _)) eqn:E2;
    [|destruct (_ && (byte_at t (i + 13 + 3) =? _)) eqn:E3;
    [|destruct (_ && (byte_at t (i + 13 + 5) =? _)) eqn:E4; [|done]]]]; injection Hs as <-.
  - exists (i + 13). split; [lia|]. apply Hq; [left; lia|]. do 2 f_equal; lia.
  - exists (i + 15). apply andb_true_iff in E2 as [_ E2]. apply Z.eqb_eq in E2.
    split; [lia|]. apply Hq; [left; rewrite <- E2; f_equal; lia|].
    replace (i + 15 + 1) with (i + 13 + 3) by lia. lia.
  - exists (i + 16). apply andb_true_iff in E3 as [_ E3]. apply Z.eqb_eq in E3.
    split; [lia|]. apply Hq; [right; rewrite <- E3; f_equal; lia|].
    replace (i + 16 + 1) with (i + 13 + 4) by lia. lia.
  - exists (i + 18). apply andb_true_iff in E4 as [_ E4]. apply Z.eqb_eq in E4.
    split; [lia|]. apply Hq; [right; rewrite <- E4; f_equal; lia|].
    replace (i + 18 + 1) with (i + 13 + 6) by lia. lia.
Qed.

Lemma i8_range z : -128 <= i8 z < 128.
Proof. apply (signed_range 8 z). lia. Qed.

Lemma jump_redirect t off rel :
  0 <= off -> off + 2 <= buf_len t -> -128 <= rel < 128 ->
  exists t', patch_bytes t off [0xeb; u8 rel] = Ok t' /\ redirected t t' off 2 (off + 2 + rel).
Proof.
  intros H0 H2 Hr. destruct (patch_bytes_at t off [0xeb; u8 rel]) as (t' & E & L & F & N);
    [lia|change (buf_len [0xeb; u8 rel]) with 2; lia|]. change (buf_len [0xeb; u8 rel]) with 2 in F, N.
  exists t'. split; [done|]. split; [done|done|]. intros _ f. apply rtc_once. unfold step.
  rewrite (byte_at_get t' [0xeb; u8 rel] off 0) by (rewrite <- (Z.add_0_r off); apply N; lia).
  change (byte_at [0xeb; u8 rel] 0) with 0xeb. cbn -[Z.add byte_at u8]. unfold short_branch.
  rewrite (byte_at_get t' [0xeb; u8 rel] (off + 1) 1) by (apply N; lia).
  change (byte_at [0xeb; u8 rel] 1) with (u8 rel). by rewrite i8_u8.
Qed.

Lemma putc_site_spec rwx_ok t i c :
  0 <= i -> i + 20 < buf_len t ->
  exists t' c', putc_site rwx_ok t i c = Ok (t', c') /\
    ((t' = t /\ patched c' = patched c) \/ (putc_edit t t' /\ patched c' = patched c + 1)).
Proof.
  intros H0 Hl. unfold putc_site. destruct (putc_prologue t i) eqn:Ep; cbn [negb]; [|by eexists _, _; eauto].
  destruct (putc_slow t i) as [slow|] eqn:Es; [|by eexists _, _; eauto].
  destruct (_ || _) eqn:Eb; [by eexists _, _; eauto|]. apply orb_false_iff in Eb as [Eb1 Eb2].
  set (rel := i8 (slow - (i + 13))). destruct (Z.eqb_spec slow (i + 13 + rel)) as [Erel|]; cbn [negb]; [|by eexists _, _; eauto].
  destruct (putc_label t slow) eqn:El; cbn [negb]; [|by eexists _, _; eauto].
  destruct (rwx_ok i); cbn [negb]; [|by eexists _, _; eauto].
  destruct (nops_redirect t (i + 6) 3) as (t1 & E1 & R1 & N1); [lia..|]. change (replicate 3 0x90) with [0x90; 0x90; 0x90] in E1.
  rewrite E1. cbn [mbind res_bind]. pose proof (same_length_len _ _ (rd_length _ _ _ _ _ R1)).
  destruct (jump_redirect t1 (i + 11) rel) as (t2 & E2 & R2); [lia|lia|apply i8_range|].
  rewrite E2. cbn [mbind res_bind]. eexists _, _. split; [done|]. right. split; [|done].
  exists i, slow. split_and!; try done; try lia.
  replace (i + 11 + 2 + rel) with slow in R2 by lia. eapply rewritten_both; eauto; lia.
Qed.

Lemma putc_loop_edits rwx_ok fuel : forall i t c, 0 <= i -> i + Z.of_nat fuel + 20 <= buf_len t ->
  exists t' n c', putc_loop rwx_ok fuel i t c = Ok (t', c') /\ patched c' = patched c + n /\ edits putc_edit t n t'.
Proof.
  induction fuel as [|fuel IH]; intros i t c Hi Hl; cbn [putc_loop].
  { exists t, 0, c. split; [done|]. split; [lia|constructor]. }
  destruct (putc_site_spec rwx_ok t i c Hi ltac:(lia)) as (t1 & c1 & E1 & H1). rewrite E1. cbn [mbind res_bind].
  assert (buf_len t1 = buf_len t) as Hlen.
  { destruct H1 as [[-> _]|[(j & slow & _ & _ & _ & _ & _ & R) _]]; [done|apply same_length_len, R]. }
  destruct (IH (i + 1) t1 c1) as (t2 & n & c2 & E2 & Hn & H2); [lia|lia|].
  destruct H1 as [[-> Hp]|[He Hp]].
  - exists t2, n, c2. split_and!; [done|lia|done].
  - exists t2, (n + 1), c2. split_and!; [done|lia|]. by eapply edits_one.
Qed.

(** ** Properties *)

(** C29 (functional): The getc pass ends normally on every section and changes
    it only by rewriting getc macros: load of the counter at [B+8], lea of the
    counter less one, store of it, test of the old counter, and a jle or jg,
    short or near, in any encoding of the instructions (where an instruction
    with a SIB byte and the X bit of REX, which adds r12 to the address, is
    taken too).  Each rewrite replaces the store by no-ops and makes the code
    go, whatever the counter is, to where the branch goes when the counter is
    used up, that is to the call of __srget, at least below 2^31; all other
    bytes stay.  And the first lea of a section is recognised if it is in a
    macro, with every choice of registers, either sense of the branch and
    either length of it, provided the lea begins at offset 5 or later and more
    than 12 bytes before the end of the section. *)
Theorem getc_macros_redirected (t pre post : list Z) (L B D : Z) (j : getc_jump) :
  Forall is_byte t -> is_reg L -> is_reg B -> is_reg D ->
  (exists t' n, patch_getc t = Ok (t', n) /\ edits getc_edit t n t') /\
  (let code := pre ++ getc_code L B D ++ enc_jump j ++ post in
   let s := macro_site (buf_len pre) L B D j in
   let lea_at := buf_len pre + buf_len (enc_mem 0x8b L B 8) in
   Forall is_byte code -> Forall (fun b => b <> 0x8d) pre -> 5 <= lea_at -> lea_at + 12 < buf_len code ->
   exists t1 t' n d, patch_getc code = Ok (t', n + 1) /\ edits getc_edit t1 n t' /\
     (forall z, step code (Flags true z) (jmp_off s) = Some d) /\
     rewritten code t1 (st_off s) (st_len s) (jmp_off s) (jmp_len s) d).
Proof.
  intros Ht HL HB HD. split; [by apply (getc_loop_edits (Z.to_nat (buf_len t - 17)) 5 t 0)|].
  cbv zeta. intros Hc Hp H5 H12. pose proof (getc_match_code pre post L B D j HL HB HD) as Em.
  destruct (first_macro_edited pre post L B D j HL HB HD Hc Hp H5 H12) as (t1 & t' & n & E1 & E2 & He).
  apply getc_rewrite_spec in Em as (t2 & d & E3 & Hd & _ & _ & _ & R); [|lia]. rewrite E1 in E3. injection E3 as <-.
  by exists t1, t', n, d.
Qed.

(** The macro of [strings]: FILE pointer in r12, counter in r8d, the result in
    edx, and a near jg. *)
Lemma getc_macros_redirected_witness :
  let code := [0x55; 0x53] ++ getc_code 8 12 2 ++ enc_jump (NearJump false 0x40) ++ replicate 12 0xcc in
  patch_getc code =
    Ok ([0x55; 0x53] ++ enc_mem 0x8b 8 12 8 ++ enc_mem 0x8d 2 8 (-1) ++ replicate 5 0x90 ++ enc_same 0x85 8 ++
        replicate 6 0x90 ++ replicate 12 0xcc, 1) /\
  exists t1 t' n d, patch_getc code = Ok (t', n + 1) /\ edits getc_edit t1 n t' /\ rewritten code t1 11 5 19 6 d.
Proof.
  cbv zeta. split; [vm_compute; reflexivity|].
  destruct (getc_macros_redirected [] [0x55; 0x53] (replicate 12 0xcc) 8 12 2 (NearJump false 0x40))
    as [_ H]; [constructor|unfold is_reg; lia..|].
  destruct H as (t1 & t' & n & d & E & He & _ & R).
  - apply (bool_decide_unpack _). vm_compute. exact I.
  - apply (bool_decide_unpack _). vm_compute. exact I.
  - vm_compute. discriminate.
  - vm_compute. reflexivity.
  - exists t1, t', n, d. split; [exact E|]. split; [exact He|exact R].
Defined.

(** The other two passes change a section only at their sites.
    The putc pass always ends normally; each edit takes out the store to the
    counter and jumps, within reach of a short jump, to the label that loads
    the character for __swbuf, which is where the macro's branch, or the
    check it falls through to, goes; the count says how many.  The
    end-of-file pass either does the same for tests of the end-of-file and
    error bits, which then always find the bit clear, or reads past the end
    of the section, and that only if the section's end cuts a near branch
    behind such a test. *)
Theorem putc_and_eof_edits (rwx_ok : Z -> bool) (t : list Z) :
  20 <= buf_len t ->
  (exists t' c, patch_putc rwx_ok t = Ok (t', c) /\ edits putc_edit t (patched c) t') /\
  ((exists t' n, patch_eof t = Ok (t', n) /\ edits eof_edit t n t') \/
   (patch_eof t = Undef /\ exists t1 n, edits eof_edit t n t1 /\ eof_cut t1)).
Proof.
  intros Hl. split.
  - destruct (putc_loop_edits rwx_ok (Z.to_nat (buf_len t - 20)) 0 t (PutcCounts 0 0 0)) as (t' & n & c & E & Hn & H);
      [lia|lia|]. exists t', c. split; [exact E|]. rewrite Hn. exact H.
  - unfold patch_eof. apply eof_loop_edits; lia.
Qed.

(** Shape B in a section that ends in a cut test. *)
Lemma putc_and_eof_edits_witness :
  let t := [0x8b; 0x47; 0x0c; 0x8d; 0x48; 0xff; 0x89; 0x4f; 0x0c; 0x85; 0xc0; 0x7e; 0x01; 0xcc; 0xbf; 0; 0; 0] ++
           [0xf6; 0x47; 0x10; 0x20; 0x0f; 0x84; 0; 0] in
  (exists t' c, patch_putc (fun _ => true) t = Ok (t', c) /\ patched c = 1 /\
     take 13 t' = [0x8b; 0x47; 0x0c; 0x8d; 0x48; 0xff; 0x90; 0x90; 0x90; 0x85; 0xc0; 0xeb; 0x01]) /\
  patch_eof t = Undef /\ exists t1 n, edits eof_edit t n t1 /\ eof_cut t1.
Proof.
  intros t. destruct (putc_and_eof_edits (fun _ => true) t ltac:(vm_compute; discriminate)) as [(t' & c & E & _) H].
  split.
  - exists t', c. split; [exact E|]. vm_compute in E. injection E as <- <-. vm_compute. done.
  - destruct H as [(t1 & n & E1 & _)|H]; [vm_compute in E1; discriminate|exact H].
Defined.
