(* ===== verification/Stdio.v ===== *)
(** * Reading through glibc streams (src/shim/io/process.c)

    A macOS program's getc macro works on fields of a macOS FILE: it
    decrements the counter [_r] at offset 8 and, unless that went below zero,
    reads through [_p] at offset 0.  On a glibc FILE these are the low half of
    [_IO_read_ptr] and the flags.  The shim therefore leaves -1 in [_r] after
    each call, so that the macro always calls [__srget], and keeps the real
    [_IO_read_ptr] in a table of 16 entries, from which it is restored before
    glibc looks at the stream again.

    A stream is the record of the fields the shim touches; the rest of it
    ([file_rest]) and the rest of the process ([W]) belong to glibc, whose
    functions are parameters. *)
From Stdlib Require Import ZArith Lia Bool.
From stdpp Require Import base gmap list numbers fin_maps.
From S2P Require Import Prelude StdioPatch.

Definition EOF : Z := -1.
Definition MACIFY_MAX_SAVED_FPS : nat := 16.

Record file (P : Type) := File {
  io_flags : Z; io_read_ptr : Z; io_read_end : Z; io_read_base : Z;
  io_write_base : Z; io_write_ptr : Z; io_buf_base : Z; file_rest : P
}.
Arguments File {P}.
Arguments io_flags {P}.
Arguments io_read_ptr {P}.
Arguments io_read_end {P}.
Arguments io_read_base {P}.
Arguments io_write_base {P}.
Arguments io_write_ptr {P}.
Arguments io_buf_base {P}.
Arguments file_rest {P}.

Definition set_read_ptr {P} (f : file P) (v : Z) : file P :=
  File (io_flags f) v (io_read_end f) (io_read_base f) (io_write_base f) (io_write_ptr f) (io_buf_base f) (file_rest f).
Definition set_read_end {P} (f : file P) (v : Z) : file P :=
  File (io_flags f) (io_read_ptr f) v (io_read_base f) (io_write_base f) (io_write_ptr f) (io_buf_base f) (file_rest f).
Definition set_flags {P} (f : file P) (v : Z) : file P :=
  File v (io_read_ptr f) (io_read_end f) (io_read_base f) (io_write_base f) (io_write_ptr f) (io_buf_base f) (file_rest f).

(** Storing an [int] at offset 8: the low half of [_IO_read_ptr]. *)
Definition set_r {P} (f : file P) (v : Z) : file P :=
  set_read_ptr f (Z.lor (Z.shiftl (Z.shiftr (io_read_ptr f) 32) 32) (u32 v)).

Definition get_r {P} (f : file P) : Z := i32 (io_read_ptr f).

(** [macify_fix_read_end]; pointers are compared unsigned, [intptr_t] is
    signed. *)
Definition fix_read_end {P} (f : file P) : file P :=
  let hi := Z.shiftr (i64 (io_read_ptr f)) 32 in
  if negb (hi =? 0) && negb (hi =? -1) then
    if (io_read_end f <? io_read_ptr f) || (io_read_end f - io_read_ptr f >? 65536)
    then set_read_end f (io_read_ptr f) else f
  else if (0 <? i64 (io_buf_base f)) && (Z.shiftr (i64 (io_buf_base f)) 40 =? 0)
  then set_read_end (set_read_ptr f (io_buf_base f)) (io_buf_base f) else f.

(** ** The table of saved pointers *)

(** The entry of [fp] is valid. *)
Definition entry_of (fp : Z) (e : option (Z * Z)) : bool :=
  match e with Some (q, _) => q =? fp | None => false end.
Definition is_free (e : option (Z * Z)) : bool := match e with None => true | Some _ => false end.

(** The two loops of [macify_save_read_ptr]: the first entry that satisfies
    [p] becomes [e]. *)
Fixpoint replace_first {A} (p : A -> bool) (e : A) (l : list A) : option (list A) :=
  match l with
  | [] => None
  | x :: l => if p x then Some (e :: l) else option_map (cons x) (replace_first p e l)
  end.

Definition save_entry (fp ptr : Z) (tbl : list (option (Z * Z))) : list (option (Z * Z)) :=
  match replace_first (entry_of fp) (Some (fp, ptr)) tbl with
  | Some tbl => tbl
  | None => default tbl (replace_first is_free (Some (fp, ptr)) tbl)
  end.

Fixpoint find_saved (fp : Z) (tbl : list (option (Z * Z))) : option Z :=
  match tbl with
  | [] => None
  | Some (q, ptr) :: tbl => if q =? fp then Some ptr else find_saved fp tbl
  | None :: tbl => find_saved fp tbl
  end.

(** The loop of [macify_fclose] that drops the entry. *)
Definition drop_entry (fp : Z) (tbl : list (option (Z * Z))) : list (option (Z * Z)) :=
  default tbl (replace_first (entry_of fp) None tbl).

Section files.
  Context {P : Type}.

(** The two bits a guest tests at offset 0x10: set [__SEOF], clear [__SERR]. *)
Definition mark_eof (f : file P) : file P :=
  set_read_end f (Z.land (Z.lor (io_read_end f) 0x20) (Z.lnot 0x40)).

Definition fread_flags (r : Z) (f : file P) : file P :=
  let g := set_flags f (Z.land (io_flags f) (Z.lnot 0x20)) in
  if 0 <? r then if has (io_flags g) 0x10 then mark_eof g else g else mark_eof g.

(** A stream whose pointers the shim takes for glibc's: without a buffer, or
    with a read pointer between 4 GiB and 2^47 and at most 64 KiB left to
    read.  That glibc's streams are like this is an assumption of the shim,
    which moves [_IO_read_end] of the others. *)
Definition well_placed (f : file P) : Prop :=
  (io_read_ptr f = 0 /\ io_buf_base f = 0) \/
  (2 ^ 32 <= io_read_ptr f < 2 ^ 47 /\ io_read_ptr f <= io_read_end f <= io_read_ptr f + 65536).

#[global] Instance well_placed_dec f : Decision (well_placed f).
Proof. unfold well_placed. apply _. Defined.

End files.

(** ** Lemmas: the table *)

Definition entries (tbl : list (option (Z * Z))) : list Z := omap (fun e => fst <$> e) tbl.

Record table_ok (tbl : list (option (Z * Z))) (D : gset Z) : Prop := {
  tb_length : length tbl = MACIFY_MAX_SAVED_FPS;
  tb_nodup : NoDup (entries tbl);
  tb_open : forall fp, fp ∈ entries tbl -> fp ∈ D
}.

Lemma replace_first_Some {A} (p : A -> bool) e l l' :
  replace_first p e l = Some l' ->
  exists l1 x l2, l = l1 ++ x :: l2 /\ p x = true /\ Forall (fun y => p y = false) l1 /\ l' = l1 ++ e :: l2.
Proof.
  revert l'. induction l as [|x l IH]; intros l'; cbn [replace_first]; [done|].
  destruct (p x) eqn:Ep.
  - intros [= <-]. by exists [], x, l.
  - destruct (replace_first p e l) as [l0|]; [|done]. intros [= <-].
    destruct (IH l0 eq_refl) as (l1 & y & l2 & -> & Hy & Hall & ->).
    exists (x :: l1), y, l2. split_and!; try done. by constructor.
Qed.

Lemma replace_first_None {A} (p : A -> bool) e l :
  replace_first p e l = None -> Forall (fun y => p y = false) l.
Proof.
  induction l as [|x l IH]; cbn [replace_first]; [by constructor|].
  destruct (p x) eqn:Ep; [done|]. destruct (replace_first p e l); [done|]. constructor; auto.
Qed.

Lemma find_saved_app fp l1 l2 :
  find_saved fp (l1 ++ l2) = match find_saved fp l1 with Some v => Some v | None => find_saved fp l2 end.
Proof.
  induction l1 as [|[[q v]|] l1 IH]; cbn [app find_saved]; [done| |done]. by destruct (q =? fp).
Qed.

Lemma find_saved_free fp l : Forall (fun y => entry_of fp y = false) l <-> find_saved fp l = None.
Proof.
  induction l as [|[[q v]|] l IH]; cbn [find_saved].
  - split; [done|constructor].
  - rewrite Forall_cons. cbn. destruct (q =? fp); [split; [by intros []|done]|]. tauto.
  - rewrite Forall_cons. cbn. tauto.
Qed.

Lemma entries_find fp l : fp ∈ entries l <-> find_saved fp l <> None.
Proof.
  induction l as [|[[q v]|] l IH]; cbn.
  - split; [by intros ?%not_elem_of_nil|done].
  - rewrite elem_of_cons, IH. destruct (Z.eqb_spec q fp) as [->|]; [split; auto; by left|].
    split; [intros [->|]; done|by right].
  - exact IH.
Qed.

Lemma entries_app l1 l2 : entries (l1 ++ l2) = entries l1 ++ entries l2.
Proof. apply omap_app. Qed.

(** Saving: the entry of [fp], the others stay, and the table keeps its shape. *)
Lemma save_entry_spec fp ptr tbl (D : gset Z) :
  table_ok tbl D -> fp ∈ D -> (size D <= MACIFY_MAX_SAVED_FPS)%nat ->
  find_saved fp (save_entry fp ptr tbl) = Some ptr /\
  (forall q, q <> fp -> find_saved q (save_entry fp ptr tbl) = find_saved q tbl) /\
  table_ok (save_entry fp ptr tbl) D.
Proof.
  intros [Hlen Hnd Hopen] HD Hsize. unfold save_entry.
  destruct (replace_first (entry_of fp) _ tbl) as [l'|] eqn:E.
  - apply replace_first_Some in E as (l1 & x & l2 & -> & Hx & Hl1 & ->).
    destruct x as [[q v]|]; [|done]. cbn in Hx. apply Z.eqb_eq in Hx as ->.
    apply find_saved_free in Hl1. split_and!.
    + rewrite find_saved_app, Hl1. cbn. by rewrite Z.eqb_refl.
    + intros q Hq. rewrite !find_saved_app. cbn. replace (fp =? q) with false by lia. done.
    + rewrite entries_app in Hnd, Hopen. cbn in Hnd, Hopen.
      split; [rewrite length_app in *; exact Hlen|by rewrite entries_app|by rewrite entries_app].
  - apply replace_first_None in E. apply find_saved_free in E.
    assert (fp ∉ entries tbl) as Hnew by (by rewrite entries_find; intros []).
    destruct (replace_first is_free _ tbl) as [l'|] eqn:E2; cbn [default from_option]; unfold id.
    + apply replace_first_Some in E2 as (l1 & x & l2 & -> & Hx & _ & ->). destruct x; [done|].
      rewrite find_saved_app in E. destruct (find_saved fp l1) eqn:E1; [done|]. split_and!.
      * rewrite find_saved_app, E1. cbn. by rewrite Z.eqb_refl.
      * intros q Hq. rewrite !find_saved_app. cbn. replace (fp =? q) with false by lia. done.
      * rewrite entries_app in Hnd, Hopen, Hnew. cbn in Hnd, Hopen, Hnew. split.
        -- rewrite length_app in *. exact Hlen.
        -- rewrite entries_app. cbn. change (?a ++ fp :: ?b) with (a ++ [fp] ++ b).
           rewrite (Permutation_app_swap_app (entries l1)). cbn. by constructor.
        -- intros q. rewrite entries_app. cbn. rewrite elem_of_app, elem_of_cons.
           intros [H|[->|H]]; [|done|]; apply Hopen; rewrite elem_of_app; auto.
    + exfalso. apply replace_first_None in E2.
      assert (length (entries tbl) = length tbl) as Hfull.
      { clear -E2. induction E2 as [|[[q v]|] l Hx Hl IH]; [done| |done]. cbn. f_equal. exact IH. }
      assert (list_to_set (fp :: entries tbl) ⊆ D) as Hsub.
      { intros q. rewrite elem_of_list_to_set, elem_of_cons. intros [->|H]; auto. }
      apply subseteq_size in Hsub. rewrite size_list_to_set in Hsub by (by constructor). cbn in Hsub. lia.
Qed.

Lemma drop_entry_spec fp tbl (D : gset Z) :
  table_ok tbl D ->
  (forall q, q <> fp -> find_saved q (drop_entry fp tbl) = find_saved q tbl) /\
  table_ok (drop_entry fp tbl) (D ∖ {[fp]}).
Proof.
  intros [Hlen Hnd Hopen]. unfold drop_entry.
  destruct (replace_first (entry_of fp) None tbl) as [l'|] eqn:E; cbn [default from_option]; unfold id.
  - apply replace_first_Some in E as (l1 & x & l2 & -> & Hx & Hl1 & ->).
    destruct x as [[q v]|]; [|done]. cbn in Hx. apply Z.eqb_eq in Hx as ->. split.
    + intros q Hq. rewrite !find_saved_app. cbn. by replace (fp =? q) with false by lia.
    + rewrite entries_app in Hnd, Hopen. cbn in Hnd, Hopen.
      rewrite (Permutation_app_comm (entries l1)) in Hnd. cbn in Hnd.
      apply NoDup_cons in Hnd as [Hni Hnd]. split.
      * rewrite length_app in *. exact Hlen.
      * rewrite entries_app. cbn. by rewrite Permutation_app_comm.
      * intros q. rewrite entries_app. cbn. intros Hq.
        assert (q <> fp) by (intros ->; apply Hni; rewrite elem_of_app in *; tauto).
        apply elem_of_difference. split; [|set_solver]. apply Hopen.
        rewrite elem_of_app in *. rewrite elem_of_cons. tauto.
  - apply replace_first_None, find_saved_free in E. split; [done|]. split; [done|done|].
    intros q Hq. apply elem_of_difference. split; [by apply Hopen|].
    intros ->%elem_of_singleton. by apply entries_find in Hq.
Qed.

(** Saving and reading back: the entry is [ptr], or there was no room. *)
Lemma save_find fp ptr tbl : default ptr (find_saved fp (save_entry fp ptr tbl)) = ptr.
Proof.
  unfold save_entry. destruct (replace_first (entry_of fp) _ tbl) as [l'|] eqn:E.
  - apply replace_first_Some in E as (l1 & x & l2 & -> & _ & Hl1 & ->).
    apply find_saved_free in Hl1. rewrite find_saved_app, Hl1. cbn. by rewrite Z.eqb_refl.
  - apply replace_first_None, find_saved_free in E.
    destruct (replace_first is_free _ tbl) as [l'|] eqn:E2; cbn [default from_option]; unfold id; [|by rewrite E].
    apply replace_first_Some in E2 as (l1 & x & l2 & -> & _ & _ & ->). rewrite find_saved_app in E |- *.
    destruct (find_saved fp l1); [done|]. cbn. by rewrite Z.eqb_refl.
Qed.

Section one_stream.
  Context {P : Type}.

(** ** Lemmas: one stream *)

Lemma set_read_ptr_set (f : file P) a b : set_read_ptr (set_read_ptr f a) b = set_read_ptr f b.
Proof. reflexivity. Qed.

Lemma set_read_ptr_same (f : file P) : set_read_ptr f (io_read_ptr f) = f.
Proof. by destruct f. Qed.

Lemma get_r_set_r (f : file P) v : get_r (set_r f v) = i32 v.
Proof.
  unfold get_r, set_r. cbn [set_read_ptr io_read_ptr]. unfold i32, signed. f_equal.
  assert (Z.lor (Z.shiftl (Z.shiftr (io_read_ptr f) 32) 32) (u32 v) mod 2 ^ 32 = v mod 2 ^ 32) as ->; [|done].
  rewrite <- !Z.land_ones by lia. rewrite Z.land_lor_distr_l. unfold u32. rewrite <- Z.land_ones by lia.
  rewrite <- (Z.land_assoc v), Z.land_diag.
  replace (Z.land (Z.shiftl (Z.shiftr (io_read_ptr f) 32) 32) (Z.ones 32)) with 0; [apply Z.lor_0_l|].
  symmetry. rewrite Z.land_ones, Z.shiftl_mul_pow2 by lia. apply Z.mod_mul. lia.
Qed.

Lemma placed_settled (f : file P) : well_placed f -> fix_read_end f = f.
Proof.
  intros [[Hp Hb]|[Hp He]]; unfold fix_read_end.
  - by rewrite Hp, Hb.
  - assert (i64 (io_read_ptr f) = io_read_ptr f) as -> by (apply (signed_small 64); lia).
    assert (1 <= Z.shiftr (io_read_ptr f) 32).
    { rewrite Z.shiftr_div_pow2 by lia. apply Z.div_le_lower_bound; lia. }
    replace (negb _ && negb _) with true by lia. replace (_ || _) with false by lia. done.
Qed.

End one_stream.

Lemma mark_bits p :
  0 <= p -> Z.land (Z.lor p 0x20) (Z.lnot 0x40) =
    p + (if Z.testbit p 5 then 0 else 32) - (if Z.testbit p 6 then 64 else 0).
Proof.
  intros Hp. change 0x20 with (2 ^ 5). change 0x40 with (2 ^ 6).
  assert (Z.lor p (2 ^ 5) = p + (if Z.testbit p 5 then 0 else 32)) as E.
  { destruct (Z.testbit p 5) eqn:H5.
    - rewrite Z.add_0_r. apply Z.bits_inj_iff'. intros n Hn. rewrite Z.lor_spec, Z.pow2_bits_eqb by lia.
      destruct (Z.eqb_spec 5 n) as [<-|]; [by rewrite H5|]. by rewrite orb_false_r.
    - rewrite Z.add_nocarry_lxor; [|].
      + apply Z.bits_inj_iff'. intros n Hn. rewrite Z.lor_spec, Z.lxor_spec. change 32 with (2 ^ 5).
        rewrite Z.pow2_bits_eqb by lia. destruct (Z.eqb_spec 5 n) as [<-|]; [by rewrite H5|].
        by rewrite orb_false_r, xorb_false_r.
      + apply Z.bits_inj_iff'. intros n Hn. rewrite Z.land_spec, Z.bits_0. change 32 with (2 ^ 5).
        rewrite Z.pow2_bits_eqb by lia. destruct (Z.eqb_spec 5 n) as [<-|]; [by rewrite H5|]. by rewrite andb_false_r. }
  rewrite E. clear E. set (q := p + (if Z.testbit p 5 then 0 else 32)).
  assert (Z.testbit q 6 = Z.testbit p 6) as E6.
  { unfold q. destruct (Z.testbit p 5) eqn:H5; [by rewrite Z.add_0_r|].
    rewrite Z.add_nocarry_lxor.
    - rewrite Z.lxor_spec. change (Z.testbit 32 6) with false. apply xorb_false_r.
    - apply Z.bits_inj_iff'. intros n Hn. rewrite Z.land_spec, Z.bits_0. change 32 with (2 ^ 5).
      rewrite Z.pow2_bits_eqb by lia. destruct (Z.eqb_spec 5 n) as [<-|]; [by rewrite H5|]. by rewrite andb_false_r. }
  rewrite <- E6. destruct (Z.testbit q 6) eqn:H6.
  - rewrite <- Z.ldiff_land. symmetry. apply Z.sub_nocarry_ldiff.
    apply Z.bits_inj_iff'. intros n Hn. rewrite Z.ldiff_spec, Z.bits_0. change 64 with (2 ^ 6).
    rewrite Z.pow2_bits_eqb by lia. destruct (Z.eqb_spec 6 n) as [<-|]; [by rewrite H6|done].
  - rewrite Z.sub_0_r. apply Z.bits_inj_iff'. intros n Hn. rewrite Z.land_spec, Z.lnot_spec by lia.
    rewrite Z.pow2_bits_eqb by lia. destruct (Z.eqb_spec 6 n) as [<-|]; [by rewrite H6|]. by rewrite andb_true_r.
Qed.

Section streams.
  Context {P W : Type}.

(** glibc's functions: the stream, or the open files' addresses, and the rest
    of the process to the result and the new ones. *)
  Context (real_fgetc : file P -> W -> Z * file P * W)
          (real_ungetc : Z -> file P -> W -> Z * file P * W)
          (real_fseeko : Z -> Z -> file P -> W -> Z * file P * W)
          (real_fclose : file P -> W -> Z * Z * W)
          (real_fdopen : gset Z -> Z -> W -> option (Z * file P) * W).

(** The loader's choice ([macify_getc_patched], [macify_skip_r_patch]) and
    which addresses are glibc's stdin, stdout and stderr. *)
  Context (mode : stdio_mode) (is_glibc_standard : Z -> bool).

(** The streams by address, the table [macify_saved_fps] (the address and
    the saved pointer of the valid entries) and the rest. *)
Record stdio := Stdio { files : gmap Z (file P); saved_fps : list (option (Z * Z)); world : W }.

Definition get_file (s : stdio) (fp : Z) : res (file P) := of_option (files s !! fp).
Definition put_file (s : stdio) (fp : Z) (f : file P) : stdio :=
  Stdio (<[fp := f]> (files s)) (saved_fps s) (world s).

Definition save_read_ptr (s : stdio) (fp : Z) : res stdio :=
  f ← get_file s fp;
  Ok (Stdio (files s) (save_entry fp (io_read_ptr f) (saved_fps s)) (world s)).

Definition restore_read_ptr (s : stdio) (fp : Z) : res stdio :=
  f ← get_file s fp;
  let f := match find_saved fp (saved_fps s) with Some ptr => set_read_ptr f ptr | None => f end in
  Ok (put_file s fp (fix_read_end f)).

(** Storing -1 in [_r], under the conditions all wrappers have for it. *)
Definition poison (s : stdio) (fp : Z) : res stdio :=
  if negb (getc_patched mode) && negb (skip_r_patch mode) && negb (is_glibc_standard fp)
  then f ← get_file s fp; Ok (put_file s fp (set_r f (-1))) else Ok s.

(** A call of glibc on one stream. *)
Definition call_real {A} (real : file P -> W -> A * file P * W) (s : stdio) (fp : Z) : res (A * stdio) :=
  f ← get_file s fp;
  let '(r, f, w) := real f (world s) in
  Ok (r, Stdio (<[fp := f]> (files s)) (saved_fps s) w).

Definition unless_patched (step : res stdio) (s : stdio) : res stdio :=
  if getc_patched mode then Ok s else step.

(** ** The wrappers; [is_macos]: the caller is guest code *)

Definition srget (is_macos : bool) (s : stdio) (fp : Z) : res (Z * stdio) :=
  s ← (if is_macos then unless_patched (restore_read_ptr s fp) s else Ok s);
  '(c, s) ← call_real real_fgetc s fp;
  s ← (if is_macos then unless_patched (save_read_ptr s fp) s else Ok s);
  s ← (if negb (c =? EOF) && is_macos && negb (getc_patched mode) && negb (skip_r_patch mode) &&
          negb (is_glibc_standard fp)
       then s ← save_read_ptr s fp; poison s fp else Ok s);
  Ok (c, s).

Definition macify_fgetc (s : stdio) (fp : Z) : res (Z * stdio) :=
  s ← unless_patched (restore_read_ptr s fp) s;
  '(r, s) ← call_real real_fgetc s fp;
  s ← unless_patched (save_read_ptr s fp) s;
  s ← (if r =? EOF then Ok s else poison s fp);
  Ok (r, s).

Definition getc_unlocked (s : stdio) (fp : Z) : res (Z * stdio) :=
  s ← restore_read_ptr s fp;
  '(c, s) ← call_real real_fgetc s fp;
  s ← (if negb (c =? EOF) then s ← save_read_ptr s fp; poison s fp else restore_read_ptr s fp);
  Ok (c, s).

Definition macify_ungetc (c : Z) (s : stdio) (fp : Z) : res (Z * stdio) :=
  s ← unless_patched (restore_read_ptr s fp) s;
  '(r, s) ← call_real (real_ungetc c) s fp;
  s ← (if negb (r =? EOF) && negb (getc_patched mode) && negb (skip_r_patch mode) && negb (is_glibc_standard fp)
       then s ← save_read_ptr s fp; poison s fp else Ok s);
  Ok (r, s).

Definition macify_fseeko (off whence : Z) (s : stdio) (fp : Z) : res (Z * stdio) :=
  s ← unless_patched (restore_read_ptr s fp) s;
  '(r, s) ← call_real (real_fseeko off whence) s fp;
  s ← unless_patched (save_read_ptr s fp) s;
  Ok (r, s).

Definition macify_fread (real_fread : Z -> Z -> file P -> W -> Z * file P * W) (size nmemb : Z) (s : stdio) (fp : Z)
    : res (Z * stdio) :=
  s ← unless_patched (restore_read_ptr s fp) s;
  '(r, s) ← call_real (real_fread size nmemb) s fp;
  s ← unless_patched (save_read_ptr s fp) s;
  f ← get_file s fp;
  let s := put_file s fp (fread_flags r f) in
  s ← (if (0 <? r) && negb (getc_patched mode) && negb (skip_r_patch mode) && negb (is_glibc_standard fp)
       then s ← save_read_ptr s fp; poison s fp else Ok s);
  Ok (r, s).

Definition macify_clearerr (s : stdio) (fp : Z) : res stdio :=
  if fp =? 0 then Ok s else
  f ← get_file s fp; Ok (put_file s fp (set_flags f (Z.land (io_flags f) (Z.lnot 0x30)))).

Definition macify_feof (s : stdio) (fp : Z) : res Z :=
  if fp =? 0 then Ok 0 else f ← get_file s fp; Ok (if has (io_flags f) 0x10 then 1 else 0).

Definition EINVAL : Z := 22.

(** The result, and the stream is gone. *)
Definition macify_fclose (s : stdio) (fp : Z) : res (Z * stdio) :=
  s ← restore_read_ptr s fp;
  f ← get_file s fp;
  let '(r, new_errno, w) := real_fclose f (world s) in
  let r := if (r =? EOF) && is_glibc_standard fp then 0 else r in
  let r := if (r =? EOF) && (new_errno =? EINVAL) then 0 else r in
  Ok (r, Stdio (delete fp (files s)) (drop_entry fp (saved_fps s)) w).

(** [macify_fdopen] for a guest: 0 or the stream. *)
Definition macify_fdopen (fd : Z) (s : stdio) : res (Z * stdio) :=
  let '(o, w) := real_fdopen (dom (files s)) fd (world s) in
  match o with
  | None => Ok (0, Stdio (files s) (saved_fps s) w)
  | Some (fp, f) =>
      let s := Stdio (<[fp := f]> (files s)) (saved_fps s) w in
      s ← save_read_ptr s fp;
      s ← (if negb (skip_r_patch mode) && negb (is_glibc_standard fp)
           then f ← get_file s fp; Ok (put_file s fp (set_r f (-1))) else Ok s);
      Ok (fp, s)
  end.

(** The guest's getc macro: [--_r >= 0 ? *_p++ : __srget(fp)]; reading through
    [_p], which is glibc's flags, is undefined.  Where the loader has patched
    the macro it goes to [__srget] at once. *)
Definition getc_macro (s : stdio) (fp : Z) : res (Z * stdio) :=
  if getc_patched mode then srget true s fp else
  f ← get_file s fp;
  let r := i32 (get_r f - 1) in
  let s := put_file s fp (set_r f r) in
  if 0 <=? r then Undef else srget true s fp.

(** ** What the guest should see: glibc's own streams *)

(** The streams as glibc left them, and those on which the macro may be used:
    since the last read or push-back that succeeded there was no seek and no
    end of file. *)
Record clean := Clean { cl_files : gmap Z (file P); cl_armed : gset Z; cl_world : W }.

Inductive stream_call :=
| SMacro (fp : Z) | SSrget (fp : Z) | SFgetc (fp : Z) | SUngetc (c fp : Z) | SSeek (off whence fp : Z)
| SClose (fp : Z) | SOpen (fd : Z).

Definition run_call (s : stdio) (c : stream_call) : res (Z * stdio) :=
  match c with
  | SMacro fp => getc_macro s fp
  | SSrget fp => srget true s fp
  | SFgetc fp => macify_fgetc s fp
  | SUngetc c fp => macify_ungetc c s fp
  | SSeek off whence fp => macify_fseeko off whence s fp
  | SClose fp => macify_fclose s fp
  | SOpen fd => macify_fdopen fd s
  end.

(** The real call on the real stream, as long as glibc leaves the stream where
    the shim expects it. *)
Definition clean_real (real : file P -> W -> Z * file P * W) (arms : Z -> bool) (k : clean) (fp : Z)
    : res (Z * clean) :=
  f ← of_option (cl_files k !! fp);
  let '(r, f, w) := real f (cl_world k) in
  if negb (bool_decide (well_placed f)) then Undef else
  Ok (r, Clean (<[fp := f]> (cl_files k))
           (if arms r && negb (is_glibc_standard fp) then cl_armed k ∪ {[fp]} else cl_armed k ∖ {[fp]}) w).

Definition not_eof (r : Z) : bool := negb (r =? EOF).

Definition clean_call (k : clean) (c : stream_call) : res (Z * clean) :=
  match c with
  | SMacro fp => if bool_decide (fp ∈ cl_armed k) then clean_real real_fgetc not_eof k fp else Undef
  | SSrget fp | SFgetc fp => clean_real real_fgetc not_eof k fp
  | SUngetc c fp => if is_glibc_standard fp then Undef else clean_real (real_ungetc c) not_eof k fp
  | SSeek off whence fp => clean_real (real_fseeko off whence) (fun _ => false) k fp
  | SClose fp =>
      f ← of_option (cl_files k !! fp);
      let '(r, new_errno, w) := real_fclose f (cl_world k) in
      Ok (if (r =? EOF) && (is_glibc_standard fp || (new_errno =? EINVAL)) then 0 else r,
          Clean (delete fp (cl_files k)) (cl_armed k ∖ {[fp]}) w)
  | SOpen fd =>
      match real_fdopen (dom (cl_files k)) fd (cl_world k) with
      | (None, w) => Ok (0, Clean (cl_files k) (cl_armed k) w)
      | (Some (fp, f), w) =>
          if bool_decide (well_placed f) && (size (cl_files k) <? MACIFY_MAX_SAVED_FPS)%nat then
            Ok (fp, Clean (<[fp := f]> (cl_files k))
                      (if is_glibc_standard fp then cl_armed k ∖ {[fp]} else cl_armed k ∪ {[fp]}) w)
          else Undef
      end
  end.

Fixpoint run_calls {S : Type} (call : S -> stream_call -> res (Z * S)) (s : S) (cs : list stream_call)
    : res (list Z * S) :=
  match cs with
  | [] => Ok ([], s)
  | c :: cs => '(r, s) ← call s c; '(rs, s) ← run_calls call s cs; Ok (r :: rs, s)
  end.

(** What is used of glibc: a push-back that fails changes nothing, and a new
    stream is at an address no open stream has. *)
Record glibc_laws : Prop := {
  ungetc_fails : forall c f w, (real_ungetc c f w).1.1 = EOF -> (real_ungetc c f w).1.2 = f;
  fdopen_fresh : forall fps fd w fp f,
    (real_fdopen fps fd w).1 = Some (fp, f) -> fp ∉ fps
}.

(** ** The simulation *)

(** The shim's streams are glibc's, except that a read pointer may be
    overwritten if the table has it; where the macro may be used, the counter
    is -1. *)
Record agrees (s : stdio) (k : clean) : Prop := {
  ag_world : world s = cl_world k;
  ag_dom : dom (files s) = dom (cl_files k);
  ag_file : forall fp f, cl_files k !! fp = Some f ->
    exists ptr, files s !! fp = Some (set_read_ptr f ptr) /\
      default ptr (find_saved fp (saved_fps s)) = io_read_ptr f /\
      (fp ∈ cl_armed k -> get_r (set_read_ptr f ptr) = -1 /\ find_saved fp (saved_fps s) <> None);
  ag_placed : forall fp f, cl_files k !! fp = Some f -> well_placed f;
  ag_table : table_ok (saved_fps s) (dom (cl_files k));
  ag_room : (size (cl_files k) <= MACIFY_MAX_SAVED_FPS)%nat
}.

Section simulation.
  Context (Hlaws : glibc_laws) (Hpatched : getc_patched mode = false) (Hskip : skip_r_patch mode = false).

Lemma poison_spec s fp f :
  files s !! fp = Some f ->
  poison s fp = Ok (if is_glibc_standard fp then s else put_file s fp (set_r f (-1))).
Proof.
  intros Hf. unfold poison, get_file. rewrite Hpatched, Hskip, Hf. cbn. by destruct (is_glibc_standard fp).
Qed.

Lemma unless_patched_spec r (s : stdio) : unless_patched r s = r.
Proof. unfold unless_patched. by rewrite Hpatched. Qed.

Lemma restore_clean s k fp f :
  agrees s k -> cl_files k !! fp = Some f -> restore_read_ptr s fp = Ok (put_file s fp f).
Proof.
  intros Ha Hf. destruct (ag_file _ _ Ha _ _ Hf) as (ptr & Hs & Hd & _).
  unfold restore_read_ptr, get_file. rewrite Hs. cbn [of_option mbind res_bind].
  assert (match find_saved fp (saved_fps s) with Some p => set_read_ptr (set_read_ptr f ptr) p
          | None => set_read_ptr f ptr end = f) as ->.
  { destruct (find_saved fp (saved_fps s)) as [p|]; cbn in Hd; subst; cbn [set_read_ptr_set];
      [rewrite set_read_ptr_set|]; apply set_read_ptr_same. }
  by rewrite placed_settled by (eapply ag_placed; eauto).
Qed.

(** The state after a call on [fp]: its stream is [f'], its saved pointer the
    one of [f']; [armed] tells whether the counter is -1. *)
Lemma agrees_update s k fp f f' w tbl ptr armed :
  agrees s k -> cl_files k !! fp = Some f -> well_placed f' ->
  default ptr (find_saved fp tbl) = io_read_ptr f' ->
  (forall q, q <> fp -> find_saved q tbl = find_saved q (saved_fps s)) ->
  table_ok tbl (dom (cl_files k)) ->
  (forall q, q <> fp -> q ∈ armed -> q ∈ cl_armed k) ->
  (fp ∈ armed -> get_r (set_read_ptr f' ptr) = -1 /\ find_saved fp tbl <> None) ->
  agrees (Stdio (<[fp := set_read_ptr f' ptr]> (files s)) tbl w)
         (Clean (<[fp := f']> (cl_files k)) armed w).
Proof.
  intros Ha Hf Hwp Htbl Hother Hok Harm Hr.
  assert (fp ∈ dom (cl_files k)) as HD by (by apply elem_of_dom_2 in Hf).
  assert (dom (<[fp := f']> (cl_files k)) = dom (cl_files k)) as Hdom.
  { rewrite dom_insert_L. set_solver. }
  split; cbn [world files saved_fps cl_files cl_armed cl_world].
  - done.
  - rewrite Hdom, dom_insert_L, (ag_dom _ _ Ha). set_solver.
  - intros q g. destruct (decide (q = fp)) as [->|Hq].
    + rewrite !lookup_insert_eq. intros [= <-]. exists ptr. auto.
    + rewrite !lookup_insert_ne by done. intros Hg.
      destruct (ag_file _ _ Ha _ _ Hg) as (p & H1 & H2 & H3). exists p. split; [done|].
      rewrite Hother by done. split; [done|]. intros Hin. apply H3. by apply Harm.
  - intros q g. destruct (decide (q = fp)) as [->|Hq].
    + rewrite lookup_insert_eq. by intros [= <-].
    + rewrite lookup_insert_ne by done. apply (ag_placed _ _ Ha).
  - by rewrite Hdom.
  - rewrite map_size_insert_Some by (by exists f). apply (ag_room _ _ Ha).
Qed.
(** A table that has the pointer of [f'] for [fp] and is otherwise that of [s]. *)
Definition saved_for (s : stdio) (k : clean) (fp ptr : Z) (tbl : list (option (Z * Z))) : Prop :=
  find_saved fp tbl = Some ptr /\ (forall q, q <> fp -> find_saved q tbl = find_saved q (saved_fps s)) /\
  table_ok tbl (dom (cl_files k)).

Lemma save_entry_saved s k fp f ptr :
  agrees s k -> cl_files k !! fp = Some f -> saved_for s k fp ptr (save_entry fp ptr (saved_fps s)).
Proof.
  intros Ha Hf. apply save_entry_spec; [apply Ha|by apply elem_of_dom_2 in Hf|].
  rewrite size_dom. apply Ha.
Qed.

Lemma save_entry_again s k fp f ptr tbl :
  agrees s k -> cl_files k !! fp = Some f -> saved_for s k fp ptr tbl ->
  saved_for s k fp ptr (save_entry fp ptr tbl).
Proof.
  intros Ha Hf (H1 & H2 & H3).
  destruct (save_entry_spec fp ptr tbl (dom (cl_files k)) H3) as (G1 & G2 & G3);
    [by apply elem_of_dom_2 in Hf|rewrite size_dom; apply Ha|].
  split_and!; [done| |done]. intros q Hq. by rewrite G2, H2.
Qed.

Lemma agrees_saved s k fp f f' w tbl :
  agrees s k -> cl_files k !! fp = Some f -> well_placed f' -> saved_for s k fp (io_read_ptr f') tbl ->
  agrees (Stdio (<[fp := f']> (files s)) tbl w) (Clean (<[fp := f']> (cl_files k)) (cl_armed k ∖ {[fp]}) w).
Proof.
  intros Ha Hf Hwp (H1 & H2 & H3). rewrite <- (set_read_ptr_same f') at 1.
  eapply agrees_update; eauto; [by rewrite H1|set_solver|set_solver].
Qed.

Lemma agrees_poisoned s k fp f f' w tbl :
  agrees s k -> cl_files k !! fp = Some f -> well_placed f' -> saved_for s k fp (io_read_ptr f') tbl ->
  agrees (Stdio (<[fp := set_r f' (-1)]> (files s)) tbl w)
         (Clean (<[fp := f']> (cl_files k)) (cl_armed k ∪ {[fp]}) w).
Proof.
  intros Ha Hf Hwp (H1 & H2 & H3). unfold set_r at 1. eapply agrees_update; eauto; [by rewrite H1|set_solver|].
  intros _. split; [exact (get_r_set_r f' (-1))|by rewrite H1].
Qed.

(** Both ways a call can end: with the counter at -1 or with the real pointer. *)
Lemma agrees_finished s k fp f f' w tbl (arm : bool) :
  agrees s k -> cl_files k !! fp = Some f -> well_placed f' -> saved_for s k fp (io_read_ptr f') tbl ->
  exists s', (if arm then poison (Stdio (<[fp := f']> (files s)) tbl w) fp
              else Ok (Stdio (<[fp := f']> (files s)) tbl w)) = Ok s' /\
    agrees s' (Clean (<[fp := f']> (cl_files k))
      (if arm && negb (is_glibc_standard fp) then cl_armed k ∪ {[fp]} else cl_armed k ∖ {[fp]}) w).
Proof.
  intros Ha Hf Hwp Hs. destruct arm; cbn [andb].
  - rewrite (poison_spec _ fp f') by apply lookup_insert_eq.
    destruct (is_glibc_standard fp); cbn [negb]; eexists; (split; [done|]); [by eapply agrees_saved|].
    unfold put_file. cbn [files saved_fps world]. rewrite insert_insert_eq. by eapply agrees_poisoned.
  - eexists. split; [done|]. by eapply agrees_saved.
Qed.

(** Restoring and calling glibc: it sees the stream it left. *)
Lemma restore_call {A} (real : file P -> W -> A * file P * W) s k fp f :
  agrees s k -> cl_files k !! fp = Some f ->
  (s ← restore_read_ptr s fp; call_real real s fp) =
    Ok ((real f (cl_world k)).1.1,
        Stdio (<[fp := (real f (cl_world k)).1.2]> (files s)) (saved_fps s) (real f (cl_world k)).2).
Proof.
  intros Ha Hf. rewrite (restore_clean s k fp f Ha Hf). cbn [mbind res_bind]. unfold call_real, get_file, put_file.
  cbn [files world saved_fps]. rewrite lookup_insert_eq, (ag_world _ _ Ha). cbn [of_option mbind res_bind].
  destruct (real f (cl_world k)) as [[r f'] w]. cbn. by rewrite insert_insert_eq.
Qed.

Lemma save_here s k fp f f' w tbl :
  agrees s k -> cl_files k !! fp = Some f ->
  save_read_ptr (Stdio (<[fp := f']> (files s)) tbl w) fp =
    Ok (Stdio (<[fp := f']> (files s)) (save_entry fp (io_read_ptr f') tbl) w).
Proof. intros Ha Hf. unfold save_read_ptr, get_file. cbn [files]. by rewrite lookup_insert_eq. Qed.

(** The macro's decrement does not go to zero or above, and changes only what
    [agrees] leaves open. *)
Lemma agrees_decrement s k fp :
  agrees s k -> fp ∈ cl_armed k -> fp ∈ dom (cl_files k) ->
  exists g, files s !! fp = Some g /\ i32 (get_r g - 1) = -2 /\
    agrees (put_file s fp (set_r g (-2))) (Clean (cl_files k) (cl_armed k ∖ {[fp]}) (cl_world k)).
Proof.
  intros Ha Harm [f Hf]%elem_of_dom. destruct (ag_file _ _ Ha _ _ Hf) as (ptr & Hs & Hd & Hr).
  destruct (Hr Harm) as [Hg Hsaved]. exists (set_read_ptr f ptr). split; [done|]. split; [by rewrite Hg|].
  destruct (find_saved fp (saved_fps s)) as [p|] eqn:Ep; [|done]. cbn in Hd. subst p.
  rewrite <- (insert_id (cl_files k) fp f) by done.
  unfold put_file. rewrite (ag_world _ _ Ha). unfold set_r at 1. rewrite set_read_ptr_set, (insert_id (cl_files k)) by done.
  rewrite <- (insert_id (cl_files k) fp f) at 1 by done.
  eapply agrees_update; eauto; [by eapply ag_placed|by rewrite Ep|apply Ha|set_solver|set_solver].
Qed.

(** ** Each call *)

Lemma sim_read s k fp r k' :
  agrees s k -> clean_real real_fgetc not_eof k fp = Ok (r, k') ->
  (exists s', srget true s fp = Ok (r, s') /\ agrees s' k') /\
  (exists s', macify_fgetc s fp = Ok (r, s') /\ agrees s' k').
Proof.
  intros Ha. unfold clean_real. destruct (cl_files k !! fp) as [f|] eqn:Hf; [|done]. cbn [of_option mbind res_bind].
  pose proof (restore_call real_fgetc s k fp f Ha Hf) as Hrc.
  destruct (real_fgetc f (cl_world k)) as [[c f'] w]. cbn in Hrc. case_bool_decide as Hwp; [|done]. intros [= <- <-].
  pose proof (save_entry_saved s k fp f (io_read_ptr f') Ha Hf) as Hsv.
  pose proof (save_entry_again s k fp f _ _ Ha Hf Hsv) as Hsv2.
  split.
  - unfold srget. rewrite !unless_patched_spec. 
    destruct (restore_read_ptr s fp) as [s1| |]; cbn [mbind res_bind] in Hrc |- *; [|done|done]. rewrite Hrc. cbn [mbind res_bind].
    rewrite unless_patched_spec, (save_here s k fp f) by done. cbn [mbind res_bind].
    rewrite Hpatched, Hskip, andb_true_r. cbn [negb]. rewrite !andb_true_r.
    destruct (agrees_finished s k fp f f' w _ true Ha Hf Hwp Hsv2) as (s' & E' & Ha').
    destruct (agrees_finished s k fp f f' w _ false Ha Hf Hwp Hsv) as (s2 & E2 & Ha2). cbn [andb] in Ha2, Ha'.
    unfold not_eof. destruct (c =? EOF); cbn [negb andb].
    + injection E2 as <-. eexists. split; [done|]. exact Ha2.
    + destruct (is_glibc_standard fp); cbn [negb].
      * injection E2 as <-. eexists. split; [done|]. exact Ha2.
      * rewrite (save_here s k fp f) by done. cbn [mbind res_bind]. rewrite E'. eexists. split; [done|]. exact Ha'.
  - unfold macify_fgetc. rewrite !unless_patched_spec.
    destruct (restore_read_ptr s fp) as [s1| |]; cbn [mbind res_bind] in Hrc |- *; [|done|done]. rewrite Hrc. cbn [mbind res_bind].
    rewrite unless_patched_spec, (save_here s k fp f) by done. cbn [mbind res_bind].
    destruct (agrees_finished s k fp f f' w _ (not_eof c) Ha Hf Hwp Hsv) as (s' & E' & Ha').
    unfold not_eof in *. destruct (c =? EOF); cbn [negb] in *; rewrite E'; cbn [mbind res_bind]; eauto.
Qed.
Lemma sim_ungetc s k c fp r k' :
  agrees s k -> is_glibc_standard fp = false -> clean_real (real_ungetc c) not_eof k fp = Ok (r, k') ->
  exists s', macify_ungetc c s fp = Ok (r, s') /\ agrees s' k'.
Proof.
  intros Ha Hstd. unfold clean_real. destruct (cl_files k !! fp) as [f|] eqn:Hf; [|done]. cbn [of_option mbind res_bind].
  pose proof (restore_call (real_ungetc c) s k fp f Ha Hf) as Hrc.
  pose proof (ungetc_fails Hlaws c f (cl_world k)) as Hfail.
  destruct (real_ungetc c f (cl_world k)) as [[x f'] w]. cbn in Hrc, Hfail.
  case_bool_decide as Hwp; [|done]. intros [= <- <-].
  pose proof (save_entry_saved s k fp f (io_read_ptr f') Ha Hf) as Hsv.
  unfold macify_ungetc. rewrite !unless_patched_spec.
  destruct (restore_read_ptr s fp) as [s1| |]; cbn [mbind res_bind] in Hrc |- *; [|done|done]. rewrite Hrc. cbn [mbind res_bind].
  rewrite Hpatched, Hskip, Hstd. cbn [negb]. rewrite !andb_true_r. unfold not_eof.
  destruct (Z.eqb_spec x EOF) as [->|Hx]; cbn [negb].
  - rewrite (Hfail eq_refl) in *. eexists. split; [done|]. rewrite <- (set_read_ptr_same f) at 1.
    eapply agrees_update; eauto; [|apply Ha|set_solver|set_solver].
    destruct (ag_file _ _ Ha _ _ Hf) as (ptr & _ & Hd & _). by destruct (find_saved fp (saved_fps s)).
  - rewrite (save_here s k fp f) by done. cbn [mbind res_bind].
    destruct (agrees_finished s k fp f f' w _ true Ha Hf Hwp Hsv) as (s' & E' & Ha').
    rewrite E'. rewrite Hstd in Ha'. eauto.
Qed.

Lemma sim_seek s k off whence fp r k' :
  agrees s k -> clean_real (real_fseeko off whence) (fun _ => false) k fp = Ok (r, k') ->
  exists s', macify_fseeko off whence s fp = Ok (r, s') /\ agrees s' k'.
Proof.
  intros Ha. unfold clean_real. destruct (cl_files k !! fp) as [f|] eqn:Hf; [|done]. cbn [of_option mbind res_bind].
  pose proof (restore_call (real_fseeko off whence) s k fp f Ha Hf) as Hrc.
  destruct (real_fseeko off whence f (cl_world k)) as [[x f'] w]. cbn in Hrc.
  case_bool_decide as Hwp; [|done]. intros [= <- <-].
  pose proof (save_entry_saved s k fp f (io_read_ptr f') Ha Hf) as Hsv.
  unfold macify_fseeko. rewrite !unless_patched_spec.
  destruct (restore_read_ptr s fp) as [s1| |]; cbn [mbind res_bind] in Hrc |- *; [|done|done]. rewrite Hrc. cbn [mbind res_bind].
  rewrite unless_patched_spec, (save_here s k fp f) by done. eexists. split; [done|]. by eapply agrees_saved.
Qed.

Lemma sim_close s k fp r k' :
  agrees s k -> clean_call k (SClose fp) = Ok (r, k') ->
  exists s', macify_fclose s fp = Ok (r, s') /\ agrees s' k'.
Proof.
  intros Ha. cbn [clean_call]. destruct (cl_files k !! fp) as [f|] eqn:Hf; [|done]. cbn [of_option mbind res_bind].
  unfold macify_fclose. rewrite (restore_clean s k fp f Ha Hf). cbn [mbind res_bind]. unfold get_file, put_file.
  cbn [files world saved_fps]. rewrite lookup_insert_eq, (ag_world _ _ Ha). cbn [of_option mbind res_bind].
  destruct (real_fclose f (cl_world k)) as [[x e] w]. intros [= <- <-]. eexists. split.
  { do 2 f_equal. destruct (x =? EOF) eqn:Ex, (is_glibc_standard fp), (e =? EINVAL); cbn; rewrite ?Ex; done. }
  destruct (drop_entry_spec fp (saved_fps s) (dom (cl_files k)) (ag_table _ _ Ha)) as [Hother Hok].
  split; cbn [world files saved_fps cl_files cl_armed cl_world].
  - done.
  - rewrite !dom_delete_L, dom_insert_L, (ag_dom _ _ Ha). set_solver.
  - intros q g [Hq Hg]%lookup_delete_Some. destruct (ag_file _ _ Ha _ _ Hg) as (p & H1 & H2 & H3).
    exists p. rewrite lookup_delete_ne, lookup_insert_ne, Hother by done. split; [done|]. split; [done|].
    intros Hin. apply H3. set_solver.
  - intros q g [_ Hg]%lookup_delete_Some. by apply (ag_placed _ _ Ha) in Hg.
  - by rewrite dom_delete_L.
  - etransitivity; [apply map_subseteq_size, delete_subseteq|apply Ha].
Qed.

(** A new stream, before its pointer is saved. *)
Lemma agrees_new s k fp f w :
  agrees s k -> cl_files k !! fp = None -> well_placed f -> (size (cl_files k) < MACIFY_MAX_SAVED_FPS)%nat ->
  agrees (Stdio (<[fp := f]> (files s)) (saved_fps s) w)
         (Clean (<[fp := f]> (cl_files k)) (cl_armed k ∖ {[fp]}) w).
Proof.
  intros Ha Hnew Hwp Hsize. pose proof (ag_table _ _ Ha) as [Hlen Hnd Ho].
  assert (find_saved fp (saved_fps s) = None) as Hnone.
  { destruct (find_saved fp (saved_fps s)) eqn:E; [|done]. exfalso.
    assert (fp ∈ entries (saved_fps s)) as Hin%Ho by (rewrite entries_find; by rewrite E).
    by apply not_elem_of_dom in Hnew. }
  split; cbn [world files saved_fps cl_files cl_armed cl_world].
  - done.
  - by rewrite !dom_insert_L, (ag_dom _ _ Ha).
  - intros q g. destruct (decide (q = fp)) as [->|Hq].
    + rewrite !lookup_insert_eq. intros [= <-]. exists (io_read_ptr f).
      rewrite set_read_ptr_same, Hnone. split; [done|]. split; [done|]. set_solver.
    + rewrite !lookup_insert_ne by done. intros Hg. destruct (ag_file _ _ Ha _ _ Hg) as (p & ? & ? & H3).
      exists p. split; [done|]. split; [done|]. intros Hin. apply H3. set_solver.
  - intros q g. destruct (decide (q = fp)) as [->|Hq]; [rewrite lookup_insert_eq; by intros [= <-]|].
    rewrite lookup_insert_ne by done. apply (ag_placed _ _ Ha).
  - split; [done|done|]. intros q Hq. rewrite dom_insert_L. specialize (Ho q Hq). set_solver.
  - rewrite map_size_insert_None by done. lia.
Qed.

Lemma sim_open s k fd r k' :
  agrees s k -> clean_call k (SOpen fd) = Ok (r, k') ->
  exists s', macify_fdopen fd s = Ok (r, s') /\ agrees s' k'.
Proof.
  intros Ha. cbn [clean_call]. unfold macify_fdopen. rewrite (ag_dom _ _ Ha), (ag_world _ _ Ha).
  pose proof (fdopen_fresh Hlaws (dom (cl_files k)) fd (cl_world k)) as Hfresh.
  destruct (real_fdopen (dom (cl_files k)) fd (cl_world k)) as [[[fp f]|] w]; cbn in Hfresh.
  2: { intros [= <- <-]. eexists. split; [done|]. by destruct Ha; split. }
  case_bool_decide as Hwp; [|done]. cbn [andb].
  destruct (Nat.ltb_spec (size (cl_files k)) MACIFY_MAX_SAVED_FPS) as [Hsize|]; [|done]. intros [= <- <-].
  pose proof (Hfresh fp f eq_refl) as Hnew. apply not_elem_of_dom in Hnew.
  pose proof (agrees_new s k fp f w Ha Hnew Hwp Hsize) as H1.
  assert (<[fp := f]> (cl_files k) !! fp = Some f) as Hf1 by apply lookup_insert_eq.
  pose proof (save_entry_saved _ _ fp f (io_read_ptr f) H1 Hf1) as Hsv. cbn [saved_fps] in Hsv.
  unfold save_read_ptr, get_file. cbn [files saved_fps world]. rewrite lookup_insert_eq. cbn [of_option mbind res_bind].
  rewrite Hskip. cbn [negb andb files]. destruct (is_glibc_standard fp) eqn:Hstd; cbn [negb].
  - eexists. split; [done|]. pose proof (agrees_saved _ _ fp f f w _ H1 Hf1 Hwp Hsv) as H2.
    cbn [files cl_files cl_armed] in H2. rewrite !insert_insert_eq in H2.
    by replace (cl_armed k ∖ {[fp]} ∖ {[fp]}) with (cl_armed k ∖ {[fp]} : gset Z) in H2 by set_solver.
  - rewrite lookup_insert_eq. cbn [of_option mbind res_bind]. eexists. split; [done|].
    pose proof (agrees_poisoned _ _ fp f f w _ H1 Hf1 Hwp Hsv) as H2. unfold put_file.
    cbn [files cl_files cl_armed saved_fps world] in H2 |- *. rewrite !insert_insert_eq in *.
    by replace (cl_armed k ∖ {[fp]} ∪ {[fp]}) with (cl_armed k ∪ {[fp]} : gset Z) in H2
      by (apply set_eq; intros q; destruct (decide (q = fp)); set_solver).
Qed.

Lemma sim_macro s k fp r k' :
  agrees s k -> clean_call k (SMacro fp) = Ok (r, k') ->
  exists s', getc_macro s fp = Ok (r, s') /\ agrees s' k'.
Proof.
  intros Ha. cbn [clean_call]. case_bool_decide as Harm; [|done]. intros E.
  assert (fp ∈ dom (cl_files k)) as HD.
  { unfold clean_real in E. destruct (cl_files k !! fp) eqn:Hf; [|done]. by apply elem_of_dom_2 in Hf. }
  destruct (agrees_decrement s k fp Ha Harm HD) as (g & Hg & Hr & Ha2).
  assert (clean_real real_fgetc not_eof (Clean (cl_files k) (cl_armed k ∖ {[fp]}) (cl_world k)) fp = Ok (r, k')) as E2.
  { rewrite <- E. unfold clean_real. cbn [cl_files cl_armed cl_world].
    destruct (cl_files k !! fp) as [f|]; [|done]. cbn [of_option mbind res_bind].
    destruct (real_fgetc f (cl_world k)) as [[c f'] w]. destruct (negb _); [done|]. do 3 f_equal.
    destruct (_ && _); apply set_eq; intros q; destruct (decide (q = fp)); set_solver. }
  destruct (proj1 (sim_read _ _ fp r k' Ha2 E2)) as (s' & Es & Ha').
  exists s'. split; [|done]. unfold getc_macro, get_file. rewrite Hpatched, Hg. cbn [of_option mbind res_bind].
  rewrite Hr. exact Es.
Qed.

Lemma sim_call s k c r k' :
  agrees s k -> clean_call k c = Ok (r, k') -> exists s', run_call s c = Ok (r, s') /\ agrees s' k'.
Proof.
  intros Ha E. destruct c; cbn [run_call].
  - by eapply sim_macro.
  - by apply (sim_read s k fp).
  - by apply (sim_read s k fp).
  - cbn [clean_call] in E. destruct (is_glibc_standard fp) eqn:Hs; [done|]. by eapply sim_ungetc.
  - by eapply sim_seek.
  - by eapply sim_close.
  - by eapply sim_open.
Qed.

Lemma sim_calls cs : forall s k rs k',
  agrees s k -> run_calls clean_call k cs = Ok (rs, k') ->
  exists s', run_calls run_call s cs = Ok (rs, s') /\ agrees s' k'.
Proof.
  induction cs as [|c cs IH]; intros s k rs k' Ha; cbn [run_calls].
  { intros [= <- <-]. eauto. }
  destruct (clean_call k c) as [[r k1]| |] eqn:E; cbn [mbind res_bind]; [|done|done].
  destruct (run_calls clean_call k1 cs) as [[rs1 k2]| |] eqn:E2; cbn [mbind res_bind]; [|done|done].
  intros [= <- <-]. destruct (sim_call s k c r k1 Ha E) as (s1 & Es & Ha1).
  destruct (IH s1 k1 rs1 k2 Ha1 E2) as (s2 & Es2 & Ha2). exists s2. split; [|done].
  rewrite Es. cbn [mbind res_bind]. by rewrite Es2.
Qed.
End simulation.

Lemma agrees_start fs w :
  (forall fp f, fs !! fp = Some f -> well_placed f) -> (size fs <= MACIFY_MAX_SAVED_FPS)%nat ->
  agrees (Stdio fs (replicate MACIFY_MAX_SAVED_FPS None) w) (Clean fs ∅ w).
Proof.
  intros Hwp Hsize. split; try done.
  - intros fp f Hf. exists (io_read_ptr f). rewrite set_read_ptr_same. split; [done|]. split; [done|]. set_solver.
  - split; cbn [saved_fps]; [by rewrite length_replicate|constructor|]. by intros fp ?%not_elem_of_nil.
Qed.

(** ** Properties *)


End streams.

Section restores.
  Context {P W : Type} (mode : stdio_mode) (is_glibc_standard : Z -> bool).

(** Restoring where the saved or kept pointer is [p], a userspace address. *)
Lemma restore_at (s : stdio (P := P) (W := W)) fp (f : file P) p :
  files s !! fp = Some f -> default (io_read_ptr f) (find_saved fp (saved_fps s)) = p -> 2 ^ 32 <= p < 2 ^ 47 ->
  restore_read_ptr s fp = Ok (put_file s fp (fix_read_end (set_read_ptr f p))) /\
  io_read_ptr (fix_read_end (set_read_ptr f p)) = p /\
  io_read_end (fix_read_end (set_read_ptr f p)) =
    if (io_read_end f <? p) || (io_read_end f - p >? 65536) then p else io_read_end f.
Proof.
  intros Hf Hp Hr. split.
  - unfold restore_read_ptr, get_file. rewrite Hf. cbn [of_option mbind res_bind].
    destruct (find_saved fp (saved_fps s)) as [q|]; cbn in Hp; subst; [done|]. by rewrite set_read_ptr_same.
  - unfold fix_read_end. cbn [set_read_ptr io_read_ptr io_read_end].
    assert (i64 p = p) as -> by (apply (signed_small 64); lia).
    assert (1 <= Z.shiftr p 32) by (rewrite Z.shiftr_div_pow2 by lia; apply Z.div_le_lower_bound; lia).
    replace (negb _ && negb _) with true by lia. by destruct (_ || _).
Qed.

(** When fread comes back empty it marks the end of file in
    the low byte of _IO_read_end.  The next call does not always undo that:
    glibc then gets the stream with its read pointer, but with 32 bytes that
    were never read left in the buffer, exactly if bits 5 and 6 of the
    pointer's address are clear. *)
Theorem fread_eof_mark (real_fread : Z -> Z -> file P -> W -> Z * file P * W) (size nmemb : Z) (s s1 : stdio (P := P) (W := W)) (fp p : Z) (f : file P) (f' : file P) (w : W) :
  getc_patched mode = false -> restore_read_ptr s fp = Ok (put_file s fp f) ->
  real_fread size nmemb f (world s) = (0, f', w) ->
  io_read_ptr f' = p -> io_read_end f' = p -> 2 ^ 32 <= p < 2 ^ 47 ->
  macify_fread mode is_glibc_standard real_fread size nmemb s fp = Ok (0, s1) ->
  exists s2 f2, restore_read_ptr s1 fp = Ok s2 /\ files s2 !! fp = Some f2 /\ io_read_ptr f2 = p /\
    io_read_end f2 = p + (if Z.testbit p 5 || Z.testbit p 6 then 0 else 32).
Proof.
  intros Hpat Hres Hreal Hp He Hr. unfold macify_fread, unless_patched. rewrite Hpat, Hres. cbn [mbind res_bind].
  unfold call_real, get_file, put_file, save_read_ptr, get_file. cbn [files world saved_fps].
  rewrite lookup_insert_eq. cbn [of_option mbind res_bind]. rewrite Hreal. cbn [mbind res_bind files saved_fps world].
  rewrite lookup_insert_eq. cbn [of_option mbind res_bind files]. rewrite lookup_insert_eq.
  cbn [of_option mbind res_bind]. change (0 <? 0) with false. cbn [andb]. intros [= <-].
  set (g := fread_flags 0 f').
  assert (io_read_ptr g = p /\ io_read_end g = Z.land (Z.lor p 0x20) (Z.lnot 0x40)) as [Gp Ge].
  { unfold g, fread_flags, mark_eof. change (0 <? 0) with false. cbn. by rewrite Hp, He. }
  match goal with |- context [restore_read_ptr ?x fp] => set (s1 := x) end.
  destruct (restore_at s1 fp g p) as (E & E1 & E2); [apply lookup_insert_eq| |done|].
  { cbn [saved_fps s1]. rewrite Gp, Hp. apply save_find. }
  eexists _, _. split; [exact E|]. split; [apply lookup_insert_eq|]. split; [exact E1|].
  rewrite E2, Ge, mark_bits by lia. destruct (Z.testbit p 5), (Z.testbit p 6); cbn [orb];
    match goal with |- (if ?c then _ else _) = _ => destruct c eqn:? end; lia.
Qed.

(** A character pushed back is lost where the shim saves
    read pointers but does not overwrite them (standard streams, and all
    streams of a program without putc macros): the next read starts from the
    pointer saved before the push-back. *)
Theorem pushback_lost (real_ungetc : Z -> file P -> W -> Z * file P * W) (c : Z) (s s1 : stdio (P := P) (W := W)) (fp r ptr : Z) :
  getc_patched mode = false -> skip_r_patch mode = true \/ is_glibc_standard fp = true ->
  find_saved fp (saved_fps s) = Some ptr -> 2 ^ 32 <= ptr < 2 ^ 47 ->
  macify_ungetc real_ungetc mode is_glibc_standard c s fp = Ok (r, s1) ->
  exists s2 f2, restore_read_ptr s1 fp = Ok s2 /\ files s2 !! fp = Some f2 /\ io_read_ptr f2 = ptr.
Proof.
  intros Hpat Hmode Hsaved Hr. unfold macify_ungetc, unless_patched. rewrite Hpat.
  unfold restore_read_ptr at 1, get_file. destruct (files s !! fp) as [f|]; [|done]. cbn [of_option mbind res_bind].
  unfold call_real, get_file, put_file. cbn [files world saved_fps]. rewrite lookup_insert_eq.
  cbn [of_option mbind res_bind]. destruct (real_ungetc c _ _) as [[x f'] w]. cbn [mbind res_bind].
  replace (_ && negb (skip_r_patch mode) && negb (is_glibc_standard fp)) with false
    by (destruct Hmode as [-> | ->]; cbn [negb]; by rewrite ?andb_false_r).
  cbn [mbind res_bind]. intros [= <- <-].
  match goal with |- context [restore_read_ptr ?x fp] => set (s1 := x) end.
  destruct (restore_at s1 fp f' ptr) as (E & E1 & _); [apply lookup_insert_eq| |done|].
  { cbn [saved_fps s1]. by rewrite Hsaved. }
  eexists _, _. split; [exact E|]. split; [apply lookup_insert_eq|exact E1].
Qed.

End restores.

(** ** A glibc to try the wrappers on *)

(** A stream over a list of bytes that all fit into its buffer, which is at
    [io_read_base]; the rest of the process is the next free address. *)
Module Demo.

Definition placed (f : file (list Z)) : bool :=
  (2 ^ 32 <=? io_read_ptr f) && (io_read_ptr f <? 2 ^ 47) && (io_read_ptr f <=? io_read_end f) &&
  (io_read_end f <=? io_read_ptr f + 65536).

(** Move the read pointer to [ptr] if glibc would. *)
Definition move (r : Z) (ptr : Z) (f : file (list Z)) (w : Z) : Z * file (list Z) * Z :=
  if (io_read_base f <=? ptr) && placed (set_read_ptr f ptr) then (r, set_read_ptr f ptr, w) else (EOF, f, w).

Definition fgetc (f : file (list Z)) (w : Z) : Z * file (list Z) * Z :=
  move (nth (Z.to_nat (io_read_ptr f - io_read_base f)) (file_rest f) 0) (io_read_ptr f + 1) f w.

Definition ungetc (c : Z) (f : file (list Z)) (w : Z) : Z * file (list Z) * Z :=
  if c =? EOF then (EOF, f, w) else move c (io_read_ptr f - 1) f w.

Definition fseeko (off whence : Z) (f : file (list Z)) (w : Z) : Z * file (list Z) * Z :=
  move 0 (io_read_base f + off) f w.

Definition fread (n m : Z) (f : file (list Z)) (w : Z) : Z * file (list Z) * Z :=
  (0, set_read_ptr f (io_read_end f), w).

Definition fclose (f : file (list Z)) (w : Z) : Z * Z * Z := (0, 0, w).

Definition stream (base : Z) (bs : list Z) : file (list Z) :=
  File 0xfbad2488 base (base + Z.of_nat (length bs)) base 0 0 base bs.

Definition fdopen (fps : gset Z) (fd w : Z) : option (Z * file (list Z)) * Z :=
  (if bool_decide (w ∈ fps) then None else Some (w, stream (2 ^ 40) [10; 20; 30]), w + 1).

Lemma placed_well f : placed f = true -> well_placed f.
Proof. unfold placed, well_placed. lia. Qed.

Lemma laws : glibc_laws ungetc fdopen.
Proof.
  split.
  - intros c f w. unfold ungetc. destruct (Z.eqb_spec c EOF); [done|]. unfold move. by destruct (_ && _).
  - intros fps fd w fp f. unfold fdopen. cbn. case_bool_decide as H; [done|]. by intros [= <- <-].
Qed.

(** One stream, 65 66 67 at 2^33. *)
Definition files0 : gmap Z (file (list Z)) := {[ 5 := stream (2 ^ 33) [65; 66; 67] ]}.

Definition calls : list stream_call :=
  [SFgetc 5; SMacro 5; SUngetc 66 5; SMacro 5; SOpen 3; SSrget 9; SMacro 9; SSeek 0 0 5; SFgetc 5; SMacro 5; SClose 5].

Definition unpatched : stdio_mode := StdioMode false false.
Definition functions_only : stdio_mode := StdioMode false true.

End Demo.


Lemma fread_eof_mark_witness :
  exists s2 f2, restore_read_ptr (Stdio {[ 5 := mark_eof (Demo.stream (2 ^ 33) []) ]}
      (Some (5, 2 ^ 33) :: replicate 15 None) 9) 5 = Ok s2 /\
    files s2 !! 5 = Some f2 /\ io_read_ptr f2 = 2 ^ 33 /\ io_read_end f2 = 2 ^ 33 + 32.
Proof.
  set (s := Stdio {[ 5 := Demo.stream (2 ^ 33) [] ]} (replicate MACIFY_MAX_SAVED_FPS None) 9).
  destruct (fread_eof_mark Demo.unpatched (fun _ => false) Demo.fread 1 8 s
    (Stdio {[ 5 := mark_eof (Demo.stream (2 ^ 33) []) ]} (Some (5, 2 ^ 33) :: replicate 15 None) 9)
    5 (2 ^ 33) (Demo.stream (2 ^ 33) []) (Demo.stream (2 ^ 33) []) 9) as (s2 & f2 & H1 & H2 & H3 & H4);
    [reflexivity|vm_compute; reflexivity|reflexivity|reflexivity|reflexivity|lia| |].
  { vm_compute. reflexivity. }
  exists s2, f2. split; [exact H1|]. split; [exact H2|]. split; [exact H3|exact H4].
Defined.

(** Reading 65, pushing it back and reading again gives 66. *)
Lemma pushback_lost_witness :
  let calls := [SFgetc 5; SUngetc 65 5; SFgetc 5] in
  (exists s, run_calls (run_call Demo.fgetc Demo.ungetc Demo.fseeko Demo.fclose Demo.fdopen Demo.functions_only
      (fun _ => false)) (Stdio Demo.files0 (replicate MACIFY_MAX_SAVED_FPS None) 9) calls = Ok ([65; 65; 66], s)) /\
  exists s2 f2, restore_read_ptr (Stdio Demo.files0 (Some (5, 2 ^ 33 + 1) :: replicate 15 None) 9) 5 = Ok s2 /\
    files s2 !! 5 = Some f2 /\ io_read_ptr f2 = 2 ^ 33 + 1.
Proof.
  split; [eexists; vm_compute; reflexivity|].
  eapply (pushback_lost Demo.functions_only (fun _ => false) Demo.ungetc 65
    (Stdio {[ 5 := set_read_ptr (Demo.stream (2 ^ 33) [65; 66; 67]) (2 ^ 33 + 1) ]}
      (Some (5, 2 ^ 33 + 1) :: replicate 15 None) 9) _ 5 65 (2 ^ 33 + 1) eq_refl (or_introl eq_refl) eq_refl).
  - lia.
  - vm_compute. reflexivity.
Defined.

(** The macro right after a seek reads through the flags, if the pointer's low
    half is positive. *)
Lemma macro_after_seek :
  run_calls (run_call Demo.fgetc Demo.ungetc Demo.fseeko Demo.fclose Demo.fdopen Demo.unpatched (fun _ => false))
    (Stdio {[ 5 := Demo.stream (2 ^ 33 + 16) [65] ]} (replicate MACIFY_MAX_SAVED_FPS None) 9)
    [SFgetc 5; SSeek 0 0 5; SMacro 5] = Undef.
Proof. vm_compute. reflexivity. Qed.
