(* ===== verification/ShimProc.v ===== *)
(** * Processes, pipes and fopen (src/shim/io/process.c)

    The read wrapper that keeps SIGCHLD away from terminal reads, fopen,
    msync, the exec calls with argument lists, system, popen and pclose.
    Calls of the host are values of [proc_call]; what they return is an
    argument.  Trace output is left out, and so is the branch for macOS FILE
    structures, to which no code switches. *)
From Stdlib Require Import ZArith Lia Bool Ascii.
From stdpp Require Import base gmap list strings numbers.
From S2P Require Import Prelude PrefixPath ShimCore ShimSignal ShimExec ShimFile.

(** ** [macify_read] *)

(** [kernel_read] is the real read; it runs with the signal state it is
    given.  [block_mask] has SIGCHLD (17) only.  The result, its errno for a
    guest, and the signal state. *)
Definition macify_read (kernel_read : sig_state -> Z * Z) (is_tty : bool) (st : sig_state)
    : Z * Z * sig_state :=
  let '(old_mask, st) :=
    if is_tty then let '(_, old, st) := real_pthread_sigmask 0 (Some (2 ^ 16)) st in (old, st) else (0, st) in
  let '(r, errno) := kernel_read st in
  let errno := if r =? -1 then linux_to_macos_errno errno else errno in
  let st := if is_tty then (real_pthread_sigmask 2 (Some old_mask) st).2 else st in
  (r, errno, st).

(** ** [macify_fopen] *)

Definition is_xdigit (c : ascii) : bool :=
  let n := Z.of_nat (nat_of_ascii c) in
  ((48 <=? n) && (n <=? 57)) || ((65 <=? n) && (n <=? 70)) || ((97 <=? n) && (n <=? 102)).

(** The value of a hexadecimal digit: [strtol] on one that a slash follows. *)
Definition xdigit_value (c : ascii) : Z :=
  let n := Z.of_nat (nat_of_ascii c) in
  if n <=? 57 then n - 48 else if n <=? 70 then n - 55 else n - 87.

(** What is behind the first occurrence of [pat] in [s], with what is before
    and in it ([strstr]). *)
Fixpoint after_first (pat : string) (s : string) : option (string * string) :=
  if starts_with pat s then Some (pat, sdrop (String.length pat) s) else
  match s with
  | EmptyString => None
  | String c s => match after_first pat s with Some (a, b) => Some (String c a, b) | None => None end
  end.

(** [alt_path]: the hexadecimal directory of a terminfo path as a letter. *)
Definition terminfo_alternative (eff : string) : option string :=
  match after_first "/terminfo/" eff with
  | Some (before, String c (String d rest)) =>
      if (d =? "/")%char && is_xdigit c then
        let dir := xdigit_value c in
        if (97 <=? dir) && (dir <=? 122)
        then Some (snprintf 4096 (before +:+ String (ascii_of_nat (Z.to_nat dir)) (String "/" rest))) else None
      else None
  | _ => None
  end.

Section fopen.
  Context {W F : Type} (real_fopen : string -> string -> W -> option F * W).

(** [None] with ENOENT for a hidden path; the state of the machine. *)
Definition macify_fopen (p : process) (path : string) (mode : string) (w : W) : option F * W :=
  if hidden p (Some path) then (None, w) else
  let eff := host_path p path in
  match real_fopen eff mode w with
  | (Some _, w) => real_fopen eff mode w
  | (None, w) =>
      match terminfo_alternative eff with
      | Some alt => match real_fopen alt mode w with
                    | (Some fp, w) => (Some fp, w)
                    | (None, w) => real_fopen eff mode w
                    end
      | None => real_fopen eff mode w
      end
  end.
End fopen.

(** ** [macify_msync] *)

(** The call made; EINVAL and ENOMEM become success. *)
Definition msync_range (ps addr length : Z) : Z * Z :=
  let adj := addr mod ps in (addr - adj, u64 (length + adj)).

Definition msync_result (r errno : Z) : Z :=
  if (r =? -1) && ((errno =? 22) || (errno =? 12)) then 0 else r.

(** ** The exec calls with argument lists *)

Definition E2BIG : Z := 7.

(** [exec_fill_argv] on the arguments up to the NULL: [None] is E2BIG. *)
Fixpoint fill_argv (max n : nat) (args : list string) : option (list string) :=
  match args with
  | [] => Some []
  | a :: args => if (max - 1 <=? n)%nat then None
                 else match fill_argv max (S n) args with Some l => Some (a :: l) | None => None end
  end.

Definition exec_fill_argv (args : list string) : option (list string) := fill_argv MACIFY_EXEC_MAX_ARGS 0 args.

Definition macify_execv (h : host) (p : process) (path : option string) (argv : arguments) : exec_outcome :=
  macify_do_execve h p path argv (Some (p_environ p)).

Definition macify_execl (h : host) (p : process) (path : option string) (args : list string) : exec_outcome :=
  match exec_fill_argv args with
  | None => Failed E2BIG
  | Some argv => macify_do_execve h p path (Some argv) (Some (p_environ p))
  end.

Definition macify_execlp (h : host) (p : process) (file : option string) (args : list string)
    : process * exec_outcome :=
  match exec_fill_argv args with
  | None => (p, Failed E2BIG)
  | Some argv => macify_do_execvp h p file (Some argv) (Some (p_environ p))
  end.

(** ** system, popen and pclose *)

(** What is asked of the host, in order. *)
Inductive proc_call :=
| PClose (fd : Z) | PDup2 (old new : Z) | PFdopen (fd f : Z) | PKill (pid : Z) | PWait (pid : Z)
| PFclose (f : Z) | PExecSh (command : string) | PExit (code : Z).

(** [waitpid] in a loop while it fails with EINTR: [answers] are its results
    and errno in turn, [statuses] what it stores; [st] is not initialised. *)
Fixpoint wait_child (answers : list (Z * Z * Z)) : res Z :=
  match answers with
  | [] => NoFuel
  | (r, errno, status) :: answers =>
      if (r <? 0) && (errno =? 4) then wait_child answers
      else if r <? 0 then Undef else Ok status
  end.

(** [macify_system] with a command: the child's calls or the parent's result. *)
Definition macify_system (command : string) (fork_result : Z) (answers : list (Z * Z * Z))
    : list proc_call * res Z :=
  if fork_result <? 0 then ([], Ok (-1))
  else if fork_result =? 0 then ([PExecSh command; PExit 127], Ok 0)
  else ([PWait fork_result], wait_child answers).

(** The table [popen_table]: the entries below [popen_count], and the room. *)
Record popen_state := PopenState { popen_table : list (Z * Z); popen_cap : nat }.

Definition grow (cap : nat) : nat := if (cap =? 0)%nat then 16%nat else (cap * 2)%nat.

(** [fds] is what pipe stores, or [None]; then the results of fork, fdopen (0
    is NULL) and realloc.  The calls made, the stream returned, the table. *)
Definition macify_popen (cmd : string) (reading : bool) (fds : option (Z * Z)) (fork_result f : Z)
    (realloc_ok : bool) (st : popen_state) : list proc_call * Z * popen_state :=
  match fds with
  | None => ([], 0, st)
  | Some (fd0, fd1) =>
      if fork_result <? 0 then ([PClose fd0; PClose fd1], 0, st)
      else if fork_result =? 0 then
        ([if reading then PDup2 fd1 1 else PDup2 fd0 0; PClose fd0; PClose fd1; PExecSh cmd; PExit 127], 0, st)
      else
        let mine := if reading then fd0 else fd1 in
        let other := if reading then fd1 else fd0 in
        let opened := [PClose other; PFdopen mine f] in
        if f =? 0 then (opened ++ [PClose mine; PKill fork_result; PWait fork_result], 0, st) else
        if (length (popen_table st) =? popen_cap st)%nat && negb realloc_ok
        then (opened ++ [PKill fork_result; PWait fork_result; PFclose f], 0, st)
        else
          let cap := if (length (popen_table st) =? popen_cap st)%nat then grow (popen_cap st) else popen_cap st in
          (opened, f, PopenState (popen_table st ++ [(f, fork_result)]) cap)
  end.

(** The first entry of [stream], and the table with the last entry in its
    place. *)
Fixpoint take_entry (stream : Z) (tbl : list (Z * Z)) : option (Z * list (Z * Z)) :=
  match tbl with
  | [] => None
  | (f, pid) :: rest =>
      if f =? stream then
        Some (pid, match list.last rest with
                   | Some e => e :: take (length rest - 1) rest
                   | None => []
                   end)
      else match take_entry stream rest with
           | Some (pid', rest') => Some (pid', (f, pid) :: rest')
           | None => None
           end
  end.

Definition macify_pclose (stream fclose_result : Z) (answers : list (Z * Z * Z)) (st : popen_state)
    : list proc_call * res Z * popen_state :=
  match take_entry stream (popen_table st) with
  | None => ([PFclose stream], Ok (-1), st)
  | Some (pid, tbl) => ([PFclose stream; PWait pid], wait_child answers, PopenState tbl (popen_cap st))
  end.

(** ** Lemmas *)

Lemma xdigit_small c : is_xdigit c = true -> 0 <= xdigit_value c <= 15.
Proof.
  unfold is_xdigit, xdigit_value. cbv zeta. intros H.
  destruct (Z.leb_spec (Z.of_nat (nat_of_ascii c)) 57); [lia|].
  destruct (Z.leb_spec (Z.of_nat (nat_of_ascii c)) 70); lia.
Qed.

(** The directory is one digit, whose value is not a letter. *)
Lemma terminfo_never eff : terminfo_alternative eff = None.
Proof.
  unfold terminfo_alternative. destruct (after_first _ eff) as [[before [|c [|d rest]]]|]; try done.
  destruct (_ && is_xdigit c) eqn:E; [|done]. apply andb_true_iff in E as [_ E]. apply xdigit_small in E.
  by replace (97 <=? xdigit_value c) with false by lia.
Qed.

Lemma fill_argv_spec max args : forall n,
  fill_argv max n args = if (length args <=? max - 1 - n)%nat then Some args else None.
Proof.
  induction args as [|a args IH]; intros n; cbn [fill_argv length].
  - by replace (0 <=? max - 1 - n)%nat with true by (symmetry; apply Nat.leb_le; lia).
  - rewrite IH. destruct (Nat.leb_spec (max - 1) n), (Nat.leb_spec (S (length args)) (max - 1 - n)); try lia; [done| |].
    + by replace (length args <=? max - 1 - S n)%nat with true by (symmetry; apply Nat.leb_le; lia).
    + by replace (length args <=? max - 1 - S n)%nat with false by (symmetry; apply Nat.leb_gt; lia).
Qed.

Lemma take_entry_None stream tbl : take_entry stream tbl = None <-> stream ∉ tbl.*1.
Proof.
  induction tbl as [|[f pid] tbl IH]; cbn [take_entry].
  - split; [by intros _ ?%not_elem_of_nil|done].
  - rewrite fmap_cons, not_elem_of_cons, <- IH. cbn [fst]. destruct (Z.eqb_spec f stream) as [->|Hf].
    + split; [done|by intros [[] _]].
    + destruct (take_entry stream tbl) as [[? ?]|]; [split; [done|by intros [_ ?]]|].
      split; [intros _; split; [congruence|done]|done].
Qed.

(** What is left is the table without the entry, in some order. *)
Lemma take_entry_Some stream tbl pid tbl' :
  take_entry stream tbl = Some (pid, tbl') -> tbl ≡ₚ (stream, pid) :: tbl'.
Proof.
  revert pid tbl'. induction tbl as [|[f q] rest IH]; intros pid tbl'; cbn [take_entry]; [done|].
  destruct (Z.eqb_spec f stream) as [->|Hf].
  - intros [= <- <-]. apply perm_skip. destruct (list.last rest) as [e|] eqn:E.
    + apply list.last_Some in E as [l ->]. rewrite length_app. cbn [length].
      replace (length l + 1 - 1)%nat with (length l) by lia. rewrite take_app_length.
      by rewrite Permutation_app_comm.
    + by apply list.last_None in E as ->.
  - destruct (take_entry stream rest) as [[q' rest']|]; [|done]. intros [= <- <-].
    rewrite (IH _ _ eq_refl). apply perm_swap.
Qed.

(** What the host keeps for a process: its descriptors with the open files
    behind them, the descriptors of its streams, its children. *)
Record kernel := Kernel { k_fds : gmap Z Z; k_streams : gmap Z Z; k_children : gset Z }.

Definition k_do (c : proc_call) (k : kernel) : kernel :=
  match c with
  | PClose fd => Kernel (delete fd (k_fds k)) (k_streams k) (k_children k)
  | PDup2 old new => match k_fds k !! old with
                     | Some d => Kernel (<[new := d]> (k_fds k)) (k_streams k) (k_children k)
                     | None => k
                     end
  | PFdopen fd f => if f =? 0 then k else Kernel (k_fds k) (<[f := fd]> (k_streams k)) (k_children k)
  | PWait pid => Kernel (k_fds k) (k_streams k) (k_children k ∖ {[pid]})
  | PFclose f => match k_streams k !! f with
                 | Some fd => Kernel (delete fd (k_fds k)) (delete f (k_streams k)) (k_children k)
                 | None => k
                 end
  | PKill _ | PExecSh _ | PExit _ => k
  end.

Definition k_run (cs : list proc_call) (k : kernel) : kernel := fold_left (fun k c => k_do c k) cs k.

(** pipe has put its ends [rd] and [wr] on [fd0] and [fd1]; fork has given the
    parent a child. *)
Definition after_pipe (fd0 fd1 rd wr : Z) (k : kernel) : kernel :=
  Kernel (<[fd1 := wr]> (<[fd0 := rd]> (k_fds k))) (k_streams k) (k_children k).

Definition after_fork (pid : Z) (k : kernel) : kernel :=
  if 0 <? pid then Kernel (k_fds k) (k_streams k) (k_children k ∪ {[pid]}) else k.

(** ** Properties *)

(** The open streams and their children. *)
Definition registry (st : popen_state) : gmap Z Z := list_to_map (popen_table st).

Definition popen_ok (st : popen_state) : Prop :=
  NoDup (popen_table st).*1 /\ (length (popen_table st) <= popen_cap st)%nat.

Lemma registry_add (tbl : list (Z * Z)) (f pid : Z) :
  NoDup tbl.*1 -> f ∉ tbl.*1 ->
  NoDup (tbl ++ [(f, pid)]).*1 /\
  (list_to_map (tbl ++ [(f, pid)]) : gmap Z Z) = <[f := pid]> (list_to_map tbl).
Proof.
  intros Hnd Hf. assert (Hnd' : NoDup ((f, pid) :: tbl).*1) by (rewrite fmap_cons; by constructor).
  assert (HP : (f, pid) :: tbl ≡ₚ tbl ++ [(f, pid)]) by (by rewrite Permutation_app_comm).
  split; [by rewrite <- HP|]. symmetry. exact (list_to_map_proper (M := gmap Z) _ _ Hnd' HP).
Qed.

Lemma registry_take (tbl tbl' : list (Z * Z)) (stream pid : Z) :
  NoDup tbl.*1 -> take_entry stream tbl = Some (pid, tbl') ->
  NoDup tbl'.*1 /\ (length tbl' <= length tbl)%nat /\
  (list_to_map tbl : gmap Z Z) !! stream = Some pid /\
  (list_to_map tbl' : gmap Z Z) = delete stream (list_to_map tbl).
Proof.
  intros Hnd HP%take_entry_Some. rewrite (list_to_map_proper (M := gmap Z) _ _ Hnd HP).
  rewrite HP in Hnd |- *. rewrite fmap_cons in Hnd. pose proof (NoDup_cons_1_1 _ _ Hnd) as Hf; apply NoDup_cons_1_2 in Hnd. rewrite list_to_map_cons. cbn [length].
  split_and!; [done|lia|by rewrite lookup_insert_eq|].
  rewrite delete_insert_id; [done|]. by apply not_elem_of_list_to_map.
Qed.

(** The table behind popen and pclose is a map from streams
    to children.  popen that returns a stream adds it (with room made where
    the table was full), popen that fails leaves the map alone; pclose closes
    the stream, waits for exactly the child popen started for it and forgets
    it, and for any other stream fails without waiting; the table keeps its
    invariant. *)
Theorem popen_registry (cmd : string) (reading realloc_ok : bool) (fds : option (Z * Z)) (pid f : Z)
    (stream fclose_result : Z) (answers : list (Z * Z * Z)) (st : popen_state) :
  popen_ok st -> f ∉ dom (registry st) ->
  (let '(_, r, st') := macify_popen cmd reading fds pid f realloc_ok st in
   popen_ok st' /\
   registry st' = (if r =? 0 then registry st else <[r := pid]> (registry st)) /\ (r <> 0 -> r = f)) /\
  (let '(calls, r, st') := macify_pclose stream fclose_result answers st in
   popen_ok st' /\ registry st' = delete stream (registry st) /\
   match registry st !! stream with
   | Some child => calls = [PFclose stream; PWait child] /\ r = wait_child answers
   | None => calls = [PFclose stream] /\ r = Ok (-1)
   end).
Proof.
  intros [Hnd Hcap] Hf. unfold registry in *. rewrite dom_list_to_map_L, not_elem_of_list_to_set in Hf. split.
  - unfold macify_popen. destruct fds as [[fd0 fd1]|]; [|done].
    destruct (pid <? 0); [done|]. destruct (pid =? 0); [done|]. destruct (Z.eqb_spec f 0) as [|Hf0]; [done|].
    destruct (registry_add _ _ pid Hnd Hf) as [Hnd' Hreg].
    destruct (Nat.eqb_spec (length (popen_table st)) (popen_cap st)) as [Ec|Ec];
      destruct realloc_ok; cbn [andb negb]; try done;
      rewrite (proj2 (Z.eqb_neq f 0) Hf0); (split; [split; [done|]|done]); cbn [popen_table popen_cap];
      rewrite length_app; cbn [length]; unfold grow; try destruct (Nat.eqb_spec (popen_cap st) 0); lia.
  - unfold macify_pclose. destruct (take_entry stream (popen_table st)) as [[child tbl]|] eqn:E.
    + destruct (registry_take _ _ _ _ Hnd E) as (? & ? & -> & ?).
      split; [split; [done|cbn [popen_table popen_cap]; lia]|done].
    + apply take_entry_None in E. apply (not_elem_of_list_to_map_1 (M := gmap Z)) in E.
      rewrite E. by rewrite delete_id.
Qed.

(** popen gets its stream from fdopen, pclose gives the status of the child. *)
Lemma popen_registry_witness :
  let st := PopenState [(100, 7); (104, 8); (108, 9)] 3 in
  let '(_, r, st') := macify_popen "ls" true (Some (3, 4)) 10 112 true st in
  r = 112 /\ popen_cap st' = 6%nat /\ registry st' = <[112 := 10]> (registry st) /\
  registry (macify_pclose 100 0 [(7, 0, 256)] st).2 = delete 100 (registry st) /\
  (macify_pclose 100 0 [(-1, 4, 0); (7, 0, 256)] st).1 = ([PFclose 100; PWait 7], Ok 256) /\
  popen_table (macify_pclose 100 0 [(7, 0, 256)] st).2 = [(108, 9); (104, 8)].
Proof.
  cbv zeta.
  destruct (popen_registry "ls" true true (Some (3, 4)) 10 112 100 0 [(7, 0, 256)]
              (PopenState [(100, 7); (104, 8); (108, 9)] 3)) as [[_ [Hr _]] [_ [Hd _]]].
  - split; [|vm_compute; lia]. by apply (bool_decide_unpack _); vm_compute.
  - by apply (bool_decide_unpack _); vm_compute.
  - split_and!; [reflexivity|reflexivity|exact Hr|exact Hd|reflexivity|reflexivity].
Defined.

Lemma take_entry_new (tbl : list (Z * Z)) (f pid : Z) :
  f ∉ tbl.*1 -> exists tbl', take_entry f (tbl ++ [(f, pid)]) = Some (pid, tbl').
Proof.
  induction tbl as [|[g q] tbl IH]; intros Hf; cbn [take_entry app].
  - rewrite Z.eqb_refl. by eexists.
  - rewrite fmap_cons in Hf. apply not_elem_of_cons in Hf as [Hg Hf]. cbn [fst] in Hg.
    destruct (Z.eqb_spec g f) as [->|_]; [done|]. destruct (IH Hf) as [tbl' ->]. by eexists.
Qed.

Lemma pclose_new (tbl : list (Z * Z)) (f pid r : Z) (answers : list (Z * Z * Z)) (cap : nat) :
  f ∉ tbl.*1 ->
  (macify_pclose f r answers (PopenState (tbl ++ [(f, pid)]) cap)).1.1 = [PFclose f; PWait pid].
Proof. intros Hf. unfold macify_pclose. cbn [popen_table]. by destruct (take_entry_new _ _ pid Hf) as [? ->]. Qed.

Ltac run_calls := unfold k_run; cbn [fold_left k_do app k_fds k_streams k_children Z.eqb].

(** Popen and pclose give back what they take.  A popen that
    fails, at whichever of pipe, fork, fdopen and realloc, leaves the process
    with the descriptors, streams and children it had; one that succeeds adds
    one descriptor, one stream on it and one child; and pclose of that stream
    ends with everything as it was before. *)
Theorem popen_resources (cmd : string) (reading realloc_ok : bool) (fd0 fd1 rd wr pid f : Z)
    (st : popen_state) (k : kernel) :
  pid <> 0 -> fd0 <> fd1 -> fd0 ∉ dom (k_fds k) -> fd1 ∉ dom (k_fds k) ->
  f ∉ dom (k_streams k) -> pid ∉ k_children k -> f ∉ dom (registry st) ->
  let '(calls, r, st') := macify_popen cmd reading (Some (fd0, fd1)) pid f realloc_ok st in
  let k' := k_run calls (after_fork pid (after_pipe fd0 fd1 rd wr k)) in
  let mine := if reading then fd0 else fd1 in
  if r =? 0 then k' = k /\ st' = st else
  k' = Kernel (<[mine := if reading then rd else wr]> (k_fds k)) (<[f := mine]> (k_streams k))
              (k_children k ∪ {[pid]}) /\
  forall fclose_result answers,
    k_run (macify_pclose f fclose_result answers st').1.1 k' = k.
Proof.
  intros Hpid Hne Hd0%not_elem_of_dom Hd1%not_elem_of_dom Hs%not_elem_of_dom Hc Hf.
  unfold registry in Hf. rewrite dom_list_to_map_L, not_elem_of_list_to_set in Hf.
  assert (Hcs : (k_children k ∪ {[pid]}) ∖ {[pid]} = k_children k) by set_solver.
  destruct k as [fds ss cs]; cbn [k_fds k_streams k_children] in *.
  assert (H0 : delete fd0 (<[fd1 := wr]> (<[fd0 := rd]> fds)) = <[fd1 := wr]> fds).
  { rewrite delete_insert_ne, delete_insert_id; done. }
  assert (H1 : delete fd1 (<[fd1 := wr]> (<[fd0 := rd]> fds)) = <[fd0 := rd]> fds).
  { rewrite delete_insert_id; [done|]. by rewrite lookup_insert_ne. }
  assert (Hw : delete fd1 (<[fd1 := wr]> fds) = fds) by (by rewrite delete_insert_id).
  assert (Hr : delete fd0 (<[fd0 := rd]> fds) = fds) by (by rewrite delete_insert_id).
  unfold macify_popen, after_pipe, after_fork. cbn [k_fds k_streams k_children].
  destruct (Z.ltb_spec pid 0).
  { replace (0 <? pid) with false by lia. run_calls. by rewrite H0, Hw. }
  replace (0 <? pid) with true by lia. rewrite (proj2 (Z.eqb_neq pid 0) Hpid).
  destruct (Z.eqb_spec f 0) as [->|Hf0].
  { destruct reading; run_calls; rewrite Hcs; [by rewrite H1, Hr|by rewrite H0, Hw]. }
  destruct (_ && _).
  - destruct reading; run_calls; rewrite (proj2 (Z.eqb_neq f 0) Hf0); run_calls; rewrite lookup_insert_eq;
      run_calls; rewrite Hcs, (delete_insert_id ss) by done; [by rewrite H1, Hr|by rewrite H0, Hw].
  - rewrite (proj2 (Z.eqb_neq f 0) Hf0). split.
    + destruct reading; run_calls; rewrite (proj2 (Z.eqb_neq f 0) Hf0); run_calls; [by rewrite H1|by rewrite H0].
    + intros r answers. rewrite (pclose_new _ _ _ _ _ _ Hf).
      destruct reading; run_calls; rewrite (proj2 (Z.eqb_neq f 0) Hf0); run_calls; rewrite lookup_insert_eq;
        run_calls; rewrite Hcs, (delete_insert_id ss) by done; [by rewrite H1, Hr|by rewrite H0, Hw].
Qed.

(** A reading popen with descriptors 0 to 2 open, one that fails at fdopen. *)
Lemma popen_resources_witness :
  let k := Kernel {[0 := 50; 1 := 51; 2 := 52]} ∅ {[5]} in
  let st := PopenState [] 0 in
  k_run (macify_popen "ls" true (Some (3, 4)) 9 0 true st).1.1 (after_fork 9 (after_pipe 3 4 60 61 k)) = k /\
  k_fds (k_run (macify_popen "ls" true (Some (3, 4)) 9 100 true st).1.1 (after_fork 9 (after_pipe 3 4 60 61 k)))
  = <[3 := 60]> (k_fds k).
Proof.
  cbv zeta. set (k := Kernel _ _ _). set (st := PopenState _ _).
  assert (Hno : forall f : Z, f ∉ dom (registry st)) by (intros f; vm_compute; set_solver).
  split.
  - pose proof (popen_resources "ls" true true 3 4 60 61 9 0 st k ltac:(lia) ltac:(lia)
      ltac:(by apply (bool_decide_unpack _); vm_compute) ltac:(by apply (bool_decide_unpack _); vm_compute)
      ltac:(by apply (bool_decide_unpack _); vm_compute) ltac:(by apply (bool_decide_unpack _); vm_compute)
      (Hno 0)) as H.
    exact (proj1 H).
  - pose proof (popen_resources "ls" true true 3 4 60 61 9 100 st k ltac:(lia) ltac:(lia)
      ltac:(by apply (bool_decide_unpack _); vm_compute) ltac:(by apply (bool_decide_unpack _); vm_compute)
      ltac:(by apply (bool_decide_unpack _); vm_compute) ltac:(by apply (bool_decide_unpack _); vm_compute)
      (Hno 100)) as H.
    exact (f_equal k_fds (proj1 H)).
Defined.

(** What the child of popen runs on.  With the pipe away from
    descriptors 0 and 1 its standard output (reading) or input (writing) is
    the pipe's end and it holds no other end.  A process that had closed its
    standard output and gets 1 for the write end loses it: dup2 does nothing
    there and the close that follows leaves the child with no output. *)
Theorem popen_child_descriptors (cmd : string) (reading realloc_ok : bool) (fd0 fd1 rd wr f : Z)
    (st : popen_state) (k : kernel) :
  fd0 <> fd1 -> fd0 ∉ dom (k_fds k) -> fd1 ∉ dom (k_fds k) ->
  let child := k_fds (k_run (macify_popen cmd reading (Some (fd0, fd1)) 0 f realloc_ok st).1.1
                            (after_fork 0 (after_pipe fd0 fd1 rd wr k))) in
  (fd0 <> 0 -> fd0 <> 1 -> fd1 <> 0 -> fd1 <> 1 ->
   child = if reading then <[1 := wr]> (k_fds k) else <[0 := rd]> (k_fds k)) /\
  (reading = true -> fd1 = 1 -> child !! 1 = None) /\
  (reading = false -> fd0 = 0 -> child !! 0 = None).
Proof.
  intros Hne Hd0%not_elem_of_dom Hd1%not_elem_of_dom.
  unfold macify_popen, after_fork, after_pipe. cbn [Z.ltb Z.eqb Z.compare fst].
  destruct k as [fds ss cs]; cbn [k_fds k_streams k_children] in *.
  destruct reading; run_calls; [rewrite lookup_insert_eq|rewrite lookup_insert_ne, lookup_insert_eq by done]; run_calls;
    (split; [intros H00 H01 H10 H11; apply map_eq; intros i|split; intros Hr Hfd]; try discriminate Hr);
    rewrite ?lookup_delete, ?lookup_insert; repeat case_decide; congruence.
Qed.

(** Ends 3 and 4, and an output that was closed. *)
Lemma popen_child_descriptors_witness :
  let k := Kernel {[0 := 50; 1 := 51]} ∅ ∅ in
  let k1 := Kernel {[0 := 50]} ∅ ∅ in
  k_fds (k_run (macify_popen "ls" true (Some (3, 4)) 0 0 true (PopenState [] 0)).1.1
               (after_fork 0 (after_pipe 3 4 60 61 k))) = {[0 := 50; 1 := 61]} /\
  k_fds (k_run (macify_popen "ls" true (Some (2, 1)) 0 0 true (PopenState [] 0)).1.1
               (after_fork 0 (after_pipe 2 1 60 61 k1))) !! 1 = None.
Proof.
  split.
  - refine (eq_trans (proj1 (popen_child_descriptors "ls" true true 3 4 60 61 0 (PopenState [] 0) _ _ _ _) _ _ _ _) _);
      try lia; try (by apply (bool_decide_unpack _); vm_compute).
  - exact (proj1 (proj2 (popen_child_descriptors "ls" true true 2 1 60 61 0 (PopenState [] 0)
      (Kernel {[0 := 50]} ∅ ∅) ltac:(lia) ltac:(by apply (bool_decide_unpack _); vm_compute)
      ltac:(by apply (bool_decide_unpack _); vm_compute))) eq_refl eq_refl).
Defined.

(** Fopen opens the translated file twice and returns the
    second stream, whatever the first call gave; the retry for terminfo
    directories named in hexadecimal is never taken, since it asks for one
    digit whose value is a letter.  So an exclusive open ("wx"), which can
    succeed only once, always fails. *)
Theorem fopen_opens_twice {W F : Type} (real_fopen : string -> string -> W -> option F * W)
    (p : process) (path mode : string) (w : W) :
  hidden p (Some path) = false ->
  let eff := host_path p path in
  macify_fopen real_fopen p path mode w = real_fopen eff mode (real_fopen eff mode w).2.
Proof.
  intros Hh. unfold macify_fopen. rewrite Hh, terminfo_never. cbv zeta.
  by destruct (real_fopen _ mode w) as [[?|] ?].
Qed.

(** A file system where an open creates and a second exclusive one fails, and
    the streams it has open. *)
Definition demo_wx (path mode : string) (w : list string * nat) : option nat * (list string * nat) :=
  if decide (path ∈ w.1) then (None, w) else (Some w.2, (path :: w.1, S w.2)).

Lemma fopen_opens_twice_witness :
  let p := Process [] None in
  macify_fopen demo_wx p "/tmp/lock" "wx" ([], 0%nat) = (None, (["/tmp/lock"]%string, 1%nat)).
Proof. exact (fopen_opens_twice demo_wx (Process [] None) "/tmp/lock" "wx" ([], 0%nat) eq_refl). Defined.

(** The exec calls with a list of arguments pass it on unchanged, or fail
    with E2BIG from 1024 arguments on. *)
Lemma execl_arguments (h : host) (p : process) (path : option string) (args : list string) :
  macify_execl h p path args =
    (if (length args <? MACIFY_EXEC_MAX_ARGS)%nat
     then macify_execv h p path (Some args) else Failed E2BIG) /\
  macify_execlp h p path args =
    (if (length args <? MACIFY_EXEC_MAX_ARGS)%nat
     then macify_do_execvp h p path (Some args) (Some (p_environ p)) else (p, Failed E2BIG)).
Proof.
  unfold macify_execl, macify_execlp, exec_fill_argv. rewrite fill_argv_spec, Nat.sub_0_r.
  assert (Hm : (1 <= MACIFY_EXEC_MAX_ARGS)%nat) by (apply Nat.leb_le; reflexivity).
  destruct (Nat.leb_spec (length args) (MACIFY_EXEC_MAX_ARGS - 1)), (Nat.ltb_spec (length args) MACIFY_EXEC_MAX_ARGS);
    (lia || done).
Qed.

(** The status of a child is what waitpid stored, after any number of
    interruptions; it is read uninitialised when waitpid fails otherwise. *)
Lemma wait_child_spec (n : nat) (r errno status : Z) (rest : list (Z * Z * Z)) :
  (r <? 0) && (errno =? 4) = false ->
  wait_child (replicate n (-1, 4, 0) ++ (r, errno, status) :: rest) = if r <? 0 then Undef else Ok status.
Proof.
  intros H. induction n as [|n IH]; cbn [replicate app wait_child]; [by rewrite H|exact IH].
Qed.

Lemma unblockable_clear b :
  Z.testbit b 8 = false -> Z.testbit b 18 = false -> Z.land b (Z.lnot (2 ^ 8 + 2 ^ 18)) = b.
Proof.
  intros H8 H18. change (2 ^ 8 + 2 ^ 18) with (Z.lor (2 ^ 8) (2 ^ 18)). apply Z.bits_inj'. intros n Hn.
  rewrite Z.land_spec, Z.lnot_spec, Z.lor_spec, !Z.pow2_bits_eqb by lia.
  destruct (Z.eqb_spec 8 n) as [<-|_]; [by rewrite H8|].
  destruct (Z.eqb_spec 18 n) as [<-|_]; [by rewrite H18|]. apply andb_true_r.
Qed.

(** A read from a terminal runs with SIGCHLD blocked and every
    other signal as it was, and afterwards the blocked set is the one before;
    other reads run with the state of signals untouched.  The count is
    returned as it is, and the error number of a failure is Darwin's. *)
Theorem tty_read_blocks_sigchld (kernel_read : sig_state -> Z * Z) (st : sig_state) :
  Z.testbit (sig_blocked st) 8 = false -> Z.testbit (sig_blocked st) 18 = false ->
  let during := set_blocked st (Z.lor (sig_blocked st) (2 ^ 16)) in
  let translated '(r, errno) := (r, if r =? -1 then linux_to_macos_errno errno else errno) in
  macify_read kernel_read true st = (translated (kernel_read during), st) /\
  (forall n, 0 <= n -> Z.testbit (sig_blocked during) n = (n =? 16) || Z.testbit (sig_blocked st) n) /\
  macify_read kernel_read false st = (translated (kernel_read st), st).
Proof.
  intros H8 H18. cbv zeta.
  assert (Hd : Z.land (Z.lor (sig_blocked st) (2 ^ 16)) (Z.lnot (2 ^ 8 + 2 ^ 18))
               = Z.lor (sig_blocked st) (2 ^ 16)).
  { apply unblockable_clear; rewrite Z.lor_spec, Z.pow2_bits_eqb by lia; [by rewrite H8|by rewrite H18]. }
  unfold macify_read, real_pthread_sigmask. cbn [Z.eqb Pos.eqb]. rewrite Hd. cbn [snd]. split_and!.
  - destruct (kernel_read _) as [r e]. f_equal. rewrite unblockable_clear by done. by destruct st.
  - intros n Hn. cbn [set_blocked sig_blocked]. rewrite Z.lor_spec, Z.pow2_bits_eqb by lia.
    rewrite orb_comm. f_equal. apply Z.eqb_sym.
  - by destruct (kernel_read st).
Qed.

(** A read that fails with EAGAIN, with SIGINT blocked. *)
Lemma tty_read_blocks_sigchld_witness :
  let st := SigState ∅ 2 [] false 0 false false in
  let kernel_read s := if Z.testbit (sig_blocked s) 16 then (-1, 11) else (5, 0) in
  macify_read kernel_read true st = (-1, 35, st) /\ macify_read kernel_read false st = (5, 0, st).
Proof.
  cbv zeta.
  destruct (tty_read_blocks_sigchld (fun s => if Z.testbit (sig_blocked s) 16 then (-1, 11) else (5, 0))
              (SigState ∅ 2 [] false 0 false false) eq_refl eq_refl) as (H1 & _ & H2).
  split; [exact H1|exact H2].
Defined.
