(* ===== verification/AttrList.v ===== *)
(** * Attribute lists (src/shim/io/attrlist.c)

    getattrlist and fgetattrlist: the attributes a guest asks for, packed one
    after another into its buffer behind a length word.  stat is a
    parameter.  [macify_attrlist_fill] is a row of conditional blocks of one
    shape (room check, write, advance, note the bit); the model has the row as
    a list, in the order of the code. *)
From Stdlib Require Import ZArith Lia Bool Ascii.
From stdpp Require Import base gmap list strings numbers.
From S2P Require Import Prelude Buffers PrefixPath ShimExec ShimFile.

(** ** Constants and structures *)

Definition ATTR_BIT_MAP_COUNT : Z := 5.
Definition FSOPT_NOFOLLOW : Z := 1.

Definition CMN_NAME : Z := 0x1.
Definition CMN_DEVID : Z := 0x2.
Definition CMN_FSID : Z := 0x4.
Definition CMN_OBJTYPE : Z := 0x8.
Definition CMN_OBJTAG : Z := 0x10.
Definition CMN_CRTIME : Z := 0x200.
Definition CMN_MODTIME : Z := 0x400.
Definition CMN_CHGTIME : Z := 0x800.
Definition CMN_ACCTIME : Z := 0x1000.
Definition CMN_FNDRINFO : Z := 0x4000.
Definition CMN_FILEID : Z := 0x2000000.
Definition CMN_PARENTID : Z := 0x4000000.
Definition CMN_RETURNED_ATTRS : Z := 0x80000000.
Definition VOL_CAPABILITIES : Z := 0x20000.
Definition VOL_INFO : Z := 0x80000000.
Definition DIR_LINKCOUNT : Z := 0x1.
Definition DIR_ENTRYCOUNT : Z := 0x2.
Definition FILE_LINKCOUNT : Z := 0x1.
Definition FILE_TOTALSIZE : Z := 0x2.
Definition FILE_ALLOCSIZE : Z := 0x4.
Definition FILE_IOBLOCKSIZE : Z := 0x8.
Definition FILE_DEVTYPE : Z := 0x20.
Definition FILE_DATALENGTH : Z := 0x200.

Record attrlist := Attrlist {
  bitmapcount : Z; commonattr : Z; volattr : Z; dirattr : Z; fileattr : Z; forkattr : Z
}.

(** ** Packing helpers *)

Definition align4 (n : Z) : Z := Z.land (n + 3) (Z.lnot 3).

Definition S_IFMT : Z := 0xF000.

(** The type of a vnode (VREG 1, VDIR 2, ...) of a mode. *)
Definition vtype_from_mode (mode : Z) : Z :=
  let t := Z.land mode S_IFMT in
  if t =? 0x8000 then 1 else if t =? 0x4000 then 2 else if t =? 0x6000 then 3 else
  if t =? 0x2000 then 4 else if t =? 0xA000 then 5 else if t =? 0xC000 then 6 else
  if t =? 0x1000 then 7 else 0.

(** ** [macify_attrlist_fill] *)

(** One conditional block: the room it needs and takes, the bytes it writes
    at the front of that room, the bit it notes. *)
Record attr_item := Item { it_want : bool; it_need : Z; it_data : list Z; it_bit : Z }.

Record fill_state := FillState { f_off : Z; f_returned : Z; f_buf : option (list Z) }.

Definition ERANGE : Z := 34.
Definition ENOENT : Z := 2.
Definition EINVAL_attr : Z := 22.

(** [NEED]: nothing is refused when the size is 0, as it is for a query. *)
Definition room_missing (bufsize need off : Z) : bool :=
  negb (bufsize =? 0) && (need >? u64 (bufsize - off)).

Definition put_at (B : option (list Z)) (off : Z) (bs : list Z) : res (option (list Z)) :=
  match B with None => Ok None | Some b => b' ← buf_put b off bs; Ok (Some b') end.

Definition put_attr (bufsize : Z) (st : fill_state) (it : attr_item) : res (ctl fill_state) :=
  if it_want it then
    if room_missing bufsize (it_need it) (f_off st) then Ok (Return ERANGE st) else
    B ← put_at (f_buf st) (f_off st) (it_data it);
    Ok (Continue (FillState (f_off st + it_need it) (Z.lor (f_returned st) (it_bit it)) B))
  else Ok (Continue st).

Fixpoint put_attrs (bufsize : Z) (items : list attr_item) (st : fill_state) : res (ctl fill_state) :=
  match items with
  | [] => Ok (Continue st)
  | it :: items =>
      r ← put_attr bufsize st it;
      match r with Continue st => put_attrs bufsize items st | Return c st => Ok (Return c st) end
  end.

(** [nm]: what is behind the last slash of the path; empty for a descriptor. *)
Fixpoint last_component (s : string) : string :=
  match s with
  | EmptyString => EmptyString
  | String c s' => if has_char "/" s' then last_component s' else if (c =? "/")%char then s' else s
  end.

Definition NAME_MAX : nat := 255.

(** The reference and, behind it, [nl + 1] bytes of the name. *)
Definition name_data (nm : string) : list Z :=
  let nl := Nat.min (String.length nm) NAME_MAX in
  le_bytes 4 8 ++ le_bytes 4 (Z.of_nat (nl + 1)) ++ take (nl + 1) (string_bytes nm ++ [0]).

Definition name_need (nm : string) : Z := 8 + align4 (Z.of_nat (Nat.min (String.length nm) NAME_MAX + 1)).

Definition timespec_data (t : timespec) : list Z := le_bytes 8 (tv_sec t) ++ le_bytes 8 (tv_nsec t).

Definition capabilities_data : list Z :=
  (le_bytes 4 0x100 ++ replicate 12 0) ++ (le_bytes 4 0x100 ++ replicate 12 0).

Definition items_of (al : attrlist) (nm : string) (st : linux_stat) : list attr_item :=
  let c := commonattr al in
  let v := volattr al in
  let d := dirattr al in
  let f := fileattr al in
  [ Item (has c CMN_RETURNED_ATTRS) 20 [] CMN_RETURNED_ATTRS;
    Item (has c CMN_NAME) (name_need nm) (name_data nm) CMN_NAME;
    Item (has c CMN_DEVID) 8 (le_bytes 8 (ls_dev st)) CMN_DEVID;
    Item (has c CMN_FSID) 8 (le_bytes 8 (ls_dev st)) CMN_FSID;
    Item (has c CMN_OBJTYPE) 4 (le_bytes 4 (vtype_from_mode (ls_mode st))) CMN_OBJTYPE;
    Item (has c CMN_OBJTAG) 4 (le_bytes 4 16) CMN_OBJTAG;
    Item (has c CMN_CRTIME) 16 (timespec_data (ls_ctim st)) CMN_CRTIME;
    Item (has c CMN_MODTIME) 16 (timespec_data (ls_mtim st)) CMN_MODTIME;
    Item (has c CMN_CHGTIME) 16 (timespec_data (ls_ctim st)) CMN_CHGTIME;
    Item (has c CMN_ACCTIME) 16 (timespec_data (ls_atim st)) CMN_ACCTIME;
    Item (has c CMN_FNDRINFO) 32 (replicate 32 0) CMN_FNDRINFO;
    Item (has c CMN_FILEID) 4 (le_bytes 4 (ls_ino st)) CMN_FILEID;
    Item (has c CMN_PARENTID) 4 (le_bytes 4 2) CMN_PARENTID;
    Item (has v VOL_INFO) 4 (le_bytes 4 0) VOL_INFO;
    Item (has v VOL_CAPABILITIES) 32 capabilities_data VOL_CAPABILITIES;
    Item (has d DIR_LINKCOUNT) 4 (le_bytes 4 (if Z.land (ls_mode st) S_IFMT =? 0x4000 then 2 else 1)) DIR_LINKCOUNT;
    Item (has d DIR_ENTRYCOUNT) 4 (le_bytes 4 0) DIR_ENTRYCOUNT;
    Item (has f FILE_LINKCOUNT) 4 (le_bytes 4 (ls_nlink st)) FILE_LINKCOUNT;
    Item (has f FILE_TOTALSIZE) 8 (le_bytes 8 (ls_size st)) FILE_TOTALSIZE;
    Item (has f FILE_ALLOCSIZE) 8 (le_bytes 8 (u64 (ls_blocks st * 512))) FILE_ALLOCSIZE;
    Item (has f FILE_IOBLOCKSIZE) 4 (le_bytes 4 (ls_blksize st)) FILE_IOBLOCKSIZE;
    Item (has f FILE_DEVTYPE) 8 (le_bytes 8 (ls_rdev st)) FILE_DEVTYPE;
    Item (has f FILE_DATALENGTH) 8 (le_bytes 8 (ls_size st)) FILE_DATALENGTH ].

Definition vol_mask : Z := Z.lor VOL_CAPABILITIES VOL_INFO.
Definition dir_mask : Z := Z.lor DIR_LINKCOUNT DIR_ENTRYCOUNT.
Definition file_mask : Z :=
  Z.lor FILE_LINKCOUNT (Z.lor FILE_TOTALSIZE (Z.lor FILE_ALLOCSIZE (Z.lor FILE_IOBLOCKSIZE
    (Z.lor FILE_DEVTYPE FILE_DATALENGTH)))).

(** The five words of [attribute_set_t] for the bits noted. *)
Definition returned_set (returned : Z) : list Z :=
  [ Z.land returned (Z.lnot (Z.lor CMN_RETURNED_ATTRS (Z.lor vol_mask (Z.lor dir_mask file_mask))));
    Z.land returned vol_mask; Z.land returned dir_mask; Z.land returned file_mask; 0 ].

Definition returned_data (returned : Z) : list Z := concat (map (le_bytes 4) (returned_set returned)).

(** The length word and the returned set, when there is a buffer. *)
Definition finish_fill (al : attrlist) (st : fill_state) : res fill_state :=
  B ← put_at (f_buf st) 0 (le_bytes 4 (f_off st));
  B ← (if has (commonattr al) CMN_RETURNED_ATTRS then put_at B 4 (returned_data (f_returned st)) else Ok B);
  Ok (FillState (f_off st) (f_returned st) B).

(** [stat_result] is what the stat call of the target gives: the fields or its
    errno. *)
Definition attrlist_fill (al : attrlist) (nm : string) (stat_result : linux_stat + Z) (B : option (list Z))
    (bufsize : Z) : res (ctl fill_state) :=
  match stat_result with
  | inr errno => Ok (Return errno (FillState 4 0 B))
  | inl st =>
      r ← put_attrs bufsize (items_of al nm st) (FillState 4 0 B);
      match r with
      | Return c s => Ok (Return c s)
      | Continue s => s ← finish_fill al s; Ok (Continue s)
      end
  end.

(** ** [macify_attrlist_common] and the two calls *)

(** -1 with its errno ([None]: left as it is), or 0; with the buffer. *)
Inductive attr_outcome :=
| AttrFail (errno : option Z) (B : option (list Z))
| AttrDone (B : option (list Z)).

Definition attrlist_common (p : process) (al : option attrlist) (path : option string) (stat_result : linux_stat + Z)
    (B : option (list Z)) (bufsize : Z) : res attr_outcome :=
  match al with
  | None => Ok (AttrFail (Some EINVAL_attr) B)
  | Some al =>
      if negb (bitmapcount al =? ATTR_BIT_MAP_COUNT) then Ok (AttrFail (Some EINVAL_attr) B) else
      if has (volattr al) (Z.lnot VOL_INFO) && negb (has (volattr al) VOL_INFO)
      then Ok (AttrFail (Some EINVAL_attr) B) else
      if hidden p path then Ok (AttrFail (Some ENOENT) B) else
      let nm := match path with Some s => last_component s | None => ""%string end in
      match B with
      | None => r ← attrlist_fill al nm stat_result None 0;
                Ok (match r with Return c _ => AttrFail (Some c) None | Continue _ => AttrDone None end)
      | Some _ =>
          if bufsize <? 4 then Ok (AttrFail (Some EINVAL_attr) B) else
          r ← attrlist_fill al nm stat_result B bufsize;
          Ok (match r with Return c s => AttrFail (Some c) (f_buf s) | Continue s => AttrDone (f_buf s) end)
      end
  end.

(** [host_stat nofollow path]; a guest's path is translated first. *)
Definition getattrlist (is_macos : bool) (host_stat : bool -> option string -> linux_stat + Z) (p : process)
    (path : option string) (al : option attrlist) (B : option (list Z)) (bufsize options : Z) : res attr_outcome :=
  if negb is_macos then Ok (AttrFail None B) else
  let eff := host_path p <$> path in
  attrlist_common p al eff (host_stat (has options FSOPT_NOFOLLOW) eff) B bufsize.

Definition fgetattrlist (is_macos : bool) (host_fstat : Z -> linux_stat + Z) (p : process)
    (fd : Z) (al : option attrlist) (B : option (list Z)) (bufsize : Z) : res attr_outcome :=
  if negb is_macos then Ok (AttrFail None B) else attrlist_common p al None (host_fstat fd) B bufsize.

(** ** The layout of the buffer *)

(** The room the wanted items take, the bits they note, and where each one
    starts when the first is put at [off]. *)
Fixpoint needs (items : list attr_item) : Z :=
  match items with [] => 0 | it :: items => (if it_want it then it_need it else 0) + needs items end.

Fixpoint noted (items : list attr_item) : Z :=
  match items with [] => 0 | it :: items => Z.lor (if it_want it then it_bit it else 0) (noted items) end.

Fixpoint placed (items : list attr_item) (off : Z) : list (Z * attr_item) :=
  match items with
  | [] => []
  | it :: items => if it_want it then (off, it) :: placed items (off + it_need it) else placed items off
  end.

Definition packed_size (items : list attr_item) : Z := 4 + needs items.

Definition item_ok (it : attr_item) : Prop := buf_len (it_data it) <= it_need it < 2 ^ 16.

Lemma item_need_nonneg it : item_ok it -> 0 <= it_need it.
Proof. unfold item_ok. pose proof (buf_len_nonneg (it_data it)). lia. Qed.

Lemma needs_nonneg items : Forall item_ok items -> 0 <= needs items.
Proof.
  induction 1 as [|it items Hit _ IH]; cbn [needs]; [lia|]. apply item_need_nonneg in Hit. destruct (it_want it); lia.
Qed.

Lemma placed_from items off o it : Forall item_ok items -> (o, it) ∈ placed items off -> off <= o.
Proof.
  intros Hok. revert off. induction Hok as [|i items Hi _ IH]; intros off; cbn [placed]; [by intros ?%not_elem_of_nil|].
  apply item_need_nonneg in Hi. destruct (it_want i).
  - intros [[= -> ->]|H]%elem_of_cons; [lia|]. apply IH in H. lia.
  - apply IH.
Qed.

(** What the row of blocks does: it refuses exactly when the items do not fit,
    and else leaves each one at its place and everything outside alone. *)
Lemma put_attrs_spec bufsize items : forall st b,
  f_buf st = Some b -> Forall item_ok items -> 0 < bufsize < 2 ^ 63 -> bufsize <= buf_len b ->
  0 <= f_off st <= bufsize ->
  if f_off st + needs items <=? bufsize then
    exists b', put_attrs bufsize items st
               = Ok (Continue (FillState (f_off st + needs items) (Z.lor (f_returned st) (noted items)) (Some b'))) /\
      buf_len b' = buf_len b /\
      Forall (fun '(o, it) => slice b' o (buf_len (it_data it)) = it_data it) (placed items (f_off st)) /\
      (forall a n, 0 <= a -> a + n <= f_off st \/ f_off st + needs items <= a -> slice b' a n = slice b a n)
  else exists s, put_attrs bufsize items st = Ok (Return ERANGE s).
Proof.
  induction items as [|it items IH]; intros [off ret B] b Hb Hok Hs Hl Ho; cbn [f_off f_buf f_returned] in *; subst B.
  { cbn. replace (off + 0 <=? bufsize) with true by lia. exists b. rewrite Z.add_0_r, Z.lor_0_r. done. }
  apply Forall_cons_1 in Hok as [Hit Hok]. pose proof (needs_nonneg _ Hok) as Hn.
  pose proof (item_need_nonneg _ Hit) as Hneed. pose proof (buf_len_nonneg (it_data it)) as Hd0.
  unfold item_ok in Hit. cbn [put_attrs needs noted placed]. unfold put_attr.
  destruct (it_want it); cbn [f_off f_buf f_returned].
  2: { rewrite Z.add_0_l, Z.lor_0_l. cbn [mbind res_bind]. exact (IH (FillState off ret (Some b)) b eq_refl Hok Hs Hl Ho). }
  assert (Hr : room_missing bufsize (it_need it) off = (bufsize <? off + it_need it)).
  { unfold room_missing. rewrite u64_small by lia. lia. }
  rewrite Hr. destruct (Z.ltb_spec bufsize (off + it_need it)).
  { replace (_ <=? bufsize) with false by lia. by eexists. }
  destruct (buf_put_in b off (it_data it)) as [b1 Hb1]; [lia..|].
  cbn [put_at mbind res_bind]. rewrite Hb1. cbn [mbind res_bind].
  pose proof (buf_put_Ok _ _ _ _ Hb1) as (_ & _ & Hlen & _).
  specialize (IH (FillState (off + it_need it) (Z.lor ret (it_bit it)) (Some b1)) b1 eq_refl Hok Hs
                ltac:(lia) ltac:(cbn; lia)).
  cbn [f_off f_returned] in IH. rewrite <- Z.add_assoc in IH. destruct (_ <=? bufsize); [|exact IH].
  destruct IH as (b' & E & HL & HF & Hout). exists b'. rewrite Z.lor_assoc. split_and!; [exact E|lia| |].
  - constructor; [|exact HF]. rewrite Hout by lia. exact (buf_put_same _ _ _ _ Hb1).
  - intros a n Ha Hor. rewrite Hout by lia. apply (buf_put_other _ _ _ _ _ _ Hb1); lia.
Qed.

(** ** The items of a request *)

Lemma align4_bounds n : 0 <= n -> n <= align4 n <= n + 3.
Proof.
  intros. unfold align4. rewrite <- Z.ldiff_land.
  replace (Z.ldiff (n + 3) 3) with (Z.ldiff (n + 3) (Z.ones 2)) by done. rewrite Z.ldiff_ones_r by lia.
  rewrite Z.shiftl_mul_pow2, Z.shiftr_div_pow2 by lia. change (2 ^ 2) with 4.
  pose proof (Z.div_mod (n + 3) 4 ltac:(lia)). pose proof (Z.mod_pos_bound (n + 3) 4 ltac:(lia)). lia.
Qed.

Lemma name_item_ok want nm bit : item_ok (Item want (name_need nm) (name_data nm) bit).
Proof.
  unfold item_ok, name_need, name_data, buf_len. cbn [it_data it_need].
  rewrite !length_app, !length_le_bytes, length_take, length_app, length_string_bytes. cbn [length].
  pose proof (align4_bounds (Z.of_nat (Nat.min (String.length nm) NAME_MAX + 1))). unfold NAME_MAX in *. lia.
Qed.

Lemma items_ok al nm st : Forall item_ok (items_of al nm st).
Proof.
  unfold items_of. cbv zeta. apply Forall_cons_2; [|apply Forall_cons_2; [apply name_item_ok|]];
    repeat apply Forall_cons_2; try apply Forall_nil_2;
    unfold item_ok, buf_len, timespec_data, capabilities_data; cbn [it_data it_need];
    rewrite ?length_app, ?length_le_bytes, ?length_replicate; cbn [length Nat.add]; lia.
Qed.

(** What a well-formed request is answered from. *)
Definition answerable (p : process) (al : attrlist) (path : option string) : bool :=
  (bitmapcount al =? ATTR_BIT_MAP_COUNT) &&
  (has (volattr al) VOL_INFO || negb (has (volattr al) (Z.lnot VOL_INFO))) &&
  negb (hidden p (host_path p <$> path)).

Definition name_of (p : process) (path : option string) : string :=
  match host_path p <$> path with Some s => last_component s | None => ""%string end.

Lemma length_returned_data r : length (returned_data r) = 20%nat.
Proof. unfold returned_data, returned_set. cbn [map concat]. by rewrite !length_app, !length_le_bytes. Qed.

(** The row, the length word and the returned set together. *)
Lemma attrlist_fill_spec al nm st b bufsize :
  4 <= bufsize < 2 ^ 63 -> bufsize <= buf_len b ->
  let items := items_of al nm st in
  if packed_size items <=? bufsize then
    exists s b', attrlist_fill al nm (inl st) (Some b) bufsize = Ok (Continue s) /\ f_buf s = Some b' /\
      buf_len b' = buf_len b /\ slice b' 0 4 = le_bytes 4 (packed_size items) /\
      (has (commonattr al) CMN_RETURNED_ATTRS = true -> slice b' 4 20 = returned_data (noted items)) /\
      Forall (fun '(o, it) => slice b' o (buf_len (it_data it)) = it_data it) (placed items 4) /\
      (forall a n, packed_size items <= a -> slice b' a n = slice b a n)
  else exists s, attrlist_fill al nm (inl st) (Some b) bufsize = Ok (Return ERANGE s).
Proof.
  intros Hs Hl. cbv zeta. pose proof (items_ok al nm st) as Hok. pose proof (needs_nonneg _ Hok) as Hn.
  unfold attrlist_fill, packed_size.
  pose proof (put_attrs_spec bufsize (items_of al nm st) (FillState 4 0 (Some b)) b eq_refl Hok ltac:(lia) Hl
                ltac:(cbn; lia)) as H. cbn [f_off f_returned] in H. rewrite Z.lor_0_l in H.
  destruct (Z.leb_spec (4 + needs (items_of al nm st)) bufsize) as [Hfit|_]; [|destruct H as [s ->]; by eexists].
  destruct H as (b1 & -> & HL & HF & Hout). cbn [mbind res_bind]. unfold finish_fill. cbn [f_off f_returned f_buf].
  set (total := 4 + needs _) in *. assert (Hw : buf_len (le_bytes 4 total) = 4).
  { unfold buf_len. by rewrite length_le_bytes. }
  destruct (buf_put_in b1 0 (le_bytes 4 total)) as [b2 E2]; [lia..|].
  pose proof (buf_put_same _ _ _ _ E2) as S2. rewrite Hw in S2.
  pose proof (buf_put_Ok _ _ _ _ E2) as (_ & _ & L2 & _).
  assert (F2 : Forall (fun '(o, it) => slice b2 o (buf_len (it_data it)) = it_data it) (placed (items_of al nm st) 4)).
  { apply Forall_forall. intros [o it] Hin. rewrite Forall_forall in HF. rewrite <- (HF _ Hin) at 2.
    apply list_elem_of_In, placed_from in Hin; [|done]. apply (buf_put_other _ _ _ _ _ _ E2); lia. }
  assert (O2 : forall a n, total <= a -> slice b2 a n = slice b a n).
  { intros a n Ha. rewrite (buf_put_other _ _ _ _ _ _ E2) by lia. apply Hout; lia. }
  cbn [put_at]. rewrite E2. cbn [mbind res_bind].
  destruct (has (commonattr al) CMN_RETURNED_ATTRS) eqn:Hret; cbn [put_at mbind res_bind].
  2: { eexists _, b2. split_and!; done || lia. }
  assert (Hitems : exists rest, items_of al nm st = Item true 20 [] CMN_RETURNED_ATTRS :: rest /\ Forall item_ok rest).
  { unfold items_of in Hok |- *. cbv zeta in Hok |- *. rewrite Hret in Hok |- *. eexists. split; [done|].
    by apply Forall_cons_1 in Hok as [_ Hok]. }
  destruct Hitems as (rest & Hitems & Hrest). pose proof (needs_nonneg _ Hrest) as Hn'.
  assert (Ht : 24 <= total) by (unfold total; rewrite Hitems; cbn [needs it_want it_need]; clear - Hn'; lia).
  assert (Hr : buf_len (returned_data (noted (items_of al nm st))) = 20).
  { unfold buf_len. by rewrite length_returned_data. }
  destruct (buf_put_in b2 4 (returned_data (noted (items_of al nm st)))) as [b3 E3]; [lia..|].
  pose proof (buf_put_same _ _ _ _ E3) as S3. rewrite Hr in S3.
  pose proof (buf_put_Ok _ _ _ _ E3) as (_ & _ & L3 & _).
  rewrite E3. cbn [mbind res_bind]. eexists _, b3. split_and!; [done|done|lia| |done| |].
  - rewrite <- S2. apply (buf_put_other _ _ _ _ _ _ E3); lia.
  - rewrite Hitems in F2 |- *. cbn [placed it_want it_need] in F2 |- *. apply Forall_cons_1 in F2 as [_ F2].
    constructor; [done|]. apply Forall_forall. intros [o it] Hin. rewrite Forall_forall in F2.
    rewrite <- (F2 _ Hin) at 2. apply list_elem_of_In, placed_from in Hin; [|done].
    apply (buf_put_other _ _ _ _ _ _ E3); lia.
  - intros a n Ha. rewrite (buf_put_other _ _ _ _ _ _ E3) by lia. by apply O2.
Qed.

(** An answerable request reaches [macify_attrlist_fill]. *)
Lemma getattrlist_answered (host_stat : bool -> option string -> linux_stat + Z) (p : process) (path : option string)
    (al : attrlist) (B : option (list Z)) (bufsize options : Z) (st : linux_stat) :
  answerable p al path = true ->
  host_stat (has options FSOPT_NOFOLLOW) (host_path p <$> path) = inl st ->
  getattrlist true host_stat p path (Some al) B bufsize options =
  match B with
  | None => r ← attrlist_fill al (name_of p path) (inl st) None 0;
            Ok (match r with Return c _ => AttrFail (Some c) None | Continue _ => AttrDone None end)
  | Some _ =>
      if bufsize <? 4 then Ok (AttrFail (Some EINVAL_attr) B) else
      r ← attrlist_fill al (name_of p path) (inl st) B bufsize;
      Ok (match r with Return c s => AttrFail (Some c) (f_buf s) | Continue s => AttrDone (f_buf s) end)
  end.
Proof.
  intros Ha Hst. unfold answerable in Ha. apply andb_true_iff in Ha as [Ha Hh].
  apply andb_true_iff in Ha as [Hc Hv]. apply negb_true_iff in Hh.
  unfold getattrlist, attrlist_common. cbn [negb]. rewrite Hc, Hst, Hh. cbn [negb].
  replace (has (volattr al) (Z.lnot VOL_INFO) && negb (has (volattr al) VOL_INFO)) with false
    by (destruct (has _ (Z.lnot _)), (has _ VOL_INFO); done).
  by fold (name_of p path).
Qed.

(** ** Properties *)

(** C32 (equivalence): getattrlist packs the attributes it supports and stays
    inside the guest's buffer.  For a well-formed request on a file stat
    knows, with a buffer that has the size given and at least four bytes, the
    call succeeds exactly when the length word and the wanted attributes, at
    the sizes the code gives them, fit; then the buffer starts with that
    total, each wanted attribute stands at the sum of the sizes before it, the
    returned set at offset 4 when wanted, and nothing behind the total is
    touched.  Otherwise it is ERANGE.  This is the code's layout and not the
    one of docs/darwin/getattrlist.2.txt, which truncates silently in a short
    buffer, keeps ERANGE for one of less than four bytes, and gives
    ATTR_CMN_DEVID, FILEID, PARENTID, ATTR_VOL_INFO and ATTR_FILE_DEVTYPE
    other sizes ([attr_sizes_differ], [short_buffer_refused]). *)
Theorem getattrlist_packs (host_stat : bool -> option string -> linux_stat + Z) (p : process)
    (path : option string) (al : attrlist) (b : list Z) (bufsize options : Z) (st : linux_stat) :
  answerable p al path = true ->
  host_stat (has options FSOPT_NOFOLLOW) (host_path p <$> path) = inl st ->
  4 <= bufsize < 2 ^ 63 -> bufsize <= buf_len b ->
  let items := items_of al (name_of p path) st in
  let r := getattrlist true host_stat p path (Some al) (Some b) bufsize options in
  if packed_size items <=? bufsize then
    exists b', r = Ok (AttrDone (Some b')) /\ buf_len b' = buf_len b /\
      slice b' 0 4 = le_bytes 4 (packed_size items) /\
      (has (commonattr al) CMN_RETURNED_ATTRS = true -> slice b' 4 20 = returned_data (noted items)) /\
      Forall (fun '(o, it) => slice b' o (buf_len (it_data it)) = it_data it) (placed items 4) /\
      (forall a n, packed_size items <= a -> slice b' a n = slice b a n)
  else exists B, r = Ok (AttrFail (Some ERANGE) B).
Proof.
  intros Ha Hst Hs Hl. cbv zeta. rewrite (getattrlist_answered _ _ _ _ _ _ _ _ Ha Hst).
  replace (bufsize <? 4) with false by lia.
  pose proof (attrlist_fill_spec al (name_of p path) st b bufsize Hs Hl) as H. cbv zeta in H.
  destruct (_ <=? bufsize).
  - destruct H as (s & b' & -> & Hb & H). exists b'. cbn [mbind res_bind]. by rewrite Hb.
  - destruct H as [s ->]. by eexists.
Qed.

Definition demo_stat : linux_stat :=
  LinuxStat 7 4242 1 0x81A4 0 0 0 1000 4096 8 (Timespec 1 2) (Timespec 3 4) (Timespec 5 6).

(** NAME, OBJTYPE and the file's size of "/tmp/ab", in a buffer of 64 bytes. *)
Lemma getattrlist_packs_witness :
  let al := Attrlist 5 (CMN_NAME + CMN_OBJTYPE) 0 0 FILE_TOTALSIZE 0 in
  let p := Process [] None in
  exists b', getattrlist true (fun _ _ => inl demo_stat) p (Some "/tmp/ab"%string) (Some al)
               (Some (replicate 64 0xEE)) 64 0 = Ok (AttrDone (Some b')) /\
    slice b' 0 4 = [28; 0; 0; 0] /\ buf_len b' = 64 /\ slice b' 28 36 = replicate 36 0xEE.
Proof.
  cbv zeta.
  pose proof (getattrlist_packs (fun _ _ => inl demo_stat) (Process [] None) (Some "/tmp/ab"%string)
    (Attrlist 5 (CMN_NAME + CMN_OBJTYPE) 0 0 FILE_TOTALSIZE 0) (replicate 64 0xEE) 64 0 demo_stat
    eq_refl eq_refl ltac:(lia) ltac:(vm_compute; discriminate)) as H.
  destruct H as (b' & Hr & Hl & H0 & _ & _ & Hout). exists b'.
  split; [exact Hr|]. split; [exact H0|]. split; [exact Hl|]. apply Hout. vm_compute. discriminate.
Defined.

(** ** The returned set *)

Lemma land_bit c k : 0 <= k -> (if has c (2 ^ k) then 2 ^ k else 0) = Z.land c (2 ^ k).
Proof.
  intros Hk. rewrite has_pow2 by done. apply Z.bits_inj'. intros n Hn. rewrite Z.land_spec, Z.pow2_bits_eqb by done.
  destruct (Z.eqb_spec k n) as [<-|Hne].
  - rewrite andb_true_r. destruct (Z.testbit c k); [by apply Z.pow2_bits_true|apply Z.testbit_0_l].
  - rewrite andb_false_r. destruct (Z.testbit c k); [by apply Z.pow2_bits_false|apply Z.testbit_0_l].
Qed.

Lemma land_pow2 c b : 2 ^ Z.log2 b = b -> (if has c b then b else 0) = Z.land c b.
Proof. intros <-. apply land_bit, Z.log2_nonneg. Qed.

(** The common attributes the code knows. *)
Definition cmn_supported : Z :=
  Z.lor CMN_RETURNED_ATTRS (Z.lor CMN_NAME (Z.lor CMN_DEVID (Z.lor CMN_FSID (Z.lor CMN_OBJTYPE (Z.lor CMN_OBJTAG
    (Z.lor CMN_CRTIME (Z.lor CMN_MODTIME (Z.lor CMN_CHGTIME (Z.lor CMN_ACCTIME (Z.lor CMN_FNDRINFO
    (Z.lor CMN_FILEID CMN_PARENTID))))))))))).

(** All groups are noted in one word. *)
Lemma noted_items al nm st :
  noted (items_of al nm st) =
  Z.lor (Z.land (commonattr al) cmn_supported)
    (Z.lor (Z.land (volattr al) vol_mask) (Z.lor (Z.land (dirattr al) dir_mask) (Z.land (fileattr al) file_mask))).
Proof.
  unfold items_of. cbv zeta. cbn [noted it_want it_bit].
  repeat match goal with |- context [if has ?c ?b then ?b else 0] => rewrite (land_pow2 c b eq_refl) end.
  unfold cmn_supported, vol_mask, dir_mask, file_mask. rewrite (Z.lor_comm VOL_CAPABILITIES).
  rewrite !Z.land_lor_distr_r, Z.lor_0_r, <- !Z.lor_assoc. reflexivity.
Qed.

(** The set of returned attributes is wrong as soon as the
    groups overlap, because the bits of all five groups are collected in one
    word.  Whatever is asked for, the name, the device, the file system, the
    object type and the creation time are never reported among the common
    attributes; and a request for common attributes alone is told that the
    volume's information was returned, that every wanted name or device is a
    link or entry count of a directory, and that the wanted ones of those five
    are attributes of a file. *)
Theorem returned_set_conflates (al : attrlist) (nm : string) (st : linux_stat) :
  let told := returned_set (noted (items_of al nm st)) in
  (exists c rest, told = c :: rest /\
     Z.land c (Z.lor CMN_NAME (Z.lor CMN_DEVID (Z.lor CMN_FSID (Z.lor CMN_OBJTYPE CMN_CRTIME)))) = 0) /\
  (volattr al = 0 -> dirattr al = 0 -> fileattr al = 0 -> has (commonattr al) CMN_RETURNED_ATTRS = true ->
   exists c, told = [c; VOL_INFO; Z.land (commonattr al) 0x3; Z.land (commonattr al) 0x20F; 0]).
Proof.
  cbv zeta. rewrite noted_items. split.
  - eexists _, _. split; [reflexivity|]. by rewrite <- Z.land_assoc, Z.land_0_r.
  - intros -> -> -> Hret. rewrite !Z.land_0_l, !Z.lor_0_r. eexists. unfold returned_set.
    rewrite <- !Z.land_assoc. change (Z.land cmn_supported vol_mask) with CMN_RETURNED_ATTRS.
    change (Z.land cmn_supported dir_mask) with 0x3. change (Z.land cmn_supported file_mask) with 0x20F.
    rewrite <- (land_pow2 (commonattr al) CMN_RETURNED_ATTRS eq_refl), Hret. reflexivity.
Qed.

(** A request for the returned set, name and type. *)
Lemma returned_set_conflates_witness :
  exists c, returned_set (noted (items_of (Attrlist 5 (CMN_RETURNED_ATTRS + CMN_NAME + CMN_OBJTYPE) 0 0 0 0) "ab" demo_stat))
            = [c; VOL_INFO; 1; 9; 0].
Proof.
  exact (proj2 (returned_set_conflates (Attrlist 5 (CMN_RETURNED_ATTRS + CMN_NAME + CMN_OBJTYPE) 0 0 0 0) "ab" demo_stat)
    eq_refl eq_refl eq_refl eq_refl).
Defined.

(** A query for the size succeeds whatever is asked for, and tells nothing. *)
Lemma size_query (host_stat : bool -> option string -> linux_stat + Z) (p : process) (path : option string)
    (al : attrlist) (bufsize options : Z) (st : linux_stat) :
  answerable p al path = true ->
  host_stat (has options FSOPT_NOFOLLOW) (host_path p <$> path) = inl st ->
  getattrlist true host_stat p path (Some al) None bufsize options = Ok (AttrDone None).
Proof.
  intros Ha Hst. rewrite (getattrlist_answered _ _ _ _ _ _ _ _ Ha Hst). unfold attrlist_fill.
  assert (Hq : forall items s, f_buf s = None -> exists s', put_attrs 0 items s = Ok (Continue s') /\ f_buf s' = None).
  { induction items as [|it items IH]; intros s Hs; cbn [put_attrs]; [by eexists|].
    unfold put_attr, room_missing. cbn [Z.eqb negb andb]. destruct (it_want it); rewrite ?Hs; cbn; by apply IH. }
  destruct (Hq (items_of al (name_of p path) st) (FillState 4 0 None) eq_refl) as (s' & -> & Hs').
  cbn [mbind res_bind]. unfold finish_fill. rewrite Hs'. cbn. by destruct (has (commonattr al) _).
Qed.

(** The check for hidden paths sees the translated path, which is in the
    prefix and not in the home directory: a path that open and stat hide is
    answered here. *)
Lemma hidden_path_answered :
  hidden demo_home (Some "/home/u/.cache/x"%string) = true /\
  answerable demo_home (Attrlist 5 CMN_OBJTYPE 0 0 0 0) (Some "/home/u/.cache/x"%string) = true.
Proof. split; reflexivity. Qed.

(** ** Where the manual page is not followed *)

(** The size a request for one attribute takes behind the length word. *)
Definition size_alone (al : attrlist) (st : linux_stat) : Z := needs (items_of al "" st).

(** Five attributes do not have the sizes of docs/darwin/getattrlist.2.txt:
    the device number and the device type take 8 bytes (a dev_t and a
    u_int32_t there, 4 each), the identifiers of file and parent 4 (u_int64_t
    there, 8 each), and ATTR_VOL_INFO, which only enables the others there,
    takes 4. *)
Theorem attr_sizes_differ (st : linux_stat) :
  size_alone (Attrlist 5 CMN_DEVID 0 0 0 0) st = 8 /\
  size_alone (Attrlist 5 CMN_FILEID 0 0 0 0) st = 4 /\
  size_alone (Attrlist 5 CMN_PARENTID 0 0 0 0) st = 4 /\
  size_alone (Attrlist 5 0 VOL_INFO 0 0 0) st = 4 /\
  size_alone (Attrlist 5 0 0 0 FILE_DEVTYPE 0) st = 8.
Proof. by vm_compute. Qed.

(** A buffer of eight bytes has room for the length word and half of the
    file's size: the manual page has the answer truncated, the code refuses
    it; and one of less than four bytes is EINVAL, not ERANGE. *)
Theorem short_buffer_refused :
  let ask b n := getattrlist true (fun _ _ => inl demo_stat) (Process [] None) (Some "/tmp/ab"%string)
                   (Some (Attrlist 5 0 0 0 FILE_TOTALSIZE 0)) (Some b) n 0 in
  ask (replicate 8 0) 8 = Ok (AttrFail (Some ERANGE) (Some (replicate 8 0))) /\
  ask (replicate 3 0) 3 = Ok (AttrFail (Some EINVAL_attr) (Some (replicate 3 0))).
Proof. by vm_compute. Qed.
