(* ===== verification/ElfLookup.v ===== *)
(** * Finding the real functions (src/shim/io/dl.c)

    [macify_elf_lookup] walks the dynamic symbol table of libc by itself,
    without the dynamic linker's lock; every wrapper of the shim gets the
    function it wraps from it.  The number of symbols comes from the hash
    table.  dlopen, dlsym, dlclose and dladdr as the guest sees them.

    A loaded library is given by its name and its dynamic tables; the entries
    of a table are a partial function of the index, so that the memory behind
    the last real entry is part of the model. *)
From Stdlib Require Import ZArith Lia Bool.
From stdpp Require Import base list strings numbers.
From S2P Require Import Prelude.

(** ** Libraries *)

(** An entry of the symbol table.  [es_name] is the string at
    [strtab + st_name], [None] where that is not readable. *)
Record elf_sym := ElfSym { es_name : option string; es_value : Z; es_type : Z }.

Definition STT_GNU_IFUNC : Z := 10.

Record elf_lib := ElfLib {
  lib_name : string;
  lib_addr : Z;
  lib_dynamic : bool;
  lib_symtab : option (nat -> option elf_sym);
  lib_strtab : bool;
  lib_versym : option (nat -> option Z);
  lib_hash : option (list Z);
  lib_gnu_hash : option (list Z)
}.

(** What [find_libc_cb] keeps. *)
Record libc_tables := LibcTables {
  elf_base : Z;
  elf_symtab : nat -> option elf_sym;
  elf_nsyms : Z;
  elf_versym : option (nat -> option Z)
}.

(** ** Counting symbols *)

Definition word_at (h : list Z) (i : Z) : res Z := of_option (buf_get h i).

Fixpoint max_bucket (fuel : nat) (h : list Z) (buckets b : Z) (max_idx : Z) : res Z :=
  match fuel with
  | O => Ok max_idx
  | S fuel => v ← word_at h (buckets + b);
              max_bucket fuel h buckets (b + 1) (if v >? max_idx then v else max_idx)
  end.

(** [while (!(chain[i] & 1)) i++] *)
Fixpoint chain_end (fuel : nat) (h : list Z) (chain i : Z) : res Z :=
  match fuel with
  | O => NoFuel
  | S fuel => v ← word_at h (chain + i); if has v 1 then Ok i else chain_end fuel h chain (i + 1)
  end.

Definition gnu_nsyms (h : list Z) : res Z :=
  nbucket ← word_at h 0;
  symoffset ← word_at h 1;
  bloom_size ← word_at h 2;
  let buckets := 4 + bloom_size * 2 in
  max_idx ← max_bucket (Z.to_nat nbucket) h buckets 0 0;
  if max_idx >=? symoffset then
    i ← chain_end (S (length h)) h (buckets + nbucket) (max_idx - symoffset);
    Ok (i32 (max_idx + i + 1))
  else Ok (i32 symoffset).

Definition count_symbols (l : elf_lib) : res Z :=
  n ← match lib_hash l, lib_gnu_hash l with
      | Some h, _ => v ← word_at h 1; Ok (i32 v)
      | None, Some h => gnu_nsyms h
      | None, None => Ok 0
      end;
  Ok (if n <=? 0 then 65536 else n).

Definition find_libc_cb (l : elf_lib) : res (option libc_tables) :=
  if negb (contains "libc.so" (lib_name l)) || negb (lib_dynamic l) || negb (lib_strtab l) then Ok None else
  match lib_symtab l with
  | None => Ok None
  | Some symtab => n ← count_symbols l; Ok (Some (LibcTables (lib_addr l) symtab n (lib_versym l)))
  end.

(** [dl_iterate_phdr]: the first library for which the callback returns 1. *)
Fixpoint iterate {A} (cb : elf_lib -> res (option A)) (libs : list elf_lib) : res (option A) :=
  match libs with
  | [] => Ok None
  | l :: libs => r ← cb l; match r with Some t => Ok (Some t) | None => iterate cb libs end
  end.

(** ** The walk *)

(** What one entry means for [name]. *)
Inductive sym_match := NoMatch | HiddenMatch (addr : Z) | DefaultMatch (addr : Z).

Definition match_symbol (t : libc_tables) (name : string) (i : nat) : res sym_match :=
  s ← of_option (elf_symtab t i);
  if es_value s =? 0 then Ok NoMatch else
  if es_type s =? STT_GNU_IFUNC then Ok NoMatch else
  symname ← of_option (es_name s);
  if streq symname "" then Ok NoMatch else
  if streq symname name then
    let addr := u64 (elf_base t + es_value s) in
    match elf_versym t with
    | None => Ok (DefaultMatch addr)
    | Some versym => v ← of_option (versym i); Ok (if has v 0x8000 then HiddenMatch addr else DefaultMatch addr)
    end
  else Ok NoMatch.

(** [hidden] is 0 until a hidden version is met; [inl] is a return from the
    loop, [inr] its end. *)
Fixpoint walk_symbols (t : libc_tables) (name : string) (fuel : nat) (i : nat) (hidden : Z) : res (Z + Z) :=
  match fuel with
  | O => Ok (inr hidden)
  | S fuel =>
      m ← match_symbol t name i;
      match m with
      | NoMatch => walk_symbols t name fuel (S i) hidden
      | HiddenMatch addr => walk_symbols t name fuel (S i) (if hidden =? 0 then addr else hidden)
      | DefaultMatch addr => Ok (inl addr)
      end
  end.

(** [real_dlsym] is [dlsym(RTLD_NEXT, name)], or [None] while it is unknown. *)
Definition fallback (real_dlsym : option (string -> Z)) (name : string) : Z :=
  match real_dlsym with Some f => f name | None => 0 end.

Definition macify_elf_lookup (t : option libc_tables) (real_dlsym : option (string -> Z)) (name : string) : res Z :=
  match t with
  | None => Ok (fallback real_dlsym name)
  | Some t =>
      r ← walk_symbols t name (Z.to_nat (elf_nsyms t)) 0 0;
      Ok (match r with inl addr => addr | inr hidden => if hidden =? 0 then fallback real_dlsym name else hidden end)
  end.

(** [find_dlsym_cb]: the first "dlsym" with a value, of whatever version. *)
Fixpoint walk_dlsym (symtab : nat -> option elf_sym) (base : Z) (fuel i : nat) : res (option Z) :=
  match fuel with
  | O => Ok None
  | S fuel =>
      s ← of_option (symtab i);
      symname ← of_option (es_name s);
      if negb (streq symname "") && streq symname "dlsym" && negb (es_value s =? 0)
      then Ok (Some (u64 (base + es_value s))) else walk_dlsym symtab base fuel (S i)
  end.

Definition find_dlsym_cb (l : elf_lib) : res (option Z) :=
  if negb (contains "libc.so" (lib_name l)) || negb (lib_dynamic l) || negb (lib_strtab l) then Ok None else
  match lib_symtab l with
  | None => Ok None
  | Some symtab =>
      n ← match lib_hash l with Some h => v ← word_at h 1; Ok (i32 v) | None => Ok 4096 end;
      walk_dlsym symtab (lib_addr l) (Z.to_nat n) 0
  end.

(** ** dlopen, dlsym, dlclose and dladdr *)

(** Handles are addresses; [fake] is the address of
    [macify_sc_fake_handle]. *)
Definition RTLD_DEFAULT_macos : Z := u64 (-2).
Definition RTLD_SELF_macos : Z := u64 (-3).

Definition shim_dlopen (fake : Z) (real_dlopen : option (option string -> Z)) (filename : option string) : Z :=
  if match filename with Some f => contains "SystemConfiguration" f | None => false end then fake else
  match real_dlopen with Some f => f filename | None => 0 end.

(** The names served from the fake handle, with the function each one gets. *)
Definition sc_symbols : list (string * string) :=
  [ ("SCDynamicStoreCreate", "macify_SCDynamicStoreCreate");
    ("SCDynamicStoreCopyValue", "macify_SCDynamicStoreCopyValue");
    ("CFRelease", "macify_CFRelease"); ("CFRetain", "macify_CFRelease");
    ("CFStringCreateWithCString", "CFStringCreateWithCString"); ("CFStringGetCString", "CFStringGetCString");
    ("CFStringGetLength", "CFStringGetLength");
    ("CFStringGetMaximumSizeForEncoding", "CFStringGetMaximumSizeForEncoding");
    ("CFArrayGetCount", "CFArrayGetCount"); ("CFArrayGetValueAtIndex", "CFArrayGetValueAtIndex");
    ("CFDictionaryGetValue", "CFDictionaryGetValue");
    ("dns_configuration_copy", "macify_dns_configuration_copy");
    ("dns_configuration_free", "macify_dns_configuration_free") ]%string.

Fixpoint assoc (name : string) (l : list (string * string)) : option string :=
  match l with
  | [] => None
  | (k, v) :: l => if streq k name then Some v else assoc name l
  end.

(** [address] of the shim's own functions. *)
Definition shim_dlsym (fake : Z) (address : string -> Z) (real_dlsym : option (Z -> string -> Z)) (handle : Z)
    (symbol : string) : Z :=
  if handle =? fake then match assoc symbol sc_symbols with Some f => address f | None => 0 end else
  match real_dlsym with
  | None => 0
  | Some f => f (if (handle =? RTLD_DEFAULT_macos) || (handle =? RTLD_SELF_macos) then 0 else handle) symbol
  end.

Definition shim_dlclose (fake : Z) (real_dlclose : option (Z -> Z)) (handle : Z) : Z :=
  if handle =? fake then 0 else match real_dlclose with Some f => f handle | None => 0 end.

(** The file and the base dladdr reports; [None] is 0. *)
Definition shim_dladdr (text_lo text_hi : Z) (guest_path : string)
    (real_dladdr : option (Z -> option (string * Z))) (addr : Z) : option (string * Z) :=
  if negb (text_lo =? 0) && (addr >=? text_lo) && (addr <? text_hi) then Some (snprintf 4096 guest_path, text_lo)
  else match real_dladdr with Some f => f addr | None => None end.

(** ** What the walk finds *)

Fixpoint first_default (ms : list sym_match) : option Z :=
  match ms with
  | [] => None
  | DefaultMatch a :: _ => Some a
  | _ :: ms => first_default ms
  end.

(** The first hidden match, 0 if there is none. *)
Fixpoint first_hidden (ms : list sym_match) : Z :=
  match ms with
  | [] => 0
  | HiddenMatch a :: ms => if a =? 0 then first_hidden ms else a
  | _ :: ms => first_hidden ms
  end.

(** What an entry of a versioned symbol table is for [name]: nothing if it has
    no value, is an IFUNC (type 10) or has no name or another one; otherwise
    the definition at the base plus its value, hidden exactly if bit 15 of its
    version word is set, which without version words it never is. *)
Definition entry_means (t : libc_tables) (name : string) (i : nat) (m : sym_match) : Prop :=
  exists s, elf_symtab t i = Some s /\
  match m with
  | NoMatch => es_value s = 0 \/ es_type s = 10 \/
               exists nm, es_name s = Some nm /\ (nm = EmptyString \/ nm <> name)
  | DefaultMatch a | HiddenMatch a =>
      es_name s = Some name /\ name <> EmptyString /\ es_value s <> 0 /\ es_type s <> 10 /\
      a = u64 (elf_base t + es_value s) /\
      match elf_versym t with
      | None => m = DefaultMatch a
      | Some versym => exists v, versym i = Some v /\ (m = HiddenMatch a <-> Z.testbit v 15 = true)
      end
  end.

(** Entries [i], [i + 1], ... are readable and mean [ms]. *)
Fixpoint entries_mean (t : libc_tables) (name : string) (i : nat) (ms : list sym_match) : Prop :=
  match ms with
  | [] => True
  | m :: ms => entry_means t name i m /\ entries_mean t name (S i) ms
  end.

Lemma match_symbol_means t name i m : entry_means t name i m -> match_symbol t name i = Ok m.
Proof.
  intros (s & Hs & Hm). unfold match_symbol, STT_GNU_IFUNC. rewrite Hs. cbn [of_option mbind res_bind].
  assert (forall a, es_name s = Some name -> name <> EmptyString -> es_value s <> 0 -> es_type s <> 10 ->
    (if es_value s =? 0 then Ok NoMatch else if es_type s =? 10 then Ok NoMatch else
     symname ← of_option (es_name s); if streq symname "" then Ok NoMatch else
     if streq symname name then a else Ok NoMatch) = a) as Hdef.
  { intros a Hn Hne Hv Ht. rewrite (proj2 (Z.eqb_neq _ _) Hv), (proj2 (Z.eqb_neq _ _) Ht), Hn.
    cbn [of_option mbind res_bind]. unfold streq. rewrite (bool_decide_eq_false_2 _ Hne). by rewrite bool_decide_eq_true_2. }
  destruct m as [|a|a].
  - destruct Hm as [->|[->|(nm & -> & Hnm)]]; [done|by destruct (es_value s =? 0)|].
    destruct (es_value s =? 0), (es_type s =? 10); try done. cbn [of_option mbind res_bind]. unfold streq.
    destruct Hnm as [->|Hne]; [by rewrite bool_decide_eq_true_2|]. rewrite (bool_decide_eq_false_2 _ Hne). by destruct (bool_decide _).
  - destruct Hm as (Hn & Hne & Hv & Ht & -> & Hver). rewrite Hdef by done.
    destruct (elf_versym t) as [versym|]; [|done]. destruct Hver as (v & -> & Hb). cbn [of_option mbind res_bind].
    change 0x8000 with (2 ^ 15). by rewrite has_pow2, (proj1 Hb eq_refl) by lia.
  - destruct Hm as (Hn & Hne & Hv & Ht & -> & Hver). rewrite Hdef by done.
    destruct (elf_versym t) as [versym|]; [|done]. destruct Hver as (v & -> & Hb). cbn [of_option mbind res_bind].
    change 0x8000 with (2 ^ 15). rewrite has_pow2 by lia. destruct (Z.testbit v 15); [discriminate (proj2 Hb eq_refl)|done].
Qed.

Lemma walk_entries t name ms : forall i rest hidden,
  entries_mean t name i ms ->
  walk_symbols t name (length ms + rest) i hidden =
  match first_default ms with
  | Some a => Ok (inl a)
  | None => walk_symbols t name rest (i + length ms) (if hidden =? 0 then first_hidden ms else hidden)
  end.
Proof.
  induction ms as [|m ms IH]; intros i rest hidden; cbn [entries_mean length Nat.add].
  - intros _. cbn [first_default first_hidden]. rewrite Nat.add_0_r. f_equal.
    destruct (Z.eqb_spec hidden 0); done.
  - intros [Hm%match_symbol_means Hms]. cbn [walk_symbols]. rewrite Hm. cbn [mbind res_bind]. rewrite <- Nat.add_succ_comm.
    destruct m as [|a|a]; cbn [first_default first_hidden]; [by apply IH| |done].
    rewrite IH by done. destruct (first_default ms); [done|]. f_equal.
    destruct (Z.eqb_spec hidden 0); [|by rewrite (proj2 (Z.eqb_neq hidden 0))]. by destruct (Z.eqb_spec a 0).
Qed.

(** ** The number of symbols *)

(** A GNU hash table as the linker lays it out: symbols from [symoffset] on are
    in the order of their buckets, a bucket holds the index of its first
    symbol (0 if it is empty), and the low bit of a chain word marks the last
    symbol of a bucket.  So the chain of the bucket that starts last runs to
    the last symbol. *)
Record gnu_table (h : list Z) (symoffset max_idx n : Z) : Prop := {
  gt_shape : exists shift bloom buckets chain,
    h = [Z.of_nat (length buckets); symoffset; Z.of_nat (length bloom); shift]
        ++ concat bloom ++ buckets ++ chain /\
    Forall (fun w => length w = 2%nat) bloom /\ Forall is_u32 buckets /\
    max_idx = foldr Z.max 0 buckets /\ n = symoffset + Z.of_nat (length chain) /\
    Forall (fun v => has v 1 = false) (drop (Z.to_nat (max_idx - symoffset)) (take (length chain - 1) chain)) /\
    (exists v, list.last chain = Some v /\ has v 1 = true);
  gt_range : 0 < symoffset <= max_idx /\ max_idx < n /\ 2 * n < 2 ^ 31
}.

Lemma word_at_mid pre x post : word_at (pre ++ x :: post) (buf_len pre) = Ok x.
Proof.
  unfold word_at, buf_get, buf_len. rewrite (proj2 (Z.ltb_ge _ _)), Nat2Z.id by lia.
  by rewrite list_lookup_middle.
Qed.

Lemma max_bucket_spec bs : forall pre post b acc,
  Forall is_u32 bs -> 0 <= acc ->
  max_bucket (length bs) (pre ++ bs ++ post) (buf_len pre - b) b acc = Ok (Z.max acc (foldr Z.max 0 bs)).
Proof.
  induction bs as [|v bs IH]; intros pre post b acc Hbs Hacc; cbn [length max_bucket foldr]; [f_equal; lia|].
  apply Forall_cons_1 in Hbs as [Hv Hbs]. unfold is_u32 in Hv. replace (buf_len pre - b + b) with (buf_len pre) by lia.
  cbn [app]. rewrite word_at_mid. cbn [mbind res_bind].
  specialize (IH (pre ++ [v]) post (b + 1) (if v >? acc then v else acc) Hbs ltac:(destruct (v >? acc); lia)).
  rewrite buf_len_app, <- app_assoc in IH. cbn [app] in IH. change (buf_len [v]) with 1 in IH.
  replace (buf_len pre + 1 - (b + 1)) with (buf_len pre - b) in IH by lia. rewrite IH. f_equal.
  destruct (Z.gtb_spec v acc); lia.
Qed.

(** From an even stretch the walk stops at the odd word behind it. *)
Lemma chain_end_spec ev : forall fuel pre v post c i,
  Forall (fun v => has v 1 = false) ev -> has v 1 = true -> (length ev < fuel)%nat -> c + i = buf_len pre ->
  chain_end fuel (pre ++ ev ++ v :: post) c i = Ok (i + Z.of_nat (length ev)).
Proof.
  induction ev as [|w ev IH]; intros fuel pre v post c i Hev Hv Hf Hc;
    (destruct fuel as [|fuel]; [cbn in Hf; lia|]); cbn [chain_end app length]; rewrite Hc, word_at_mid; cbn [mbind res_bind].
  - rewrite Hv. f_equal. lia.
  - apply Forall_cons_1 in Hev as [Hw Hev]. rewrite Hw.
    specialize (IH fuel (pre ++ [w]) v post c (i + 1) Hev Hv ltac:(cbn in Hf; lia)).
    rewrite buf_len_app, <- app_assoc in IH. cbn [app] in IH. change (buf_len [w]) with 1 in IH.
    rewrite IH by lia. f_equal. lia.
Qed.

(** The number of symbols taken from a well-formed GNU hash table
    is too large: the index into the chain array is added to the index of the
    symbol the last bucket starts with, instead of to the first hashed symbol.
    The count exceeds the real one by the distance of the two, so it is right
    only when all hashed symbols are in one bucket. *)
Theorem gnu_count_too_large (h : list Z) (symoffset max_idx n : Z) :
  gnu_table h symoffset max_idx n ->
  gnu_nsyms h = Ok (n + (max_idx - symoffset)).
Proof.
  intros [(shift & bloom & buckets & chain & -> & Hbl & Hbk & Hmax & Hn & Heven & v & Hlast & Hodd) Hr].
  set (nb := Z.of_nat (length buckets)) in *. set (nw := Z.of_nat (length bloom)) in *.
  set (pre := [nb; symoffset; nw; shift] ++ concat bloom).
  assert (Hpre : buf_len pre = 4 + nw * 2).
  { unfold pre. rewrite buf_len_app. change (buf_len [_; _; _; _]) with 4. f_equal. unfold buf_len, nw.
    clear -Hbl. induction Hbl as [|w bloom Hw _ IH]; cbn [concat length]; [done|]. rewrite length_app. lia. }
  assert (Hmax0 : 0 <= foldr Z.max 0 buckets) by (clear; induction buckets; cbn; lia).
  pose proof (max_bucket_spec buckets pre chain 0 0 Hbk ltac:(lia)) as HM.
  rewrite Z.sub_0_r, Hpre, Z.max_r, <- Hmax in HM by lia.
  apply list.last_Some in Hlast as [ch ->].
  rewrite length_app in Heven, Hn. cbn [length] in Heven, Hn.
  replace (length ch + 1 - 1)%nat with (length ch) in Heven by lia. rewrite take_app_length in Heven.
  assert (HC : chain_end (S (length (pre ++ buckets ++ ch ++ [v]))) (pre ++ buckets ++ ch ++ [v])
                 (4 + nw * 2 + nb) (max_idx - symoffset) = Ok (n - symoffset - 1)).
  { set (k := Z.to_nat (max_idx - symoffset)) in *.
    rewrite <- (take_drop k ch) at 2.
    replace (pre ++ buckets ++ (take k ch ++ drop k ch) ++ [v])
      with ((pre ++ buckets ++ take k ch) ++ drop k ch ++ v :: []) by (by rewrite <- !app_assoc).
    rewrite (chain_end_spec (drop k ch)); [|done..| |].
    - f_equal. rewrite length_drop. lia.
    - rewrite !length_app, length_drop. lia.
    - rewrite !buf_len_app, Hpre. unfold buf_len. rewrite length_take. lia. }
  rewrite app_assoc. fold pre.
  assert (Hw0 : word_at (pre ++ buckets ++ ch ++ [v]) 0 = Ok nb) by reflexivity.
  assert (Hw1 : word_at (pre ++ buckets ++ ch ++ [v]) 1 = Ok symoffset) by reflexivity.
  assert (Hw2 : word_at (pre ++ buckets ++ ch ++ [v]) 2 = Ok nw) by reflexivity.
  unfold gnu_nsyms. rewrite Hw0, Hw1, Hw2. cbn [mbind res_bind]. cbv zeta.
  replace (Z.to_nat nb) with (length buckets) by (unfold nb; lia). rewrite HM. cbn [mbind res_bind].
  replace (max_idx >=? symoffset) with true by lia. rewrite HC. cbn [mbind res_bind]. f_equal.
  unfold i32. rewrite signed_small by lia. lia.
Qed.

(** ** A small libc *)

(** Two buckets; "cond_init" has a hidden version before its default one and
    "memcpy" is an IFUNC. *)
Definition demo_syms : list elf_sym :=
  [ ElfSym (Some "") 0 0; ElfSym (Some "open") 0x100 2; ElfSym (Some "cond_init") 0x200 2;
    ElfSym (Some "cond_init") 0x300 2; ElfSym (Some "memcpy") 0x400 STT_GNU_IFUNC ]%string.

Definition demo_gnu_hash : list Z := [2; 1; 1; 6] ++ [0; 0] ++ [1; 3] ++ [2; 3; 4; 5].

Definition demo_libc : elf_lib :=
  ElfLib "/lib/libc.so.6" 0x7000 true (Some (fun i => demo_syms !! i)) true
    (Some (fun i => [0; 2; 0x8002; 2; 2] !! i)) None (Some demo_gnu_hash).

Lemma demo_gnu_table : gnu_table demo_gnu_hash 1 3 5.
Proof.
  split; [|lia]. exists 6, [[0; 0]], [1; 3], [2; 3; 4; 5].
  split_and!; [reflexivity|by repeat constructor| |reflexivity|reflexivity| |].
  - repeat constructor; unfold is_u32; lia.
  - by repeat constructor.
  - by exists 5.
Qed.

(** Five symbols are counted as seven. *)
Lemma gnu_count_too_large_witness : gnu_nsyms demo_gnu_hash = Ok 7.
Proof. exact (gnu_count_too_large demo_gnu_hash 1 3 5 demo_gnu_table). Defined.

(** C31 (refinement): The lookup chooses as a versioned symbol table asks.  An
    entry counts for a name if it has the name, has a value and is not an
    IFUNC; it is hidden if bit 15 of its version word is set.  Where the
    entries mean [ms] in this sense, the lookup gives the first entry that is
    not hidden; only where there is none, the first hidden one, and the
    dynamic linker's answer where there is neither.  The choice of an entry
    that is not hidden does not depend on what is behind the entries, even
    when the count is too large; for every other name a count that is too
    large makes the walk go on behind the table, which is undefined where that
    is not readable. *)
Theorem elf_lookup_refines (t : libc_tables) (real_dlsym : option (string -> Z)) (name : string) (ms : list sym_match) :
  entries_mean t name 0 ms -> Z.of_nat (length ms) <= elf_nsyms t ->
  match first_default ms with
  | Some addr => macify_elf_lookup (Some t) real_dlsym name = Ok addr
  | None =>
      (elf_nsyms t = Z.of_nat (length ms) ->
       macify_elf_lookup (Some t) real_dlsym name =
       Ok (if first_hidden ms =? 0 then fallback real_dlsym name else first_hidden ms)) /\
      (Z.of_nat (length ms) < elf_nsyms t -> elf_symtab t (length ms) = None ->
       macify_elf_lookup (Some t) real_dlsym name = Undef)
  end.
Proof.
  intros Hms Hn. unfold macify_elf_lookup.
  replace (Z.to_nat (elf_nsyms t)) with (length ms + (Z.to_nat (elf_nsyms t) - length ms))%nat by lia.
  rewrite (walk_entries t name ms 0 _ 0 Hms). cbn [Z.eqb Nat.add]. destruct (first_default ms) as [a|]; [done|]. split.
  - intros E. by replace (Z.to_nat (elf_nsyms t) - length ms)%nat with 0%nat by lia.
  - intros E Hend. destruct (Z.to_nat (elf_nsyms t) - length ms)%nat as [|k] eqn:Ek; [lia|].
    cbn [walk_symbols]. unfold match_symbol. by rewrite Hend.
Qed.

(** The default version is found behind the hidden one; a name that is only an
    IFUNC makes the walk leave the table. *)
Lemma elf_lookup_refines_witness :
  exists t, iterate find_libc_cb [demo_libc] = Ok (Some t) /\
    macify_elf_lookup (Some t) None "cond_init" = Ok 0x7300 /\
    macify_elf_lookup (Some t) (Some (fun _ => 0x9000)) "memcpy" = Undef.
Proof.
  exists (LibcTables 0x7000 (fun i => demo_syms !! i) 7 (Some (fun i => [0; 2; 0x8002; 2; 2] !! i))).
  split; [vm_compute; reflexivity|]. set (t := LibcTables _ _ _ _). split.
  - refine (elf_lookup_refines t None "cond_init" [NoMatch; NoMatch; HiddenMatch 0x7200; DefaultMatch 0x7300] _ _);
      [|vm_compute; discriminate].
    split; [eexists; split; [reflexivity|by left]|]. split.
    { eexists. split; [reflexivity|]. right. right. eexists. split; [reflexivity|by right]. }
    split; [|split; [|done]]; (eexists; split; [reflexivity|]; split_and!; try done; eexists; (split; [reflexivity|]); by split).
  - refine (proj2 (elf_lookup_refines t (Some (fun _ => 0x9000)) "memcpy" [NoMatch; NoMatch; NoMatch; NoMatch; NoMatch] _ _) _ eq_refl);
      [|vm_compute; discriminate|vm_compute; done].
    split; [eexists; split; [reflexivity|by left]|]. split; [|split; [|split; [|split; [|done]]]].
    1, 2, 3: eexists; split; [reflexivity|]; right; right; eexists; split; [reflexivity|by right].
    eexists. split; [reflexivity|]. by right; left.
Defined.

(** The names served from the fake handle are functions of that name, but for
    CFRetain, which is CFRelease. *)
Lemma sc_symbols_names :
  Forall (fun '(name, f) => f = name \/ f = ("macify_" +:+ name) \/ (name = "CFRetain" /\ f = "macify_CFRelease"))
    sc_symbols.
Proof. repeat (constructor; [first [left; reflexivity|right; left; reflexivity|right; right; done]|]). constructor. Qed.

(** Asked about its own text, a guest is told its own path and base. *)
Lemma dladdr_own_text (lo hi addr : Z) (path : string) real :
  0 < lo <= addr -> addr < hi -> (String.length path < 4096)%nat ->
  shim_dladdr lo hi path real addr = Some (path, lo).
Proof.
  intros Hlo Hhi Hp. unfold shim_dladdr. replace (_ && _ && _) with true by lia.
  unfold snprintf. by rewrite stake_all by lia.
Qed.
