(* ===== verification/Sysctl.v ===== *)
(** * System information (src/shim/misc/sysctl.c)

    sysctl, sysctlbyname and uname.  The guest passes a buffer and a length
    word, either of which may be NULL; what the host knows (processors, pages,
    names, the files of /proc) is a record.  Trace output and MACIFY_NO_PROCS
    are left out. *)
From Stdlib Require Import ZArith Lia Bool Ascii.
From stdpp Require Import base list strings numbers.
From S2P Require Import Prelude Buffers.

(** ** The host *)

(** [proc_first] and [proc_second] are the names in /proc when it is read the
    first and the second time ([None]: it cannot be opened); [proc_stat] is
    the first line of /proc/PID/stat, [proc_cmdline] the bytes of
    /proc/PID/cmdline; [hostname] is what gethostname leaves, at most 255
    characters. *)
Record sys_host := SysHost {
  ncpu : Z; phys_pages : Z; page_size : Z;
  release : string; hostname : string;
  now_sec : Z; now_usec : Z; uptime : option Z;
  proc_first : option (list string); proc_second : option (list string);
  proc_stat : Z -> option string;
  proc_cmdline : Z -> option (list Z)
}.

(** The return value with errno, the buffer and the length word afterwards. *)
Record answer := Answer { ans_ret : Z; ans_errno : Z; ans_buf : option (list Z); ans_len : option Z }.

Definition ENOENT_sys : Z := 2.
Definition ENOMEM_sys : Z := 12.
Definition EFAULT_sys : Z := 14.
Definition EINVAL_sys : Z := 22.

Definition fail (errno : Z) (b : option (list Z)) (len : option Z) : res answer := Ok (Answer (-1) errno b len).
Definition done_with (b : option (list Z)) (len : option Z) : res answer := Ok (Answer 0 0 b len).

(** ** The three ways a value is handed over *)

(** A value of fixed size: written when there is room, success in any case. *)
Definition give_fixed (bs : list Z) (b : option (list Z)) (len : option Z) : res answer :=
  match b, len with
  | Some l, Some n => if n >=? buf_len bs then l ← buf_put l 0 bs; done_with (Some l) (Some (buf_len bs))
                      else done_with b len
  | _, _ => done_with b len
  end.

Definition c_string (s : string) : list Z := string_bytes s ++ [0].

(** A string of [sysctl]: ENOMEM without room, the size when there is no
    buffer. *)
Definition give_string (s : string) (b : option (list Z)) (len : option Z) : res answer :=
  let bs := c_string s in
  match b, len with
  | Some l, Some n => if n <? buf_len bs then fail ENOMEM_sys b len
                      else l ← buf_put l 0 bs; done_with (Some l) (Some (buf_len bs))
  | None, Some _ => done_with None (Some (buf_len bs))
  | _, None => done_with b None
  end.

(** A string of [sysctlbyname]: written when there is room, the size always
    stored when there is a buffer. *)
Definition give_named_string (s : string) (b : option (list Z)) (len : option Z) : res answer :=
  let bs := c_string s in
  match b, len with
  | Some l, Some n => l ← (if n >=? buf_len bs then buf_put l 0 bs else Ok l);
                      done_with (Some l) (Some (buf_len bs))
  | _, _ => done_with b len
  end.

(** ** The process list *)

Definition KINFO_PROC_SIZE : Z := 648.
Definition KP_P_FLAG : Z := 0x20.
Definition KP_P_PID : Z := 0x28.
Definition KP_P_STAT : Z := 0xf0.
Definition KP_E_PPID : Z := 0x230.
Definition KP_E_PGID : Z := 0x234.
Definition KP_E_TDEV : Z := 0x23c.
Definition KP_E_TPGID : Z := 0x240.

Definition digit (c : ascii) : option Z :=
  let n := Z.of_N (N_of_ascii c) in if (48 <=? n) && (n <=? 57) then Some (n - 48) else None.

Definition is_space (c : ascii) : bool :=
  let n := Z.of_N (N_of_ascii c) in (n =? 32) || ((9 <=? n) && (n <=? 13)).

Fixpoint all_digits (s : string) : bool :=
  match s with EmptyString => true | String c s => match digit c with Some _ => all_digits s | None => false end end.

Definition is_pid (name : string) : bool := all_digits name && negb (streq name "").

(** The digits at the front as a number, and the rest. *)
Fixpoint digits (s : string) (acc : Z) : Z * string :=
  match s with
  | String c s' => match digit c with Some d => digits s' (10 * acc + d) | None => (acc, s) end
  | EmptyString => (acc, s)
  end.

Fixpoint skip_space (s : string) : string :=
  match s with String c s' => if is_space c then skip_space s' else s | EmptyString => s end.

(** A [%d] of sscanf with the white space before it. *)
Definition scan_int (s : string) : option (Z * string) :=
  let s := skip_space s in
  let '(sign, s) := match s with
                    | String c s' => if (c =? "-")%char then (-1, s') else if (c =? "+")%char then (1, s') else (1, s)
                    | EmptyString => (1, s)
                    end in
  match s with
  | String c _ => match digit c with Some _ => let '(n, r) := digits s 0 in Some (sign * n, r) | None => None end
  | EmptyString => None
  end.

Fixpoint scan_ints (n : nat) (s : string) : option (list Z) :=
  match n with
  | O => Some []
  | S n => match scan_int s with
           | Some (v, s) => match scan_ints n s with Some vs => Some (v :: vs) | None => None end
           | None => None
           end
  end.

(** What is behind the last [')'] ([strrchr]). *)
Fixpoint after_paren (s : string) : option string :=
  match s with
  | EmptyString => None
  | String c s => match after_paren s with
                  | Some r => Some r
                  | None => if (c =? ")")%char then Some s else None
                  end
  end.

(** The state and the six numbers of a line; [Undef] when [p += 2] leaves the
    line. *)
Definition parse_stat (line : string) : res (option (ascii * list Z)) :=
  match after_paren line with
  | None => Ok None
  | Some EmptyString => Undef
  | Some (String _ EmptyString) => Ok None
  | Some (String _ (String state rest)) =>
      Ok (match scan_ints 6 rest with Some vs => Some (state, vs) | None => None end)
  end.

(** SRUN 2, SSLEEP 3, SSTOP 4, SZOMB 5, SIDL 1. *)
Definition mac_stat (state : ascii) : Z :=
  if (state =? "R")%char then 2 else if (state =? "S")%char then 3 else if (state =? "D")%char then 3 else
  if (state =? "Z")%char then 5 else if (state =? "T")%char then 4 else if (state =? "I")%char then 1 else 3.

(** One record of the array, written at [kp]. *)
Definition put_proc (h : sys_host) (out : list Z) (kp pid : Z) : res (list Z) :=
  out ← buf_put out (kp + KP_P_PID) (le_bytes 4 pid);
  match proc_stat h pid with
  | None => Ok out
  | Some line =>
      r ← parse_stat (snprintf 1024 line);
      match r with
      | Some (state, [ppid; pgrp; session; tty_nr; tpgid; flags]) =>
          put_all out
            [ (kp + KP_E_PPID, le_bytes 4 ppid); (kp + KP_E_PGID, le_bytes 4 pgrp); (kp + KP_E_TDEV, le_bytes 4 tty_nr);
              (kp + KP_E_TPGID, le_bytes 4 tpgid); (kp + KP_P_FLAG, le_bytes 4 flags); (kp + KP_P_STAT, [mac_stat state]) ]
      | _ => Ok out
      end
  end.

(** The second walk over /proc: at most [count] records. *)
Fixpoint put_procs (h : sys_host) (names : list string) (idx count : Z) (out : list Z) : res (list Z) :=
  match names with
  | [] => Ok out
  | name :: names =>
      if idx <? count then
        if is_pid name then out ← put_proc h out (idx * KINFO_PROC_SIZE) (i32 (digits name 0).1);
                            put_procs h names (idx + 1) count out
        else put_procs h names idx count out
      else Ok out
  end.

Definition count_pids (names : list string) : Z := Z.of_nat (length (filter (fun n => is_pid n = true) names)).

Definition kern_proc (h : sys_host) (b : option (list Z)) (len : option Z) : res answer :=
  match proc_first h with
  | None => fail ENOENT_sys b len
  | Some names =>
      let count := count_pids names in
      let needed := count * KINFO_PROC_SIZE in
      match b, len with
      | None, None => done_with None None
      | None, Some _ => done_with None (Some needed)
      | Some _, None => fail EFAULT_sys b len
      | Some out, Some n =>
          if n <? needed then fail ENOMEM_sys b len else
          out ← buf_put out 0 (replicate (Z.to_nat needed) 0);
          match proc_second h with
          | None => fail ENOENT_sys (Some out) len
          | Some names => out ← put_procs h names 0 count out; done_with (Some out) (Some needed)
          end
      end
  end.

(** ** The arguments of a process *)

(** The [argc] loop over the bytes read: [strlen] on an argument without its
    NUL leaves them. *)
Fixpoint count_args (bs : list Z) (inside : bool) (argc : Z) : res Z :=
  match bs with
  | [] => if inside then Undef else Ok argc
  | c :: bs => let argc := if inside then argc else argc + 1 in count_args bs (negb (c =? 0)) argc
  end.

Definition kern_procargs2 (h : sys_host) (pid : Z) (b : option (list Z)) (len : option Z) : res answer :=
  match proc_cmdline h pid with
  | None => fail ENOENT_sys b len
  | Some content =>
      let buf := take (Z.to_nat 65535) content in
      argc ← count_args buf false 0;
      let total := 4 + buf_len buf in
      match b, len with
      | None, None => done_with None None
      | None, Some _ => done_with None (Some total)
      | Some _, None => fail ENOMEM_sys b len
      | Some l, Some n =>
          if n <? total then fail ENOMEM_sys b len else
          l ← buf_put l 0 (le_bytes 4 argc);
          l ← buf_put l 4 buf;
          done_with (Some l) (Some total)
      end
  end.

(** ** [sysctl] *)

Definition mem_size (h : sys_host) : Z := u64 (phys_pages h * page_size h).

Definition boot_time (h : sys_host) : list Z :=
  le_bytes 8 (match uptime h with Some u => now_sec h - u | None => now_sec h end) ++ le_bytes 8 (now_usec h).

(** [name] has at least [namelen] words. *)
Definition sysctl (h : sys_host) (name : list Z) (b : option (list Z)) (len : option Z) : res answer :=
  match name with
  | [] => Ok (Answer (-1) 0 b len)
  | top :: rest =>
      if top =? 6 then
        match rest with
        | [] => Ok (Answer (-1) 0 b len)
        | id :: _ =>
            if id =? 3 then give_fixed (le_bytes 4 (ncpu h)) b len else
            if id =? 24 then give_fixed (le_bytes 8 (mem_size h)) b len else
            if id =? 7 then give_fixed (le_bytes 4 (page_size h)) b len else fail ENOENT_sys b len
        end
      else if top =? 1 then
        match rest with
        | [] => Ok (Answer (-1) 0 b len)
        | id :: args =>
            if id =? 14 then kern_proc h b len else
            if id =? 8 then give_fixed (boot_time h) b len else
            if id =? 49 then match args with [] => fail EINVAL_sys b len | pid :: _ => kern_procargs2 h pid b len end else
            if id =? 1 then give_string "Darwin" b len else
            if id =? 2 then give_string (release h) b len else
            if id =? 10 then give_string (hostname h) b len else fail ENOENT_sys b len
        end
      else fail ENOENT_sys b len
  end.

(** ** [sysctlbyname] *)

Definition named_strings (h : sys_host) : list (string * string) :=
  [ ("kern.ostype", "Darwin"); ("kern.osrelease", "23.5.0"); ("kern.osversion", "23F79");
    ("kern.osproductversion", "14.5"); ("kern.hostname", hostname h); ("hw.machine", "x86_64");
    ("hw.model", "MacPro6,1"); ("kern.uuid", "00000000-0000-0000-0000-000000000000") ]%string.

Fixpoint named (name : string) (l : list (string * string)) : option string :=
  match l with [] => None | (k, v) :: l => if streq k name then Some v else named name l end.

(** The empty boot arguments: one NUL, whatever the length word says. *)
Definition give_bootargs (b : option (list Z)) (len : option Z) : res answer :=
  match b, len with
  | Some l, Some _ => l ← buf_put l 0 [0]; done_with (Some l) (Some 1)
  | _, _ => done_with b len
  end.

Definition sysctlbyname (h : sys_host) (name : option string) (b : option (list Z)) (len : option Z) : res answer :=
  match name with
  | None => Ok (Answer (-1) 0 b len)
  | Some name =>
      if streq name "hw.ncpu" || streq name "hw.logicalcpu" || streq name "hw.physicalcpu"
      then give_fixed (le_bytes 4 (ncpu h)) b len else
      if streq name "hw.memsize" then give_fixed (le_bytes 8 (mem_size h)) b len else
      if streq name "hw.pagesize" then give_fixed (le_bytes 4 (page_size h)) b len else
      if streq name "kern.bootargs" then give_bootargs b len else
      match named name (named_strings h) with
      | Some s => give_named_string s b len
      | None => fail ENOENT_sys b len
      end
  end.

(** ** [uname] for a guest *)

Definition uname_fields (h : sys_host) : list string :=
  [ "Darwin"; hostname h; "23.5.0";
    "Darwin Kernel Version 23.5.0: root;xnu_11215.81.4~3/RELEASE_X86_64"; "x86_64" ]%string.

Definition uname (h : sys_host) (buf : option (list Z)) : res answer :=
  match buf with
  | None => fail EFAULT_sys None None
  | Some buf =>
      buf ← buf_put buf 0 (replicate 1280 0);
      buf ← put_all buf (imap (fun i f => (Z.of_nat i * 256, c_string f)) (uname_fields h));
      done_with (Some buf) None
  end.

(** ** Definedness and frames *)

(** Every line of a stat file reaches two characters past its last
    parenthesis, as the lines the kernel writes do. *)
Definition stat_lines_ok (h : sys_host) : Prop :=
  forall pid line, proc_stat h pid = Some line -> parse_stat (snprintf 1024 line) <> Undef.

Lemma parse_stat_no_fuel line : parse_stat line <> NoFuel.
Proof. unfold parse_stat. by repeat case_match. Qed.

(** The fields of a record in the order they are written. *)
Definition proc_writes (kp : Z) (state : ascii) (ppid pgrp tty_nr tpgid flags : Z) : list (Z * list Z) :=
  [ (kp + KP_E_PPID, le_bytes 4 ppid); (kp + KP_E_PGID, le_bytes 4 pgrp); (kp + KP_E_TDEV, le_bytes 4 tty_nr);
    (kp + KP_E_TPGID, le_bytes 4 tpgid); (kp + KP_P_FLAG, le_bytes 4 flags); (kp + KP_P_STAT, [mac_stat state]) ].

Lemma proc_writes_ok kp state ppid pgrp tty_nr tpgid flags :
  0 <= kp ->
  let ws := proc_writes kp state ppid pgrp tty_nr tpgid flags in
  Forall (write_in kp (kp + KINFO_PROC_SIZE)) ws /\ apart ws /\
  Forall (fun w => kp + KP_P_PID + 4 <= w.1 \/ w.1 + buf_len w.2 <= kp + KP_P_PID) ws.
Proof.
  intros Hkp ws. unfold ws, proc_writes, KP_E_PPID, KP_E_PGID, KP_E_TDEV, KP_E_TPGID, KP_P_FLAG, KP_P_STAT, KP_P_PID,
    KINFO_PROC_SIZE. cbn [apart].
  split_and!; repeat (apply Forall_cons_2; [|]); try apply Forall_nil_2; try exact I; unfold write_in; cbn [fst snd];
    rewrite ?buf_len_le_bytes; change (buf_len [_]) with 1; lia.
Qed.

(** What a record shows of a process. *)
Definition shows (h : sys_host) (out : list Z) (kp pid : Z) : Prop :=
  slice out (kp + KP_P_PID) 4 = le_bytes 4 pid /\
  match proc_stat h pid with
  | None => True
  | Some line =>
      match parse_stat (snprintf 1024 line) with
      | Ok (Some (state, [ppid; pgrp; session; tty_nr; tpgid; flags])) =>
          Forall (fun w => slice out w.1 (buf_len w.2) = w.2) (proc_writes kp state ppid pgrp tty_nr tpgid flags)
      | _ => True
      end
  end.

(** A record is written inside its 648 bytes. *)
Lemma put_proc_spec h out kp pid :
  stat_lines_ok h -> 0 <= kp -> kp + KINFO_PROC_SIZE <= buf_len out ->
  exists out', put_proc h out kp pid = Ok out' /\ confined kp (kp + KINFO_PROC_SIZE) out out' /\ shows h out' kp pid.
Proof.
  intros Hst Hkp Hl. unfold put_proc, shows.
  destruct (buf_put_within kp (kp + KINFO_PROC_SIZE) out (kp + KP_P_PID) (le_bytes 4 pid)) as (o1 & E1 & C1 & S1);
    [unfold KP_P_PID, KINFO_PROC_SIZE in *; rewrite ?buf_len_le_bytes; lia..|].
  rewrite buf_len_le_bytes in S1. rewrite E1. cbn [mbind res_bind].
  destruct (proc_stat h pid) as [line|] eqn:El; [|by exists o1].
  specialize (Hst _ _ El). pose proof (parse_stat_no_fuel (snprintf 1024 line)) as Hnf.
  destruct (parse_stat _) as [[[state vs]|]| |]; try done; cbn [mbind res_bind]; [|by exists o1].
  destruct vs as [|ppid [|pgrp [|session [|tty_nr [|tpgid [|flags [|]]]]]]]; try (by exists o1).
  destruct (proc_writes_ok kp state ppid pgrp tty_nr tpgid flags Hkp) as (Hw & Ha & Hpid).
  destruct (put_all_spec kp (kp + KINFO_PROC_SIZE) _ o1 ltac:(rewrite (confined_len _ _ _ _ C1); lia) Hw Ha) as (o2 & E2 & C2 & S2 & O2).
  exists o2. split; [exact E2|]. split; [by transitivity o1|]. split; [|exact S2].
  rewrite O2; [done|unfold KP_P_PID; lia|exact Hpid].
Qed.

Lemma shows_confined h out out' kp pid lo hi :
  confined lo hi out out' -> 0 <= kp -> kp + KINFO_PROC_SIZE <= lo \/ hi <= kp -> shows h out kp pid -> shows h out' kp pid.
Proof.
  intros C Hkp Hor [Hp Hs]. unfold shows, KINFO_PROC_SIZE in *. split.
  - apply (confined_slice lo hi out); [done|unfold KP_P_PID; lia..|done].
  - destruct (proc_stat h pid) as [line|]; [|done]. destruct (parse_stat _) as [[[state vs]|]| |]; try done.
    destruct vs as [|ppid [|pgrp [|session [|tty_nr [|tpgid [|flags [|]]]]]]]; try done.
    destruct (proc_writes_ok kp state ppid pgrp tty_nr tpgid flags Hkp) as (Hw & _).
    rewrite Forall_forall in Hw, Hs |- *. intros w Hin. apply (confined_slice lo hi out); [done| | |by apply Hs].
    all: destruct (Hw _ Hin) as (? & ? & ?); unfold KINFO_PROC_SIZE in *; lia.
Qed.

(** The pids among the names, in order. *)
Definition pids (names : list string) : list Z :=
  map (fun n => i32 (digits n 0).1) (filter (fun n => is_pid n = true) names).

Lemma put_procs_spec h count names : forall idx out,
  stat_lines_ok h -> 0 <= idx -> count * KINFO_PROC_SIZE <= buf_len out ->
  exists out', put_procs h names idx count out = Ok out' /\
    confined (idx * KINFO_PROC_SIZE) (count * KINFO_PROC_SIZE) out out' /\
    (forall i pid, pids names !! i = Some pid -> idx + Z.of_nat i < count ->
       shows h out' ((idx + Z.of_nat i) * KINFO_PROC_SIZE) pid).
Proof.
  induction names as [|n names IH]; intros idx out Hh Hidx Hl; cbn [put_procs].
  { exists out. split_and!; done. }
  destruct (Z.ltb_spec idx count) as [Hlt|Hge].
  2: { exists out. split_and!; [done|done|]. intros i pid _ Hi. lia. }
  unfold pids. rewrite filter_cons. destruct (is_pid n) eqn:En; [rewrite decide_True by done|rewrite decide_False by done].
  2: { by apply IH. }
  set (pid := i32 (digits n 0).1). cbn [map].
  destruct (put_proc_spec h out (idx * KINFO_PROC_SIZE) pid Hh) as (o1 & -> & C1 & S1);
    [unfold KINFO_PROC_SIZE in *; lia..|]. cbn [mbind res_bind].
  destruct (IH (idx + 1) o1 Hh ltac:(lia) ltac:(rewrite (confined_len _ _ _ _ C1); lia)) as (o2 & -> & C2 & S2).
  exists o2. split; [done|]. split.
  - transitivity o1; (eapply confined_weaken; [| |done]); unfold KINFO_PROC_SIZE in *; lia.
  - intros [|i] q; cbn [lookup list_lookup].
    + intros [= <-] _. rewrite Z.add_0_r. eapply shows_confined; [exact C2| | |exact S1]; unfold KINFO_PROC_SIZE; lia.
    + intros Hq Hi. replace (idx + Z.of_nat (S i)) with (idx + 1 + Z.of_nat i) by lia. apply S2; [done|lia].
Qed.

Lemma length_pids names : Z.of_nat (length (pids names)) = count_pids names.
Proof. unfold pids, count_pids. by rewrite length_map. Qed.

(** The process list.  Called without a buffer, sysctl gives
    the size of the array of process records; called with that much room or
    more, it fills in one record of 648 bytes for every process that both
    walks over /proc saw at that place, with the process identifier and what
    the kernel's stat line says of parent, group, terminal, flags and state,
    reports the size, and leaves the bytes behind the array alone; with less
    it is ENOMEM and nothing is written. *)
Theorem kern_proc_lists (h : sys_host) (args : list Z) (first second : list string) (out : list Z) (n : Z) :
  stat_lines_ok h -> proc_first h = Some first -> proc_second h = Some second -> 0 <= n <= buf_len out ->
  let needed := count_pids first * KINFO_PROC_SIZE in
  sysctl h (1 :: 14 :: args) None (Some n) = Ok (Answer 0 0 None (Some needed)) /\
  if n <? needed then sysctl h (1 :: 14 :: args) (Some out) (Some n) = Ok (Answer (-1) ENOMEM_sys (Some out) (Some n)) else
  exists out', sysctl h (1 :: 14 :: args) (Some out) (Some n) = Ok (Answer 0 0 (Some out') (Some needed)) /\
    confined 0 needed out out' /\
    forall i pid, pids second !! i = Some pid -> Z.of_nat i < count_pids first ->
      shows h out' (Z.of_nat i * KINFO_PROC_SIZE) pid.
Proof.
  intros Hh Hf Hs Hn needed.
  assert (Hc : 0 <= count_pids first) by (unfold count_pids; lia).
  change (sysctl h (1 :: 14 :: args)) with (kern_proc h). unfold kern_proc. rewrite Hf, Hs. split; [done|].
  cbv zeta. fold needed. destruct (Z.ltb_spec n needed) as [Hlt|Hge]; [done|].
  destruct (buf_put_within 0 needed out 0 (replicate (Z.to_nat needed) 0)) as (o1 & -> & C1 & _);
    [lia|lia|unfold buf_len; rewrite length_replicate; subst needed; unfold KINFO_PROC_SIZE in *; lia|lia|].
  cbn [mbind res_bind].
  destruct (put_procs_spec h (count_pids first) second 0 o1 Hh) as (o2 & -> & C2 & S2);
    [lia|rewrite (confined_len _ _ _ _ C1); unfold needed in *; lia|].
  cbn [mbind res_bind]. exists o2. split; [done|]. split; [|exact S2]. by transitivity o1.
Qed.

Definition demo_host : sys_host :=
  SysHost 4 1000 4096 "6.1.0" "box" 1000000 5 (Some 400) (Some ["1"; "self"; "23"]%string) (Some ["1"; "self"; "23"]%string)
    (fun pid => if pid =? 1 then Some "1 (init) S 0 1 1 0 -1 4194560"%string else
                if pid =? 23 then Some "23 (a) b) R 1 23 23 34816 23 64"%string else None)
    (fun pid => if pid =? 1 then Some [97; 0; 98; 99; 0] else None).

Lemma demo_host_ok : stat_lines_ok demo_host.
Proof.
  intros pid line. cbn. destruct (pid =? 1); [intros [= <-]; vm_compute; discriminate|].
  destruct (pid =? 23); [intros [= <-]; vm_compute; discriminate|done].
Qed.

(** Two processes; the second record shows pid 23 with parent 1. *)
Lemma kern_proc_lists_witness :
  exists out', sysctl demo_host [1; 14; 0] (Some (replicate 1400 7)) (Some 1400)
               = Ok (Answer 0 0 (Some out') (Some 1296)) /\
    shows demo_host out' 648 23 /\ slice out' 1296 104 = replicate 104 7.
Proof.
  pose proof (kern_proc_lists demo_host [0] ["1"; "self"; "23"]%string ["1"; "self"; "23"]%string
    (replicate (Z.to_nat 1400) 7) 1400 demo_host_ok eq_refl eq_refl
    ltac:(unfold buf_len; rewrite length_replicate; lia)) as [_ H].
  destruct H as (out' & Hr & C & S). exists out'. split; [exact Hr|]. split.
  - exact (S 1%nat 23 eq_refl ltac:(vm_compute; reflexivity)).
  - rewrite (confined_out _ _ _ _ C 1296 104); [reflexivity|lia|right; vm_compute; discriminate].
Defined.

(** ** Every call stays in the guest's buffer *)

(** A buffer has at least the bytes its length word offers. *)
Definition fits (b : option (list Z)) (len : option Z) : Prop :=
  match b, len with Some l, Some n => 0 <= n <= buf_len l | _, _ => True end.

(** The call returns and leaves what is behind the bytes offered alone;
    without a length word nothing is offered. *)
Definition keeps (b : option (list Z)) (len : option Z) (r : res answer) : Prop :=
  exists a, r = Ok a /\
    match b, ans_buf a with
    | Some l, Some l' => confined 0 (default 0 len) l l'
    | None, None => True
    | _, _ => False
    end.

Lemma keeps_same b len ret e len' : keeps b len (Ok (Answer ret e b len')).
Proof. exists (Answer ret e b len'). by destruct b. Qed.

Lemma give_fixed_keeps bs b len : fits b len -> keeps b len (give_fixed bs b len).
Proof.
  unfold give_fixed. destruct b as [l|], len as [n|]; try (intros; apply keeps_same). cbn. intros Hn.
  destruct (Z.geb_spec n (buf_len bs)); [|apply keeps_same].
  destruct (buf_put_within 0 n l 0 bs) as (l' & -> & C & _); [lia..|]. by eexists.
Qed.

Lemma give_string_keeps s b len : fits b len -> keeps b len (give_string s b len).
Proof.
  unfold give_string. destruct b as [l|], len as [n|]; try (intros; apply keeps_same). cbn. intros Hn.
  destruct (Z.ltb_spec n (buf_len (c_string s))); [apply keeps_same|].
  destruct (buf_put_within 0 n l 0 (c_string s)) as (l' & -> & C & _); [lia..|]. by eexists.
Qed.

Lemma give_named_string_keeps s b len : fits b len -> keeps b len (give_named_string s b len).
Proof.
  unfold give_named_string. destruct b as [l|], len as [n|]; try (intros; apply keeps_same). cbn. intros Hn.
  destruct (Z.geb_spec n (buf_len (c_string s))); [|by eexists].
  destruct (buf_put_within 0 n l 0 (c_string s)) as (l' & -> & C & _); [lia..|]. by eexists.
Qed.

Lemma kern_proc_keeps h b len : stat_lines_ok h -> fits b len -> keeps b len (kern_proc h b len).
Proof.
  intros Hh Hn. unfold kern_proc. destruct (proc_first h) as [first|]; [|apply keeps_same]. cbv zeta.
  destruct b as [l|], len as [n|]; try apply keeps_same. cbn in Hn.
  set (needed := count_pids first * KINFO_PROC_SIZE).
  assert (0 <= needed) by (unfold needed, count_pids, KINFO_PROC_SIZE; lia).
  destruct (Z.ltb_spec n needed); [apply keeps_same|].
  destruct (buf_put_within 0 needed l 0 (replicate (Z.to_nat needed) 0)) as (o1 & -> & C1 & _);
    [lia|lia|unfold buf_len; rewrite length_replicate; lia|lia|]. cbn [mbind res_bind].
  destruct (proc_second h) as [second|].
  2: { eexists. split; [done|]. cbn. eapply confined_weaken; [| |exact C1]; lia. }
  destruct (put_procs_spec h (count_pids first) second 0 o1 Hh) as (o2 & -> & C2 & _);
    [lia|rewrite (confined_len _ _ _ _ C1); unfold needed in *; lia|].
  eexists. split; [done|]. cbn. eapply confined_weaken; [| |transitivity o1; [exact C1|exact C2]]; lia.
Qed.

(** The arguments can be counted exactly when the bytes read are empty or end
    in a NUL. *)
Definition ends_in_nul (bs : list Z) : bool := (List.last bs 0 =? 0).

Lemma last_default (c : Z) (bs : list Z) (d d' : Z) : List.last (c :: bs) d = List.last (c :: bs) d'.
Proof. revert c. induction bs as [|c' bs IH]; intros c; [done|exact (IH c')]. Qed.

Lemma count_args_defined bs : forall (inside : bool) (argc : Z),
  if List.last bs (if inside then 1 else 0) =? 0
  then exists r, count_args bs inside argc = Ok r else count_args bs inside argc = Undef.
Proof.
  induction bs as [|c bs IH]; intros inside argc; [destruct inside; cbn; by try eexists|].
  cbn [count_args]. specialize (IH (negb (c =? 0)) (if inside then argc else argc + 1)).
  destruct bs as [|c' bs]; [|by rewrite (last_default c' bs _ (if inside then 1 else 0)) in IH].
  cbn [List.last] in *. by destruct (c =? 0).
Qed.

(** A request for the arguments of a process whose command line, of which
    65535 bytes are read, does not end in a NUL there. *)
Definition unterminated (h : sys_host) (name : list Z) : bool :=
  match name with
  | top :: id :: pid :: _ =>
      (top =? 1) && (id =? 49) &&
      match proc_cmdline h pid with Some content => negb (ends_in_nul (take (Z.to_nat 65535) content)) | None => false end
  | _ => false
  end.

Lemma kern_procargs2_keeps h pid args b len :
  fits b len ->
  if unterminated h (1 :: 49 :: pid :: args) then kern_procargs2 h pid b len = Undef
  else keeps b len (kern_procargs2 h pid b len).
Proof.
  intros Hn. unfold kern_procargs2, unterminated. cbn [Z.eqb andb].
  destruct (proc_cmdline h pid) as [content|] eqn:E; [|apply keeps_same].
  cbv zeta. set (buf := take _ content). pose proof (count_args_defined buf false 0) as Hc. unfold ends_in_nul.
  destruct (List.last buf 0 =? 0); cbn [negb].
  2: { by rewrite Hc. }
  destruct Hc as [argc ->]. cbn [mbind res_bind].
  pose proof (buf_len_nonneg buf). destruct b as [l|], len as [n|]; try apply keeps_same. cbn in Hn.
  destruct (Z.ltb_spec n (4 + buf_len buf)); [apply keeps_same|].
  destruct (buf_put_within 0 n l 0 (le_bytes 4 argc)) as (l1 & -> & C1 & _); [rewrite ?buf_len_le_bytes; lia..|].
  cbn [mbind res_bind].
  destruct (buf_put_within 0 n l1 4 buf) as (l2 & -> & C2 & _); [lia|lia|lia|rewrite (confined_len _ _ _ _ C1); lia|].
  eexists. split; [done|]. cbn. by transitivity l1.
Qed.

(** C33 (bounds): sysctl and sysctlbyname stay in the guest's buffer.  With or
    without a buffer and a length word, where the buffer has the bytes the
    word offers, each call returns and writes nothing behind them.  There are
    two exceptions: counting the arguments of a process (KERN_PROCARGS2) is
    undefined when the first 65535 bytes of its command line do not end in a
    NUL, because strlen then leaves them; and "kern.bootargs" stores its NUL
    even into a buffer of which no byte is offered.  The stat lines of /proc
    are taken to go on behind their last parenthesis, as the kernel's do. *)
Theorem sysctl_in_bounds (h : sys_host) (name : list Z) (byname : option string) (b : option (list Z)) (len : option Z) :
  stat_lines_ok h -> fits b len ->
  (if unterminated h name then sysctl h name b len = Undef else keeps b len (sysctl h name b len)) /\
  (byname <> Some "kern.bootargs"%string -> keeps b len (sysctlbyname h byname b len)) /\
  (forall l, 1 <= buf_len l -> exists a l', sysctlbyname h (Some "kern.bootargs"%string) (Some l) (Some 0) = Ok a /\
     ans_buf a = Some l' /\ slice l' 0 1 = [0]).
Proof.
  intros Hh Hn. split_and!.
  - unfold sysctl. destruct name as [|top [|id args]]; [apply keeps_same| |].
    { cbn [unterminated]. repeat case_match; apply keeps_same. }
    destruct (Z.eqb_spec top 6) as [->|].
    { replace (unterminated h (6 :: id :: args)) with false by (by destruct args).
      repeat case_match; (apply give_fixed_keeps || apply keeps_same); done. }
    destruct (Z.eqb_spec top 1) as [->|Htop].
    2: { replace (unterminated h (top :: id :: args)) with false; [apply keeps_same|].
         destruct args; cbn; [done|]. by apply Z.eqb_neq in Htop as ->. }
    destruct (Z.eqb_spec id 49) as [->|Hid].
    { cbn [Z.eqb Pos.eqb]. destruct args as [|pid args]; [apply keeps_same|]. by apply kern_procargs2_keeps. }
    replace (unterminated h (1 :: id :: args)) with false by (destruct args; cbn; [done|by apply Z.eqb_neq in Hid as ->]).
    repeat case_match; by (apply kern_proc_keeps || apply give_fixed_keeps || apply give_string_keeps || apply keeps_same).
  - intros Hne. unfold sysctlbyname. destruct byname as [name'|]; [|apply keeps_same].
    assert (streq name' "kern.bootargs" = false) as -> by (apply bool_decide_eq_false_2; congruence).
    repeat case_match; by (apply give_fixed_keeps || apply give_named_string_keeps || apply keeps_same).
  - intros l Hl. change (sysctlbyname h _ (Some l) (Some 0)) with (give_bootargs (Some l) (Some 0)). unfold give_bootargs.
    destruct (buf_put_within 0 1 l 0 [0]) as (l' & -> & _ & S); [lia|lia|unfold buf_len; cbn [length]; lia|lia|]. by eexists _, l'.
Qed.

(** A buffer of 64 bytes of which 32 are offered, and no buffer. *)
Lemma sysctl_in_bounds_witness :
  keeps (Some (replicate 64 7)) (Some 32) (sysctl demo_host [1; 49; 1] (Some (replicate 64 7)) (Some 32)) /\
  keeps (Some (replicate 64 7)) (Some 32) (sysctlbyname demo_host (Some "hw.model"%string) (Some (replicate 64 7)) (Some 32)) /\
  keeps None (Some 0) (sysctl demo_host [1; 14] None (Some 0)).
Proof.
  destruct (sysctl_in_bounds demo_host [1; 49; 1] (Some "hw.model"%string) (Some (replicate 64 7)) (Some 32) demo_host_ok
    ltac:(vm_compute; split; discriminate)) as (H1 & H2 & _).
  destruct (sysctl_in_bounds demo_host [1; 14] None None (Some 0) demo_host_ok I) as (H3 & _).
  split_and!; [exact H1|apply H2; discriminate|exact H3].
Defined.

(** How a guest learns the size of a string.  With sysctl the
    call without a buffer gives the size, a buffer of that size gets the
    string and a smaller one ENOMEM.  With sysctlbyname the call without a
    buffer succeeds but stores no size, and a buffer that is too small gets
    success, no bytes and only the new length. *)
Theorem string_size_protocol (h : sys_host) (name : string) (s : string) (l : list Z) (n : Z) :
  named name (named_strings h) = Some s -> 0 <= n <= buf_len l ->
  let size := buf_len (c_string (release h)) in
  sysctl h [1; 2] None (Some n) = Ok (Answer 0 0 None (Some size)) /\
  (size <= n -> exists l', sysctl h [1; 2] (Some l) (Some n) = Ok (Answer 0 0 (Some l') (Some size)) /\
     slice l' 0 size = c_string (release h)) /\
  (n < size -> sysctl h [1; 2] (Some l) (Some n) = Ok (Answer (-1) ENOMEM_sys (Some l) (Some n))) /\
  sysctlbyname h (Some name) None (Some n) = Ok (Answer 0 0 None (Some n)) /\
  (n < buf_len (c_string s) ->
   sysctlbyname h (Some name) (Some l) (Some n) = Ok (Answer 0 0 (Some l) (Some (buf_len (c_string s))))).
Proof.
  intros Hname Hn size.
  assert (Hby : forall b len, sysctlbyname h (Some name) b len = give_named_string s b len).
  { intros b len. unfold named_strings in Hname. cbn [named] in Hname. unfold streq in Hname.
    repeat (case_bool_decide; [subst name; injection Hname as <-; reflexivity|]). done. }
  rewrite Hby. change (sysctl h [1; 2]) with (give_string (release h)). unfold give_string. cbv zeta. fold size.
  split_and!; [done| | |done|].
  - intros Hs. replace (n <? size) with false by lia.
    destruct (buf_put_within 0 size l 0 (c_string (release h))) as (l' & -> & _ & S); [lia..|]. by exists l'.
  - intros Hs. by replace (n <? size) with true by lia.
  - intros Hs. rewrite Hby. unfold give_named_string. cbv zeta. by replace (n >=? buf_len (c_string s)) with false by lia.
Qed.

(** A kernel release of five characters, and the model name in four bytes. *)
Lemma string_size_protocol_witness :
  sysctl demo_host [1; 2] None (Some 4) = Ok (Answer 0 0 None (Some 6)) /\
  sysctlbyname demo_host (Some "hw.model"%string) (Some [1; 2; 3; 4]) (Some 4) = Ok (Answer 0 0 (Some [1; 2; 3; 4]) (Some 10)).
Proof.
  destruct (string_size_protocol demo_host "hw.model" "MacPro6,1" [1; 2; 3; 4] 4 eq_refl
    ltac:(vm_compute; split; discriminate)) as (H1 & _ & _ & _ & H2).
  split; [exact H1|exact (H2 eq_refl)].
Defined.

Lemma buf_len_c_string s : buf_len (c_string s) = Z.of_nat (String.length s) + 1.
Proof. unfold buf_len, c_string. rewrite length_app, length_string_bytes. cbn [length]. lia. Qed.

Lemma uname_writes h :
  imap (fun i f => (Z.of_nat i * 256, c_string f)) (uname_fields h) =
  [ (0, c_string "Darwin"); (256, c_string (hostname h)); (512, c_string "23.5.0");
    (768, c_string "Darwin Kernel Version 23.5.0: root;xnu_11215.81.4~3/RELEASE_X86_64"); (1024, c_string "x86_64") ].
Proof. reflexivity. Qed.

(** uname fills the five fields of 256 bytes a Darwin program expects, and
    nothing behind them. *)
Lemma uname_layout (h : sys_host) (buf : list Z) :
  (String.length (hostname h) <= 255)%nat -> 1280 <= buf_len buf ->
  exists buf', uname h (Some buf) = Ok (Answer 0 0 (Some buf') None) /\ confined 0 1280 buf buf' /\
    Forall (fun w => slice buf' w.1 (buf_len w.2) = w.2)
      (imap (fun i f => (Z.of_nat i * 256, c_string f)) (uname_fields h)).
Proof.
  intros Hh Hl. unfold uname.
  destruct (buf_put_within 0 1280 buf 0 (replicate 1280 0)) as (b1 & -> & C1 & _);
    [lia|lia|unfold buf_len; rewrite length_replicate; lia|lia|]. cbn [mbind res_bind].
  destruct (put_all_spec 0 1280 (imap (fun i f => (Z.of_nat i * 256, c_string f)) (uname_fields h)) b1)
    as (b2 & -> & C2 & S2 & _).
  - by rewrite (confined_len _ _ _ _ C1).
  - rewrite uname_writes. repeat (apply Forall_cons_2; [|]); try apply Forall_nil_2;
      unfold write_in; cbn [fst snd]; rewrite buf_len_c_string; cbn [String.length]; lia.
  - rewrite uname_writes. cbn [apart]. split_and!; try exact I;
      repeat (apply Forall_cons_2; [|]); try apply Forall_nil_2; cbn [fst snd]; rewrite !buf_len_c_string;
      cbn [String.length]; lia.
  - exists b2. split; [done|]. split; [by transitivity b1|done].
Qed.

(** The number of arguments is the number of NULs. *)
Lemma count_args_spec bs : forall inside argc r,
  count_args bs inside argc = Ok r ->
  r = argc + Z.of_nat (length (filter (fun c => c = 0) bs)) - (if inside then 1 else 0).
Proof.
  induction bs as [|c bs IH]; intros inside argc r; cbn [count_args].
  - destruct inside; [done|]. intros [= <-]. cbn. lia.
  - intros H%IH. rewrite filter_cons. destruct (Z.eqb_spec c 0) as [->|Hc]; cbn [negb] in H.
    + rewrite decide_True by done. cbn [length]. destruct inside; lia.
    + rewrite decide_False by done. destruct inside; lia.
Qed.
