(* ===== verification/ShimLibc.v ===== *)
(** * BSD functions of the C library

    strlcpy, strlcat and memset_pattern16 (src/shim/misc/string.c), the
    character classes (src/shim/misc/rune.c), strmode (src/shim/sys/fs.c) and
    the regular expression calls (src/shim/misc/regex.c), over buffers as
    lists of bytes. *)
From Stdlib Require Import ZArith Lia Bool Ascii.
From stdpp Require Import base gmap list strings numbers.
From S2P Require Import Prelude Buffers.

(** ** Strings *)

(** [strlen]: the place of the first NUL, [Undef] without one. *)
Fixpoint strlen (b : list Z) : res Z :=
  match b with
  | [] => Undef
  | c :: b => if c =? 0 then Ok 0 else n ← strlen b; Ok (1 + n)
  end.

Definition strlcpy (dst src : list Z) (siz : Z) : res (Z * list Z) :=
  len ← strlen src;
  if siz >? 0 then
    let copy := if len <? siz then len else siz - 1 in
    dst ← buf_put dst 0 (slice src 0 copy);
    dst ← buf_put dst copy [0];
    Ok (len, dst)
  else Ok (len, dst).

Definition strlcat (dst src : list Z) (siz : Z) : res (Z * list Z) :=
  dlen ← strlen dst;
  slen ← strlen src;
  if dlen >=? siz then Ok (u64 (slen + siz), dst) else
  let copy := if slen <? siz - dlen then slen else siz - dlen - 1 in
  dst ← buf_put dst dlen (slice src 0 copy);
  dst ← buf_put dst (dlen + copy) [0];
  Ok (dlen + slen, dst).

(** The outer loop of [memset_pattern16]; each round copies a chunk. *)
Fixpoint pattern_loop (fuel : nat) (pattern : list Z) (len i : Z) (d : list Z) : res (list Z) :=
  match fuel with
  | O => NoFuel
  | S fuel =>
      if i <? len then
        let chunk := if len - i <? 16 then len - i else 16 in
        if buf_len pattern <? chunk then Undef else
        d ← buf_put d i (slice pattern 0 chunk);
        pattern_loop fuel pattern len (i + 16) d
      else Ok d
  end.

Definition memset_pattern16 (d pattern : list Z) (len : Z) : res (list Z) :=
  pattern_loop (S (Z.to_nat len)) pattern len 0 d.

(** [macify_qsort_r_cmp]: glibc's comparison from the guest's. *)
Definition qsort_r_cmp {T A} (ctx : T * (T -> A -> A -> Z)) (a b : A) : Z := ctx.2 ctx.1 a b.

(** ** Character classes *)

Definition between (lo hi c : Z) : bool := (lo <=? c) && (c <=? hi).

(** <ctype.h> in the C locale. *)
Definition isupper (c : Z) : bool := between 65 90 c.
Definition islower (c : Z) : bool := between 97 122 c.
Definition isalpha (c : Z) : bool := isupper c || islower c.
Definition isdigit (c : Z) : bool := between 48 57 c.
Definition isxdigit (c : Z) : bool := isdigit c || between 65 70 c || between 97 102 c.
Definition isspace (c : Z) : bool := (c =? 32) || between 9 13 c.
Definition isblank (c : Z) : bool := (c =? 32) || (c =? 9).
Definition iscntrl (c : Z) : bool := between 0 31 c || (c =? 127).
Definition isgraph (c : Z) : bool := between 33 126 c.
Definition isprint (c : Z) : bool := between 32 126 c.
Definition ispunct (c : Z) : bool := isgraph c && negb (isalpha c || isdigit c).
Definition toupper (c : Z) : Z := if islower c then c - 32 else c.
Definition tolower (c : Z) : Z := if isupper c then c + 32 else c.

(** The class bits with their predicates, in the order of the code. *)
Definition classes : list (Z * (Z -> bool)) :=
  [ (0x100, isalpha); (0x200, iscntrl); (0x400, isdigit); (0x800, isgraph); (0x1000, islower); (0x2000, ispunct);
    (0x4000, isspace); (0x8000, isupper); (0x10000, isxdigit); (0x20000, isblank); (0x40000, isprint) ].

Definition rune_flags (c : Z) : Z :=
  fold_left (fun flags '(bit, p) => if (p : Z -> bool) c then Z.lor flags bit else flags) classes 0.

(** [macify_runetype] as [macify_init_rune] leaves it. *)
Definition runetype : list Z := map rune_flags (seqZ 0 256).

Definition maskrune (ch mask : Z) : res Z :=
  if ch <? 256 then v ← buf_rd runetype ch; Ok (Z.land v mask) else Ok 0.

(** [ch] is an int here, unsigned there. *)
Definition isctype (ch mask : Z) : res Z :=
  if ch <? 256 then v ← buf_rd runetype ch; Ok (if has v mask then 1 else 0) else Ok 0.

(** The offsets of the fields of a struct from sizes and alignments. *)
Fixpoint offsets (fields : list (Z * Z)) (off : Z) : list Z :=
  match fields with
  | [] => []
  | (size, al) :: fields => let o := (off + al - 1) / al * al in o :: offsets fields (o + size)
  end.

(** magic, encoding, sgetrune, sputrune, invalid_rune, _pad1, runes, nrunes,
    _pad2, _pad3, __runetype, __maplower, __mapupper. *)
Definition rune_locale : list (Z * Z) :=
  [(8, 1); (4, 4); (8, 8); (8, 8); (4, 4); (4, 4); (8, 8); (4, 4); (4, 4); (4, 4); (1024, 4); (512, 2); (512, 2)].

(** ** [strmode] *)

Definition chr (c : ascii) : Z := Z.of_N (N_of_ascii c).

Definition type_char (mode : Z) : Z :=
  let t := Z.land mode 0xF000 in
  if t =? 0x1000 then chr "p" else if t =? 0x2000 then chr "c" else if t =? 0x4000 then chr "d" else
  if t =? 0x6000 then chr "b" else if t =? 0x8000 then chr "-" else if t =? 0xA000 then chr "l" else
  if t =? 0xC000 then chr "s" else chr "?".

(** One of the three groups: read and write bits, the execute bit with the
    special bit that shares its character. *)
Definition group_chars (mode r w x special : Z) (low high : ascii) : list Z :=
  [ if has mode r then chr "r" else chr "-"; if has mode w then chr "w" else chr "-";
    if has mode special then (if has mode x then chr low else chr high)
    else (if has mode x then chr "x" else chr "-") ].

Definition strmode (mode : Z) : list Z :=
  type_char mode :: group_chars mode 256 128 64 2048 "s" "S" ++ group_chars mode 32 16 8 1024 "s" "S"
  ++ group_chars mode 4 2 1 512 "t" "T" ++ [chr " "; 0].

(** ** Regular expressions *)

(** The guest's object: re_magic, re_nsub, re_endp and re_g, the address of
    the wrapper. *)
Record macos_regex := MacosRegex { re_magic : Z; re_nsub : Z; re_endp : Z; re_g : Z }.

Definition REG_FLAGS_MASK : Z := 15.
Definition REG_NOMATCH : Z := 1.
Definition REG_ESPACE : Z := 12.
Definition EINVAL_re : Z := 22.
Definition ENOSYS_re : Z := 38.
Definition REGEX_COOKIE : Z := 0x6D63724B.

Section regex.
(** [R] is glibc's compiled expression; the calls are parameters. *)
Context {R : Type}.
Context (real_regcomp : list Z -> Z -> R * Z + Z).
Context (real_regexec : R -> list Z -> Z -> Z -> list (Z * Z) + Z).

(** [h] has the wrappers on the heap, [calloc_result] is the address of a new wrapper, 0 without memory. *)
Definition macify_regcomp (h : gmap Z R) (calloc_result : Z) (preg : option macos_regex) (pattern : option (list Z)) (flags : Z)
    : Z * option macos_regex * gmap Z R :=
  match preg, pattern with
  | Some _, Some pat =>
      if calloc_result =? 0 then (REG_ESPACE, preg, h) else
      match real_regcomp pat (Z.land flags REG_FLAGS_MASK) with
      | inr rc => (rc, preg, h)
      | inl (r, nsub) => (0, Some (MacosRegex 0x2002 nsub 0 calloc_result), <[calloc_result := r]> h)
      end
  | _, _ => (EINVAL_re, preg, h)
  end.

(** Entries of the guest are two longs; glibc's are two ints. *)
Definition widen (m : list (Z * Z)) : list Z := concat (map (fun '(so, eo) => le_bytes 8 so ++ le_bytes 8 eo) m).

(** The wrapper a guest's object names: one that is not there any more is
    undefined, except for NULL. *)
Definition wrapper (h : gmap Z R) (preg : macos_regex) : res (option R) :=
  if re_g preg =? 0 then Ok None else match h !! re_g preg with Some r => Ok (Some r) | None => Undef end.

(** [pm] is the guest's array, or NULL. *)
Definition macify_regexec (h : gmap Z R) (preg : option macos_regex) (str : list Z) (nmatch : Z) (pm : option (list Z))
    (calloc_ok : bool) (eflags : Z) : res (Z * option (list Z)) :=
  match preg with
  | None => Ok (0, pm)
  | Some preg =>
      w ← wrapper h preg;
      match w with
      | None => Ok (REG_NOMATCH, pm)
      | Some r =>
          match pm with
          | None => Ok (match real_regexec r str nmatch (Z.land eflags 3) with inl _ => 0 | inr rc => rc end, None)
          | Some out =>
              if nmatch =? 0
              then Ok (match real_regexec r str 0 (Z.land eflags 3) with inl _ => 0 | inr rc => rc end, pm)
              else if negb calloc_ok then Ok (REG_NOMATCH, pm) else
              match real_regexec r str nmatch (Z.land eflags 3) with
              | inr rc => Ok (rc, pm)
              | inl m => out ← buf_put out 0 (widen m); Ok (0, Some out)
              end
          end
      end
  end.

Definition macify_regfree (h : gmap Z R) (preg : option macos_regex) : res (option macos_regex * gmap Z R) :=
  match preg with
  | None => Ok (None, h)
  | Some p =>
      w ← wrapper h p;
      Ok (match w with
          | None => (preg, h)
          | Some _ => (Some (MacosRegex (re_magic p) (re_nsub p) (re_endp p) 0), delete (re_g p) h)
          end)
  end.
End regex.

(** ** Strings: what the functions leave *)

(** [b] starts with the C string [s]. *)
Definition holds (b s : list Z) : Prop := slice b 0 (buf_len s + 1) = s ++ [0].

Definition no_nul (s : list Z) : Prop := Forall (fun c => c <> 0) s.

Lemma holds_app b s : holds b s <-> exists t, b = s ++ 0 :: t.
Proof.
  unfold holds, slice, buf_len. cbn [Z.to_nat]. rewrite drop_0.
  replace (Z.to_nat (Z.of_nat (length s) + 1)) with (length (s ++ [0])) by (rewrite length_app; cbn; lia). split.
  - intros H. exists (drop (length (s ++ [0])) b). rewrite <- (take_drop (length (s ++ [0])) b) at 1.
    rewrite H. by rewrite <- app_assoc.
  - intros [t ->]. change (0 :: t) with ([0] ++ t). rewrite app_assoc. apply take_app_length.
Qed.

Lemma strlen_holds b s : no_nul s -> holds b s -> strlen b = Ok (buf_len s).
Proof.
  intros Hs [t ->]%holds_app. induction Hs as [|c s Hc _ IH]; cbn [app strlen]; [done|].
  rewrite (proj2 (Z.eqb_neq c 0) Hc), IH. cbn [mbind res_bind]. unfold buf_len. cbn [length]. f_equal. lia.
Qed.

Lemma slice_holds b s n : holds b s -> 0 <= n <= buf_len s -> slice b 0 n = take (Z.to_nat n) s.
Proof.
  intros [t ->]%holds_app Hn. unfold slice, buf_len in *. cbn [Z.to_nat]. rewrite drop_0. apply take_app_le. lia.
Qed.

(** Writing [s] at the end of a prefix and a NUL behind it. *)
Lemma put_string lo hi d off bs :
  0 <= off -> lo <= off -> off + buf_len bs + 1 <= hi -> hi <= buf_len d ->
  exists d1 d2, buf_put d off bs = Ok d1 /\ buf_put d1 (off + buf_len bs) [0] = Ok d2 /\ confined lo hi d d2 /\
    slice d2 off (buf_len bs + 1) = bs ++ [0].
Proof.
  intros H0 Hlo Hhi Hd. pose proof (buf_len_nonneg bs).
  destruct (buf_put_within lo hi d off bs) as (d1 & E1 & C1 & S1); [lia..|].
  destruct (buf_put_within lo hi d1 (off + buf_len bs) [0]) as (d2 & E2 & C2 & S2);
    [lia|lia|change (buf_len [0]) with 1; lia|rewrite (confined_len _ _ _ _ C1); lia|].
  exists d1, d2. split_and!; [done..|by transitivity d1|].
  change (buf_len [0]) with 1 in S2. pose proof (buf_put_other _ _ _ _ off (buf_len bs) E2 H0 ltac:(lia)) as S3.
  rewrite S1 in S3. unfold slice in *. replace (Z.to_nat (buf_len bs + 1)) with (Z.to_nat (buf_len bs) + 1)%nat by lia.
  rewrite <- (take_take_drop _ (Z.to_nat (buf_len bs)) 1), S3. f_equal. rewrite drop_drop.
  replace (Z.to_nat off + Z.to_nat (buf_len bs))%nat with (Z.to_nat (off + buf_len bs)) by lia. exact S2.
Qed.

(** Copying [n] characters of a string and a NUL. *)
Lemma copy_string dst src s siz off n :
  holds src s -> siz <= buf_len dst -> 0 <= off -> 0 <= n <= buf_len s -> off + n + 1 <= siz ->
  exists d1 d2, buf_put dst off (slice src 0 n) = Ok d1 /\ buf_put d1 (off + n) [0] = Ok d2 /\ confined off siz dst d2 /\
    slice d2 off (n + 1) = take (Z.to_nat n) s ++ [0].
Proof.
  intros Hsrc Hd Ho Hn Hlt. rewrite (slice_holds _ _ _ Hsrc Hn).
  assert (Hl : buf_len (take (Z.to_nat n) s) = n) by (unfold buf_len in *; rewrite length_take; lia).
  destruct (put_string off siz dst off (take (Z.to_nat n) s)) as (d1 & d2 & E); [lia..|].
  rewrite Hl in E. by exists d1, d2.
Qed.

Lemma strlcpy_spec dst src s siz :
  no_nul s -> holds src s -> 0 <= siz <= buf_len dst ->
  exists dst', strlcpy dst src siz = Ok (buf_len s, dst') /\ confined 0 siz dst dst' /\
    if siz =? 0 then dst' = dst else holds dst' (take (Z.to_nat (siz - 1)) s).
Proof.
  intros Hs Hsrc Hsiz. pose proof (buf_len_nonneg s) as Ls.
  unfold strlcpy. rewrite (strlen_holds _ _ Hs Hsrc). cbn [mbind res_bind].
  destruct (Z.eqb_spec siz 0) as [->|Hz]; [by exists dst|]. replace (siz >? 0) with true by lia. cbv zeta.
  set (n := if buf_len s <? siz then buf_len s else siz - 1).
  assert (Hn : 0 <= n <= buf_len s /\ n + 1 <= siz) by (subst n; destruct (Z.ltb_spec (buf_len s) siz); lia).
  destruct (copy_string dst src s siz 0 n) as (d1 & d2 & -> & E2 & C & S); [done|lia..|]. rewrite Z.add_0_l in E2.
  cbn [mbind res_bind]. rewrite E2. exists d2. split_and!; [done..|].
  assert (Ht : take (Z.to_nat (siz - 1)) s = take (Z.to_nat n) s).
  { subst n. destruct (Z.ltb_spec (buf_len s) siz); [|done]. unfold buf_len in *. by rewrite !take_ge by lia. }
  unfold holds. rewrite Ht. replace (buf_len (take (Z.to_nat n) s)) with n; [done|].
  unfold buf_len in *. rewrite length_take. lia.
Qed.

Lemma strlcat_spec dst src d s siz :
  no_nul d -> no_nul s -> holds dst d -> holds src s -> 0 <= siz <= buf_len dst -> buf_len s + siz < 2 ^ 64 ->
  exists r dst', strlcat dst src siz = Ok (r, dst') /\ confined 0 siz dst dst' /\
    r = Z.min siz (buf_len d) + buf_len s /\
    if siz <=? buf_len d then dst' = dst else holds dst' (take (Z.to_nat (siz - 1)) (d ++ s)).
Proof.
  intros Hd Hs Hdst Hsrc Hsiz Hbig. pose proof (buf_len_nonneg s) as Ls. pose proof (buf_len_nonneg d) as Ld.
  unfold strlcat. rewrite (strlen_holds _ _ Hd Hdst), (strlen_holds _ _ Hs Hsrc). cbn [mbind res_bind].
  destruct (Z.leb_spec siz (buf_len d)) as [Hle|Hgt].
  { replace (buf_len d >=? siz) with true by lia. exists (u64 (buf_len s + siz)), dst. split_and!; [done..| |done].
    rewrite u64_small by lia. lia. }
  replace (buf_len d >=? siz) with false by lia. cbv zeta.
  set (n := if buf_len s <? siz - buf_len d then buf_len s else siz - buf_len d - 1).
  assert (Hn : 0 <= n <= buf_len s /\ buf_len d + n + 1 <= siz)
    by (subst n; destruct (Z.ltb_spec (buf_len s) (siz - buf_len d)); lia).
  destruct (copy_string dst src s siz (buf_len d) n) as (d1 & d2 & -> & E2 & C & S); [done|lia..|].
  cbn [mbind res_bind]. rewrite E2. exists (buf_len d + buf_len s), d2.
  split_and!; [done|eapply confined_weaken; [| |exact C]; lia|lia|].
  assert (Ht : take (Z.to_nat (siz - 1)) (d ++ s) = d ++ take (Z.to_nat n) s).
  { rewrite take_app. f_equal; [apply take_ge; unfold buf_len in *; lia|].
    subst n. unfold buf_len in *. destruct (Z.ltb_spec (Z.of_nat (length s)) (siz - Z.of_nat (length d))).
    - by rewrite !take_ge by lia.
    - f_equal. lia. }
  assert (Hl : buf_len (take (Z.to_nat n) s) = n) by (unfold buf_len in *; rewrite length_take; lia).
  unfold holds. rewrite Ht, buf_len_app, Hl, <- Z.add_assoc, slice_split by lia. rewrite Z.add_0_l, S, app_assoc. f_equal. f_equal.
  rewrite (confined_out _ _ _ _ C) by lia. rewrite (slice_holds _ _ _ Hdst) by lia. unfold buf_len. by rewrite Nat2Z.id, firstn_all.
Qed.

(** C40 (functional): strlcpy and strlcat do what the BSD functions do, on
    terminated strings.  For strings [d] and [s] in buffers of their own, each
    with its NUL, and a size within the destination, strlcpy leaves the first
    [siz - 1] characters of [s] and strlcat those of [d] followed by [s], in
    each case with a NUL, and nothing behind [siz] is written; the value is
    the length of the string that was to be made, so the caller sees a
    truncation by comparing it with [siz].  With a size of 0, or one that [d]
    alone fills, nothing is written and strlcat gives [siz] plus the length of
    [s].  The lengths are such that the sum does not wrap.  A destination
    without a NUL, which BSD's strlcat accepts, is not covered: strlen reads
    past it ([strlcat_unterminated]). *)
Theorem strl_functions (dst src d s : list Z) (siz : Z) :
  no_nul d -> no_nul s -> holds dst d -> holds src s -> 0 <= siz <= buf_len dst -> buf_len s + siz < 2 ^ 64 ->
  (exists dst', strlcpy dst src siz = Ok (buf_len s, dst') /\ confined 0 siz dst dst' /\
     if siz =? 0 then dst' = dst else holds dst' (take (Z.to_nat (siz - 1)) s)) /\
  (exists r dst', strlcat dst src siz = Ok (r, dst') /\ confined 0 siz dst dst' /\
     r = Z.min siz (buf_len d) + buf_len s /\
     if siz <=? buf_len d then dst' = dst else holds dst' (take (Z.to_nat (siz - 1)) (d ++ s))).
Proof.
  intros. split; [by apply strlcpy_spec|by apply strlcat_spec].
Qed.

(** "ab" in a buffer of six bytes, "cdefg" behind it. *)
Lemma strl_functions_witness :
  exists dst', strlcat [97; 98; 0; 9; 9; 9] [99; 100; 101; 102; 103; 0] 5 = Ok (7, dst') /\
    holds dst' [97; 98; 99; 100] /\ slice dst' 5 1 = [9].
Proof.
  destruct (strl_functions [97; 98; 0; 9; 9; 9] [99; 100; 101; 102; 103; 0] [97; 98] [99; 100; 101; 102; 103] 5)
    as [_ (r & dst' & Hr & C & E & H)];
    [by repeat constructor|by repeat constructor|reflexivity|reflexivity|vm_compute; split; discriminate|reflexivity|].
  exists dst'. split; [rewrite E in Hr; exact Hr|]. split; [exact H|].
  rewrite (confined_out _ _ _ _ C) by lia. reflexivity.
Defined.

(** A full buffer without a NUL: strlcat is to look at no more than [siz]
    bytes of it, the code looks for the NUL behind them. *)
Lemma strlcat_unterminated (dst src : list Z) (siz : Z) : no_nul dst -> strlcat dst src siz = Undef.
Proof.
  intros H. unfold strlcat. assert (strlen dst = Undef) as ->; [|done].
  induction H as [|c dst Hc _ IH]; [done|]. cbn [strlen]. by rewrite (proj2 (Z.eqb_neq c 0) Hc), IH.
Qed.

(** ** The pattern *)

Lemma pattern_loop_spec pattern len : forall fuel i d,
  buf_len pattern = 16 -> 0 <= i -> i mod 16 = 0 -> (i <= len -> len <= buf_len d) -> Z.max 0 (len - i) < Z.of_nat fuel ->
  exists d', pattern_loop fuel pattern len i d = Ok d' /\ confined i len d d' /\
    forall k, i <= Z.of_nat k < len -> d' !! k = pattern !! (k mod 16)%nat.
Proof.
  induction fuel as [|fuel IH]; intros i d Hp Hi Hm Hl Hf; [lia|]. cbn [pattern_loop].
  destruct (Z.ltb_spec i len) as [Hlt|Hge]; [|exists d; split_and!; [done|done|lia]]. specialize (Hl ltac:(lia)).
  set (c := if len - i <? 16 then len - i else 16).
  assert (Hc : 0 < c <= 16 /\ i + c <= len /\ (c = 16 \/ i + c = len))
    by (subst c; destruct (Z.ltb_spec (len - i) 16); lia).
  clearbody c. rewrite Hp. rewrite (proj2 (Z.ltb_ge 16 c)) by lia.
  assert (Hs : buf_len (slice pattern 0 c) = c).
  { unfold slice, buf_len in *. cbn [Z.to_nat]. rewrite drop_0, length_take. lia. }
  destruct (buf_put_within i len d i (slice pattern 0 c)) as (d1 & E1 & C1 & _); [lia..|].
  rewrite E1. cbn [mbind res_bind].
  destruct (IH (i + 16) d1) as (d' & -> & C2 & S2); [done|lia|by rewrite <- Z.add_mod_idemp_l, Hm by lia|
    intros _; rewrite (confined_len _ _ _ _ C1); lia|lia|].
  exists d'. split; [done|]. split; [transitivity d1; [done|eapply confined_weaken; [| |exact C2]; lia]|].
  intros k Hk. destruct (Z.ltb_spec (Z.of_nat k) (i + 16)) as [Hin|Hout]; [|by apply S2; lia].
  rewrite (confined_lookup _ _ _ _ _ C2) by lia. rewrite (lookup_buf_put _ _ _ _ _ E1).
  unfold buf_len in Hs. rewrite (proj2 (Nat.leb_le (Z.to_nat i) k)) by lia. cbn [andb].
  rewrite (proj2 (Nat.ltb_lt k (Z.to_nat i + length (slice pattern 0 c)))) by lia.
  rewrite lookup_slice, (proj2 (Nat.ltb_lt (k - Z.to_nat i) (Z.to_nat c))) by lia. f_equal.
  apply Nat2Z.inj. rewrite Nat2Z.inj_mod, Nat2Z.inj_add, Nat2Z.inj_sub, !Z2Nat.id by lia.
  apply (Z.mod_unique_pos _ _ (i / 16)); [lia|]. pose proof (Z.div_mod i 16). lia.
Qed.

(** memset_pattern16 repeats the sixteen bytes over the range, cut off at its
    end, and writes nothing else. *)
Lemma memset_pattern16_spec (d pattern : list Z) (len : Z) :
  buf_len pattern = 16 -> 0 <= len <= buf_len d ->
  exists d', memset_pattern16 d pattern len = Ok d' /\ confined 0 len d d' /\
    forall k, Z.of_nat k < len -> d' !! k = pattern !! (k mod 16)%nat.
Proof.
  intros Hp Hl. destruct (pattern_loop_spec pattern len (S (Z.to_nat len)) 0 d) as (d' & E & C & S); [done|lia|done|lia|lia|].
  exists d'. split_and!; [exact E|exact C|]. intros k Hk. apply S. lia.
Qed.

(** ** Character classes *)

(** For every character and every class the bit of the class
    in the table says what the predicate of <ctype.h> says, so __maskrune is
    nonzero for a class exactly for its members; characters from 256 on are in
    no class.  __isctype agrees with it on characters, but takes an int: on EOF
    and every other negative value it reads in front of the table. *)
Theorem rune_classes :
  (forall ch bit p, 0 <= ch -> (bit, p) ∈ classes ->
     maskrune ch bit = Ok (if (ch <? 256) && p ch then bit else 0) /\
     isctype ch bit = Ok (if (ch <? 256) && p ch then 1 else 0)) /\
  (forall ch mask, ch < 0 -> isctype ch mask = Undef).
Proof.
  split.
  - intros ch bit p Hch Hin. unfold maskrune, isctype. destruct (Z.ltb_spec ch 256) as [Hlt|]; [|done]. cbn [andb].
    assert (Hb : buf_rd runetype ch = Ok (rune_flags ch)).
    { unfold buf_rd, buf_get. replace (ch <? 0) with false by lia. unfold runetype.
      rewrite list_lookup_fmap, lookup_seqZ_lt by lia.
      cbn [fmap option_fmap option_map of_option]. by rewrite Z.add_0_l, Z2Nat.id by lia. }
    rewrite Hb. cbn [mbind res_bind].
    assert (Hall : forall c, 0 <= c < 0 + 256 ->
      forallb (fun '(b, q) => Z.land (rune_flags c) b =? (if (q : Z -> bool) c then b else 0)) classes = true).
    { apply range_forallb. vm_compute. reflexivity. }
    specialize (Hall ch ltac:(lia)). rewrite forallb_forall in Hall. apply list_elem_of_In in Hin.
    specialize (Hall _ Hin). apply Z.eqb_eq in Hall. unfold has. rewrite Hall.
    assert (bit <> 0).
    { cbn in Hin. repeat (destruct Hin as [[= <- _]|Hin]; [lia|]). done. }
    split; [done|]. destruct (p ch); [by rewrite (proj2 (Z.eqb_neq bit 0))|done].
  - intros ch mask Hch. unfold isctype. replace (ch <? 256) with true by lia.
    unfold buf_rd, buf_get. by replace (ch <? 0) with true by lia.
Qed.

(** 'a' is a letter, EOF is outside. *)
Lemma rune_classes_witness : maskrune 97 0x100 = Ok 0x100 /\ isctype (-1) 0x100 = Undef.
Proof.
  destruct rune_classes as [H1 H2]. split; [|apply H2; reflexivity].
  exact (proj1 (H1 97 0x100 isalpha ltac:(lia) ltac:(constructor))).
Defined.

(** The table is at the offset programs read it from. *)
Lemma rune_table_offset : offsets rune_locale 0 !! 10%nat = Some 60.
Proof. reflexivity. Qed.

(** ** Modes as strings *)

(** What a reader takes back from the characters of [strmode]. *)
Definition char_type (c : Z) : Z :=
  if c =? chr "p" then 0x1000 else if c =? chr "c" then 0x2000 else if c =? chr "d" then 0x4000 else
  if c =? chr "b" then 0x6000 else if c =? chr "-" then 0x8000 else if c =? chr "l" then 0xA000 else
  if c =? chr "s" then 0xC000 else 0.

Definition char_group (r w x : Z) (br bw bx special : Z) (low high : ascii) : Z :=
  (if r =? chr "r" then br else 0) + (if w =? chr "w" then bw else 0) +
  (if x =? chr "x" then bx else if x =? chr low then bx + special else if x =? chr high then special else 0).

Definition mode_of (s : list Z) : Z :=
  match s with
  | t :: r1 :: w1 :: x1 :: r2 :: w2 :: x2 :: r3 :: w3 :: x3 :: _ =>
      char_type t + char_group r1 w1 x1 256 128 64 2048 "s" "S" + char_group r2 w2 x2 32 16 8 1024 "s" "S" +
      char_group r3 w3 x3 4 2 1 512 "t" "T"
  | _ => 0
  end.

(** The value of one bit. *)
Definition bit_of (mode b : Z) : Z := if has mode b then b else 0.

Lemma char_type_char mode : type_char mode <> chr "?" -> char_type (type_char mode) = Z.land mode 0xF000.
Proof. 
  unfold type_char. cbv zeta.
  repeat match goal with |- context [Z.land mode 0xF000 =? ?t] => destruct (Z.eqb_spec (Z.land mode 0xF000) t) as [->|_]; [done|] end.
  done.
Qed.

Lemma char_group_chars mode r w x special low high :
  (low, high) = ("s", "S")%char \/ (low, high) = ("t", "T")%char ->
  char_group (if has mode r then chr "r" else chr "-") (if has mode w then chr "w" else chr "-")
    (if has mode special then (if has mode x then chr low else chr high) else (if has mode x then chr "x" else chr "-"))
    r w x special low high = bit_of mode r + bit_of mode w + (bit_of mode x + bit_of mode special).
Proof.
  unfold char_group, bit_of. intros [[= -> ->]|[= -> ->]];
    destruct (has mode r), (has mode w), (has mode x), (has mode special); cbv iota;
    repeat match goal with |- context [chr ?a =? chr ?b] =>
      let v := eval vm_compute in (chr a =? chr b) in change (chr a =? chr b) with v end; cbv iota; lia.
Qed.

Lemma bit_of_pow2 mode k : 0 <= k -> bit_of mode (2 ^ k) = (mode / 2 ^ k) mod 2 * 2 ^ k.
Proof. intros Hk. unfold bit_of. rewrite has_pow2, <- Z.testbit_spec' by done. destruct (Z.testbit mode k); cbn; lia. Qed.

Lemma mod_pow2_step a k p q : 0 <= k -> 2 ^ k = p -> 2 ^ (k + 1) = q -> a mod q = a mod p + bit_of a p.
Proof.
  intros Hk <- <-. rewrite bit_of_pow2, Z.pow_add_r, Z.pow_1_r, Z.rem_mul_r by lia. lia.
Qed.

(** A mode is its type and its twelve bits. *)
Lemma mode_split mode : 0 <= mode < 2 ^ 16 ->
  mode = Z.land mode 0xF000 + (bit_of mode 256 + bit_of mode 128 + (bit_of mode 64 + bit_of mode 2048))
         + (bit_of mode 32 + bit_of mode 16 + (bit_of mode 8 + bit_of mode 1024))
         + (bit_of mode 4 + bit_of mode 2 + (bit_of mode 1 + bit_of mode 512)).
Proof.
  intros Hm. assert (Hl : Z.land mode 0xF000 = mode - mode mod 2 ^ 12).
  { assert (E : mode = Z.lor (Z.land mode 0xF000) (Z.land mode (Z.ones 12))).
    { rewrite <- Z.land_lor_distr_r. change (Z.lor 0xF000 (Z.ones 12)) with (Z.ones 16).
      rewrite Z.land_ones, Z.mod_small; lia. }
    rewrite <- Z.lxor_lor in E.
    2:{ rewrite <- Z.land_assoc, (Z.land_assoc 0xF000), (Z.land_comm 0xF000), <- (Z.land_assoc mode), Z.land_assoc.
        change (Z.land 0xF000 (Z.ones 12)) with 0. by rewrite Z.land_0_r. }
    rewrite <- Z.add_nocarry_lxor in E.
    2:{ rewrite <- Z.land_assoc, (Z.land_assoc 0xF000), (Z.land_comm 0xF000), <- (Z.land_assoc mode), Z.land_assoc.
        change (Z.land 0xF000 (Z.ones 12)) with 0. by rewrite Z.land_0_r. }
    rewrite (Z.land_ones mode 12) in E by lia. lia. }
  rewrite Hl.
  pose proof (mod_pow2_step mode 0 1 2 ltac:(lia) eq_refl eq_refl) as H0.
  pose proof (mod_pow2_step mode 1 2 4 ltac:(lia) eq_refl eq_refl) as H1.
  pose proof (mod_pow2_step mode 2 4 8 ltac:(lia) eq_refl eq_refl) as H2.
  pose proof (mod_pow2_step mode 3 8 16 ltac:(lia) eq_refl eq_refl) as H3.
  pose proof (mod_pow2_step mode 4 16 32 ltac:(lia) eq_refl eq_refl) as H4.
  pose proof (mod_pow2_step mode 5 32 64 ltac:(lia) eq_refl eq_refl) as H5.
  pose proof (mod_pow2_step mode 6 64 128 ltac:(lia) eq_refl eq_refl) as H6.
  pose proof (mod_pow2_step mode 7 128 256 ltac:(lia) eq_refl eq_refl) as H7.
  pose proof (mod_pow2_step mode 8 256 512 ltac:(lia) eq_refl eq_refl) as H8.
  pose proof (mod_pow2_step mode 9 512 1024 ltac:(lia) eq_refl eq_refl) as H9.
  pose proof (mod_pow2_step mode 10 1024 2048 ltac:(lia) eq_refl eq_refl) as H10.
  pose proof (mod_pow2_step mode 11 2048 4096 ltac:(lia) eq_refl eq_refl) as H11.
  rewrite (Z.mod_1_r mode) in H0. change (2 ^ 12) with 4096.
  lia.
Qed.

(** The twelve bytes of strmode (eleven characters and a NUL)
    determine the file mode: type, permissions and the three special bits can
    be read back from them, for every mode with one of the seven file types. *)
Theorem strmode_roundtrip (mode : Z) :
  0 <= mode < 2 ^ 16 -> type_char mode <> chr "?" ->
  length (strmode mode) = 12%nat /\ mode_of (strmode mode) = mode.
Proof.
  intros Hm Ht. split; [reflexivity|]. unfold strmode, group_chars. cbn [app mode_of].
  rewrite (char_type_char mode Ht), !char_group_chars by (first [by left | by right]). symmetry. by apply mode_split.
Qed.

(** drwxr-sr-t *)
Lemma strmode_roundtrip_witness :
  mode_of (strmode 0x47ED) = 0x47ED /\ strmode 0x47ED = map chr ["d"; "r"; "w"; "x"; "r"; "-"; "s"; "r"; "-"; "t"; " "]%char ++ [0].
Proof.
  split; [|reflexivity]. exact (proj2 (strmode_roundtrip 0x47ED ltac:(lia) ltac:(vm_compute; discriminate))).
Defined.

(** ** Regular expressions *)

Section regex_laws.
Context {R : Type} (real_regcomp : list Z -> Z -> R * Z + Z)
  (real_regexec : R -> list Z -> Z -> Z -> list (Z * Z) + Z).

Lemma length_widen m : length (widen m) = (16 * length m)%nat.
Proof.
  unfold widen. induction m as [|[so eo] m IH]; cbn [map concat length]; [done|].
  rewrite !length_app, !length_le_bytes, IH. lia.
Qed.

(** Slot [i] of the widened array holds the two offsets of match [i]. *)
Lemma widen_slot m i so eo rest :
  m !! i = Some (so, eo) -> slice (widen m ++ rest) (16 * Z.of_nat i) 16 = le_bytes 8 so ++ le_bytes 8 eo.
Proof.
  revert i. induction m as [|[so' eo'] m IH]; intros [|i] Hi; [done|done| |]; cbn [lookup list_lookup] in Hi.
  - injection Hi as -> ->. reflexivity.
  - specialize (IH i Hi). unfold slice in *. unfold widen in *. cbn [map concat].
    rewrite <- !app_assoc. replace (Z.to_nat (16 * Z.of_nat (S i))) with (16 + Z.to_nat (16 * Z.of_nat i))%nat by lia.
    rewrite app_assoc, <- drop_drop, drop_app_length' by (by rewrite length_app, !length_le_bytes). exact IH.
Qed.

(** The life of a regular expression.  A compilation that
    succeeds leaves the guest an object through which regexec runs glibc's
    matcher on the expression compiled, with each offset pair widened to two
    longs of the guest's array and nothing else written; after regfree the
    object matches nothing, freeing it again changes nothing, and the heap is
    as it was before.  A compilation that fails leaves object and heap alone. *)
Theorem regex_life (h : gmap Z R) (addr : Z) (preg : macos_regex) (pattern : list Z) (flags : Z) :
  addr <> 0 -> h !! addr = None ->
  let '(rc, preg', h') := macify_regcomp real_regcomp h addr (Some preg) (Some pattern) flags in
  match real_regcomp pattern (Z.land flags REG_FLAGS_MASK) with
  | inr e => rc = e /\ preg' = Some preg /\ h' = h
  | inl (r, nsub) =>
      rc = 0 /\ re_nsub <$> preg' = Some nsub /\
      (forall str nmatch out eflags m,
         real_regexec r str nmatch (Z.land eflags 3) = inl m -> Z.of_nat (length m) = nmatch -> 0 < nmatch ->
         16 * nmatch <= buf_len out ->
         exists out', macify_regexec real_regexec h' preg' str nmatch (Some out) true eflags = Ok (0, Some out') /\
           confined 0 (16 * nmatch) out out' /\
           forall i so eo, m !! i = Some (so, eo) -> slice out' (16 * Z.of_nat i) 16 = le_bytes 8 so ++ le_bytes 8 eo) /\
      exists p, macify_regfree h' preg' = Ok (Some p, h) /\ macify_regfree h (Some p) = Ok (Some p, h) /\
        forall str nmatch out eflags,
          macify_regexec real_regexec h (Some p) str nmatch out true eflags = Ok (REG_NOMATCH, out)
  end.
Proof.
  intros Ha Hfree. unfold macify_regcomp. rewrite (proj2 (Z.eqb_neq addr 0) Ha).
  destruct (real_regcomp pattern _) as [[r nsub]|e]; [|done]. split_and!; [done|done| |].
  - intros str nmatch out eflags m Hm Hlen Hpos Hout. unfold macify_regexec, wrapper. cbn [re_g].
    rewrite (proj2 (Z.eqb_neq addr 0) Ha), lookup_insert_eq. cbn [mbind res_bind].
    replace (nmatch =? 0) with false by lia. cbn [negb]. rewrite Hm.
    assert (Hw : buf_len (widen m) = 16 * nmatch) by (unfold buf_len; rewrite length_widen; lia).
    destruct (buf_put_within 0 (16 * nmatch) out 0 (widen m)) as (out' & E & C & _); [lia..|].
    rewrite E. cbn [mbind res_bind]. exists out'. split_and!; [done..|]. intros i so eo Hi.
    apply buf_put_Ok in E as (_ & _ & _ & ->). cbn [Z.to_nat]. rewrite take_0. cbn [app]. by apply widen_slot.
  - exists (MacosRegex 0x2002 nsub 0 0). unfold macify_regfree, wrapper. cbn [re_g].
    rewrite (proj2 (Z.eqb_neq addr 0) Ha), lookup_insert_eq. cbn [mbind res_bind].
    rewrite delete_insert_id by done. split_and!; done.
Qed.
End regex_laws.

(** A matcher that finds its pattern at offset 3 with length 2. *)
Lemma regex_life_witness :
  exists preg' out', macify_regcomp (fun _ _ => inl (tt, 0)) ∅ 0x5000 (Some (MacosRegex 0 0 0 0)) (Some [97]) 1
             = (0, Some preg', {[ 0x5000 := tt ]}) /\
    macify_regexec (fun _ _ _ _ => inl [(3, 5)]) {[ 0x5000 := tt ]} (Some preg') [] 1 (Some (replicate 16 9)) true 0
      = Ok (0, Some out') /\ slice out' 0 16 = [3; 0; 0; 0; 0; 0; 0; 0; 5; 0; 0; 0; 0; 0; 0; 0].
Proof.
  exists (MacosRegex 0x2002 0 0 0x5000).
  pose proof (regex_life (fun _ _ => inl (tt, 0)) (fun _ _ _ _ => inl [(3, 5)]) ∅ 0x5000 (MacosRegex 0 0 0 0) [97] 1
    ltac:(lia) eq_refl) as (_ & _ & H & _).
  destruct (H [] 1 (replicate 16 9) 0 [(3, 5)] eq_refl eq_refl ltac:(lia) ltac:(vm_compute; discriminate))
    as (out' & E & _ & S).
  exists out'. split; [reflexivity|]. split; [exact E|]. exact (S 0%nat 3 5 eq_refl).
Defined.
