(* ===== verification/ShimDir.v ===== *)
(** * Directories, file systems and random bytes

    Directory streams (src/shim/io/dirent.c), glob (src/shim/io/glob.c), the
    statfs family, getmntinfo and the random functions
    (src/shim/sys/random.c).  The host's calls are parameters. *)
From Stdlib Require Import ZArith Lia Bool Ascii.
From stdpp Require Import base list strings numbers.
From S2P Require Import Prelude Buffers PrefixPath ShimExec ShimFile ShimNet.

(** ** Directory entries *)

Record linux_dirent := LinuxDirent { ld_ino : Z; ld_reclen : Z; ld_type : Z; ld_name : string }.

Definition zeros (n : nat) : list Z := replicate n 0.

(** [strncpy(field, s, n)] into a field of zeros: at most [n] characters. *)
Definition padded (size n : nat) (s : string) : list Z :=
  let bs := take n (string_bytes s) in bs ++ zeros (size - length bs).

(** The 1048 bytes of [struct macos_dirent]. *)
Definition dirent_bytes (ino reclen namlen type : Z) (name : list Z) : list Z :=
  le_bytes 8 ino ++ le_bytes 8 0 ++ le_bytes 2 reclen ++ le_bytes 2 namlen ++ le_bytes 1 type ++ name ++ zeros 3.

Definition D_NAME : Z := 21.
Definition NAME_FIELD : nat := 1024.

(** [do_readdir_impl]: what the thread's buffer holds afterwards. *)
Definition do_readdir (le : option linux_dirent) : option (list Z) :=
  match le with
  | None => None
  | Some le => Some (dirent_bytes (ld_ino le) (ld_reclen le) (u16 (Z.of_nat (String.length (ld_name le)))) (ld_type le)
                       (padded NAME_FIELD (NAME_FIELD - 1) (ld_name le)))
  end.

(** The result code, the guest's entry and whether [*result] points to it. *)
Definition readdir_r (ret : Z) (le : option linux_dirent) (entry : list Z) : Z * list Z * bool :=
  match le with
  | Some le =>
      if ret =? 0 then
        let namlen := Nat.min (String.length (ld_name le)) (NAME_FIELD - 1) in
        (0, dirent_bytes (ld_ino le) (ld_reclen le) (Z.of_nat namlen) (ld_type le) (padded NAME_FIELD namlen (ld_name le)), true)
      else (ret, entry, false)
  | None => (ret, entry, false)
  end.

(** The path real_opendir gets; [None] is ENOENT. *)
Definition guest_opendir (p : process) (name : string) : option string :=
  if hidden p (Some name) then None else Some (host_path p name).

(** [opendirat] opens the path as it is. *)
Definition opendirat_path (name : string) : string := name.

(** ** glob *)

(** [gl_pathc] and [gl_pathv] together; the callbacks are not used. *)
Record glob_t := Glob { gl_paths : list string; gl_offs : Z; gl_flags : Z }.

Definition LINUX_GLOB_APPEND : Z := 0x20.

(** Guest bits with glibc's, in the order of the code. *)
Definition glob_flag_pairs : list (Z * Z) :=
  [(0x1, 0x20); (0x2, 0x8); (0x4, 0x1); (0x8, 0x2); (0x10, 0x10); (0x20, 0x4); (0x40, 0x40); (0x80, 0x80);
   (0x800, 0x1000); (0x4000, 0x4000)].

Definition glob_flags (flags : Z) : Z :=
  fold_left (fun l '(m, b) => if has flags m then Z.lor l b else l) glob_flag_pairs 0.

Section glob.
(** The pattern, the flags and the structure glibc works on; its return code
    and the structure afterwards. *)
Context (real_glob : string -> Z -> glob_t -> Z * glob_t).

Definition macify_glob (pattern : string) (flags : Z) (g : glob_t) : Z * glob_t :=
  let '(ret, l) := real_glob pattern (glob_flags flags) (Glob [] (gl_offs g) (gl_flags g)) in
  (ret, Glob (gl_paths l) (gl_offs g) (gl_flags l)).

(** The paths given to glibc to free, and the guest's structure. *)
Definition macify_globfree (g : glob_t) : list string * glob_t := (gl_paths g, Glob [] (gl_offs g) (gl_flags g)).
End glob.

(** ** File systems *)

Record linux_statfs := LinuxStatfs {
  sf_bsize : Z; sf_blocks : Z; sf_bfree : Z; sf_bavail : Z; sf_files : Z; sf_ffree : Z; sf_fsid : Z; sf_type : Z
}.

(** The 2168 bytes of [struct macos_statfs]; [None] leaves the numbers 0. *)
Definition statfs_bytes (st : option linux_statfs) (fstype mnton mntfrom : string) : list Z :=
  let st := match st with Some st => st | None => LinuxStatfs 0 0 0 0 0 0 0 0 end in
  le_bytes 4 (sf_bsize st) ++ le_bytes 4 (sf_bsize st) ++ le_bytes 8 (sf_blocks st) ++ le_bytes 8 (sf_bfree st) ++
  le_bytes 8 (sf_bavail st) ++ le_bytes 8 (sf_files st) ++ le_bytes 8 (sf_ffree st) ++ le_bytes 8 (sf_fsid st) ++
  le_bytes 4 0 ++ le_bytes 4 (sf_type st) ++ le_bytes 4 0 ++ le_bytes 4 0 ++
  padded 16 15 fstype ++ padded 1024 1023 mnton ++ padded 1024 1023 mntfrom ++ zeros 32.

(** The result, and the guest's buffer. *)
Definition macify_statfs (ret : Z) (st : linux_statfs) (buf : option (list Z)) : res (Z * option (list Z)) :=
  match buf with
  | Some b => if ret =? 0 then b ← buf_put b 0 (statfs_bytes (Some st) "ext4" "" ""); Ok (ret, Some b) else Ok (ret, buf)
  | None => Ok (ret, None)
  end.

Definition is_ws (c : ascii) : bool := let n := Z.of_N (N_of_ascii c) in (n =? 32) || ((9 <=? n) && (n <=? 13)).

Fixpoint skip_ws (s : string) : string :=
  match s with String c r => if is_ws c then skip_ws r else s | EmptyString => s end.

Fixpoint take_word (n : nat) (s : string) : string * string :=
  match n, s with
  | S n, String c r => if is_ws c then (EmptyString, s) else let '(w, t) := take_word n r in (String c w, t)
  | _, _ => (EmptyString, s)
  end.

(** [%Ns] of sscanf: white space is skipped and one character at least is
    needed. *)
Definition scan_word (n : nat) (s : string) : option (string * string) :=
  match take_word n (skip_ws s) with (EmptyString, _) => None | r => Some r end.

Record mount := Mount { m_dev : string; m_point : string; m_type : string }.

Definition parse_mount (line : string) : option mount :=
  match scan_word 255 line with
  | None => None
  | Some (dev, r) =>
      match scan_word 1023 r with
      | None => None
      | Some (mp, r) => match scan_word 63 r with None => None | Some (ty, _) => Some (Mount dev mp ty) end
      end
  end.

Definition MAX_MOUNTS : nat := 64.

(** The records made of /proc/mounts: at most 64 of the lines that parse. *)
Definition mount_records (statfs : string -> option linux_statfs) (contents : string) : list (list Z) :=
  take MAX_MOUNTS
    (omap (fun line => m ← parse_mount line;
                       Some (statfs_bytes (statfs (m_point m)) (m_type m) (m_point m) (m_dev m)))
       (fgets_pieces 4096 4095 EmptyString contents)).

(** [mntcount] is -1 ([None]) before the first call.  The count, whether
    [*mntbufp] is set, and the static array. *)
Definition getmntinfo (statfs : string -> option linux_statfs) (contents : option string) (cache : option (list (list Z)))
    : Z * bool * option (list (list Z)) :=
  match cache with
  | Some recs => (Z.of_nat (length recs), true, cache)
  | None =>
      match contents with
      | None => (0, false, Some [])
      | Some c => let recs := mount_records statfs c in (Z.of_nat (length recs), true, Some recs)
      end
  end.

(** ** Random bytes *)

(** What getrandom or read gives: [None] is a result of 0 or less. *)
Definition chunk : Type := option (list Z).

(** [open /dev/urandom] and the loop that reads it. *)
Fixpoint urandom_loop (reads : list chunk) (buf : list Z) (got count : Z) : res (Z * list Z) :=
  if got <? count then
    match reads with
    | [] => NoFuel
    | None :: _ => Ok (-1, buf)
    | Some bs :: reads => buf ← buf_put buf got bs; urandom_loop reads buf (got + buf_len bs) count
    end
  else Ok (0, buf).

Fixpoint getrandom_loop (calls : list chunk) (urandom : option (list chunk)) (buf : list Z) (got count : Z)
    : res (Z * list Z) :=
  if got <? count then
    match calls with
    | [] => NoFuel
    | None :: _ => match urandom with None => Ok (-1, buf) | Some reads => urandom_loop reads buf got count end
    | Some bs :: calls => buf ← buf_put buf got bs; getrandom_loop calls urandom buf (got + buf_len bs) count
    end
  else Ok (0, buf).

(** [CCRandomGenerateBytes], and [SecRandomCopyBytes], which is the same. *)
Definition CCRandomGenerateBytes (calls : list chunk) (urandom : option (list chunk)) (buf : option (list Z)) (count : Z)
    : res (Z * option (list Z)) :=
  match buf with
  | None => Ok (-1, None)
  | Some b => if count =? 0 then Ok (-1, buf)
              else r ← getrandom_loop calls urandom b 0 count; Ok (r.1, Some r.2)
  end.

(** One getrandom call; a result below 0 ([None]) goes to /dev/urandom. *)
Definition getentropy (call : chunk) (urandom : option (list chunk)) (buf : option (list Z)) (length : Z)
    : res (Z * option (list Z)) :=
  match buf with
  | None => Ok (-1, None)
  | Some b =>
      if length >? 256 then Ok (-1, buf) else
      match call with
      | Some bs => b ← buf_put b 0 bs; Ok (0, Some b)
      | None => match urandom with
                | None => Ok (-1, buf)
                | Some reads => r ← urandom_loop reads b 0 length; Ok (r.1, Some r.2)
                end
      end
  end.

(** ** Entries *)

Lemma length_padded size n s : (n <= size)%nat -> length (padded size n s) = size.
Proof.
  intros Hn. unfold padded, zeros. cbv zeta. rewrite length_app, length_replicate, length_take, length_string_bytes. lia.
Qed.

Lemma padded_all size n m s :
  (String.length s <= n)%nat -> (String.length s <= m)%nat -> padded size n s = padded size m s.
Proof. intros. unfold padded. by rewrite !take_ge by (rewrite length_string_bytes; lia). Qed.

(** The name field of a record holds the name and a NUL. *)
Lemma dirent_name ino reclen namlen type n s :
  (String.length s <= n < NAME_FIELD)%nat ->
  slice (dirent_bytes ino reclen namlen type (padded NAME_FIELD n s)) D_NAME (Z.of_nat (String.length s) + 1)
  = string_bytes s ++ [0].
Proof.
  intros Hn. unfold dirent_bytes, slice, D_NAME. change (Z.to_nat 21) with (8 + (8 + (2 + (2 + 1))))%nat.
  rewrite <- !drop_drop. do 5 (rewrite drop_app_length' by (by rewrite length_le_bytes)).
  unfold padded. rewrite (take_ge (string_bytes s)) by (rewrite length_string_bytes; lia). cbv zeta.
  rewrite length_string_bytes. unfold NAME_FIELD in *.
  destruct (1024 - String.length s)%nat as [|k] eqn:Ek; [lia|]. unfold zeros. cbn [replicate]. rewrite <- app_assoc.
  cbn [app]. replace (Z.to_nat (Z.of_nat (String.length s) + 1)) with (length (string_bytes s ++ [0]))
    by (rewrite length_app, length_string_bytes; cbn; lia).
  set (t := string_bytes s ++ [0]). transitivity (take (length t) (t ++ (replicate k 0 ++ replicate 3 0))).
  - f_equal. unfold t. by rewrite <- app_assoc.
  - apply take_app_length.
Qed.

(** Readdir and readdir_r give a guest the same record for an
    entry (Linux names have at most 255 characters): 1048 bytes with inode,
    record length, type and length of the name in Darwin's places, and the
    name with its NUL at offset 21; at the end of the directory neither gives
    an entry. *)
Theorem readdir_records (le : linux_dirent) (entry : list Z) :
  (String.length (ld_name le) <= 255)%nat ->
  exists rec, do_readdir (Some le) = Some rec /\ readdir_r 0 (Some le) entry = (0, rec, true) /\
    length rec = 1048%nat /\ slice rec 0 8 = le_bytes 8 (ld_ino le) /\
    slice rec 18 2 = le_bytes 2 (Z.of_nat (String.length (ld_name le))) /\ slice rec 20 1 = le_bytes 1 (ld_type le) /\
    slice rec D_NAME (Z.of_nat (String.length (ld_name le)) + 1) = string_bytes (ld_name le) ++ [0] /\
    do_readdir None = None /\ readdir_r 0 None entry = (0, entry, false).
Proof.
  intros Hn. assert (Hl : u16 (Z.of_nat (String.length (ld_name le))) = Z.of_nat (String.length (ld_name le)))
    by (unfold u16; apply Z.mod_small; lia).
  unfold do_readdir, readdir_r. rewrite Hl. cbn [Z.eqb]. cbv zeta. eexists. split; [reflexivity|].
  rewrite Nat.min_l by (unfold NAME_FIELD; lia). split_and!; try done.
  - do 2 f_equal. f_equal. apply padded_all; unfold NAME_FIELD; lia.
  - unfold dirent_bytes. rewrite !length_app, !length_le_bytes, length_padded by (unfold NAME_FIELD; lia). reflexivity.
  - apply dirent_name. unfold NAME_FIELD. lia.
Qed.

Lemma readdir_records_witness :
  exists rec, readdir_r 0 (Some (LinuxDirent 77 32 8 "ab.c")) [] = (0, rec, true) /\ slice rec D_NAME 5 = [97; 98; 46; 99; 0].
Proof.
  destruct (readdir_records (LinuxDirent 77 32 8 "ab.c") [] ltac:(cbn; lia)) as (rec & _ & H1 & _ & _ & _ & _ & H2 & _).
  exists rec. split; [exact H1|exact H2].
Defined.

(** ** glob *)

(** Each guest bit has its own glibc bit. *)
Lemma glob_flags_bits flags :
  Forall (fun '(m, b) => has (glob_flags flags) b = has flags m) glob_flag_pairs.
Proof.
  unfold glob_flags, glob_flag_pairs. cbn [fold_left].
  repeat (apply Forall_cons_2; [|]); [..|apply Forall_nil_2];
    repeat match goal with |- context [has flags ?m] => destruct (has flags m) end; reflexivity.
Qed.

Section glob_append.
Context (real_glob : string -> Z -> glob_t -> Z * glob_t) (matches : string -> Z -> list string).

(** glibc's glob: with GLOB_APPEND the new matches are put behind the paths
    that are there. *)
Definition glob_law : Prop := forall pattern flags g,
  gl_paths (real_glob pattern flags g).2 =
  (if has flags LINUX_GLOB_APPEND then gl_paths g else []) ++ matches pattern flags.

(** Glob with GLOB_APPEND forgets the paths found so far: the
    structure handed to glibc starts empty, so the guest gets the new matches
    only, with or without the flag. *)
Theorem glob_append_forgets (pattern : string) (flags : Z) (g : glob_t) :
  glob_law -> gl_paths (macify_glob real_glob pattern flags g).2 = matches pattern (glob_flags flags).
Proof.
  intros Hlaw. unfold macify_glob.
  pose proof (Hlaw pattern (glob_flags flags) (Glob [] (gl_offs g) (gl_flags g))) as H.
  destruct (real_glob _ _ _) as [ret l]. cbn [snd gl_paths] in *. rewrite H. by destruct (has _ _).
Qed.
End glob_append.

(** "a" was found before, "b" matches now. *)
Lemma glob_append_forgets_witness :
  let real pattern flags g := (0, Glob ((if has flags LINUX_GLOB_APPEND then gl_paths g else []) ++ ["b"%string]) 0 0) in
  gl_paths (macify_glob real "*" 1 (Glob ["a"%string] 0 0)).2 = ["b"%string].
Proof.
  exact (glob_append_forgets (fun pattern flags g => (0, Glob ((if has flags LINUX_GLOB_APPEND then gl_paths g else []) ++ ["b"%string]) 0 0))
    (fun _ _ => ["b"%string]) "*" 1 (Glob ["a"%string] 0 0) (fun _ _ _ => eq_refl)).
Defined.

(** ** File systems *)

Lemma statfs_size st a b c : length (statfs_bytes st a b c) = 2168%nat.
Proof.
  unfold statfs_bytes. cbv zeta. rewrite !length_app, !length_le_bytes, !length_padded by lia. reflexivity.
Qed.

(** The numbers are at the offsets of Darwin's struct. *)
Lemma statfs_layout st fstype mnton mntfrom :
  let b := statfs_bytes (Some st) fstype mnton mntfrom in
  slice b 0 4 = le_bytes 4 (sf_bsize st) /\ slice b 8 8 = le_bytes 8 (sf_blocks st) /\
  slice b 16 8 = le_bytes 8 (sf_bfree st) /\ slice b 24 8 = le_bytes 8 (sf_bavail st) /\
  slice b 32 8 = le_bytes 8 (sf_files st) /\ slice b 40 8 = le_bytes 8 (sf_ffree st) /\
  slice b 48 8 = le_bytes 8 (sf_fsid st) /\ slice b 60 4 = le_bytes 4 (sf_type st) /\
  slice b 72 16 = padded 16 15 fstype /\ slice b 88 1024 = padded 1024 1023 mnton /\
  slice b 1112 1024 = padded 1024 1023 mntfrom.
Proof.
  assert (L1 := length_padded 16 15 fstype ltac:(lia)). assert (L2 := length_padded 1024 1023 mnton ltac:(lia)).
  assert (L3 := length_padded 1024 1023 mntfrom ltac:(lia)). cbv zeta. unfold statfs_bytes. cbv zeta.
  split_and!; try reflexivity; unfold slice.
  - change (Z.to_nat 72) with (4 + (4 + (8 + (8 + (8 + (8 + (8 + (8 + (4 + (4 + (4 + 4)))))))))))%nat.
    rewrite <- !drop_drop. do 12 (rewrite drop_app_length' by (by rewrite length_le_bytes)).
    by apply take_app_length'.
  - change (Z.to_nat 88) with (4 + (4 + (8 + (8 + (8 + (8 + (8 + (8 + (4 + (4 + (4 + (4 + 16))))))))))))%nat.
    rewrite <- !drop_drop. do 12 (rewrite drop_app_length' by (by rewrite length_le_bytes)).
    rewrite drop_app_length' by done. by apply take_app_length'.
  - replace (Z.to_nat 1112) with (4 + (4 + (8 + (8 + (8 + (8 + (8 + (8 + (4 + (4 + (4 + (4 + (16 + 1024)))))))))))))%nat by lia.
    rewrite <- !drop_drop. do 12 (rewrite drop_app_length' by (by rewrite length_le_bytes)).
    do 2 (rewrite drop_app_length' by done). by apply take_app_length'.
Qed.

(** The list of mounts is made once: later calls give what the first one saw,
    at most 64 records. *)
Lemma getmntinfo_cached statfs statfs' contents contents' cache :
  let '(n, _, cache1) := getmntinfo statfs contents cache in
  (cache = None -> n <= 64) /\ getmntinfo statfs' contents' cache1 = (n, true, cache1).
Proof.
  unfold getmntinfo. destruct cache as [recs|]; [done|]. destruct contents as [c|]; [|done]. split; [|done].
  intros _. unfold mount_records. rewrite length_take. unfold MAX_MOUNTS. lia.
Qed.

(** ** Random bytes *)

(** The kernel gives at least one byte and at most what it is asked for. *)
Fixpoint fair (reads : list chunk) (got count : Z) : Prop :=
  match reads with
  | [] => True
  | None :: _ => True
  | Some bs :: reads => 0 < buf_len bs /\ (got < count -> got + buf_len bs <= count) /\ fair reads (got + buf_len bs) count
  end.

(** The bytes handed over before the first failure. *)
Fixpoint handed (reads : list chunk) : list Z :=
  match reads with Some bs :: reads => bs ++ handed reads | _ => [] end.

(** The loop over one source fills from [got] on with what it is handed, and
    stays between [got] and [count]. *)
Lemma urandom_loop_spec count reads : forall buf got r buf',
  fair reads got count -> 0 <= got <= count -> count <= buf_len buf ->
  urandom_loop reads buf got count <> Undef /\
  (urandom_loop reads buf got count = Ok (r, buf') ->
   confined got count buf buf' /\ (r = 0 \/ r = -1) /\
   (r = 0 -> slice buf' got (count - got) = take (Z.to_nat (count - got)) (handed reads))).
Proof.
  induction reads as [|c reads IH]; intros buf got r buf' Hf Hg Hb; cbn [urandom_loop];
    destruct (Z.ltb_spec got count) as [Hlt|Hge].
  1: done.
  2: destruct c as [bs|].
  1,4: (split; [done|]; intros [= <- <-]; split_and!; [done|by left|intros _; by replace (count - got) with 0 by lia]).
  2: { split; [done|]. intros [= <- <-]. split_and!; [done|by right|done]. }
  destruct Hf as (Hpos & Hle & Hf). specialize (Hle Hlt).
  destruct (buf_put_within got count buf got bs) as (b1 & -> & C1 & S1); [lia..|]. cbn [mbind res_bind].
  destruct (IH b1 (got + buf_len bs) r buf' Hf ltac:(lia) ltac:(rewrite (confined_len _ _ _ _ C1); lia)) as [Hu H].
  split; [exact Hu|]. intros E. destruct (H E) as (C2 & Hr & S2). split_and!; [|done|].
  - transitivity b1; [done|]. eapply confined_weaken; [| |exact C2]; lia.
  - intros H0. specialize (S2 H0). cbn [handed].
    replace (count - got) with (buf_len bs + (count - (got + buf_len bs))) by lia.
    unfold slice in *. rewrite Z2Nat.inj_add by lia. rewrite <- take_take_drop, drop_drop, <- Z2Nat.inj_add, S2 by lia.
    pose proof (confined_out _ _ _ _ C2 got (buf_len bs) ltac:(lia) ltac:(lia)) as S3. unfold slice in S3. rewrite S3, S1.
    unfold buf_len at 2. rewrite Nat2Z.id. by rewrite take_app_add.
Qed.

(** The answers of getrandom up to its first failure and then those of
    /dev/urandom, as one source. *)
Fixpoint joined (calls : list chunk) (urandom : option (list chunk)) : list chunk :=
  match calls with
  | [] => []
  | None :: _ => match urandom with None => [None] | Some reads => reads end
  | Some bs :: calls => Some bs :: joined calls urandom
  end.

Lemma getrandom_joined calls urandom count : forall buf got,
  getrandom_loop calls urandom buf got count = urandom_loop (joined calls urandom) buf got count.
Proof.
  induction calls as [|[bs|] calls IH]; intros buf got; cbn [getrandom_loop joined urandom_loop].
  - done.
  - destruct (got <? count); [|done]. destruct (buf_put buf got bs); cbn [mbind res_bind]; [apply IH|done|done].
  - destruct urandom as [reads|]; cbn [urandom_loop]; [|done].
    destruct (got <? count) eqn:E; [done|]. destruct reads as [|[?|] reads]; cbn [urandom_loop]; by rewrite E.
Qed.

(** A random buffer is full or the call fails.  When
    CCRandomGenerateBytes (or SecRandomCopyBytes) returns 0, all [count] bytes
    of the buffer are bytes the kernel handed over, in order, from getrandom
    and after its first failure from /dev/urandom; in every case only those
    [count] bytes are written, and the result is 0 or -1. *)
Theorem random_fills (calls : list chunk) (urandom : option (list chunk)) (buf : list Z) (count r : Z) (buf' : option (list Z)) :
  fair (joined calls urandom) 0 count -> 0 < count <= buf_len buf ->
  CCRandomGenerateBytes calls urandom (Some buf) count <> Undef /\
  (CCRandomGenerateBytes calls urandom (Some buf) count = Ok (r, buf') ->
   exists b, buf' = Some b /\ confined 0 count buf b /\ (r = 0 \/ r = -1) /\
     (r = 0 -> slice b 0 count = take (Z.to_nat count) (handed (joined calls urandom)))).
Proof.
  intros Hf Hc. unfold CCRandomGenerateBytes. rewrite (proj2 (Z.eqb_neq count 0)) by lia. rewrite getrandom_joined.
  split.
  - destruct (urandom_loop_spec count (joined calls urandom) buf 0 0 [] Hf ltac:(lia) ltac:(lia)) as [Hu _].
    destruct (urandom_loop _ _ _ _); [done|by destruct Hu|done].
  - destruct (urandom_loop _ _ _ _) as [[r0 b]| |] eqn:E; [|done|done]. intros [= <- <-]. exists b. split; [done|].
    destruct (urandom_loop_spec count (joined calls urandom) buf 0 r0 b Hf ltac:(lia) ltac:(lia)) as [_ H].
    destruct (H E) as (C & Hr & S). rewrite Z.sub_0_r in S. done.
Qed.

(** getrandom gives two bytes and fails, /dev/urandom gives the other two. *)
Lemma random_fills_witness :
  exists b, CCRandomGenerateBytes [Some [1; 2]; None] (Some [Some [3; 4]]) (Some [0; 0; 0; 0; 9]) 4 = Ok (0, Some b) /\
    slice b 0 4 = [1; 2; 3; 4].
Proof.
  exists [1; 2; 3; 4; 9]. split; [reflexivity|].
  destruct (random_fills [Some [1; 2]; None] (Some [Some [3; 4]]) [0; 0; 0; 0; 9] 4 0 (Some [1; 2; 3; 4; 9]))
    as [_ H]; [cbn; unfold buf_len; cbn; lia|vm_compute; split; [reflexivity|discriminate]|].
  destruct (H eq_refl) as (b & [= <-] & _ & _ & S). exact (S eq_refl).
Defined.

(** A short answer of getrandom is taken for a full one by getentropy. *)
Lemma getentropy_short (bs buf : list Z) (length : Z) :
  length <= 256 -> buf_len bs <= buf_len buf ->
  exists b, getentropy (Some bs) None (Some buf) length = Ok (0, Some b) /\ confined 0 (buf_len bs) buf b.
Proof.
  intros Hl Hb. unfold getentropy. replace (length >? 256) with false by lia. pose proof (buf_len_nonneg bs).
  destruct (buf_put_within 0 (buf_len bs) buf 0 bs) as (b & -> & C & _); [lia..|]. by exists b.
Qed.
