(* ===== verification/Semaphores.v ===== *)
(** * Semaphores (src/shim/sys/dispatch.c)

    Mach and dispatch semaphores over POSIX ones, as a step relation: any
    number of threads enter a wait, return from it when the count allows, and
    signal.  [sem_wait] in its loop over EINTR is one blocking operation. *)
From Stdlib Require Import ZArith Lia Bool.
From stdpp Require Import base relations numbers.
From S2P Require Import Prelude.

(** [macify_mach_sem_t] with its clients: the count of the POSIX semaphore, the
    threads inside a wait, the waits that have returned, the posts made. *)
Record sem := Sem { sem_valid : bool; sem_count : Z; waiting : Z; returned : Z; posted : Z }.

Definition SEM_VALUE_MAX : Z := 2 ^ 31 - 1.

(** [semaphore_create]: [sem_init] refuses a count above its limit, and the
    object is then marked as not valid; the call succeeds in any case. *)
Definition semaphore_create (value : Z) : sem :=
  let v := u32 value in
  if v <=? SEM_VALUE_MAX then Sem true v 0 0 0 else Sem false 0 0 0 0.

(** [sem_post]: fails with EOVERFLOW, which the callers ignore, at the limit. *)
Definition post (s : sem) : sem :=
  if sem_count s <? SEM_VALUE_MAX
  then Sem (sem_valid s) (sem_count s + 1) (waiting s) (returned s) (posted s + 1) else s.

Definition semaphore_signal (s : sem) : sem := if sem_valid s then post s else s.

(** [semaphore_signal_all]: the loop over the count has no effect. *)
Definition semaphore_signal_all (s : sem) : sem := if sem_valid s then post s else s.

(** A thread enters [semaphore_wait]: with an object that is not valid it
    returns at once. *)
Definition wait_enter (s : sem) : sem :=
  if sem_valid s then Sem true (sem_count s) (waiting s + 1) (returned s) (posted s)
  else Sem false (sem_count s) (waiting s) (returned s + 1) (posted s).

(** [sem_wait] takes one from the count. *)
Definition wait_return (s : sem) : option sem :=
  if sem_valid s && (0 <? sem_count s) && (0 <? waiting s)
  then Some (Sem true (sem_count s - 1) (waiting s - 1) (returned s + 1) (posted s)) else None.

Inductive sem_step : sem -> sem -> Prop :=
| step_enter s : sem_step s (wait_enter s)
| step_return s s' : wait_return s = Some s' -> sem_step s s'
| step_signal s : sem_step s (semaphore_signal s)
| step_signal_all s : sem_step s (semaphore_signal_all s).

(** Steps of the waiting threads alone. *)
Inductive wait_step : sem -> sem -> Prop :=
| wstep_enter s : wait_step s (wait_enter s)
| wstep_return s s' : wait_return s = Some s' -> wait_step s s'.

(** [semaphore_timedwait]: the moment the wait ends at. *)
Definition deadline (now_sec now_nsec sec nsec : Z) : Z * Z :=
  let s := now_sec + sec in
  let n := now_nsec + nsec in
  if n >=? 1000000000 then (s + 1, n - 1000000000) else (s, n).

(** ** Lemmas *)

(** Every return has taken a unit that the start or a post put there. *)
Definition balanced (init : Z) (s : sem) : Prop :=
  sem_valid s = true /\ 0 <= sem_count s /\ 0 <= waiting s /\ returned s + sem_count s = init + posted s.

Lemma balanced_step init s s' : sem_step s s' -> balanced init s -> balanced init s'.
Proof.
  intros Hs (Hv & Hc & Hw & Hb). unfold balanced.
  destruct Hs as [s|s s' E|s|s];
    [unfold wait_enter; rewrite Hv| |unfold semaphore_signal; rewrite Hv|unfold semaphore_signal_all; rewrite Hv];
    try (unfold post; try destruct (sem_count s <? SEM_VALUE_MAX); cbn; split_and!; done || lia).
  unfold wait_return in E. destruct (_ && _) eqn:Eb; [|done]. injection E as <-.
  apply andb_true_iff in Eb as [Eb Ew]. apply andb_true_iff in Eb as [_ Ec]. cbn. split_and!; [done|lia..].
Qed.

Lemma wait_steps_balance s s' :
  rtc wait_step s s' -> sem_valid s = true -> 0 <= sem_count s ->
  sem_valid s' = true /\ 0 <= sem_count s' <= sem_count s /\ returned s' + sem_count s' = returned s + sem_count s /\
  waiting s - (sem_count s - sem_count s') <= waiting s'.
Proof.
  induction 1 as [s|s s1 s' Hs _ IH]; intros Hv Hc; [split_and!; done || lia|].
  assert (H1 : sem_valid s1 = true /\ 0 <= sem_count s1 <= sem_count s /\
    returned s1 + sem_count s1 = returned s + sem_count s /\ waiting s - (sem_count s - sem_count s1) <= waiting s1).
  { destruct Hs as [s|s s1 E]; [unfold wait_enter; rewrite Hv; cbn; split_and!; done || lia|].
    unfold wait_return in E. destruct (_ && _) eqn:Eb; [|done]. injection E as <-.
    apply andb_true_iff in Eb as [Eb Ew]. apply andb_true_iff in Eb as [_ Ec]. cbn. split_and!; done || lia. }
  destruct H1 as (Hv1 & Hc1 & Hb1 & Hw1). destruct (IH Hv1 ltac:(lia)) as (Hv2 & Hc2 & Hb2 & Hw2). split_and!; done || lia.
Qed.

(** ** Properties *)

(** A semaphore lets through exactly what was signalled: in
    every reachable state the waits that have returned and the count left add
    up to the initial count and the posts made, so no wait returns without its
    own unit.  A semaphore whose initial count the host refuses is created
    with success and never blocks. *)
Theorem semaphore_conserves (value : Z) (s : sem) :
  rtc sem_step (semaphore_create value) s ->
  (u32 value <= SEM_VALUE_MAX -> returned s + sem_count s = u32 value + posted s /\ returned s <= u32 value + posted s) /\
  (SEM_VALUE_MAX < u32 value -> waiting s = 0).
Proof.
  intros Hr. split; intros Hv; unfold semaphore_create in Hr; cbv zeta in Hr.
  - rewrite (proj2 (Z.leb_le _ _) Hv) in Hr.
    assert (H : balanced (u32 value) s).
    { refine (rtc_ind_r (balanced (u32 value)) _ _ _ _ Hr).
      - unfold balanced. cbn. pose proof (u32_range value). split_and!; [done|lia..].
      - intros x y _ Hs Hx. exact (balanced_step _ _ _ Hs Hx). }
    destruct H as (_ & Hc & _ & Hb). lia.
  - rewrite (proj2 (Z.leb_gt _ _) Hv) in Hr.
    refine (proj2 (rtc_ind_r (fun s => sem_valid s = false /\ waiting s = 0) _ _ _ _ Hr)); [done|].
    intros x y _ Hs [Hx Hw].
    destruct Hs as [x|x y E|x|x];
      [unfold wait_enter|unfold wait_return in E|unfold semaphore_signal|unfold semaphore_signal_all]; rewrite Hx in *; done.
Qed.

(** One wait on a count of 1. *)
Lemma semaphore_conserves_witness :
  exists s, rtc sem_step (semaphore_create 1) s /\ returned s = 1 /\ returned s + sem_count s = u32 1 + posted s.
Proof.
  exists (Sem true 0 0 1 0).
  assert (Hr : rtc sem_step (semaphore_create 1) (Sem true 0 0 1 0)).
  { apply (rtc_l _ _ (Sem true 1 1 0 0)); [exact (step_enter (Sem true 1 0 0 0))|].
    apply rtc_once. by apply step_return. }
  split; [exact Hr|]. split; [reflexivity|].
  exact (proj1 (proj1 (semaphore_conserves 1 (Sem true 0 0 1 0) Hr) ltac:(vm_compute; discriminate))).
Defined.

(** Semaphore_signal_all does not wake all.  Of the threads that
    wait when it is called on an empty semaphore, at most one returns in any
    schedule of the waiting threads; of two or more, one still waits in every
    state reached without another signal. *)
Theorem signal_all_wakes_one (s s' : sem) :
  sem_valid s = true -> sem_count s = 0 -> rtc wait_step (semaphore_signal_all s) s' ->
  returned s' <= returned s + 1 /\ waiting s - 1 <= waiting s'.
Proof.
  intros Hv Hc Hr. unfold semaphore_signal_all, post in Hr. rewrite Hv, Hc in Hr.
  destruct (wait_steps_balance _ _ Hr) as (_ & H1 & H2 & H3); cbn in *; [done|lia|lia].
Qed.

(** Two waiters: one is left. *)
Lemma signal_all_wakes_one_witness :
  exists s', rtc wait_step (semaphore_signal_all (Sem true 0 2 0 0)) s' /\ waiting s' = 1 /\ 2 - 1 <= waiting s'.
Proof.
  exists (Sem true 0 1 1 1).
  assert (Hr : rtc wait_step (semaphore_signal_all (Sem true 0 2 0 0)) (Sem true 0 1 1 1))
    by (apply rtc_once; by apply wstep_return).
  split; [exact Hr|]. split; [reflexivity|].
  exact (proj2 (signal_all_wakes_one (Sem true 0 2 0 0) (Sem true 0 1 1 1) eq_refl eq_refl Hr)).
Defined.

(** The deadline is normalised for a timeout of less than a second's worth of
    nanoseconds, and is the sum. *)
Lemma deadline_normal now_sec now_nsec sec nsec :
  0 <= now_nsec < 1000000000 -> 0 <= nsec < 1000000000 ->
  let '(s, n) := deadline now_sec now_nsec sec nsec in
  0 <= n < 1000000000 /\ s * 1000000000 + n = (now_sec + sec) * 1000000000 + now_nsec + nsec.
Proof. intros H1 H2. unfold deadline. cbv zeta. destruct (Z.geb_spec (now_nsec + nsec) 1000000000); lia. Qed.
