(* ===== verification/Startup.v ===== *)
(** * The last steps before the program runs

    The end of [main] (src/src/main.c) and of src/src/runtime.c: the pointer
    to the environment, what the shim is told of the image, initializers and
    final protections, the environment of Go programs, the GS base, and the
    registers main is called with.  Handler installation, the comm page and
    the jump itself are left out. *)
From Stdlib Require Import ZArith Lia Bool.
From stdpp Require Import base gmap list strings numbers.
From S2P Require Import Prelude Buffers LoaderState Segments Symbols Binds ChainedFixups MachoDylib Stack ShimCore ShimExec.

(** ** The environ pointer of the guest *)

(** One entry of a pointer section: the slot of environ gets [environ_addr]. *)
Definition environ_entry (f : list Z) (t : symtab) (indirect start_idx sec_base environ_addr : Z)
    (m : mem) (k : Z) : res mem :=
  sym_idx ← rd32 f (indirect + 4 * u32 (start_idx + k));
  if has sym_idx 0x80000000 then Ok m else
  if sym_idx >=? nsyms t then Ok m else
  strx ← rd32 f (symoff t + 16 * sym_idx);
  if strx >=? strsize t then Ok m else
  name ← rd_cstring f (stroff t + strx);
  let name := strip_underscore name in
  if streq name "environ" || streq name "__environ"
  then store64 m (u64 (sec_base + u32 (k * 8))) environ_addr else Ok m.

Definition environ_section (f : list Z) (t : symtab) (indirect environ_addr : Z) (m : mem) (s : loaded_section) : res mem :=
  let sec_type := Z.land (sec_flags s) 0xff in
  if ((sec_type =? 7) || (sec_type =? 6)) && (sec_reserved1 s >? 0)
  then fold_res (environ_entry f t indirect (sec_reserved1 s) (sec_addr s) environ_addr) (seqZ 0 (u32 (sec_size s / 8))) m
  else Ok m.

Definition fix_environ (f : list Z) (t : symtab) (indirect environ_addr : Z) (sections : list loaded_section) (m : mem)
    : res mem := fold_res (environ_section f t indirect environ_addr) sections m.

(** ** Functions that report stdio errors *)

(** The address a symbol of the table makes the pass patch: a section symbol
    with one of three names. *)
Definition close_site (f : list Z) (t : symtab) (slide i : Z) : res (option Z) :=
  let nl := symoff t + u32 (i * 16) in
  ty ← of_option (buf_get f (nl + 4));
  if negb (Z.land ty 0x0e =? 0x0e) then Ok None else
  strx ← rd32 f nl;
  name ← rd_cstring f (stroff t + strx);
  let name := strip_underscore name in
  if streq name "close_stdout" || streq name "close_stream" || streq name "flush_stdout"
  then value ← rd64 f (nl + 8); Ok (Some (u64 (value + slide))) else Ok None.

(** [xor eax, eax; ret] *)
Definition return_zero : list Z := [0x31; 0xc0; 0xc3].

Definition patch_close_entry (f : list Z) (t : symtab) (slide : Z) (m : mem) (i : Z) : res mem :=
  site ← close_site f t slide i;
  match site with Some a => store m a return_zero | None => Ok m end.

(** The pass; its mprotect calls are taken to succeed, as the code does. *)
Definition patch_close (f : list Z) (t : symtab) (slide : Z) (m : mem) : res mem :=
  if (symoff t >? 0) && (nsyms t >? 0) && negb (slide =? 0)
  then fold_res (patch_close_entry f t slide) (seqZ 0 (nsyms t)) m else Ok m.

(** ** What the shim is told *)

(** Address and size of the initialised thread-local data, size of the rest. *)
Definition tlv_info (sections : list loaded_section) : Z * Z * Z :=
  let td := find_section sections "__DATA" "__thread_data" in
  let tb := find_section sections "__DATA" "__thread_bss" in
  (match td with Some s => sec_addr s | None => 0 end, match td with Some s => sec_size s | None => 0 end,
   match tb with Some s => sec_size s | None => 0 end).

(** The first segment that is not __PAGEZERO. *)
Definition image_header (segs : list loaded_segment) : Z :=
  match List.find (fun s => negb (is_pagezero s)) segs with Some s => vmaddr s | None => 0 end.

(** [set_text_range] for the first __TEXT. *)
Definition tell_text_range (segs : list loaded_segment) (t : text_state) : text_state :=
  match List.find (fun s => streq (seg_name s) "__TEXT") segs with
  | Some s => set_text_range t (vmaddr s) (u64 (vmaddr s + vmsize s))
  | None => t
  end.

(** ** Initializers and protections *)

(** The functions run, in order: the words of the section that are not 0. *)
Definition init_functions (sections : list loaded_section) (m : mem) : res (list Z) :=
  match (match find_section sections "__DATA" "__mod_init_func" with
         | Some s => Some s | None => find_section sections "__DATA_CONST" "__mod_init_func" end) with
  | None => Ok []
  | Some s =>
      ws ← fold_res (fun (ws : list Z) i => w ← load64 m (u64 (sec_addr s + 8 * i)); Ok (ws ++ [w])) (seqZ 0 (sec_size s / 8)) [];
      Ok (List.filter (fun w => negb (w =? 0)) ws)
  end.

(** The mprotect calls (address, size, protection), and the segments. *)
Fixpoint enforce_protections (segs : list loaded_segment) : list (Z * Z * Z) * list loaded_segment :=
  match segs with
  | [] => ([], [])
  | s :: segs =>
      let '(calls, rest) := enforce_protections segs in
      if is_pagezero s || (prot s =? target_prot s) then (calls, s :: rest) else
      ((vmaddr s, vmsize s, target_prot s) :: calls,
       mk_segment (vmaddr s) (vmsize s) (target_prot s) (target_prot s) (seg_name s) (is_pagezero s) :: rest)
  end.

(** ** Go programs *)

Definition gs_test_pattern : list Z := [0x65; 0x48; 0xc7; 0x04; 0x25; 0x30; 0x00; 0x00; 0x00; 0x23; 0x01; 0x00; 0x00].

(** [memcmp(code + i, pattern, n) == 0] *)
Definition matches_at (m : mem) (a : Z) (pattern : list Z) : res bool :=
  bs ← of_option (get_bytes (mem_get m) a (length pattern)); Ok (bool_decide (bs = pattern)).

(** The scan of [main]: the pattern in the first 0x400 - 13 places. *)
Fixpoint go_scan (fuel : nat) (m : mem) (a : Z) : res bool :=
  match fuel with
  | O => Ok false
  | S fuel => b ← matches_at m a gs_test_pattern; match b with true => Ok true | false => go_scan fuel m (a + 1) end
  end.

Definition is_go (m : mem) (entry : Z) : res bool :=
  if entry =? 0 then Ok false else go_scan (Z.to_nat (0x400 - 13)) m entry.

(** The scan of [setup_gs_base]: the pattern followed by a load relative to
    RIP; the address that load reads, 0 if there is none. *)
Fixpoint tls_g_scan (fuel : nat) (m : mem) (a : Z) : res Z :=
  match fuel with
  | O => Ok 0
  | S fuel =>
      b ← matches_at m a gs_test_pattern;
      match b with
      | true => nx ← matches_at m (a + 13) [0x48; 0x8b; 0x05];
                match nx with
                | true => disp ← load32 m (a + 16); Ok (u64 (a + 20 + i32 disp))
                | false => tls_g_scan fuel m (a + 1)
                end
      | false => tls_g_scan fuel m (a + 1)
      end
  end.

Definition tls_g_addr (m : mem) (entry : Z) : res Z := tls_g_scan (Z.to_nat (0x400 - 13 - 7)) m entry.

(** The GS base set; [gs_page] is the zeroed page. *)
Definition setup_gs_base (m : mem) (entry gs_page : Z) : res Z :=
  tls_g ← tls_g_addr m entry; Ok (if tls_g =? 0 then gs_page else u64 (tls_g - 0x30)).

(** ** The environment *)

(** [setenv(name, value, 0)] *)
Definition setenv_new (environ : list string) (name value : string) : list string :=
  match getenv environ name with Some _ => environ | None => setenv environ name value end.

(** [exe] is what /proc/self/exe gives, cut at 4095 bytes; [None] when readlink fails. *)
Definition prepare_environ (go : bool) (exe : option string) (environ : list string) : list string :=
  let environ := if go then setenv_new (setenv_new environ "GODEBUG" "asyncpreemptoff=1") "GOMAXPROCS" "1" else environ in
  let environ := match exe with Some e => if streq e "" then environ else setenv environ "MACIFY_BINARY" (stake 4095 e) | None => environ end in
  setenv (setenv environ "PATH" "/usr/bin:/bin:/usr/sbin:/sbin:/usr/local/bin") "MACIFY_PATH_SET" "1".

(** ** The call of main *)

(** [1: add $8, %rcx; cmpq $0, -8(%rcx); jne 1b] *)
Fixpoint skip_to_null (fuel : nat) (m : mem) (rcx : Z) : res Z :=
  match fuel with
  | O => NoFuel
  | S fuel => let rcx := u64 (rcx + 8) in
              w ← load64 m (u64 (rcx - 8)); if w =? 0 then Ok rcx else skip_to_null fuel m rcx
  end.

(** rdi, rsi, rdx and rcx at the call, from the stack pointer. *)
Definition main_registers (fuel : nat) (m : mem) (rsp : Z) : res (Z * Z * Z * Z) :=
  rdi ← load64 m rsp;
  let rsi := u64 (rsp + 8) in
  let rdx := u64 (rsp + 8 + u64 (u64 (rdi + 1) * 8)) in
  rcx ← skip_to_null fuel m rdx;
  Ok (rdi, rsi, rdx, rcx).

(** ** The registers of main *)

Lemma skip_to_null_spec m n : forall fuel a,
  0 <= a -> a + 8 * (Z.of_nat n + 1) < 2 ^ 64 -> (n < fuel)%nat ->
  (forall i, (i < n)%nat -> exists p, load64 m (a + 8 * Z.of_nat i) = Ok p /\ p <> 0) ->
  load64 m (a + 8 * Z.of_nat n) = Ok 0 ->
  skip_to_null fuel m a = Ok (a + 8 * (Z.of_nat n + 1)).
Proof.
  induction n as [|n IH]; intros [|fuel] a Ha Hb Hf Hp H0; try lia; cbn [skip_to_null]; cbv zeta;
    rewrite (u64_small (a + 8)) by lia; rewrite (u64_small (a + 8 - 8)) by lia; replace (a + 8 - 8) with a by lia.
  - rewrite Z.mul_0_r, Z.add_0_r in H0. rewrite H0. cbn [mbind res_bind Z.eqb]. reflexivity.
  - destruct (Hp 0%nat ltac:(lia)) as (p & E & Hp0). rewrite Z.mul_0_r, Z.add_0_r in E. rewrite E. cbn [mbind res_bind].
    rewrite (proj2 (Z.eqb_neq p 0) Hp0). rewrite (IH fuel (a + 8)); [f_equal; lia|lia|lia|lia| |].
    + intros i Hi. destruct (Hp (S i) ltac:(lia)) as (q & Eq & Hq). exists q. split; [|done].
      rewrite <- Eq. f_equal. lia.
    + rewrite <- H0. f_equal. lia.
Qed.

(** A pointer to a string is not NULL while nothing is mapped at 0. *)
Lemma cstring_not_null m p s : m !! 0 = None -> cstring_at m p s -> p <> 0.
Proof.
  intros H0 Hs ->. unfold cstring_at in Hs. rewrite Nat.add_comm in Hs. cbn [Nat.add get_bytes] in Hs.
  unfold mem_get in Hs. by rewrite H0 in Hs.
Qed.

(** A vector of C strings at [a]: a pointer to each, in order, then NULL. *)
Definition string_vector (m : mem) (a : Z) (ss : list (list Z)) : Prop :=
  (forall i s, ss !! i = Some s -> exists p, load64 m (a + 8 * Z.of_nat i) = Ok p /\ cstring_at m p s) /\
  load64 m (a + 8 * Z.of_nat (length ss)) = Ok 0.

Lemma stack_layout_vectors argv0 argv envp top m :
  stack_layout argv0 argv envp top m ->
  let argc := Z.of_nat (length argv) in
  string_vector m (top + 8) argv /\ string_vector m (top + 8 * (2 + argc)) envp /\
  string_vector m (top + 8 * (3 + argc + Z.of_nat (length envp))) [argv0].
Proof.
  intros (_ & Ha & Hn & He & Hm & (p & Hp & Hs) & Hz). split_and!; split.
  - intros i s Hi. destruct (Ha i s Hi) as (q & Hq & Hc). exists q. split; [rewrite <- Hq; f_equal; lia|done].
  - rewrite <- Hn. f_equal. lia.
  - intros i s Hi. destruct (He i s Hi) as (q & Hq & Hc). exists q. split; [rewrite <- Hq; f_equal; lia|done].
  - rewrite <- Hm. f_equal. lia.
  - intros [|i] s Hi; [|done]. injection Hi as <-. exists p. split; [rewrite <- Hp; f_equal; lia|done].
  - rewrite <- Hz. f_equal. cbn. lia.
Qed.

(** C22 (functional): main gets its arguments.  Where [mmap] grants one of the
    two sizes and strings and pointers fit into 8 MB, [setup_stack] succeeds,
    and from the stack it leaves the loader's entry sequence computes four
    values: argc; the address of a vector that has, in order, a pointer to
    each argument and then NULL; the address right behind it of such a vector
    of the environment; and the address right behind that of the apple
    vector, which has the program's path alone.  The search for the NULL that
    ends the environment ends there, provided nothing is mapped at address 0. *)
Theorem main_gets_arguments (os_setrlimit : rlimit -> rlimit -> rlimit)
    (os_mmap : mem -> Z -> option (Z * mem)) (rl : option rlimit)
    (argv0 : list Z) (rest envp : list (list Z)) (m : mem) :
  let argv := argv0 :: rest in
  mmap_ok os_mmap ->
  is_Some (os_mmap m (16 * 1024 * 1024)) \/ is_Some (os_mmap m (8 * 1024 * 1024)) ->
  (length argv < Z.to_nat 1000000)%nat -> stack_need argv0 argv envp + 48 <= 8 * 1024 * 1024 ->
  exists info m', setup_stack os_setrlimit os_mmap rl argv envp m = Ok (Some (info, m')) /\
    let argv_at := stk_top info + 8 in
    let envp_at := argv_at + 8 * (Z.of_nat (length argv) + 1) in
    let apple_at := envp_at + 8 * (Z.of_nat (length envp) + 1) in
    string_vector m' argv_at argv /\ string_vector m' envp_at envp /\ string_vector m' apple_at [argv0] /\
    (m' !! 0 = None -> forall fuel, (length envp < fuel)%nat ->
     main_registers fuel m' (stk_top info) = Ok (Z.of_nat (length argv), argv_at, envp_at, apple_at)).
Proof.
  intros argv Hos Hgrant Hargc Hneed.
  destruct (setup_stack_spec os_setrlimit os_mmap rl argv0 rest envp m) as (info & m' & E & _ & Hin & _ & L & _); [done..|].
  fold argv in E, Hin, L. exists info, m'. split; [exact E|].
  pose proof (stack_layout_vectors _ _ _ _ _ L) as (Va & Ve & Vp). destruct L as (La & _).
  cbv zeta in Va, Ve, Vp |- *. set (top := stk_top info) in *.
  set (argc := Z.of_nat (length argv)) in *. set (nenv := Z.of_nat (length envp)) in *.
  assert (0 <= argc /\ 0 <= nenv) as [Hargc0 Hnenv0] by lia.
  replace (top + 8 + 8 * (argc + 1)) with (top + 8 * (2 + argc)) by lia.
  replace (top + 8 * (2 + argc) + 8 * (nenv + 1)) with (top + 8 * (3 + argc + nenv)) by lia.
  split; [exact Va|]. split; [exact Ve|]. split; [exact Vp|]. intros H0 fuel Hfuel.
  unfold main_registers. rewrite La. cbn [mbind res_bind]. cbv zeta.
  rewrite (u64_small (argc + 1)) by lia. rewrite (u64_small ((argc + 1) * 8)) by lia.
  rewrite (u64_small (top + 8)) by lia. rewrite (u64_small (top + 8 + (argc + 1) * 8)) by lia.
  replace (top + 8 + (argc + 1) * 8) with (top + 8 * (2 + argc)) by lia.
  destruct Ve as [Le Ln].
  rewrite (skip_to_null_spec m' (length envp) fuel); [cbn; do 2 f_equal; lia|lia|lia|done| |exact Ln].
  intros i Hi. destruct (lookup_lt_is_Some_2 envp i Hi) as [s Hs]. destruct (Le i s Hs) as (p & Ep & Hp).
  exists p. split; [exact Ep|by apply (cstring_not_null m' p s)].
Qed.

(** Two arguments and one variable on the demonstration stack. *)
Lemma main_gets_arguments_witness :
  exists info m', setup_stack (fun _ new => new) demo_mmap None [[97]; [98; 99]] [[100]] ∅ = Ok (Some (info, m')) /\
    main_registers 5 m' (stk_top info) = Ok (2, stk_top info + 8, stk_top info + 32, stk_top info + 48) /\
    string_vector m' (stk_top info + 48) [[97]].
Proof.
  destruct (main_gets_arguments (fun _ new => new) demo_mmap None [97] [[98; 99]] [[100]] ∅)
    as (info & m' & Hrun & _ & _ & Hp & Hr);
    [exact demo_mmap_ok|left; unfold demo_mmap; rewrite decide_True by (split; [done|lia]); eauto|
     cbn [length]; lia|vm_compute; discriminate|].
  destruct (setup_stack_spec (fun _ new => new) demo_mmap None [97] [[98; 99]] [[100]] ∅)
    as (info' & m'' & Hrun' & _ & Hin & _ & _ & Hout & _);
    [exact demo_mmap_ok|left; unfold demo_mmap; rewrite decide_True by (split; [done|lia]); eauto|
     cbn [length]; lia|vm_compute; discriminate|].
  rewrite Hrun in Hrun'. injection Hrun' as <- <-. exists info, m'.
  assert (Hb : stk_base info = 0x1000).
  { unfold setup_stack, demo_mmap in Hrun. rewrite decide_True in Hrun by (split; [done|lia]).
    destruct (fill_stack _ _ _ _ _) as [[[t mt]|]| |]; try done. by injection Hrun as <- _. }
  assert (H0 : m' !! 0 = None) by (rewrite Hout by lia; apply lookup_empty).
  cbn [length] in Hp, Hr. specialize (Hr H0 5%nat ltac:(cbn; lia)).
  split; [exact Hrun|]. split.
  - rewrite Hr. do 2 f_equal; [f_equal|]; cbn; lia.
  - replace (stk_top info + 48) with (stk_top info + 8 + 8 * (Z.of_nat 2 + 1) + 8 * (Z.of_nat 1 + 1)) by lia. exact Hp.
Defined.

(** ** The GS base *)

(** The bytes at [a] are the test of a Go program: the store of 0x123 at
    gs:0x30, then a load through RIP with displacement [disp]. *)
Definition gs_test_at (m : mem) (a disp : Z) : Prop :=
  matches_at m a gs_test_pattern = Ok true /\ matches_at m (a + 13) [0x48; 0x8b; 0x05] = Ok true /\
  load32 m (a + 16) = Ok disp.

Lemma tls_g_scan_first m i : forall fuel a disp,
  (i < fuel)%nat -> (forall j, (j < i)%nat -> matches_at m (a + Z.of_nat j) gs_test_pattern = Ok false) ->
  gs_test_at m (a + Z.of_nat i) disp -> tls_g_scan fuel m a = Ok (u64 (a + Z.of_nat i + 20 + i32 disp)).
Proof.
  induction i as [|i IH]; intros [|fuel] a disp Hf Hno Hat; try lia; cbn [tls_g_scan].
  - rewrite Z.add_0_r in Hat |- *. destruct Hat as (-> & -> & ->). done.
  - pose proof (Hno 0%nat ltac:(lia)) as H0. rewrite Z.add_0_r in H0. rewrite H0. cbn [mbind res_bind].
    rewrite (IH fuel (a + 1) disp); [do 2 f_equal; lia|lia| |].
    + intros j Hj. rewrite <- (Hno (S j) ltac:(lia)). f_equal. lia.
    + by replace (a + 1 + Z.of_nat i) with (a + Z.of_nat (S i)) by lia.
Qed.

Lemma go_scan_first m i : forall fuel a,
  (i < fuel)%nat -> (forall j, (j < i)%nat -> matches_at m (a + Z.of_nat j) gs_test_pattern = Ok false) ->
  matches_at m (a + Z.of_nat i) gs_test_pattern = Ok true -> go_scan fuel m a = Ok true.
Proof.
  induction i as [|i IH]; intros [|fuel] a Hf Hno Hat; try lia; cbn [go_scan].
  - rewrite Z.add_0_r in Hat. by rewrite Hat.
  - pose proof (Hno 0%nat ltac:(lia)) as H0. rewrite Z.add_0_r in H0. rewrite H0. cbn [mbind res_bind].
    apply IH; [lia| |by replace (a + 1 + Z.of_nat i) with (a + Z.of_nat (S i)) by lia].
    intros j Hj. rewrite <- (Hno (S j) ltac:(lia)). f_equal. lia.
Qed.

(** A Go program passes its own test of thread-local storage.
    When the test is among the first 1004 bytes behind the entry point, the
    program is recognised as Go, and the GS base is such that the address
    gs:0x30, where the test stores, is the address from which its load reads
    (unless that address is 0). *)
Theorem go_gs_test_passes (m : mem) (entry gs_page disp : Z) (i : nat) :
  0 < entry -> (i < Z.to_nat (0x400 - 13 - 7))%nat ->
  (forall j, (j < i)%nat -> matches_at m (entry + Z.of_nat j) gs_test_pattern = Ok false) ->
  gs_test_at m (entry + Z.of_nat i) disp ->
  let loaded := u64 (entry + Z.of_nat i + 20 + i32 disp) in
  loaded <> 0 ->
  is_go m entry = Ok true /\ exists base, setup_gs_base m entry gs_page = Ok base /\ u64 (base + 0x30) = loaded.
Proof.
  intros He Hi Hno Hat loaded Hl. split.
  - unfold is_go. rewrite (proj2 (Z.eqb_neq entry 0)) by lia. apply (go_scan_first m i); [lia|done|by destruct Hat].
  - unfold setup_gs_base, tls_g_addr. rewrite (tls_g_scan_first m i _ _ disp Hi Hno Hat). fold loaded. cbn [mbind res_bind].
    rewrite (proj2 (Z.eqb_neq loaded 0) Hl). eexists. split; [reflexivity|]. rewrite u64_add_l.
    replace (loaded - 48 + 48) with loaded by lia. unfold loaded. apply u64_idemp.
Qed.

(** The test at the entry point, with a displacement of 0x100. *)
Lemma go_gs_test_passes_witness :
  let code := gs_test_pattern ++ [0x48; 0x8b; 0x05; 0; 1; 0; 0] in
  exists base, setup_gs_base (put_bytes ∅ 0x4000 code) 0x4000 0x9000 = Ok base /\ u64 (base + 0x30) = 0x4114.
Proof.
  cbv zeta.
  refine (proj2 (go_gs_test_passes (put_bytes ∅ 0x4000 (gs_test_pattern ++ [0x48; 0x8b; 0x05; 0; 1; 0; 0])) 0x4000 0x9000
    0x100 0 _ _ _ _ _)).
  - lia.
  - lia.
  - intros j Hj. lia.
  - vm_compute. done.
  - vm_compute. discriminate.
Defined.

(** ** The environ pointer *)

(** Whether entry [k] of a section names environ. *)
Definition names_environ (f : list Z) (t : symtab) (indirect start_idx k : Z) : res bool :=
  sym_idx ← rd32 f (indirect + 4 * u32 (start_idx + k));
  if has sym_idx 0x80000000 then Ok false else
  if sym_idx >=? nsyms t then Ok false else
  strx ← rd32 f (symoff t + 16 * sym_idx);
  if strx >=? strsize t then Ok false else
  name ← rd_cstring f (stroff t + strx);
  let name := strip_underscore name in
  Ok (streq name "environ" || streq name "__environ").

Lemma environ_entry_names f t indirect start base e m k :
  environ_entry f t indirect start base e m k =
  b ← names_environ f t indirect start k;
  match b with true => store64 m (u64 (base + u32 (k * 8))) e | false => Ok m end.
Proof.
  unfold environ_entry, names_environ.
  destruct (rd32 f _) as [si| |]; [|done|done]. cbn [mbind res_bind].
  destruct (has si _); [done|]. destruct (si >=? nsyms t); [done|].
  destruct (rd32 f _) as [sx| |]; [|done|done]. cbn [mbind res_bind]. destruct (sx >=? strsize t); [done|].
  destruct (rd_cstring f _) as [nm| |]; [|done|done]. cbn [mbind res_bind]. by destruct (_ || _).
Qed.

Lemma environ_fold f t indirect start base e n : forall k0 m m',
  0 <= k0 -> 0 <= base -> base + 8 * (k0 + Z.of_nat n) < 2 ^ 32 + base -> base + 8 * (k0 + Z.of_nat n) < 2 ^ 64 ->
  fold_res (environ_entry f t indirect start base e) (seqZ k0 (Z.of_nat n)) m = Ok m' ->
  (forall k, k0 <= k < k0 + Z.of_nat n -> names_environ f t indirect start k = Ok true ->
     load64 m' (base + 8 * k) = Ok (u64 e)) /\
  (forall x, (forall k, k0 <= k < k0 + Z.of_nat n -> names_environ f t indirect start k = Ok true ->
     x < base + 8 * k \/ base + 8 * k + 8 <= x) -> m' !! x = m !! x).
Proof.
  induction n as [|n IH]; intros k0 m m' Hk Hb H32 H64.
  { cbn. intros [= <-]. split; [lia|done]. }
  rewrite seqZ_cons by lia. cbn [fold_res]. rewrite environ_entry_names.
  replace (Z.pred (Z.of_nat (S n))) with (Z.of_nat n) by lia. unfold Z.succ.
  destruct (names_environ f t indirect start k0) as [b| |] eqn:Eb; [|done|done]. cbn [mbind res_bind].
  assert (Hslot : u64 (base + u32 (k0 * 8)) = base + 8 * k0) by (rewrite u32_small, u64_small; lia).
  destruct b; [rewrite Hslot; destruct (store64 m (base + 8 * k0) e) as [m1| |] eqn:Es; [|done|done]|]; cbn [mbind res_bind];
    intros H; destruct (IH (k0 + 1) _ _ ltac:(lia) Hb ltac:(lia) ltac:(lia) H) as [H1 H2]; split.
  - intros k Hk' Hn. destruct (decide (k = k0)) as [->|Hne]; [|apply H1; [lia|done]].
    rewrite <- (load64_store64_same _ _ _ _ Es). unfold load64, read_le. f_equal.
    erewrite get_bytes_ext; [reflexivity|]. intros x Hx. apply H2. intros k Hk2 _. lia.
  - intros x Hx. rewrite H2 by (intros k Hk' Hn; apply Hx; [lia|done]).
    apply store_Ok in Es as [-> _]. rewrite lookup_put_bytes, length_le_bytes.
    specialize (Hx k0 ltac:(lia) Eb). by rewrite decide_False by lia.
  - intros k Hk' Hn. destruct (decide (k = k0)) as [->|Hne]; [congruence|apply H1; [lia|done]].
  - intros x Hx. apply H2. intros k Hk' Hn. apply Hx; [lia|done].
Qed.

(** After the pass over a pointer section each of its slots
    whose symbol is environ (with or without underscores) holds the address of
    the loader's own environ, and every other byte of memory is as before. *)
Theorem environ_slots_fixed (f : list Z) (t : symtab) (indirect e : Z) (s : loaded_section) (m m' : mem) :
  Z.land (sec_flags s) 0xff = 6 \/ Z.land (sec_flags s) 0xff = 7 -> 0 < sec_reserved1 s ->
  0 <= sec_addr s -> 0 <= sec_size s < 2 ^ 32 -> sec_addr s + sec_size s < 2 ^ 64 ->
  environ_section f t indirect e m s = Ok m' ->
  let named k := 0 <= k < sec_size s / 8 /\ names_environ f t indirect (sec_reserved1 s) k = Ok true in
  (forall k, named k -> load64 m' (sec_addr s + 8 * k) = Ok (u64 e)) /\
  (forall x, (forall k, named k -> x < sec_addr s + 8 * k \/ sec_addr s + 8 * k + 8 <= x) -> m' !! x = m !! x).
Proof.
  intros Hty Hr Ha Hs He H named. unfold environ_section in H. cbv zeta in H.
  assert (Hgt : (sec_reserved1 s >? 0) = true) by lia. rewrite Hgt, andb_true_r in H.
  replace ((_ =? 7) || (_ =? 6)) with true in H by (by destruct Hty as [-> | ->]).
  pose proof (Z.div_pos (sec_size s) 8 ltac:(lia) ltac:(lia)) as Hq. pose proof (Z.mul_div_le (sec_size s) 8 ltac:(lia)) as Hq'.
  rewrite u32_small in H by lia. rewrite <- (Z2Nat.id (sec_size s / 8)) in H by lia.
  destruct (environ_fold f t indirect (sec_reserved1 s) (sec_addr s) e (Z.to_nat (sec_size s / 8)) 0 m m' ltac:(lia) Ha ltac:(lia) ltac:(lia) H) as [H1 H2].
  split; [intros k [Hk Hn]; apply H1; [lia|done]|].
  intros x Hx. apply H2. intros k Hk Hn. apply Hx. split; [lia|done].
Qed.

Definition demo_file : list Z :=
  le_bytes 4 0 ++ le_bytes 4 0 ++ le_bytes 8 0 ++
  (le_bytes 4 0 ++ [0x0f; 1; 0; 0] ++ le_bytes 8 0x500) ++ (le_bytes 4 9 ++ [0x0f; 1; 0; 0] ++ le_bytes 8 0x600) ++
  string_bytes "_environ" ++ [0] ++
  string_bytes "_close_stdout" ++ [0].

Definition demo_symtab : symtab := mk_symtab 16 2 48 100.

(** A section of one pointer, whose symbol is _environ. *)
Lemma environ_slots_fixed_witness :
  exists m', environ_section demo_file demo_symtab 0 0x7777 (put_bytes ∅ 0x1000 (replicate 8 0))
    (mk_section "__got" "__DATA" 0x1000 8 0 6 1 0) = Ok m' /\ load64 m' 0x1000 = Ok (u64 0x7777).
Proof.
  eexists. split; [vm_compute; reflexivity|].
  refine (proj1 (environ_slots_fixed demo_file demo_symtab 0 0x7777 (mk_section "__got" "__DATA" 0x1000 8 0 6 1 0)
    (put_bytes ∅ 0x1000 (replicate 8 0)) _ _ _ _ _ _ _) 0 _); cbn; try lia; [by left|vm_compute; reflexivity|].
  split; [vm_compute; split; congruence|]. vm_compute. reflexivity.
Defined.

(** ** Functions that report stdio errors *)

Lemma patch_close_fold f t slide ixs : forall m m',
  fold_res (patch_close_entry f t slide) ixs m = Ok m' ->
  forall a, (forall i b, i ∈ ixs -> close_site f t slide i = Ok (Some b) -> b = a \/ b + 3 <= a \/ a + 3 <= b) ->
  (get_bytes (mem_get m) a 3 = Some return_zero \/ exists i, i ∈ ixs /\ close_site f t slide i = Ok (Some a)) ->
  get_bytes (mem_get m') a 3 = Some return_zero.
Proof.
  induction ixs as [|i ixs IH]; cbn [fold_res]; intros m m' H a Hapart Hat.
  { injection H as <-. destruct Hat as [Hat|(i & Hi & _)]; [done|]. by apply elem_of_nil in Hi. }
  change (patch_close_entry f t slide m i)
    with (site ← close_site f t slide i; match site with Some a => store m a return_zero | None => Ok m end) in H.
  destruct (close_site f t slide i) as [site| |] eqn:Es; [|done|done]. cbn [mbind res_bind] in H.
  assert (Hrest : forall j b, j ∈ ixs -> close_site f t slide j = Ok (Some b) -> b = a \/ b + 3 <= a \/ a + 3 <= b)
    by (intros j b Hj; apply Hapart; by constructor).
  destruct site as [b|].
  - destruct (store m b return_zero) as [m1| |] eqn:Est; [|done|done]. cbn [mbind res_bind] in H.
    apply (IH m1 m' H a Hrest). apply store_Ok in Est as [-> _].
    destruct (Hapart i b (list_elem_of_here _ _) Es) as [->|Hb]; [left; apply (get_bytes_put_same m a return_zero)|].
    destruct Hat as [Hat|(j & Hj & Ej)].
    + left. rewrite get_bytes_put_other by (cbn; lia). exact Hat.
    + apply elem_of_cons in Hj as [->|Hj]; [rewrite Es in Ej; injection Ej as ->; lia|right; by exists j].
  - cbn [mbind res_bind] in H. apply (IH m m' H a Hrest). destruct Hat as [Hat|(j & Hj & Ej)]; [by left|].
    apply elem_of_cons in Hj as [->|Hj]; [congruence|right; by exists j].
Qed.

(** After the pass every function of the image called
    close_stdout, close_stream or flush_stdout begins with [xor eax, eax; ret],
    provided no two of them begin less than three bytes apart; in an image
    that ixs not slid none ixs changed. *)
Theorem close_functions_return_zero (f : list Z) (t : symtab) (slide : Z) (m m' : mem) (i a : Z) :
  patch_close f t slide m = Ok m' -> 0 < symoff t -> 0 <= i < nsyms t ->
  close_site f t slide i = Ok (Some a) ->
  (forall j b, 0 <= j < nsyms t -> close_site f t slide j = Ok (Some b) -> b = a \/ b + 3 <= a \/ a + 3 <= b) ->
  (slide <> 0 -> get_bytes (mem_get m') a 3 = Some return_zero) /\ (slide = 0 -> m' = m).
Proof.
  intros H Hs Hi Ha Hapart. unfold patch_close in H. split; intros Hsl.
  - replace ((symoff t >? 0) && (nsyms t >? 0) && negb (slide =? 0)) with true in H by lia.
    apply (patch_close_fold _ _ _ _ _ _ H).
    + intros j b Hj. apply Hapart. apply elem_of_seqZ in Hj. lia.
    + right. exists i. split; [apply elem_of_seqZ; lia|done].
  - subst slide. rewrite andb_false_r in H. by injection H as <-.
Qed.

(** _close_stdout at 0x600 in an image slid by 0x1000. *)
Lemma close_functions_return_zero_witness :
  exists m', patch_close demo_file demo_symtab 0x1000 (put_bytes ∅ 0x1600 [0x55; 0x48; 0x89; 0xe5]) = Ok m' /\
    get_bytes (mem_get m') 0x1600 3 = Some return_zero.
Proof.
  eexists. split; [vm_compute; reflexivity|].
  refine (proj1 (close_functions_return_zero demo_file demo_symtab 0x1000 (put_bytes ∅ 0x1600 [0x55; 0x48; 0x89; 0xe5])
    _ 1 0x1600 _ _ _ _ _) _).
  - vm_compute. reflexivity.
  - reflexivity.
  - vm_compute. split; congruence.
  - vm_compute. reflexivity.
  - intros j b Hj Hb. change (nsyms demo_symtab) with 2 in Hj.
    assert (Hj' : j = 0 \/ j = 1) by lia. destruct Hj' as [Hj' | Hj']; rewrite Hj' in Hb; vm_compute in Hb; [discriminate Hb|].
    injection Hb as <-. by left.
  - discriminate.
Defined.

(** ** The environment *)

(** A variable whose name is not one of those set. *)
Definition unset_names : list string := ["GODEBUG"; "GOMAXPROCS"; "MACIFY_BINARY"; "PATH"; "MACIFY_PATH_SET"].

Definition other_name (n : string) : Prop := forall k w, k ∈ unset_names -> entry_of n (k +:+ "=" +:+ w) = false.

Lemma getenv_setenv_new environ n v :
  getenv (setenv_new environ n v) n = Some (match getenv environ n with Some u => u | None => v end).
Proof. unfold setenv_new. destruct (getenv environ n) eqn:E; [done|apply getenv_setenv]. Qed.

Lemma getenv_setenv_new_ne environ n m v :
  (forall w, entry_of n (m +:+ "=" +:+ w) = false) -> getenv (setenv_new environ m v) n = getenv environ n.
Proof. intros Hne. unfold setenv_new. destruct (getenv environ m); [done|by apply getenv_setenv_ne]. Qed.

(** The environment the program starts with: PATH is the
    guest's, MACIFY_BINARY the loader itself, whatever they were before; a Go
    program gets asyncpreemptoff=1 and one processor unless the user has set
    GODEBUG or GOMAXPROCS; every other variable is the user's. *)
Theorem guest_environment (go : bool) (exe : string) (environ : list string) (n : string) :
  let e := prepare_environ go (Some exe) environ in
  getenv e "PATH" = Some "/usr/bin:/bin:/usr/sbin:/sbin:/usr/local/bin"%string /\
  (exe <> "" -> getenv e "MACIFY_BINARY" = Some (stake 4095 exe)) /\
  getenv e "GODEBUG" = (if go then Some (match getenv environ "GODEBUG" with Some u => u | None => "asyncpreemptoff=1" end)
                        else getenv environ "GODEBUG") /\
  getenv e "GOMAXPROCS" = (if go then Some (match getenv environ "GOMAXPROCS" with Some u => u | None => "1" end)
                           else getenv environ "GOMAXPROCS") /\
  (other_name n -> getenv e n = getenv environ n).
Proof.
  unfold prepare_environ. cbv zeta. split_and!.
  - rewrite getenv_setenv_ne by done. apply getenv_setenv.
  - intros Hx. rewrite !getenv_setenv_ne by done. destruct (streq exe "") eqn:E; [by apply streq_spec in E|]. apply getenv_setenv.
  - rewrite !getenv_setenv_ne by done. destruct (streq exe ""); rewrite ?getenv_setenv_ne by done;
      (destruct go; [rewrite getenv_setenv_new_ne by done; apply getenv_setenv_new|done]).
  - rewrite !getenv_setenv_ne by done. destruct (streq exe ""); rewrite ?getenv_setenv_ne by done;
      (destruct go; [rewrite getenv_setenv_new; do 2 f_equal; by rewrite getenv_setenv_new_ne by done|done]).
  - intros Hn. assert (H : forall k w, k ∈ unset_names -> entry_of n (k +:+ "=" +:+ w) = false) by exact Hn.
    unfold unset_names in H.
    rewrite !getenv_setenv_ne by (intros w; apply H; set_solver).
    destruct (streq exe ""); rewrite ?getenv_setenv_ne by (intros w; apply H; set_solver);
      (destruct go; [|done]); by rewrite !getenv_setenv_new_ne by (intros w; apply H; set_solver).
Qed.

(** A Go program of a user who has set GODEBUG and HOME. *)
Lemma guest_environment_witness :
  let e := prepare_environ true (Some "/opt/macify"%string) ["GODEBUG=gctrace=1"; "HOME=/root"]%string in
  getenv e "MACIFY_BINARY" = Some "/opt/macify"%string /\ getenv e "HOME" = Some "/root"%string.
Proof.
  destruct (guest_environment true "/opt/macify" ["GODEBUG=gctrace=1"; "HOME=/root"] "HOME") as (_ & H1 & _ & _ & H2).
  split; [exact (H1 ltac:(discriminate))|]. refine (H2 _). intros k w Hk. unfold unset_names in Hk.
  rewrite !elem_of_cons, elem_of_nil in Hk. by destruct Hk as [-> | [-> | [-> | [-> | [-> | []]]]]].
Defined.
