(* ===== verification/CoreFoundation.v ===== *)
(** * CoreFoundation objects (src/shim/misc/cf.c)

    The fake objects of CoreFoundation and SystemConfiguration (also
    CFStringCreateMutableCopy of sys/stubs.c and CFStringCreateWithBytes of
    misc/objc_compat.c), over a heap of blocks.  A use of memory that is not
    there, a double free included, is [Undef]; allocations succeed, as the
    code assumes.  The many functions that return a constant are left out. *)
From Stdlib Require Import ZArith Lia Bool.
From stdpp Require Import base gmap list strings numbers.
From S2P Require Import Prelude Buffers Symbols ShimExec ShimNet.

(** ** The heap *)

(** What a block holds: a [struct sc_obj], bytes, or pointers. *)
Inductive block :=
| Obj (tag count data : Z)
| Bytes (bs : list Z)
| Ptrs (ps : list Z).

Abbreviation heap := (gmap Z block).

Definition SC_TAG_STRING : Z := 0x5C01.
Definition SC_TAG_ARRAY : Z := 0x5C02.
Definition SC_TAG_DICT : Z := 0x5C03.
Definition SC_TAG_STORE : Z := 0x5C04.
Definition SC_TAG_DATA : Z := 0x5C05.
Definition SC_TAG_BOOL : Z := 0x5C06.
Definition SC_TAG_NULL : Z := 0x5C07.

Definition obj_at (h : heap) (p : Z) : res (Z * Z * Z) :=
  match h !! p with Some (Obj t c d) => Ok (t, c, d) | _ => Undef end.

Definition bytes_at (h : heap) (p : Z) : res (list Z) :=
  match h !! p with Some (Bytes bs) => Ok bs | _ => Undef end.

Definition ptrs_at (h : heap) (p : Z) : res (list Z) :=
  match h !! p with Some (Ptrs ps) => Ok ps | _ => Undef end.

Definition free (h : heap) (p : Z) : res heap :=
  if p =? 0 then Ok h else match h !! p with Some _ => Ok (delete p h) | None => Undef end.

(** ** The name servers *)

(** The loop over the lines of the file: at most 15 servers.  The lines are
    those of [ShimNet.nameserver_of]; a line that starts with a comment sign
    does not start with the keyword. *)
Definition parse_nameservers (contents : option string) : list string :=
  match contents with
  | None => []
  | Some s => take 15 (omap nameserver_of (fgets_pieces 256 255 EmptyString s))
  end.

(** [cache] is the static array, once it is [initialized]: the file is read
    for the first call only. *)
Definition read_resolv_conf_nameservers (cache : option (list string)) (contents : option string) :
    list string * option (list string) :=
  match cache with
  | Some servers => (servers, cache)
  | None => let servers := parse_nameservers contents in (servers, Some servers)
  end.

Section objects.
(** The address of the next block. *)
Variable malloc : heap -> Z.

Definition new_block (h : heap) (b : block) : Z * heap := let p := malloc h in (p, <[p := b]> h).

(** ** Creation *)

(** [calloc] of the object, [strdup] of the characters. *)
Definition new_string (h : heap) (bs : list Z) : Z * heap :=
  let '(s, h) := new_block h (Obj SC_TAG_STRING (u32 (buf_len bs)) 0) in
  let '(d, h) := new_block h (Bytes (bs ++ [0])) in
  (s, <[s := Obj SC_TAG_STRING (u32 (buf_len bs)) d]> h).

(** The loop over the servers: [arr_data[i] = s]. *)
Fixpoint fill_strings (h : heap) (arr_data : Z) (i : nat) (servers : list string) : res heap :=
  match servers with
  | [] => Ok h
  | srv :: servers =>
      let '(s, h) := new_string h (string_bytes srv) in
      ps ← ptrs_at h arr_data;
      if (i <? length ps)%nat then fill_strings (<[arr_data := Ptrs (<[i := s]> ps)]> h) arr_data (S i) servers
      else Undef
  end.

Definition copy_servers (h : heap) (servers : list string) : res (Z * heap) :=
  match servers with
  | [] => Ok (0, h)
  | _ =>
      let count := length servers in
      let '(arr_data, h) := new_block h (Ptrs (replicate (count + 1) 0)) in
      h ← fill_strings h arr_data 0 servers;
      let '(arr, h) := new_block h (Obj SC_TAG_ARRAY (Z.of_nat count) arr_data) in
      Ok (new_block h (Obj SC_TAG_DICT 1 arr))
  end.

(** [contents] is /etc/resolv.conf at the time of the call. *)
Definition SCDynamicStoreCopyValue (h : heap) (cache : option (list string)) (contents : option string) :
    res (Z * heap * option (list string)) :=
  let '(servers, cache) := read_resolv_conf_nameservers cache contents in
  '(dict, h) ← copy_servers h servers;
  Ok (dict, h, cache).

Definition SCDynamicStoreCreate (h : heap) : Z * heap := new_block h (Obj SC_TAG_STORE 0 0).

Definition CFStringCreateWithCString (h : heap) (cstr : option (list Z)) : Z * heap :=
  match cstr with None => (0, h) | Some bs => new_string h bs end.

(** The bytes stay the caller's: only their address is kept. *)
Definition CFStringCreateWithBytesNoCopy (h : heap) (bytes numBytes : Z) : Z * heap :=
  if (bytes =? 0) && (numBytes >? 0) then (0, h) else new_block h (Obj SC_TAG_STRING (u32 numBytes) bytes).

Definition CFStringCreateWithBytes (h : heap) (bytes numBytes : Z) : res (Z * heap) :=
  if (bytes =? 0) && (numBytes >? 0) then Ok (0, h) else
  let '(s, h) := new_block h (Obj SC_TAG_STRING (u32 numBytes) 0) in
  copy ← (if numBytes >? 0 then src ← bytes_at h bytes; bs ← buf_slice src 0 numBytes; Ok (bs ++ [0]) else Ok [0]);
  let '(d, h) := new_block h (Bytes copy) in
  Ok (s, <[s := Obj SC_TAG_STRING (u32 numBytes) d]> h).

(** [m] is the greatest length, if it is above 0. *)
Definition CFStringCreateMutableCopy (h : heap) (m s : Z) : res (Z * heap) :=
  if s =? 0 then Ok (0, h) else
  '(tag, count, data) ← obj_at h s;
  if negb (tag =? SC_TAG_STRING) then Ok (0, h) else
  let len := if (m >? 0) && (count >? m) then m else count in
  let '(dst, h) := new_block h (Obj SC_TAG_STRING (u32 len) 0) in
  bs ← (if len >? 0 then src ← bytes_at h data; buf_slice src 0 len else Ok []);
  let '(d, h) := new_block h (Bytes (bs ++ [0])) in
  Ok (dst, <[dst := Obj SC_TAG_STRING (u32 len) d]> h).

Definition CFDataCreate (h : heap) (bytes length : Z) : res (Z * heap) :=
  if (bytes =? 0) && (length >? 0) then Ok (0, h) else
  let '(d, h) := new_block h (Obj SC_TAG_DATA (u32 length) 0) in
  if length >? 0 then
    src ← bytes_at h bytes; bs ← buf_slice src 0 length;
    let '(c, h) := new_block h (Bytes bs) in
    Ok (d, <[d := Obj SC_TAG_DATA (u32 length) c]> h)
  else Ok (d, h).

End objects.

(** ** Access *)

Fixpoint strncpy (src : list Z) (n : nat) : res (list Z) :=
  match n with
  | O => Ok []
  | S n' => match src with
            | [] => Undef
            | c :: src => if c =? 0 then Ok (replicate n 0) else bs ← strncpy src n'; Ok (c :: bs)
            end
  end.

Definition CFStringGetCString (h : heap) (s : Z) (buf : option (list Z)) (buf_size : Z) : res (Z * option (list Z)) :=
  match buf with
  | None => Ok (0, None)
  | Some b =>
      if (s =? 0) || (buf_size <=? 0) then Ok (0, buf) else
      '(tag, _, data) ← obj_at h s;
      if negb (tag =? SC_TAG_STRING) then Ok (0, buf) else
      src ← bytes_at h data;
      bs ← strncpy src (Z.to_nat (buf_size - 1));
      b ← buf_put b 0 bs;
      b ← buf_put b (buf_size - 1) [0];
      Ok (1, Some b)
  end.

Definition CFStringGetLength (h : heap) (s : Z) : res Z :=
  if s =? 0 then Ok 0 else
  '(tag, count, _) ← obj_at h s; Ok (if tag =? SC_TAG_STRING then count else 0).

Definition CFArrayGetCount (h : heap) (a : Z) : res Z :=
  if a =? 0 then Ok 0 else
  '(tag, count, _) ← obj_at h a; Ok (if tag =? SC_TAG_ARRAY then count else 0).

Definition CFArrayGetValueAtIndex (h : heap) (a idx : Z) : res Z :=
  if a =? 0 then Ok 0 else
  '(tag, count, data) ← obj_at h a;
  if negb (tag =? SC_TAG_ARRAY) || (idx <? 0) || (u32 idx >=? count) then Ok 0 else
  ps ← ptrs_at h data; of_option (buf_get ps idx).

(** The key is ignored. *)
Definition CFDictionaryGetValue (h : heap) (d key : Z) : res Z :=
  if d =? 0 then Ok 0 else
  '(tag, _, data) ← obj_at h d; Ok (if tag =? SC_TAG_DICT then data else 0).

(** The return value, [*usedBytes] and the buffer. *)
Definition CFStringGetBytes (h : heap) (s start len : Z) (bytes : option (list Z)) (maxBytes : Z)
    : res (Z * Z * option (list Z)) :=
  if s =? 0 then Ok (0, 0, bytes) else
  '(tag, total, data) ← obj_at h s;
  if negb (tag =? SC_TAG_STRING) then Ok (0, 0, bytes) else
  if data =? 0 then Ok (0, 0, bytes) else
  let start := Z.min (Z.max start 0) total in
  let len := Z.max len 0 in
  if 2 ^ 63 <=? start + len then Undef else
  let len := if start + len >? total then total - start else len in
  if len =? 0 then Ok (0, 0, bytes) else
  match bytes with
  | None => Ok (len, len, None)
  | Some b =>
      if maxBytes =? 0 then Ok (len, len, bytes) else
      let to_copy := if maxBytes <? len then maxBytes else len in
      src ← bytes_at h data; bs ← buf_slice src start to_copy;
      b ← buf_put b 0 bs; Ok (to_copy, to_copy, Some b)
  end.

Definition CFDataGetLength (h : heap) (d : Z) : res Z :=
  if d =? 0 then Ok 0 else
  '(tag, count, _) ← obj_at h d; Ok (if tag =? SC_TAG_DATA then count else 0).

Definition CF_TYPEID_STRING : Z := 0x53747267.
Definition CF_TYPEID_ARRAY : Z := 0x41727261.
Definition CF_TYPEID_DICT : Z := 0x44696374.
Definition CF_TYPEID_DATA : Z := 0x44617461.
Definition CF_TYPEID_UNKNOWN : Z := 0.

Definition CFGetTypeID (h : heap) (cf : Z) : res Z :=
  if (cf <? 0x10000) || (cf >? 0x7fffffffffff) then Ok CF_TYPEID_UNKNOWN else
  '(tag, _, _) ← obj_at h cf;
  Ok (if tag =? SC_TAG_STRING then CF_TYPEID_STRING else if tag =? SC_TAG_ARRAY then CF_TYPEID_ARRAY else
      if tag =? SC_TAG_DICT then CF_TYPEID_DICT else CF_TYPEID_UNKNOWN).

(** ** Release *)

(** [macify_CFRelease], which a program finds through the handle of
    SystemConfiguration; [fuel] bounds the depth of the object. *)
Fixpoint macify_CFRelease (fuel : nat) (h : heap) (cf : Z) : res heap :=
  match fuel with
  | O => NoFuel
  | S fuel =>
      if cf =? 0 then Ok h else
      '(tag, count, data) ← obj_at h cf;
      h ← (if tag =? SC_TAG_STRING then free h data
           else if tag =? SC_TAG_ARRAY then
             h ← fold_res (fun h i => ps ← ptrs_at h data; p ← of_option (buf_get ps i); macify_CFRelease fuel h p)
                   (seqZ 0 count) h;
             free h data
           else if tag =? SC_TAG_DICT then macify_CFRelease fuel h data
           else if tag =? SC_TAG_DATA then free h data else Ok h);
      free h cf
  end.

(** The function exported as CFRelease. *)
Definition CFRelease (h : heap) (cf : Z) : heap := h.

(** ** What building and releasing do to the heap *)

(** Object and characters of each string. *)
Definition addrs (l : list (Z * Z)) : list Z := concat (map (fun '(s, d) => [s; d]) l).

Definition string_in (h : heap) (sd : Z * Z) (srv : string) : Prop :=
  h !! sd.1 = Some (Obj SC_TAG_STRING (u32 (buf_len (string_bytes srv))) sd.2) /\
  h !! sd.2 = Some (Bytes (string_bytes srv ++ [0])).

(** The blocks at [l] are freed, the others are as before. *)
Definition gone (l : list Z) (h h' : heap) : Prop := forall x, h' !! x = if decide (x ∈ l) then None else h !! x.

Lemma gone_trans l1 l2 h1 h2 h3 : gone l1 h1 h2 -> gone l2 h2 h3 -> gone (l1 ++ l2) h1 h3.
Proof.
  intros H1 H2 x. rewrite H2, H1. repeat case_decide; rewrite ?elem_of_app in *; tauto || done.
Qed.

Lemma gone_frame l h h' x : gone l h h' -> x ∉ l -> h' !! x = h !! x.
Proof. intros H Hx. rewrite H. by rewrite decide_False. Qed.

Lemma free_gone h p : p <> 0 -> is_Some (h !! p) -> exists h', free h p = Ok h' /\ gone [p] h h'.
Proof.
  intros Hp [b Hb]. unfold free. rewrite (proj2 (Z.eqb_neq p 0) Hp), Hb. eexists. split; [done|]. intros x.
  case_decide as Hx; rewrite list_elem_of_singleton in Hx; [subst; apply lookup_delete_eq|apply lookup_delete_ne; congruence].
Qed.

(** One level of the recursion. *)
Lemma release_eq fuel h cf :
  macify_CFRelease (S fuel) h cf =
    if cf =? 0 then Ok h else
    '(tag, count, data) ← obj_at h cf;
    h ← (if tag =? SC_TAG_STRING then free h data
         else if tag =? SC_TAG_ARRAY then
           h ← fold_res (fun h i => ps ← ptrs_at h data; p ← of_option (buf_get ps i); macify_CFRelease fuel h p)
                 (seqZ 0 count) h;
           free h data
         else if tag =? SC_TAG_DICT then macify_CFRelease fuel h data
         else if tag =? SC_TAG_DATA then free h data else Ok h);
    free h cf.
Proof. reflexivity. Qed.

Lemma release_string fuel h s d srv :
  string_in h (s, d) srv -> s <> 0 -> d <> 0 -> s <> d ->
  exists h', macify_CFRelease (S fuel) h s = Ok h' /\ gone [s; d] h h'.
Proof.
  intros [Hs Hd] Hs0 Hd0 Hsd. cbn [fst snd] in *.
  rewrite release_eq, (proj2 (Z.eqb_neq s 0) Hs0). unfold obj_at. rewrite Hs. cbn [mbind res_bind]. rewrite Z.eqb_refl.
  destruct (free_gone h d Hd0) as (h1 & E1 & G1); [by eexists|]. rewrite E1. cbn [mbind res_bind].
  destruct (free_gone h1 s Hs0) as (h2 & E2 & G2).
  { rewrite (gone_frame _ _ _ _ G1), Hs; [by eexists|]. rewrite list_elem_of_singleton. done. }
  exists h2. split; [exact E2|]. intros x. rewrite (gone_trans _ _ _ _ _ G1 G2 x).
  by rewrite (decide_ext (x ∈ [d] ++ [s]) (x ∈ [s; d])) by set_solver.
Qed.

Lemma elem_of_addrs l x : x ∈ addrs l <-> exists s d, (s, d) ∈ l /\ (x = s \/ x = d).
Proof.
  unfold addrs. induction l as [|[s d] l IH]; cbn [map concat]; [set_solver|].
  rewrite elem_of_app, IH. set_solver.
Qed.

Lemma strings_frame h h' l servers :
  (forall x, x ∈ addrs l -> h' !! x = h !! x) -> Forall2 (string_in h) l servers -> Forall2 (string_in h') l servers.
Proof.
  intros Hx. induction 1 as [|[s d] srv l servers Hs _ IH]; constructor.
  - unfold string_in in *. cbn [fst snd] in *.
    rewrite !Hx by (apply elem_of_addrs; exists s, d; split; [constructor|auto]). exact Hs.
  - apply IH. intros x Hin. apply Hx. cbn [addrs map concat]. apply elem_of_app. by right.
Qed.

(** The loop of CFRelease over an array of strings. *)
Lemma release_strings fuel data ps l servers : forall i h,
  h !! data = Some (Ptrs ps) -> (forall k sd, l !! k = Some sd -> ps !! (i + k)%nat = Some sd.1) ->
  Forall2 (string_in h) l servers -> NoDup (addrs l) -> data ∉ addrs l -> 0 ∉ addrs l ->
  exists h', fold_res (fun h i => ps ← ptrs_at h data; p ← of_option (buf_get ps i); macify_CFRelease (S fuel) h p)
               (seqZ (Z.of_nat i) (Z.of_nat (length l))) h = Ok h' /\ gone (addrs l) h h'.
Proof.
  revert servers. induction l as [|[s d] l IH]; intros servers i h Hdata Hps Hin Hnd Hnot H0; inversion Hin as [|? srv ? rest Hs Hrest]; subst.
  { exists h. split; [done|]. intros x. by rewrite decide_False by set_solver. }
  cbn [addrs map concat app] in Hnd, Hnot, H0. fold (addrs l) in Hnd, Hnot, H0.
  inversion Hnd as [|? ? Hsn Hnd1]; subst. inversion Hnd1 as [|? ? Hdn Hnd2]; subst.
  rewrite !not_elem_of_cons in *. destruct Hsn as [Hsd Hsn]. destruct Hnot as (Hds & Hdd & Hdl). destruct H0 as (H0s & H0d & H0l).
  replace (Z.of_nat (length ((s, d) :: l))) with (Z.of_nat (length l) + 1) by (cbn [length]; lia).
  destruct (release_string fuel h s d srv Hs ltac:(done) ltac:(done) Hsd) as (h1 & E1 & G1).
  assert (Ehd : (ps ← ptrs_at h data; p ← of_option (buf_get ps (Z.of_nat i)); macify_CFRelease (S fuel) h p) = Ok h1).
  { unfold ptrs_at. rewrite Hdata. cbn [mbind res_bind].
    unfold buf_get. destruct (Z.ltb_spec (Z.of_nat i) 0) as [Hneg|_]; [lia|]. rewrite Nat2Z.id.
    pose proof (Hps 0%nat (s, d) eq_refl) as Hp. rewrite Nat.add_0_r in Hp. rewrite Hp. exact E1. }
  rewrite seqZ_cons by lia. cbn [fold_res]. rewrite Ehd. cbn [mbind res_bind].
  replace (Z.succ (Z.of_nat i)) with (Z.of_nat (S i)) by lia. replace (Z.pred (Z.of_nat (length l) + 1)) with (Z.of_nat (length l)) by lia.
  destruct (IH rest (S i) h1) as (h2 & E2 & G2); try done.
  - rewrite (gone_frame _ _ _ _ G1); [done|]. set_solver.
  - intros k sd Hk. rewrite <- (Hps (S k) sd Hk). f_equal. lia.
  - apply (strings_frame h); [|exact Hrest]. intros x Hx. apply (gone_frame _ _ _ _ G1).
    rewrite !not_elem_of_cons. split_and!; [congruence|congruence|apply not_elem_of_nil].
  - exists h2. split; [exact E2|]. exact (gone_trans _ _ _ _ _ G1 G2).
Qed.

(** ** Characters without a NUL *)

Definition no_nul_bytes (bs : list Z) : Prop := Forall (fun c => c <> 0) bs.

Lemma has_char_bytes s : has_char NUL s = false -> no_nul_bytes (string_bytes s).
Proof.
  induction s as [|c s IH]; cbn [has_char string_bytes]; intros H; constructor.
  - apply orb_false_iff in H as [H _]. intros E. apply Ascii.eqb_neq in H. apply H.
    rewrite <- (Ascii.ascii_N_embedding c). replace (Ascii.N_of_ascii c) with 0%N by lia. done.
  - apply IH. by apply orb_false_iff in H as [_ H].
Qed.

Lemma stake_none c n : forall s, has_char c s = false -> has_char c (stake n s) = false.
Proof.
  induction n as [|n IH]; intros [|d s] H; cbn [stake]; try done.
  cbn [has_char] in *. apply orb_false_iff in H as [-> H]. by apply IH.
Qed.

(** [strncpy] of a string that fits pads with NULs. *)
Lemma strncpy_fits bs rest : forall n, no_nul_bytes bs -> (length bs <= n)%nat ->
  strncpy (bs ++ 0 :: rest) n = Ok (bs ++ replicate (n - length bs) 0).
Proof.
  induction bs as [|c bs IH]; intros n Hnn Hn; cbn [app length] in *.
  - rewrite Nat.sub_0_r. by destruct n.
  - inversion Hnn as [|? ? Hc Hnn']; subst. destruct n as [|n]; [lia|]. cbn [strncpy].
    rewrite (proj2 (Z.eqb_neq c 0) Hc), IH by (done || lia). done.
Qed.

Lemma get_cstring h s d count bs buf n :
  h !! s = Some (Obj SC_TAG_STRING count d) -> h !! d = Some (Bytes (bs ++ [0])) -> s <> 0 -> no_nul_bytes bs ->
  buf_len bs < n <= buf_len buf ->
  exists buf', CFStringGetCString h s (Some buf) n = Ok (1, Some buf') /\
    slice buf' 0 n = bs ++ replicate (Z.to_nat n - length bs) 0 /\ buf_len buf' = buf_len buf.
Proof.
  intros Hs Hd Hs0 Hnn Hn. unfold CFStringGetCString, obj_at, bytes_at, buf_len in *. rewrite (proj2 (Z.eqb_neq s 0) Hs0), Hs. cbn [orb].
  destruct (Z.leb_spec n 0); [lia|]. cbn [mbind res_bind]. rewrite Z.eqb_refl. cbn [negb]. rewrite Hd. cbn [mbind res_bind].
  rewrite strncpy_fits by (done || lia). cbn [mbind res_bind].
  destruct (buf_put_in buf 0 (bs ++ replicate (Z.to_nat (n - 1) - length bs) 0)) as [b1 E1];
    [lia|unfold buf_len; rewrite length_app, length_replicate; lia|].
  rewrite E1. cbn [mbind res_bind]. pose proof (buf_put_Ok _ _ _ _ E1) as (_ & _ & Hl1 & _). unfold buf_len in Hl1.
  destruct (buf_put_in b1 (n - 1) [0]) as [b2 E2]; [lia|unfold buf_len; cbn; lia|].
  rewrite E2. cbn [mbind res_bind]. pose proof (buf_put_Ok _ _ _ _ E2) as (_ & _ & Hl2 & _). unfold buf_len in Hl2.
  exists b2. split; [done|]. split; [|congruence]. apply list_eq. intros i. rewrite lookup_slice by lia.
  rewrite (lookup_buf_put _ _ _ _ _ E2), (lookup_buf_put _ _ _ _ _ E1), length_app, length_replicate.
  cbn [length]. change (Z.to_nat 0) with 0%nat. cbn [Nat.add Nat.leb andb]. rewrite Nat.sub_0_r.
  destruct (Nat.ltb_spec i (Z.to_nat n)).
  - destruct (Nat.leb_spec (Z.to_nat (n - 1)) i); cbn [andb].
    + rewrite (proj2 (Nat.ltb_lt i (Z.to_nat (n - 1) + 1))) by lia. replace (i - Z.to_nat (n - 1))%nat with 0%nat by lia.
      rewrite lookup_app_r by lia. symmetry. apply lookup_replicate. lia.
    + rewrite (proj2 (Nat.ltb_lt i (length bs + (Z.to_nat (n - 1) - length bs)))) by lia.
      destruct (decide (i < length bs)%nat); [by rewrite !lookup_app_l by lia|].
      rewrite !lookup_app_r by lia. rewrite !lookup_replicate_2 by lia. done.
  - symmetry. apply lookup_ge_None_2. rewrite length_app, length_replicate. lia.
Qed.

Lemma slice_whole bs n : 0 <= n <= buf_len bs -> buf_slice bs 0 n = Ok (slice bs 0 n) /\ buf_len (slice bs 0 n) = n.
Proof.
  intros Hn. unfold buf_slice, slice, buf_len in *. change (Z.to_nat 0) with 0%nat. rewrite drop_0, length_take.
  destruct (Z.ltb_spec 0 0); [lia|]. destruct (Z.ltb_spec n 0); [lia|].
  destruct (Z.ltb_spec (Z.of_nat (length bs)) (0 + n)); [lia|]. split; [done|lia].
Qed.

(** Reading all of a string: the size query and the copy. *)
Lemma get_bytes_all h c d bs buf max :
  let n := buf_len bs in
  h !! c = Some (Obj SC_TAG_STRING n d) -> h !! d = Some (Bytes (bs ++ [0])) -> c <> 0 -> d <> 0 ->
  0 < n < 2 ^ 32 -> n <= max -> n <= buf_len buf ->
  CFStringGetLength h c = Ok n /\ CFStringGetBytes h c 0 n None 0 = Ok (n, n, None) /\
  exists buf', CFStringGetBytes h c 0 n (Some buf) max = Ok (n, n, Some buf') /\ slice buf' 0 n = bs.
Proof.
  intros n Hc Hd Hc0 Hd0 Hn Hmax Hbuf. destruct (buf_put_in buf 0 bs) as [buf' Eb]; [lia|fold n; lia|].
  unfold CFStringGetLength, CFStringGetBytes, obj_at, bytes_at.
  rewrite (proj2 (Z.eqb_neq c 0) Hc0), Hc. cbn [mbind res_bind]. rewrite Z.eqb_refl, (proj2 (Z.eqb_neq d 0) Hd0). cbn [negb].
  replace (Z.min (Z.max 0 0) n) with 0 by lia. replace (Z.max n 0) with n by lia. rewrite !Z.add_0_l.
  destruct (Z.leb_spec (2 ^ 63) n); [lia|]. destruct (Z.gtb_spec n n); [lia|]. rewrite (proj2 (Z.eqb_neq n 0)) by lia.
  rewrite (proj2 (Z.eqb_neq max 0)) by lia. destruct (Z.ltb_spec max n); [lia|]. rewrite Hd. cbn [mbind res_bind].
  destruct (slice_whole (bs ++ [0]) n) as [Es _]; [unfold n, buf_len; rewrite length_app; lia|].
  assert (E : slice (bs ++ [0]) 0 n = bs).
  { unfold slice, n, buf_len. change (Z.to_nat 0) with 0%nat. by rewrite drop_0, Nat2Z.id, take_app_length. }
  rewrite Es, E. cbn [mbind res_bind]. rewrite Eb. split_and!; [done|done|]. exists buf'. split; [done|].
  exact (buf_put_same _ _ _ _ Eb).
Qed.

Section laws.
Context (malloc : heap -> Z).
(** malloc gives the address of a new block. *)
Hypothesis malloc_fresh : forall h, h !! malloc h = None /\ malloc h <> 0.

Lemma new_string_spec h bs s h' :
  new_string malloc h bs = (s, h') ->
  exists d, s <> d /\ s <> 0 /\ d <> 0 /\ h !! s = None /\ h !! d = None /\
    h' !! s = Some (Obj SC_TAG_STRING (u32 (buf_len bs)) d) /\ h' !! d = Some (Bytes (bs ++ [0])) /\
    forall x, x <> s -> x <> d -> h' !! x = h !! x.
Proof.
  unfold new_string, new_block. intros [= <- <-].
  destruct (malloc_fresh h) as [Hs Hs0]. set (s := malloc h) in *.
  destruct (malloc_fresh (<[s := Obj SC_TAG_STRING (u32 (buf_len bs)) 0]> h)) as [Hd Hd0]. set (d := malloc (<[s := _]> h)) in *.
  clearbody d s. assert (Hsd : s <> d) by (intros ->; by rewrite lookup_insert_eq in Hd).
  rewrite lookup_insert_ne in Hd by done. exists d.
  split_and!; try done; [apply lookup_insert_eq|rewrite lookup_insert_ne by done; apply lookup_insert_eq|].
  intros x Hxs Hxd. by rewrite !lookup_insert_ne by done.
Qed.

Lemma fill_strings_spec arr servers : forall i h ps,
  h !! arr = Some (Ptrs ps) -> (i + length servers <= length ps)%nat ->
  exists h' l ps', fill_strings malloc h arr i servers = Ok h' /\
    Forall2 (string_in h') l servers /\ NoDup (addrs l) /\ (forall x, x ∈ addrs l -> h !! x = None /\ x <> 0) /\
    h' !! arr = Some (Ptrs ps') /\ (forall j, (j < i)%nat -> ps' !! j = ps !! j) /\
    (forall k sd, l !! k = Some sd -> ps' !! (i + k)%nat = Some sd.1) /\
    (forall x, x <> arr -> x ∉ addrs l -> h' !! x = h !! x).
Proof.
  induction servers as [|srv servers IH]; intros i h ps Harr Hlen; cbn [fill_strings].
  { exists h, [], ps. split_and!; try done; [apply NoDup_nil_2|intros x Hx; by apply elem_of_nil in Hx]. }
  destruct (new_string malloc h (string_bytes srv)) as [s h1] eqn:En.
  destruct (new_string_spec _ _ _ _ En) as (d & Hsd & Hs0 & Hd0 & Hs & Hd & Hs1 & Hd1 & Hf).
  assert (Has : arr <> s) by congruence. assert (Had : arr <> d) by congruence. cbn [length] in Hlen.
  unfold ptrs_at. rewrite (Hf arr) by done. rewrite Harr. cbn [mbind res_bind].
  rewrite (proj2 (Nat.ltb_lt i (length ps))) by lia.
  set (h2 := <[arr := Ptrs (<[i := s]> ps)]> h1).
  destruct (IH (S i) h2 (<[i := s]> ps)) as (h' & l & ps' & E & Hin & Hnd & Hfr & Ha & Hlt & Hps & Hfrm);
    [apply lookup_insert_eq|rewrite length_insert; lia|].
  assert (Hout : forall x, x ∈ addrs l -> x <> arr /\ x <> s /\ x <> d /\ h !! x = None).
  { intros x Hx. destruct (Hfr x Hx) as [Hx1 _]. unfold h2 in Hx1.
    assert (x <> arr) by (intros ->; by rewrite lookup_insert_eq in Hx1). rewrite lookup_insert_ne in Hx1 by done.
    assert (x <> s) by (intros ->; congruence). assert (x <> d) by (intros ->; congruence).
    split_and!; try done. by rewrite <- (Hf x). }
  assert (Hsl : s ∉ addrs l) by (intros Hx; apply Hout in Hx; tauto).
  assert (Hdl : d ∉ addrs l) by (intros Hx; apply Hout in Hx; tauto).
  exists h', ((s, d) :: l), ps'. cbn [addrs map concat app]. fold (addrs l). split_and!; [exact E| | | |exact Ha| | |].
  - constructor; [|exact Hin]. split; cbn [fst snd]; rewrite Hfrm by done; unfold h2; by rewrite lookup_insert_ne by done.
  - constructor; [|constructor; done]. rewrite not_elem_of_cons. done.
  - intros x Hx. rewrite !elem_of_cons in Hx. destruct Hx as [->|[->|Hx]]; [done|done|].
    split; [by apply Hout|by apply Hfr].
  - intros j Hj. rewrite Hlt by lia. by rewrite list_lookup_insert_ne by lia.
  - intros [|k] sd Hk; [injection Hk as <-|].
    + rewrite Nat.add_0_r, Hlt by lia. cbn [fst]. apply list_lookup_insert_eq. lia.
    + rewrite <- (Hps k sd Hk). f_equal. lia.
  - intros x Hx. rewrite !not_elem_of_cons. intros (Hxs & Hxd & Hxl). rewrite Hfrm by done. unfold h2.
    rewrite lookup_insert_ne by done. by apply Hf.
Qed.

(** The objects of a value: the dictionary, the array, its pointers, the
    strings; none of them was there before. *)
Record built (h h1 : heap) (servers : list string) (dict arr data : Z) (l : list (Z * Z)) (ps : list Z) : Prop := {
  b_dict : h1 !! dict = Some (Obj SC_TAG_DICT 1 arr);
  b_arr : h1 !! arr = Some (Obj SC_TAG_ARRAY (Z.of_nat (length servers)) data);
  b_data : h1 !! data = Some (Ptrs ps);
  b_ptrs : forall k sd, l !! k = Some sd -> ps !! k = Some sd.1;
  b_strings : Forall2 (string_in h1) l servers;
  b_nodup : NoDup (dict :: arr :: data :: addrs l);
  b_fresh : forall x, x ∈ dict :: arr :: data :: addrs l -> h !! x = None /\ x <> 0;
  b_frame : forall x, x ∉ dict :: arr :: data :: addrs l -> h1 !! x = h !! x
}.

Lemma copy_value_builds h servers :
  servers <> [] ->
  exists dict h1 arr data l ps, copy_servers malloc h servers = Ok (dict, h1) /\ built h h1 servers dict arr data l ps.
Proof.
  intros Hne. unfold copy_servers. destruct servers as [|srv0 rest] eqn:Es; [done|]. rewrite <- Es in *. clear Es srv0 rest.
  unfold new_block. destruct (malloc_fresh h) as [Hd Hd0]. set (data := malloc h) in *.
  set (h0 := <[data := Ptrs (replicate (length servers + 1) 0)]> h).
  destruct (fill_strings_spec data servers 0 h0 (replicate (length servers + 1) 0))
    as (h1 & l & ps & E & Hin & Hnd & Hfr & Ha & _ & Hps & Hfrm); [apply lookup_insert_eq|rewrite length_replicate; lia|].
  rewrite E. cbn [mbind res_bind].
  destruct (malloc_fresh h1) as [Harr Harr0]. set (arr := malloc h1) in *. set (oa := Obj SC_TAG_ARRAY _ data).
  destruct (malloc_fresh (<[arr := oa]> h1)) as [Hdi Hdi0]. set (dict := malloc (<[arr := oa]> h1)) in *.
  clearbody dict arr data. assert (Hda : dict <> arr) by (intros ->; by rewrite lookup_insert_eq in Hdi).
  rewrite lookup_insert_ne in Hdi by done.
  assert (Hl : forall x, x ∈ addrs l -> h !! x = None /\ x <> 0 /\ x <> data /\ x <> arr /\ x <> dict).
  { intros x Hx. destruct (Hfr x Hx) as [Hx0 Hx1]. unfold h0 in Hx0.
    assert (x <> data) by (intros ->; by rewrite lookup_insert_eq in Hx0). rewrite lookup_insert_ne in Hx0 by done.
    assert (is_Some (h1 !! x)) as [b Hb].
    { apply elem_of_addrs in Hx as (s & d & Hsd & Hx). apply list_elem_of_lookup in Hsd as [k Hk].
      destruct (Forall2_lookup_l _ _ _ _ _ Hin Hk) as (srv & _ & [H1 H2]). cbn [fst snd] in *.
      destruct Hx as [-> | ->]; [rewrite H1|rewrite H2]; by eexists. }
    split_and!; congruence. }
  assert (Hd1 : data <> arr) by congruence. assert (Hd2 : data <> dict) by congruence.
  assert (Hh : forall x, x <> data -> h1 !! x = None -> h !! x = None).
  { intros x Hx Hx1. destruct (decide (x ∈ addrs l)) as [Hi|Hi]; [by apply Hl|].
    rewrite Hfrm in Hx1 by done. unfold h0 in Hx1. by rewrite lookup_insert_ne in Hx1 by done. }
  exists dict, (<[dict := Obj SC_TAG_DICT 1 arr]> (<[arr := oa]> h1)), arr, data, l, ps. split; [done|]. split.
  - apply lookup_insert_eq.
  - rewrite lookup_insert_ne by done. apply lookup_insert_eq.
  - by rewrite !lookup_insert_ne by done.
  - intros k sd Hk. by rewrite <- (Hps k sd Hk).
  - apply (strings_frame h1); [|exact Hin]. intros x Hx. apply Hl in Hx. by rewrite !lookup_insert_ne by (intros ->; tauto).
  - assert (Hno : forall y, y = dict \/ y = arr \/ y = data -> y ∉ addrs l) by (intros y Hy Hi; apply Hl in Hi; intuition congruence).
    repeat constructor; rewrite ?not_elem_of_cons; split_and?; auto; apply Hno; auto.
  - intros x Hx. rewrite !elem_of_cons in Hx. destruct Hx as [->|[->|[->|Hx]]]; [| | |by apply Hl in Hx as (? & ? & _)].
    + split; [apply Hh|]; congruence.
    + split; [apply Hh|]; congruence.
    + done.
  - intros x Hx. rewrite !not_elem_of_cons in Hx. destruct Hx as (H1 & H2 & H3 & H4).
    rewrite !lookup_insert_ne by done. rewrite Hfrm by done. unfold h0. by rewrite lookup_insert_ne by done.
Qed.

Lemma release_built h h1 servers dict arr data l ps fuel :
  built h h1 servers dict arr data l ps -> macify_CFRelease (S (S (S fuel))) h1 dict = Ok h.
Proof.
  intros [Hdict Harr Hdata Hps Hin Hnd Hfr Hfm].
  inversion Hnd as [|? ? Hnd1 Hnd']; subst. inversion Hnd' as [|? ? Hnd2 Hnd'']; subst. inversion Hnd'' as [|? ? Hnd3 Hnd4]; subst.
  rewrite !not_elem_of_cons in *.
  assert (Hnz : dict <> 0 /\ arr <> 0 /\ data <> 0) by (split_and!; apply Hfr; set_solver).
  assert (H0 : 0 ∉ addrs l) by (intros Hx; destruct (Hfr 0); [set_solver|done]).
  destruct Hnz as (Hz1 & Hz2 & Hz3). destruct Hnd1 as (Hda & Hdd & Hdl). destruct Hnd2 as (Had & Hal).
  assert (Hloop := release_strings fuel data ps l servers 0 h1 Hdata Hps Hin Hnd4 Hnd3 H0).
  rewrite (Forall2_length Hin) in Hloop. destruct Hloop as (h2 & E2 & G2).
  assert (Hd2 : h2 !! data = Some (Ptrs ps)) by (by rewrite (gone_frame _ _ _ _ G2)).
  destruct (free_gone h2 data Hz3) as (h3 & E3 & G3); [by eexists|]. pose proof (gone_trans _ _ _ _ _ G2 G3) as G23.
  destruct (free_gone h3 arr Hz2) as (h4 & E4 & G4).
  { rewrite (gone_frame _ _ _ _ G23), Harr; [by eexists|]. rewrite elem_of_app, list_elem_of_singleton. intuition congruence. }
  pose proof (gone_trans _ _ _ _ _ G23 G4) as G234.
  destruct (free_gone h4 dict Hz1) as (h5 & E5 & G5).
  { rewrite (gone_frame _ _ _ _ G234), Hdict; [by eexists|]. rewrite !elem_of_app, !list_elem_of_singleton. intuition congruence. }
  pose proof (gone_trans _ _ _ _ _ G234 G5) as G.
  assert (Earr : macify_CFRelease (S (S fuel)) h1 arr = Ok h4).
  { rewrite (release_eq (S fuel) h1 arr), (proj2 (Z.eqb_neq arr 0) Hz2). unfold obj_at. rewrite Harr. cbn [mbind res_bind].
    change (SC_TAG_ARRAY =? SC_TAG_STRING) with false. rewrite Z.eqb_refl. cbv iota.
    change (Z.of_nat 0) with 0 in E2. rewrite E2. cbn [mbind res_bind]. rewrite E3. exact E4. }
  rewrite (release_eq (S (S fuel)) h1 dict).
  rewrite (proj2 (Z.eqb_neq dict 0) Hz1). unfold obj_at. rewrite Hdict. cbn [mbind res_bind].
  change (SC_TAG_DICT =? SC_TAG_STRING) with false. change (SC_TAG_DICT =? SC_TAG_ARRAY) with false. rewrite Z.eqb_refl. cbv iota.
  rewrite Earr. cbn [mbind res_bind]. rewrite E5. f_equal. apply map_eq. intros x. rewrite G.
  rewrite (decide_ext (x ∈ ((addrs l ++ [data]) ++ [arr]) ++ [dict]) (x ∈ dict :: arr :: data :: addrs l)) by set_solver.
  case_decide as Hx; [symmetry; by apply Hfr|by apply Hfm].
Qed.

(** ** What the file says *)

(** The lines of a resolv.conf: blanks, the keyword, blanks, an address and
    what follows it; or another line. *)
Inductive conf_line :=
| Nameserver (indent gap address rest : string)
| OtherLine (text : string).

Definition line_text (l : conf_line) : string :=
  match l with
  | Nameserver indent gap address rest => indent +:+ "nameserver" +:+ gap +:+ address +:+ rest
  | OtherLine text => text
  end.

Fixpoint conf_text (lines : list conf_line) : string :=
  match lines with [] => EmptyString | l :: lines => line_text l +:+ String LF (conf_text lines) end.

Fixpoint blanks (s : string) : Prop :=
  match s with EmptyString => True | String c s => (c = SPACE \/ c = TAB) /\ blanks s end.

Definition conf_line_ok (l : conf_line) : Prop :=
  has_char LF (line_text l) = false /\ has_char NUL (line_text l) = false /\ (String.length (line_text l) < 255)%nat /\
  match l with
  | Nameserver indent gap address rest =>
      blanks indent /\ blanks gap /\ gap <> ""%string /\ address <> ""%string /\
      has_char SPACE address = false /\ has_char TAB address = false /\
      match rest with EmptyString => True | String c _ => c = SPACE \/ c = TAB end
  | OtherLine text => forall indent rest, blanks indent -> text <> indent +:+ "nameserver" +:+ rest
  end.

(** The addresses, up to 15 of them and up to 63 characters of each. *)
Definition conf_servers (lines : list conf_line) : list string :=
  take 15 (omap (fun l => match l with Nameserver _ _ address _ => Some (stake 63 address) | OtherLine _ => None end) lines).

Lemma has_char_append c a b : has_char c (a +:+ b) = has_char c a || has_char c b.
Proof. induction a as [|d a IH]; [done|]. cbn. by rewrite <- orb_assoc, <- IH. Qed.

Lemma fgets_line size t : forall room cur r,
  has_char LF t = false -> (String.length t < room)%nat ->
  fgets_pieces size room cur (t +:+ String LF r) = (cur +:+ t +:+ String LF EmptyString) :: fgets_pieces size (size - 1) EmptyString r.
Proof.
  induction t as [|c t IH]; intros room cur r Hlf Hl.
  - change (EmptyString +:+ ?x) with x. cbn [fgets_pieces]. by rewrite Ascii.eqb_refl.
  - cbn [has_char] in Hlf. apply orb_false_iff in Hlf as [Hc Ht]. rewrite Ascii.eqb_sym in Hc.
    change (String c t +:+ ?x) with (String c (t +:+ x)). cbn [fgets_pieces]. rewrite Hc. cbn [String.length] in Hl.
    destruct room as [|[|k]]; [lia..|]. rewrite IH by (done || lia). f_equal. rewrite string_app_assoc. done.
Qed.

Lemma skip_white_blanks a b : blanks a -> skip_white (a +:+ b) = skip_white b.
Proof.
  induction a as [|c a IH]; [done|]. intros [Hc Ha]. change (String c a +:+ b) with (String c (a +:+ b)).
  cbn [skip_white]. destruct Hc as [-> | ->]; cbn; by apply IH.
Qed.

Lemma skip_white_split s : exists i, blanks i /\ s = i +:+ skip_white s.
Proof.
  induction s as [|c s (i & Hi & E)]; [by exists EmptyString|]. cbn [skip_white].
  destruct (Ascii.eqb c SPACE || Ascii.eqb c TAB) eqn:Hc; [|by exists EmptyString].
  exists (String c i). split; [|by rewrite E at 1]. split; [|done].
  apply orb_true_iff in Hc as [Hc%Ascii.eqb_eq|Hc%Ascii.eqb_eq]; auto.
Qed.

Lemma word_app a b :
  has_char LF a = false -> has_char SPACE a = false -> has_char TAB a = false ->
  (exists c r, b = String c r /\ (c = LF \/ c = SPACE \/ c = TAB)) -> word (a +:+ b) = a.
Proof.
  intros H1 H2 H3 Hb. induction a as [|c a IH].
  - destruct Hb as (c & r & -> & Hc). change (EmptyString +:+ ?x) with x. cbn [word].
    by destruct Hc as [-> |[-> | ->]].
  - cbn [has_char] in *. apply orb_false_iff in H1 as [E1 H1]. apply orb_false_iff in H2 as [E2 H2].
    apply orb_false_iff in H3 as [E3 H3]. rewrite Ascii.eqb_sym in E1, E2, E3.
    change (String c a +:+ b) with (String c (a +:+ b)). cbn [word]. rewrite E1, E2, E3. cbn [orb]. by rewrite IH.
Qed.

Lemma skip_white_lf s : skip_white (s +:+ String LF EmptyString) = skip_white s +:+ String LF EmptyString.
Proof.
  induction s as [|c s IH]; [done|]. change (String c s +:+ ?x) with (String c (s +:+ x)). cbn [skip_white].
  by destruct (_ || _).
Qed.

Lemma starts_with_lf p : forall s, has_char LF p = false -> starts_with p (s +:+ String LF EmptyString) = true -> starts_with p s = true.
Proof.
  induction p as [|a p IH]; intros s Hp; [done|]. cbn [has_char] in Hp. apply orb_false_iff in Hp as [Ha Hp].
  destruct s as [|c s].
  - change (EmptyString +:+ ?x) with x. cbn [starts_with]. rewrite Ascii.eqb_sym, Ha. done.
  - change (String c s +:+ ?x) with (String c (s +:+ x)). cbn [starts_with]. intros [-> H]%andb_true_iff. by apply IH.
Qed.

(** The loop's test finds the address of a line, and nothing in another. *)
Lemma nameserver_of_line l :
  conf_line_ok l ->
  nameserver_of (line_text l +:+ String LF EmptyString) =
  match l with Nameserver _ _ address _ => Some (stake 63 address) | OtherLine _ => None end.
Proof.
  intros (Hlf & Hnul & _ & H). unfold nameserver_of. cbv zeta.
  rewrite before_char_id by (rewrite has_char_append, Hnul; done). destruct l as [indent gap address rest|text]; cbn [line_text] in *.
  - destruct H as (Hi & Hg & Hg0 & Ha & Hsp & Htab & Hr). rewrite !string_app_assoc, skip_white_blanks by done.
    rewrite !has_char_append in Hlf. apply orb_false_iff in Hlf as [_ Hlf]. apply orb_false_iff in Hlf as [_ Hlf].
    apply orb_false_iff in Hlf as [_ Hlf]. apply orb_false_iff in Hlf as [Hlf _].
    change (skip_white ("nameserver" +:+ ?x)) with ("nameserver" +:+ x). rewrite starts_with_app. cbn [negb].
    change 10%nat with (String.length "nameserver"). rewrite sdrop_app, skip_white_blanks by done.
    assert (Hw : forall b, skip_white (address +:+ b) = address +:+ b).
    { intros b. destruct address as [|c a]; [done|]. cbn [has_char] in Hsp, Htab.
      apply orb_false_iff in Hsp as [E1 _]. apply orb_false_iff in Htab as [E2 _]. rewrite Ascii.eqb_sym in E1, E2.
      change (String c a +:+ b) with (String c (a +:+ b)). cbn [skip_white]. by rewrite E1, E2. }
    rewrite Hw, word_app; [|done..|destruct rest as [|c r]; [exists LF, EmptyString; auto|exists c, (r +:+ String LF EmptyString); naive_solver]].
    unfold streq. by rewrite bool_decide_eq_false_2.
  - rewrite skip_white_lf. destruct (starts_with "nameserver" _) eqn:E; [|done]. exfalso.
    apply starts_with_lf in E; [|done]. apply starts_with_spec in E as [t E].
    destruct (skip_white_split text) as (i & Hi & Es). rewrite E in Es. exact (H i t Hi Es).
Qed.

Lemma parse_nameservers_spec lines :
  Forall conf_line_ok lines -> parse_nameservers (Some (conf_text lines)) = conf_servers lines.
Proof.
  intros H. unfold parse_nameservers, conf_servers. f_equal.
  induction H as [|l lines Hl _ IH]; [done|]. cbn [conf_text].
  destruct Hl as (H1 & H2 & H3 & H4) eqn:El. clear El.
  rewrite fgets_line by (done || lia). change (EmptyString +:+ ?x) with x. change (256 - 1)%nat with 255%nat.
  cbn [omap list_omap]. rewrite nameserver_of_line by (split_and!; done). rewrite IH. by destruct l.
Qed.

(** A server has at most 63 characters, none of them a NUL. *)
Lemma conf_servers_text lines :
  Forall conf_line_ok lines ->
  Forall (fun srv => has_char NUL srv = false /\ (String.length srv <= 63)%nat) (conf_servers lines) /\
  (length (conf_servers lines) <= 15)%nat.
Proof.
  intros H. split; [|unfold conf_servers; rewrite length_take; lia]. apply Forall_take, Forall_forall.
  intros srv Hin. apply list_elem_of_In, list_elem_of_omap in Hin as (l & Hl & Hs).
  pose proof (proj1 (list.Forall_forall _ _) H l Hl) as (_ & Hnul & _). destruct l as [i g a t|]; [|done].
  apply Some_inj in Hs. rewrite <- Hs.
  split; [|rewrite length_stake; lia]. apply stake_none. cbn [line_text] in Hnul. rewrite !has_char_append in Hnul.
  do 3 apply orb_false_iff in Hnul as [_ Hnul]. by apply orb_false_iff in Hnul as [Hnul _].
Qed.

(** ** Properties *)

(** C38 (functional): The name servers of /etc/resolv.conf reach a program that
    asks SystemConfiguration for them.  For a file of lines of less than 255
    bytes without NULs, the value is a dictionary whose only entry, under any
    key, is an array of the addresses that its nameserver lines give, in
    order, the first 15 of them (a comment in the code says 8) and the first
    63 characters of each; every one can be read into a buffer that has room
    for it, NUL-padded.  Nothing that was on the heap changes, and releasing
    the dictionary frees every block of the value exactly once, which gives
    back the heap as it was.  The file is read for the first value only:
    later ones have the same servers, whatever the file says by then. *)
Theorem dns_servers_delivered (h : heap) (lines : list conf_line) (cache : option (list string)) (contents : option string) :
  let servers := conf_servers lines in
  Forall conf_line_ok lines -> servers <> [] ->
  (cache = None /\ contents = Some (conf_text lines)) \/ cache = Some servers ->
  exists dict h1 arr,
    SCDynamicStoreCopyValue malloc h cache contents = Ok (dict, h1, Some servers) /\ h ⊆ h1 /\
    (forall key, CFDictionaryGetValue h1 dict key = Ok arr) /\
    CFArrayGetCount h1 arr = Ok (Z.of_nat (length servers)) /\
    (forall i srv, servers !! i = Some srv ->
       exists s, CFArrayGetValueAtIndex h1 arr (Z.of_nat i) = Ok s /\ CFStringGetLength h1 s = Ok (Z.of_nat (String.length srv)) /\
       forall buf n, Z.of_nat (String.length srv) < n <= buf_len buf ->
         exists buf', CFStringGetCString h1 s (Some buf) n = Ok (1, Some buf') /\
           slice buf' 0 n = string_bytes srv ++ replicate (Z.to_nat n - String.length srv) 0) /\
    macify_CFRelease 3 h1 dict = Ok h.
Proof.
  intros servers Hok Hne Hcache. destruct (conf_servers_text lines Hok) as [Htext Hlen]. fold servers in Htext, Hlen.
  destruct (copy_value_builds h servers Hne) as (dict & h1 & arr & data & l & ps & E & B).
  pose proof (release_built _ _ _ _ _ _ _ _ 0 B) as Hrel. destruct B as [Hdict Harr Hdata Hps Hin Hnd Hfr Hfm].
  destruct (Hfr dict) as [_ Hz1]; [set_solver|]. destruct (Hfr arr) as [_ Hz2]; [set_solver|].
  exists dict, h1, arr. split_and!; [| | | | |exact Hrel].
  - unfold SCDynamicStoreCopyValue.
    assert (read_resolv_conf_nameservers cache contents = (servers, Some servers)) as ->.
    { destruct Hcache as [[-> ->]| ->]; [|done]. unfold read_resolv_conf_nameservers. cbv zeta.
      by rewrite (parse_nameservers_spec lines Hok). }
    by rewrite E.
  - apply map_subseteq_spec. intros x b Hx. rewrite Hfm; [done|]. intros Hx'. apply Hfr in Hx' as [Hx' _]. congruence.
  - intros key. unfold CFDictionaryGetValue, obj_at. by rewrite (proj2 (Z.eqb_neq dict 0) Hz1), Hdict.
  - unfold CFArrayGetCount, obj_at. by rewrite (proj2 (Z.eqb_neq arr 0) Hz2), Harr.
  - intros i srv Hi. pose proof (lookup_lt_Some _ _ _ Hi) as Hlt.
    destruct (Forall2_lookup_r _ _ _ _ _ Hin Hi) as ([s d] & Hk & Hs & Hd). cbn [fst snd] in Hs, Hd.
    assert (Hs0 : s <> 0).
    { apply Hfr. rewrite !elem_of_cons. do 3 right. apply elem_of_addrs. exists s, d. split; [by eapply list_elem_of_lookup_2|by left]. }
    destruct (proj1 (Forall_lookup _ _) Htext i srv Hi) as [Hnn H63]. exists s. split; [|split].
    + unfold CFArrayGetValueAtIndex, obj_at, ptrs_at. rewrite (proj2 (Z.eqb_neq arr 0) Hz2), Harr. cbn [mbind res_bind].
      rewrite Z.eqb_refl. cbn [negb orb]. destruct (Z.ltb_spec (Z.of_nat i) 0); [lia|]. rewrite u32_small by lia. cbn [orb].
      destruct (Z.geb_spec (Z.of_nat i) (Z.of_nat (length servers))); [lia|]. rewrite Hdata. cbn [mbind res_bind].
      unfold buf_get. destruct (Z.ltb_spec (Z.of_nat i) 0); [lia|]. by rewrite Nat2Z.id, (Hps i (s, d) Hk).
    + unfold CFStringGetLength, obj_at. rewrite (proj2 (Z.eqb_neq s 0) Hs0), Hs. cbn [mbind res_bind]. rewrite Z.eqb_refl.
      unfold buf_len. rewrite length_string_bytes, u32_small by lia. done.
    + intros buf n Hn. destruct (get_cstring h1 s d _ _ buf n Hs Hd Hs0 (has_char_bytes _ Hnn)) as (b' & E' & Hsl & _).
      { unfold buf_len at 1. rewrite length_string_bytes. lia. }
      exists b'. by rewrite length_string_bytes in Hsl.
Qed.

(** A path that a program wraps without copying, copies to a
    mutable string for normalisation and reads back arrives unchanged: the
    copy has the length of the path, the size query gives that length, and a
    read into a buffer with room gives its bytes; the program's own bytes are
    left alone. *)
Theorem path_roundtrip (h : heap) (p n : Z) (bs buf : list Z) (max : Z) :
  h !! p = Some (Bytes bs) -> p <> 0 -> 0 < n <= buf_len bs -> n < 2 ^ 32 -> n <= max -> n <= buf_len buf ->
  let '(s, h1) := CFStringCreateWithBytesNoCopy malloc h p n in
  exists c h2 buf', CFStringCreateMutableCopy malloc h1 0 s = Ok (c, h2) /\ h2 !! p = Some (Bytes bs) /\
    CFStringGetLength h2 c = Ok n /\ CFStringGetBytes h2 c 0 n None 0 = Ok (n, n, None) /\
    CFStringGetBytes h2 c 0 n (Some buf) max = Ok (n, n, Some buf') /\ slice buf' 0 n = slice bs 0 n.
Proof.
  intros Hp Hp0 Hn Hn32 Hmax Hbuf. unfold CFStringCreateWithBytesNoCopy, new_block.
  rewrite (proj2 (Z.eqb_neq p 0) Hp0). cbn [andb]. destruct (malloc_fresh h) as [Hs Hs0]. set (s := malloc h) in *.
  assert (Hsp : s <> p) by congruence. clearbody s. rewrite u32_small by lia.
  set (h1 := <[s := Obj SC_TAG_STRING n p]> h). unfold CFStringCreateMutableCopy, new_block.
  rewrite (proj2 (Z.eqb_neq s 0) Hs0). unfold obj_at. rewrite (lookup_insert_eq h s _ : h1 !! s = _). cbn [mbind res_bind].
  rewrite Z.eqb_refl. cbn [negb Z.gtb Z.compare andb].
  destruct (malloc_fresh h1) as [Hc Hc0]. set (c := malloc h1) in *. clearbody c.
  set (h2 := <[c := Obj SC_TAG_STRING (u32 n) 0]> h1).
  assert (Hcs : c <> s) by (intros ->; unfold h1 in Hc; by rewrite lookup_insert_eq in Hc).
  unfold h1 in Hc. rewrite lookup_insert_ne in Hc by done. assert (Hcp : c <> p) by congruence.
  destruct (Z.gtb_spec n 0); [|lia]. unfold bytes_at.
  assert (E2 : h2 !! p = Some (Bytes bs)) by (unfold h2, h1; by rewrite !lookup_insert_ne by done). rewrite E2. cbn [mbind res_bind].
  destruct (slice_whole bs n) as [Esl Hlen]; [lia|]. rewrite Esl. cbn [mbind res_bind].
  destruct (malloc_fresh h2) as [Hd Hd0]. set (d := malloc h2) in *. clearbody d.
  assert (Hdc : d <> c) by (intros ->; unfold h2 in Hd; by rewrite lookup_insert_eq in Hd).
  assert (Hdp : d <> p) by congruence. rewrite u32_small by lia.
  set (h3 := <[c := Obj SC_TAG_STRING n d]> (<[d := Bytes (slice bs 0 n ++ [0])]> h2)).
  destruct (get_bytes_all h3 c d (slice bs 0 n) buf max) as (G1 & G2 & buf' & G3 & G4); rewrite ?Hlen in *; try (done || lia).
  - apply lookup_insert_eq.
  - unfold h3. rewrite lookup_insert_ne by done. apply lookup_insert_eq.
  - exists c, h3, buf'. split_and!; try done. unfold h3. by rewrite !lookup_insert_ne by done.
Qed.

(** Releasing a string that was made without copying, through
    the release function of SystemConfiguration, frees the program's own bytes
    with it, although the documentation of the call says they stay the
    caller's; the release function programs import frees nothing. *)
Theorem nocopy_release_frees_callers_bytes (h : heap) (p n : Z) (bs : list Z) :
  h !! p = Some (Bytes bs) -> p <> 0 ->
  let '(s, h1) := CFStringCreateWithBytesNoCopy malloc h p n in
  macify_CFRelease 1 h1 s = Ok (delete p h) /\ CFRelease h1 s = <[s := Obj SC_TAG_STRING (u32 n) p]> h.
Proof.
  intros Hp Hp0. unfold CFStringCreateWithBytesNoCopy, new_block. rewrite (proj2 (Z.eqb_neq p 0) Hp0). cbn [andb].
  destruct (malloc_fresh h) as [Hs Hs0]. set (s := malloc h) in *. clearbody s. assert (Hsp : s <> p) by congruence.
  split; [|done]. rewrite release_eq, (proj2 (Z.eqb_neq s 0) Hs0). unfold obj_at. rewrite lookup_insert_eq. cbn [mbind res_bind].
  rewrite Z.eqb_refl. unfold free. rewrite (proj2 (Z.eqb_neq p 0) Hp0), lookup_insert_ne, Hp by done. cbn [mbind res_bind].
  rewrite (proj2 (Z.eqb_neq s 0) Hs0), lookup_delete_ne, lookup_insert_eq by done. f_equal.
  rewrite delete_insert_ne, delete_insert_eq by done. apply delete_id. by rewrite lookup_delete_ne.
Qed.

End laws.

(** ** An allocator *)

(** The address after the highest one in use. *)
Definition next_block (h : heap) : Z := map_fold (fun k _ r => Z.max (k + 1) r) 1 h.

Lemma next_block_fresh h : h !! next_block h = None /\ next_block h <> 0.
Proof.
  assert (H : 1 <= next_block h /\ forall k b, h !! k = Some b -> k < next_block h).
  { unfold next_block. apply (map_fold_weak_ind (fun r m => 1 <= r /\ forall k b, m !! k = Some b -> k < r)).
    - split; [lia|]. intros k b Hk. by rewrite lookup_empty in Hk.
    - intros i x m r Hi [H1 H2]. split; [lia|]. intros k b Hk. destruct (decide (k = i)) as [->|Hne]; [lia|].
      rewrite lookup_insert_ne in Hk by done. apply H2 in Hk. lia. }
  destruct H as [H1 H2]. split; [|lia]. destruct (h !! next_block h) as [b|] eqn:E; [|done]. apply H2 in E. lia.
Qed.

(** A comment, one server and a line that only looks like one; then a file
    that has changed. *)
Definition demo_conf : list conf_line :=
  [OtherLine "# nameserver 1.1.1.1"; Nameserver "" " " "9.9.9.9" " # quad9"; OtherLine "options ndots:1"]%string.

Lemma demo_conf_ok : Forall conf_line_ok demo_conf.
Proof.
  assert (forall text, match text with String c _ => c <> SPACE /\ c <> TAB /\ c <> Ascii.ascii_of_nat 110 | EmptyString => False end ->
    forall indent rest, blanks indent -> text <> indent +:+ "nameserver" +:+ rest) as H.
  { intros [|c text] Hc [|d indent] rest Hi E; try done.
    - injection E as -> _. by destruct Hc as (_ & _ & []).
    - injection E as -> _. destruct Hi as [[-> | ->] _]; by destruct Hc as (? & ? & _). }
  unfold demo_conf. repeat apply Forall_cons_2; [| | |apply Forall_nil_2]; (split; [reflexivity|]); (split; [reflexivity|]);
    (split; [apply Nat.ltb_lt; reflexivity|]).
  - by apply H.
  - cbn. split_and!; auto; done.
  - by apply H.
Qed.

Lemma dns_servers_delivered_witness :
  (exists dict h1 arr, SCDynamicStoreCopyValue next_block ∅ None (Some (conf_text demo_conf)) = Ok (dict, h1, Some ["9.9.9.9"]%string) /\
    CFArrayGetCount h1 arr = Ok 1 /\ macify_CFRelease 3 h1 dict = Ok ∅) /\
  exists dict h1 arr, SCDynamicStoreCopyValue next_block ∅ (Some ["9.9.9.9"]%string) None = Ok (dict, h1, Some ["9.9.9.9"]%string) /\
    CFArrayGetCount h1 arr = Ok 1.
Proof.
  split.
  - destruct (dns_servers_delivered next_block next_block_fresh ∅ demo_conf None (Some (conf_text demo_conf)) demo_conf_ok)
      as (dict & h1 & arr & H1 & _ & _ & H2 & _ & H3); [discriminate|by left|]. exists dict, h1, arr. split_and!; [exact H1|exact H2|exact H3].
  - destruct (dns_servers_delivered next_block next_block_fresh ∅ demo_conf (Some ["9.9.9.9"]%string) None demo_conf_ok)
      as (dict & h1 & arr & H1 & _ & _ & H2 & _ & H3); [discriminate|by right|]. exists dict, h1, arr. split; [exact H1|exact H2].
Defined.

(** Two bytes of a guest's buffer. *)
Lemma path_roundtrip_witness :
  exists c h2, CFStringCreateMutableCopy next_block (<[8 := Obj SC_TAG_STRING 2 7]> {[7 := Bytes [47; 97]]}) 0 8 = Ok (c, h2) /\
    CFStringGetLength h2 c = Ok 2.
Proof.
  destruct (path_roundtrip next_block next_block_fresh {[7 := Bytes [47; 97]]} 7 2 [47; 97] [0; 0] 2)
    as (c & h2 & b & H1 & _ & H2 & _); try (vm_compute; congruence); [vm_compute; split; congruence|].
  exists c, h2. split; [exact H1|exact H2].
Defined.

Lemma nocopy_release_frees_callers_bytes_witness :
  macify_CFRelease 1 (<[8 := Obj SC_TAG_STRING 2 7]> {[7 := Bytes [47; 97]]}) 8 = Ok ∅.
Proof.
  exact (proj1 (nocopy_release_frees_callers_bytes next_block next_block_fresh {[7 := Bytes [47; 97]]} 7 2 [47; 97] eq_refl
    ltac:(discriminate))).
Defined.
