(* ===== verification/PrefixInit.v ===== *)
(** * The prefix on disk (src/src/prefix.c)

    [macify_init_prefix] and its helpers: the directories, files and links a
    prefix is made of, over a file system that is a class of operations.
    Debug output is left out. *)
From Stdlib Require Import ZArith Lia Bool.
From stdpp Require Import base gmap list strings numbers pretty.
From S2P Require Import Prelude Buffers PrefixPath.

(** ** The file system *)

(** What [stat] tells. *)
Record file_info := FileInfo { fi_dir : bool; fi_size : Z; fi_mtime : Z }.

(** [h_open]: the file can be opened for reading.  [h_creat] opens it for
    writing with O_CREAT and O_TRUNC, so the file is empty afterwards, and
    tells how many bytes each write to it, counted from 0, takes ([None] where
    open fails).  [h_reads] is what the reads of an open file give from its
    start: [None] for an error, an empty piece at the end.  [h_store] leaves
    the bytes written in the file. *)
Class HostFs (FS : Type) := {
  h_stat : FS -> string -> option file_info;
  h_lstat : FS -> string -> bool;
  h_mkdir : string -> FS -> FS;
  h_symlink : string -> string -> FS -> FS;
  h_open : FS -> string -> bool;
  h_creat : string -> FS -> option (FS * (nat -> Z));
  h_reads : FS -> string -> list (option (list Z));
  h_store : string -> list Z -> FS -> FS;
  h_unlink : string -> FS -> FS
}.

Section prefix_init.
Context {FS : Type} `{HostFs FS}.

Definition ensure_dir (path : string) (fs : FS) : FS :=
  match h_stat fs path with None => h_mkdir path fs | Some _ => fs end.

(** The inner loop of [copy_file]: one piece; [k] writes have been made. *)
Fixpoint write_all (fuel : nat) (writes : nat -> Z) (k : nat) (buf out : list Z) : res (bool * list Z * nat) :=
  match buf with
  | [] => Ok (true, out, k)
  | _ =>
      match fuel with
      | O => NoFuel
      | S fuel =>
          let w := writes k in
          if w <=? 0 then Ok (false, out, S k)
          else write_all fuel writes (S k) (drop (Z.to_nat w) buf) (out ++ take (Z.to_nat w) buf)
      end
  end.

(** Whether all went well, and the bytes written. *)
Fixpoint copy_loop (reads : list (option (list Z))) (writes : nat -> Z) (k : nat) (out : list Z) : res (bool * list Z) :=
  match reads with
  | [] => NoFuel
  | None :: _ => Ok (false, out)
  | Some [] :: _ => Ok (true, out)
  | Some buf :: reads =>
      '(good, out, k) ← write_all (length buf) writes k buf out;
      match good with true => copy_loop reads writes k out | false => Ok (false, out) end
  end.

(** The destination is truncated before the first read. *)
Definition copy_file (src dst : string) (fs : FS) : res (Z * FS) :=
  if negb (h_open fs src) then Ok (-1, fs) else
  match h_creat dst fs with
  | None => Ok (-1, fs)
  | Some (fs, writes) =>
      '(good, out) ← copy_loop (h_reads fs src) writes 0 [];
      let fs := h_store dst out fs in
      Ok (match good with true => (0, fs) | false => (-1, h_unlink dst fs) end)
  end.

(** [fopen(path, "w")], the text, [fclose]. *)
Definition put_file (path text : string) (fs : FS) : FS :=
  match h_creat path fs with None => fs | Some (fs, _) => h_store path (string_bytes text) fs end.

Definition make_link (target path : string) (fs : FS) : FS :=
  if h_lstat fs path then fs else h_symlink target path fs.

(** ** The trust store *)

Definition host_ca : list string :=
  [ "/etc/ssl/certs/ca-certificates.crt"; "/etc/ssl/cert.pem"; "/etc/pki/tls/certs/ca-bundle.crt"; "/etc/ssl/ca-bundle.pem" ]%string.

(** Only the first candidate that exists is used, and only when it is newer
    than the copy; [sd] is the copy's state before. *)
Fixpoint install_ca (candidates : list string) (dst : string) (sd : option file_info) (fs : FS) : res FS :=
  match candidates with
  | [] => Ok fs
  | c :: candidates =>
      match h_stat fs c with
      | Some ss =>
          if fi_size ss <=? 0 then install_ca candidates dst sd fs else
          if (match sd with Some d => fi_mtime d <? fi_mtime ss | None => true end)
          then '(_, fs) ← copy_file c dst fs; Ok fs else Ok fs
      | None => install_ca candidates dst sd fs
      end
  end.

(** ** The files *)

Definition dq : string := String (Ascii.ascii_of_nat 34) EmptyString.
Definition nl : string := String (Ascii.ascii_of_nat 10) EmptyString.
Definition lines (l : list string) : string := foldr (fun s r => s +:+ nl +:+ r) EmptyString l.

Definition plist (name : string) (extra : list string) : string :=
  lines ([ "<?xml version=" +:+ dq +:+ "1.0" +:+ dq +:+ " encoding=" +:+ dq +:+ "UTF-8" +:+ dq +:+ "?>";
           "<!DOCTYPE plist PUBLIC " +:+ dq +:+ "-//Apple//DTD PLIST 1.0//EN" +:+ dq +:+ " " +:+ dq +:+
             "http://www.apple.com/DTDs/PropertyList-1.0.dtd" +:+ dq +:+ ">";
           "<plist version=" +:+ dq +:+ "1.0" +:+ dq +:+ ">"; "<dict>";
           "    <key>ProductBuildVersion</key>"; "    <string>23F79</string>";
           "    <key>ProductCopyright</key>"; "    <string>1983-2024 Apple Inc.</string>";
           "    <key>ProductName</key>"; "    <string>" +:+ name +:+ "</string>";
           "    <key>ProductUserVisibleVersion</key>"; "    <string>14.5</string>";
           "    <key>ProductVersion</key>"; "    <string>14.5</string>" ]%string ++ extra ++ [ "</dict>"; "</plist>" ]%string).

Definition system_version : string := plist "macOS" ["    <key>iOSSupportVersion</key>"; "    <string>17.5</string>"]%string.
Definition server_version : string := plist "macOS Server" [].

(** The user: USER, HOME, getuid and getgid. *)
Record user_info := UserInfo { u_name : option string; u_home : option string; u_uid : Z; u_gid : Z }.

Definition passwd_file (u : user_info) : string :=
  lines [ "##"; "# User Database"; "##";
          "nobody:*:-2:-2:Unprivileged User:/var/empty:/usr/bin/false";
          "root:*:0:0:System Administrator:/var/root:/bin/sh";
          "daemon:*:1:1:System Services:/var/root:/usr/bin/false";
          default "user" (u_name u) +:+ ":*:" +:+ pretty (i32 (u_uid u)) +:+ ":" +:+ pretty (i32 (u_gid u)) +:+ ":User:" +:+
            default "/home/user" (u_home u) +:+ ":/bin/bash" ]%string.

Definition group_file (u : user_info) : string :=
  let user := default "user"%string (u_name u) in
  lines [ "##"; "# Group Database"; "##"; "nobody:*:-2:"; "wheel:*:0:root"; "daemon:*:1:"; "staff:*:20:";
          user +:+ ":*:" +:+ pretty (i32 (u_gid u)) +:+ ":" +:+ user ]%string.

Definition shells_file : string :=
  lines ["/bin/bash"; "/bin/sh"; "/bin/zsh"; "/usr/bin/bash"; "/usr/bin/sh"; "/usr/bin/zsh"]%string.

(** ** [macify_init_prefix] *)

(** The steps, with paths below the prefix. *)
Inductive step :=
| MkDir (rel : string)
| PutFile (rel text : string)
| CaBundle (rel : string)
| LinkTo (target rel : string).

Definition prefix_steps (u : user_info) : list step :=
  [ MkDir "";
    MkDir "/Library"; MkDir "/Library/Caches"; MkDir "/Library/Preferences"; MkDir "/Library/Application Support";
    MkDir "/Library/Logs"; MkDir "/Library/LaunchAgents"; MkDir "/Library/Frameworks";
    MkDir "/System"; MkDir "/System/Library"; MkDir "/System/Library/CoreServices"; MkDir "/System/Library/Frameworks";
    PutFile "/System/Library/CoreServices/SystemVersion.plist" system_version;
    PutFile "/System/Library/CoreServices/ServerVersion.plist" server_version;
    MkDir "/usr"; MkDir "/usr/lib"; MkDir "/usr/bin"; MkDir "/usr/sbin"; MkDir "/usr/local"; MkDir "/usr/local/lib";
    MkDir "/usr/local/bin"; MkDir "/usr/share";
    MkDir "/etc"; PutFile "/etc/passwd" (passwd_file u); PutFile "/etc/group" (group_file u); PutFile "/etc/shells" shells_file;
    MkDir "/etc/ssl"; MkDir "/etc/ssl/certs"; CaBundle "/etc/ssl/cert.pem";
    MkDir "/var"; MkDir "/var/log"; MkDir "/var/root"; MkDir "/var/empty";
    LinkTo "/tmp" "/tmp"; MkDir "/bin"; LinkTo "/dev" "/dev" ]%string.

Definition at_prefix (prefix rel : string) : string := snprintf PATH_MAX (prefix +:+ rel).

Definition run_step (prefix : string) (fs : FS) (s : step) : res FS :=
  match s with
  | MkDir rel => Ok (ensure_dir (at_prefix prefix rel) fs)
  | PutFile rel text => Ok (put_file (at_prefix prefix rel) text fs)
  | CaBundle rel => let dst := at_prefix prefix rel in install_ca host_ca dst (h_stat fs dst) fs
  | LinkTo target rel => Ok (make_link target (at_prefix prefix rel) fs)
  end.

(** ~/Library, if there is none, and the marker. *)
Definition finish_prefix (prefix : string) (u : user_info) (fs : FS) : FS :=
  let fs :=
    match u_home u with
    | Some home => make_link (at_prefix prefix "/Library") (snprintf PATH_MAX (home +:+ "/Library")) fs
    | None => fs
    end in
  put_file (at_prefix prefix "/.macify_prefix") (lines ["macify prefix v2"%string]) fs.

Definition macify_init_prefix (prefix : string) (u : user_info) (fs : FS) : res FS :=
  if (String.length prefix =? 0)%nat then Ok fs else
  fs ← fold_res (run_step prefix) (prefix_steps u) fs;
  Ok (finish_prefix prefix u fs).

End prefix_init.

(** ** Copying *)

(** The pieces up to the end of the file. *)
Fixpoint pieces (reads : list (option (list Z))) : list Z :=
  match reads with Some [] :: _ | None :: _ | [] => [] | Some bs :: reads => bs ++ pieces reads end.

Fixpoint reads_to_end (reads : list (option (list Z))) : Prop :=
  match reads with Some [] :: _ => True | None :: _ | [] => False | Some _ :: reads => reads_to_end reads end.

Lemma write_all_ok writes fuel : forall k buf out out' k',
  write_all fuel writes k buf out = Ok (true, out', k') -> out' = out ++ buf.
Proof.
  induction fuel as [|fuel IH]; intros k [|b buf] out out' k'; cbn [write_all]; cbv zeta; try done.
  - intros [= <- _]. by rewrite app_nil_r.
  - intros [= <- _]. by rewrite app_nil_r.
  - destruct (writes k <=? 0); [done|]. intros Hw. apply IH in Hw as ->. by rewrite <- app_assoc, take_drop.
Qed.

(** Every write takes a byte or fails, so a piece needs no more writes than it
    has bytes. *)
Lemma write_all_returns writes fuel : forall k buf out, (length buf <= fuel)%nat -> exists r, write_all fuel writes k buf out = Ok r.
Proof.
  induction fuel as [|fuel IH]; intros k [|b buf] out Hl; cbn [write_all length] in *; cbv zeta; eauto; [lia|].
  destruct (Z.leb_spec (writes k) 0); [eauto|]. apply IH. rewrite length_drop. cbn [length]. lia.
Qed.

(** The reads come to the end of the file or to an error. *)
Definition reads_end (reads : list (option (list Z))) : Prop := Exists (fun r => r = None \/ r = Some []) reads.

Lemma copy_loop_returns writes reads : reads_end reads -> forall k out, exists r, copy_loop reads writes k out = Ok r.
Proof.
  induction 1 as [r reads [-> | ->]|r reads _ IH]; intros k out; [cbn; eauto..|].
  destruct r as [[|b buf]|]; cbn [copy_loop]; eauto.
  destruct (write_all_returns writes (length (b :: buf)) k (b :: buf) out) as [[[[] o] k'] ->]; [done|cbn; apply IH|cbn; eauto].
Qed.

Lemma copy_loop_ok reads writes : forall k out out',
  copy_loop reads writes k out = Ok (true, out') -> reads_to_end reads /\ out' = out ++ pieces reads.
Proof.
  induction reads as [|[[|b buf]|] reads IH]; intros k out out'; cbn [copy_loop pieces reads_to_end]; try done.
  - intros [= <-]. by rewrite app_nil_r.
  - destruct (write_all _ writes k (b :: buf) out) as [[[good o] ws]| |] eqn:Ew; [|done|done]. cbn [mbind res_bind].
    destruct good; [|done]. apply write_all_ok in Ew as ->. intros Hc. apply IH in Hc as [H1 ->]. by rewrite <- app_assoc.
Qed.

(** ** Laws of the file system *)

Section laws.
Context {FS : Type} `{HostFs FS}.

Definition isdir (fs : FS) (d : string) : Prop := match h_stat fs d with Some i => fi_dir i = true | None => False end.
Definition free_or_dir (fs : FS) (d : string) : Prop := match h_stat fs d with Some i => fi_dir i = true | None => True end.

(** A directory can be made below a directory; nothing removes a directory;
    a file or link is made at its own path only; a file that is open for
    reading stays open when another is truncated, and reading it comes to its
    end or to an error. *)
Class FsLaws : Prop := {
  mkdir_makes : forall fs dir name, has_char slash name = false -> isdir fs dir ->
    h_stat fs (dir +:+ "/" +:+ name) = None -> isdir (h_mkdir (dir +:+ "/" +:+ name) fs) (dir +:+ "/" +:+ name);
  mkdir_keeps : forall fs p d, isdir fs d -> isdir (h_mkdir p fs) d;
  creat_keeps : forall fs fs' w p d, h_creat p fs = Some (fs', w) -> isdir fs d -> isdir fs' d;
  store_keeps : forall fs p bs d, isdir fs d -> isdir (h_store p bs fs) d;
  unlink_keeps : forall fs p d, isdir fs d -> isdir (h_unlink p fs) d;
  symlink_keeps : forall fs t p d, isdir fs d -> isdir (h_symlink t p fs) d;
  mkdir_free : forall fs p d, free_or_dir fs d -> free_or_dir (h_mkdir p fs) d;
  creat_free : forall fs fs' w p d, h_creat p fs = Some (fs', w) -> p <> d -> free_or_dir fs d -> free_or_dir fs' d;
  store_free : forall fs p bs d, p <> d -> free_or_dir fs d -> free_or_dir (h_store p bs fs) d;
  unlink_free : forall fs p d, p <> d -> free_or_dir fs d -> free_or_dir (h_unlink p fs) d;
  symlink_free : forall fs t p d, p <> d -> free_or_dir fs d -> free_or_dir (h_symlink t p fs) d;
  file_ends : forall fs fs' w src dst, h_open fs src = true -> h_creat dst fs = Some (fs', w) -> reads_end (h_reads fs' src)
}.

(** The bytes of a file; truncating empties it, reading to the end gives
    them, and storing replaces them. *)
Class FsContent := {
  content : FS -> string -> option (list Z);
  creat_empties : forall fs fs' w p, h_creat p fs = Some (fs', w) -> content fs' p = Some [];
  reads_give : forall fs p bs, content fs p = Some bs -> reads_to_end (h_reads fs p) -> pieces (h_reads fs p) = bs;
  store_replaces : forall fs p bs bs', content fs p = Some bs -> content (h_store p bs' fs) p = Some bs'
}.

(** copy_file returns, once its two files are open.  It reports success when
    all of the source has been read and written, in order, however the writes
    were split: the destination then holds what the source holds once the
    destination is truncated.  When a read or a write fails, it reports that
    and asks for the destination to be removed; what unlink and the two close
    calls say is not looked at. *)
Theorem copy_file_all_or_unlinked {L : FsLaws} {C : FsContent} (src dst : string) (fs fs1 : FS) (w : nat -> Z) (bs : list Z) :
  h_open fs src = true -> h_creat dst fs = Some (fs1, w) -> content fs1 src = Some bs ->
  exists rc fs', copy_file src dst fs = Ok (rc, fs') /\
    ((rc = 0 /\ content fs' dst = Some bs) \/
     (rc = -1 /\ exists part, content (h_store dst part fs1) dst = Some part /\ fs' = h_unlink dst (h_store dst part fs1))).
Proof.
  intros Ho Hc Hb. unfold copy_file. rewrite Ho, Hc. cbn [negb].
  destruct (copy_loop_returns w _ (file_ends _ _ _ _ _ Ho Hc) 0 []) as [[good out] E]. rewrite E. cbn [mbind res_bind].
  pose proof (creat_empties _ _ _ _ Hc) as H0.
  destruct good; eexists _, _; (split; [done|]).
  - left. split; [done|]. apply copy_loop_ok in E as [He ->]. rewrite (reads_give _ _ _ Hb He).
    exact (store_replaces _ _ _ _ H0).
  - right. split; [done|]. exists out. split; [exact (store_replaces _ _ _ _ H0)|done].
Qed.

Definition dirs (steps : list step) : list string :=
  omap (fun s => match s with MkDir r => Some r | _ => None end) steps.

(** The path a step writes to that is not a directory. *)
Definition other_path (s : step) : option string :=
  match s with MkDir _ => None | PutFile r _ | CaBundle r | LinkTo _ r => Some r end.

Definition child_of (par rel : string) : bool :=
  starts_with (par +:+ "/") rel && negb (has_char slash (sdrop (String.length par + 1) rel)).

(** Every directory comes after its parent, and no other path is that of a
    directory made later. *)
Fixpoint parents_first (made : list string) (steps : list step) : bool :=
  match steps with
  | [] => true
  | s :: steps =>
      (match s with MkDir r => existsb (fun par => child_of par r) made && (String.length r <=? 64)%nat | _ => true end) &&
      (match other_path s with
       | Some r => negb (existsb (streq r) (dirs steps)) && (String.length r <=? 64)%nat | None => true end) &&
      parents_first (match s with MkDir r => r :: made | _ => made end) steps
  end.

Lemma at_prefix_app prefix rel :
  (String.length prefix <= 4000)%nat -> (String.length rel <= 64)%nat -> at_prefix prefix rel = prefix +:+ rel.
Proof.
  intros H1 H2. unfold at_prefix, snprintf. apply stake_all. rewrite string_length_app. unfold PATH_MAX. lia.
Qed.

Context {L : FsLaws}.

Lemma install_ca_ok candidates dst sd fs :
  exists fs', install_ca candidates dst sd fs = Ok fs' /\
    (forall d, isdir fs d -> isdir fs' d) /\ (forall d, dst <> d -> free_or_dir fs d -> free_or_dir fs' d).
Proof.
  induction candidates as [|c cs IH]; cbn [install_ca]; [eauto|].
  destruct (h_stat fs c) as [ss|]; [|exact IH]. destruct (_ <=? 0); [exact IH|].
  destruct (match sd with Some d => _ | None => true end); [|eauto]. unfold copy_file.
  destruct (h_open fs c) eqn:Eo; cbn [negb]; [|cbn; eauto].
  destruct (h_creat dst fs) as [[fs1 w]|] eqn:Ec; [|cbn; eauto].
  pose proof (fun d => creat_keeps _ _ _ _ d Ec) as K. pose proof (fun d => creat_free _ _ _ _ d Ec) as F.
  destruct (copy_loop_returns w _ (file_ends _ _ _ _ _ Eo Ec) 0 []) as [[[] out] ->]; cbn [mbind res_bind]; eexists; (split; [done|]); split; intros d.
  - intros Hd. by apply store_keeps, K.
  - intros Hne Hd. by apply store_free, F.
  - intros Hd. by apply unlink_keeps, store_keeps, K.
  - intros Hne Hd. by apply unlink_free, store_free, F.
Qed.

(** One step returns, keeps directories, and does not get in the way of a
    directory made later. *)
Lemma run_step_ok prefix s fs :
  exists fs', run_step prefix fs s = Ok fs' /\ (forall d, isdir fs d -> isdir fs' d) /\
    (forall d, (forall r, other_path s = Some r -> at_prefix prefix r <> d) -> free_or_dir fs d -> free_or_dir fs' d).
Proof.
  destruct s as [r|r text|r|target r]; cbn [run_step other_path].
  - eexists. split; [done|]. unfold ensure_dir. destruct (h_stat fs _); [auto|]. split; intros d; [apply mkdir_keeps|].
    intros _. apply mkdir_free.
  - eexists. split; [done|]. unfold put_file. destruct (h_creat _ fs) as [[fs1 w]|] eqn:E; [|auto]. split; intros d.
    + intros Hd. by eapply store_keeps, creat_keeps.
    + intros Hr Hd. specialize (Hr r eq_refl). by eapply store_free, creat_free.
  - destruct (install_ca_ok host_ca (at_prefix prefix r) (h_stat fs (at_prefix prefix r)) fs) as (fs' & E & H1 & H2).
    exists fs'. split; [exact E|]. split; [exact H1|]. intros d Hr. apply H2. by apply Hr.
  - eexists. split; [done|]. unfold make_link. destruct (h_lstat fs _); [auto|]. split; intros d; [apply symlink_keeps|].
    intros Hr. apply symlink_free. by apply Hr.
Qed.

Lemma child_of_split par rel :
  child_of par rel = true -> exists name, rel = par +:+ "/" +:+ name /\ has_char slash name = false.
Proof.
  unfold child_of. intros [Hs Hn]%andb_true_iff. apply negb_true_iff in Hn.
  apply starts_with_spec in Hs as [name ->]. exists name. split; [apply string_app_assoc|].
  replace (String.length par + 1)%nat with (String.length (par +:+ "/")) in Hn by (rewrite string_length_app; done).
  by rewrite sdrop_app in Hn.
Qed.

(** A directory made below one that is there. *)
Lemma ensure_child prefix par rel fs :
  child_of par rel = true -> isdir fs (prefix +:+ par) -> free_or_dir fs (prefix +:+ rel) ->
  isdir (ensure_dir (prefix +:+ rel) fs) (prefix +:+ rel).
Proof.
  intros (name & -> & Hn)%child_of_split Hpar Hfree. rewrite <- !string_app_assoc in *.
  unfold ensure_dir. unfold free_or_dir in Hfree. destruct (h_stat fs _) as [i|] eqn:Es; [unfold isdir; by rewrite Es|].
  rewrite !string_app_assoc, <- (string_app_assoc prefix par) in *. by apply mkdir_makes.
Qed.

Lemma elem_of_dirs_cons s steps r : r ∈ dirs (s :: steps) <-> s = MkDir r \/ r ∈ dirs steps.
Proof. unfold dirs. cbn. destruct s; rewrite ?elem_of_cons; naive_solver. Qed.

Lemma run_steps_ok prefix steps : (String.length prefix <= 4000)%nat -> forall made fs,
  parents_first made steps = true -> (forall r, r ∈ made -> isdir fs (prefix +:+ r)) ->
  (forall r, r ∈ dirs steps -> free_or_dir fs (prefix +:+ r)) ->
  exists fs', fold_res (run_step prefix) steps fs = Ok fs' /\
    forall r, r ∈ made \/ r ∈ dirs steps -> isdir fs' (prefix +:+ r).
Proof.
  intros Hlen. induction steps as [|s steps IH]; intros made fs Hpf Hmade Hfree; cbn [fold_res].
  { exists fs. split; [done|]. intros r [Hr|Hr]; [by apply Hmade|by apply elem_of_nil in Hr]. }
  cbn [parents_first] in Hpf. apply andb_true_iff in Hpf as [[Hs Ho]%andb_true_iff Hrest].
  destruct (run_step_ok prefix s fs) as (fs1 & E & Hk & Hf). rewrite E. cbn [mbind res_bind].
  destruct (IH (match s with MkDir r => r :: made | _ => made end) fs1 Hrest) as (fs' & E' & Hall).
  - intros r Hr. destruct s as [r0| | |]; try (by apply Hk, Hmade). apply elem_of_cons in Hr as [->|Hr]; [|by apply Hk, Hmade].
    cbn [run_step] in E. injection E as <-. apply andb_true_iff in Hs as [Hc Hl]. apply Nat.leb_le in Hl.
    rewrite at_prefix_app by done. apply existsb_exists in Hc as (par & Hin & Hc). apply list_elem_of_In in Hin.
    apply (ensure_child prefix par); [done|by apply Hmade|apply Hfree, elem_of_dirs_cons; by left].
  - intros r Hr. apply Hf; [|apply Hfree, elem_of_dirs_cons; by right]. intros r0 Er. rewrite Er in Ho.
    apply andb_true_iff in Ho as [Hn Hl]. apply Nat.leb_le in Hl. rewrite at_prefix_app by done.
    intros Heq%string_app_inj. subst r0. apply negb_true_iff in Hn.
    rewrite (proj2 (existsb_exists _ _)) in Hn; [done|]. exists r. split; [by apply list_elem_of_In|by apply bool_decide_eq_true_2].
  - exists fs'. split; [exact E'|]. intros r Hr. apply Hall. rewrite elem_of_dirs_cons in Hr.
    destruct Hr as [Hr|[->|Hr]]; [left; destruct s; auto; by right|left; left|by right].
Qed.

Lemma finish_prefix_keeps prefix u fs d : isdir fs d -> isdir (finish_prefix prefix u fs) d.
Proof.
  intros Hd. unfold finish_prefix, put_file, make_link. cbv zeta.
  set (fs1 := match u_home u with Some _ => _ | None => _ end).
  assert (H1 : isdir fs1 d) by (unfold fs1; destruct (u_home u); [destruct (h_lstat fs _)|]; auto using symlink_keeps).
  destruct (h_creat _ fs1) as [[fs2 w]|] eqn:E; [|done]. by eapply store_keeps, creat_keeps.
Qed.

(** Starting a program makes its prefix complete.  When the
    directory above the prefix exists and no file is in the way of a directory
    of the prefix, macify_init_prefix returns and every directory of the tree
    is there afterwards, whatever part of it existed before: each directory is
    made after the one above it, and no file or link made on the way takes the
    place of a directory. *)
Theorem prefix_tree_created (dir name : string) (u : user_info) (fs : FS) :
  let prefix := dir +:+ "/" +:+ name in
  has_char slash name = false -> (String.length prefix <= 4000)%nat -> isdir fs dir ->
  (forall r, r ∈ dirs (prefix_steps u) -> free_or_dir fs (prefix +:+ r)) ->
  exists fs', macify_init_prefix prefix u fs = Ok fs' /\
    forall r, r ∈ dirs (prefix_steps u) -> isdir fs' (prefix +:+ r).
Proof.
  intros prefix Hn Hlen Hdir Hfree. unfold macify_init_prefix.
  assert (Hne : (String.length prefix =? 0)%nat = false).
  { apply Nat.eqb_neq. unfold prefix. rewrite !string_length_app. cbn. lia. }
  rewrite Hne. change (prefix_steps u) with (MkDir "" :: tail (prefix_steps u)) in *.
  cbn [fold_res run_step]. cbn [mbind res_bind]. rewrite at_prefix_app by (done || cbn; lia).
  assert (Hroot : isdir (ensure_dir (prefix +:+ "") fs) (prefix +:+ "")).
  { assert (Hf : free_or_dir fs (prefix +:+ "")) by (apply Hfree, elem_of_dirs_cons; by left).
    rewrite string_app_nil_r in *. unfold ensure_dir, free_or_dir in *. destruct (h_stat fs prefix) eqn:Es.
    - unfold isdir. by rewrite Es.
    - by apply mkdir_makes. }
  destruct (run_steps_ok prefix (tail (prefix_steps u)) Hlen [""%string] (ensure_dir (prefix +:+ "") fs)) as (fs' & E & Hall).
  - reflexivity.
  - intros r Hr. apply list_elem_of_singleton in Hr as ->. exact Hroot.
  - intros r Hr. assert (Hr' : free_or_dir fs (prefix +:+ r)) by (apply Hfree, elem_of_dirs_cons; by right).
    unfold ensure_dir. destruct (h_stat fs (prefix +:+ "")); [done|by apply mkdir_free].
  - rewrite E. cbn [mbind res_bind]. eexists. split; [done|]. intros r Hr. apply finish_prefix_keeps, Hall.
    apply elem_of_dirs_cons in Hr as [[= <-]|Hr]; [left; by apply list_elem_of_singleton|by right].
Qed.
End laws.

(** ** A file system *)

(** Paths to directories, files and links; links are to directories. *)
Inductive node := NDir | NFile (bs : list Z) | NLink (target : string).

#[export] Instance map_fs : HostFs (gmap string node) := {
  h_stat fs p := match fs !! p with
                 | Some NDir | Some (NLink _) => Some (FileInfo true 0 0)
                 | Some (NFile bs) => Some (FileInfo false (buf_len bs) 0)
                 | None => None
                 end;
  h_lstat fs p := match fs !! p with Some _ => true | None => false end;
  h_mkdir p fs := match fs !! p with Some _ => fs | None => <[p := NDir]> fs end;
  h_symlink t p fs := match fs !! p with Some _ => fs | None => <[p := NLink t]> fs end;
  h_open fs p := match fs !! p with Some (NFile _) => true | _ => false end;
  h_creat p fs := match fs !! p with Some NDir | Some (NLink _) => None | _ => Some (<[p := NFile []]> fs, fun _ => 4096) end;
  h_reads fs p := match fs !! p with Some (NFile []) => [Some []] | Some (NFile bs) => [Some bs; Some []] | _ => [None] end;
  h_store p bs fs := match fs !! p with Some NDir | Some (NLink _) => fs | _ => <[p := NFile bs]> fs end;
  h_unlink p fs := match fs !! p with Some (NFile _) => delete p fs | _ => fs end
}.

Lemma map_fs_stat (fs fs' : gmap string node) d :
  fs' !! d = fs !! d -> (isdir fs' d <-> isdir fs d) /\ (free_or_dir fs' d <-> free_or_dir fs d).
Proof. intros E. unfold isdir, free_or_dir. cbn [h_stat map_fs]. by rewrite E. Qed.

(** An operation that changes one path. *)
Ltac one_path p d :=
  destruct (decide (d = p)) as [->|?];
  [unfold isdir, free_or_dir in *; cbn [h_stat map_fs] in *;
   rewrite ?lookup_insert_eq, ?lookup_delete_eq; repeat case_match; simplify_eq; done
  |apply map_fs_stat; rewrite ?lookup_insert_ne, ?lookup_delete_ne by congruence; done].

#[export] Instance map_fs_laws : FsLaws (FS := gmap string node).
Proof.
  split; cbn [h_mkdir h_store h_unlink h_symlink h_reads h_open h_creat map_fs].
  - intros fs dir name _ _ Hs. cbn [h_stat map_fs] in Hs. unfold isdir. cbn [h_stat map_fs].
    destruct (fs !! (dir +:+ "/" +:+ name)) as [[]|] eqn:E; try done. by rewrite lookup_insert_eq.
  - intros fs p d Hd. destruct (fs !! p) as [[]|] eqn:E; try done; revert Hd; one_path p d.
  - intros fs fs' w p d Hc Hd. destruct (fs !! p) as [[]|] eqn:E; simplify_eq; revert Hd; one_path p d.
  - intros fs p bs d Hd. destruct (fs !! p) as [[]|] eqn:E; try done; revert Hd; one_path p d.
  - intros fs p d Hd. destruct (fs !! p) as [[]|] eqn:E; try done; revert Hd; one_path p d.
  - intros fs t p d Hd. destruct (fs !! p) as [[]|] eqn:E; try done; revert Hd; one_path p d.
  - intros fs p d Hd. destruct (fs !! p) as [[]|] eqn:E; try done; revert Hd; one_path p d.
  - intros fs fs' w p d Hc Hne Hd. destruct (fs !! p) as [[]|] eqn:E; simplify_eq; revert Hd; one_path p d.
  - intros fs p bs d Hne Hd. destruct (fs !! p) as [[]|] eqn:E; try done; revert Hd; one_path p d.
  - intros fs p d Hne Hd. destruct (fs !! p) as [[]|] eqn:E; try done; revert Hd; one_path p d.
  - intros fs t p d Hne Hd. destruct (fs !! p) as [[]|] eqn:E; try done; revert Hd; one_path p d.
  - intros fs fs' w src dst _ _. repeat case_match; apply Exists_exists; eexists; split; try apply list_elem_of_In; cbn; eauto.
Qed.

#[export] Instance map_fs_content : FsContent (FS := gmap string node).
Proof.
  refine {| content := fun (fs : gmap string node) p => match fs !! p with Some (NFile bs) => Some bs | _ => None end |};
    cbn [h_creat h_reads h_store map_fs].
  - intros fs fs' w p Hc. repeat case_match; simplify_eq; by rewrite ?lookup_insert_eq in *; simplify_eq.
  - intros fs p bs Hb _. repeat case_match; simplify_eq; cbn; by rewrite ?app_nil_r.
  - intros fs p bs bs' Hb. destruct (fs !! p) as [[]|]; simplify_eq; by rewrite lookup_insert_eq.
Defined.

Definition demo_user : user_info := UserInfo (Some "ada"%string) (Some "/home/ada"%string) 1000 1000.
Definition demo_fs : gmap string node :=
  <["/home/ada"%string := NDir]> (<["/etc/ssl/cert.pem"%string := NFile [65; 66; 67]]> ∅).

(** A file copied next to the home, and one copied onto itself. *)
Lemma copy_file_all_or_unlinked_witness :
  (exists rc fs', copy_file "/etc/ssl/cert.pem" "/home/ada/cert" demo_fs = Ok (rc, fs') /\
    ((rc = 0 /\ content fs' "/home/ada/cert" = Some [65; 66; 67]) \/
     (rc = -1 /\ exists part, content (h_store "/home/ada/cert" part (<["/home/ada/cert"%string := NFile []]> demo_fs)) "/home/ada/cert" = Some part /\
        fs' = h_unlink "/home/ada/cert" (h_store "/home/ada/cert" part (<["/home/ada/cert"%string := NFile []]> demo_fs))))).
Proof.
  eapply (copy_file_all_or_unlinked "/etc/ssl/cert.pem" "/home/ada/cert" demo_fs); [reflexivity..|]. reflexivity.
Defined.

(** A file copied onto itself is emptied and the copy reported as a success;
    install_ca does not come to that, because a file is not newer than itself. *)
Lemma copy_onto_itself :
  exists fs', copy_file "/etc/ssl/cert.pem" "/etc/ssl/cert.pem" demo_fs = Ok (0, fs') /\
    content fs' "/etc/ssl/cert.pem" = Some [].
Proof. eexists. split; vm_compute; reflexivity. Qed.

(** A home without a prefix. *)
Lemma prefix_tree_created_witness :
  exists fs', macify_init_prefix "/home/ada/.macify" demo_user demo_fs = Ok fs' /\ isdir fs' "/home/ada/.macify/usr/local/bin".
Proof.
  destruct (prefix_tree_created "/home/ada" ".macify" demo_user demo_fs) as (fs' & E & Hall).
  - reflexivity.
  - vm_compute. lia.
  - reflexivity.
  - intros r Hr. unfold free_or_dir. cbn [h_stat map_fs]. unfold demo_fs.
    rewrite !lookup_insert_ne, lookup_empty by (cbn; discriminate). done.
  - exists fs'. split; [exact E|]. apply (Hall "/usr/local/bin"%string).
    apply list_elem_of_In. cbn. tauto.
Defined.
