(* ===== verification/Jail.v ===== *)
(** * The jail (src/src/jail.c)

    The launcher that runs the loader in a namespace of its own, with the
    prefix as its root.  It is a sequence of system calls whose answers decide
    what comes next; the kernel is a function of everything that was asked
    before, so that what is proved holds however the system behaves.  Messages
    are left out. *)
From Stdlib Require Import ZArith Lia Bool Sorted.
From stdpp Require Import base gmap list strings numbers pretty.
From S2P Require Import Prelude Buffers PrefixPath PrefixInit MachoDylib Entry.

(** ** System calls and runs *)

Inductive ftype := FReg | FDir | FLnk | FOther.

Inductive mount_flag := MS_REC | MS_PRIVATE | MS_BIND | MS_REMOUNT | MS_RDONLY | MS_NOSUID | MS_NODEV.

Inductive jail_call :=
| Stat (p : string)
| Lstat (p : string)
| Fstat (p : string)                  (* of the file opened at [p] *)
| Realpath (p : string)
| Readlink (p : string)
| Access (p : string) (x_ok : bool)
| OpenIn (p : string)                 (* O_RDONLY *)
| OpenOut (p : string)                (* O_CREAT and O_TRUNC *)
| OpenPlace (p : string)              (* O_CREAT, O_NOFOLLOW and O_NONBLOCK *)
| Store (p : string) (bs : list Z)    (* what the writes left in the file *)
| Ftruncate (p : string) (len : Z)
| Chmod (p : string)
| System (cmd : string)
| Mkdir (p : string)
| Unlink (p : string)
| Symlink (target p : string)
| WriteProc (p text : string)
| Getuid | Getgid | Getpid
| Unshare                             (* CLONE_NEWUSER and CLONE_NEWNS *)
| Mount (src : option string) (dst : string) (fstype : option string) (flags : list mount_flag) (data : option string)
| Chdir (p : string)
| Chroot (p : string)
| Execv (p : string) (argv : list string) (env : gmap string string).

(** The result, errno and what else the call gives: the state of a file, a
    path, the pieces read from a file, the bytes each write takes. *)
Record answer := Answer {
  a_ret : Z; a_errno : Z; a_type : ftype; a_size : Z; a_path : string;
  a_reads : list (option (list Z)); a_writes : nat -> Z
}.

Abbreviation event := (jail_call * answer)%type.
Abbreviation trace := (list event).

(** [Exit] is the end of the launcher with a status; [Stuck] a file whose
    reads never end. *)
Inductive outcome (A : Type) := Ret (a : A) | Exit (code : Z) | Stuck.
Arguments Ret {A} a.
Arguments Exit {A} code.
Arguments Stuck {A}.

(** A run takes what was asked so far, newest first. *)
Definition jail (A : Type) : Type := trace -> outcome A * trace.

#[export] Instance jail_ret : MRet jail := fun A a t => (Ret a, t).
#[export] Instance jail_bind : MBind jail := fun A B f m t =>
  match m t with
  | (Ret a, t) => f a t
  | (Exit code, t) => (Exit code, t)
  | (Stuck, t) => (Stuck, t)
  end.

Definition leave {A} (code : Z) : jail A := fun t => (Exit code, t).
Definition die {A} : jail A := leave 126.

(** ** Paths *)

(** The index of the last slash. *)
Fixpoint last_slash (s : string) : option nat :=
  match s with
  | EmptyString => None
  | String c s =>
      match last_slash s with Some k => Some (S k) | None => if Ascii.eqb c slash then Some O else None end
  end.

(** What stands before each slash of [s] after the first character. *)
Fixpoint slash_prefixes_from (pre s : string) : list string :=
  match s with
  | EmptyString => []
  | String c s => (if Ascii.eqb c slash then [pre] else []) ++ slash_prefixes_from (pre +:+ String c EmptyString) s
  end.

Definition slash_prefixes (s : string) : list string :=
  match s with EmptyString => [] | String c s => slash_prefixes_from (String c EmptyString) s end.

(** The size of the buffers for commands and joined paths. *)
Definition CMD_MAX : nat := Z.to_nat 8192.

(** [buf_dir path] is the directory part [mkdir_parents] works on. *)
Definition buf_dir (path : string) : option string :=
  let buf := snprintf CMD_MAX path in
  match last_slash buf with None | Some O => None | Some k => Some (stake k buf) end.

Definition loader_flags : list string :=
  ["-v"; "--verbose"; "-q"; "--quiet"; "--no-fast-path"; "-h"; "--help"]%string.

Fixpoint guest_index (i : nat) (args : list string) : option nat :=
  match args with
  | [] => None
  | a :: rest =>
      if negb (starts_with "-" a) then Some i
      else if streq a "--" then match rest with [] => None | _ => Some (S i) end
      else if bool_decide (a ∈ loader_flags) then guest_index (S i) rest
      else None
  end.

Definition guest_path_index (argv : list string) : option nat := guest_index 2 (drop 2 argv).

(** ** The operations *)

Section jail.
Context (kernel : trace -> jail_call -> answer).

Definition ask (c : jail_call) : jail answer := fun t => let a := kernel t c in (Ret a, (c, a) :: t).

Definition ok (a : answer) : bool := a_ret a =? 0.
Definition is_type (k : ftype) (a : answer) : bool :=
  match k, a_type a with FReg, FReg | FDir, FDir | FLnk, FLnk | FOther, FOther => true | _, _ => false end.

(** How the loop of [copy_into] ends, with the bytes written. *)
Inductive into_end := Copied | WriteFailed | ReadFailed.

Fixpoint into_loop (reads : list (option (list Z))) (writes : nat -> Z) (k : nat) (out : list Z) : res (into_end * list Z) :=
  match reads with
  | [] => NoFuel
  | None :: _ => Ok (ReadFailed, out)
  | Some [] :: _ => Ok (Copied, out)
  | Some buf :: reads =>
      '(good, out, k) ← write_all (length buf) writes k buf out;
      match good with true => into_loop reads writes k out | false => Ok (WriteFailed, out) end
  end.

Definition mkdir_p (p : string) : string := "mkdir -p '" +:+ p +:+ "'".

Definition copy_into (root relsrc reldst : string) : jail Z :=
  let sp := if starts_with "/" relsrc then snprintf PATH_MAX relsrc else snprintf PATH_MAX (root +:+ "/" +:+ relsrc) in
  let dp := snprintf PATH_MAX (root +:+ "/" +:+ reldst) in
  i ← ask (OpenIn sp);
  if a_ret i <? 0 then mret (-1) else
  st ← ask (Fstat sp);
  if negb (ok st) || negb (is_type FReg st) then mret (-1) else
  made ← (match last_slash dp with
          | Some k => a ← ask (System (snprintf CMD_MAX (mkdir_p (stake k dp)))); mret (ok a)
          | None => mret true
          end);
  match made with
  | false => mret (-1)
  | true =>
      o ← ask (OpenOut dp);
      if a_ret o <? 0 then mret (-1) else
      match into_loop (a_reads i) (a_writes o) 0 [] with
      | Ok (WriteFailed, out) => _ ← ask (Store dp out); mret (-1)
      | Ok (e, out) =>
          _ ← ask (Store dp out);
          _ ← ask (Chmod dp);
          mret (match e with Copied => 0 | _ => -1 end)
      | _ => fun t => (Stuck, t)
      end
  end.

Definition exists_in (root rel : string) : jail bool :=
  a ← ask (Access (snprintf PATH_MAX (root +:+ "/" +:+ rel)) true); mret (ok a).

(** Each directory is there and is no link, or is made. *)
Fixpoint mkdir_loop (ps : list string) : jail Z :=
  match ps with
  | [] => mret 0
  | p :: ps =>
      a ← ask (Lstat p);
      if ok a then (if is_type FLnk a then mret (-1) else mkdir_loop ps)
      else b ← ask (Mkdir p); if ok b then mkdir_loop ps else mret (-1)
  end.

Definition mkdir_parents (path : string) : jail Z :=
  match buf_dir path with
  | None => mret 0
  | Some d => mkdir_loop (slash_prefixes d ++ [d])
  end.

Fixpoint lstat_loop (ps : list string) : jail bool :=
  match ps with
  | [] => mret true
  | p :: ps => a ← ask (Lstat p); if negb (ok a) || is_type FLnk a then mret false else lstat_loop ps
  end.

Definition prefix_lstat (root guest : string) : jail (option answer) :=
  let buf := snprintf CMD_MAX (root +:+ guest) in
  good ← lstat_loop (slash_prefixes buf);
  match good with
  | false => mret None
  | true => a ← ask (Lstat buf); mret (if ok a then Some a else None)
  end.

Definition mirror_host_file (host dst : string) : jail Z :=
  r ← mkdir_parents dst;
  if negb (r =? 0) then mret (-1) else
  fd ← ask (OpenPlace dst);
  if a_ret fd <? 0 then mret (-1) else
  st ← ask (Fstat dst);
  if negb (ok st) || negb (is_type FReg st) then mret (-1) else
  m ← ask (Mount (Some host) dst None [MS_BIND] None);
  if negb (ok m) then mret (-1) else
  _ ← ask (Mount None dst None [MS_BIND; MS_REMOUNT; MS_RDONLY] None);
  mret 0.

(** Which host file is to appear in the jail, if any: the index of the guest
    in [argv] and its canonical path. *)
Definition choose_mirror (root : string) (argv : list string) : jail (option (nat * string)) :=
  match guest_path_index argv with
  | None => mret None
  | Some i =>
      r ← ask (Realpath (argv !!! i));
      if negb (ok r) then mret None else
      let guest_host := a_path r in
      let rl := String.length root in
      let inside := starts_with root guest_host && ((rl =? 1)%nat || slash_at rl guest_host) in
      if inside then mret None else
      ds ← prefix_lstat root guest_host;
      let present := match ds with Some d => is_type FReg d || is_type FLnk d | None => false end in
      let stale := match ds with Some d => present && is_type FReg d && (a_size d =? 0) | None => false end in
      if negb present || stale then
        hs ← ask (Stat guest_host);
        if ok hs && is_type FReg hs then mret (Some (i, guest_host)) else leave 126
      else mret None
  end.

(** ** Preparing the root *)

Definition jail_dirs : list string :=
  ["usr/libexec/macify"; "lib64"; "usr/lib"; "etc"; "proc"; "dev"; "tmp"; "home"; "run"]%string.

Fixpoint make_dirs (root : string) (dirs : list string) : jail unit :=
  match dirs with
  | [] => mret tt
  | d :: dirs =>
      a ← ask (System (snprintf CMD_MAX (mkdir_p (root +:+ "/" +:+ d))));
      if ok a then make_dirs root dirs else die
  end.

(** A copy the launcher cannot do without. *)
Definition must_copy (root src dst : string) : jail unit :=
  r ← copy_into root src dst; if r =? 0 then mret tt else die.

(** A copy made once. *)
Definition copy_once (must : bool) (root src dst : string) : jail unit :=
  there ← exists_in root dst;
  match there, must with
  | true, _ => mret tt
  | false, true => must_copy root src dst
  | false, false => _ ← copy_into root src dst; mret tt
  end.

Definition optional_libs : list (string * string) :=
  [("/usr/lib/libm.so.6", "usr/lib/libm.so.6"); ("/usr/lib/libdl.so.2", "usr/lib/libdl.so.2");
   ("/usr/lib/libpthread.so.0", "usr/lib/libpthread.so.0")]%string.

Fixpoint copy_libs (root : string) (libs : list (string * string)) : jail unit :=
  match libs with
  | [] => mret tt
  | (src, dst) :: libs => _ ← copy_once false root src dst; copy_libs root libs
  end.

Definition nsswitch : string :=
  lines ["passwd: files"; "group: files"; "shadow: files"; "hosts: files dns"; "networks: files"; "protocols: files";
         "services: files"; "ethers: files"; "rpc: files"]%string.

Definition prepare_jail (root : string) : jail unit :=
  a ← ask (System (snprintf CMD_MAX (mkdir_p root)));
  if negb (ok a) then die else
  _ ← make_dirs root jail_dirs;
  e ← ask (Readlink "/proc/self/exe");
  if a_ret e <=? 0 then die else
  match last_slash (a_path e) with
  | None => die
  | Some k =>
      let exe := stake k (a_path e) in
      _ ← must_copy root (snprintf PATH_MAX (exe +:+ "/macify")) "usr/libexec/macify/macify";
      _ ← must_copy root (snprintf PATH_MAX (exe +:+ "/libmacify_shim.so")) "usr/libexec/macify/libmacify_shim.so";
      _ ← copy_once true root "/usr/lib64/ld-linux-x86-64.so.2" "lib64/ld-linux-x86-64.so.2";
      _ ← copy_once true root "/usr/lib/libc.so.6" "usr/lib/libc.so.6";
      _ ← copy_libs root optional_libs;
      _ ← copy_once false root "/usr/lib/libnss_files.so.2" "usr/lib/libnss_files.so.2";
      _ ← copy_into root "/etc/resolv.conf" "etc/resolv.conf";
      _ ← copy_into root "/etc/hosts" "etc/hosts";
      let nss := snprintf PATH_MAX (root +:+ "/etc/nsswitch.conf") in
      n ← ask (Access nss false);
      if ok n then mret tt else
      f ← ask (OpenOut nss);
      if a_ret f <? 0 then mret tt else
      _ ← ask (Store nss (string_bytes nsswitch)); mret tt
  end.

(** A link to the host's /dev becomes a directory. *)
Definition ENOENT_jail : Z := 2.

Definition fix_dev (root : string) : jail unit :=
  let devdir := snprintf PATH_MAX (root +:+ "/dev") in
  l ← ask (Lstat devdir);
  if ok l && is_type FLnk l then
    u ← ask (Unlink devdir);
    if ok u then _ ← ask (Mkdir devdir); mret tt else mret tt
  else
    l ← ask (Lstat devdir);
    if negb (ok l) && (a_errno l =? ENOENT_jail) then _ ← ask (Mkdir devdir); mret tt else mret tt.

(** ** Namespaces and mounts *)

Definition write_ids (uid gid : Z) : jail unit :=
  _ ← ask (WriteProc "/proc/self/setgroups" "deny");
  _ ← ask (WriteProc "/proc/self/uid_map" ("0 " +:+ pretty uid +:+ " 1" +:+ nl));
  _ ← ask (WriteProc "/proc/self/gid_map" ("0 " +:+ pretty gid +:+ " 1" +:+ nl));
  mret tt.

Definition bind_data (root d : string) : jail unit :=
  st ← ask (Stat d);
  if negb (ok st) then mret tt else
  let dst := snprintf PATH_MAX (root +:+ d) in
  there ← ask (Stat dst);
  made ← (if ok there then mret true else m ← ask (Mkdir dst); mret (ok m));
  match made with
  | false => mret tt
  | true =>
      m ← ask (Mount (Some d) dst None [MS_BIND; MS_REC] None);
      if negb (ok m) then mret tt else
      _ ← ask (Mount None dst None [MS_BIND; MS_REMOUNT; MS_RDONLY] None); mret tt
  end.

Definition mirror_guest (root : string) (mirror : option (nat * string)) : jail unit :=
  match mirror with
  | None => mret tt
  | Some (_, host) =>
      r ← mirror_host_file host (snprintf CMD_MAX (root +:+ host));
      if r =? 0 then mret tt else leave 126
  end.

(** ** Home, devices, environment *)

Definition home_base (env : gmap string string) : string :=
  match env !! "HOME"%string with
  | Some h => match last_slash h with Some k => sdrop (S k) h | None => "user" end
  | None => "user"
  end.

Definition make_alias (root base : string) : jail unit :=
  let hp := snprintf PATH_MAX (root +:+ "/home/" +:+ base) in
  _ ← ask (System (snprintf CMD_MAX (mkdir_p hp)));
  let linkp := snprintf PATH_MAX (hp +:+ "/.macify") in
  _ ← ask (Unlink linkp);
  _ ← ask (Symlink "/" linkp);
  mret tt.

(** The table behind /dev/urandom and /dev/random; [rnd_addr] is its address. *)
Definition rnd_word (pid rnd_addr : Z) : Z :=
  let v := Z.lxor (u64 (Z.shiftl pid 32)) rnd_addr in
  let v := u64 (v * 0x9E3779B97F4A7C15) in
  Z.lxor v (Z.shiftr v 29).

Fixpoint rnd_bytes (n : nat) (pid rnd_addr : Z) : list Z :=
  match n with O => [] | S n => le_bytes 8 (rnd_word pid rnd_addr) ++ rnd_bytes n pid rnd_addr end.

Definition RND_SIZE : Z := 65536.

Definition put_device (p : string) (bs : list Z) : jail unit :=
  fd ← ask (OpenOut p); if a_ret fd <? 0 then mret tt else _ ← ask (Store p bs); mret tt.

Definition make_devices (root : string) (rnd_addr : Z) : jail unit :=
  pid ← ask Getpid;
  let rnd := rnd_bytes (Z.to_nat (RND_SIZE / 8)) (a_ret pid) rnd_addr in
  _ ← ask (OpenOut (snprintf PATH_MAX (root +:+ "/dev/null")));
  let zero := snprintf PATH_MAX (root +:+ "/dev/zero") in
  fd ← ask (OpenOut zero);
  _ ← (if a_ret fd <? 0 then mret tt else _ ← ask (Ftruncate zero RND_SIZE); mret tt);
  _ ← put_device (snprintf PATH_MAX (root +:+ "/dev/urandom")) rnd;
  put_device (snprintf PATH_MAX (root +:+ "/dev/random")) rnd.

Definition jailed_loader : string := "/usr/libexec/macify/macify".

Definition jail_env (base : string) (env : gmap string string) : gmap string string :=
  let env := <["MACIFY_JAIL_HOME"%string := snprintf 256 ("/home/" +:+ base)]> env in
  let env := <["MACIFY_JAILED"%string := "1"%string]> env in
  let env := <["MACIFY_PREFIX"%string := "/"%string]> env in
  let env := <["MACIFY_BINARY"%string := jailed_loader]> env in
  let env := <["LD_LIBRARY_PATH"%string := "/usr/libexec/macify"%string]> env in
  let env := <["PATH"%string := "/usr/bin:/bin:/usr/sbin:/sbin:/usr/local/bin"%string]> env in
  let env := delete "MACIFY_JAIL_ROOT"%string env in
  let env := delete "MACIFY_NO_JAIL"%string env in
  let home := match env !! "MACIFY_JAIL_HOME"%string with Some (String c s) => String c s | _ => "/home/user" end in
  let env := <["HOME"%string := home]> env in
  delete "MACIFY_JAIL_HOME"%string env.

Definition jail_argv (mirror : option (nat * string)) (argv : list string) : list string :=
  let argv := match mirror with Some (i, host) => <[i := host]> argv | None => argv end in
  tail (<[1%nat := jailed_loader]> argv).

(** ** [main] *)

(** Everything after the namespace is private to the launcher, up to the
    change of root. *)
Definition populate (root : string) (mirror : option (nat * string)) (base : string) (rnd_addr : Z) : jail unit :=
  _ ← ask (Mount (Some "tmpfs") (snprintf PATH_MAX (root +:+ "/dev")) (Some "tmpfs") [MS_NOSUID; MS_NODEV] (Some "mode=755"))%string;
  _ ← ask (Mount (Some "tmpfs") "/tmp" (Some "tmpfs") [MS_NOSUID; MS_NODEV] (Some "mode=1777"))%string;
  _ ← bind_data root "/usr/lib/locale";
  _ ← bind_data root "/usr/lib/gconv";
  _ ← mirror_guest root mirror;
  _ ← make_alias root base;
  make_devices root rnd_addr.

Definition enter_jail (root : string) : jail unit :=
  a ← ask (Chdir root); if negb (ok a) then die else
  a ← ask (Chroot "."); if negb (ok a) then die else
  a ← ask (Chdir "/"); if negb (ok a) then die else mret tt.

Definition find_root (env : gmap string string) : jail string :=
  let root := match env !! "MACIFY_JAIL_ROOT"%string with Some (String c s) => String c s | _ => "/homeless-shelter-no-root" end in
  rs ← ask (Stat root);
  if negb (ok rs) || negb (is_type FDir rs) then die else
  r ← ask (Realpath root);
  mret (if ok r then a_path r else root).

Definition new_namespace : jail unit :=
  uid ← ask Getuid;
  gid ← ask Getgid;
  u ← ask Unshare;
  if negb (ok u) then leave 126 else
  _ ← write_ids (u32 (a_ret uid)) (u32 (a_ret gid));
  m ← ask (Mount None "/" None [MS_REC; MS_PRIVATE] None);
  if negb (ok m) then die else mret tt.

(** [Ret] says that the loader runs in place of the launcher. *)
Definition jail_main (argv : list string) (env : gmap string string) (rnd_addr : Z) : jail unit :=
  if (length argv <? 2)%nat then leave 1 else
  root ← find_root env;
  mirror ← choose_mirror root argv;
  _ ← prepare_jail root;
  _ ← fix_dev root;
  _ ← new_namespace;
  _ ← populate root mirror (home_base env) rnd_addr;
  _ ← enter_jail root;
  e ← ask (Execv jailed_loader (jail_argv mirror argv) (jail_env (home_base env) env));
  if a_ret e <? 0 then leave 127 else mret tt.

End jail.

(** ** What a run asks *)

(** [emits P m]: every event [m] adds satisfies [P]. *)
Definition emits {A} (P : event -> Prop) (m : jail A) : Prop :=
  forall t, exists new, (m t).2 = new ++ t /\ Forall P new.

Lemma emits_ret {A} P (a : A) : emits P (mret a).
Proof. intros t. by exists []. Qed.

Lemma emits_leave {A} P code : emits P (leave (A := A) code).
Proof. intros t. by exists []. Qed.

Lemma emits_stuck {A} P : emits P (fun t => (Stuck (A := A), t)).
Proof. intros t. by exists []. Qed.

Lemma emits_bind {A B} P (m : jail A) (f : A -> jail B) : emits P m -> (forall a, emits P (f a)) -> emits P (m ≫= f).
Proof.
  intros Hm Hf t. destruct (Hm t) as (new & E & Hn). unfold mbind, jail_bind.
  destruct (m t) as [[a|c|] t'] eqn:Em; cbn in E; subst t'; [|eauto..].
  destruct (Hf a (new ++ t)) as (new' & -> & Hn'). exists (new' ++ new). by rewrite <- app_assoc, Forall_app.
Qed.

Lemma emits_ask (P : event -> Prop) kernel c : (forall a, P (c, a)) -> emits P (ask kernel c).
Proof. intros H t. exists [(c, kernel t c)]. split; [done|]. by repeat constructor. Qed.

Lemma emits_weaken {A} (P Q : event -> Prop) (m : jail A) : emits P m -> (forall e, P e -> Q e) -> emits Q m.
Proof. intros H HPQ t. destruct (H t) as (new & E & Hn). exists new. split; [done|]. by eapply Forall_impl. Qed.

Lemma emits_run {A} P (m : jail A) t o t' : emits P m -> m t = (o, t') -> exists new, t' = new ++ t /\ Forall P new.
Proof. intros H E. specialize (H t). by rewrite E in H. Qed.

Create HintDb emits.
#[export] Hint Resolve emits_ret emits_leave emits_stuck emits_bind : emits.

(** A command that makes a directory: [mkdir -p '<path>'], cut to the buffer. *)
Definition mkdir_command (cmd : string) : Prop :=
  exists p, cmd = snprintf CMD_MAX ("mkdir -p '" +:+ p +:+ "'").

(** Neither namespaces, mounts nor roots; no program but the shell that makes
    a directory. *)
Definition harmless (e : event) : Prop :=
  match e.1 with
  | Unshare | Mount _ _ _ _ _ | Chroot _ | Chdir _ | Execv _ _ _ => False
  | System cmd => mkdir_command cmd
  | _ => True
  end.

(** Mounts are made, and the root stays. *)
Definition staging (e : event) : Prop :=
  match e.1 with
  | Unshare | Chroot _ | Chdir _ | Execv _ _ _ => False
  | System cmd => mkdir_command cmd
  | _ => True
  end.

Lemma harmless_staging e : harmless e -> staging e.
Proof. destruct e as [[] a]; exact (fun H => H) || exact (fun _ => I). Qed.

Lemma mkdir_p_command p : mkdir_command (snprintf CMD_MAX (mkdir_p p)).
Proof. by exists p. Qed.

(** Goes through a program; the events are left. *)
Ltac emits :=
  repeat match goal with
  | |- emits _ (_ ≫= _) => apply emits_bind; [|intros]
  | |- emits _ (ask _ _) => apply emits_ask; intros; first [exact I|apply mkdir_p_command|idtac]
  | |- emits _ die => apply emits_leave
  | |- emits _ (fun _ => (Stuck, _)) => apply emits_stuck
  | |- emits _ (if ?b then _ else _) => destruct b
  | |- emits _ (match ?x with _ => _ end) => destruct x
  | |- emits _ (let _ := _ in _) => cbv zeta
  | |- _ => solve [eauto with emits]
  end.

Section traces.
Context (kernel : trace -> jail_call -> answer).

Lemma copy_into_harmless root src dst : emits harmless (copy_into kernel root src dst).
Proof. unfold copy_into. emits. Qed.

Lemma copy_once_harmless must root src dst : emits harmless (copy_once kernel must root src dst).
Proof. unfold copy_once, must_copy, exists_in. emits; apply copy_into_harmless. Qed.

Lemma make_dirs_harmless root dirs : emits harmless (make_dirs kernel root dirs).
Proof. induction dirs; cbn [make_dirs]; emits. Qed.

Lemma copy_libs_harmless root libs : emits harmless (copy_libs kernel root libs).
Proof. induction libs as [|[src dst] libs IH]; cbn [copy_libs]; emits. apply copy_once_harmless. Qed.

Hint Resolve copy_into_harmless copy_once_harmless make_dirs_harmless copy_libs_harmless : emits.

Lemma prepare_jail_harmless root : emits harmless (prepare_jail kernel root).
Proof. unfold prepare_jail, must_copy. emits. Qed.

Lemma lstat_loop_harmless ps : emits harmless (lstat_loop kernel ps).
Proof. induction ps; cbn [lstat_loop]; emits. Qed.

Lemma mkdir_loop_harmless ps : emits harmless (mkdir_loop kernel ps).
Proof. induction ps; cbn [mkdir_loop]; emits. Qed.

Hint Resolve lstat_loop_harmless mkdir_loop_harmless : emits.

Lemma choose_mirror_harmless root argv : emits harmless (choose_mirror kernel root argv).
Proof. unfold choose_mirror, prefix_lstat. emits. Qed.

Lemma fix_dev_harmless root : emits harmless (fix_dev kernel root).
Proof. unfold fix_dev. emits. Qed.

Lemma find_root_harmless env : emits harmless (find_root kernel env).
Proof. unfold find_root. emits. Qed.

Lemma populate_staging root mirror base addr : emits staging (populate kernel root mirror base addr).
Proof.
  assert (Hm : forall p, emits staging (mkdir_parents kernel p)).
  { intros p. unfold mkdir_parents. emits. eapply emits_weaken; [apply mkdir_loop_harmless|apply harmless_staging]. }
  unfold populate, bind_data, mirror_guest, mirror_host_file, make_alias, make_devices, put_device. emits; apply Hm.
Qed.
End traces.

(** ** Containment *)

Definition make_private : jail_call := Mount None "/" None [MS_REC; MS_PRIVATE] None.

Definition succeeded (c : jail_call) (t : trace) : Prop := exists a, (c, a) ∈ t /\ ok a = true.

(** The last three calls changed the root. *)
Definition just_entered (t : trace) : Prop :=
  exists root a1 a2 a3 t', t = (Chdir "/", a1) :: (Chroot ".", a2) :: (Chdir root, a3) :: t' /\
    ok a1 = true /\ ok a2 = true /\ ok a3 = true.

(** The root has not been changed, or asked to. *)
Definition outside (t : trace) : Prop :=
  Forall (fun e : event => match e.1 with Chroot _ => False | _ => True end) t.

(** What must have happened before a call. *)
Definition allowed (c : jail_call) (earlier : trace) : Prop :=
  match c with
  | Mount _ _ _ _ _ => succeeded Unshare earlier /\ (c = make_private \/ succeeded make_private earlier)
  | Chroot _ => succeeded Unshare earlier /\ succeeded make_private earlier
  | System cmd => mkdir_command cmd /\ outside earlier
  | Execv p _ e =>
      p = jailed_loader /\ just_entered earlier /\ succeeded Unshare earlier /\ succeeded make_private earlier /\
      e !! "MACIFY_JAILED"%string = Some "1"%string /\ e !! "MACIFY_PREFIX"%string = Some "/"%string /\
      e !! "MACIFY_JAIL_ROOT"%string = None /\ e !! "MACIFY_NO_JAIL"%string = None
  | _ => True
  end.

(** Every call of a run was allowed when it was made. *)
Fixpoint contained (t : trace) : Prop :=
  match t with [] => True | (c, a) :: t => allowed c t /\ contained t end.

Lemma succeeded_app c new t : succeeded c t -> succeeded c (new ++ t).
Proof. intros (a & Ha & Hok). exists a. split; [set_solver|done]. Qed.

Lemma outside_staging new t : Forall staging new -> outside t -> outside (new ++ t).
Proof.
  intros Hn Ht. apply Forall_app. split; [|done]. eapply Forall_impl; [exact Hn|]. by intros [[] a].
Qed.

Lemma outside_harmless new t : Forall harmless new -> outside t -> outside (new ++ t).
Proof. intros Hn. apply outside_staging. eapply Forall_impl; [exact Hn|apply harmless_staging]. Qed.

Lemma contained_harmless new t : outside t -> Forall harmless new -> contained t -> contained (new ++ t).
Proof.
  intros Ho. induction 1 as [|[[] a] new H Hn IH]; try done; intros Ht; (split; [|by apply IH]); try exact I.
  split; [exact H|by apply outside_harmless].
Qed.

Lemma contained_staging new t :
  outside t -> succeeded Unshare t -> succeeded make_private t -> Forall staging new -> contained t -> contained (new ++ t).
Proof.
  intros Ho Hu Hp. induction 1 as [|[[] a] new H Hn IH]; try done; intros Ht; (split; [|by apply IH]); try exact I.
  - split; [exact H|by apply outside_staging].
  - split; [by apply succeeded_app|right; by apply succeeded_app].
Qed.

Definition unshared (t : trace) : Prop := outside t /\ succeeded Unshare t.
Definition granted (t : trace) : Prop := succeeded Unshare t /\ succeeded make_private t.
Definition private (t : trace) : Prop := outside t /\ granted t.
Definition entered (t : trace) : Prop := granted t /\ just_entered t.

(** A triple: from a contained trace with [P], [m] stays contained and, when
    it returns, gives [Q]. *)
Definition triple {A} (P : trace -> Prop) (m : jail A) (Q : trace -> Prop) : Prop :=
  forall t, P t -> contained t -> contained (m t).2 /\ forall a, (m t).1 = Ret a -> Q (m t).2.

Lemma triple_bind {A B} P Q R (m : jail A) (f : A -> jail B) :
  triple P m Q -> (forall a, triple Q (f a) R) -> triple P (m ≫= f) R.
Proof.
  intros Hm Hf t Ht Hc. unfold mbind, jail_bind. specialize (Hm t Ht Hc) as [Hc' Hq].
  destruct (m t) as [[a|c|] t'] eqn:Em; cbn in *; [|done..]. apply Hf; eauto.
Qed.

Lemma triple_ret {A} (P : trace -> Prop) (a : A) : triple P (mret a) P.
Proof. intros t Ht Hc. done. Qed.

Lemma triple_leave {A} P Q code : triple P (leave (A := A) code) Q.
Proof. intros t Ht Hc. done. Qed.

Lemma triple_harmless {A} (P : trace -> Prop) (m : jail A) :
  emits harmless m -> (forall t, P t -> outside t) ->
  (forall new t, Forall harmless new -> P t -> P (new ++ t)) -> triple P m P.
Proof.
  intros H Ho HP t Ht Hc. destruct (H t) as (new & -> & Hn). split; [apply contained_harmless; auto|].
  intros a _. by apply HP.
Qed.

Lemma triple_staging {A} (m : jail A) : emits staging m -> triple private m private.
Proof.
  intros H t (Ho & Hu & Hp) Hc. destruct (H t) as (new & -> & Hn). split; [by apply contained_staging|].
  intros a _. split; [by apply outside_staging|]. split; by apply succeeded_app.
Qed.

(** A call whose failure ends the launcher. *)
Lemma triple_checked {A} kernel c (P Q R : trace -> Prop) (bad good : jail A) :
  (forall t, P t -> allowed c t) -> (forall t a, P t -> ok a = true -> Q ((c, a) :: t)) ->
  triple (fun _ => True) bad R -> triple Q good R ->
  triple P (a ← ask kernel c; if negb (ok a) then bad else good) R.
Proof.
  intros Hall HQ Hb Hg t Ht Hc. unfold mbind, jail_bind, ask.
  assert (Hc' : contained ((c, kernel t c) :: t)) by (split; [by apply Hall|done]).
  destruct (ok (kernel t c)) eqn:E; cbn [negb]; [apply Hg; auto|by apply Hb].
Qed.

Lemma new_namespace_private kernel : triple outside (new_namespace kernel) private.
Proof.
  unfold new_namespace.
  eapply (triple_bind _ outside); [apply triple_harmless; [emits|done|apply outside_harmless]|intros uid].
  eapply (triple_bind _ outside); [apply triple_harmless; [emits|done|apply outside_harmless]|intros gid].
  apply (triple_checked _ _ _ unshared).
  - done.
  - intros t a Ho Ha. split; [by constructor|]. exists a. split; [apply list_elem_of_here|done].
  - apply triple_leave.
  - eapply (triple_bind _ unshared).
    + apply triple_harmless; [unfold write_ids; emits|by intros t [? _]|].
      intros new t Hn [Ho Hu]. split; [by apply outside_harmless|by apply succeeded_app].
    + intros _. apply (triple_checked _ _ _ private).
      * intros t [Ho Hu]. split; [exact Hu|by left].
      * intros t a [Ho Hu] Ha. split; [by constructor|]. split; [by apply (succeeded_app _ [_])|].
        exists a. split; [apply list_elem_of_here|done].
      * apply triple_leave.
      * apply triple_ret.
Qed.

Lemma enter_jail_entered kernel root : triple private (enter_jail kernel root) entered.
Proof.
  assert (Hk : forall e t, granted t -> granted (e :: t)) by (intros e t [? ?]; split; by apply (succeeded_app _ [_])).
  unfold enter_jail.
  apply (triple_checked _ _ _ (fun t => granted t /\ exists a t', t = (Chdir root, a) :: t' /\ ok a = true)).
  { done. } { intros t a [_ Ht] Ha. split; [auto|eauto]. } { apply triple_leave. }
  apply (triple_checked _ _ _ (fun t => granted t /\ exists a1 a2 t', t = (Chroot ".", a1) :: (Chdir root, a2) :: t' /\ ok a1 = true /\ ok a2 = true)).
  { by intros t [Ht _]. } { intros t a [Ht (a2 & t' & -> & Ha2)] Ha. split; [auto|eauto 8]. } { apply triple_leave. }
  apply (triple_checked _ _ _ entered).
  { done. } { intros t a [Ht (a1 & a2 & t' & -> & Ha1 & Ha2)] Ha. split; [auto|]. unfold just_entered. eauto 12. } { apply triple_leave. }
  apply triple_ret.
Qed.

Lemma jail_env_spec base env :
  let e := jail_env base env in
  e !! "MACIFY_JAILED"%string = Some "1"%string /\ e !! "MACIFY_PREFIX"%string = Some "/"%string /\
  e !! "MACIFY_JAIL_ROOT"%string = None /\ e !! "MACIFY_NO_JAIL"%string = None /\
  e !! "MACIFY_JAIL_HOME"%string = None /\ e !! "HOME"%string = Some (snprintf 256 ("/home/" +:+ base)).
Proof. unfold jail_env. cbv zeta. repeat split; simplify_map_eq; done. Qed.

(** C24 (safety): However the system answers, the launcher mounts nothing before
    it has a mount namespace of its own whose mounts do not propagate; the one
    program it executes is the loader's copy, directly after the change of
    root has succeeded, in an environment that tells the loader it is jailed;
    and every command it gives to a shell, all before the change of root, is
    of the form [mkdir -p '<path>'] cut to 8191 bytes.  What the shell makes
    of a path with a quote in it is not covered: the root and the last part of
    HOME go in as they are. *)
Theorem jail_contains (kernel : trace -> jail_call -> answer) (argv : list string) (env : gmap string string) (rnd_addr : Z) :
  contained (jail_main kernel argv env rnd_addr []).2.
Proof.
  enough (H : triple outside (jail_main kernel argv env rnd_addr) (fun _ => True)) by (apply (H []); [constructor|done]).
  unfold jail_main. destruct (length argv <? 2)%nat; [apply triple_leave|].
  assert (Hh : forall A (m : jail A), emits harmless m -> triple outside m outside)
    by (intros; apply triple_harmless; [done..|apply outside_harmless]).
  eapply triple_bind; [apply Hh, find_root_harmless|intros root].
  eapply triple_bind; [apply Hh, choose_mirror_harmless|intros mirror].
  eapply triple_bind; [apply Hh, prepare_jail_harmless|intros _].
  eapply triple_bind; [apply Hh, fix_dev_harmless|intros _].
  eapply triple_bind; [apply new_namespace_private|intros _].
  eapply (triple_bind _ private); [apply triple_staging, populate_staging|intros _].
  eapply triple_bind; [apply enter_jail_entered|intros _].
  intros t [[Hu Hp] He] Hc. unfold mbind, jail_bind, ask.
  assert (Hc' : forall a, contained ((Execv jailed_loader (jail_argv mirror argv) (jail_env (home_base env) env), a) :: t)).
  { intros a. split; [|done]. destruct (jail_env_spec (home_base env) env) as (? & ? & ? & ? & _). by repeat split. }
  destruct (a_ret _ <? 0); split; try done; apply Hc'.
Qed.

(** ** The guest on the command line *)

(** A flag the loader goes past is one the launcher knows. *)
Lemma parse_flag a args v n v' n' u :
  starts_with "-" a = true -> streq a "--" = false -> parse_options (a :: args) v n = OptRun v' n' u ->
  a ∈ loader_flags /\ exists v1 n1, forall args', parse_options (a :: args') v n = parse_options args' v1 n1.
Proof.
  intros Ha Hd. cbn [parse_options]. rewrite Ha, Hd. cbn [negb]. unfold streq.
  repeat (case_bool_decide; subst; cbn [orb]; [intros _; split; [by apply (bool_decide_unpack _)|eexists _, _; intros args'; reflexivity]|]);
    repeat case_bool_decide; cbn [orb]; intros [=].
Qed.

Lemma guest_index_parse args : forall i v n v' n' u,
  parse_options args v n = OptRun v' n' u ->
  exists k, guest_index i args = Some (i + k)%nat /\ (k < length args)%nat /\ u = drop k args /\
    forall host, starts_with "/" host = true -> parse_options (<[k := host]> args) v n = OptRun v' n' (host :: drop (S k) args).
Proof.
  induction args as [|a args IH]; intros i v n v' n' u E; [done|].
  destruct (starts_with "-" a) eqn:Ea.
  2: { cbn [parse_options guest_index] in *. rewrite Ea in *. cbn [negb] in *. injection E as -> -> <-. exists O.
       repeat split; [by rewrite Nat.add_0_r|cbn; lia|]. intros host [h ->]%starts_with_spec. done. }
  destruct (streq a "--") eqn:Ed.
  - cbn [parse_options guest_index] in *. rewrite Ea, Ed in *. cbn [negb] in *. unfold streq in *.
    apply bool_decide_eq_true in Ed as ->. cbn in E. destruct args as [|b args]; [done|]. injection E as -> -> <-.
    exists 1%nat. repeat split; [f_equal; lia|cbn; lia].
  - destruct (parse_flag _ _ _ _ _ _ _ Ea Ed E) as (Hin & v1 & n1 & Hstep). rewrite Hstep in E.
    cbn [guest_index]. rewrite Ea, Ed, (bool_decide_eq_true_2 _ Hin). cbn [negb].
    destruct (IH (S i) v1 n1 v' n' u E) as (k & -> & Hk & -> & Hh). exists (S k).
    split; [f_equal; lia|]. split; [cbn; lia|]. split; [done|]. intros host Hs.
    change (<[S k:=host]> (a :: args)) with (a :: <[k:=host]> args). by rewrite Hstep, (Hh host Hs).
Qed.

(** C26 (equivalence): Whenever the loader's own option loop would run a program,
    the launcher finds the same argument in its scan; and the loader that runs
    in the jail, whose arguments the launcher rewrites, runs the program at
    the mirrored path, with the same options and the same further arguments. *)
Theorem jailed_loader_runs_the_guest (argv u : list string) (v n v' n' : bool) :
  parse_options (drop 2 argv) v n = OptRun v' n' u ->
  exists i, guest_path_index argv = Some i /\ u = drop i argv /\
    parse_options (tail (jail_argv None argv)) v n = OptRun v' n' u /\
    forall host, starts_with "/" host = true ->
      parse_options (tail (jail_argv (Some (i, host)) argv)) v n = OptRun v' n' (host :: tail u).
Proof.
  intros E. destruct (guest_index_parse _ 2 _ _ _ _ _ E) as (k & Hi & Hk & Hu & Hh). exists (2 + k)%nat.
  destruct argv as [|a0 [|a1 args]]; [cbn in Hk; lia..|]. cbn [drop] in *. subst u.
  split; [exact Hi|]. split; [done|]. split; [exact E|]. intros host Hs.
  change (tail (jail_argv (Some ((2 + k)%nat, host)) (a0 :: a1 :: args))) with (<[k := host]> (drop 0 args)).
  rewrite (Hh host Hs). f_equal. f_equal. rewrite drop_0. clear. revert k. by induction args as [|b args IH]; intros [|k]; cbn.
Qed.

(** ** Links *)

Lemma slash_prefixes_from_spec s : forall pre p,
  p ∈ slash_prefixes_from pre s <-> exists q rest, s = q +:+ "/" +:+ rest /\ p = pre +:+ q.
Proof.
  induction s as [|c s IH]; intros pre p; cbn [slash_prefixes_from].
  - split; [by intros ?%elem_of_nil|]. intros ([|] & rest & E & _); done.
  - rewrite elem_of_app, IH. split.
    + intros [H|(q & rest & -> & ->)].
      * destruct (Ascii.eqb_spec c slash) as [->|]; [|by apply elem_of_nil in H]. apply list_elem_of_singleton in H as ->.
        exists EmptyString, s. split; [done|]. by rewrite string_app_nil_r.
      * exists (String c q), rest. split; [done|]. by rewrite string_app_assoc.
    + intros ([|d q] & rest & E & ->).
      * injection E as -> ->. left. rewrite string_app_nil_r. by apply list_elem_of_singleton.
      * injection E as -> ->. right. exists q, rest. split; [done|]. by rewrite string_app_assoc.
Qed.

(** The directories above a path. *)
Lemma slash_prefixes_spec s p : p ∈ slash_prefixes s <-> p <> EmptyString /\ exists rest, s = p +:+ "/" +:+ rest.
Proof.
  destruct s as [|c s]; cbn [slash_prefixes].
  - split; [by intros ?%elem_of_nil|]. intros [Hp (rest & E)]. by destruct p.
  - rewrite slash_prefixes_from_spec. split.
    + intros (q & rest & -> & ->). split; [done|]. by exists rest.
    + intros [Hp (rest & E)]. destruct p as [|d p]; [done|]. injection E as -> ->. eauto.
Qed.

(** [p] was seen to be there and to be no link, or was made. *)
Definition checked (p : string) (t : trace) : Prop :=
  exists a, ((Lstat p, a) ∈ t /\ ok a = true /\ is_type FLnk a = false) \/ ((Mkdir p, a) ∈ t /\ ok a = true).

Lemma checked_app p new t : checked p t -> checked p (new ++ t).
Proof. intros (a & [[H ?]|[H ?]]); exists a; [left|right]; (split; [set_solver|done]). Qed.

Lemma checked_cons p e t : checked p t -> checked p (e :: t).
Proof. apply (checked_app _ [e]). Qed.

(** Every directory is made below ones that were checked. *)
Definition made_below (ps : list string) (t : trace) : Prop :=
  forall l p a e, t = l ++ (Mkdir p, a) :: e -> exists k, ps !! k = Some p /\ Forall (fun q => checked q e) (take k ps).

Lemma mkdir_loop_checks kernel ps : forall done t,
  Forall (fun p => checked p t) done -> made_below (done ++ ps) t ->
  let '(o, t') := mkdir_loop kernel ps t in
  made_below (done ++ ps) t' /\ (o = Ret 0 -> Forall (fun p => checked p t') (done ++ ps)).
Proof.
  assert (Hnew : forall c a ps t, made_below ps t -> (forall p, c <> Mkdir p) -> made_below ps ((c, a) :: t)).
  { intros c a ps' t H Hc [|e l] p b e' E; [injection E as -> _ _; by destruct (Hc p)|]. injection E as _ ->. by eapply H. }
  induction ps as [|p ps IH]; intros done t Hd Hm; cbn [mkdir_loop].
  - rewrite app_nil_r in *. split; [done|auto].
  - assert (Hmono : forall e, Forall (fun p => checked p (e :: t)) done)
      by (intros e; eapply Forall_impl; [exact Hd|]; intros q Hq; by apply checked_cons).
    unfold mbind, jail_bind, ask at 1. set (a := kernel t (Lstat p)).
    assert (Hm1 : made_below (done ++ p :: ps) ((Lstat p, a) :: t)) by (by apply Hnew).
    assert (Hgo : forall t1, made_below (done ++ p :: ps) t1 -> Forall (fun q => checked q t1) done -> checked p t1 ->
      let '(o, t') := mkdir_loop kernel ps t1 in
      made_below (done ++ p :: ps) t' /\ (o = Ret 0 -> Forall (fun p0 => checked p0 t') (done ++ p :: ps))).
    { intros t1 H1 H2 H3. specialize (IH (done ++ [p]) t1). rewrite <- app_assoc in IH. apply IH; [|done].
      apply Forall_app. by repeat constructor. }
    destruct (ok a) eqn:Ha; [destruct (is_type FLnk a) eqn:El|].
    + split; [done|by intros [=]].
    + apply Hgo; [done|auto|]. exists a. left. split; [apply list_elem_of_here|done].
    + unfold ask. set (b := kernel _ (Mkdir p)).
      assert (Hm2 : made_below (done ++ p :: ps) ((Mkdir p, b) :: (Lstat p, a) :: t)).
      { intros [|e l] p' b' e' E; [|injection E as _ E; by eapply Hm1]. injection E as <- _ <-. exists (length done).
        rewrite lookup_app_r, Nat.sub_diag by done. split; [done|]. by rewrite take_app_length. }
      destruct (ok b) eqn:Hb; [|split; [done|by intros [=]]].
      apply Hgo; [done| |].
      * eapply Forall_impl; [apply (Hmono (Lstat p, a))|]. intros q Hq. by apply checked_cons.
      * exists b. right. split; [apply list_elem_of_here|done].
Qed.

(** The directory part and its own directories are those above the path. *)
Lemma slash_prefixes_last s : forall pre,
  slash_prefixes_from pre s =
  match last_slash s with Some k => slash_prefixes_from pre (stake k s) ++ [pre +:+ stake k s] | None => [] end.
Proof.
  induction s as [|c s IH]; intros pre; cbn [slash_prefixes_from last_slash]; [done|]. rewrite IH.
  destruct (last_slash s) as [k|]; cbn [stake slash_prefixes_from].
  - by rewrite <- app_assoc, string_app_assoc.
  - destruct (Ascii.eqb c slash); cbn [stake slash_prefixes_from app]; [by rewrite string_app_nil_r|done].
Qed.

Lemma mkdir_parents_above kernel path :
  mkdir_parents kernel path = mkdir_loop kernel (slash_prefixes (snprintf CMD_MAX path)).
Proof.
  unfold mkdir_parents, buf_dir. cbv zeta. destruct (snprintf CMD_MAX path) as [|c s]; [done|]. cbn [last_slash slash_prefixes].
  rewrite slash_prefixes_last. destruct (last_slash s) as [k|]; cbn [stake]; [|by destruct (Ascii.eqb c slash)]. done.
Qed.

(** They come in the order of their lengths. *)
Lemma slash_prefixes_from_sorted s : forall pre,
  StronglySorted (fun p q => String.length p < String.length q)%nat (slash_prefixes_from pre s) /\
  Forall (fun p => String.length pre <= String.length p)%nat (slash_prefixes_from pre s).
Proof.
  induction s as [|c s IH]; intros pre; cbn [slash_prefixes_from]; [split; constructor|].
  destruct (IH (pre +:+ String c EmptyString)) as [Hs Hf].
  assert (Hf' : Forall (fun p => String.length pre < String.length p)%nat (slash_prefixes_from (pre +:+ String c EmptyString) s)).
  { eapply Forall_impl; [exact Hf|]. intros p. rewrite string_length_app. cbn. lia. }
  destruct (Ascii.eqb c slash); cbn [app]; split; try done.
  - by constructor.
  - constructor; [lia|]. eapply Forall_impl; [exact Hf'|]. intros p Hp. cbn in Hp. lia.
  - eapply Forall_impl; [exact Hf'|]. intros p Hp. cbn in Hp. lia.
Qed.

Lemma slash_prefixes_order s k p q :
  slash_prefixes s !! k = Some p -> q ∈ slash_prefixes s -> (String.length q < String.length p)%nat -> q ∈ take k (slash_prefixes s).
Proof.
  intros Hk [j Hj]%list_elem_of_lookup Hlt. apply list_elem_of_lookup. exists j. rewrite lookup_take_lt; [done|].
  assert (Hs : StronglySorted (fun p q => String.length p < String.length q)%nat (slash_prefixes s)).
  { destruct s as [|c s]; [constructor|]. apply slash_prefixes_from_sorted. }
  revert k j Hk Hj. induction Hs as [|x l Hs IH Hx]; intros [|k] [|j] Hk Hj; cbn in *; try done; simplify_eq; try lia.
  - rewrite Forall_lookup in Hx. specialize (Hx _ _ Hj). cbn in Hx. lia.
  - specialize (IH k j Hk Hj). lia.
Qed.

(** [q] is a directory above [p]. *)
Definition above (q p : string) : Prop := q <> EmptyString /\ exists rest, p = q +:+ "/" +:+ rest.

Lemma above_length q p : above q p -> (String.length q < String.length p)%nat.
Proof. intros [_ [r ->]]. rewrite !string_length_app. cbn. lia. Qed.

Lemma above_trans q p r : above q p -> above p r -> above q r.
Proof. intros [Hq [a ->]] [_ [b ->]]. split; [done|]. exists (a +:+ "/" +:+ b). by rewrite !string_app_assoc. Qed.

Lemma above_prefixes s q : q ∈ slash_prefixes s <-> above q s.
Proof. apply slash_prefixes_spec. Qed.

Lemma made_below_above s t l p a e :
  made_below (slash_prefixes s) t -> t = l ++ (Mkdir p, a) :: e -> above p s /\ forall q, above q p -> checked q e.
Proof.
  intros H E. destruct (H _ _ _ _ E) as (k & Hk & Hf). assert (Hp : above p s).
  { apply above_prefixes, list_elem_of_lookup. by exists k. }
  split; [done|]. intros q Hq. rewrite Forall_forall in Hf. apply Hf.
  eapply slash_prefixes_order; [done| |by apply above_length]. by apply above_prefixes, (above_trans q p s).
Qed.

(** What must have been seen before a call of the mirroring. *)
Definition seen_before (host dst : string) (c : jail_call) (earlier : trace) : Prop :=
  match c with
  | Mkdir p => above p dst /\ forall q, above q p -> checked q earlier
  | Mount src d _ _ _ => d = dst /\ (forall s, src = Some s -> s = host) /\ forall q, above q dst -> checked q earlier
  | _ => True
  end.

(** C25 (safety): Mirroring a host file follows no link on its way into the
    prefix: a directory is made only where all directories above it were seen
    not to be links, or were made, and the file is mounted only when that holds
    of all directories above its place; nothing else is mounted, and nothing
    anywhere else. *)
Theorem mirror_follows_no_link (kernel : trace -> jail_call -> answer) (host dst : string) :
  (String.length dst < CMD_MAX)%nat ->
  forall l c a e, (mirror_host_file kernel host dst []).2 = l ++ (c, a) :: e -> seen_before host dst c e.
Proof.
  intros Hlen. set (placed := fun t : trace => forall l c a e, t = l ++ (c, a) :: e -> seen_before host dst c e).
  assert (Hcons : forall c a e, seen_before host dst c e -> placed e -> placed ((c, a) :: e)).
  { intros c a e Hc He [|x l] c' a' e' E; [by injection E as <- _ <-|]. injection E as _ ->. by eapply He. }
  change (placed (mirror_host_file kernel host dst []).2). unfold mirror_host_file. rewrite mkdir_parents_above.
  unfold snprintf. rewrite stake_all by lia.
  pose proof (mkdir_loop_checks kernel (slash_prefixes dst) [] [] (List.Forall_nil _)) as Hloop. cbn [app] in Hloop.
  specialize (Hloop ltac:(intros [] ? ? ? [=])).
  destruct (emits_run harmless _ [] _ _ (mkdir_loop_harmless kernel (slash_prefixes dst)) (surjective_pairing _)) as (new & E & Hh).
  unfold mbind at 1, jail_bind at 1. destruct (mkdir_loop kernel (slash_prefixes dst) []) as [o t].
  cbn [fst snd] in E. rewrite app_nil_r in E. subst new. destruct Hloop as [Hm Hall].
  assert (Hp : placed t).
  { intros l c a e ->. apply Forall_app in Hh as [_ Hh]. inversion Hh as [|? ? Hc _]. destruct c; try exact I; [|done].
    by eapply made_below_above. }
  destruct o as [r|code|]; [|exact Hp..]. destruct (Z.eqb_spec r 0) as [-> |]; cbn [negb]; [|exact Hp].
  assert (Hck : forall q, above q dst -> checked q t).
  { intros q Hq. specialize (Hall eq_refl). rewrite Forall_forall in Hall.
    by apply Hall, above_prefixes. }
  unfold mbind, jail_bind, ask.
  repeat match goal with
  | |- placed (match (if ?b then _ else _) _ with _ => _ end).2 => destruct b
  | |- placed ((if ?b then _ else _) _).2 => destruct b
  | |- placed ((_, _) :: _) => apply Hcons
  | |- placed _ => exact Hp
  | |- placed _ => progress cbn [snd mret jail_ret]
  end; cbn [seen_before]; try exact I.
  all: split; [done|]; split; [by intros s [=]|]; intros q Hq; repeat apply checked_cons; by apply Hck.
Qed.

(** ** Which file runs *)

Section static.
(** A file system that does not change while the launcher looks. *)
Context (f : jail_call -> answer).

Definition real_dir (p : string) : bool := ok (f (Lstat p)) && negb (is_type FLnk (f (Lstat p))).

(** The prefix has a file of its own at the path. *)
Definition own_file (path : string) : bool :=
  let a := f (Lstat path) in
  forallb real_dir (slash_prefixes path) && ok a && (is_type FLnk a || (is_type FReg a && negb (a_size a =? 0))).

Lemma lstat_loop_static ps : forall t, (lstat_loop (fun _ => f) ps t).1 = Ret (forallb real_dir ps).
Proof.
  induction ps as [|p ps IH]; intros t; cbn [lstat_loop forallb]; [done|]. unfold mbind, jail_bind, ask, real_dir at 1.
  destruct (ok (f (Lstat p))); cbn [negb orb andb]; [|done]. destruct (is_type FLnk _); cbn [negb andb]; [done|apply IH].
Qed.

(** For a program outside the prefix, the jail shows the
    prefix's own file where there is one, reached through no link and not an
    empty placeholder; otherwise the host's file is mirrored, and the launcher
    gives up with 126 when that is no regular file. *)
Theorem choose_mirror_spec (root g : string) (argv : list string) (i : nat) (t : trace) :
  guest_path_index argv = Some i -> ok (f (Realpath (argv !!! i))) = true -> a_path (f (Realpath (argv !!! i))) = g ->
  (1 < String.length root)%nat -> (String.length (root +:+ g) < CMD_MAX)%nat -> ~ within root g \/ g = root ->
  (choose_mirror (fun _ => f) root argv t).1 =
    if own_file (root +:+ g) then Ret None
    else if ok (f (Stat g)) && is_type FReg (f (Stat g)) then Ret (Some (i, g)) else Exit 126.
Proof.
  intros Hi Hok Hg Hr Hl Hw. unfold choose_mirror. rewrite Hi. unfold mbind at 1, jail_bind at 1, ask at 1. cbv beta iota.
  rewrite Hok. cbn [negb]. cbv zeta. rewrite Hg, (proj2 (Nat.eqb_neq _ _)) by lia. cbn [orb].
  assert (Hin : starts_with root g && slash_at (String.length root) g = false).
  { apply not_true_is_false. intros [[s ->]%starts_with_spec Hs]%andb_true_iff. apply slash_at_app in Hs as [r ->].
    destruct Hw as [Hw|Hw]; [apply Hw; right; eauto|]. apply (f_equal String.length) in Hw. rewrite !string_length_app in Hw. cbn in Hw. lia. }
  rewrite Hin. unfold prefix_lstat, own_file. cbv zeta. unfold snprintf. rewrite stake_all by lia.
  unfold mbind, jail_bind. match goal with |- context [lstat_loop _ _ ?u] => pose proof (lstat_loop_static (slash_prefixes (root +:+ g)) u) as Hloop;
    destruct (lstat_loop _ _ u) as [o u'] end. cbn [fst] in Hloop. subst o.
  destruct (forallb real_dir _); cbn [andb]; unfold ask; cbv beta iota; cbn [mret jail_ret].
  - destruct (ok (f (Lstat _))); cbn [andb negb orb]; [|by destruct (ok _ && _)].
    destruct (is_type FReg (f (Lstat _))) eqn:Er, (is_type FLnk (f (Lstat _))) eqn:El; cbn [andb negb orb];
      try (by destruct (ok _ && _)); [| |done].
    + by destruct (f (Lstat (root +:+ g))) as [? ? []].
    + destruct (a_size _ =? 0); cbn [negb]; [by destruct (ok _ && _)|done].
  - by destruct (ok _ && _).
Qed.
End static.

(** ** A run that reaches the loader *)

Definition returns {A} (m : jail A) : Prop := forall t, exists a, (m t).1 = Ret a.

Lemma returns_bind {A B} (m : jail A) (g : A -> jail B) : returns m -> (forall a, returns (g a)) -> returns (m ≫= g).
Proof.
  intros Hm Hg t. unfold mbind, jail_bind. destruct (Hm t) as [a Ha]. destruct (m t) as [o t']. cbn in Ha. subst o. apply Hg.
Qed.

Lemma returns_ret {A} (a : A) : returns (mret a).
Proof. intros t. by exists a. Qed.

Lemma returns_ask_only kernel c : returns (ask kernel c).
Proof. intros t. by eexists. Qed.

Lemma returns_ask {A} kernel c (g : answer -> jail A) :
  (forall t, returns (g (kernel t c))) -> returns (ask kernel c ≫= g).
Proof. intros Hg t. unfold mbind, jail_bind, ask. apply Hg. Qed.

(** Goes through a program, up to the checks. *)
Ltac returns :=
  repeat match goal with
  | |- returns (ask _ _ ≫= _) => apply returns_ask; intros
  | |- returns (ask _ _) => apply returns_ask_only
  | |- returns (_ ≫= _) => apply returns_bind; [|intros]
  | |- returns (mret _) => apply returns_ret
  | |- returns (let _ := _ in _) => cbv zeta
  end.

(** A system on which every step the launcher cannot do without succeeds. *)
Record helpful (kernel : trace -> jail_call -> answer) (env : gmap string string) (argv : list string) : Prop := {
  hp_system t cmd : ok (kernel t (System cmd)) = true;
  hp_exe t : 0 < a_ret (kernel t (Readlink "/proc/self/exe")) /\ last_slash (a_path (kernel t (Readlink "/proc/self/exe"))) <> None;
  hp_in t p : 0 <= a_ret (kernel t (OpenIn p)) /\ reads_to_end (a_reads (kernel t (OpenIn p)));
  hp_reg t p : ok (kernel t (Fstat p)) = true /\ is_type FReg (kernel t (Fstat p)) = true;
  hp_out t p : 0 <= a_ret (kernel t (OpenOut p)) /\ forall k, 0 < a_writes (kernel t (OpenOut p)) k;
  hp_place t p : 0 <= a_ret (kernel t (OpenPlace p));
  hp_dir t p : p = match env !! "MACIFY_JAIL_ROOT"%string with Some (String c s) => String c s | _ => "/homeless-shelter-no-root"%string end ->
    ok (kernel t (Stat p)) = true /\ is_type FDir (kernel t (Stat p)) = true;
  hp_guest i t t' : guest_path_index argv = Some i -> let g := a_path (kernel t (Realpath (argv !!! i))) in
    ok (kernel t' (Stat g)) = true /\ is_type FReg (kernel t' (Stat g)) = true;
  hp_nolink t p : is_type FLnk (kernel t (Lstat p)) = false;
  hp_mkdir t p : ok (kernel t (Mkdir p)) = true;
  hp_unshare t : ok (kernel t Unshare) = true;
  hp_mount t src dst ft fl da : ok (kernel t (Mount src dst ft fl da)) = true;
  hp_chdir t p : ok (kernel t (Chdir p)) = true;
  hp_chroot t p : ok (kernel t (Chroot p)) = true;
  hp_exec t p args e : 0 <= a_ret (kernel t (Execv p args e))
}.

Section helpful.
Context (kernel : trace -> jail_call -> answer) (env : gmap string string) (argv : list string) (Hk : helpful kernel env argv).

Lemma write_all_good writes fuel : (forall k, 0 < writes k) -> forall k buf out,
  (length buf <= fuel)%nat -> exists out' k', write_all fuel writes k buf out = Ok (true, out', k').
Proof.
  intros Hw. induction fuel as [|fuel IH]; intros k [|b buf] out Hl; cbn [write_all]; cbv zeta; eauto; [cbn in Hl; lia|].
  specialize (Hw k). rewrite (proj2 (Z.leb_gt _ _)) by lia. apply IH. rewrite length_drop. cbn [length] in *. lia.
Qed.

Lemma into_loop_good reads writes : (forall k, 0 < writes k) -> reads_to_end reads ->
  forall k out, exists out', into_loop reads writes k out = Ok (Copied, out').
Proof.
  intros Hw. induction reads as [|[[|b buf]|] reads IH]; intros Hr k out; cbn [into_loop reads_to_end] in *; try done; eauto.
  destruct (write_all_good writes (length (b :: buf)) Hw k (b :: buf) out) as (out' & k' & ->); [done|]. cbn. by apply IH.
Qed.

Lemma copy_into_good root src dst : forall t, (copy_into kernel root src dst t).1 = Ret 0.
Proof.
  intros t. unfold copy_into, mbind, jail_bind, ask. cbv zeta.
  destruct (hp_in _ _ _ Hk t (if starts_with "/" src then snprintf PATH_MAX src else snprintf PATH_MAX (root +:+ "/" +:+ src))) as [Hin Hre].
  rewrite (proj2 (Z.ltb_ge _ _)) by lia. match goal with |- context [kernel ?u (Fstat ?p)] => destruct (hp_reg _ _ _ Hk u p) as [-> ->] end.
  cbn [negb orb]. destruct (last_slash _); rewrite ?(hp_system _ _ _ Hk); cbn [mret jail_ret];
  match goal with |- context [kernel ?u (OpenOut ?p)] => destruct (hp_out _ _ _ Hk u p) as [Ho Hw] end;
  rewrite (proj2 (Z.ltb_ge _ _)) by lia; match goal with |- context [into_loop _ _ _ _] => destruct (into_loop_good _ _ Hw Hre 0 []) as [out ->] end; done.
Qed.

Lemma copy_into_returns root src dst : returns (copy_into kernel root src dst).
Proof. intros t. rewrite copy_into_good. eauto. Qed.

Lemma must_copy_returns root src dst : returns (must_copy kernel root src dst).
Proof.
  intros t. unfold must_copy, mbind, jail_bind. pose proof (copy_into_good root src dst t) as E.
  destruct (copy_into kernel root src dst t) as [o t']. cbn in E. subst o. cbn. eauto.
Qed.

Lemma copy_once_returns must root src dst : returns (copy_once kernel must root src dst).
Proof.
  unfold copy_once, exists_in. apply returns_bind; [returns|]. intros [|]; [returns|].
  destruct must; [apply must_copy_returns|]. apply returns_bind; [apply copy_into_returns|intros; returns].
Qed.

Lemma make_dirs_returns root dirs : returns (make_dirs kernel root dirs).
Proof. induction dirs as [|d dirs IH]; cbn [make_dirs]; returns. by rewrite (hp_system _ _ _ Hk). Qed.

Lemma copy_libs_returns root libs : returns (copy_libs kernel root libs).
Proof. induction libs as [|[src dst] libs IH]; cbn [copy_libs]; returns; [apply copy_once_returns|done]. Qed.

Lemma prepare_jail_returns root : returns (prepare_jail kernel root).
Proof.
  unfold prepare_jail. apply returns_ask. intros t. rewrite (hp_system _ _ _ Hk). cbn [negb].
  apply returns_bind; [apply make_dirs_returns|intros _]. apply returns_ask. clear t. intros t.
  destruct (hp_exe _ _ _ Hk t) as [Hr Hl]. rewrite (proj2 (Z.leb_gt _ _)) by lia. destruct (last_slash _); [|done].
  repeat (apply returns_bind; [first [apply must_copy_returns|apply copy_once_returns|apply copy_libs_returns|apply copy_into_returns]|intros _]).
  cbv zeta. apply returns_ask. intros t'. destruct (ok _); [returns|]. apply returns_ask. intros t2.
  destruct (a_ret _ <? 0); returns.
Qed.

Lemma fix_dev_returns root : returns (fix_dev kernel root).
Proof.
  unfold fix_dev. apply returns_ask. intros t.
  destruct (_ && _); (apply returns_ask; intros t'; match goal with |- returns (if ?b then _ else _) => destruct b end; returns).
Qed.

Lemma find_root_returns : returns (find_root kernel env).
Proof.
  unfold find_root. cbv zeta. apply returns_ask. intros t. destruct (hp_dir _ _ _ Hk t _ eq_refl) as [-> ->]. cbn [negb orb]. returns.
Qed.

Lemma lstat_loop_returns ps : returns (lstat_loop kernel ps).
Proof.
  induction ps as [|p ps IH]; cbn [lstat_loop]; [returns|]. apply returns_ask. intros t.
  destruct (negb _ || _); [returns|exact IH].
Qed.

(** The mirror, if there is one, is of the guest. *)
Lemma choose_mirror_returns root : forall t, exists mirror, (choose_mirror kernel root argv t).1 = Ret mirror /\
  forall i g, mirror = Some (i, g) -> guest_path_index argv = Some i.
Proof.
  intros t. unfold choose_mirror. destruct (guest_path_index argv) as [i|] eqn:Ei; [|by exists None].
  unfold mbind at 1, jail_bind at 1, ask at 1. destruct (ok _); cbn [negb]; [|by exists None]. cbv zeta.
  destruct (_ && (_ || _)); [by exists None|].
  assert (Hpl : returns (prefix_lstat kernel root (a_path (kernel t (Realpath (argv !!! i)))))).
  { unfold prefix_lstat. returns; [apply lstat_loop_returns|]. match goal with |- returns (match ?b with _ => _ end) => destruct b end; returns. }
  unfold mbind at 1, jail_bind at 1. specialize (Hpl ((Realpath (argv !!! i), kernel t (Realpath (argv !!! i))) :: t)) as [d Hd].
  destruct (prefix_lstat _ _ _ _) as [o t']. cbn in Hd. subst o.
  destruct (negb _ || _); [|by exists None]. unfold mbind, jail_bind, ask.
  destruct (hp_guest _ _ _ Hk i t t' Ei) as [-> ->]. cbn. eexists. split; [done|]. congruence.
Qed.

Lemma new_namespace_returns : returns (new_namespace kernel).
Proof.
  unfold new_namespace, write_ids. returns. rewrite (hp_unshare _ _ _ Hk). cbn [negb]. returns.
  rewrite (hp_mount _ _ _ Hk). cbn [negb]. returns.
Qed.

Lemma bind_data_returns root d : returns (bind_data kernel root d).
Proof.
  unfold bind_data. apply returns_ask. intros t. destruct (ok _); cbn [negb]; [|returns]. cbv zeta. apply returns_ask. intros t2.
  apply returns_bind; [destruct (ok _); returns|]. intros [|]; [|returns]. apply returns_ask. intros t3.
  destruct (ok _); cbn [negb]; returns.
Qed.

Lemma mkdir_loop_good ps : forall t, (mkdir_loop kernel ps t).1 = Ret 0.
Proof.
  induction ps as [|p ps IH]; intros t; cbn [mkdir_loop]; [done|]. unfold mbind, jail_bind, ask.
  rewrite (hp_nolink _ _ _ Hk). destruct (ok _); [apply IH|]. rewrite (hp_mkdir _ _ _ Hk). apply IH.
Qed.

Lemma mirror_guest_returns root mirror : returns (mirror_guest kernel root mirror).
Proof.
  destruct mirror as [[i host]|]; cbn [mirror_guest]; [|returns]. intros t. unfold mirror_host_file. rewrite mkdir_parents_above.
  unfold mbind, jail_bind. match goal with |- context [mkdir_loop kernel ?ps t] => pose proof (mkdir_loop_good ps t) as E; destruct (mkdir_loop kernel ps t) as [o t'] end.
  cbn in E. subst o. cbn [negb Z.eqb]. unfold ask. rewrite (proj2 (Z.ltb_ge _ _)) by apply (hp_place _ _ _ Hk).
  match goal with |- context [kernel ?u (Fstat ?p)] => destruct (hp_reg _ _ _ Hk u p) as [-> ->] end. cbn [negb orb].
  rewrite (hp_mount _ _ _ Hk). cbn. eauto.
Qed.

Lemma put_device_returns p bs : returns (put_device kernel p bs).
Proof. unfold put_device. apply returns_ask. intros t. destruct (_ <? 0); returns. Qed.

Lemma populate_returns root mirror base addr : returns (populate kernel root mirror base addr).
Proof.
  unfold populate, make_alias, make_devices. returns; try apply bind_data_returns; try apply mirror_guest_returns; try apply put_device_returns.
  match goal with |- returns (if ?b then _ else _) => destruct b end; returns.
Qed.

Lemma enter_jail_returns root : returns (enter_jail kernel root).
Proof.
  unfold enter_jail. apply returns_ask. intros. rewrite (hp_chdir _ _ _ Hk). cbn [negb]. apply returns_ask. intros.
  rewrite (hp_chroot _ _ _ Hk). cbn [negb]. apply returns_ask. intros. rewrite (hp_chdir _ _ _ Hk). cbn [negb]. returns.
Qed.

Lemma returns_step {A B} (m : jail A) (g : A -> jail B) t : returns m -> exists a t', (m ≫= g) t = g a t'.
Proof. intros Hm. unfold mbind, jail_bind. destruct (Hm t) as [a Ha]. destruct (m t) as [o t']. cbn in Ha. subst o. eauto. Qed.

(** Runs the next part of a program. *)
Ltac run_next H a t :=
  match goal with |- context [(?m ≫= ?g) ?t0] =>
    let E := fresh in assert (E : returns m) by apply H; destruct (returns_step m g t0 E) as (a & t & ->); clear E end.

(** Where the steps the launcher cannot do without succeed, its
    last act is to start the loader in the jail, with the arguments it was
    given but for the mirrored program. *)
Theorem jail_reaches_the_loader (rnd_addr : Z) :
  (2 <= length argv)%nat ->
  exists mirror a t, jail_main kernel argv env rnd_addr [] =
    (Ret tt, (Execv jailed_loader (jail_argv mirror argv) (jail_env (home_base env) env), a) :: t) /\
    forall i g, mirror = Some (i, g) -> guest_path_index argv = Some i.
Proof.
  intros Hl. unfold jail_main. rewrite (proj2 (Nat.ltb_ge _ _)) by lia.
  run_next find_root_returns root t1.
  unfold mbind at 1, jail_bind at 1. destruct (choose_mirror_returns root t1) as (mirror & Hm & Hi).
  destruct (choose_mirror kernel root argv t1) as [o t2]. cbn in Hm. subst o. exists mirror.
  run_next prepare_jail_returns u1 t3. run_next fix_dev_returns u2 t4. run_next new_namespace_returns u3 t5.
  run_next populate_returns u4 t6. run_next enter_jail_returns u5 t7. unfold mbind, jail_bind, ask.
  rewrite (proj2 (Z.ltb_ge _ _)) by apply (hp_exec _ _ _ Hk). by eexists _, _.
Qed.
End helpful.

(** ** The random devices *)

Lemma length_rnd_bytes n pid addr : length (rnd_bytes n pid addr) = (8 * n)%nat.
Proof. induction n as [|n IH]; cbn [rnd_bytes]; [done|]. rewrite length_app, length_le_bytes, IH. lia. Qed.

(** /dev/random is eight bytes, repeated. *)
Theorem random_device_repeats (n i : nat) (pid addr : Z) :
  (i < 8 * n)%nat -> rnd_bytes n pid addr !! i = le_bytes 8 (rnd_word pid addr) !! (i mod 8)%nat.
Proof.
  revert i. induction n as [|n IH]; intros i Hi; [lia|]. cbn [rnd_bytes]. destruct (le_lt_dec 8 i) as [Hge|Hlt].
  - rewrite lookup_app_r by (rewrite length_le_bytes; lia). rewrite length_le_bytes, IH by lia. f_equal.
    replace i with (i - 8 + 1 * 8)%nat at 2 by lia. by rewrite Nat.Div0.mod_add.
  - rewrite lookup_app_l by (rewrite length_le_bytes; lia). by rewrite Nat.mod_small.
Qed.

(** ** Witnesses *)

(** A system that grants everything, with the prefix at /p. *)
Definition demo_system (c : jail_call) : answer :=
  Answer (match c with Readlink _ => 16 | _ => 0 end) 0
    (match c with Stat p => if streq p "/p" then FDir else FReg | Lstat _ => FDir | _ => FReg end) 1
    (match c with Readlink _ => "/opt/macify-jail" | Realpath p => p | _ => "" end)%string
    [Some [1; 2]; Some []] (fun _ => 4096).

Definition demo_argv : list string := ["macify-jail"; "macify"; "-v"; "/bin/ls"; "-l"]%string.
Definition demo_env : gmap string string := <["MACIFY_JAIL_ROOT"%string := "/p"%string]> ∅.

Lemma demo_helpful : helpful (fun _ => demo_system) demo_env demo_argv.
Proof.
  split; intros; try done.
  - assert (E : demo_env !! "MACIFY_JAIL_ROOT"%string = Some "/p"%string) by apply lookup_insert_eq. by rewrite E in H; subst p.
  - assert (E : guest_path_index demo_argv = Some 3%nat) by reflexivity. rewrite E in H. injection H as <-. done.
Qed.

Lemma jail_reaches_the_loader_witness :
  exists mirror a t, jail_main (fun _ => demo_system) demo_argv demo_env 0 [] =
    (Ret tt, (Execv jailed_loader (jail_argv mirror demo_argv) (jail_env (home_base demo_env) demo_env), a) :: t).
Proof.
  destruct (jail_reaches_the_loader _ _ _ demo_helpful 0) as (mirror & a & t & E & _); [cbn; lia|]. eauto.
Defined.

Lemma jailed_loader_runs_the_guest_witness :
  parse_options (tail (jail_argv (Some (3%nat, "/opt/ls"%string)) demo_argv)) false false = OptRun true false ["/opt/ls"; "-l"]%string.
Proof.
  destruct (jailed_loader_runs_the_guest demo_argv ["/bin/ls"; "-l"]%string false false true false eq_refl) as (i & Hi & _ & _ & H).
  injection Hi as <-. exact (H "/opt/ls"%string eq_refl).
Defined.

Lemma mirror_follows_no_link_witness :
  exists a e, (mirror_host_file (fun _ => demo_system) "/bin/ls" "/p/bin/ls" []).2 =
      (Mount None "/p/bin/ls" None [MS_BIND; MS_REMOUNT; MS_RDONLY] None, a) :: e /\
    forall q, above q "/p/bin/ls" -> checked q e.
Proof.
  eexists _, _. split; [reflexivity|].
  apply (mirror_follows_no_link (fun _ => demo_system) "/bin/ls" "/p/bin/ls" ltac:(apply Nat.ltb_lt; reflexivity) []
    (Mount None "/p/bin/ls" None [MS_BIND; MS_REMOUNT; MS_RDONLY] None) _ _ eq_refl).
Defined.

Lemma choose_mirror_spec_witness : (choose_mirror (fun _ => demo_system) "/p" demo_argv []).1 = Ret (Some (3%nat, "/bin/ls"%string)).
Proof.
  rewrite (choose_mirror_spec demo_system "/p" "/bin/ls" demo_argv 3 []); [reflexivity..| | |].
  - apply Nat.ltb_lt. reflexivity.
  - apply Nat.ltb_lt. reflexivity.
  - left. intros [H|[r H]]; discriminate H.
Defined.
