(* ===== verification/ShimMach.v ===== *)
(** * Mach calls and libproc (src/shim/shim_mach.c)

    Times, memory, host statistics, the load of the processors and the
    processes, which the code reads from /proc.  A file is the list of pieces
    its [fgets] calls give, or [None] when it cannot be opened.  Calls that
    return a constant are left out. *)
From Stdlib Require Import ZArith Lia Bool Ascii.
From stdpp Require Import base list strings numbers pretty.
From S2P Require Import Prelude Buffers PrefixPath ShimCore Sysctl.

(** ** Memory and times *)

(** [mapped] is the address mmap gives; the address stored is a [uint32_t]. *)
Definition vm_allocate (mapped : option Z) : Z * option Z :=
  match mapped with None => (5, None) | Some r => (0, Some (u32 r)) end.

Inductive vm_action := VmNothing | VmUnmap | VmFree.

(** [unmapped] is the result of munmap. *)
Definition vm_deallocate (address size unmapped : Z) : vm_action :=
  if (size =? 0) || (address =? 0) then VmNothing else if unmapped =? 0 then VmUnmap else VmFree.

Definition mach_absolute_time (tv_sec tv_nsec : Z) : Z := u64 (u64 (tv_sec * 1000000000) + tv_nsec).

Definition clock_get_time (tv_sec tv_nsec : Z) (ts : list Z) : res (list Z) :=
  buf_put ts 0 (le_bytes 4 tv_sec ++ le_bytes 4 tv_nsec).

Definition task_for_pid (pid : Z) : Z := Z.lor 0x10000 (Z.land pid 0xFFFF).

(** ** Scanning *)

(** A [%lu]. *)
Definition scan_ulong (s : string) : option (Z * string) :=
  match scan_int s with
  | Some (v, s) => Some (if v <? 0 then u64 v else Z.min v (2 ^ 64 - 1), s)
  | None => None
  end.

(** As many as there are, at most [n]. *)
Fixpoint scan_ulongs (n : nat) (s : string) : list Z :=
  match n with
  | O => []
  | S n => match scan_ulong s with Some (v, s) => v :: scan_ulongs n s | None => [] end
  end.

(** user, nice, system and idle of a line of /proc/stat, in the order a guest
    reads them. *)
Definition cpu_ticks (fields : list Z) : option (list Z) :=
  match fields with
  | [user; nice; system; idle] => Some (le_bytes 4 user ++ le_bytes 4 system ++ le_bytes 4 nice ++ le_bytes 4 idle)
  | _ => None
  end.

(** "cpu %lu %lu %lu %lu" *)
Definition total_ticks (line : string) : option (list Z) :=
  if starts_with "cpu" line then cpu_ticks (scan_ulongs 4 (sdrop 3 line)) else None.

(** "cpu%*d %lu %lu %lu %lu" *)
Definition one_cpu_ticks (line : string) : option (list Z) :=
  if starts_with "cpu" line then
    match scan_int (sdrop 3 line) with Some (_, s) => cpu_ticks (scan_ulongs 4 s) | None => None end
  else None.

(** ** Host statistics *)

(** "NAME: %lu kB" *)
Definition scan_mem (name line : string) : option Z :=
  if starts_with (name +:+ ":") line then
    match scan_ulong (sdrop (String.length name + 1) line) with Some (v, _) => Some v | None => None end
  else None.

(** One line of /proc/meminfo: the first name that matches gets the value. *)
Fixpoint mem_line (names : list string) (vals : list Z) (line : string) : list Z :=
  match names, vals with
  | name :: names, v :: vals =>
      match scan_mem name line with Some x => x :: vals | None => v :: mem_line names vals line end
  | _, _ => vals
  end.

Definition mem_values (names lines : list string) : list Z :=
  foldl (mem_line names) (map (fun _ => 0) names) lines.

Definition mem_names : list string := ["MemTotal"; "MemFree"; "Active"; "Inactive"]%string.

(** The four words of the answer; what is left of the total is an unsigned
    difference. *)
Definition vm_words (vals : list Z) : list Z :=
  match vals with
  | total :: mfree :: active :: inactive :: rest =>
      le_bytes 4 (mfree / 4) ++ le_bytes 4 (active / 4) ++ le_bytes 4 (inactive / 4) ++
      le_bytes 4 (u64 (total - mfree - active - inactive - foldr Z.add 0 rest) / 4)
  | _ => []
  end.

(** The return value, the buffer and the count. *)
Definition host_vm_info (names : list string) (n : Z) (out : list Z) (count : Z) (meminfo : option (list string)) : res (Z * list Z * Z) :=
  out ← buf_put out 0 (replicate (Z.to_nat (count * 4)) 0);
  out ← match meminfo with Some ls => buf_put out 0 (vm_words (mem_values names ls)) | None => Ok out end;
  Ok (0, out, n).

Definition host_statistics64 (stat meminfo : option (list string)) (flavor : Z) (out : list Z) (count : Z) : res (Z * list Z * Z) :=
  if flavor =? 3 then
    out ← buf_put out 0 (replicate 16 0);
    out ← match stat with
          | Some (line :: _) => match total_ticks line with Some ws => buf_put out 0 ws | None => Ok out end
          | _ => Ok out
          end;
    Ok (0, out, 4)
  else if flavor =? 4 then host_vm_info (mem_names ++ ["Buffers"; "Cached"]%string) 18 out count meminfo
  else if flavor =? 2 then host_vm_info mem_names 14 out count meminfo
  else Ok (1, out, count).

(** ** Processors *)

Definition is_cpu (line : string) : bool :=
  match line with
  | String a (String b (String c (String d _))) =>
      (a =? "c")%char && (b =? "p")%char && (c =? "u")%char && match digit d with Some _ => true | None => false end
  | _ => false
  end.

Definition count_cpus (lines : list string) : Z :=
  let n := Z.of_nat (length (filter (fun l => is_cpu l = true) lines)) in if n =? 0 then 1 else n.

Definition cpu_alloc (psz needed : Z) : Z :=
  let psz := if psz <? 1 then 4096 else psz in
  if needed >? psz then Z.land (needed + psz - 1) (Z.lnot (psz - 1)) else psz.

Fixpoint fill_cpus (lines : list string) (idx ncpu : Z) (info : list Z) : res (list Z) :=
  match lines with
  | [] => Ok info
  | l :: lines =>
      if idx <? ncpu then
        if is_cpu l then
          info ← match one_cpu_ticks l with Some ws => buf_put info (idx * 16) ws | None => Ok info end;
          fill_cpus lines (idx + 1) ncpu info
        else fill_cpus lines idx ncpu info
      else Ok info
  end.

(** The return value, the number of processors and the block with its number
    of words; the two readings of /proc/stat may differ. *)
Definition host_processor_info (psz : Z) (first second : option (list string)) (mmap_ok : bool) (flavor : Z)
    : res (Z * option Z * option (list Z * Z)) :=
  if negb (flavor =? 2) then Ok (1, None, None) else
  match first with
  | None => Ok (0, Some 1, None)
  | Some ls =>
      let ncpu := count_cpus ls in
      match mmap_ok with
      | false => Ok (2, None, None)
      | true =>
          let info := replicate (Z.to_nat (cpu_alloc psz (ncpu * 16))) 0 in
          info ← match second with Some ls => fill_cpus ls 0 ncpu info | None => Ok info end;
          Ok (0, Some ncpu, Some (info, ncpu * 4))
      end
  end.

(** [host_info] for HOST_BASIC_INFO: [ncpu], [phycpu], the page size and the
    number of pages are what sysconf gives. *)
Definition host_info (ncpu phycpu pagesize pages flavor : Z) (out : list Z) (count : Z) : res (Z * list Z * Z) :=
  if flavor =? 1 then
    out ← buf_put out 0
      (le_bytes 4 ncpu ++ le_bytes 4 ncpu ++ le_bytes 4 (pagesize * pages / 1024) ++ le_bytes 4 0x01000007 ++ le_bytes 4 3 ++
       le_bytes 4 0 ++ le_bytes 4 phycpu ++ le_bytes 4 phycpu ++ le_bytes 4 ncpu ++ le_bytes 4 ncpu ++ le_bytes 8 (pagesize * pages));
    Ok (0, out, 12)
  else Ok (1, out, count).

(** ** Processes *)

(** [guest] is [macify_guest_exec_path()], [links] what the links of /proc
    lead to; readlink refuses a buffer of no bytes. *)
Definition proc_readlink (links : string -> option string) (path : string) (cap : Z) : option string :=
  if cap =? 0 then None else
  match links path with Some target => Some (stake (Z.to_nat cap) target) | None => None end.

Definition proc_pidpath (env : environment) (st : prefix_state) (self : Z) (guest : string) (links : string -> option string)
    (pid : Z) (buf : list Z) (buffersize : Z) : res (Z * list Z * prefix_state) :=
  if ((pid =? self) || (pid =? 0)) && slash_at 0 guest && (0 <? buffersize) then
    let n := Z.min (Z.of_nat (String.length guest)) (buffersize - 1) in
    buf ← buf_put buf 0 (string_bytes (stake (Z.to_nat n) guest));
    buf ← buf_put buf n [0];
    Ok (n, buf, st)
  else
    let cap := u32 (buffersize - 1) in
    let first := proc_readlink links ("/proc/" +:+ pretty pid +:+ "/exe") cap in
    match match first with None => if pid =? self then proc_readlink links "/proc/self/exe" cap else None | _ => first end with
    | None => buf ← (if 0 <? buffersize then buf_put buf 0 [0] else Ok buf); Ok (0, buf, st)
    | Some target =>
        buf ← buf_put buf 0 (string_bytes target ++ [0]);
        let '(p, st) := untranslate_path env st target in
        buf ← buf_put buf 0 (string_bytes p ++ [0]);
        Ok (Z.of_nat (String.length p), buf, st)
    end.

(** What is behind the first [')'] ([strchr]). *)
Fixpoint after_first_paren (s : string) : option string :=
  match s with EmptyString => None | String c s => if (c =? ")")%char then Some s else after_first_paren s end.

(** The numbers of a line of /proc/PID/stat behind the state, at most 21;
    [Undef] when [p += 2] leaves the line. *)
Definition pid_fields (line : string) : res (list Z) :=
  match after_first_paren line with
  | None => Ok []
  | Some EmptyString => Undef
  | Some (String _ EmptyString) => Ok []
  | Some (String _ (String _ rest)) => Ok (scan_ulongs 21 rest)
  end.

(** [struct proc_taskinfo]; with 20 numbers [rss] is not set. *)
Definition task_info_bytes (fs : list Z) : res (option (list Z)) :=
  match fs with
  | [_; _; _; _; _; _; minflt; _; majflt; _; utime; stime; _; _; priority; _; threads; _; _; vsize; rss] =>
      Ok (Some (le_bytes 8 vsize ++ le_bytes 8 (rss * 4096) ++ le_bytes 8 (utime * 10000) ++ le_bytes 8 (stime * 10000) ++
                le_bytes 8 0 ++ le_bytes 8 0 ++
                le_bytes 4 0 ++ le_bytes 4 (minflt + majflt) ++ le_bytes 4 majflt ++ replicate 24 0 ++
                le_bytes 4 threads ++ le_bytes 4 1 ++ le_bytes 4 priority))
  | _ => if (length fs =? 20)%nat then Undef else Ok None
  end.

(** [stat] is the first line of the process's stat file. *)
Definition proc_pidinfo (stat : option string) (flavor : Z) (buf : option (list Z)) (buffersize : Z) : res (Z * option (list Z)) :=
  match buf with
  | None => Ok (0, None)
  | Some b =>
      if buffersize <=? 0 then Ok (0, buf) else
      b ← buf_put b 0 (replicate (Z.to_nat buffersize) 0);
      if flavor =? 4 then
        match stat with
        | None => Ok (0, Some b)
        | Some line =>
            fs ← pid_fields (snprintf 1024 line);
            t ← task_info_bytes fs;
            b ← match t with Some bs => buf_put b 0 bs | None => Ok b end;
            Ok (buffersize, Some b)
        end
      else Ok (0, Some b)
  end.

(** The walk over /proc: [count] pids have been seen. *)
Fixpoint list_pids (names : list string) (max_pids count : Z) (buf : list Z) : res (Z * list Z) :=
  match names with
  | [] => Ok (count * 4, buf)
  | name :: names =>
      if is_pid name then
        buf ← (if count <? max_pids then buf_put buf (count * 4) (le_bytes 4 (digits name 0).1) else Ok buf);
        list_pids names max_pids (count + 1) buf
      else list_pids names max_pids count buf
  end.

(** The division is one of [size_t]. *)
Definition max_pids (buffersize : Z) : Z := i32 (u64 buffersize / 4).

(** A NULL buffer is one of no bytes. *)
Definition proc_listpids (proc : option (list string)) (buf : option (list Z)) (buffersize : Z) : res (Z * list Z) :=
  let b := default [] buf in
  match proc with
  | None => match buf with
            | Some b => b ← (if 0 <? buffersize then buf_put b 0 (le_bytes 4 0) else Ok b); Ok (0, b)
            | None => Ok (0, b)
            end
  | Some names => list_pids names (max_pids buffersize) 0 b
  end.

(** ** Times and names *)

(** Later times are not smaller while the nanoseconds fit. *)
Lemma mach_absolute_time_monotone s1 n1 s2 n2 :
  0 <= s1 -> 0 <= n1 < 1000000000 -> 0 <= n2 < 1000000000 -> s2 * 1000000000 + n2 < 2 ^ 64 ->
  s1 < s2 \/ (s1 = s2 /\ n1 <= n2) -> mach_absolute_time s1 n1 <= mach_absolute_time s2 n2.
Proof. intros. unfold mach_absolute_time. rewrite !u64_small by (rewrite ?u64_small; lia). lia. Qed.

(** The port of a process tells it apart from those with another number below
    65536 only. *)
Lemma task_for_pid_collides p q : task_for_pid p = task_for_pid q <-> p mod 65536 = q mod 65536.
Proof.
  assert (H : forall x, task_for_pid x = 65536 + x mod 65536).
  { intros x. unfold task_for_pid. change 0xFFFF with (Z.ones 16). rewrite Z.land_ones by lia.
    change (2 ^ 16) with 65536. pose proof (Z.mod_pos_bound x 65536 ltac:(lia)). rewrite <- Z.add_lor_land.
    enough (Z.land 65536 (x mod 65536) = 0) by lia. change 65536 with (2 ^ 16) at 1. apply Z.bits_inj'. intros n Hn.
    rewrite Z.land_spec, Z.pow2_bits_eqb, Z.bits_0 by lia. destruct (Z.eqb_spec 16 n) as [<-|]; [|done].
    change 65536 with (2 ^ 16). by rewrite Z.mod_pow2_bits_high by lia. }
  rewrite !H. lia.
Qed.

(** The address of new memory reaches the caller only below 4 GiB. *)
Lemma vm_allocate_truncates r : 0 <= r < 2 ^ 64 -> (vm_allocate (Some r)).2 = Some r <-> r < 2 ^ 32.
Proof.
  intros Hr. cbn. split.
  - intros [= E]. pose proof (u32_range r). lia.
  - intros H. by rewrite u32_small by lia.
Qed.

(** ** Processors *)

Lemma cpu_alloc_spec k needed :
  0 <= k -> 0 <= needed -> (2 ^ k | cpu_alloc (2 ^ k) needed) /\ needed <= cpu_alloc (2 ^ k) needed.
Proof.
  intros Hk Hn. unfold cpu_alloc. assert (0 < 2 ^ k) by lia. replace (2 ^ k <? 1) with false by lia.
  destruct (Z.gtb_spec needed (2 ^ k)); [|split; [exists 1; lia|lia]].
  assert (E : Z.land (needed + 2 ^ k - 1) (Z.lnot (2 ^ k - 1)) = (needed + 2 ^ k - 1) / 2 ^ k * 2 ^ k).
  { replace (2 ^ k - 1) with (Z.ones k) by (rewrite Z.ones_equiv; lia). rewrite <- Z.ldiff_land, Z.ldiff_ones_r by lia.
    by rewrite Z.shiftl_mul_pow2, Z.shiftr_div_pow2 by lia. }
  rewrite E. split; [by exists ((needed + 2 ^ k - 1) / 2 ^ k)|].
  pose proof (Z.div_mod (needed + 2 ^ k - 1) (2 ^ k) ltac:(lia)). pose proof (Z.mod_pos_bound (needed + 2 ^ k - 1) (2 ^ k) ltac:(lia)). lia.
Qed.

Lemma cpu_ticks_len fs ws : cpu_ticks fs = Some ws -> buf_len ws = 16.
Proof.
  destruct fs as [|? [|? [|? [|? []]]]]; try done. by intros [= <-].
Qed.

Lemma one_cpu_ticks_len l ws : one_cpu_ticks l = Some ws -> buf_len ws = 16.
Proof. unfold one_cpu_ticks. repeat case_match; try done. apply cpu_ticks_len. Qed.

(** The record of a processor: its ticks, or what was there. *)
Lemma fill_cpus_spec lines : forall idx ncpu info,
  0 <= idx -> ncpu * 16 <= buf_len info ->
  exists info', fill_cpus lines idx ncpu info = Ok info' /\ confined (idx * 16) (Z.max (idx * 16) (ncpu * 16)) info info' /\
    forall i line, filter (fun l => is_cpu l = true) lines !! i = Some line -> idx + Z.of_nat i < ncpu ->
      slice info' ((idx + Z.of_nat i) * 16) 16 = default (slice info ((idx + Z.of_nat i) * 16) 16) (one_cpu_ticks line).
Proof.
  induction lines as [|l lines IH]; intros idx ncpu info H0 Hl; cbn [fill_cpus].
  { exists info. split; [done|]. split; [done|]. by intros i line Hi. }
  destruct (Z.ltb_spec idx ncpu); [|exists info; split; [done|]; split; [done|]; intros; lia].
  rewrite filter_cons. destruct (is_cpu l) eqn:Ec; cbn [decide]; [|by apply IH].
  assert (Hput : exists info1, match one_cpu_ticks l with Some ws => buf_put info (idx * 16) ws | None => Ok info end = Ok info1 /\
    confined (idx * 16) (idx * 16 + 16) info info1 /\ slice info1 (idx * 16) 16 = default (slice info (idx * 16) 16) (one_cpu_ticks l)).
  { destruct (one_cpu_ticks l) as [ws|] eqn:Et; [|by exists info]. pose proof (one_cpu_ticks_len _ _ Et) as Hw.
    destruct (buf_put_within (idx * 16) (idx * 16 + 16) info (idx * 16) ws) as (info1 & -> & Hc & Hs); [lia..|].
    exists info1. rewrite Hw in Hs. done. }
  destruct Hput as (info1 & -> & Hc1 & Hs1). cbn [mbind res_bind].
  destruct (IH (idx + 1) ncpu info1) as (info' & -> & Hc & Hs); [lia|rewrite (confined_len _ _ _ _ Hc1); lia|].
  exists info'. split; [done|]. split.
  - transitivity info1; [apply (confined_weaken (idx * 16) (idx * 16 + 16))|apply (confined_weaken ((idx + 1) * 16) (Z.max ((idx + 1) * 16) (ncpu * 16)))]; lia || done.
  - intros [|i] line Hi Hlt; cbn in Hi.
    + injection Hi as <-. change (Z.of_nat 0) with 0 in *. rewrite Z.add_0_r, <- Hs1. apply (confined_out _ _ _ _ Hc); lia.
    + replace (idx + Z.of_nat (S i)) with (idx + 1 + Z.of_nat i) by lia. rewrite (Hs i line Hi) by lia. f_equal.
      apply (confined_out _ _ _ _ Hc1); lia.
Qed.

(** The load of the processors is written inside the block that is
    handed out, which is a number of whole pages, as the caller's munmap
    needs; each processor found by the second reading has its own record, with
    user, system, nice and idle ticks, and a processor without ticks has
    zeros. *)
Theorem processor_info_in_bounds (k : Z) (first second : list string) :
  0 <= k ->
  exists info, host_processor_info (2 ^ k) (Some first) (Some second) true 2 =
      Ok (0, Some (count_cpus first), Some (info, count_cpus first * 4)) /\
    (2 ^ k | buf_len info) /\ count_cpus first * 16 <= buf_len info /\
    forall i line, filter (fun l => is_cpu l = true) second !! i = Some line -> Z.of_nat i < count_cpus first ->
      slice info (Z.of_nat i * 16) 16 = default (replicate 16 0) (one_cpu_ticks line).
Proof.
  intros Hk. assert (Hn : 0 < count_cpus first) by (unfold count_cpus; cbv zeta; destruct (Z.eqb_spec (Z.of_nat (length (filter (fun l => is_cpu l = true) first))) 0); lia).
  destruct (cpu_alloc_spec k (count_cpus first * 16)) as [Hd Hge]; [lia..|].
  assert (Hlen : buf_len (replicate (Z.to_nat (cpu_alloc (2 ^ k) (count_cpus first * 16))) 0) = cpu_alloc (2 ^ k) (count_cpus first * 16))
    by (unfold buf_len; rewrite length_replicate; lia).
  unfold host_processor_info. cbn [Z.eqb negb Pos.eqb]. cbv zeta.
  destruct (fill_cpus_spec second 0 (count_cpus first) (replicate (Z.to_nat (cpu_alloc (2 ^ k) (count_cpus first * 16))) 0))
    as (info & -> & Hc & Hs); [lia..|]. cbn [mbind res_bind]. exists info. split; [done|].
  rewrite (confined_len _ _ _ _ Hc), Hlen. split; [done|]. split; [done|]. intros i line Hi Hlt.
  specialize (Hs i line Hi Hlt). rewrite Z.add_0_l in Hs. rewrite Hs. f_equal. unfold slice. rewrite drop_replicate, take_replicate. f_equal. lia.
Qed.

(** ** Processes *)

Lemma list_pids_spec names : forall max count b,
  0 <= count -> max * 4 <= buf_len b ->
  let pids := map (fun n => (digits n 0).1) (filter (fun n => is_pid n = true) names) in
  exists b', list_pids names max count b = Ok ((count + Z.of_nat (length pids)) * 4, b') /\
    confined (count * 4) (buf_len b) b b' /\
    forall i p, pids !! i = Some p -> count + Z.of_nat i < max -> slice b' ((count + Z.of_nat i) * 4) 4 = le_bytes 4 p.
Proof.
  induction names as [|name names IH]; intros max count b H0 Hl; cbn [list_pids].
  { exists b. cbn. rewrite Z.add_0_r. split; [done|]. split; [done|]. by intros i p Hi. }
  destruct (is_pid name) eqn:Ep; [|rewrite filter_cons_False by congruence; by apply IH].
  rewrite filter_cons_True by done. cbn [map].
  assert (Hput : exists b1, (if count <? max then buf_put b (count * 4) (le_bytes 4 (digits name 0).1) else Ok b) = Ok b1 /\
    confined (count * 4) (buf_len b) b b1 /\ (count < max -> slice b1 (count * 4) 4 = le_bytes 4 (digits name 0).1)).
  { destruct (Z.ltb_spec count max); [|exists b; split; [done|]; split; [done|]; lia].
    destruct (buf_put_within (count * 4) (max * 4) b (count * 4) (le_bytes 4 (digits name 0).1)) as (b1 & -> & Hc & Hs);
      [rewrite ?buf_len_le_bytes; lia..|]. exists b1. split; [done|]. split; [|by rewrite buf_len_le_bytes in Hs].
    apply (confined_weaken (count * 4) (max * 4)); lia || done. }
  destruct Hput as (b1 & -> & Hc1 & Hs1). cbn [mbind res_bind].
  destruct (IH max (count + 1) b1) as (b' & -> & Hc & Hs); [lia|rewrite (confined_len _ _ _ _ Hc1); lia|].
  exists b'. split; [f_equal; f_equal; cbn [length]; lia|]. split.
  - transitivity b1; [done|]. rewrite (confined_len _ _ _ _ Hc1) in Hc. apply (confined_weaken ((count + 1) * 4) (buf_len b)); lia || done.
  - intros [|i] p Hi Hlt; cbn in Hi.
    + injection Hi as <-. change (Z.of_nat 0) with 0 in *. rewrite Z.add_0_r in *. rewrite <- Hs1 by lia. apply (confined_out _ _ _ _ Hc); lia.
    + replace (count + Z.of_nat (S i)) with (count + 1 + Z.of_nat i) by lia. apply (Hs i p Hi). lia.
Qed.

(** The list of processes holds as many of them as the buffer has
    room for, in the order of /proc, and the result counts all of them; nothing
    is written behind the buffer. *)
Theorem listpids_in_bounds (names : list string) (b : list Z) :
  buf_len b < 2 ^ 31 ->
  let pids := map (fun n => (digits n 0).1) (filter (fun n => is_pid n = true) names) in
  exists b', proc_listpids (Some names) (Some b) (buf_len b) = Ok (Z.of_nat (length pids) * 4, b') /\ buf_len b' = buf_len b /\
    forall i p, pids !! i = Some p -> Z.of_nat i * 4 + 4 <= buf_len b -> slice b' (Z.of_nat i * 4) 4 = le_bytes 4 p.
Proof.
  intros Hb pids. unfold proc_listpids. change (default [] (Some b)) with b. cbv zeta. pose proof (buf_len_nonneg b).
  pose proof (Z.div_mod (buf_len b) 4 ltac:(lia)). pose proof (Z.mod_pos_bound (buf_len b) 4 ltac:(lia)).
  assert (Hmax : max_pids (buf_len b) = buf_len b / 4).
  { unfold max_pids. rewrite u64_small by lia. apply (signed_small 32); [lia|]. change (2 ^ (32 - 1)) with (2 ^ 31). lia. }
  destruct (list_pids_spec names (max_pids (buf_len b)) 0 b) as (b' & E & Hc & Hs); [lia..|]. exists b'.
  rewrite E. split; [done|]. split; [apply (confined_len _ _ _ _ Hc)|]. intros i p Hi Hle. specialize (Hs i p Hi).
  rewrite Z.add_0_l in Hs. apply Hs. lia.
Qed.

(** The information on a task has 96 bytes, whatever the size the guest gave:
    a shorter buffer is overrun. *)
Lemma task_info_bytes_len fs bs : task_info_bytes fs = Ok (Some bs) -> buf_len bs = 96.
Proof.
  unfold task_info_bytes. intros H. do 22 (destruct fs as [|? fs]; [try discriminate H; cbn in H; try discriminate H|]); [|discriminate H].
  injection H as <-. reflexivity.
Qed.

Theorem pidinfo_size (line : string) (fs bs b : list Z) (n : Z) :
  pid_fields (snprintf 1024 line) = Ok fs -> task_info_bytes fs = Ok (Some bs) -> buf_len b = n -> 0 < n ->
  (96 <= n -> exists b', proc_pidinfo (Some line) 4 (Some b) n = Ok (n, Some b') /\
     slice b' 0 96 = bs /\ slice b' 96 (n - 96) = replicate (Z.to_nat (n - 96)) 0) /\
  (n < 96 -> proc_pidinfo (Some line) 4 (Some b) n = Undef).
Proof.
  intros Hf Ht Hb Hn. pose proof (task_info_bytes_len _ _ Ht) as Hlen. unfold proc_pidinfo. rewrite (proj2 (Z.leb_gt _ _)) by lia.
  assert (Hz : buf_put b 0 (replicate (Z.to_nat n) 0) = Ok (replicate (Z.to_nat n) 0)).
  { unfold buf_put, buf_len in *. rewrite length_replicate. cbn [Z.ltb Z.compare orb].
    rewrite (proj2 (Z.ltb_ge _ _)) by lia. rewrite take_0, drop_ge by (cbn; lia). by rewrite app_nil_r. }
  rewrite Hz. cbn [mbind res_bind Z.eqb Pos.eqb]. rewrite Hf. cbn [mbind res_bind]. rewrite Ht. cbn [mbind res_bind].
  assert (Hr : buf_len (replicate (Z.to_nat n) 0) = n) by (unfold buf_len; rewrite length_replicate; lia). split; intros H.
  - destruct (buf_put_in (replicate (Z.to_nat n) 0) 0 bs) as [b' E]; [lia..|]. rewrite E. exists b'. split; [done|]. split.
    + rewrite <- Hlen. by apply (buf_put_same _ _ _ _ E).
    + rewrite (buf_put_other _ _ _ _ 96 (n - 96) E) by lia. unfold slice. rewrite drop_replicate, take_replicate. f_equal. lia.
  - unfold buf_put at 1. rewrite Hr, Hlen. cbn [Z.ltb Z.compare orb]. by rewrite (proj2 (Z.ltb_lt _ _)) by lia.
Qed.

(** Two writes from the start, the second shorter: the second is there, with
    its NUL, and the rest is as far as the first reached. *)
Lemma put_c_string (b : list Z) (s : string) (size : Z) :
  Z.of_nat (String.length s) < size -> size <= buf_len b ->
  exists b', buf_put b 0 (string_bytes s ++ [0]) = Ok b' /\ confined 0 size b b' /\
    slice b' 0 (Z.of_nat (String.length s) + 1) = string_bytes s ++ [0].
Proof.
  intros Hs Hb. assert (Hl : buf_len (string_bytes s ++ [0]) = Z.of_nat (String.length s) + 1)
    by (unfold buf_len; rewrite length_app, length_string_bytes; cbn; lia).
  destruct (buf_put_within 0 size b 0 (string_bytes s ++ [0])) as (b' & E & Hc & Hsl); [lia..|].
  exists b'. rewrite Hl in Hsl. done.
Qed.

(** Proc_pidpath gives the guest's spelling of a program's
    path: for the caller itself that of the loader, cut to the buffer, and for
    a process whose program lies in the prefix the path inside it; both end in
    a NUL inside the buffer.  A size of 0 is taken for the largest one. *)
Theorem pidpath_guest_spelling (env : environment) (st st1 : prefix_state) (self pid : Z) (guest q rest : string)
    (links : string -> option string) (b : list Z) (size : Z) :
  0 < size < 2 ^ 32 -> size <= buf_len b -> macify_get_prefix env st = (q, st1) -> q <> EmptyString ->
  (pid = self -> slash_at 0 guest = true ->
     let n := Z.min (Z.of_nat (String.length guest)) (size - 1) in
     exists b', proc_pidpath env st self guest links pid b size = Ok (n, b', st) /\ confined 0 size b b' /\
       slice b' 0 (n + 1) = string_bytes (stake (Z.to_nat n) guest) ++ [0]) /\
  (pid <> self -> pid <> 0 -> links ("/proc/" +:+ pretty pid +:+ "/exe") = Some (q +:+ "/" +:+ rest) ->
     Z.of_nat (String.length (q +:+ "/" +:+ rest)) < size ->
     exists b', proc_pidpath env st self guest links pid b size =
         Ok (Z.of_nat (String.length ("/" +:+ rest)), b', st1) /\ confined 0 size b b' /\
       slice b' 0 (Z.of_nat (String.length ("/" +:+ rest)) + 1) = string_bytes ("/" +:+ rest) ++ [0]).
Proof.
  intros Hsz Hb Hq Hne. split.
  - intros -> Hg n. unfold proc_pidpath. rewrite Z.eqb_refl, Hg, (proj2 (Z.ltb_lt _ _)) by lia. cbn [orb andb]. cbv zeta. fold n.
    assert (Hn : 0 <= n < size) by (unfold n; lia).
    assert (Hl : buf_len (string_bytes (stake (Z.to_nat n) guest)) = n)
      by (unfold buf_len; rewrite length_string_bytes, length_stake; unfold n; lia).
    destruct (buf_put_within 0 size b 0 (string_bytes (stake (Z.to_nat n) guest))) as (b1 & -> & Hc1 & Hs1); [lia..|]. cbn [mbind res_bind].
    destruct (buf_put_within 0 size b1 n [0]) as (b2 & E2 & Hc2 & Hs2); [lia|lia|change (buf_len [0]) with 1; lia|rewrite (confined_len _ _ _ _ Hc1); lia|].
    rewrite E2. cbn [mbind res_bind]. exists b2. split; [done|]. split; [by transitivity b1|].
    rewrite slice_split by lia. f_equal; [|exact Hs2].
    rewrite (buf_put_other _ _ _ _ 0 n E2) by lia. by rewrite Hl in Hs1.
  - intros Hp H0 Hl Hlen. unfold proc_pidpath. rewrite (proj2 (Z.eqb_neq _ _) Hp), (proj2 (Z.eqb_neq _ _) H0). cbn [orb andb]. cbv zeta.
    rewrite u32_small by lia. unfold proc_readlink.
    assert (Hr : (String.length ("/" +:+ rest) < String.length (q +:+ "/" +:+ rest))%nat).
    { rewrite (string_length_app q). destruct q; [done|]. cbn. lia. }
    rewrite (proj2 (Z.eqb_neq (size - 1) 0)) by lia. rewrite Hl. cbv iota. rewrite stake_all by lia.
    destruct (put_c_string b (q +:+ "/" +:+ rest) size) as (b1 & -> & Hc1 & _); [lia..|]. cbn [mbind res_bind].
    rewrite (proj1 (untranslate_within env st _ q st1 rest Hq Hne eq_refl)).
    destruct (put_c_string b1 ("/" +:+ rest) size) as (b2 & -> & Hc2 & Hs2); [lia|rewrite (confined_len _ _ _ _ Hc1); lia|].
    cbn [mbind res_bind]. exists b2. split; [done|]. split; [by transitivity b1|done].
Qed.

(** A size of 0 is no size: the path is written to a buffer of no bytes. *)
Theorem pidpath_size_zero (env : environment) (st : prefix_state) (self pid : Z) (guest target : string) (links : string -> option string) :
  links ("/proc/" +:+ pretty pid +:+ "/exe") = Some target -> proc_pidpath env st self guest links pid [] 0 = Undef.
Proof.
  intros Hl. unfold proc_pidpath. rewrite andb_false_r. cbv zeta. change (u32 (0 - 1)) with (2 ^ 32 - 1).
  unfold proc_readlink. rewrite Hl. change (2 ^ 32 - 1 =? 0) with false. cbv iota.
  assert (E : forall s, buf_put [] 0 (string_bytes s ++ [0]) = Undef).
  { intros s. unfold buf_put, buf_len. rewrite length_app. cbn [Z.ltb Z.compare orb length]. by rewrite (proj2 (Z.ltb_lt _ _)) by lia. }
  by rewrite E.
Qed.

(** ** Witnesses *)

Definition demo_stat : list string := ["cpu  5 1 3 9"; "cpu0 5 1 3 9"; "intr 77"]%string.

Lemma processor_info_in_bounds_witness :
  exists info, host_processor_info (2 ^ 12) (Some demo_stat) (Some demo_stat) true 2 = Ok (0, Some 1, Some (info, 4)) /\
    (4096 | buf_len info) /\ slice info 0 16 = [5; 0; 0; 0; 3; 0; 0; 0; 1; 0; 0; 0; 9; 0; 0; 0].
Proof.
  destruct (processor_info_in_bounds 12 demo_stat demo_stat) as (info & E & Hd & _ & Hs); [lia|].
  exists info. split; [exact E|]. split; [exact Hd|]. exact (Hs 0%nat "cpu0 5 1 3 9"%string eq_refl eq_refl).
Defined.

Lemma listpids_in_bounds_witness :
  exists b', proc_listpids (Some ["1"; "self"; "42"; "7"]%string) (Some (replicate 9 0)) 9 = Ok (12, b') /\ slice b' 4 4 = [42; 0; 0; 0].
Proof.
  destruct (listpids_in_bounds ["1"; "self"; "42"; "7"]%string (replicate 9 0)) as (b' & E & _ & Hs); [reflexivity|].
  exists b'. split; [exact E|]. apply (Hs 1%nat 42 eq_refl). vm_compute. discriminate.
Defined.

Definition demo_line : string := "7 (sh) S 1 7 7 0 7 0 10 0 2 0 5 6 0 0 20 0 3 0 99 8192 4".

Lemma pidinfo_size_witness :
  proc_pidinfo (Some demo_line) 4 (Some (replicate 50 0)) 50 = Undef.
Proof.
  eapply (pidinfo_size demo_line _ _ (replicate 50 0) 50); [vm_compute; reflexivity|vm_compute; reflexivity|reflexivity|reflexivity|reflexivity].
Defined.

Lemma pidpath_guest_spelling_witness :
  exists b' st', proc_pidpath (mk_environ (Some "/home/u"%string) None false) None 5 "/bin/ls"
      (fun _ => Some "/home/u/.macify/usr/bin/vi"%string) 9 (replicate 40 7) 40 = Ok (11, b', st') /\
    slice b' 0 12 = string_bytes "/usr/bin/vi" ++ [0].
Proof.
  destruct (pidpath_guest_spelling (mk_environ (Some "/home/u"%string) None false) None (Some "/home/u/.macify"%string) 5 9 "/bin/ls"
    "/home/u/.macify" "usr/bin/vi" (fun _ => Some "/home/u/.macify/usr/bin/vi"%string) (replicate 40 7) 40) as [_ H];
    [lia|vm_compute; discriminate|reflexivity|done|].
  destruct H as (b' & E & _ & Hs); [lia|lia|reflexivity|reflexivity|]. eauto.
Defined.

Lemma pidpath_size_zero_witness :
  proc_pidpath (mk_environ (Some "/home/u"%string) None false) None 5 "/bin/ls" (fun _ => Some "/bin/vi"%string) 9 [] 0 = Undef.
Proof. apply (pidpath_size_zero _ _ 5 9 "/bin/ls" "/bin/vi"). reflexivity. Defined.
