(* ===== verification/ShimMisc.v ===== *)
(** * Locales, exit and other small calls (src/shim/sys/misc_stubs.c,
    signal/shim_symbol.c)

    The translation of locale categories, masks and items, the end of a
    process, the call connectx, and the table of functions the loader prefers
    to glibc's.  Trace output and stubs with a fixed answer are left out. *)
From Stdlib Require Import ZArith Lia Bool Btauto.
From stdpp Require Import base list strings numbers.
From S2P Require Import Prelude Buffers LoaderState Symbols ShimCore ShimNet.

(** ** Locales *)

(** glibc's categories. *)
Definition LC_CTYPE : Z := 0.
Definition LC_NUMERIC : Z := 1.
Definition LC_TIME : Z := 2.
Definition LC_COLLATE : Z := 3.
Definition LC_MONETARY : Z := 4.
Definition LC_MESSAGES : Z := 5.
Definition LC_ALL : Z := 6.

(** The categories and the masks of both systems, in the order of macOS's
    masks: the macOS category, the macOS mask, glibc's category. *)
Definition categories : list (Z * Z * Z) :=
  [ (1, 0x01, LC_COLLATE); (2, 0x02, LC_CTYPE); (6, 0x04, LC_MESSAGES); (3, 0x08, LC_MONETARY); (4, 0x10, LC_NUMERIC);
    (5, 0x20, LC_TIME) ].

Definition macos_to_linux_category (category : Z) : Z :=
  if category =? 0 then LC_ALL else if category =? 1 then LC_COLLATE else if category =? 2 then LC_CTYPE else
  if category =? 3 then LC_MONETARY else if category =? 4 then LC_NUMERIC else if category =? 5 then LC_TIME else
  if category =? 6 then LC_MESSAGES else -1.

(** What [macify_setlocale] asks glibc for. *)
Definition setlocale_category (category : Z) : Z :=
  let cat := macos_to_linux_category category in if cat <? 0 then category else cat.

Definition LC_COLLATE_MASK : Z := 2 ^ LC_COLLATE.
Definition LC_CTYPE_MASK : Z := 2 ^ LC_CTYPE.
Definition LC_MESSAGES_MASK : Z := 2 ^ LC_MESSAGES.
Definition LC_MONETARY_MASK : Z := 2 ^ LC_MONETARY.
Definition LC_NUMERIC_MASK : Z := 2 ^ LC_NUMERIC.
Definition LC_TIME_MASK : Z := 2 ^ LC_TIME.

(** glibc has six more categories, 7 to 12. *)
Definition LC_ALL_MASK : Z := 0x1fbf.

Definition OSX_LC_ALL_MASK : Z := 0x3f.

Definition add_mask (mask bit linux out : Z) : Z := if Z.land mask bit =? 0 then out else Z.lor out linux.

Definition macos_to_linux_mask (mask : Z) : Z :=
  if Z.land mask OSX_LC_ALL_MASK =? OSX_LC_ALL_MASK then LC_ALL_MASK else
  let out := add_mask mask 0x01 LC_COLLATE_MASK 0 in
  let out := add_mask mask 0x02 LC_CTYPE_MASK out in
  let out := add_mask mask 0x04 LC_MESSAGES_MASK out in
  let out := add_mask mask 0x08 LC_MONETARY_MASK out in
  let out := add_mask mask 0x10 LC_NUMERIC_MASK out in
  add_mask mask 0x20 LC_TIME_MASK out.

(** The mask [macify_newlocale] hands to glibc. *)
Definition newlocale_mask (t : text_state) (ret_addr mask : Z) : Z :=
  if caller_is_macos_text t ret_addr then macos_to_linux_mask mask else mask.

(** glibc's items: the category in the upper half. *)
Definition CODESET : Z := 14.
Definition ABDAY_1 : Z := 0x20000.
Definition DAY_1 : Z := 0x20007.
Definition ABMON_1 : Z := 0x2000E.
Definition MON_1 : Z := 0x2001A.
Definition AM_STR : Z := 0x20026.
Definition PM_STR : Z := 0x20027.
Definition D_T_FMT : Z := 0x20028.
Definition D_FMT : Z := 0x20029.
Definition T_FMT : Z := 0x2002A.
Definition RADIXCHAR : Z := 0x10000.
Definition THOUSEP : Z := 0x10001.
Definition YESEXPR : Z := 0x50000.
Definition NOEXPR : Z := 0x50001.
Definition CRNCYSTR : Z := 0x4000F.

Definition nl_cases : list (Z * Z) :=
  [ (0, CODESET); (1, D_T_FMT); (2, D_FMT); (3, T_FMT); (4, AM_STR); (5, PM_STR); (50, RADIXCHAR); (51, THOUSEP);
    (52, YESEXPR); (53, NOEXPR); (54, CRNCYSTR) ].

Definition macos_to_linux_nl_item (item : Z) : Z :=
  match find (fun c => c.1 =? item) nl_cases with
  | Some (_, linux) => linux
  | None =>
      if (6 <=? item) && (item <=? 12) then DAY_1 + (item - 6) else
      if (13 <=? item) && (item <=? 19) then ABDAY_1 + (item - 13) else
      if (21 <=? item) && (item <=? 32) then MON_1 + (item - 21) else
      if (33 <=? item) && (item <=? 44) then ABMON_1 + (item - 33) else CODESET
  end.

(** [real] is glibc's function, [None] when it was not found. *)
Definition nl_langinfo (real : option (Z -> string)) (item : Z) : string :=
  let ask item := match real with None => "ANSI_X3.4-1968"%string | Some f => f item end in
  if (0 <=? item) && (item <? 100) then
    if item =? 50 then "." else if item =? 51 then "" else ask (macos_to_linux_nl_item item)
  else ask item.

(** ** Descriptors, memory, random numbers *)

Definition check_fd_set_overflow (fd : Z) : Z := if (0 <=? fd) && (fd <? 1024) then 1 else 0.

(** [None] is NULL. *)
Definition memset_s (s : option (list Z)) (smax c n : Z) : res (Z * option (list Z)) :=
  match s with
  | Some b =>
      if 0 <? n then b ← buf_put b 0 (replicate (Z.to_nat (if n <? smax then n else smax)) (u8 c)); Ok (0, Some b)
      else Ok (0, s)
  | None => Ok (0, s)
  end.

(** [random] is what the next call of random() gives. *)
Definition arc4random_uniform (upper_bound random : Z) : Z :=
  if upper_bound =? 0 then 0 else u32 random mod upper_bound.

(** [urandom] is what fread gives, [None] when /dev/urandom cannot be opened. *)
Definition arc4random_buf (urandom : option (list Z)) (random : nat -> Z) (nbytes : Z) : list Z :=
  match urandom with
  | Some bs => if buf_len bs =? nbytes then bs else map (fun i => u8 (random i)) (seq 0 (Z.to_nat nbytes))
  | None => map (fun i => u8 (random i)) (seq 0 (Z.to_nat nbytes))
  end.

(** The bytes task_info clears: [count], which counts words for the caller. *)
Definition task_info (out : list Z) (count : Z) : res (list Z) := buf_put out 0 (replicate (Z.to_nat count) 0).

(** ** connectx *)

(** The words the code reads in the guest's structure, at 16 and 24; [mem] is
    what an address points to. *)
Definition connectx (dns : option (list Z)) (mem : Z -> option (list Z)) (endpoints : option (list Z)) : res (option (list Z * Z)) :=
  match endpoints with
  | None => Ok None
  | Some ep =>
      dst ← read_le (buf_get ep) 8 24;
      if dst =? 0 then Ok None else
      len ← read_le (buf_get ep) 4 16;
      if len <? 2 then Ok None else connect_addr dns (mem dst) len
  end.

(** ** The end of a process *)

Definition flush_sane (v : Z) : bool := (v >? 0x10000) && (Z.shiftr v 47 =? 0).

(** [stdout] holds glibc's [_IO_write_base] and [_IO_write_ptr]; [text] is the
    memory between two addresses.  The bytes one write asks for. *)
Definition raw_flush (text : Z -> Z -> list Z) (stdout : option (Z * Z)) : list Z :=
  match stdout with
  | Some (base, ptr) =>
      if (ptr >? base) && (ptr - base <? 1048576) && flush_sane base && flush_sane ptr then text base ptr else []
  | None => []
  end.

(** What the process leaves: the writes to descriptor 1, the handlers that
    ran, and its status. *)
Record ending := Ending { e_writes : list (list Z); e_handlers : list Z; e_status : Z }.

Definition add_write (bs : list Z) (e : ending) : ending :=
  match bs with [] => e | _ => Ending (bs :: e_writes e) (e_handlers e) (e_status e) end.

Definition macify__exit (text : Z -> Z -> list Z) (stdout : option (Z * Z)) (status : Z) : ending :=
  add_write (raw_flush text stdout) (Ending [] [] status).

(** The stream is not told of the write, and [_exit] is the function above. *)
Definition macify_exit (text : Z -> Z -> list Z) (stdout : option (Z * Z)) (handlers : list Z) (status : Z) : ending :=
  add_write (raw_flush text stdout) (macify__exit text stdout status).

(** The handlers glibc knows after [___cxa_atexit]. *)
Definition cxa_atexit (fn arg : Z) (handlers : list Z) : list Z := if arg =? 0 then fn :: handlers else handlers.

(** [atexit_wrapper]: the byte at offset 0x10 of the guest's stdout when the
    handler runs. *)
Definition atexit_byte (b : Z) : Z := Z.land b (Z.lnot 0x40).

(** ** The functions of the shim *)

Definition shim_symbols : list string :=
  [ "sigaction"; "sigaltstack"; "signal"; "pthread_mutex_lock"; "pthread_mutex_trylock"; "pthread_mutex_unlock";
    "pthread_mutex_init"; "pthread_mutex_destroy"; "pthread_cond_wait"; "pthread_cond_timedwait"; "pthread_cond_signal";
    "pthread_cond_broadcast"; "pthread_cond_init"; "pthread_cond_destroy"; "pthread_sigmask"; "sigprocmask"; "pthread_kill";
    "sigaddset"; "sigdelset"; "sigemptyset"; "sigfillset"; "sigismember"; "kqueue"; "kevent"; "mlock"; "munlock"; "mlockall";
    "munlockall"; "getpwuid"; "getpwuid_r"; "getpwnam"; "getaddrinfo"; "freeaddrinfo" ]%string.

(** [address] of the shim's function of that name; 0 is NULL. *)
Definition get_shim_symbol (address : string -> Z) (symbol : string) : Z :=
  if bool_decide (symbol ∈ shim_symbols) then address symbol else 0.

(** ** Locales *)

Lemma add_mask_bit mask bit k out j :
  0 <= k -> 0 <= j -> Z.testbit (add_mask mask bit (2 ^ k) out) j =
    (if j =? k then negb (Z.land mask bit =? 0) else false) || Z.testbit out j.
Proof.
  intros Hk Hj. unfold add_mask. destruct (Z.land mask bit =? 0); cbn [negb]; [by destruct (j =? k)|].
  rewrite Z.lor_spec, Z.pow2_bits_eqb, Z.eqb_sym by done. by rewrite orb_comm; destruct (j =? k).
Qed.

(** A macOS mask that is not the full one, bit by bit. *)
Lemma linux_mask_bits mask j : 0 <= j -> Z.land mask OSX_LC_ALL_MASK <> OSX_LC_ALL_MASK ->
  Z.testbit (macos_to_linux_mask mask) j =
    existsb (fun '(_, bit, linux) => (j =? linux) && negb (Z.land mask bit =? 0)) categories.
Proof.
  intros Hj Hm. unfold macos_to_linux_mask. rewrite (proj2 (Z.eqb_neq _ _) Hm). cbv zeta.
  unfold LC_COLLATE_MASK, LC_CTYPE_MASK, LC_MESSAGES_MASK, LC_MONETARY_MASK, LC_NUMERIC_MASK, LC_TIME_MASK.
  rewrite !add_mask_bit by (done || discriminate). rewrite Z.bits_0. cbn [categories existsb]. rewrite !orb_false_r.
  assert (E : forall b c : bool, (if b then c else false) = b && c) by (intros [] ?; done). rewrite !E.
  btauto.
Qed.

(** The two translations of a locale agree: glibc's mask for a
    macOS mask has exactly the bits of the categories that setlocale's
    translation gives for the categories named in the macOS mask; the full
    mask becomes glibc's full one, which has them all. *)
Theorem locale_masks_follow_categories (mask : Z) :
  (Z.land mask OSX_LC_ALL_MASK <> OSX_LC_ALL_MASK -> forall j, 0 <= j ->
     Z.testbit (macos_to_linux_mask mask) j = true <->
     exists cat bit, (cat, bit, j) ∈ categories /\ macos_to_linux_category cat = j /\ Z.land mask bit <> 0) /\
  (Z.land mask OSX_LC_ALL_MASK = OSX_LC_ALL_MASK -> macos_to_linux_mask mask = LC_ALL_MASK /\
     forall cat bit linux, (cat, bit, linux) ∈ categories -> Z.testbit LC_ALL_MASK (macos_to_linux_category cat) = true).
Proof.
  assert (Hcat : forall cat bit linux, (cat, bit, linux) ∈ categories -> macos_to_linux_category cat = linux).
  { intros cat bit linux H. repeat (apply elem_of_cons in H as [[= -> -> ->]|H]; [done|]). by apply elem_of_nil in H. }
  split.
  - intros Hm j Hj. rewrite linux_mask_bits, existsb_exists by done. split.
    + intros ([[cat bit] linux] & Hin & [Ej Hb]%andb_true_iff). apply Z.eqb_eq in Ej as ->. apply negb_true_iff, Z.eqb_neq in Hb.
      apply list_elem_of_In in Hin. eauto 6.
    + intros (cat & bit & Hin & _ & Hb). exists (cat, bit, j). split; [by apply list_elem_of_In|].
      by rewrite Z.eqb_refl, (proj2 (Z.eqb_neq _ _) Hb).
  - intros Hm. split; [unfold macos_to_linux_mask; by rewrite (proj2 (Z.eqb_eq _ _) Hm)|].
    intros cat bit linux H. rewrite (Hcat _ _ _ H). repeat (apply elem_of_cons in H as [[= -> -> ->]|H]; [done|]). by apply elem_of_nil in H.
Qed.

(** Days and months keep their order, full and abbreviated. *)
Theorem calendar_items (i : Z) :
  (0 <= i < 7 -> macos_to_linux_nl_item (6 + i) = DAY_1 + i /\ macos_to_linux_nl_item (13 + i) = ABDAY_1 + i) /\
  (0 <= i < 12 -> macos_to_linux_nl_item (21 + i) = MON_1 + i /\ macos_to_linux_nl_item (33 + i) = ABMON_1 + i).
Proof.
  split; intros Hi.
  - assert (i = 0 \/ i = 1 \/ i = 2 \/ i = 3 \/ i = 4 \/ i = 5 \/ i = 6) as H by lia. by repeat destruct H as [-> |H]; subst.
  - assert (i = 0 \/ i = 1 \/ i = 2 \/ i = 3 \/ i = 4 \/ i = 5 \/ i = 6 \/ i = 7 \/ i = 8 \/ i = 9 \/ i = 10 \/ i = 11) as H by lia.
    by repeat destruct H as [-> |H]; subst.
Qed.

(** ** connectx *)

(** [sa_endpoints_t] of docs/xnu/headers/sys_socket.h. *)
Definition sa_endpoints (srcif srcaddr srcaddrlen dstaddr dstaddrlen : Z) : list Z :=
  le_bytes 4 srcif ++ replicate 4 0 ++ le_bytes 8 srcaddr ++ le_bytes 4 srcaddrlen ++ replicate 4 0 ++
  le_bytes 8 dstaddr ++ le_bytes 4 dstaddrlen ++ replicate 4 0.

(** What connectx takes for the length of the destination is that of the
    source, which a caller without a source address leaves 0: such a call
    always fails. *)
Theorem connectx_takes_source_length (dns : option (list Z)) (mem : Z -> option (list Z)) (srcif src srclen dst dstlen : Z) :
  0 <= srclen < 2 ^ 32 -> 0 < dst < 2 ^ 64 ->
  connectx dns mem (Some (sa_endpoints srcif src srclen dst dstlen)) =
    if srclen <? 2 then Ok None else connect_addr dns (mem dst) srclen.
Proof.
  intros Hs Hd. unfold connectx.
  assert (E1 : read_le (buf_get (sa_endpoints srcif src srclen dst dstlen)) 8 24 = Ok (le_value (le_bytes 8 dst))) by reflexivity.
  assert (E2 : read_le (buf_get (sa_endpoints srcif src srclen dst dstlen)) 4 16 = Ok (le_value (le_bytes 4 srclen))) by reflexivity.
  rewrite E1. cbn [mbind res_bind]. rewrite E2, !le_value_bytes, !Z.mod_small by lia.
  rewrite (proj2 (Z.eqb_neq _ _)) by lia. done.
Qed.

(** ** The end of a process *)

(** The guest's exit writes what is left in stdout's buffer twice, and runs no
    handler; _exit writes it once. *)
Theorem exit_writes_twice (text : Z -> Z -> list Z) (base ptr status : Z) (handlers : list Z) :
  base < ptr -> ptr - base < 1048576 -> flush_sane base = true -> flush_sane ptr = true -> text base ptr <> [] ->
  macify_exit text (Some (base, ptr)) handlers status = Ending [text base ptr; text base ptr] [] status /\
  macify__exit text (Some (base, ptr)) status = Ending [text base ptr] [] status.
Proof.
  intros H1 H2 Hb Hp Hne. unfold macify_exit, macify__exit, raw_flush. rewrite Hb, Hp, (proj2 (Z.ltb_lt _ _) H2).
  assert (E : (ptr >? base) = true) by (rewrite Z.gtb_ltb; by apply Z.ltb_lt). rewrite E. cbn [andb].
  by destruct (text base ptr).
Qed.

(** A poisoned or absent buffer is left alone. *)
Lemma insane_not_flushed text stdout status :
  (forall base ptr, stdout = Some (base, ptr) -> flush_sane base = false \/ flush_sane ptr = false \/ ptr <= base) ->
  macify__exit text stdout status = Ending [] [] status.
Proof.
  intros H. unfold macify__exit, raw_flush. destruct stdout as [[base ptr]|]; [|done].
  destruct (H _ _ eq_refl) as [-> |[-> |Hle]]; rewrite ?andb_false_r; try done.
  by rewrite Z.gtb_ltb, (proj2 (Z.ltb_ge _ _) Hle).
Qed.

(** ** The functions of the shim *)

(** A name of the table reaches the shim's function whatever the system
    libraries export, unless a dylib of the program exports it or the name is
    one of those that are looked up in the shim directly. *)
Theorem shim_symbols_win (dlsym : Z -> string -> Z) (address : string -> Z) (L : link_state) (ordinal : Z) (sym : string) (d : loaded_dylib) :
  sym ∈ shim_symbols -> address sym <> 0 -> 0 <= ordinal -> g_dylibs L !! Z.to_nat ordinal = Some d ->
  shim_handle L <> 0 -> dlsym (shim_handle L) "macify_get_shim_symbol" <> 0 ->
  addrinfo_wrapper dlsym L sym = 0 -> interposed dlsym L sym = 0 -> macho_dylib_lookup (g_macho_dylibs L) sym = 0 ->
  resolve_symbol dlsym (get_shim_symbol address) L ordinal sym = address sym.
Proof.
  intros Hin Ha Ho Hd Hh Hg Hw Hi Hm.
  assert (He : streq sym "environ" || streq sym "__environ" = false).
  { unfold streq. repeat (apply elem_of_cons in Hin as [-> |Hin]; [done|]). by apply elem_of_nil in Hin. }
  rewrite resolve_symbol_providers. unfold providers, two_level_providers, shim_providers.
  rewrite Hw, (proj2 (Z.eqb_neq ordinal (-1))), (proj2 (Z.ltb_ge _ _) Ho), Hd, Hi, He, Hm by lia.
  rewrite (proj2 (Z.eqb_neq _ _) Hh), (proj2 (Z.eqb_neq _ _) Hg). cbn [orb app first_nonnull Z.eqb].
  assert (Es : get_shim_symbol address sym = address sym) by (unfold get_shim_symbol; by rewrite bool_decide_eq_true_2).
  rewrite Es. by rewrite (proj2 (Z.eqb_neq _ _) Ha).
Qed.

(** ** Witnesses *)

Lemma locale_masks_follow_categories_witness :
  macos_to_linux_mask 0x12 = 0x03 /\
  (Z.testbit (macos_to_linux_mask 0x12) LC_NUMERIC = true <->
   exists cat bit, (cat, bit, LC_NUMERIC) ∈ categories /\ macos_to_linux_category cat = LC_NUMERIC /\ Z.land 0x12 bit <> 0).
Proof.
  split; [reflexivity|]. destruct (locale_masks_follow_categories 0x12) as [H _].
  exact (H ltac:(discriminate) LC_NUMERIC ltac:(discriminate)).
Defined.

Lemma connectx_takes_source_length_witness :
  connectx None (fun _ => Some (16 :: 2 :: replicate 14 0)) (Some (sa_endpoints 0 0 0 4096 16)) = Ok None.
Proof. by rewrite (connectx_takes_source_length None (fun _ => Some (16 :: 2 :: replicate 14 0)) 0 0 0 4096 16) by lia. Defined.

Lemma exit_writes_twice_witness :
  macify_exit (fun a b => [104; 105]) (Some (0x20000, 0x20002)) [7] 0 = Ending [[104; 105]; [104; 105]] [] 0.
Proof. by apply (exit_writes_twice (fun a b => [104; 105]) 0x20000 0x20002 0 [7]). Defined.

Lemma calendar_items_witness : macos_to_linux_nl_item (33 + 11) = ABMON_1 + 11.
Proof. apply (calendar_items 11). lia. Defined.

Lemma shim_symbols_win_witness :
  let dlsym := fun h s => if (h =? 7) && streq s "macify_get_shim_symbol" then 0x60 else 0x10 in
  let L := mk_link [mk_dylib "shim" 7 0 0; mk_dylib "libSystem" 8 0 0] [] [] in
  resolve_symbol dlsym (get_shim_symbol (fun _ => 0x70)) L 1 "getpwuid" = 0x70.
Proof.
  intros dlsym L. apply (shim_symbols_win dlsym (fun _ => 0x70) L 1 "getpwuid" (mk_dylib "libSystem" 8 0 0)); try reflexivity; try discriminate.
  apply (bool_decide_unpack _). reflexivity.
Defined.
