(* ===== verification/SyscallNames.v ===== *)
(** * The names of the system calls (src/src/syscall/syscall_names.c)

    The table of names, which the traces print, against the table of numbers
    of SyscallTable.v: a call is translated to the Linux call of its name. *)
From Stdlib Require Import ZArith Lia Bool.
From stdpp Require Import base list strings numbers.
From S2P Require Import Prelude SyscallTable.

(** [names], by its designated initialisers. *)
Definition bsd_names : list (Z * string) := [
  (0, "syscall"); (1, "exit"); (2, "fork"); (3, "read"); (4, "write"); (5, "open"); (6, "close"); (7, "wait4");
  (8, "creat"); (9, "link"); (10, "unlink"); (11, "execv"); (12, "chdir"); (13, "fchdir"); (14, "mknod");
  (15, "chmod"); (16, "chown"); (17, "break"); (18, "getfsstat"); (19, "lseek"); (20, "getpid"); (21, "mount");
  (22, "umount"); (23, "setuid"); (24, "getuid"); (25, "geteuid"); (26, "ptrace"); (27, "recvmsg"); (28, "sendmsg");
  (29, "recvfrom"); (30, "accept"); (31, "getpeername"); (32, "getsockname"); (33, "access"); (34, "chflags");
  (35, "fchflags"); (36, "sync"); (37, "kill"); (38, "crossarch_trap"); (39, "getppid"); (40, "lstat"); (41, "dup");
  (42, "pipe"); (43, "getegid"); (44, "profil"); (45, "ktrace"); (46, "sigaction"); (47, "getgid");
  (48, "sigprocmask"); (49, "getlogin"); (50, "setlogin"); (51, "acct"); (52, "sigpending"); (53, "sigaltstack");
  (54, "ioctl"); (55, "reboot"); (56, "revoke"); (57, "symlink"); (58, "readlink"); (59, "execve"); (60, "umask");
  (61, "chroot"); (62, "fstat"); (64, "getpagesize"); (65, "msync"); (66, "vfork"); (67, "oslog_coproc_reg");
  (68, "oslog_coproc"); (69, "sbrk"); (70, "sstk"); (71, "mmap"); (72, "vadvise"); (73, "munmap"); (74, "mprotect");
  (75, "madvise"); (76, "vhangup"); (77, "vlimit"); (78, "mincore"); (79, "getgroups"); (80, "setgroups");
  (81, "getpgrp"); (82, "setpgid"); (83, "setitimer"); (84, "wait"); (85, "swapon"); (86, "getitimer");
  (87, "gethostname"); (88, "sethostname"); (89, "getdtablesize"); (90, "dup2"); (91, "getdopt"); (92, "fcntl");
  (93, "select"); (94, "setdopt"); (95, "fsync"); (96, "setpriority"); (97, "socket"); (98, "connect");
  (99, "accept"); (100, "getpriority"); (101, "send"); (102, "recv"); (103, "sigreturn"); (104, "bind");
  (105, "setsockopt"); (106, "listen"); (107, "vtimes"); (108, "sigvec"); (109, "sigblock"); (110, "sigsetmask");
  (111, "sigsuspend"); (112, "sigstack"); (113, "recvmsg"); (114, "sendmsg"); (115, "vtrace"); (116, "gettimeofday");
  (117, "getrusage"); (118, "getsockopt"); (119, "resuba"); (120, "readv"); (121, "writev"); (122, "settimeofday");
  (123, "fchown"); (124, "fchmod"); (125, "recvfrom"); (126, "setreuid"); (127, "setregid"); (128, "rename");
  (129, "truncate"); (130, "ftruncate"); (131, "flock"); (132, "mkfifo"); (133, "sendto"); (134, "shutdown");
  (135, "socketpair"); (136, "mkdir"); (137, "rmdir"); (138, "utimes"); (139, "futimes"); (140, "adjtime");
  (141, "getpeername"); (142, "gethostuuid"); (147, "setsid"); (148, "setquota"); (149, "qquota");
  (150, "getsockname"); (151, "getpgid"); (152, "setprivexec"); (153, "pread"); (154, "pwrite"); (155, "nfssvc");
  (156, "getdirentries"); (157, "statfs"); (158, "fstatfs"); (159, "unmount"); (160, "async_daemon"); (161, "getfh");
  (162, "getdomainname"); (163, "setdomainname"); (164, "funmount"); (165, "quotactl"); (166, "exportfs");
  (167, "mount"); (168, "ustat"); (169, "csops"); (170, "csops_audittoken"); (171, "wait3"); (172, "rpause");
  (173, "waitid"); (174, "getdents"); (175, "gc_control"); (176, "add_profil"); (177, "kdebug_typefilter");
  (178, "kdebug_trace_string"); (179, "kdebug_trace64"); (180, "kdebug_trace"); (181, "setgid"); (182, "setegid");
  (183, "seteuid"); (184, "sigreturn"); (185, "panic_with_data"); (186, "thread_selfcounts"); (187, "fdatasync");
  (188, "stat"); (189, "fstat"); (190, "lstat"); (191, "pathconf"); (192, "fpathconf"); (193, "getfsstat");
  (194, "getrlimit"); (195, "setrlimit"); (196, "getdirentries"); (197, "mmap"); (198, "__syscall"); (199, "lseek");
  (200, "truncate"); (201, "ftruncate"); (202, "sysctl"); (203, "mlock"); (204, "munlock"); (205, "undelete");
  (206, "ATsocket"); (207, "ATgetmsg"); (208, "ATputmsg"); (209, "ATsndreq"); (210, "ATsndrsp"); (211, "ATgetreq");
  (212, "ATgetrsp"); (216, "open_dprotected_np"); (217, "fsgetpath_ext"); (218, "openat_dprotected_np");
  (220, "getattrlist"); (221, "setattrlist"); (222, "getdirentriesattr"); (223, "exchangedata");
  (224, "checkuseraccess"); (225, "searchfs"); (226, "delete"); (227, "copyfile"); (228, "fgetattrlist");
  (229, "fsetattrlist"); (230, "poll"); (231, "watchevent"); (232, "waitevent"); (233, "modwatch");
  (234, "getxattr"); (235, "fgetxattr"); (236, "setxattr"); (237, "fsetxattr"); (238, "removexattr");
  (239, "fremovexattr"); (240, "listxattr"); (241, "flistxattr"); (242, "fsctl"); (243, "initgroups");
  (244, "posix_spawn"); (245, "ffsctl"); (246, "nosys"); (247, "nfsclnt"); (248, "fhopen"); (250, "minherit");
  (251, "semsys"); (252, "msgsys"); (253, "shmsys"); (254, "semctl"); (255, "semget"); (256, "semop");
  (257, "semconfig"); (258, "msgctl"); (259, "msgget"); (260, "msgsnd"); (261, "msgrcv"); (262, "shmat");
  (263, "shmctl"); (264, "shmdt"); (265, "shmget"); (266, "shm_open"); (267, "shm_unlink"); (268, "sem_open");
  (269, "sem_close"); (270, "sem_unlink"); (271, "sem_wait"); (272, "sem_trywait"); (273, "sem_post");
  (274, "sysctlbyname"); (275, "sem_init"); (276, "sem_destroy"); (277, "open_extended"); (278, "umask_extended");
  (279, "stat_extended"); (280, "lstat_extended"); (281, "fstat_extended"); (282, "chmod_extended");
  (283, "fchmod_extended"); (284, "access_extended"); (285, "settid"); (286, "gettid"); (287, "setsgroups");
  (288, "getsgroups"); (289, "setwgroups"); (290, "getwgroups"); (291, "mkfifo_extended"); (292, "mkdir_extended");
  (293, "identitysvc"); (294, "shared_region_check_np"); (295, "shared_region_map_np"); (296, "vm_pressure_monitor");
  (301, "psynch_mutexwait"); (302, "psynch_mutexdrop"); (303, "psynch_cvbroad"); (304, "psynch_cvsignal");
  (305, "psynch_cvwait"); (306, "psynch_rw_rdlock"); (307, "psynch_rw_wrlock"); (308, "psynch_rw_unlock");
  (309, "psynch_rw_unlock2"); (310, "getsid"); (311, "settid_with_pid"); (312, "psynch_cvclrprepost");
  (313, "aio_fsync"); (314, "aio_return"); (315, "aio_suspend"); (316, "aio_cancel"); (317, "aio_error");
  (318, "aio_read"); (319, "aio_write"); (320, "lio_listio"); (321, "__pthread_cond_wait"); (322, "iopolicysys");
  (323, "process_policy"); (324, "mlockall"); (325, "munlockall"); (327, "issetugid"); (328, "__pthread_kill");
  (329, "__pthread_sigmask"); (330, "__sigwait"); (331, "__disable_threadsignal"); (332, "__pthread_markcancel");
  (333, "__pthread_canceled"); (334, "__semwait_signal"); (335, "utrace"); (336, "proc_info"); (337, "sendfile");
  (338, "stat64"); (339, "fstat64"); (340, "lstat64"); (341, "stat64_extended"); (342, "lstat64_extended");
  (343, "fstat64_extended"); (344, "getdirentries64"); (345, "statfs64"); (346, "fstatfs64"); (347, "getfsstat64");
  (348, "__pthread_chdir"); (349, "__pthread_fchdir"); (350, "audit"); (351, "auditon"); (353, "getauid");
  (354, "setauid"); (357, "getaudit_addr"); (358, "setaudit_addr"); (359, "auditctl"); (360, "bsdthread_create");
  (361, "bsdthread_terminate"); (362, "kqueue"); (363, "kevent"); (364, "lchown"); (365, "stack_snapshot");
  (366, "bsdthread_register"); (367, "workq_open"); (368, "workq_kernreturn"); (369, "kevent64");
  (370, "__semwait_signal"); (371, "__semwait_signal"); (372, "thread_selfid"); (373, "ledger"); (374, "kevent_qos");
  (375, "kevent_id"); (380, "__mac_execve"); (381, "__mac_syscall"); (382, "__mac_get_file");
  (383, "__mac_set_file"); (384, "__mac_get_link"); (385, "__mac_set_link"); (386, "__mac_get_proc");
  (387, "__mac_set_proc"); (388, "__mac_get_fd"); (389, "__mac_set_fd"); (390, "__mac_get_pid"); (394, "pselect");
  (395, "pselect_nocancel"); (396, "read_nocancel"); (397, "write_nocancel"); (398, "open_nocancel");
  (399, "close_nocancel"); (400, "wait4_nocancel"); (401, "recvmsg_nocancel"); (402, "sendmsg_nocancel");
  (403, "recvfrom_nocancel"); (404, "accept_nocancel"); (405, "msync_nocancel"); (406, "fcntl_nocancel");
  (407, "select_nocancel"); (408, "fsync_nocancel"); (409, "connect_nocancel"); (410, "sigsuspend_nocancel");
  (411, "readv_nocancel"); (412, "writev_nocancel"); (413, "sendto_nocancel"); (414, "pread_nocancel");
  (415, "pwrite_nocancel"); (416, "waitid_nocancel"); (417, "poll_nocancel"); (418, "msgsnd_nocancel");
  (419, "msgrcv_nocancel"); (420, "sem_wait_nocancel"); (421, "aio_suspend_nocancel"); (422, "__sigwait_nocancel");
  (424, "__mac_mount"); (425, "__mac_get_mount"); (426, "__mac_getfsstat"); (427, "fsgetpath");
  (428, "audit_session_self"); (429, "audit_session_join"); (430, "fileport_makeport"); (431, "fileport_makefd");
  (432, "audit_session_port"); (433, "pid_suspend"); (434, "pid_resume"); (435, "pid_hibernate");
  (436, "pid_shutdown_sockets"); (439, "kas_info"); (440, "memorystatus_control"); (441, "guarded_open_np");
  (442, "guarded_close_np"); (443, "guarded_kqueue_np"); (444, "change_fdguard_np"); (445, "usrctl");
  (446, "proc_rlimit_control"); (447, "connectx"); (448, "disconnectx"); (449, "peeloff"); (450, "socket_delegate");
  (451, "telemetry"); (452, "proc_uuid_policy"); (453, "memorystatus_get_level"); (454, "system_override");
  (455, "vfs_purge"); (456, "sfi_ctl"); (457, "sfi_pidctl"); (458, "coalition"); (459, "coalition_info");
  (461, "getattrlistbulk"); (462, "clonefileat"); (463, "openat"); (464, "openat_nocancel"); (465, "renameat");
  (466, "faccessat"); (467, "fchmodat"); (468, "fchownat"); (469, "fstatat"); (470, "fstatat64"); (471, "linkat");
  (472, "unlinkat"); (473, "readlinkat"); (474, "symlinkat"); (475, "mkdirat"); (476, "getattrlistat");
  (477, "proc_trace_log"); (478, "bsdthread_ctl"); (479, "openbyid_np"); (480, "recvmsg_x"); (481, "sendmsg_x");
  (482, "thread_selfusage"); (483, "csrctl"); (484, "guarded_open_dprotected_np"); (485, "guarded_write_np");
  (486, "guarded_pwrite_np"); (487, "guarded_writev_np"); (488, "renameatx_np"); (489, "mremap_encrypted");
  (490, "netagent_trigger"); (491, "stack_snapshot_with_config"); (492, "microstackshot"); (494, "persona");
  (496, "mach_eventlink_signal"); (497, "mach_eventlink_wait_until"); (498, "mach_eventlink_signal_wait_until");
  (499, "work_interval_ctl"); (500, "getentropy"); (501, "necp_open"); (502, "necp_client_action");
  (515, "ulock_wait"); (516, "ulock_wake"); (517, "fclonefileat"); (518, "fs_snapshot");
  (520, "terminate_with_payload"); (521, "abort_with_payload"); (530, "kqueue_workloop_ctl"); (540, "preadv");
  (541, "pwritev"); (542, "preadv_nocancel"); (543, "pwritev_nocancel") ]%string.

Fixpoint name_at (tbl : list (Z * string)) (i : Z) : option string :=
  match tbl with [] => None | (k, v) :: tbl => if k =? i then Some v else name_at tbl i end.

Definition bsd_syscall_name (bsd_nr : Z) : string :=
  if bsd_nr >=? BSD_SYSCALL_MAX then "?" else default "?"%string (name_at bsd_names bsd_nr).

(** ** The kernel's names *)

(** What the numbers of <sys/syscall.h> that SyscallTable.v uses stand for. *)
Definition linux_names : list (Z * string) := [
  (231, "exit_group"); (SYS_fork, "fork"); (SYS_read, "read"); (SYS_write, "write"); (SYS_open, "open");
  (SYS_close, "close"); (SYS_wait4, "wait4"); (SYS_link, "link"); (SYS_unlink, "unlink"); (SYS_chdir, "chdir");
  (SYS_fchdir, "fchdir"); (SYS_mknod, "mknod"); (SYS_chmod, "chmod"); (SYS_chown, "chown"); (SYS_getpid, "getpid");
  (SYS_setuid, "setuid"); (SYS_getuid, "getuid"); (SYS_geteuid, "geteuid"); (SYS_recvmsg, "recvmsg");
  (SYS_sendmsg, "sendmsg"); (SYS_recvfrom, "recvfrom"); (SYS_accept, "accept"); (SYS_getpeername, "getpeername");
  (SYS_getsockname, "getsockname"); (SYS_access, "access"); (SYS_sync, "sync"); (SYS_kill, "kill");
  (SYS_getppid, "getppid"); (SYS_dup, "dup"); (SYS_pipe, "pipe"); (SYS_getegid, "getegid");
  (SYS_rt_sigaction, "rt_sigaction"); (SYS_getgid, "getgid"); (SYS_rt_sigprocmask, "rt_sigprocmask");
  (SYS_sigaltstack, "sigaltstack"); (SYS_ioctl, "ioctl"); (SYS_symlink, "symlink"); (SYS_readlink, "readlink");
  (SYS_execve, "execve"); (SYS_umask, "umask"); (SYS_chroot, "chroot"); (SYS_msync, "msync"); (SYS_munmap, "munmap");
  (SYS_mprotect, "mprotect"); (SYS_madvise, "madvise"); (SYS_mincore, "mincore"); (SYS_getgroups, "getgroups");
  (SYS_setgroups, "setgroups"); (SYS_getpgrp, "getpgrp"); (SYS_setpgid, "setpgid"); (SYS_setitimer, "setitimer");
  (SYS_getitimer, "getitimer"); (SYS_dup2, "dup2"); (SYS_fcntl, "fcntl"); (SYS_select, "select");
  (SYS_fsync, "fsync"); (SYS_setpriority, "setpriority"); (SYS_socket, "socket"); (SYS_connect, "connect");
  (SYS_getpriority, "getpriority"); (SYS_gettimeofday, "gettimeofday"); (SYS_getrusage, "getrusage");
  (SYS_getsockopt, "getsockopt"); (SYS_readv, "readv"); (SYS_writev, "writev"); (SYS_settimeofday, "settimeofday");
  (SYS_fchown, "fchown"); (SYS_fchmod, "fchmod"); (SYS_setreuid, "setreuid"); (SYS_setregid, "setregid");
  (SYS_rename, "rename"); (SYS_flock, "flock"); (SYS_sendto, "sendto"); (SYS_shutdown, "shutdown");
  (SYS_socketpair, "socketpair"); (SYS_mkdir, "mkdir"); (SYS_rmdir, "rmdir"); (SYS_utimes, "utimes");
  (SYS_setsid, "setsid"); (SYS_getpgid, "getpgid"); (SYS_pread64, "pread64"); (SYS_pwrite64, "pwrite64");
  (SYS_fdatasync, "fdatasync"); (SYS_mmap, "mmap"); (SYS_lseek, "lseek"); (SYS_truncate, "truncate");
  (SYS_ftruncate, "ftruncate"); (SYS_mlock, "mlock"); (SYS_munlock, "munlock"); (SYS_poll, "poll");
  (SYS_openat, "openat"); (SYS_renameat, "renameat"); (SYS_faccessat, "faccessat"); (SYS_fchmodat, "fchmodat");
  (SYS_fchownat, "fchownat"); (SYS_unlinkat, "unlinkat"); (SYS_readlinkat, "readlinkat"); (SYS_getrandom, "getrandom") ]%string.

(** The calls whose Linux counterpart has another name. *)
Definition linux_spelling (name : string) : string :=
  default name (match find (fun '(a, _) => streq a name)
    [ ("exit", "exit_group"); ("sigaction", "rt_sigaction"); ("sigprocmask", "rt_sigprocmask"); ("pread", "pread64");
      ("pwrite", "pwrite64"); ("getentropy", "getrandom") ]%string with Some (_, b) => Some b | None => None end).

(** A call and its variant that is no cancellation point. *)
Definition nocancel : string := "_nocancel".

Fixpoint strip_nocancel (s : string) : string :=
  match s with EmptyString => EmptyString | String c r => if streq s nocancel then EmptyString else String c (strip_nocancel r) end.

(** ** Translated calls keep their names *)

Definition same_name (e : Z * Z) : bool :=
  match name_at linux_names e.2 with
  | Some l => streq l (linux_spelling (strip_nocancel (bsd_syscall_name e.1)))
  | None => false
  end.

(** [nr] is a variant of the call [e]: it must be translated as [e] is. *)
Definition same_variant (e : Z * Z) (v : Z * string) : bool :=
  if streq v.2 (bsd_syscall_name e.1 +:+ nocancel) then
    (bsd_to_linux v.1 =? e.2) && (bsd_arg_flags v.1 =? bsd_arg_flags e.1)
  else true.

Definition nocancel_names : list (Z * string) :=
  filter (fun v => strip_nocancel v.2 <> v.2) bsd_names.

Lemma names_agree : forallb same_name bsd_to_linux_table = true.
Proof. vm_compute. reflexivity. Qed.

Lemma variants_agree : forallb (fun e => forallb (same_variant e) nocancel_names) bsd_to_linux_table = true.
Proof. vm_compute. reflexivity. Qed.

Lemma strip_variant s : strip_nocancel (s +:+ nocancel) <> s +:+ nocancel.
Proof.
  induction s as [|c s IH]; [done|]. change (String c s +:+ nocancel) with (String c (s +:+ nocancel)). cbn [strip_nocancel].
  destruct (streq _ _); [done|]. intros [= E]. by apply IH.
Qed.

(** Every call the number table translates goes to the Linux
    call of the same name, by the table of names and up to the six calls that
    Linux spells differently; a variant that is no cancellation point is
    translated, number and argument flags, as the call it is a variant of. *)
Theorem translated_calls_keep_their_names (nr linux : Z) :
  (nr, linux) ∈ bsd_to_linux_table ->
  name_at linux_names linux = Some (linux_spelling (strip_nocancel (bsd_syscall_name nr))) /\
  forall v, (v, bsd_syscall_name nr +:+ nocancel) ∈ bsd_names ->
    bsd_to_linux v = linux /\ bsd_arg_flags v = bsd_arg_flags nr.
Proof.
  intros Hin%list_elem_of_In. split.
  - pose proof (proj1 (forallb_forall _ _) names_agree _ Hin) as H. unfold same_name in H. cbn [fst snd] in H.
    destruct (name_at linux_names linux) as [l|]; [|done]. by apply bool_decide_eq_true in H as ->.
  - intros v Hv. pose proof (proj1 (forallb_forall _ _) variants_agree _ Hin) as H. cbv beta in H.
    assert (Hv' : (v, bsd_syscall_name nr +:+ nocancel) ∈ nocancel_names)
      by (apply list_elem_of_filter; split; [apply strip_variant|done]).
    apply list_elem_of_In in Hv'. pose proof (proj1 (forallb_forall _ _) H _ Hv') as E. unfold same_variant in E. cbn [fst snd] in E.
    unfold streq in E. rewrite bool_decide_eq_true_2 in E by done. apply andb_true_iff in E as [E1 E2]. lia.
Qed.

Lemma translated_calls_keep_their_names_witness :
  name_at linux_names SYS_pread64 = Some "pread64"%string /\ bsd_to_linux 414 = SYS_pread64.
Proof.
  destruct (translated_calls_keep_their_names 153 SYS_pread64) as [H1 H2]; [apply list_elem_of_In; cbn; tauto|].
  split; [exact H1|]. apply (H2 414). apply list_elem_of_In. cbn. tauto.
Defined.
