(* ===== verification/Watchdog.v ===== *)
(** * The watchdog (src/src/watchdog.c)

    A timer whose handler reports where a hung program is: the segment an
    address lies in, the return addresses on the chain of frame pointers, the
    memory map.  What is printed is modelled as the values, not their text;
    glibc's own backtrace is quota out. *)
From Stdlib Require Import ZArith Lia Bool.
From stdpp Require Import base gmap list strings numbers.
From S2P Require Import Prelude LoaderState Sysctl.

(** ** The report *)

(** The segment of the program an address lies in. *)
Fixpoint describe_addr (segs : list loaded_segment) (addr : Z) : option loaded_segment :=
  match segs with
  | [] => None
  | s :: segs => if (vmaddr s <=? addr) && (addr <? u64 (vmaddr s + vmsize s)) then Some s else describe_addr segs addr
  end.

(** The walk over the frame pointers, [quota] frames before the limit. *)
Fixpoint frame_walk (quota : nat) (m : mem) (rbp : Z) : res (list Z) :=
  match quota with
  | O => Ok []
  | S quota =>
      if rbp =? 0 then Ok [] else
      next_rbp ← load64 m rbp;
      ret_addr ← load64 m (u64 (rbp + 8));
      if ret_addr =? 0 then Ok [] else
      if next_rbp <=? rbp then Ok [ret_addr] else
      rest ← frame_walk quota m next_rbp;
      Ok (ret_addr :: rest)
  end.

Definition FRAME_LIMIT : nat := 64.

(** The pieces of /proc/self/maps that are written, [total] bytes so far. *)
Fixpoint dump_maps (reads : list (list Z)) (total : Z) : list (list Z) :=
  match reads with
  | [] => []
  | piece :: reads =>
      if (0 <? buf_len piece) && (total <? 65536) then piece :: dump_maps reads (total + buf_len piece) else []
  end.

(** ** Arming and firing *)

Inductive watch_event :=
| Quiet
| Report (frames : list Z) (maps : list (list Z)) (status : Z).

(** [armed] is [macify_watchdog_armed]; the new value and what happens. *)
Definition watchdog_handler (armed : bool) (m : mem) (rbp : Z) (maps : list (list Z)) : res (bool * watch_event) :=
  match armed with
  | false => Ok (false, Quiet)
  | true => frames ← frame_walk FRAME_LIMIT m rbp; Ok (false, Report frames (dump_maps maps 0) 233)
  end.

(** [atoi]. *)
Definition atoi (s : string) : Z := match scan_int s with Some (v, _) => i32 v | None => 0 end.

(** The seconds of the timer, when it is set; [sigaction_ok] is whether the
    handler could be installed. *)
Definition arm_watchdog (env : option string) (sigaction_ok : bool) : option Z :=
  match env with
  | None | Some EmptyString => None
  | Some s => let timeout := atoi s in if timeout <=? 0 then None else if sigaction_ok then Some timeout else None
  end.

(** ** The walk is bounded and follows the stack upwards *)

(** The frames of a stack: frame pointers, growing, with their return
    addresses; the last one leads nowhere. *)
Inductive frames (m : mem) : Z -> list (Z * Z) -> Prop :=
| frames_none : frames m 0 []
| frames_end rbp next : rbp <> 0 -> load64 m rbp = Ok next -> load64 m (u64 (rbp + 8)) = Ok 0 -> frames m rbp []
| frames_last rbp next ret : rbp <> 0 -> load64 m rbp = Ok next -> load64 m (u64 (rbp + 8)) = Ok ret -> ret <> 0 ->
    next <= rbp -> frames m rbp [(rbp, ret)]
| frames_more rbp next ret l : rbp <> 0 -> load64 m rbp = Ok next -> load64 m (u64 (rbp + 8)) = Ok ret -> ret <> 0 ->
    rbp < next -> frames m next l -> frames m rbp ((rbp, ret) :: l).

Lemma frame_walk_frames m rbp l : frames m rbp l -> forall quota, frame_walk quota m rbp = Ok (take quota (map snd l)).
Proof.
  induction 1 as [|rbp next H0 H1 H2|rbp next ret H0 H1 H2 Hr Hn|rbp next ret l H0 H1 H2 Hr Hn _ IH];
    intros [|quota]; cbn [frame_walk map take]; try done.
  - by rewrite (proj2 (Z.eqb_neq _ _) H0), H1, H2.
  - rewrite (proj2 (Z.eqb_neq _ _) H0), H1. cbn [mbind res_bind]. rewrite H2. cbn [mbind res_bind].
    rewrite (proj2 (Z.eqb_neq _ _) Hr), (proj2 (Z.leb_le _ _) Hn). by rewrite take_nil.
  - rewrite (proj2 (Z.eqb_neq _ _) H0), H1. cbn [mbind res_bind]. rewrite H2. cbn [mbind res_bind].
    rewrite (proj2 (Z.eqb_neq _ _) Hr), (proj2 (Z.leb_gt _ _)), IH by lia. done.
Qed.

Lemma dump_maps_bound reads : Forall (fun p => buf_len p <= 8192) reads -> forall total, total <= 65536 + 8192 ->
  total + buf_len (concat (dump_maps reads total)) <= 65536 + 8192.
Proof.
  induction 1 as [|p reads Hp _ IH]; intros total Ht; cbn [dump_maps concat]; [change (buf_len []) with 0; lia|].
  destruct (0 <? buf_len p); cbn [andb]; [|change (buf_len (concat [])) with 0; lia].
  destruct (Z.ltb_spec total 65536); [|change (buf_len (concat [])) with 0; lia].
  cbn [concat]. rewrite buf_len_app. specialize (IH (total + buf_len p)). lia.
Qed.

(** On a stack whose frames it can read, the handler reports
    the first 64 return addresses and ends the program with 233, after at most
    73728 bytes of the memory map; it does so once, and a second signal is
    ignored. *)
Theorem watchdog_reports_once (m : mem) (rbp : Z) (l : list (Z * Z)) (maps : list (list Z)) :
  frames m rbp l -> Forall (fun p => buf_len p <= 8192) maps ->
  exists out, watchdog_handler true m rbp maps = Ok (false, Report (take 64 (map snd l)) out 233) /\
    buf_len (concat out) <= 65536 + 8192 /\ forall m' rbp' maps', watchdog_handler false m' rbp' maps' = Ok (false, Quiet).
Proof.
  intros Hf Hm. exists (dump_maps maps 0). unfold watchdog_handler. rewrite (frame_walk_frames _ _ _ Hf). split; [done|].
  split; [|done]. pose proof (dump_maps_bound maps Hm 0). lia.
Qed.

(** A segment is reported when the address lies in it and in none before. *)
Lemma describe_addr_first segs addr s :
  describe_addr segs addr = Some s -> exists pre post, segs = pre ++ s :: post /\
    vmaddr s <= addr < u64 (vmaddr s + vmsize s) /\ Forall (fun r => ~ vmaddr r <= addr < u64 (vmaddr r + vmsize r)) pre.
Proof.
  induction segs as [|r segs IH]; cbn [describe_addr]; [done|].
  destruct (Z.leb_spec (vmaddr r) addr), (Z.ltb_spec addr (u64 (vmaddr r + vmsize r))); cbn [andb];
    try (intros (pre & post & -> & Hs & Hp)%IH; exists (r :: pre), post; repeat split; [lia..|constructor; [lia|done]]; fail).
  intros [= <-]. exists [], segs. repeat split; [lia..|constructor].
Qed.

Lemma watchdog_reports_once_witness :
  let m : mem := list_to_map (zip (seqZ 4096 32) (le_bytes 8 4112 ++ le_bytes 8 77 ++ le_bytes 8 0 ++ le_bytes 8 78)) in
  exists out, watchdog_handler true m 4096 [] = Ok (false, Report [77; 78] out 233).
Proof.
  intros m. destruct (watchdog_reports_once m 4096 [(4096, 77); (4112, 78)] []) as (out & E & _).
  - eapply frames_more; [done|vm_compute; reflexivity|vm_compute; reflexivity|done|done|].
    eapply frames_last; [done|vm_compute; reflexivity|vm_compute; reflexivity|done|done].
  - constructor.
  - by exists out.
Defined.
