(* ===== verification/ThreadStart.v ===== *)
(** * The start of a thread (src/shim/pthread/create.c)

    [thread_start_wrapper], which [pthread_create] runs: the signal stack
    of a new thread, the area that holds the current goroutine of a Go
    program ([gs:0x30]) and its signal mask.  Memory is the areas that mmap
    gave out and the words at [gs:0x30]; which address mmap gives is a
    parameter. *)
From Stdlib Require Import ZArith Lia Bool.
From stdpp Require Import base gmap list numbers.
From S2P Require Import Prelude.

(** ** State *)

Definition SIGSTACK_SIZE : Z := 1024 * 1024.
Definition TLS_AREA_SIZE : Z := 0x100.
Definition G_OFFSET : Z := 0x30.

(** [ts_gs] is the GS base of each thread, [ts_alt] its signal stack,
    [ts_blocked] its blocked signals; a word that was not written is 0. *)
Record threads := Threads {
  ts_areas : list (Z * Z);
  ts_words : gmap Z Z;
  ts_gs : gmap nat Z;
  ts_alt : gmap nat (Z * Z);
  ts_blocked : gmap nat Z
}.

(** What a Go program reads at [gs:0x30]. *)
Definition g_of (s : threads) (t : nat) : option Z :=
  match ts_gs s !! t with Some gs => Some (default 0 (ts_words s !! (gs + G_OFFSET))) | None => None end.

Section start.
(** mmap with no address: [None] is MAP_FAILED. *)
Context (place : list (Z * Z) -> Z -> option Z).

(** The kernel's rt_sigprocmask with SIG_BLOCK: the size must be that of its
    own set. *)
Definition EINVAL_thread : Z := 22.

Definition block_signals (bits sigsetsize blocked : Z) : Z * Z :=
  if sigsetsize =? 8 then (0, Z.lor blocked bits) else (- EINVAL_thread, blocked).

(** SIGURG is signal 23; [sizeof(sigset_t)] is glibc's. *)
Definition SIGURG_BIT : Z := Z.shiftl 1 22.
Definition SIZEOF_SIGSET : Z := 128.

(** The thread as clone makes it: GS base and mask are the parent's. *)
Definition inherit (parent child : nat) (s : threads) : threads :=
  Threads (ts_areas s) (ts_words s)
    (match ts_gs s !! parent with Some gs => <[child := gs]> (ts_gs s) | None => ts_gs s end)
    (delete child (ts_alt s))
    (match ts_blocked s !! parent with Some b => <[child := b]> (ts_blocked s) | None => ts_blocked s end).

Definition set_sigstack (child : nat) (s : threads) : threads :=
  match place (ts_areas s) SIGSTACK_SIZE with
  | None => s
  | Some a => Threads ((a, SIGSTACK_SIZE) :: ts_areas s) (ts_words s) (ts_gs s) (<[child := (a, SIGSTACK_SIZE)]> (ts_alt s)) (ts_blocked s)
  end.

(** The area is cleared and becomes the GS base. *)
Definition set_tls_area (child : nat) (s : threads) : threads :=
  match place (ts_areas s) TLS_AREA_SIZE with
  | None => s
  | Some a => Threads ((a, TLS_AREA_SIZE) :: ts_areas s) (delete (a + G_OFFSET) (ts_words s)) (<[child := a]> (ts_gs s)) (ts_alt s) (ts_blocked s)
  end.

Definition block_sigurg (child : nat) (s : threads) : threads :=
  match ts_blocked s !! child with
  | Some b => Threads (ts_areas s) (ts_words s) (ts_gs s) (ts_alt s) (<[child := (block_signals SIGURG_BIT SIZEOF_SIGSET b).2]> (ts_blocked s))
  | None => s
  end.

(** Up to the call of the routine; [go] is whether [g_tls_g_addr] is set. *)
Definition thread_start (go : bool) (parent child : nat) (s : threads) : threads :=
  let s := set_sigstack child (inherit parent child s) in
  match go with true => block_sigurg child (set_tls_area child s) | false => s end.

(** Go's write of the current goroutine. *)
Definition set_g (t : nat) (v : Z) (s : threads) : threads :=
  match ts_gs s !! t with
  | Some gs => Threads (ts_areas s) (<[gs + G_OFFSET := v]> (ts_words s)) (ts_gs s) (ts_alt s) (ts_blocked s)
  | None => s
  end.

(** The steps of a Go program: a thread [parent] starts [child], a thread
    stores its goroutine. *)
Inductive go_step (s : threads) : threads -> Prop :=
| go_start parent child : is_Some (ts_gs s !! parent) -> ts_gs s !! child = None ->
    is_Some (place (ts_areas (set_sigstack child (inherit parent child s))) TLS_AREA_SIZE) -> go_step s (thread_start true parent child s)
| go_set t v : is_Some (ts_gs s !! t) -> go_step s (set_g t v s).

(** ** Each thread has a slot of its own *)

Definition disjoint (a b : Z * Z) : Prop := a.1 + a.2 <= b.1 \/ b.1 + b.2 <= a.1.

(** mmap gives memory that is not in use. *)
Context (place_fresh : forall areas len a, place areas len = Some a -> Forall (disjoint (a, len)) areas).

(** The slots lie in areas that are in use and do not meet. *)
Definition slot (gs : Z) : Z * Z := (gs + G_OFFSET, 8).

Definition inside (x a : Z * Z) : Prop := a.1 <= x.1 /\ x.1 + x.2 <= a.1 + a.2.

Record slots_apart (s : threads) : Prop := {
  sa_used t gs : ts_gs s !! t = Some gs -> Exists (inside (slot gs)) (ts_areas s);
  sa_apart t u gs gs' : ts_gs s !! t = Some gs -> ts_gs s !! u = Some gs' -> t <> u -> disjoint (slot gs) (slot gs')
}.

Lemma disjoint_inside x y a b : inside x a -> inside y b -> disjoint a b -> disjoint x y.
Proof. unfold inside, disjoint. lia. Qed.

Lemma fresh_slot areas len a gs :
  place areas len = Some a -> TLS_AREA_SIZE <= len -> Exists (inside (slot gs)) areas -> disjoint (slot a) (slot gs).
Proof.
  intros Hp Hlen Hex. apply place_fresh in Hp. apply Exists_exists in Hex as (b & Hb & Hin).
  rewrite Forall_forall in Hp. apply (disjoint_inside _ _ (a, len) b); [|done|by apply Hp].
  unfold inside, slot, G_OFFSET, TLS_AREA_SIZE in *. cbn. lia.
Qed.

Lemma set_sigstack_gs child s : ts_gs (set_sigstack child s) = ts_gs s.
Proof. unfold set_sigstack. by destruct (place _ _). Qed.

Lemma set_sigstack_words child s : ts_words (set_sigstack child s) = ts_words s.
Proof. unfold set_sigstack. by destruct (place _ _). Qed.

Lemma set_sigstack_areas child s P : Exists P (ts_areas s) -> Exists P (ts_areas (set_sigstack child s)).
Proof. intros H. unfold set_sigstack. destruct (place _ _); [by apply Exists_cons; right|done]. Qed.

Lemma block_sigurg_gs child s : ts_gs (block_sigurg child s) = ts_gs s /\ ts_words (block_sigurg child s) = ts_words s /\ ts_areas (block_sigurg child s) = ts_areas s.
Proof. unfold block_sigurg. by destruct (ts_blocked s !! child). Qed.

(** What starting a thread leaves, when the area could be had. *)
Lemma thread_start_go parent child s a :
  place (ts_areas (set_sigstack child (inherit parent child s))) TLS_AREA_SIZE = Some a -> is_Some (ts_gs s !! parent) ->
  ts_gs (thread_start true parent child s) = <[child := a]> (ts_gs s) /\
  ts_words (thread_start true parent child s) = delete (a + G_OFFSET) (ts_words s) /\
  exists areas, ts_areas (thread_start true parent child s) = (a, TLS_AREA_SIZE) :: areas /\
    place areas TLS_AREA_SIZE = Some a /\ forall P, Exists P (ts_areas s) -> Exists P areas.
Proof.
  intros Hp [gs Hgs]. unfold thread_start. destruct (block_sigurg_gs child (set_tls_area child (set_sigstack child (inherit parent child s)))) as (-> & -> & ->).
  unfold set_tls_area. rewrite Hp. cbn [ts_gs ts_words ts_areas]. rewrite set_sigstack_gs, set_sigstack_words.
  split; [unfold inherit; cbn; rewrite Hgs; by rewrite insert_insert_eq|]. split; [done|]. eexists. split; [done|]. split; [done|].
  intros P HP. by apply set_sigstack_areas.
Qed.

(** The state when a Go program starts: one thread, whose slot is [tls_g]. *)
Definition go_initial (tls_g : Z) (s : threads) : Prop :=
  ts_gs s = {[ 0%nat := tls_g - G_OFFSET ]} /\ Exists (inside (tls_g, 8)) (ts_areas s).

Lemma initial_apart tls_g s : go_initial tls_g s -> slots_apart s.
Proof.
  intros [Hgs Hex]. split; rewrite Hgs.
  - intros t gs [<- <-]%lookup_singleton_Some. unfold slot. by replace (tls_g - G_OFFSET + G_OFFSET) with tls_g by lia.
  - intros t u gs gs' [<- _]%lookup_singleton_Some [<- _]%lookup_singleton_Some. done.
Qed.

Lemma go_step_apart s s' : slots_apart s -> go_step s s' -> slots_apart s'.
Proof.
  intros [Hu Ha] [parent child Hp Hc [a Hpl]|t v [gs Hgs]].
  - destruct (thread_start_go parent child s a Hpl Hp) as (Hg & _ & areas & Har & Hpa & Hex).
    assert (Hnew : forall t gs, ts_gs s !! t = Some gs -> disjoint (slot a) (slot gs)).
    { intros t gs Ht. apply (fresh_slot areas TLS_AREA_SIZE); [done|done|]. by apply Hex, (Hu t). }
    split; rewrite Hg.
    + intros t gs [[<- <-]|[Hne Ht]]%lookup_insert_Some; rewrite Har; apply Exists_cons.
      * left. unfold inside, slot, G_OFFSET, TLS_AREA_SIZE. cbn. lia.
      * right. by apply Hex, (Hu t).
    + intros t u gs gs' [[<- <-]|[Ht Hgs]]%lookup_insert_Some [[<- <-]|[Hu' Hgs']]%lookup_insert_Some Hne; try done.
      * by apply (Hnew u).
      * specialize (Hnew t gs Hgs). unfold disjoint in *. lia.
      * by apply (Ha t u).
  - unfold set_g. rewrite Hgs. by split.
Qed.

Inductive go_run (s : threads) : threads -> Prop :=
| go_run_nil : go_run s s
| go_run_step s1 s2 : go_run s s1 -> go_step s1 s2 -> go_run s s2.

Lemma go_run_apart s s' : slots_apart s -> go_run s s' -> slots_apart s'.
Proof. intros Hs. induction 1; [done|by eapply go_step_apart]. Qed.

(** C36 (invariant): In every run of a Go program in which the areas can be had,
    however threads are started and whatever they store, a thread that stores
    its current goroutine at gs:0x30 reads it back, and no other thread, the
    first one with its global included, sees its own change; a new thread
    starts with none. *)
Theorem goroutines_are_private (tls_g : Z) (s0 s : threads) :
  go_initial tls_g s0 -> go_run s0 s ->
  (forall t v, is_Some (ts_gs s !! t) -> g_of (set_g t v s) t = Some v /\ forall u, u <> t -> g_of (set_g t v s) u = g_of s u) /\
  (forall parent child a, is_Some (ts_gs s !! parent) -> ts_gs s !! child = None ->
     place (ts_areas (set_sigstack child (inherit parent child s))) TLS_AREA_SIZE = Some a ->
     g_of (thread_start true parent child s) child = Some 0 /\
     forall u, u <> child -> g_of (thread_start true parent child s) u = g_of s u).
Proof.
  intros Hi Hrun. pose proof (go_run_apart _ _ (initial_apart _ _ Hi) Hrun) as [Hu Ha]. split.
  - intros t v [gs Hgs]. unfold set_g, g_of. rewrite Hgs. cbn [ts_gs ts_words]. rewrite Hgs, lookup_insert_eq. split; [done|].
    intros u Hne. destruct (ts_gs s !! u) as [gs'|] eqn:E; [|done]. pose proof (Ha u t gs' gs E Hgs Hne) as Hd.
    unfold disjoint, slot in Hd. cbn in Hd. rewrite lookup_insert_ne by lia. done.
  - intros parent child a Hp Hc Hpl. destruct (thread_start_go parent child s a Hpl Hp) as (Hg & Hw & areas & Har & Hpa & Hex).
    unfold g_of. rewrite Hg, Hw. rewrite lookup_insert_eq, lookup_delete_eq. split; [done|]. intros u Hne.
    rewrite lookup_insert_ne by done. destruct (ts_gs s !! u) as [gs'|] eqn:E; [|done].
    assert (Hd : disjoint (slot a) (slot gs')) by (apply (fresh_slot areas TLS_AREA_SIZE); [done|done|by apply Hex, (Hu u)]).
    unfold disjoint, slot in Hd. cbn in Hd. rewrite lookup_delete_ne by lia. done.
Qed.

(** Without its area a thread shares its parent's slot. *)
Theorem failed_area_shares_slot (parent child : nat) (s : threads) (gs v : Z) :
  parent <> child -> ts_gs s !! parent = Some gs ->
  place (ts_areas (set_sigstack child (inherit parent child s))) TLS_AREA_SIZE = None ->
  let s1 := thread_start true parent child s in g_of (set_g child v s1) parent = Some v.
Proof.
  intros Hne Hgs Hp s1. assert (E : ts_gs s1 = <[child := gs]> (ts_gs s)).
  { unfold s1, thread_start. destruct (block_sigurg_gs child (set_tls_area child (set_sigstack child (inherit parent child s)))) as (-> & _).
    unfold set_tls_area. rewrite Hp, set_sigstack_gs. unfold inherit. cbn. by rewrite Hgs. }
  unfold set_g, g_of. rewrite E, lookup_insert_eq. cbn [ts_gs ts_words]. rewrite ?E, lookup_insert_ne by done. by rewrite Hgs, lookup_insert_eq.
Qed.

(** The call that is to block SIGURG passes the size of glibc's set, which the
    kernel refuses: the mask of a new thread is its parent's. *)
Theorem sigurg_is_not_blocked (parent child : nat) (s : threads) (b : Z) :
  ts_blocked s !! parent = Some b -> ts_blocked (thread_start true parent child s) !! child = Some b.
Proof.
  intros Hb. unfold thread_start.
  assert (E : ts_blocked (set_tls_area child (set_sigstack child (inherit parent child s))) !! child = Some b).
  { unfold set_tls_area, set_sigstack. repeat case_match; unfold inherit; cbn; rewrite Hb; apply lookup_insert_eq. }
  unfold block_sigurg. rewrite E. cbn. apply lookup_insert_eq.
Qed.
End start.

(** ** Witnesses *)

(** Above everything that is in use. *)
Definition place_above (areas : list (Z * Z)) (len : Z) : option Z :=
  Some (foldr (fun a hi => Z.max hi (a.1 + a.2)) 0x100000 areas).

Lemma place_above_fresh areas len a : place_above areas len = Some a -> Forall (disjoint (a, len)) areas.
Proof.
  intros [= <-]. apply Forall_forall. intros b Hb. right. cbn.
  induction areas as [|c areas IH]; cbn in *; [done|]. destruct Hb as [<- |Hb]; [lia|specialize (IH Hb); lia].
Qed.

Definition demo_threads : threads := Threads [(0x4000, 0x1000)] ∅ {[ 0%nat := 0x4100 - G_OFFSET ]} ∅ {[ 0%nat := 0 ]}.

Lemma goroutines_are_private_witness :
  let s := thread_start place_above true 0 1 demo_threads in g_of (set_g 1 77 s) 1 = Some 77 /\ g_of (set_g 1 77 s) 0 = g_of s 0.
Proof.
  intros s. destruct (goroutines_are_private place_above place_above_fresh 0x4100 demo_threads s) as [H _].
  - split; [done|]. apply Exists_cons. left. unfold inside. cbn. lia.
  - eapply go_run_step; [apply go_run_nil|]. apply go_start; [by eexists|done|by eexists].
  - destruct (H 1%nat 77) as [H1 H2]; [by eexists|]. split; [exact H1|by apply H2].
Defined.

Lemma failed_area_shares_slot_witness :
  g_of (set_g 1 77 (thread_start (fun _ _ => None) true 0 1 demo_threads)) 0 = Some 77.
Proof. by apply (failed_area_shares_slot (fun _ _ => None) 0 1 demo_threads (0x4100 - G_OFFSET) 77). Defined.

Lemma sigurg_is_not_blocked_witness : ts_blocked (thread_start place_above true 0 1 demo_threads) !! 1%nat = Some 0.
Proof. by apply (sigurg_is_not_blocked place_above 0 1 demo_threads 0). Defined.
