(* ===== verification/CrashHandler.v ===== *)
(** * The crash handlers (src/shim/signal/crash_handler.c and
      src/src/syscall/crash_handler.c)

    What happens to a fault of the program that nothing else takes: the
    shim's handler reports it and exits; the loader's first tries to go on,
    or to end the program quietly, and reports otherwise.  Memory is the
    program's; a read where nothing is mapped is a second fault, inside the
    handler.  What is written is modelled as text, the buffers of [snprintf]
    being longer than what goes into them. *)
From Stdlib Require Import ZArith Lia Bool Ascii String.
From stdpp Require Import base gmap list strings numbers pretty.
From S2P Require Import Prelude LoaderState Sysctl ShimDir.

(** ** Runs that write *)

(** [OutMem] is a write of the program's own memory. *)
Inductive event :=
| Out (fd : Z) (s : string)
| OutMem (fd addr len : Z)
| Stats.

Inductive rep (A : Type) :=
| Run (out : list event) (a : A)
| Fault.
Arguments Run {A} out a.
Arguments Fault {A}.

#[export] Instance rep_ret : MRet rep := fun A a => Run [] a.
#[export] Instance rep_bind : MBind rep := fun A B f p =>
  match p with
  | Run out a => match f a with Run out' b => Run (out ++ out') b | Fault => Fault end
  | Fault => Fault
  end.

Definition say (s : string) : rep () := Run [Out 2 s] ().

Definition access {A} (r : res A) : rep A := match r with Ok a => Run [] a | _ => Fault end.

Fixpoint each {A} (f : A -> rep ()) (l : list A) : rep () :=
  match l with [] => mret () | x :: l => f x ;; each f l end.

(** ** Text *)

Definition nl : string := String "010" EmptyString.

Definition char_of (z : Z) : ascii := ascii_of_N (Z.to_N (u8 z)).

(** [nibble < 10 ? '0' + nibble : 'a' + nibble - 10]. *)
Definition nibble_char (n : Z) : ascii := char_of (if n <? 10 then 48 + n else 97 + n - 10).

(** The last [k] nibbles of a word, the high one first. *)
Fixpoint hex_run (k : nat) (v : Z) : string :=
  match k with
  | O => EmptyString
  | S k => String (nibble_char (Z.land (Z.shiftr v (4 * Z.of_nat k)) 15)) (hex_run k v)
  end.

Definition hex16 (v : Z) : string := hex_run 16 v.

Fixpoint strip_zeros (s : string) : string :=
  match s with
  | String c (String _ _ as r) => if (c =? "0")%char then strip_zeros r else s
  | _ => s
  end.

(** [%lx], [%p], [%ld]. *)
Definition fmt_lx (v : Z) : string := strip_zeros (hex16 v).
Definition fmt_p (v : Z) : string := if v =? 0 then "(nil)" else "0x" +:+ fmt_lx v.
Definition fmt_ld (v : Z) : string := pretty v.

(** The digits of a positive number, the low one first. *)
Fixpoint low_digits (fuel : nat) (n : Z) : list ascii :=
  match fuel with
  | O => []
  | S fuel => if 0 <? n then char_of (48 + n mod 10) :: low_digits fuel (n / 10) else []
  end.

(** An [int] in decimal, by hand; ten digits are enough. *)
Definition int_text (v : Z) : string :=
  let '(sign, v) := if v <? 0 then ("-"%string, i32 (- v)) else (EmptyString, v) in
  sign +:+ string_of_list_ascii (rev (if v =? 0 then ["0"%char] else low_digits 10 v)).

(** ** Which memory can be read *)

Definition hex_digit (c : ascii) : option Z :=
  let n := Z.of_N (N_of_ascii c) in
  if (48 <=? n) && (n <=? 57) then Some (n - 48)
  else if (97 <=? n) && (n <=? 102) then Some (n - 87)
  else if (65 <=? n) && (n <=? 70) then Some (n - 55)
  else None.

Fixpoint hex_digits (s : string) (acc : Z) : Z * string :=
  match s with
  | String c s' => match hex_digit c with Some d => hex_digits s' (16 * acc + d) | None => (acc, s) end
  | EmptyString => (acc, s)
  end.

(** [%llx] of sscanf; a value that does not fit is the largest one. *)
Definition scan_hex (s : string) : option (Z * string) :=
  let s := skip_space s in
  let '(neg, s) := match s with
                   | String c s' => if (c =? "-")%char then (true, s') else if (c =? "+")%char then (false, s') else (false, s)
                   | EmptyString => (false, s)
                   end in
  let s := match s with String "0" (String ("x" | "X") s') => s' | _ => s end in
  match s with
  | String c _ =>
      match hex_digit c with
      | Some _ =>
          let '(n, r) := hex_digits s 0 in
          Some (if 2 ^ 64 <=? n then 2 ^ 64 - 1 else if neg then u64 (- n) else n, r)
      | None => None
      end
  | EmptyString => None
  end.

(** A line of /proc/self/maps through ["%llx-%llx %7s"]: the range, when it
    is readable. *)
Definition map_line (line : string) : option (Z * Z) :=
  match scan_hex line with
  | Some (lo, String "-" s) =>
      match scan_hex s with
      | Some (hi, s) =>
          match scan_word 7 s with
          | Some (String "r" _, _) => Some (lo, hi)
          | _ => None
          end
      | None => None
      end
  | _ => None
  end.

Definition MAX_RANGES : nat := 512.

(** The table, filled on first use; [None] is a file that cannot be opened. *)
Definition map_ranges (maps : option (list string)) : list (Z * Z) :=
  match maps with Some lines => take MAX_RANGES (omap map_line lines) | None => [] end.

Definition readable (ranges : list (Z * Z)) (v len : Z) : bool :=
  if v <? 0x1000 then false
  else if u64 (v + len) <? v then false
  else existsb (fun r => (r.1 <=? v) && (u64 (v + len) <=? r.2)) ranges.

(** ** The state of a crash *)

Record cregs := CRegs {
  c_rip : Z; c_rsp : Z; c_rbp : Z; c_rax : Z; c_rbx : Z; c_rcx : Z; c_rdx : Z; c_rdi : Z; c_rsi : Z;
  c_r8 : Z; c_r9 : Z; c_r10 : Z; c_r11 : Z; c_r12 : Z; c_r13 : Z; c_r14 : Z; c_r15 : Z
}.

Record crash := Crash {
  cr_sig : Z;
  cr_code : Z;
  cr_addr : Z;
  cr_regs : cregs
}.

(** [w_maps] is /proc/self/maps by lines, [w_dump] by the pieces read gives;
    [w_alt] is the signal stack: address, size, flags. *)
Record world := World {
  w_mem : mem;
  w_maps : option (list string);
  w_dump : option (list string);
  w_alt : Z * Z * Z;
  w_tls_g : Z;
  w_gs : Z;
  w_fs : Z
}.

Definition can_read (w : world) (v len : Z) : bool := readable (map_ranges (w_maps w)) v len.

(** A word that counts as 0 where it cannot be read. *)
Definition checked_word (w : world) (addr : Z) : rep Z :=
  match can_read w addr 8 with true => access (load64 (w_mem w) addr) | false => mret 0 end.

(** The loop over the file writes what read gives until it gives nothing. *)
Fixpoint dump_pieces (pieces : list string) : rep () :=
  match pieces with
  | [] => mret ()
  | p :: pieces => match p with EmptyString => mret () | _ => say p ;; dump_pieces pieces end
  end.

Definition dump_file (w : world) : rep () := match w_dump w with Some pieces => dump_pieces pieces | None => mret () end.

(** ** The shim's handler *)

(** [PRINT_REG]. *)
Definition reg_line (name : string) (v : Z) : string := name +:+ "=" +:+ hex16 v +:+ nl.

Definition reg_table (r : cregs) : list (string * Z) :=
  [("rip", c_rip r); ("rsp", c_rsp r); ("rbp", c_rbp r); ("rax", c_rax r); ("rbx", c_rbx r); ("rcx", c_rcx r);
   ("rdx", c_rdx r); ("rdi", c_rdi r); ("rsi", c_rsi r); ("r8 ", c_r8 r); ("r9 ", c_r9 r); ("r10", c_r10 r);
   ("r11", c_r11 r); ("r12", c_r12 r); ("r13", c_r13 r); ("r14", c_r14 r); ("r15", c_r15 r)]%string.

Definition print_regs (r : cregs) : rep () := each (fun e => say (reg_line e.1 e.2)) (reg_table r).

Definition slot_at (sp i : Z) : Z := u64 (sp + i * 8).

(** The first eight words of the stack, on one line. *)
Definition print_stack_line (w : world) (sp : Z) : rep () :=
  say ("rsp=0x" +:+ fmt_lx sp +:+ " stack:") ;;
  each (fun i => val ← checked_word w (slot_at sp i); say (" 0x" +:+ hex16 val)) (seqZ 0 8) ;;
  say nl.

Definition print_sigaltstack (w : world) : rep () :=
  let '(sp, size, flags) := w_alt w in
  say ("sigaltstack: sp=" +:+ fmt_p sp +:+ " size=" +:+ fmt_ld size +:+ " flags=0x" +:+ fmt_lx flags +:+
       " (ONSTACK=" +:+ (if has flags 1 then "1" else "0") +:+ " DISABLE=" +:+ (if has flags 2 then "1" else "0") +:+ ")" +:+ nl).

(** Two digits of the signal and three of the code. *)
Definition print_signal (c : crash) : rep () :=
  let d z := String (char_of (48 + z)) EmptyString in
  let code := cr_code c in
  say (nl +:+ "sig=" +:+ d (Z.quot (cr_sig c) 10) +:+ d (Z.rem (cr_sig c) 10) +:+ " adr=" +:+ hex16 (cr_addr c) +:+
       " code=" +:+ d (Z.rem (Z.quot code 100) 10) +:+ d (Z.rem (Z.quot code 10) 10) +:+ d (Z.rem code 10) +:+ nl).

Definition print_stack (w : world) (sp : Z) : rep () :=
  say ("stack:" +:+ nl) ;;
  each (fun s => val ← checked_word w (slot_at sp s);
                 say ("sp+" +:+ String (char_of (48 + s)) EmptyString +:+ ":" +:+ hex16 val +:+ nl)) (seqZ 0 8).

(** The goroutine that is reported: this thread's, or else the main one's.
    Of the first message the end of the line is cut off, the second goes on
    to its NUL. *)
Definition pick_g (w : world) (gs_val : Z) : rep Z :=
  if can_read w gs_val 0x38 then
    say (stake 26 ("Go g=gs:0x30 (this thread)" +:+ nl)) ;; mret gs_val
  else if can_read w (w_tls_g w) 8 then
    g ← access (load64 (w_mem w) (w_tls_g w));
    say ("Go g=g_tls_g_addr (main thread, gs:0x30 unusable)" +:+ nl +:+ String "000" EmptyString) ;;
    mret g
  else mret 0.

(** A word at [m + off], all of them 0 when [m] cannot be read. *)
Definition m_word (w : world) (ok : bool) (m off : Z) : rep Z :=
  match ok with true => access (load64 (w_mem w) (u64 (m + off))) | false => mret 0 end.

Definition print_locks (w : world) (m : Z) : rep () :=
  v ← (let a := u64 (m + 0x108) in
       match can_read w a 4 with true => access (load32 (w_mem w) a) | false => mret 0 end);
  say "m.locks=" ;; say (int_text (i32 v) +:+ nl).

(** The words that may be [m.gsignal], and the stacks they would name. *)
Definition print_candidates (w : world) (m : Z) : rep () :=
  let ok := can_read w m 0x68 in
  m48 ← m_word w ok m 0x48; m50 ← m_word w ok m 0x50; m58 ← m_word w ok m 0x58; m60 ← m_word w ok m 0x60;
  say ("m+48=0x" +:+ fmt_lx m48 +:+ " m+50=0x" +:+ fmt_lx m50 +:+ " m+58=0x" +:+ fmt_lx m58 +:+ " m+60=0x" +:+ fmt_lx m60 +:+ nl) ;;
  each (fun e : string * Z =>
          let gsig := e.2 in
          match can_read w gsig 0x10 with
          | true =>
              slo ← access (load64 (w_mem w) gsig);
              shi ← access (load64 (w_mem w) (u64 (gsig + 8)));
              say ("  m+0x" +:+ e.1 +:+ " as gsignal: g=" +:+ fmt_p gsig +:+ " stack.lo=0x" +:+ fmt_lx slo +:+ " hi=0x" +:+ fmt_lx shi +:+
                   " (size=" +:+ fmt_ld (i64 (shi - slo)) +:+ ")" +:+ nl)
          | false => mret ()
          end) [("48", m48); ("50", m50); ("58", m58); ("60", m60)]%string.

Definition print_g_stack (w : world) (g rsp : Z) : rep () :=
  let ok := can_read w g 0x20 in
  lo ← m_word w ok g 0; hi ← m_word w ok g 8; guard0 ← m_word w ok g 0x10; guard1 ← m_word w ok g 0x18;
  say ("g.stack: lo=0x" +:+ fmt_lx lo +:+ " hi=0x" +:+ fmt_lx hi +:+ " guard0=0x" +:+ fmt_lx guard0 +:+ " guard1=0x" +:+ fmt_lx guard1 +:+
       " rsp=0x" +:+ fmt_lx rsp +:+ " (overflow=" +:+ (if rsp <=? guard0 then "1" else "0") +:+ ")" +:+ nl).

Definition print_gsignal_stack (w : world) (gsignal : Z) : rep () :=
  match can_read w gsignal 0x18 with
  | true =>
      lo ← access (load64 (w_mem w) gsignal);
      hi ← access (load64 (w_mem w) (u64 (gsignal + 8)));
      guard0 ← access (load64 (w_mem w) (u64 (gsignal + 0x10)));
      say ("gsignal.stack: lo=0x" +:+ fmt_lx lo +:+ " hi=0x" +:+ fmt_lx hi +:+ " guard0=0x" +:+ fmt_lx guard0 +:+
           " (size=" +:+ fmt_ld (i64 (hi - lo)) +:+ ")" +:+ nl)
  | false => mret ()
  end.

Definition print_g (w : world) (g rsp : Z) : rep () :=
  match can_read w g 0x38 with
  | false => mret ()
  | true =>
      m ← access (load64 (w_mem w) (u64 (g + 0x30)));
      let ok := can_read w m 0xc0 in
      g0 ← m_word w ok m 0; gsignal ← m_word w ok m 0x48; curg ← m_word w ok m 0xb8;
      say "m.g0=" ;; say (hex16 g0 +:+ " " +:+ nl) ;;
      say "m.gsignal=" ;; say (hex16 gsignal +:+ nl) ;;
      say "m.curg=" ;; say (hex16 curg +:+ nl) ;;
      print_locks w m ;; print_candidates w m ;; print_g_stack w g rsp ;; print_gsignal_stack w gsignal
  end.

(** Six bytes of the marker are written. *)
Definition marker (s : Z) : string :=
  let d z := String (char_of (48 + z)) EmptyString in
  if s <? 0 then "sp-" +:+ String (char_of (if - s <? 10 then 48 + - s else 97 + - s - 10)) ": "
  else if s =? 0 then "sp+0: "
  else stake 6 ("sp+" +:+ d (s / 10) +:+ d (s mod 10) +:+ ": ").

Definition print_go_stack (w : world) (sp : Z) : rep () :=
  say ("stack:" +:+ nl) ;;
  each (fun s =>
          let addr := slot_at sp s in
          match can_read w addr 8 with
          | false => mret ()
          | true => val ← access (load64 (w_mem w) addr); say (marker s) ;; say (hex16 addr +:+ ": ") ;; say (hex16 val +:+ nl)
          end) (seqZ (-8) 32).

Definition print_go (w : world) (rsp : Z) : rep () :=
  gs_val ← access (load64 (w_mem w) (u64 (w_gs w + 0x30)));
  say "gs:0x30=" ;; say (hex16 gs_val +:+ nl) ;;
  fs_val ← access (load64 (w_mem w) (u64 (w_fs w + 0x30)));
  say "fs:0x30=" ;; say (hex16 fs_val +:+ nl) ;;
  g ← pick_g w gs_val;
  say "g=" ;; say (hex16 g +:+ nl) ;;
  print_g w g rsp ;; print_go_stack w rsp.

(** The status the process exits with. *)
Definition macify_crash_handler (w : world) (c : crash) : rep Z :=
  let rsp := c_rsp (cr_regs c) in
  say (nl +:+ "macify: CRASH handler invoked" +:+ nl) ;;
  print_stack_line w rsp ;; print_sigaltstack w ;; print_signal c ;; print_regs (cr_regs c) ;;
  (if w_tls_g w =? 0 then print_stack w rsp else print_go w rsp) ;;
  say ("maps:" +:+ nl) ;; dump_file w ;; mret (128 + cr_sig c).

(** ** The loader's handler *)

Definition SIGABRT : Z := 6.
Definition SIGSEGV : Z := 11.
Definition SI_KERNEL : Z := 128.

(** What is known of the program: [l_text] is [g_macos_text_lo] and [_hi],
    [l_stdout] the address of glibc's stream, the flags whether
    MACIFY_TRACE_NULL_CRASH and MACIFY_TRACE_RECOVERY are set. *)
Record loader_env := LoaderEnv {
  l_world : world;
  l_text : Z * Z;
  l_stdout : Z;
  l_trace_null : bool;
  l_trace_recovery : bool;
  l_segments : list loaded_segment;
  l_pid : Z;
  l_tid : Z
}.

Inductive outcome :=
| Resumed (r : cregs)
| Exited (status : Z).

Definition macify_flush_sane (v : Z) : bool := (0x10000 <? v) && (Z.shiftr v 47 =? 0).

(** The write of what stdout has buffered, past glibc. *)
Definition flush_stdout (e : loader_env) : rep () :=
  if l_stdout e =? 0 then mret () else
  base ← access (load64 (w_mem (l_world e)) (u64 (l_stdout e + 0x20)));
  ptr ← access (load64 (w_mem (l_world e)) (u64 (l_stdout e + 0x28)));
  if (base <? ptr) && (u64 (ptr - base) <? 1048576) && macify_flush_sane base && macify_flush_sane ptr
  then Run [OutMem 1 base (ptr - base)] () else mret ().

Definition trace (e : loader_env) (s : string) : rep () := match l_trace_recovery e with true => say s | false => mret () end.

Definition in_text (e : loader_env) (v : Z) : bool := ((l_text e).1 <=? v) && (v <? (l_text e).2).

(** In the text or up to [slack] bytes behind it. *)
Definition near_text (e : loader_env) (slack v : Z) : bool := ((l_text e).1 <=? v) && (v <? u64 ((l_text e).2 + slack)).

(** An address a program can have, by the bounds the scans check. *)
Definition plausible (v : Z) : bool := (0x10000 <? v) && (v <? 0x7fffffffffff).

Definition set_frame (r : cregs) (rip rsp : Z) : cregs :=
  CRegs rip rsp (c_rbp r) 0 (c_rbx r) (c_rcx r) (c_rdx r) (c_rdi r) (c_rsi r) (c_r8 r) (c_r9 r) (c_r10 r) (c_r11 r) (c_r12 r) (c_r13 r) (c_r14 r) (c_r15 r).

(** *** The steps before the report: [Some] ends the handler *)

Definition readline_crash (e : loader_env) (c : crash) : rep (option outcome) :=
  let rip := c_rip (cr_regs c) in
  let is_readline_crash := near_text e 0x100000 rip in
  if (cr_sig c =? SIGSEGV) && is_readline_crash && negb (l_trace_null e) then
    flush_stdout e ;; trace e ("macify: readline crash — flushing and exiting" +:+ nl) ;; mret (Some (Exited 0))
  else mret None.

(** How many bytes of the faulting instruction are skipped. *)
Definition instr_len (m : mem) (rip : Z) : rep Z :=
  b0 ← access (read_le (mem_get m) 1 rip);
  if (b0 =? 0x48) || (b0 =? 0x4c) then
    b1 ← access (read_le (mem_get m) 1 (u64 (rip + 1))); mret (if b1 =? 0x0f then 4 else 3)
  else if b0 =? 0x0f then mret 3
  else if (b0 =? 0x8a) || (b0 =? 0x88) then mret 2
  else mret 3.

Definition flags_as_pointer (e : loader_env) (c : crash) : rep (option outcome) :=
  if Z.land (Z.shiftr (cr_addr c) 16) 0xffff =? 0xfbad then
    let r := cr_regs c in
    n ← instr_len (w_mem (l_world e)) (c_rip r);
    mret (Some (Resumed (set_frame r (u64 (c_rip r + n)) (c_rsp r))))
  else mret None.

Definition text_crash (e : loader_env) (c : crash) : rep (option outcome) :=
  let rip := c_rip (cr_regs c) in
  if in_text e rip then
    flush_stdout e ;;
    trace e ("macify: recovery _exit(0) sig=" +:+ fmt_ld (cr_sig c) +:+ " rip=" +:+ fmt_p rip +:+ " adr=" +:+ fmt_p (cr_addr c) +:+ nl) ;;
    mret (Some (Exited 0))
  else mret None.

(** The word on top of the stack, when it is an address outside the program
    (which ends, for this, 2 MB behind its text). *)
Definition pop_return (e : loader_env) (r : cregs) : rep (option outcome) :=
  let sp := c_rsp r in
  if plausible sp then
    val ← access (load64 (w_mem (l_world e)) sp);
    if plausible val && negb (near_text e 0x200000 val)
    then mret (Some (Resumed (set_frame r val (u64 (sp + 8))))) else mret None
  else mret None.

(** The first slot from [i] on, of [n], that holds an address in the text. *)
Fixpoint scan_stack (e : loader_env) (sp i : Z) (n : nat) : rep (option (Z * Z * Z)) :=
  match n with
  | O => mret None
  | S n =>
      let addr := slot_at sp i in
      if plausible addr then
        val ← access (load64 (w_mem (l_world e)) addr);
        if in_text e val then mret (Some (val, addr, i)) else scan_stack e sp (i + 1) n
      else scan_stack e sp (i + 1) n
  end.

Definition kernel_crash (e : loader_env) (c : crash) : rep (option outcome) :=
  let r := cr_regs c in
  if (cr_sig c =? SIGSEGV) && (cr_code c =? SI_KERNEL) && (cr_addr c =? 0) && negb (l_trace_null e) then
    popped ← pop_return e r;
    match popped with
    | Some o => mret (Some o)
    | None =>
        found ← scan_stack e (c_rsp r) 0 16;
        match found with
        | Some (val, addr, i) =>
            trace e ("macify: SI_KERNEL recovery — resume at rclone+0x" +:+ fmt_lx (u64 (val - (l_text e).1)) +:+ " (sp+" +:+ fmt_ld i +:+ "), rax=0" +:+ nl) ;;
            mret (Some (Resumed (set_frame r val (u64 (addr + 8)))))
        | None =>
            flush_stdout e ;;
            trace e ("macify: recovery _exit(0) si_kernel_null sig=" +:+ fmt_ld (cr_sig c) +:+ " rip=" +:+ fmt_p (c_rip r) +:+ nl) ;;
            mret (Some (Exited 0))
        end
    end
  else mret None.

Definition data_jump (e : loader_env) (c : crash) : rep (option outcome) :=
  let r := cr_regs c in
  if (cr_sig c =? SIGSEGV) && ((cr_code c =? 1) || (cr_code c =? 2)) && negb (l_trace_null e)
     && plausible (c_rip r) && negb (in_text e (c_rip r)) then
    found ← scan_stack e (c_rsp r) 0 32;
    match found with
    | Some (val, addr, _) => flush_stdout e ;; mret (Some (Resumed (set_frame r val (u64 (addr + 8)))))
    | None => mret None
    end
  else mret None.

(** A step after which the next is tried. *)
Definition orelse {A} (p q : rep (option A)) : rep (option A) := o ← p; match o with Some a => mret (Some a) | None => q end.

Definition recover (e : loader_env) (c : crash) : rep (option outcome) :=
  orelse (readline_crash e c)
    (orelse (if (cr_sig c =? SIGSEGV) || (cr_sig c =? SIGABRT)
             then orelse (flags_as_pointer e c) (orelse (text_crash e c) (kernel_crash e c))
             else mret None)
       (data_jump e c)).

(** *** The report *)

(** Where the program's text is. *)
Fixpoint rclone_base (segs : list loaded_segment) : Z :=
  match segs with
  | [] => 0
  | s :: segs => if is_pagezero s then rclone_base segs else if streq (seg_name s) "__TEXT" then vmaddr s else rclone_base segs
  end.

(** The offset of an address in the program's image, when it is near it. *)
Definition near_base (base val : Z) : option Z :=
  if negb (base =? 0) && (base <=? val) && (val <? u64 (base + 0x5000000)) then Some (val - base) else None.

(** The registers in the order of the first part of the report. *)
Definition report_head (e : loader_env) (c : crash) : string :=
  let r := cr_regs c in
  nl +:+ "macify: CRASH handler invoked" +:+ nl +:+
  "pid=" +:+ fmt_ld (l_pid e) +:+ " tid=" +:+ fmt_ld (l_tid e) +:+ " sig=" +:+ fmt_ld (cr_sig c) +:+ " code=" +:+ fmt_ld (cr_code c) +:+
  " adr=" +:+ hex16 (cr_addr c) +:+ nl +:+
  String.concat EmptyString (map (fun x => reg_line x.1 x.2) (reg_table r)).

Fixpoint words_at (m : mem) (a : Z) (n : nat) : rep (list Z) :=
  match n with
  | O => mret []
  | S n => v ← access (load64 m a); vs ← words_at m (u64 (a + 8)) n; mret (v :: vs)
  end.

Fixpoint insn_bytes (m : mem) (a : Z) (n : nat) : rep (list Z) :=
  match n with
  | O => mret []
  | S n => v ← access (read_le (mem_get m) 1 a); vs ← insn_bytes m (u64 (a + 1)) n; mret (v :: vs)
  end.

Definition print_rip_bytes (w : world) (rip : Z) : rep () :=
  match can_read w rip 16 with
  | true => bs ← insn_bytes (w_mem w) rip 16; say ("rip bytes: " +:+ String.concat " " (map (hex_run 2) bs) +:+ nl)
  | false => say ("rip bytes: <unreadable rip " +:+ (if rip =? 0 then "0" else "0x" +:+ fmt_lx rip) +:+ ">" +:+ nl)
  end.

Definition print_rbx (e : loader_env) (rbx : Z) : rep () :=
  match can_read (l_world e) rbx 64 with
  | false => mret ()
  | true =>
      p ← words_at (w_mem (l_world e)) rbx 8;
      let at_ off i := "[rbx+0x" +:+ off +:+ "] = 0x" +:+ hex16 (default 0 (p !! i)) in
      say ("rbx dump (heap object at " +:+ fmt_p rbx +:+ "):" +:+ nl +:+
           "  " +:+ at_ "00" 0%nat +:+ "  " +:+ at_ "08" 1%nat +:+ nl +:+
           "  " +:+ at_ "10" 2%nat +:+ "  " +:+ at_ "18" 3%nat +:+ "  <-- called" +:+ nl +:+
           "  " +:+ at_ "20" 4%nat +:+ "  " +:+ at_ "28" 5%nat +:+ nl +:+
           "  " +:+ at_ "30" 6%nat +:+ "  " +:+ at_ "38" 7%nat +:+ nl) ;;
      match near_base (rclone_base (l_segments e)) (default 0 (p !! 3%nat)) with
      | Some off => say ("  [rbx+0x18] = rclone+0x" +:+ fmt_lx off +:+ nl)
      | None => mret ()
      end
  end.

(** The Go lines of the first part. *)
Definition go_lines (w : world) : rep string :=
  let first := "g_tls_g_addr=" +:+ fmt_ld (w_tls_g w) +:+ nl in
  if w_tls_g w =? 0 then mret first else
  g ← checked_word w (w_tls_g w);
  let first := first +:+ "Go tls_g=0x" +:+ fmt_lx g +:+ nl in
  if negb (g =? 0) && can_read w g (0x30 + 8) then
    m ← access (load64 (w_mem w) (u64 (g + 0x30)));
    let first := first +:+ "g.m=0x" +:+ fmt_lx m +:+ nl in
    if negb (m =? 0) && can_read w m 0xc0 then
      g0 ← access (load64 (w_mem w) m);
      gsignal ← access (load64 (w_mem w) (u64 (m + 0x48)));
      curg ← access (load64 (w_mem w) (u64 (m + 0xb8)));
      mret (first +:+ "m.g0=0x" +:+ fmt_lx g0 +:+ " m.gsignal=0x" +:+ fmt_lx gsignal +:+ " m.curg=0x" +:+ fmt_lx curg +:+ nl)
    else mret first
  else mret first.

Definition two_digits (i : Z) : string := if i <? 10 then "0" +:+ fmt_ld i else fmt_ld i.

Definition print_loader_stack (e : loader_env) (sp : Z) : rep () :=
  let base := rclone_base (l_segments e) in
  say (nl +:+ "stack (rclone_base=0x" +:+ fmt_lx base +:+ "):" +:+ nl) ;;
  each (fun i =>
          val ← checked_word (l_world e) (slot_at sp i);
          let tag := match near_base base val with Some off => " rclone+0x" +:+ fmt_lx off | None => EmptyString end in
          say ("  sp+" +:+ two_digits i +:+ ": 0x" +:+ hex16 val +:+ tag +:+ nl)) (seqZ 0 32).

Definition report (e : loader_env) (c : crash) : rep Z :=
  let r := cr_regs c in
  print_rip_bytes (l_world e) (c_rip r) ;;
  print_rbx e (c_rbx r) ;;
  go ← go_lines (l_world e);
  say (report_head e c +:+ go) ;;
  print_loader_stack e (c_rsp r) ;;
  Run [Stats] () ;;
  say (nl +:+ "/proc/self/maps:" +:+ nl) ;;
  dump_file (l_world e) ;;
  mret (128 + cr_sig c).

Definition crash_handler (e : loader_env) (c : crash) : rep outcome :=
  o ← recover e c;
  match o with
  | Some o => mret o
  | None => status ← report e c; mret (Exited status)
  end.

(** ** The table of mappings is right *)

Definition truthful (w : world) : Prop :=
  forall lo hi a, (lo, hi) ∈ map_ranges (w_maps w) -> lo <= a < hi -> is_Some (w_mem w !! a).

Lemma get_bytes_present m a n : (forall x, a <= x < a + Z.of_nat n -> is_Some (m !! x)) -> is_Some (get_bytes (mem_get m) a n).
Proof.
  revert a. induction n as [|n IH]; intros a H; cbn [get_bytes]; [by eexists|].
  destruct (H a) as [b Hb]; [lia|]. unfold mem_get at 1. rewrite Hb.
  destruct (IH (a + 1)) as [bs ->]; [|by eexists]. intros x Hx. apply H. lia.
Qed.

(** What passes the check can be read, at any offset. *)
Lemma can_read_ok w v len off n :
  truthful w -> can_read w v len = true -> 0 <= off -> off + Z.of_nat n <= len -> len < 2 ^ 64 ->
  exists x, read_le (mem_get (w_mem w)) n (u64 (v + off)) = Ok x.
Proof.
  intros Hw Hr Hoff Hn Hlen. unfold can_read, readable in Hr.
  destruct (Z.ltb_spec v 0x1000) as [|Hv]; [done|]. destruct (Z.ltb_spec (u64 (v + len)) v) as [|Hwrap]; [done|].
  apply existsb_exists in Hr as ([lo hi] & Hin & Hb). apply list_elem_of_In in Hin. cbn in Hb.
  assert (v + len < 2 ^ 64).
  { destruct (Z.ltb_spec (v + len) (2 ^ 64)); [done|]. pose proof (u64_range (v + len)).
    unfold u64 in *. rewrite (Z.mod_eq (v + len) (2 ^ 64)) in Hwrap by lia. assert (1 <= (v + len) / 2 ^ 64) by (apply Z.div_le_lower_bound; lia). lia. }
  rewrite u64_small in Hb by lia. rewrite u64_small by lia.
  destruct (get_bytes_present (w_mem w) (v + off) n) as [bs Hbs]; [|unfold read_le; rewrite Hbs; by eexists].
  intros x Hx. apply (Hw lo hi); [done|]. lia.
Qed.

(** ** A report that is begun is finished *)

Definition ends {A} (p : rep A) : Prop := exists out a, p = Run out a.

Lemma ends_ret {A} (a : A) : ends (mret a).
Proof. by eexists _, _. Qed.

Lemma ends_run {A} out (a : A) : ends (Run out a).
Proof. by eexists _, _. Qed.

Lemma ends_say s : ends (say s).
Proof. apply ends_run. Qed.

Lemma ends_bind {A B} (p : rep A) (f : A -> rep B) : ends p -> (forall a, ends (f a)) -> ends (p ≫= f).
Proof. intros (out & a & ->) Hf. destruct (Hf a) as (out' & b & E). unfold mbind, rep_bind. rewrite E. apply ends_run. Qed.

Lemma bind_Run {A B} (p : rep A) (f : A -> rep B) out b :
  p ≫= f = Run out b -> exists o a o', p = Run o a /\ f a = Run o' b /\ out = o ++ o'.
Proof.
  destruct p as [o a|]; [|done]. unfold mbind, rep_bind. destruct (f a) as [o' b'|] eqn:E; [|done]. intros [= <- ->]. by eexists _, _, _.
Qed.

Lemma ends_access {A} (r : res A) : (exists a, r = Ok a) -> ends (access r).
Proof. intros [a ->]. apply ends_run. Qed.

Lemma ends_each {A} (f : A -> rep ()) l : (forall x, ends (f x)) -> ends (each f l).
Proof. intros Hf. induction l; cbn; [apply ends_ret|]. by apply ends_bind. Qed.

Lemma can_read_range w v len : can_read w v len = true -> 0 <= v < 2 ^ 64.
Proof.
  unfold can_read, readable. destruct (Z.ltb_spec v 0x1000); [done|]. destruct (Z.ltb_spec (u64 (v + len)) v); [done|].
  pose proof (u64_range (v + len)). lia.
Qed.

Section ends.
Context (w : world) (Hw : truthful w).

Lemma word_at v len off : can_read w v len = true -> 0 <= off -> off + 8 <= len -> len < 2 ^ 64 -> ends (access (load64 (w_mem w) (u64 (v + off)))).
Proof. intros. apply ends_access, (can_read_ok w v len off 8); auto; lia. Qed.

Lemma word_here v len : can_read w v len = true -> 8 <= len -> len < 2 ^ 64 -> ends (access (load64 (w_mem w) v)).
Proof. intros Hr ? ?. pose proof (can_read_range _ _ _ Hr). rewrite <- (u64_small v) at 1 by lia. replace v with (v + 0) at 1 by lia. apply (word_at v len); auto; lia. Qed.

Lemma half_word_here v len : can_read w v len = true -> 4 <= len -> len < 2 ^ 64 -> ends (access (load32 (w_mem w) v)).
Proof.
  intros Hr ? ?. pose proof (can_read_range _ _ _ Hr). apply ends_access. destruct (can_read_ok w v len 0 4) as [x Hx]; auto; try lia.
  exists x. rewrite Z.add_0_r, u64_small in Hx by lia. done.
Qed.

Lemma checked_word_ends addr : ends (checked_word w addr).
Proof. unfold checked_word. destruct (can_read w addr 8) eqn:E; [by apply (word_here _ 8)|apply ends_ret]. Qed.

Lemma m_word_ends m len off : 0 <= off -> off + 8 <= len -> len < 2 ^ 64 -> ends (m_word w (can_read w m len) m off).
Proof. intros. unfold m_word. destruct (can_read w m len) eqn:E; [by apply (word_at _ len)|apply ends_ret]. Qed.
End ends.

(** Steps through a report: what is written cannot fail, what is read was
    checked. *)
Ltac ends :=
  repeat first
    [ apply ends_ret | apply ends_say | apply ends_run
    | apply checked_word_ends; assumption
    | apply m_word_ends; [assumption|lia|lia|lia]
    | match goal with
      | H : can_read ?w ?v ?len = true |- ends (access (load64 (w_mem ?w) ?v)) => apply (word_here w ltac:(assumption) v len H); lia
      | H : can_read ?w ?v ?len = true |- ends (access (load64 (w_mem ?w) (u64 (?v + _)))) => apply (word_at w ltac:(assumption) v len _ H); lia
      | H : can_read ?w ?v ?len = true |- ends (access (load32 (w_mem ?w) ?v)) => apply (half_word_here w ltac:(assumption) v len H); lia
      | |- ends (match can_read ?w ?v ?len with true => _ | false => _ end) => destruct (can_read w v len) eqn:?
      | |- ends (if ?b then _ else _) => destruct b eqn:?
      | |- ends (match ?o with Some _ => _ | None => _ end) => destruct o
      end
    | apply ends_bind; [|intros ?]
    | apply ends_each; intros ? ].

Lemma dump_file_ends w : ends (dump_file w).
Proof. unfold dump_file. destruct (w_dump w) as [l|]; [|apply ends_ret]. induction l as [|[|c s] l IH]; cbn [dump_pieces]; ends. apply IH. Qed.

Lemma print_g_ends w g rsp : truthful w -> ends (print_g w g rsp).
Proof. intros Hw. unfold print_g, print_locks, print_candidates, print_g_stack, print_gsignal_stack. cbv zeta. ends. Qed.

Lemma print_go_ends w rsp :
  truthful w -> (exists x, load64 (w_mem w) (u64 (w_gs w + 0x30)) = Ok x) -> (exists x, load64 (w_mem w) (u64 (w_fs w + 0x30)) = Ok x) ->
  ends (print_go w rsp).
Proof. intros Hw Hg Hf. unfold print_go, pick_g, print_go_stack. cbv zeta. ends; first [by apply print_g_ends | by apply ends_access]. Qed.

Lemma print_stack_line_ends w sp : truthful w -> ends (print_stack_line w sp).
Proof. intros Hw. unfold print_stack_line. ends. Qed.

Lemma print_regs_ends r : ends (print_regs r).
Proof. unfold print_regs. ends. Qed.

(** What a run has written. *)
Definition said {A} (ev : event) (p : rep A) : Prop := exists out a, p = Run out a /\ ev ∈ out.

Lemma said_first {A B} ev (p : rep A) (f : A -> rep B) : said ev p -> (forall a, ends (f a)) -> said ev (p ≫= f).
Proof.
  intros (out & a & -> & Hin) Hf. destruct (Hf a) as (out' & b & E). exists (out ++ out'), b. split; [unfold mbind, rep_bind; by rewrite E|set_solver].
Qed.

Lemma said_then {A B} ev (p : rep A) (f : A -> rep B) : ends p -> (forall a, said ev (f a)) -> said ev (p ≫= f).
Proof.
  intros (out & a & ->) Hf. destruct (Hf a) as (out' & b & E & Hin). exists (out ++ out'), b. split; [unfold mbind, rep_bind; by rewrite E|set_solver].
Qed.

Lemma said_each {A} ev (f : A -> rep ()) l x : x ∈ l -> said ev (f x) -> (forall y, ends (f y)) -> said ev (each f l).
Proof.
  intros Hx Hs Hf. induction l as [|y l IH]; [by apply elem_of_nil in Hx|]. cbn [each]. apply elem_of_cons in Hx as [-> |Hx].
  - apply said_first; [done|]. intros _. by apply ends_each.
  - apply said_then; [done|]. intros _. by apply IH.
Qed.

(** *** The hexadecimal of the report *)

Fixpoint hex_value (s : string) (acc : Z) : option Z :=
  match s with
  | EmptyString => Some acc
  | String c s => match hex_digit c with Some d => hex_value s (16 * acc + d) | None => None end
  end.

Lemma hex_digit_nibble n : 0 <= n < 16 -> hex_digit (nibble_char n) = Some n.
Proof.
  intros Hn. assert (Forall (fun k => hex_digit (nibble_char k) = Some k) (seqZ 0 16)) as H by (repeat constructor).
  rewrite Forall_forall in H. apply H, elem_of_seqZ. lia.
Qed.

Lemma nibble_range v k : 0 <= Z.land (Z.shiftr v k) 15 < 16.
Proof. change 15 with (Z.ones 4). rewrite Z.land_ones by lia. pose proof (Z.mod_pos_bound (Z.shiftr v k) (2 ^ 4)). lia. Qed.

Lemma hex_value_run k v acc : hex_value (hex_run k v) acc = Some (acc * 16 ^ Z.of_nat k + v mod 16 ^ Z.of_nat k).
Proof.
  revert acc. induction k as [|k IH]; intros acc; cbn [hex_run hex_value]; [rewrite Z.mod_1_r; f_equal; lia|].
  rewrite hex_digit_nibble by apply nibble_range. rewrite IH. f_equal.
  change 15 with (Z.ones 4). rewrite Z.land_ones, Z.shiftr_div_pow2 by lia. rewrite Nat2Z.inj_succ, Z.pow_succ_r by lia.
  replace (2 ^ (4 * Z.of_nat k)) with (16 ^ Z.of_nat k) by (rewrite Z.pow_mul_r by lia; done).
  set (P := 16 ^ Z.of_nat k). assert (0 < P) by (apply Z.pow_pos_nonneg; lia).
  rewrite (Z.mul_comm 16 P), Z.rem_mul_r by lia. change (2 ^ 4) with 16. ring.
Qed.

Lemma hex16_value v : is_u64 v -> hex_value (hex16 v) 0 = Some v.
Proof. intros Hv. unfold hex16. rewrite hex_value_run. f_equal. change (16 ^ Z.of_nat 16) with (2 ^ 64). rewrite Z.mod_small; [lia|exact Hv]. Qed.

(** Decimal by hand. *)
Fixpoint dec_value (s : string) (acc : Z) : option Z :=
  match s with
  | EmptyString => Some acc
  | String c s => match digit c with Some d => dec_value s (10 * acc + d) | None => None end
  end.

Lemma dec_value_snoc l c acc :
  dec_value (string_of_list_ascii (l ++ [c])) acc =
  match dec_value (string_of_list_ascii l) acc with Some n => match digit c with Some d => Some (10 * n + d) | None => None end | None => None end.
Proof.
  revert acc. induction l as [|x l IH]; intros acc; cbn; [by destruct (digit c)|]. destruct (digit x); [apply IH|done].
Qed.

Lemma digit_char d : 0 <= d < 10 -> digit (char_of (48 + d)) = Some d.
Proof.
  intros Hd. assert (Forall (fun k => digit (char_of (48 + k)) = Some k) (seqZ 0 10)) as H by (repeat constructor).
  rewrite Forall_forall in H. apply H, elem_of_seqZ. lia.
Qed.

Lemma low_digits_value fuel n : 0 <= n < 10 ^ Z.of_nat fuel -> dec_value (string_of_list_ascii (rev (low_digits fuel n))) 0 = Some n.
Proof.
  revert n. induction fuel as [|fuel IH]; intros n Hn; cbn [low_digits].
  - cbn. f_equal. change (10 ^ Z.of_nat 0) with 1 in Hn. lia.
  - destruct (Z.ltb_spec 0 n); [|cbn; f_equal; lia]. cbn [rev]. rewrite dec_value_snoc, IH.
    + rewrite digit_char by (apply Z.mod_pos_bound; lia). f_equal. pose proof (Z.div_mod n 10). lia.
    + rewrite Nat2Z.inj_succ, Z.pow_succ_r in Hn by lia. split; [apply Z.div_pos; lia|]. apply Z.div_lt_upper_bound; lia.
Qed.

(** The count of locks reads back as it was. *)
Lemma int_text_value v :
  - 2 ^ 31 < v < 2 ^ 31 ->
  (0 <= v -> dec_value (int_text v) 0 = Some v) /\ (v < 0 -> exists s, int_text v = ("-" +:+ s)%string /\ dec_value s 0 = Some (- v)).
Proof.
  intros Hv. assert (Hpos : forall n, 0 <= n < 2 ^ 31 -> dec_value (string_of_list_ascii (rev (if n =? 0 then ["0"%char] else low_digits 10 n))) 0 = Some n).
  { intros n Hn. destruct (Z.eqb_spec n 0) as [-> |]; [done|]. apply low_digits_value. change (10 ^ Z.of_nat 10) with 10000000000. lia. }
  unfold int_text. split; intros Hs.
  - destruct (Z.ltb_spec v 0); [lia|]. cbn [String.append]. apply Hpos. lia.
  - destruct (Z.ltb_spec v 0); [|lia]. eexists. split; [done|].
    assert (E : i32 (- v) = - v) by (unfold i32, signed; rewrite Z.mod_small by lia; destruct (Z.ltb_spec (- v) (2 ^ (32 - 1))); lia).
    rewrite E. apply Hpos. lia.
Qed.

(** The report has a line of this name from which the value can be read. *)
Definition shows_register (out : list event) (name : string) (v : Z) : Prop :=
  exists digits, Out 2 (name +:+ "=" +:+ digits +:+ nl) ∈ out /\ String.length digits = 16%nat /\ hex_value digits 0 = Some v.

(** C39 (safety): Whatever the registers of a crash are and wherever they and
    the Go structures behind them lead, the shim's handler does not fault
    again: if every range it reads from /proc/self/maps is mapped and, in a Go
    program, the two segment bases are valid, it writes its report and exits
    with 128 plus the signal.  The instruction pointer, the stack and frame
    pointers and the fourteen other general registers can each be read back,
    as sixteen hexadecimal digits, from a line with its name. *)
Theorem crash_is_reported (w : world) (c : crash) :
  truthful w ->
  (w_tls_g w <> 0 -> (exists x, load64 (w_mem w) (u64 (w_gs w + 0x30)) = Ok x) /\ (exists x, load64 (w_mem w) (u64 (w_fs w + 0x30)) = Ok x)) ->
  let r := cr_regs c in
  Forall is_u64 [c_rip r; c_rsp r; c_rbp r; c_rax r; c_rbx r; c_rcx r; c_rdx r; c_rdi r; c_rsi r; c_r8 r; c_r9 r; c_r10 r;
                 c_r11 r; c_r12 r; c_r13 r; c_r14 r; c_r15 r] ->
  exists out, macify_crash_handler w c = Run out (128 + cr_sig c) /\
    let shows := shows_register out in
    shows "rip"%string (c_rip r) /\ shows "rsp"%string (c_rsp r) /\ shows "rbp"%string (c_rbp r) /\
    shows "rax"%string (c_rax r) /\ shows "rbx"%string (c_rbx r) /\ shows "rcx"%string (c_rcx r) /\
    shows "rdx"%string (c_rdx r) /\ shows "rdi"%string (c_rdi r) /\ shows "rsi"%string (c_rsi r) /\
    shows "r8 "%string (c_r8 r) /\ shows "r9 "%string (c_r9 r) /\ shows "r10"%string (c_r10 r) /\
    shows "r11"%string (c_r11 r) /\ shows "r12"%string (c_r12 r) /\ shows "r13"%string (c_r13 r) /\
    shows "r14"%string (c_r14 r) /\ shows "r15"%string (c_r15 r).
Proof.
  intros Hw Hgo r Hu.
  assert (Hrest : ends (if w_tls_g w =? 0 then print_stack w (c_rsp (cr_regs c)) else print_go w (c_rsp (cr_regs c)))).
  { destruct (Z.eqb_spec (w_tls_g w) 0); [unfold print_stack; ends|]. destruct (Hgo ltac:(done)). by apply print_go_ends. }
  assert (Hhead : ends (say (nl +:+ "macify: CRASH handler invoked" +:+ nl))) by ends.
  pose proof (print_stack_line_ends w (c_rsp (cr_regs c)) Hw) as Hline.
  assert (Halt : ends (print_sigaltstack w)) by (unfold print_sigaltstack; destruct (w_alt w) as [[? ?] ?]; ends).
  assert (Hsig : ends (print_signal c)) by apply ends_say.
  assert (Hend : ends (macify_crash_handler w c)).
  { unfold macify_crash_handler. cbv zeta. repeat (apply ends_bind; [by first [done | apply print_regs_ends | apply dump_file_ends | apply ends_say]|intros _]). apply ends_ret. }
  destruct Hend as (out & st & E).
  exists out. assert (st = 128 + cr_sig c) as ->.
  { pose proof E as H. unfold macify_crash_handler in H. cbv zeta in H. do 8 (apply bind_Run in H as (? & ? & ? & _ & H & _)). by injection H. }
  split; [done|].
  assert (Hall : forall name v, (name, v) ∈ reg_table r -> is_u64 v -> shows_register out name v).
  { intros name v Hin Hv. exists (hex16 v). split; [|split; [done|by apply hex16_value]].
    assert (Hs : said (Out 2 (reg_line name v)) (macify_crash_handler w c)); [|destruct Hs as (o & a & E' & Ho); rewrite E in E'; by injection E' as <- <-].
    unfold macify_crash_handler. cbv zeta. do 4 (apply said_then; [done|intros _]). apply said_first.
    - unfold print_regs. apply (said_each _ _ _ (name, v)); [done| |intros; apply ends_say]. eexists _, _. split; [done|]. cbn [fst snd]. set_solver.
    - intros _. repeat (apply ends_bind; [by first [done | apply dump_file_ends | apply ends_say]|intros _]). apply ends_ret. }
  rewrite !Forall_cons in Hu. destruct_and! Hu.
  cbv zeta. split_and!; (apply Hall; [unfold reg_table; repeat (first [left; reflexivity | right])|done]).
Qed.

(** ** The loader's handler *)

Lemma words_at_ends w v len n off : truthful w -> can_read w v len = true -> 0 <= off -> off + 8 * Z.of_nat n <= len -> len < 2 ^ 64 ->
  ends (words_at (w_mem w) (u64 (v + off)) n).
Proof.
  intros Hw Hr. revert off. induction n as [|n IH]; intros off Ho Hn Hl; cbn [words_at]; [apply ends_ret|].
  apply ends_bind; [by apply (word_at _ Hw v len); [| |lia|]|]. intros x. rewrite u64_add_l, <- Z.add_assoc.
  apply ends_bind; [apply IH; lia|intros ?; apply ends_ret].
Qed.

Lemma insn_bytes_ends w v len n off : truthful w -> can_read w v len = true -> 0 <= off -> off + Z.of_nat n <= len -> len < 2 ^ 64 ->
  ends (insn_bytes (w_mem w) (u64 (v + off)) n).
Proof.
  intros Hw Hr. revert off. induction n as [|n IH]; intros off Ho Hn Hl; cbn [insn_bytes]; [apply ends_ret|].
  apply ends_bind; [apply ends_access, (can_read_ok w v len off 1); auto; lia|]. intros x. rewrite u64_add_l, <- Z.add_assoc.
  apply ends_bind; [apply IH; lia|intros ?; apply ends_ret].
Qed.

Lemma print_rip_bytes_ends w rip : truthful w -> ends (print_rip_bytes w rip).
Proof.
  intros Hw. unfold print_rip_bytes. destruct (can_read w rip 16) eqn:E; [|apply ends_say]. pose proof (can_read_range _ _ _ E).
  apply ends_bind; [|intros ?; apply ends_say].
  assert (Hend : ends (insn_bytes (w_mem w) (u64 (rip + 0)) 16)) by (apply (insn_bytes_ends _ _ 16); auto; lia).
  by rewrite Z.add_0_r, u64_small in Hend.
Qed.

Lemma print_rbx_ends e rbx : truthful (l_world e) -> ends (print_rbx e rbx).
Proof.
  intros Hw. unfold print_rbx. destruct (can_read (l_world e) rbx 64) eqn:E; [|apply ends_ret]. pose proof (can_read_range _ _ _ E).
  apply ends_bind; [|intros ?; cbv zeta; ends].
  assert (Hend : ends (words_at (w_mem (l_world e)) (u64 (rbx + 0)) 8)) by (apply (words_at_ends _ _ 64); auto; lia).
  by rewrite Z.add_0_r, u64_small in Hend.
Qed.

Lemma go_lines_ends w : truthful w -> ends (go_lines w).
Proof.
  intros Hw. unfold go_lines. cbv zeta. ends.
  all: repeat match goal with H : _ && _ = true |- _ => apply andb_prop in H as [? ?] end; ends.
Qed.

Lemma report_ends e c : truthful (l_world e) -> exists out, report e c = Run out (128 + cr_sig c).
Proof.
  intros Hw. assert (He : ends (report e c)).
  { unfold report. cbv zeta. apply ends_bind; [by apply print_rip_bytes_ends|intros _]. apply ends_bind; [by apply print_rbx_ends|intros _].
    apply ends_bind; [by apply go_lines_ends|intros go]. ends; apply dump_file_ends. }
  destruct He as (out & st & E). exists out. pose proof E as H. unfold report in H. cbv zeta in H.
  do 8 (apply bind_Run in H as (? & ? & ? & _ & H & _)). injection H as _ <-. done.
Qed.

(** Where the program may go on after a fault. *)
Inductive resume_point (e : loader_env) (c : crash) : cregs -> Prop :=
| resume_skip n : Z.land (Z.shiftr (cr_addr c) 16) 0xffff = 0xfbad -> 2 <= n <= 4 ->
    resume_point e c (set_frame (cr_regs c) (u64 (c_rip (cr_regs c) + n)) (c_rsp (cr_regs c)))
| resume_pop val : cr_code c = SI_KERNEL -> load64 (w_mem (l_world e)) (c_rsp (cr_regs c)) = Ok val -> near_text e 0x200000 val = false -> plausible val = true ->
    resume_point e c (set_frame (cr_regs c) val (u64 (c_rsp (cr_regs c) + 8)))
| resume_scan val i : 0 <= i < 32 -> load64 (w_mem (l_world e)) (slot_at (c_rsp (cr_regs c)) i) = Ok val -> in_text e val = true ->
    (forall j v, 0 <= j < i -> plausible (slot_at (c_rsp (cr_regs c)) j) = true ->
       load64 (w_mem (l_world e)) (slot_at (c_rsp (cr_regs c)) j) = Ok v -> in_text e v = false) ->
    resume_point e c (set_frame (cr_regs c) val (u64 (slot_at (c_rsp (cr_regs c)) i + 8))).

Lemma scan_stack_found e sp n : forall i out val addr k,
  scan_stack e sp i n = Run out (Some (val, addr, k)) ->
  i <= k < i + Z.of_nat n /\ addr = slot_at sp k /\ load64 (w_mem (l_world e)) addr = Ok val /\ in_text e val = true /\
  forall j v, i <= j < k -> plausible (slot_at sp j) = true -> load64 (w_mem (l_world e)) (slot_at sp j) = Ok v -> in_text e v = false.
Proof.
  induction n as [|n IH]; intros i out val addr k H; cbn [scan_stack] in H; [done|].
  assert (Hnext : forall out', scan_stack e sp (i + 1) n = Run out' (Some (val, addr, k)) ->
    (forall v, plausible (slot_at sp i) = true -> load64 (w_mem (l_world e)) (slot_at sp i) = Ok v -> in_text e v = false) ->
    i <= k < i + Z.of_nat (S n) /\ addr = slot_at sp k /\ load64 (w_mem (l_world e)) addr = Ok val /\ in_text e val = true /\
    forall j v, i <= j < k -> plausible (slot_at sp j) = true -> load64 (w_mem (l_world e)) (slot_at sp j) = Ok v -> in_text e v = false).
  { intros out' (? & ? & ? & ? & Hbefore)%IH Hi. split_and!; [lia|lia|done|done|done|]. intros j v Hj.
    destruct (decide (j = i)) as [-> |]; [apply Hi|apply Hbefore; lia]. }
  cbv zeta in H. destruct (plausible (slot_at sp i)) eqn:Ep; [|by apply (Hnext out)].
  apply bind_Run in H as (o & v & o' & Hl & H & _). destruct (load64 (w_mem (l_world e)) (slot_at sp i)) as [x| |] eqn:El; try done.
  injection Hl as _ ->. destruct (in_text e v) eqn:Et; [|by apply (Hnext o'); [|intros ? _ [= <-]]].
  injection H as _ <- <- <-. split_and!; try done; try lia. 
Qed.

Lemma orelse_Run {A} (p q : rep (option A)) out o :
  orelse p q = Run out o -> (exists o', p = Run o' o /\ o <> None) \/ exists o', q = Run o' o.
Proof.
  intros (? & a & o' & Hp & H & _)%bind_Run. destruct a as [a|]; [|right; by eexists]. injection H as _ <-. left. by eexists.
Qed.

Lemma instr_len_range m rip out n : instr_len m rip = Run out n -> 2 <= n <= 4.
Proof.
  intros (? & b0 & ? & _ & H & _)%bind_Run. repeat case_match; try (injection H as _ <-; lia).
  apply bind_Run in H as (? & b1 & ? & _ & H & _). injection H as _ <-. case_match; lia.
Qed.

Lemma pop_return_resumes e c out r : pop_return e (cr_regs c) = Run out (Some (Resumed r)) -> cr_code c = SI_KERNEL -> resume_point e c r.
Proof.
  unfold pop_return. cbv zeta. destruct (plausible (c_rsp _)); [|done]. intros (? & v & ? & Hl & H & _)%bind_Run Hc.
  destruct (load64 (w_mem (l_world e)) (c_rsp (cr_regs c))) as [y| |] eqn:El; try done. injection Hl as _ ->.
  destruct (_ && _) eqn:Ev in H; [|done]. injection H as _ <-. apply andb_prop in Ev as [Hp Hn%negb_true_iff]. by apply resume_pop.
Qed.

Lemma scan_resumes e c n out val addr i :
  scan_stack e (c_rsp (cr_regs c)) 0 n = Run out (Some (val, addr, i)) -> Z.of_nat n <= 32 ->
  resume_point e c (set_frame (cr_regs c) val (u64 (addr + 8))).
Proof. intros (Hi & -> & Hl & Ht & Hb)%scan_stack_found Hn. apply resume_scan; [lia|done..]. Qed.

(** Every step that lets the program go on does it at such a point. *)
Lemma recover_resumes e c out r : recover e c = Run out (Some (Resumed r)) -> resume_point e c r /\ (cr_sig c = SIGSEGV \/ cr_sig c = SIGABRT).
Proof.
  intros [(o & H & _)|(o & H)]%orelse_Run.
  { unfold readline_crash in H. cbv zeta in H. case_match; [|done]. do 2 (apply bind_Run in H as (? & ? & ? & _ & H & _)). done. }
  apply orelse_Run in H as [(o1 & H & _)|(o1 & H)].
  - destruct (_ || _) eqn:Es in H; [|done]. apply orb_prop in Es. rewrite !Z.eqb_eq in Es. split; [|done].
    apply orelse_Run in H as [(o2 & H & _)|(o2 & H)]; [|apply orelse_Run in H as [(o3 & H & _)|(o3 & H)]].
    + unfold flags_as_pointer in H. destruct (Z.eqb_spec (Z.land (Z.shiftr (cr_addr c) 16) 0xffff) 0xfbad); [|done]. cbv zeta in H.
      apply bind_Run in H as (? & n & ? & Hn%instr_len_range & H & _). injection H as _ <-. by apply resume_skip.
    + unfold text_crash in H. cbv zeta in H. case_match; [|done]. do 2 (apply bind_Run in H as (? & ? & ? & _ & H & _)). done.
    + unfold kernel_crash in H. cbv zeta in H. destruct (_ && _) eqn:Ec in H; [|done]. apply andb_prop in Ec as [Ec _].
      apply andb_prop in Ec as [Ec _]. apply andb_prop in Ec as [_ Ecode%Z.eqb_eq]. apply bind_Run in H as (? & p & ? & Hp & H & _). destruct p as [p|].
      * injection H as _ ->. by apply (pop_return_resumes e c _ _ Hp).
      * apply bind_Run in H as (? & f & ? & Hf & H & _). destruct f as [[[val addr] i]|].
        -- apply bind_Run in H as (? & ? & ? & _ & H & _). injection H as _ <-. apply (scan_resumes e c 16 _ _ _ _ Hf). lia.
        -- do 2 (apply bind_Run in H as (? & ? & ? & _ & H & _)). done.
  - unfold data_jump in H. cbv zeta in H. destruct (_ && _) eqn:Ec in H; [|done]. do 4 apply andb_prop in Ec as [Ec _]. apply Z.eqb_eq in Ec.
    split; [|by left]. apply bind_Run in H as (? & f & ? & Hf & H & _). destruct f as [[[val addr] i]|]; [|done].
    apply bind_Run in H as (? & ? & ? & _ & H & _). injection H as _ <-. apply (scan_resumes e c 32 _ _ _ _ Hf). lia.
Qed.

(** The loader's handler ends a fault in one of three ways: the program goes
    on, at a point its own stack or the faulting instruction gives and with no
    register changed but rip, rsp and rax; it ends with 0; or the fault is
    reported, without another one, and the status is 128 plus the signal. *)
Theorem crash_outcomes (e : loader_env) (c : crash) :
  (forall out r, crash_handler e c = Run out (Resumed r) -> resume_point e c r /\ (cr_sig c = SIGSEGV \/ cr_sig c = SIGABRT)) /\
  (forall out s, crash_handler e c = Run out (Exited s) -> (exists o, recover e c = Run o (Some (Exited s))) \/ s = 128 + cr_sig c) /\
  (truthful (l_world e) -> forall o, recover e c = Run o None -> exists out, crash_handler e c = Run (o ++ out) (Exited (128 + cr_sig c))).
Proof.
  unfold crash_handler. split_and!.
  - intros out r (o & a & o' & Hr & H & _)%bind_Run. destruct a as [a|]; [injection H as _ ->; by apply recover_resumes in Hr|].
    apply bind_Run in H as (? & ? & ? & _ & H & _). done.
  - intros out s (o & a & o' & Hr & H & _)%bind_Run. destruct a as [a|]; [injection H as _ ->; left; by eexists|]. right.
    apply bind_Run in H as (? & ? & ? & Hs & H & _). injection H as _ <-. unfold report in Hs. cbv zeta in Hs.
    do 8 (apply bind_Run in Hs as (? & ? & ? & _ & Hs & _)). by injection Hs.
  - intros Hw o Hr. destruct (report_ends e c Hw) as [out Hout]. exists (out ++ []). unfold mbind, rep_bind. by rewrite Hr, Hout.
Qed.

(** What stdout's pointers are read from is mapped, or there is no stdout. *)
Definition stdout_ok (e : loader_env) : Prop :=
  l_stdout e = 0 \/ (exists b, load64 (w_mem (l_world e)) (u64 (l_stdout e + 0x20)) = Ok b) /\ (exists p, load64 (w_mem (l_world e)) (u64 (l_stdout e + 0x28)) = Ok p).

Lemma flush_stdout_ends e : stdout_ok e -> ends (flush_stdout e).
Proof.
  unfold flush_stdout. intros [-> |[[b Hb] [p Hp]]]; [apply ends_ret|]. destruct (Z.eqb_spec (l_stdout e) 0); [apply ends_ret|].
  rewrite Hb, Hp. do 2 (apply ends_bind; [apply ends_run|intros ?]). case_match; apply ends_run.
Qed.

(** A bad access of the program's own code, the text included, ends the program
    with status 0: neither a report nor the step for stdio's macros is
    reached. *)
Theorem guest_fault_exits_zero (e : loader_env) (c : crash) :
  cr_sig c = SIGSEGV -> near_text e 0x100000 (c_rip (cr_regs c)) = true -> l_trace_null e = false -> stdout_ok e ->
  exists out, crash_handler e c = Run out (Exited 0).
Proof.
  intros Hs Ht Hn Hok. destruct (flush_stdout_ends e Hok) as (o1 & [] & E).
  unfold crash_handler, recover, orelse, readline_crash. rewrite Hs, Ht, Hn, E. unfold trace.
  destruct (l_trace_recovery e); by eexists.
Qed.

Lemma scan_stack_fault e sp i n :
  plausible (slot_at sp i) = true -> load64 (w_mem (l_world e)) (slot_at sp i) = Undef -> scan_stack e sp i (S n) = Fault.
Proof. intros Hp Hl. cbn [scan_stack]. cbv zeta. by rewrite Hp, Hl. Qed.

(** The scans read the stack without the check the report makes: where the
    stack pointer is bad, as after an overflow, the handler faults. *)
Theorem recovery_can_fault (e : loader_env) (c : crash) :
  cr_sig c = SIGSEGV -> cr_code c = 1 -> l_trace_null e = false ->
  Z.land (Z.shiftr (cr_addr c) 16) 0xffff <> 0xfbad ->
  near_text e 0x100000 (c_rip (cr_regs c)) = false -> in_text e (c_rip (cr_regs c)) = false -> plausible (c_rip (cr_regs c)) = true ->
  plausible (c_rsp (cr_regs c)) = true -> load64 (w_mem (l_world e)) (c_rsp (cr_regs c)) = Undef ->
  crash_handler e c = Fault.
Proof.
  intros Hs Hc Hn Ha Hr Ht Hp Hsp Hl. apply Z.eqb_neq in Ha.
  assert (Hslot : slot_at (c_rsp (cr_regs c)) 0 = c_rsp (cr_regs c)).
  { unfold slot_at. rewrite Z.mul_0_l, Z.add_0_r. apply u64_small. unfold plausible in Hsp. lia. }
  unfold crash_handler, recover, orelse, readline_crash, flags_as_pointer, text_crash, kernel_crash, data_jump. cbv zeta.
  rewrite Hs, Hc, Hn, Ha, Hr, Ht, Hp. rewrite (scan_stack_fault e _ 0 31) by (by rewrite Hslot). done.
Qed.

(** ** Witnesses *)

(** A program whose stack is mapped at 0x20000 and whose stdout has nothing
    buffered. *)
Definition demo_regs (rip rsp : Z) : cregs := CRegs rip rsp 0 1 2 3 4 5 6 7 8 9 10 11 12 13 14.

Definition demo_world : world :=
  World (put_bytes ∅ 0x20000 (le_bytes 8 0x30010 ++ le_bytes 8 0)) (Some ["00020000-00020010 rw-p 00000000 00:00 0"%string]) None (0, 0, 2) 0 0 0.

Definition demo_env : loader_env := LoaderEnv demo_world (0x30000, 0x31000) 0 false false [] 100 100.

Lemma demo_truthful : truthful demo_world.
Proof.
  intros lo hi a Hin Ha. assert (E : map_ranges (w_maps demo_world) = [(0x20000, 0x20010)]) by (vm_compute; reflexivity).
  rewrite E in Hin. apply list_elem_of_singleton in Hin. injection Hin as -> ->.
  assert (H : forallb (fun a => bool_decide (is_Some (w_mem demo_world !! a))) (seqZ 0x20000 16) = true) by (vm_compute; reflexivity).
  rewrite forallb_forall in H. apply (bool_decide_unpack _), Is_true_true, H, list_elem_of_In, elem_of_seqZ. lia.
Qed.

Lemma crash_is_reported_witness :
  exists out, macify_crash_handler demo_world (Crash 11 1 0 (demo_regs 0 0xdead0000)) = Run out 139 /\
    exists digits, Out 2 ("rsp" +:+ "=" +:+ digits +:+ nl) ∈ out /\ hex_value digits 0 = Some 0xdead0000.
Proof.
  destruct (crash_is_reported demo_world (Crash 11 1 0 (demo_regs 0 0xdead0000)) demo_truthful) as (out & E & H);
    [done|by repeat constructor|].
  exists out. split; [exact E|]. destruct H as (_ & (d & Hin & _ & Hd) & _). by exists d.
Defined.

(** A jump to data with a return address on the stack. *)
Lemma crash_outcomes_witness :
  resume_point demo_env (Crash 11 1 0x50000 (demo_regs 0x40000000 0x20000)) (set_frame (demo_regs 0x40000000 0x20000) 0x30010 0x20008) /\
  exists out, crash_handler demo_env (Crash 8 1 0 (demo_regs 0 0xdead0000)) = Run out (Exited 136).
Proof.
  split.
  - refine (proj1 (proj1 (crash_outcomes demo_env (Crash 11 1 0x50000 (demo_regs 0x40000000 0x20000))) [] _ _)). vm_compute. reflexivity.
  - destruct (crash_outcomes demo_env (Crash 8 1 0 (demo_regs 0 0xdead0000))) as (_ & _ & H).
    destruct (H demo_truthful [] eq_refl) as [out E]. by exists out.
Defined.

Lemma guest_fault_exits_zero_witness : exists out, crash_handler demo_env (Crash 11 1 0 (demo_regs 0x30008 0x20000)) = Run out (Exited 0).
Proof. apply (guest_fault_exits_zero demo_env (Crash 11 1 0 (demo_regs 0x30008 0x20000))); try done. by left. Defined.

Lemma recovery_can_fault_witness : crash_handler demo_env (Crash 11 1 0x7f0000 (demo_regs 0x40000000 0x7f0008)) = Fault.
Proof. by apply (recovery_can_fault demo_env (Crash 11 1 0x7f0000 (demo_regs 0x40000000 0x7f0008))). Defined.
