(* ===== verification/AddrInfo.v ===== *)
(** * The blocks of an address list (src/shim/io/net.c)

    [macify_getaddrinfo] and [macify_freeaddrinfo] on a heap: the nodes the
    shim allocates for a guest, with their addresses and names, and how they
    are given back, and the list glibc allocated for its own answer.  What a
    node holds is ShimNet.v's [rebuild_node]; here are the blocks, the links
    and the calls of malloc, free and glibc's freeaddrinfo.  Freeing or
    reading what is no block, or with the wrong function, is undefined. *)
From Stdlib Require Import ZArith Lia Bool.
From stdpp Require Import base gmap list strings numbers.
From S2P Require Import Prelude ShimNet.

(** ** The heap *)

(** [macos_addrinfo]; [n_info] is the five fields before the pointers. *)
Record ai_node := Node { n_info : Z * Z * Z * Z * Z; n_canonname : Z; n_addr : Z; n_next : Z }.

(** What a pointer may lead to: a node, a copied address with its bytes, a
    copied name; and a list of glibc's with all its blocks, by its head. *)
Inductive cell :=
| CNode (n : ai_node)
| CAddr (bs : list Z)
| CName (s : string)
| CGlibc (l : list addrinfo).

Abbreviation ai_heap := (gmap Z cell).

Definition EAI_MEMORY : Z := -10.

(** [free]; nothing happens to NULL. *)
Definition free_cell (p : Z) (h : ai_heap) : res ai_heap :=
  if p =? 0 then Ok h else
  match h !! p with Some (CGlibc _) | None => Undef | Some _ => Ok (delete p h) end.

(** glibc's [freeaddrinfo]: it takes a list of glibc's. *)
Definition real_free (p : Z) (h : ai_heap) : res ai_heap :=
  match h !! p with Some (CGlibc _) => Ok (delete p h) | _ => Undef end.

Definition set_next (p next : Z) (h : ai_heap) : res ai_heap :=
  match h !! p with
  | Some (CNode n) => Ok (<[p := CNode (Node (n_info n) (n_canonname n) (n_addr n) next)]> h)
  | _ => Undef
  end.

(** The loop of [macify_freeaddrinfo]. *)
Fixpoint free_list (fuel : nat) (cur : Z) (h : ai_heap) : res ai_heap :=
  match fuel with
  | O => NoFuel
  | S fuel =>
      if cur =? 0 then Ok h else
      match h !! cur with
      | Some (CNode n) =>
          h ← free_cell (n_canonname n) h;
          h ← free_cell (n_addr n) h;
          h ← free_cell cur h;
          free_list fuel (n_next n) h
      | _ => Undef
      end
  end.

(** A list is no longer than the heap. *)
Definition macify_freeaddrinfo (ai : Z) (h : ai_heap) : res ai_heap := free_list (S (size h)) ai h.

Section build.
(** [alloc k] says whether the [k]-th call of malloc succeeds, [place] where
    the block is. *)
Context (alloc : nat -> bool) (place : ai_heap -> Z).

Definition info_of (p : addrinfo) : Z * Z * Z * Z * Z := (ai_flags p, ai_family p, ai_socktype p, ai_protocol p, ai_addrlen p).

(** A copy that may fail: the pointer (0 then) and what changes. *)
Definition alloc_cell (k : nat) (c : cell) (h : ai_heap) : Z * nat * ai_heap :=
  match alloc k with true => let q := place h in (q, S k, <[q := c]> h) | false => (0, S k, h) end.

Definition alloc_addr (k : nat) (p : addrinfo) (h : ai_heap) : res (Z * nat * ai_heap) :=
  match ai_addr p with
  | Some a =>
      if 0 <? ai_addrlen p then
        if alloc k then
          bs ← copy_sockaddr (ai_addrlen p) (ai_family p) a;
          Ok (alloc_cell k (CAddr bs) h)
        else Ok (0, S k, h)
      else Ok (0, k, h)
  | None => Ok (0, k, h)
  end.

Definition alloc_name (k : nat) (p : addrinfo) (h : ai_heap) : Z * nat * ai_heap :=
  match ai_canonname p with Some s => alloc_cell k (CName s) h | None => (0, k, h) end.

(** The body of the loop up to the links. *)
Definition build_node (k : nat) (p : addrinfo) (h : ai_heap) : res (option (Z * nat * ai_heap)) :=
  match alloc k with
  | false => Ok None
  | true =>
      let m := place h in
      let h := <[m := CNode (Node (info_of p) 0 0 0)]> h in
      '(a, k, h) ← alloc_addr (S k) p h;
      let h := <[m := CNode (Node (info_of p) 0 a 0)]> h in
      let '(c, k, h) := alloc_name k p h in
      Ok (Some (m, k, <[m := CNode (Node (info_of p) c a 0)]> h))
  end.

(** The code, the head of the list, the heap. *)
Fixpoint build_list (k : nat) (head tail : Z) (l : list addrinfo) (h : ai_heap) : res (Z * Z * ai_heap) :=
  match l with
  | [] => Ok (0, head, h)
  | p :: l =>
      o ← build_node k p h;
      match o with
      | None => Ok (EAI_MEMORY, head, h)
      | Some (m, k, h) =>
          if head =? 0 then build_list k m m l h
          else h ← set_next tail m h; build_list k head m l h
      end
  end.

(** glibc's [getaddrinfo]: the list it answers with, at a place of its own;
    0 where the answer has no list. *)
Definition real_gai (l : list addrinfo) (h : ai_heap) : Z * ai_heap :=
  match l with [] => (0, h) | _ => let q := place h in (q, <[q := CGlibc l]> h) end.

(** [r] and [l] are glibc's answer, [k] the calls of malloc so far; the
    result, what is stored in [*res], and the heap. *)
Definition macify_getaddrinfo (k : nat) (r : Z) (l : list addrinfo) (h : ai_heap) : res (Z * Z * ai_heap) :=
  let '(linux_res, h) := real_gai l h in
  if negb (r =? 0) || (linux_res =? 0) then Ok (r, 0, h) else
  match h !! linux_res with
  | Some (CGlibc l) =>
      x ← build_list k 0 0 l h;
      let '(r, head, h) := x in
      h ← real_free linux_res h;
      if negb (r =? 0) && negb (head =? 0) then h ← macify_freeaddrinfo head h; Ok (r, 0, h)
      else Ok (r, head, h)
  | _ => Undef
  end.

(** malloc gives a block that is not in use. *)
Context (place_fresh : forall h, h !! place h = None) (place_not_null : forall h, place h <> 0).

(** ** Lists on the heap *)

(** A node with the addresses of its blocks. *)
Record laid := Laid { x_at : Z; x_addr : Z; x_name : Z; x_info : addrinfo }.

Definition ptr_if {A} (o : option A) (p : Z) : Z := match o with Some _ => p | None => 0 end.

Definition node_of (x : laid) (next : Z) : cell :=
  CNode (Node (info_of (x_info x)) (ptr_if (ai_canonname (x_info x)) (x_name x)) (ptr_if (ai_addr (x_info x)) (x_addr x)) next).

Definition put_addr (x : laid) (h : ai_heap) : ai_heap := match ai_addr (x_info x) with Some a => <[x_addr x := CAddr a]> h | None => h end.
Definition put_name (x : laid) (h : ai_heap) : ai_heap := match ai_canonname (x_info x) with Some s => <[x_name x := CName s]> h | None => h end.
Definition put_node (x : laid) (next : Z) (h : ai_heap) : ai_heap := <[x_at x := node_of x next]> (put_addr x (put_name x h)).

Definition first (l : list laid) (next : Z) : Z := match l with [] => next | x :: _ => x_at x end.

(** The heap with a list that leads to [next]. *)
Fixpoint put_list (l : list laid) (next : Z) (h : ai_heap) : ai_heap :=
  match l with [] => h | x :: l => put_node x (first l next) (put_list l next h) end.

Definition blocks (x : laid) : list Z :=
  x_at x :: (match ai_addr (x_info x) with Some _ => [x_addr x] | None => [] end)
         ++ (match ai_canonname (x_info x) with Some _ => [x_name x] | None => [] end).

(** The blocks are apart, not NULL and new to the heap. *)
Record laid_out (l : list laid) (h : ai_heap) : Prop := {
  lo_nodup : NoDup (concat (map blocks l));
  lo_fresh b : b ∈ concat (map blocks l) -> h !! b = None /\ b <> 0
}.

Lemma put_node_insert x n h b v : b ∉ blocks x -> put_node x n (<[b := v]> h) = <[b := v]> (put_node x n h).
Proof.
  unfold blocks, put_node, put_addr, put_name. intros Hb. apply map_eq. intros i.
  destruct (ai_addr (x_info x)), (ai_canonname (x_info x)); rewrite !lookup_insert; repeat case_decide; subst; try done; set_solver.
Qed.

Lemma lookup_put_node x n h b : b ∉ blocks x -> put_node x n h !! b = h !! b.
Proof.
  unfold blocks, put_node, put_addr, put_name. intros Hb.
  destruct (ai_addr (x_info x)), (ai_canonname (x_info x)); rewrite !lookup_insert; repeat case_decide; subst; try done; set_solver.
Qed.

Lemma put_node_present x n h b : b ∈ blocks x \/ is_Some (h !! b) -> is_Some (put_node x n h !! b).
Proof.
  unfold blocks, put_node, put_addr, put_name. intros Hb.
  destruct (ai_addr (x_info x)), (ai_canonname (x_info x)); rewrite !lookup_insert; repeat case_decide; try (by eexists); (destruct Hb as [Hb|Hb]; [set_solver|done]).
Qed.

Lemma put_list_insert l n h b v : b ∉ concat (map blocks l) -> put_list l n (<[b := v]> h) = <[b := v]> (put_list l n h).
Proof.
  induction l as [|x l IH]; cbn [map concat put_list]; [done|]. intros Hb. rewrite IH by set_solver. apply put_node_insert. set_solver.
Qed.

Lemma lookup_put_list l n h b : b ∉ concat (map blocks l) -> put_list l n h !! b = h !! b.
Proof.
  induction l as [|x l IH]; cbn [map concat put_list]; [done|]. intros Hb. rewrite lookup_put_node by set_solver. apply IH. set_solver.
Qed.

Lemma put_list_present l n h b : b ∈ concat (map blocks l) -> is_Some (put_list l n h !! b).
Proof.
  induction l as [|x l IH]; cbn [map concat put_list]; [by intros ?%elem_of_nil|]. intros [Hb|Hb]%elem_of_app; apply put_node_present; auto.
Qed.

Lemma put_list_app l1 l2 n h : put_list (l1 ++ l2) n h = put_list l1 (first l2 n) (put_list l2 n h).
Proof. induction l1 as [|x l1 IH]; cbn; [done|]. rewrite IH. f_equal. by destruct l1. Qed.

Lemma put_list_node l n x n' h : (forall b, b ∈ blocks x -> b ∉ concat (map blocks l)) -> put_list l n (put_node x n' h) = put_node x n' (put_list l n h).
Proof.
  intros Hb. unfold put_node, put_addr, put_name, blocks in *.
  destruct (ai_addr (x_info x)), (ai_canonname (x_info x)); rewrite !put_list_insert; try done; apply Hb; set_solver.
Qed.

Lemma laid_out_snoc l x h n : laid_out l h -> laid_out [x] (put_list l n h) -> laid_out (l ++ [x]) h.
Proof.
  intros [Hn Hf] [Hn' Hf']. cbn in Hn', Hf'. rewrite app_nil_r in Hn', Hf'.
  assert (Hout : forall b, b ∈ blocks x -> b ∉ concat (map blocks l)).
  { intros b Hb Hin. destruct (Hf' b Hb) as [E _]. destruct (put_list_present l n h b Hin) as [c Hc]. by rewrite E in Hc. }
  split; rewrite map_app, concat_app; cbn; rewrite app_nil_r.
  - apply list.NoDup_app. split; [done|]. split; [|done]. intros b Hb Hx. by apply (Hout b).
  - intros b [Hb|Hb]%elem_of_app; [by apply Hf|]. destruct (Hf' b Hb) as [E ?]. split; [|done]. by rewrite lookup_put_list in E by (by apply Hout).
Qed.

Lemma place_insert q c h : place (<[q := c]> h) <> q /\ h !! place (<[q := c]> h) = None.
Proof.
  pose proof (place_fresh (<[q := c]> h)) as E. rewrite lookup_insert in E. destruct (decide (q = place (<[q := c]> h))); [done|]. split; [congruence|done].
Qed.

(** A copy is a new block, or there is none. *)
Lemma alloc_cell_spec k c h q k' h' :
  alloc_cell k c h = (q, k', h') -> k' = S k /\ (alloc k = true /\ h !! q = None /\ q <> 0 /\ h' = <[q := c]> h \/ alloc k = false /\ q = 0 /\ h' = h).
Proof. unfold alloc_cell. destruct (alloc k); intros [= <- <- <-]; split; auto. Qed.

(** A node is built as ShimNet.v says, in blocks of its own. *)
Lemma build_node_spec k p h :
  well_sized p ->
  match rebuild_node alloc k p with
  | Ok None => build_node k p h = Ok None
  | Ok (Some (m, k')) => exists x, x_info x = m /\ build_node k p h = Ok (Some (x_at x, k', put_node x 0 h)) /\ laid_out [x] h
  | _ => False
  end.
Proof.
  intros Hw. unfold rebuild_node, build_node. destruct (alloc k); [|done]. cbn [negb].
  set (h1 := <[place h := _]> h). pose proof (place_fresh h) as Fm. pose proof (place_not_null h) as Nm.
  set (conv := macos_addr (ai_addrlen p) (ai_family p)).
  set (addr := match ai_addr p with Some bs => if 0 <? ai_addrlen p then if alloc (S k) then Some (conv bs) else None else None | None => None end).
  assert (Hcopy : forall bs, ai_addr p = Some bs -> copy_sockaddr (ai_addrlen p) (ai_family p) bs = Ok (conv bs))
    by (intros bs E; exact (proj1 (copy_sockaddr_spec p bs Hw E))).
  assert (exists a k1 h2, alloc_addr (S k) p h1 = Ok (a, k1, h2)) as (a & k1 & h2 & Ea).
  { unfold alloc_addr. destruct (ai_addr p) as [bs|]; [|eauto]. destruct (0 <? ai_addrlen p); [|eauto].
    destruct (alloc (S k)); [|eauto]. rewrite (Hcopy bs eq_refl). cbn [mbind res_bind]. destruct (alloc_cell _ _ _) as [[? ?] ?]. eauto. }
  rewrite Ea. cbn [mbind res_bind]. destruct (alloc_name k1 p _) as [[c k2] h3] eqn:Ec.
  set (name := match ai_canonname p with Some s => if alloc k1 then Some s else None | None => None end).
  assert (Ha : match addr with Some bs => h1 !! a = None /\ a <> 0 /\ h2 = <[a := CAddr bs]> h1 | None => a = 0 /\ h2 = h1 end).
  { revert Ea. unfold alloc_addr, addr. destruct (ai_addr p) as [bs|]; [|by intros [= <- <- <-]]. destruct (0 <? ai_addrlen p); [|by intros [= <- <- <-]].
    destruct (alloc (S k)) eqn:Ek; [|by intros [= <- <- <-]]. rewrite (Hcopy bs eq_refl). cbn [mbind res_bind]. intros [= E].
    apply alloc_cell_spec in E as (_ & [(_ & ? & ? & ->)|(E & _)]); [done|congruence]. }
  assert (Hc : match name with Some s => h2 !! c = None /\ c <> place h /\ c <> 0 /\ h3 = <[c := CName s]> (<[place h := CNode (Node (info_of p) 0 a 0)]> h2)
               | None => c = 0 /\ h3 = <[place h := CNode (Node (info_of p) 0 a 0)]> h2 end).
  { revert Ec. unfold alloc_name, name. destruct (ai_canonname p); [|by intros [= <- <- <-]].
    intros (_ & [(-> & Hn & ? & ->)|(-> & -> & ->)])%alloc_cell_spec; [|done]. rewrite lookup_insert in Hn. case_decide; [done|]. auto. }
  assert (R1 : match ai_addr p with
               | Some bs => if 0 <? ai_addrlen p
                            then if alloc (S k) then bs ← copy_sockaddr (ai_addrlen p) (ai_family p) bs; Ok (Some bs, S (S k)) else Ok (None, S (S k))
                            else Ok (None, S k)
               | None => Ok (None, S k) end = Ok (addr, k1)).
  { revert Ea. unfold alloc_addr, addr. destruct (ai_addr p) as [bs|]; [|by intros [= <- <- <-]]. destruct (0 <? ai_addrlen p); [|by intros [= <- <- <-]].
    destruct (alloc (S k)) eqn:Ek; [|by intros [= <- <- <-]]. rewrite (Hcopy bs eq_refl). cbn [mbind res_bind]. intros [= E].
    by apply alloc_cell_spec in E as [-> _]. }
  assert (R2 : match ai_canonname p with Some s => (if alloc k1 then Some s else None, S k1) | None => (None, k1) end = (name, k2)).
  { revert Ec. unfold alloc_name, name. destruct (ai_canonname p); [|by intros [= <- <- <-]]. by intros [-> _]%alloc_cell_spec. }
  rewrite R1. cbn [mbind res_bind]. rewrite R2. exists (Laid (place h) a c (AddrInfo (ai_flags p) (ai_family p) (ai_socktype p) (ai_protocol p) (ai_addrlen p) addr name)).
  split; [done|]. clearbody addr name. unfold h1 in *. clear h1 R1 R2 Ea Ec Hcopy conv Hw.
  assert (Hfresh : forall q, <[place h := CNode (Node (info_of p) 0 0 0)]> h !! q = None -> h !! q = None /\ q <> place h).
  { intros q Hq. rewrite lookup_insert in Hq. case_decide; [done|auto]. }
  assert (Ha' : match addr with Some _ => h !! a = None /\ a <> place h | None => True end) by (destruct addr; [apply Hfresh, Ha|done]).
  assert (Hc' : match name with Some _ => h !! c = None /\ match addr with Some _ => c <> a | None => True end | None => True end).
  { destruct name; [|done]. destruct Hc as (Hc & _). destruct addr; destruct_and?; subst; [|by split; [apply Hfresh|]].
    rewrite lookup_insert in Hc. case_decide; [done|]. split; [by apply Hfresh|congruence]. }
  split.
  - do 3 f_equal. unfold put_node, put_addr, put_name, node_of, ptr_if. cbn. apply map_eq. intros i.
    destruct addr, name; destruct_and?; subst; rewrite !lookup_insert; repeat case_decide; subst; done.
  - split; cbn; destruct addr, name; cbn; destruct_and?; subst.
    all: try (repeat (apply list.NoDup_cons; split; [set_solver|]); by apply list.NoDup_nil).
    all: intros b Hb; repeat (apply elem_of_cons in Hb as [-> |Hb]; [done|]); by apply elem_of_nil in Hb.
Qed.

Definition last_at (l : list laid) : Z := match rev l with x :: _ => x_at x | [] => 0 end.

Lemma last_at_snoc l x : last_at (l ++ [x]) = x_at x.
Proof. unfold last_at. by rewrite rev_app_distr. Qed.

(** The new node is linked behind the last. *)
Lemma link_node l y x h :
  laid_out (l ++ [y; x]) h -> set_next (x_at y) (x_at x) (put_node x 0 (put_list (l ++ [y]) 0 h)) = Ok (put_list (l ++ [y; x]) 0 h).
Proof.
  intros [Hn _]. rewrite map_app, concat_app in Hn. cbn in Hn. rewrite app_nil_r in Hn. apply list.NoDup_app in Hn as (_ & Hl & Hyx).
  change (NoDup (blocks y ++ blocks x)) in Hyx. apply list.NoDup_app in Hyx as (_ & Hyx & _).
  assert (Hy : x_at y ∈ blocks y) by (unfold blocks; set_solver). pose proof (Hyx _ Hy) as Hyx0.
  assert (Hyl : x_at y ∉ concat (map blocks l)) by (intros Hin; apply (Hl _ Hin); set_solver).
  assert (Hxl : forall b, b ∈ blocks x -> b ∉ concat (map blocks l)) by (intros b Hb Hin; apply (Hl _ Hin); set_solver).
  rewrite !put_list_app. cbn [put_list first].
  assert (E : put_node x 0 (put_list l (x_at y) (put_node y 0 h)) = <[x_at y := node_of y 0]> (put_list l (x_at y) (put_addr y (put_name y (put_node x 0 h))))).
  { rewrite <- (put_list_insert l) by done. change (<[x_at y := node_of y 0]> (put_addr y (put_name y (put_node x 0 h)))) with (put_node y 0 (put_node x 0 h)).
    rewrite <- put_list_node by done. f_equal. change (put_node x 0 (put_node y 0 h)) with (put_node x 0 (put_list [y] 0 h)).
    rewrite <- (put_list_node [y]); [done|]. intros b Hb. cbn. rewrite app_nil_r. intros Hb'. by apply (Hyx b). }
  rewrite E. unfold set_next. rewrite lookup_insert_eq. unfold node_of at 1. cbn [n_info n_canonname n_addr].
  rewrite insert_insert_eq. f_equal. unfold put_node at 2. rewrite put_list_insert by done. done.
Qed.

Lemma build_list_spec l : forall k built h,
  Forall well_sized l -> laid_out built h ->
  exists extra o, laid_out (built ++ extra) h /\ rebuild_list alloc k l = Ok o /\
    build_list k (first built 0) (last_at built) l (put_list built 0 h) =
      Ok (match o with Some _ => 0 | None => EAI_MEMORY end, first (built ++ extra) 0, put_list (built ++ extra) 0 h) /\
    match o with Some ms => map x_info extra = ms | None => True end.
Proof.
  induction l as [|p l IH]; intros k built h Hw Hb; cbn [build_list rebuild_list].
  { exists [], (Some []). by rewrite app_nil_r. }
  inversion_clear Hw as [|? ? Hp Hw'].
  pose proof (build_node_spec k p (put_list built 0 h) Hp) as Hn. destruct (rebuild_node alloc k p) as [[[m k']|]| |]; [| |done|done].
  2: { rewrite Hn. exists [], None. by rewrite app_nil_r. }
  destruct Hn as (x & Hx & -> & Hlx). cbn [mbind res_bind]. pose proof (laid_out_snoc _ _ _ _ Hb Hlx) as Hb'.
  destruct (IH k' (built ++ [x]) h Hw' Hb') as (extra & o & Hl & Hre & Hbuild & Hms). rewrite <- app_assoc in Hl, Hbuild. cbn [app] in Hl, Hbuild.
  exists (x :: extra), (match o with Some ms => Some (m :: ms) | None => None end).
  split; [done|]. split; [by rewrite Hre|]. split; [|destruct o; [cbn; by rewrite Hx, Hms|done]].
  assert (Hcode : forall c, match (match o with Some ms => Some (m :: ms) | None => None end) with Some _ => 0 | None => c end = match o with Some _ => 0 | None => c end)
    by (by destruct o).
  rewrite Hcode, <- Hbuild. rewrite last_at_snoc. destruct built as [|y0 built0] using rev_ind; [done|]. clear IHbuilt0.
  destruct (Z.eqb_spec (first (built0 ++ [y0]) 0) 0) as [E|_].
  { exfalso. destruct Hb as [_ Hf]. destruct built0 as [|z built0]; cbn in E; [apply (Hf (x_at y0))|apply (Hf (x_at z))]; try done; cbn; unfold blocks; set_solver. }
  rewrite last_at_snoc. rewrite <- app_assoc in Hb'. cbn [app] in Hb'. rewrite link_node by done.
  cbn [mbind res_bind]. rewrite <- app_assoc. cbn [app]. by destruct built0.
Qed.

(** A block malloc gave. *)
Definition ours (c : cell) : Prop := match c with CGlibc _ => False | _ => True end.

Lemma free_cell_ok q h : q <> 0 -> (exists c, h !! q = Some c /\ ours c) -> free_cell q h = Ok (delete q h).
Proof. intros Hq%Z.eqb_neq (c & Hc & Ho). unfold free_cell. rewrite Hq, Hc. by destruct c. Qed.

Ltac free_one :=
  rewrite free_cell_ok; cbn [mbind res_bind]; [|done|rewrite ?lookup_delete, ?lookup_insert; repeat case_decide; first [congruence | eexists; split; [reflexivity|first [exact I|assumption]]]].

Ltac same_cells := f_equal; apply map_eq; intros ?; rewrite ?lookup_delete, ?lookup_insert; repeat case_decide; subst; congruence.

(** The three calls of free take a node away. *)
Lemma free_node x n h :
  NoDup (blocks x) -> (forall b, b ∈ blocks x -> h !! b = None /\ b <> 0) ->
  (h1 ← free_cell (ptr_if (ai_canonname (x_info x)) (x_name x)) (put_node x n h);
   h2 ← free_cell (ptr_if (ai_addr (x_info x)) (x_addr x)) h1; free_cell (x_at x) h2) = Ok h.
Proof.
  unfold blocks, put_node, put_addr, put_name, ptr_if. assert (Hcell : ours (node_of x n)) by exact I. revert Hcell. generalize (node_of x n). intros c Hcell Hn Hb.
  assert (Hat : h !! x_at x = None /\ x_at x <> 0) by (apply Hb; set_solver).
  assert (Hnull : forall h, free_cell 0 h = Ok h) by done.
  destruct (ai_addr (x_info x)), (ai_canonname (x_info x)); cbn [app] in Hn, Hb; rewrite ?Hnull; cbn [mbind res_bind]; rewrite ?Hnull; cbn [mbind res_bind].
  - assert (Ha : h !! x_addr x = None /\ x_addr x <> 0) by (apply Hb; set_solver). assert (Hc : h !! x_name x = None /\ x_name x <> 0) by (apply Hb; set_solver).
    apply list.NoDup_cons in Hn as [Hn1 Hn]. apply list.NoDup_cons in Hn as [Hn2 _].
    assert (x_at x <> x_addr x /\ x_at x <> x_name x /\ x_addr x <> x_name x) by set_solver. destruct_and!. do 3 free_one. same_cells.
  - assert (Ha : h !! x_addr x = None /\ x_addr x <> 0) by (apply Hb; set_solver). apply list.NoDup_cons in Hn as [Hn1 _].
    assert (x_at x <> x_addr x) by set_solver. destruct_and!. do 2 free_one. same_cells.
  - assert (Hc : h !! x_name x = None /\ x_name x <> 0) by (apply Hb; set_solver). apply list.NoDup_cons in Hn as [Hn1 _].
    assert (x_at x <> x_name x) by set_solver. destruct_and!. free_one. rewrite Hnull. cbn [mbind res_bind]. free_one. same_cells.
  - destruct_and!. free_one. same_cells.
Qed.

Lemma free_list_spec l : forall fuel h, laid_out l h -> (length l < fuel)%nat -> free_list fuel (first l 0) (put_list l 0 h) = Ok h.
Proof.
  induction l as [|x l IH]; intros [|fuel] h Hl Hf; cbn [length] in Hf; try lia; [done|]. destruct Hl as [Hn Hh]. cbn [map concat] in *.
  apply list.NoDup_app in Hn as (Hnx & Hout & Hnl). cbn [first put_list free_list].
  assert (Hat : x_at x <> 0) by (apply Hh; unfold blocks; set_solver). apply Z.eqb_neq in Hat as ->.
  unfold put_node at 1. rewrite lookup_insert_eq. unfold node_of at 1. cbn [n_canonname n_addr n_next].
  assert (Hfresh : forall b, b ∈ blocks x -> put_list l 0 h !! b = None /\ b <> 0).
  { intros b Hb. split; [|apply Hh; set_solver]. rewrite lookup_put_list by (by apply Hout). apply Hh. set_solver. }
  pose proof (free_node x (first l 0) (put_list l 0 h) Hnx Hfresh) as Hfree. unfold put_node in Hfree.
  destruct (free_cell _ _) as [h1| |] eqn:E1 in Hfree; try done. fold (put_node x (first l 0) (put_list l 0 h)) in *. rewrite E1. cbn [mbind res_bind] in *.
  destruct (free_cell _ h1) as [h2| |] eqn:E2 in Hfree; try done. rewrite E2. cbn [mbind res_bind] in *. rewrite Hfree. cbn [mbind res_bind].
  apply IH; [|lia]. split; [done|]. intros b Hb. apply Hh. set_solver.
Qed.

Lemma size_insert_le q c (h : ai_heap) : (size h <= size (<[q := c]> h))%nat.
Proof. rewrite map_size_insert. case_match; cbn; lia. Qed.

Lemma size_put_copies x h : (size h <= size (put_addr x (put_name x h)))%nat.
Proof.
  unfold put_addr, put_name. destruct (ai_addr _), (ai_canonname _); try apply size_insert_le; [|done]. etrans; apply size_insert_le.
Qed.

Lemma size_put_list l n h : laid_out l h -> (length l <= size (put_list l n h))%nat.
Proof.
  intros [Hn Hf]. induction l as [|x l IH]; cbn [map concat length put_list] in *; [lia|]. apply list.NoDup_app in Hn as (Hnx & Hout & Hn).
  assert (IH' : (length l <= size (put_list l n h))%nat) by (apply IH; [done|]; intros b Hb; apply Hf; set_solver).
  assert (E : put_list l n h !! x_at x = None) by (rewrite lookup_put_list by (apply Hout; unfold blocks; set_solver); apply Hf; unfold blocks; set_solver).
  unfold put_node. unfold blocks in Hnx. apply list.NoDup_cons in Hnx as [Hnx _]. pose proof (size_put_copies x (put_list l n h)).
  rewrite map_size_insert_None; [lia|]. unfold put_addr, put_name.
  destruct (ai_addr (x_info x)), (ai_canonname (x_info x)); cbn; rewrite ?lookup_insert; repeat case_decide; subst; try done; set_solver.
Qed.

Lemma free_laid_out l h : laid_out l h -> macify_freeaddrinfo (first l 0) (put_list l 0 h) = Ok h.
Proof. intros Hl. apply free_list_spec; [done|]. pose proof (size_put_list l 0 h Hl). lia. Qed.

(** A copied address fills its block. *)
Lemma converted_sizes l ms m bs :
  Forall well_sized l -> Forall2 converted l ms -> In m ms -> ai_addr m = Some bs -> buf_len bs = ai_addrlen m.
Proof.
  intros Hw Hc. revert Hw. induction Hc as [|p m' l ms Hc _ IH]; intros Hw; [done|].
  inversion_clear Hw as [|? ? Hp Hw']. intros [<-|Hin]; [|by apply IH]. intros Hbs. clear IH.
  destruct Hc as (Hinf & [Ha|Ha] & _); [congruence|]. injection Hinf as _ _ _ _ ->.
  rewrite Ha in Hbs. unfold macos_node in Hbs. cbn in Hbs. destruct (0 <? ai_addrlen p); [|done].
  destruct (ai_addr p) as [a|] eqn:E; [|done]. injection Hbs as <-. by apply (copy_sockaddr_spec p a).
Qed.

(** The heap with glibc's list in it, and the list given back. *)
Lemma laid_out_above lay q c h : h !! q = None -> laid_out lay (<[q := c]> h) -> laid_out lay h /\ q ∉ concat (map blocks lay).
Proof.
  intros Hq [Hn Hf]. split; [split; [done|]|].
  - intros b Hb. destruct (Hf b Hb) as [E ?]. split; [|done]. rewrite lookup_insert in E. by case_decide.
  - intros Hin. destruct (Hf q Hin) as [E _]. by rewrite lookup_insert_eq in E.
Qed.

Lemma real_free_spec lay q l h :
  h !! q = None -> q ∉ concat (map blocks lay) ->
  real_free q (put_list lay 0 (<[q := CGlibc l]> h)) = Ok (put_list lay 0 h).
Proof.
  intros Hq Hb. unfold real_free. rewrite put_list_insert, lookup_insert_eq by done. f_equal.
  apply delete_insert_id. by rewrite lookup_put_list.
Qed.

(** C27 (safety): For every answer that glibc may give (a list only with
    result 0, each address as long as [ai_addrlen] says and long enough for
    its family) and whichever calls of malloc fail, getaddrinfo stays inside
    the blocks it reads and writes, and neither leaks nor frees twice, glibc's
    own list included: a failure leaves the heap as it was before the call and
    a null list; a success leaves the heap with, in blocks of its own, one
    node for each of glibc's, in order, with the same fields and the address
    in macOS format in a block of [ai_addrlen] bytes and the name, or NULL for
    either where its copy found no memory; freeaddrinfo of it gives back every
    block and touches nothing else.  With memory the call succeeds and nothing
    is NULL that was not. *)
Theorem addrinfo_given_back (k : nat) (r : Z) (l : list addrinfo) (h : ai_heap) :
  Forall well_sized l -> (r <> 0 -> l = []) ->
  exists ret res h', macify_getaddrinfo k r l h = Ok (ret, res, h') /\
    (ret <> 0 -> res = 0 /\ h' = h) /\
    (ret = 0 -> exists lay, Forall2 converted l (map x_info lay) /\
       Forall (fun x => forall bs, ai_addr (x_info x) = Some bs -> buf_len bs = ai_addrlen (x_info x)) lay /\
       res = first lay 0 /\ h' = put_list lay 0 h /\ laid_out lay h /\
       macify_freeaddrinfo res h' = Ok h /\
       ((forall j, alloc j = true) -> map x_info lay = map macos_node l)) /\
    (r = 0 -> (forall j, alloc j = true) -> ret = 0) /\
    (ret = r \/ ret = EAI_MEMORY).
Proof.
  intros Hw Hr.
  assert (Hnil : forall h, laid_out [] h) by (intros h0; split; [by apply list.NoDup_nil|]; intros b Hb; by apply elem_of_nil in Hb).
  destruct l as [|p l].
  { exists r, 0, h. unfold macify_getaddrinfo, real_gai. rewrite orb_true_r. split_and!; try done; [|by left].
    intros _. exists []. split_and!; try done; constructor. }
  destruct (Z.eq_dec r 0) as [->|Hne]; [|specialize (Hr Hne); done].
  unfold macify_getaddrinfo, real_gai. cbn [Z.eqb negb orb].
  pose proof (place_fresh h) as Hf. pose proof (place_not_null h) as Hnn. set (q := place h) in *.
  rewrite (proj2 (Z.eqb_neq q 0) Hnn), lookup_insert_eq.
  destruct (build_list_spec (p :: l) k [] (<[q := CGlibc (p :: l)]> h) Hw (Hnil _)) as (lay & o & Hlay & Hre & Hb & Hms).
  cbn [app first] in *. change (last_at []) with 0 in Hb. cbn [put_list] in Hb. rewrite Hb. cbn [mbind res_bind].
  destruct (laid_out_above _ _ _ _ Hf Hlay) as [Hl Hq]. rewrite real_free_spec by done. cbn [mbind res_bind].
  pose proof (free_laid_out lay h Hl) as Hfree. pose proof (rebuild_list_spec alloc k (p :: l) Hw) as Hspec. rewrite Hre in Hspec.
  destruct o as [ms|].
  - cbn [negb andb Z.eqb]. destruct Hspec as [Hc Hall].
    exists 0, (first lay 0), (put_list lay 0 h). split_and!; try done; [|by left]. intros _. exists lay. rewrite Hms.
    split_and!; try done. apply List.Forall_forall. intros x Hx bs Hbs.
    apply (converted_sizes (p :: l) (map x_info lay)); [exact Hw|by rewrite Hms|by apply in_map|done].
  - change (negb (EAI_MEMORY =? 0)) with true. cbn [andb]. destruct Hspec as [j Hj].
    destruct (Z.eqb_spec (first lay 0) 0) as [E0|]; cbn [negb].
    + exists EAI_MEMORY, 0, h. rewrite E0 in Hfree |- *. cbn in Hfree. injection Hfree as ->.
      split_and!; try done; [|by right]. intros _ Hall. by rewrite Hall in Hj.
    + rewrite Hfree. exists EAI_MEMORY, 0, h. split_and!; try done; [|by right]. intros _ Hall. by rewrite Hall in Hj.
Qed.
End build.

(** ** A witness *)

Definition place_new (h : ai_heap) : Z := fresh (dom h ∪ {[ 0 ]} : gset Z).

Lemma place_new_fresh h : h !! place_new h = None /\ place_new h <> 0.
Proof. pose proof (is_fresh (dom h ∪ {[ 0 ]} : gset Z)) as H. fold (place_new h) in H. split; [apply not_elem_of_dom|]; set_solver. Qed.

(** One address, with memory and without. *)
Definition demo_answer : list addrinfo := [AddrInfo 0 2 1 6 16 (Some ([2; 0; 0; 80; 10; 0; 0; 7] ++ replicate 8 0)) (Some "host"%string)].

Lemma demo_answer_sized : Forall well_sized demo_answer.
Proof. constructor; [split; [reflexivity|split; [intros _; cbn; lia|discriminate]]|constructor]. Qed.

Lemma addrinfo_given_back_witness :
  (exists res h', macify_getaddrinfo (fun _ => true) place_new 0 0 demo_answer ∅ = Ok (0, res, h') /\ macify_freeaddrinfo res h' = Ok ∅) /\
  (exists res, macify_getaddrinfo (fun _ => false) place_new 0 0 demo_answer ∅ = Ok (EAI_MEMORY, res, ∅)).
Proof.
  split.
  - destruct (addrinfo_given_back (fun _ => true) place_new (fun h => proj1 (place_new_fresh h)) (fun h => proj2 (place_new_fresh h)) 0 0 demo_answer ∅
      demo_answer_sized ltac:(done)) as (ret & res & h' & E & Hfail & Hok & Hmem & _).
    assert (ret = 0) as -> by (by apply Hmem).
    exists res, h'. split; [exact E|]. destruct (Hok eq_refl) as (lay & _ & _ & _ & _ & _ & Hfree & _). exact Hfree.
  - destruct (addrinfo_given_back (fun _ => false) place_new (fun h => proj1 (place_new_fresh h)) (fun h => proj2 (place_new_fresh h)) 0 0 demo_answer ∅
      demo_answer_sized ltac:(done)) as (ret & res & h' & E & Hfail & _).
    assert (ret = EAI_MEMORY) as -> by (vm_compute in E; by injection E as <- _ _). destruct (Hfail ltac:(done)) as [_ ->]. exists res. exact E.
Defined.
