(* ===== verification/Termcap.v ===== *)
(** * The terminal descriptions (src/shim/shim_core.c, from line 363)

    The termcap functions of the shim: which library answers, what is handed
    to the guest's buffer, the variables that are kept in step, and the
    answers of the shim itself when there is no library.  The libraries are
    records of the functions they have. *)
From Stdlib Require Import ZArith Lia Bool Ascii String.
From stdpp Require Import base list strings numbers.
From S2P Require Import Prelude Buffers.

(** ** The library *)

(** What the six real functions may be; [tc_tgetent] fills the buffer it is
    given and returns its result. *)
Record termcap := Termcap {
  tc_tgetent : option (string -> Z * list Z);
  tc_tgetflag : option (string -> Z);
  tc_tgetnum : option (string -> Z);
  tc_tgetstr : option (string -> option string);
  tc_tgoto : option (string -> Z -> Z -> string);
  tc_tputs : option (string -> string)
}.

Definition no_termcap : termcap := Termcap None None None None None None.

(** The libraries of Linux, in the order they are tried. *)
Definition linux_termcap_names : list string := ["libtinfo.so.6"; "libtinfo.so.5"; "libncursesw.so.6"; "libncurses.so.6"]%string.

Fixpoint first_open (dlopen : string -> option termcap) (names : list string) : option termcap :=
  match names with
  | [] => None
  | n :: names => match dlopen n with Some h => Some h | None => first_open dlopen names end
  end.

(** [macho] is what the loaded Mach-O libraries have; the functions after the
    call, given those before it. *)
Definition init_real_termcap (macho : termcap) (dlopen : string -> option termcap) (cur : termcap) : termcap :=
  match tc_tgetent cur with
  | Some _ => cur
  | None =>
      match tc_tgetent macho with
      | Some _ => macho
      | None => match first_open dlopen linux_termcap_names with Some h => h | None => macho end
      end
  end.

(** ** The shim's own answers *)

Definition esc (s : string) : string := String "027" s.

Definition fallback_strings : list (string * string) :=
  [("ku", esc "[A"); ("kd", esc "[B"); ("kr", esc "[C"); ("kl", esc "[D"); ("kh", esc "[H"); ("kH", esc "[F"); ("kD", esc "[3~"); ("kI", esc "[2~");
   ("k1", esc "OP"); ("k2", esc "OQ"); ("k3", esc "OR"); ("k4", esc "OS"); ("k5", esc "[15~");
   ("cr", String "013" ""); ("nl", String "010" ""); ("le", String "008" ""); ("nd", esc "[C"); ("up", esc "[A"); ("do", esc "[B"); ("ho", esc "[H");
   ("ce", esc "[K"); ("cd", esc "[J"); ("cl", esc ("[2J" +:+ esc "[H"));
   ("bc", String "008" ""); ("bl", String "007" ""); ("md", esc "[1m"); ("me", esc "[0m"); ("so", esc "[7m"); ("se", esc "[0m"); ("us", esc "[4m"); ("ue", esc "[0m")]%string.

Fixpoint assoc_str {A} (id : string) (l : list (string * A)) : option A :=
  match l with [] => None | (k, v) :: l => if streq id k then Some v else assoc_str id l end.

Definition tgetstr_fallback (id : string) : option string := assoc_str id fallback_strings.

Definition tgetflag (t : termcap) (id : string) : Z :=
  match tc_tgetflag t with Some f => f id | None => if streq id "am" then 1 else if streq id "xn" then 1 else 0 end.

Definition tgetnum (t : termcap) (id : string) : Z :=
  match tc_tgetnum t with Some f => f id | None => if streq id "co" then 80 else if streq id "li" then 24 else -1 end.

Definition tgetstr (t : termcap) (id : string) : option string :=
  match tc_tgetstr t with Some f => f id | None => tgetstr_fallback id end.

Definition tgoto (t : termcap) (cap : string) (col row : Z) : string :=
  match tc_tgoto t with Some f => f cap col row | None => cap end.

(** What is handed to [putc_fn]; [skipping] is whether a [$<] is open. *)
Fixpoint tputs_fallback (skipping : bool) (s : string) : string :=
  match s with
  | EmptyString => EmptyString
  | String c r =>
      match skipping with
      | true => tputs_fallback (negb (c =? ">")%char) r
      | false =>
          match c, r with
          | "$"%char, String "<" r' => tputs_fallback true r'
          | _, _ => String c (tputs_fallback false r)
          end
      end
  end.

Definition tputs (t : termcap) (s : option string) : string :=
  match tc_tputs t, s with
  | Some f, Some s => f s
  | None, Some s => tputs_fallback false s
  | _, None => EmptyString
  end.

(** ** tgetent *)

Definition LARGE_BUF : Z := 8192.
Definition CALLER_BUF : Z := 1024.

(** [BC], [PC] and [UP]. *)
Record term_vars := TermVars { v_BC : string; v_PC : Z; v_UP : string }.

Definition default_vars : term_vars := TermVars (String "008" EmptyString) 0 (esc "[A").

(** The variables a library has. *)
Record lib_vars := LibVars { lv_BC : option string; lv_PC : option Z; lv_UP : option string }.

Definition or_else {A} (a b : option A) : option A := match a with Some _ => a | None => b end.

Definition sync_vars (macho linux : lib_vars) (v : term_vars) : term_vars :=
  TermVars (default (v_BC v) (or_else (lv_BC macho) (lv_BC linux))) (default (v_PC v) (or_else (lv_PC macho) (lv_PC linux)))
           (default (v_UP v) (or_else (lv_UP macho) (lv_UP linux))).

(** The static buffer keeps what is in it behind what the library writes;
    [large] is its content, the guest's buffer may be missing. *)
Definition tgetent (t : termcap) (macho linux : lib_vars) (name : string) (large : list Z) (buf : option (list Z)) (v : term_vars)
  : res (Z * list Z * option (list Z) * term_vars) :=
  match tc_tgetent t with
  | Some f =>
      let '(r, bs) := f name in
      large ← buf_put large 0 bs;
      buf ← match buf with Some b => b ← buf_put b 0 (take (Z.to_nat CALLER_BUF) large); Ok (Some b) | None => Ok None end;
      Ok (r, large, buf, sync_vars macho linux v)
  | None =>
      buf ← match buf with Some b => b ← buf_put b 0 [0]; Ok (Some b) | None => Ok None end;
      Ok (1, large, buf, v)
  end.

(** ** Properties *)

(** Text and delays, as a capability has them. *)
Inductive piece :=
| Plain (s : string)
| Delay (s : string).

Definition piece_ok (p : piece) : Prop :=
  match p with Plain s => has_char "$" s = false | Delay s => has_char ">" s = false end.

Definition piece_text (p : piece) : string := match p with Plain s => s | Delay s => "$<" +:+ s +:+ ">" end.
Definition piece_out (p : piece) : string := match p with Plain s => s | Delay _ => EmptyString end.

Lemma tputs_plain s r : has_char "$" s = false -> tputs_fallback false (s +:+ r) = s +:+ tputs_fallback false r.
Proof.
  induction s as [|c s IH]; [done|]. cbn [has_char]. intros [Hc Hs]%orb_false_iff. specialize (IH Hs). apply Ascii.eqb_neq in Hc.
  change (String c s +:+ r) with (String c (s +:+ r)). cbn [tputs_fallback].
  assert (E : tputs_fallback false (String c (s +:+ r)) = String c (tputs_fallback false (s +:+ r))).
  { cbn [tputs_fallback]. destruct c as [[] [] [] [] [] [] [] []]; try reflexivity. by exfalso. }
  cbn [tputs_fallback] in E. rewrite E, IH. done.
Qed.

Lemma tputs_delay s r : has_char ">" s = false -> tputs_fallback true (s +:+ ">" +:+ r) = tputs_fallback false r.
Proof.
  induction s as [|c s IH]; [done|]. cbn [has_char]. intros [Hc Hs]%orb_false_iff. change (String c s +:+ ?x) with (String c (s +:+ x)).
  cbn [tputs_fallback]. rewrite Ascii.eqb_sym, Hc. by apply IH.
Qed.

Lemma append_assoc (a b c : string) : (a +:+ b) +:+ c = a +:+ b +:+ c.
Proof. induction a as [|x a IH]; [done|]. change (String x ((a +:+ b) +:+ c) = String x (a +:+ b +:+ c)). by rewrite IH. Qed.

Definition cat (l : list string) : string := foldr String.append EmptyString l.

(** Of a capability the shim writes the text and none of the delays. *)
Theorem tputs_drops_delays (l : list piece) :
  Forall piece_ok l -> tputs no_termcap (Some (cat (map piece_text l))) = cat (map piece_out l).
Proof.
  intros Hl. cbn [tputs no_termcap tc_tputs]. induction Hl as [|[s|s] l Hp _ IH]; cbn [map cat foldr piece_text piece_out] in *; [done| |].
  - rewrite tputs_plain by done. f_equal. exact IH.
  - set (r := foldr _ _ _) in *. change (("$<" +:+ s +:+ ">") +:+ r) with (String "$" (String "<" ((s +:+ ">") +:+ r))). cbn [tputs_fallback].
    assert (E : (s +:+ ">") +:+ r = s +:+ ">" +:+ r) by apply append_assoc. rewrite E, tputs_delay by done. exact IH.
Qed.

(** The guest's buffer gets at most 1024 bytes, however much the library
    writes; it must have them, also when the description is shorter. *)
Theorem tgetent_in_bounds (t : termcap) (macho linux : lib_vars) (f : string -> Z * list Z) (name : string) (large b : list Z) (v : term_vars) :
  tc_tgetent t = Some f -> buf_len large = LARGE_BUF -> buf_len (f name).2 <= LARGE_BUF -> CALLER_BUF <= buf_len b ->
  exists large' b', tgetent t macho linux name large (Some b) v = Ok ((f name).1, large', Some b', sync_vars macho linux v) /\
    buf_len b' = buf_len b /\ drop (Z.to_nat CALLER_BUF) b' = drop (Z.to_nat CALLER_BUF) b /\
    take (Nat.min (length (f name).2) (Z.to_nat CALLER_BUF)) b' = take (Z.to_nat CALLER_BUF) (f name).2.
Proof.
  intros Hf Hlarge Hbs Hb. unfold tgetent. rewrite Hf. destruct (f name) as [r bs]. cbn [fst snd] in *.
  destruct (buf_put_in large 0 bs) as [large' El]; [lia|lia|]. rewrite El. cbn [mbind res_bind].
  apply buf_put_Ok in El as (_ & _ & Hll & El). change (take (Z.to_nat 0) large) with (@nil Z) in El. cbn [app] in El. change (Z.to_nat 0 + length bs)%nat with (length bs) in El.
  assert (Ht : length (take (Z.to_nat CALLER_BUF) large') = Z.to_nat CALLER_BUF).
  { rewrite length_take. unfold buf_len, LARGE_BUF, CALLER_BUF in *. lia. }
  destruct (buf_put_in b 0 (take (Z.to_nat CALLER_BUF) large')) as [b' Eb]; [lia|unfold buf_len in *; rewrite Ht; unfold CALLER_BUF in *; lia|].
  rewrite Eb. cbn [mbind res_bind]. apply buf_put_Ok in Eb as (_ & _ & Hbl & Eb). exists large', b'. split_and!; [done|done| |].
  - rewrite Eb. change (take (Z.to_nat 0) b) with (@nil Z). cbn [app]. rewrite Ht. apply drop_app_length'. done.
  - rewrite Eb. change (take (Z.to_nat 0) b) with (@nil Z). cbn [app]. rewrite take_app_le by (rewrite Ht; lia). rewrite take_take, El.
    replace (Nat.min (Nat.min (length bs) (Z.to_nat CALLER_BUF)) (Z.to_nat CALLER_BUF)) with (Nat.min (length bs) (Z.to_nat CALLER_BUF)) by lia.
    rewrite take_app_le by lia. destruct (Nat.min_dec (length bs) (Z.to_nat CALLER_BUF)) as [E|E]; rewrite E; [|done]. rewrite !take_ge; try done; lia.
Qed.

(** A Mach-O library that has tgetent answers alone: what it lacks comes from
    the shim, not from Linux. *)
Theorem macho_termcap_answers (macho cur : termcap) (dlopen : string -> option termcap) :
  tc_tgetent cur = None -> is_Some (tc_tgetent macho) -> tc_tgetstr macho = None ->
  forall id, tgetstr (init_real_termcap macho dlopen cur) id = tgetstr_fallback id.
Proof. intros Hc [f Hm] Hs id. unfold init_real_termcap, tgetstr. by rewrite Hc, Hm, Hs. Qed.

(** ** Witnesses *)

Lemma tputs_drops_delays_witness : tputs no_termcap (Some "a$<50/>b"%string) = "ab"%string.
Proof. apply (tputs_drops_delays [Plain "a"; Delay "50/"; Plain "b"]). repeat constructor. Defined.

Lemma tgetent_in_bounds_witness :
  exists large' b', tgetent (Termcap (Some (fun _ => (1, [120; 0]))) None None None None None) (LibVars None None None) (LibVars None None None) "xterm"
    (replicate 8192 0) (Some (replicate 1024 7)) default_vars = Ok (1, large', Some b', default_vars) /\ take 2 b' = [120; 0].
Proof.
  destruct (tgetent_in_bounds (Termcap (Some (fun _ => (1, [120; 0]))) None None None None None) (LibVars None None None) (LibVars None None None)
    (fun _ => (1, [120; 0])) "xterm" (replicate 8192 0) (replicate 1024 7) default_vars) as (large' & b' & E & _ & _ & Ht).
  1-4: (done || (vm_compute; reflexivity) || (vm_compute; discriminate)).
  exists large', b'. split; [exact E|exact Ht].
Defined.

Lemma macho_termcap_answers_witness :
  tgetstr (init_real_termcap (Termcap (Some (fun _ => (1, []))) None None None None None) (fun _ => None) no_termcap) "ku" = Some (esc "[A").
Proof. rewrite (macho_termcap_answers _ no_termcap (fun _ => None)); done. Defined.
