(* ===== verification/Flush.v ===== *)
(** * Flushing streams and starting children (src/shim/io/process.c)

    [macify_fflush] on the words of glibc's stream structures, and what the
    shim lets through of fork, clone and wait.  The streams are glibc's: the
    adapter for macOS streams, which nothing switches on, is left out. *)
From Stdlib Require Import ZArith Lia Bool.
From stdpp Require Import base gmap list numbers.
From S2P Require Import Prelude.

(** ** fflush(NULL) *)

Definition READ_PTR : Z := 0x08.
Definition READ_END : Z := 0x10.
Definition READ_BASE : Z := 0x18.
Definition WRITE_BASE : Z := 0x20.
Definition WRITE_PTR : Z := 0x28.

Definition fflush_sane (v : Z) : bool := (0x10000 <? v) && (Z.shiftr v 47 =? 0).

(** A write: the descriptor, where the bytes are, how many. *)
Abbreviation written := (Z * Z * Z)%type.

Definition flush_one (stderrp s : Z) (m : mem) : res (list written * mem) :=
  base ← load64 m (s + WRITE_BASE);
  ptr ← load64 m (s + WRITE_PTR);
  if (base <? ptr) && (ptr - base <? 1048576) && fflush_sane base && fflush_sane ptr then
    m ← store64 m (s + WRITE_PTR) base;
    Ok ([(if s =? stderrp then 2 else 1, base, ptr - base)], m)
  else Ok ([], m).

(** The loop over [{ __stdoutp, __stderrp, NULL }] ends at the first NULL. *)
Fixpoint flush_streams (stderrp : Z) (streams : list Z) (m : mem) : res (list written * mem) :=
  match streams with
  | [] => Ok ([], m)
  | s :: streams =>
      if s =? 0 then Ok ([], m) else
      x ← flush_one stderrp s m;
      let '(ws, m) := x in
      y ← flush_streams stderrp streams m;
      let '(ws', m) := y in
      Ok (ws ++ ws', m)
  end.

Definition fflush_null (stdoutp stderrp : Z) (m : mem) : res (list written * mem) := flush_streams stderrp [stdoutp; stderrp] m.

(** ** fflush of a stream *)

(** The read pointers a macro has dragged below the buffer. *)
Definition clamp_read (s : Z) (m : mem) : res mem :=
  base ← load64 m (s + READ_BASE);
  ptr ← load64 m (s + READ_PTR);
  m ← (if ptr <? base then store64 m (s + READ_PTR) base else Ok m);
  base ← load64 m (s + READ_BASE);
  end_ ← load64 m (s + READ_END);
  if end_ <? base then store64 m (s + READ_END) base else Ok m.

Definition EINVAL_flush : Z := 22.

Section fflush.
(** glibc's fflush: the result, errno if it sets it, and memory. *)
Context (real_fflush : mem -> Z -> Z * option Z * mem).

Record flushed := Flushed { f_result : Z; f_errno : Z; f_mem : mem; f_calls : list mem }.

Definition macify_fflush (s errno : Z) (m : mem) : res flushed :=
  m1 ← clamp_read s m;
  let '(rr, e, m2) := real_fflush m1 s in
  let errno := default errno e in
  if negb (rr =? 0) && (errno =? EINVAL_flush) then
    ptr ← load64 m2 (s + READ_PTR);
    end_ ← load64 m2 (s + READ_END);
    if (ptr <=? end_) && (end_ - ptr <? 65536) then
      m3 ← store64 m2 (s + READ_PTR) end_;
      let '(rr, e, m4) := real_fflush m3 s in
      Ok (Flushed rr (default 0 e) m4 [m1; m3])
    else Ok (Flushed rr errno m2 [m1])
  else Ok (Flushed rr errno m2 [m1]).

(** ** Children *)

Definition CLONE_THREAD : Z := 0x10000.
Definition ENOSYS_child : Z := 38.
Definition ECHILD_child : Z := 10.

(** [guest] is whether the caller is in the program's text, [real] what the
    real call would return, if it was found; the result, and errno when the
    shim sets it. *)
Definition macify_clone (guest : bool) (flags : Z) (real : option Z) : Z * option Z :=
  match (if has flags CLONE_THREAD then real else None) with
  | Some r => (r, None)
  | None =>
      match (if (Z.land flags 0xff =? 17) && negb (has flags CLONE_THREAD) && guest then real else None) with
      | Some r => (r, None)
      | None => (-1, Some ENOSYS_child)
      end
  end.

Definition macify_wait4 (guest : bool) (real : option Z) : Z * option Z :=
  match (if guest then real else None) with Some r => (r, None) | None => (-1, Some ECHILD_child) end.

Definition macify_vfork (no_fork : bool) (real : option Z) : Z * option Z :=
  match no_fork with
  | true => (-1, Some ENOSYS_child)
  | false => let r := default (-1) real in (r, if r <? 0 then Some ENOSYS_child else None)
  end.

(** ** Properties *)

Lemma load64_mapped m a v : load64 m a = Ok v -> mapped m a 8 = true.
Proof.
  unfold load64, read_le. destruct (get_bytes (mem_get m) a 8) as [bs|] eqn:E; [|done]. intros _. revert a bs E. generalize 8%nat.
  induction n as [|n IH]; intros a bs; cbn [get_bytes mapped]; [done|]. unfold mem_get at 1. destruct (m !! a); [|done].
  destruct (get_bytes (mem_get m) (a + 1) n) as [bs'|] eqn:E; [|done]. intros _. by apply (IH _ bs').
Qed.

(** A word that can be read can be written, and then holds what was. *)
Lemma store64_over m a v w : load64 m a = Ok v -> is_u64 w ->
  exists m', store64 m a w = Ok m' /\ load64 m' a = Ok w /\ forall x, x + 8 <= a \/ a + 8 <= x -> load64 m' x = load64 m x.
Proof.
  intros Hl Hw. destruct (store64_defined m a w (load64_mapped _ _ _ Hl)) as [m' E]. exists m'. split; [done|]. split.
  - rewrite (load64_store64_same _ _ _ _ E), u64_small; [done|exact Hw].
  - intros x Hx. exact (load64_store64_other _ _ _ _ _ E Hx).
Qed.

(** One of the two repairs. *)
Lemma clamp_word off s base v m : load64 m (s + off) = Ok v -> is_u64 base ->
  exists m', (if v <? base then store64 m (s + off) base else Ok m) = Ok m' /\ load64 m' (s + off) = Ok (Z.max base v) /\
    (forall x, x + 8 <= s + off \/ s + off + 8 <= x -> load64 m' x = load64 m x) /\ (base <= v -> m' = m).
Proof.
  intros Hv Hb. destruct (Z.ltb_spec v base).
  - destruct (store64_over m (s + off) v base Hv Hb) as (m' & E & Hs & Ho). exists m'. rewrite Z.max_l by lia. split_and!; [done|done|done|lia].
  - exists m. rewrite Z.max_r by lia. done.
Qed.

Lemma clamp_read_spec s base ptr end_ m :
  load64 m (s + READ_BASE) = Ok base -> load64 m (s + READ_PTR) = Ok ptr -> load64 m (s + READ_END) = Ok end_ -> is_u64 base ->
  exists m1, clamp_read s m = Ok m1 /\ load64 m1 (s + READ_BASE) = Ok base /\ load64 m1 (s + READ_PTR) = Ok (Z.max base ptr) /\
    load64 m1 (s + READ_END) = Ok (Z.max base end_) /\ (base <= ptr -> base <= end_ -> m1 = m).
Proof.
  intros Hb Hp He Hw. unfold clamp_read. rewrite Hb, Hp. cbn [mbind res_bind].
  destruct (clamp_word READ_PTR s base ptr m Hp Hw) as (m1 & -> & H1 & Ho1 & Hs1). cbn [mbind res_bind].
  assert (Hb1 : load64 m1 (s + READ_BASE) = Ok base) by (rewrite Ho1; [done|unfold READ_BASE, READ_PTR; lia]).
  assert (He1 : load64 m1 (s + READ_END) = Ok end_) by (rewrite Ho1; [done|unfold READ_END, READ_PTR; lia]).
  rewrite Hb1, He1. cbn [mbind res_bind]. destruct (clamp_word READ_END s base end_ m1 He1 Hw) as (m2 & -> & H2 & Ho2 & Hs2).
  exists m2. split_and!; [done| | |done|].
  - rewrite Ho2; [done|unfold READ_BASE, READ_END; lia].
  - rewrite Ho2; [done|unfold READ_PTR, READ_END; lia].
  - intros ? ?. rewrite Hs2 by done. auto.
Qed.

(** glibc is handed a stream whose read pointers are not below the buffer, and
    a stream that was in order as it was; it is called once more at most, and
    then with nothing left to read. *)
Theorem fflush_repairs (s errno base ptr end_ : Z) (m : mem) :
  load64 m (s + READ_BASE) = Ok base -> load64 m (s + READ_PTR) = Ok ptr -> load64 m (s + READ_END) = Ok end_ -> is_u64 base ->
  forall f, macify_fflush s errno m = Ok f ->
  exists m1 more, f_calls f = m1 :: more /\
    load64 m1 (s + READ_BASE) = Ok base /\ load64 m1 (s + READ_PTR) = Ok (Z.max base ptr) /\ load64 m1 (s + READ_END) = Ok (Z.max base end_) /\
    (base <= ptr -> base <= end_ -> m1 = m) /\
    (more = [] \/ exists m3 e, more = [m3] /\ load64 m3 (s + READ_PTR) = Ok (u64 e) /\ load64 m3 (s + READ_END) = Ok e).
Proof.
  intros Hb Hp He Hw f Hf. destruct (clamp_read_spec s base ptr end_ m Hb Hp He Hw) as (m1 & E1 & H1 & H2 & H3 & H4).
  unfold macify_fflush in Hf. rewrite E1 in Hf. cbn [mbind res_bind] in Hf. destruct (real_fflush m1 s) as [[rr e] m2]. exists m1.
  destruct (negb (rr =? 0) && _); [|injection Hf as <-; exists []; split_and!; auto].
  bind_inv Hf. bind_inv Hf. destruct (_ && _) in Hf; [|injection Hf as <-; exists []; split_and!; auto].
  bind_inv Hf. destruct (real_fflush _ s) as [[rr' e'] m4] in Hf. injection Hf as <-. eexists [_]. split_and!; [done..|]. right.
  eexists _, _. split; [done|]. split; [by apply (load64_store64_same _ _ _ _ ltac:(eassumption))|].
  erewrite load64_store64_other; [eassumption|eassumption|unfold READ_PTR, READ_END; lia].
Qed.
End fflush.

(** What is pending, as far as the shim takes it for a buffer. *)
Definition pending (fd base ptr : Z) : list written :=
  if (base <? ptr) && (ptr - base <? 1048576) && fflush_sane base && fflush_sane ptr then [(fd, base, ptr - base)] else [].

Lemma pending_same fd base : pending fd base base = [].
Proof. unfold pending. by rewrite Z.ltb_irrefl. Qed.

Definition fd_of (stderrp s : Z) : Z := if s =? stderrp then 2 else 1.

Lemma flush_one_spec stderrp s base ptr m :
  load64 m (s + WRITE_BASE) = Ok base -> load64 m (s + WRITE_PTR) = Ok ptr -> is_u64 base ->
  exists m', flush_one stderrp s m = Ok (pending (fd_of stderrp s) base ptr, m') /\ load64 m' (s + WRITE_BASE) = Ok base /\
    (exists ptr', load64 m' (s + WRITE_PTR) = Ok ptr' /\ forall fd, pending fd base ptr' = []) /\
    (pending 1 base ptr = [] -> m' = m) /\
    forall x, x + 8 <= s + WRITE_PTR \/ s + WRITE_PTR + 8 <= x -> load64 m' x = load64 m x.
Proof.
  intros Hb Hp Hw. unfold flush_one, pending. rewrite Hb, Hp. cbn [mbind res_bind]. destruct (_ && _) eqn:E.
  - destruct (store64_over m _ ptr base Hp Hw) as (m' & -> & Hs & Ho). exists m'. cbn [mbind res_bind]. split_and!; [done| | |done|done].
    + rewrite Ho; [done|unfold WRITE_BASE, WRITE_PTR; lia].
    + exists base. split; [done|]. intros fd. exact (pending_same fd base).
  - exists m. split_and!; try done. exists ptr. split; [done|]. intros fd. by rewrite E.
Qed.

(** Flushing everything writes what stdout and then stderr hold, and once: a
    second flush writes nothing and changes nothing. *)
Theorem fflush_null_once (o e ob op eb ep : Z) (m : mem) :
  o <> 0 -> e <> 0 -> o + 0x30 <= e \/ e + 0x30 <= o ->
  load64 m (o + WRITE_BASE) = Ok ob -> load64 m (o + WRITE_PTR) = Ok op -> is_u64 ob ->
  load64 m (e + WRITE_BASE) = Ok eb -> load64 m (e + WRITE_PTR) = Ok ep -> is_u64 eb ->
  exists m', fflush_null o e m = Ok (pending 1 ob op ++ pending 2 eb ep, m') /\ fflush_null o e m' = Ok ([], m').
Proof.
  intros Ho%Z.eqb_neq He%Z.eqb_neq Hd Hob Hop Hou Heb Hep Heu. unfold fflush_null. cbn [flush_streams]. rewrite Ho, He.
  assert (Hfo : fd_of e o = 1) by (unfold fd_of; replace (o =? e) with false by lia; done). assert (Hfe : fd_of e e = 2) by (unfold fd_of; by rewrite Z.eqb_refl).
  destruct (flush_one_spec e o ob op m Hob Hop Hou) as (m1 & -> & Hob1 & (op1 & Hop1 & Hno) & _ & Hx1). cbn [mbind res_bind]. rewrite Hfo.
  rewrite <- Hx1 in Heb, Hep by (unfold WRITE_BASE, WRITE_PTR; lia).
  destruct (flush_one_spec e e eb ep m1 Heb Hep Heu) as (m2 & -> & Heb2 & (ep2 & Hep2 & Hne) & _ & Hx2). cbn [mbind res_bind]. rewrite Hfe, app_nil_r.
  exists m2. split; [done|]. rewrite <- Hx2 in Hob1, Hop1 by (unfold WRITE_BASE, WRITE_PTR; lia).
  destruct (flush_one_spec e o ob op1 m2 Hob1 Hop1 Hou) as (m3 & -> & _ & _ & Hs3 & _). rewrite Hs3 by apply Hno. cbn [mbind res_bind].
  destruct (flush_one_spec e e eb ep2 m2 Heb2 Hep2 Heu) as (m4 & -> & _ & _ & Hs4 & _). rewrite Hs4 by apply Hne. cbn [mbind res_bind]. by rewrite Hno, Hne.
Qed.

(** Only the program itself may have children: a library that calls clone for
    a process, or waits, gets an error; threads are let through. *)
Theorem libraries_have_no_children (flags : Z) (real : option Z) (r : Z) :
  (has flags CLONE_THREAD = false -> macify_clone false flags real = (-1, Some ENOSYS_child)) /\
  macify_wait4 false real = (-1, Some ECHILD_child) /\
  (has flags CLONE_THREAD = true -> forall guest, macify_clone guest flags (Some r) = (r, None)) /\
  (has flags CLONE_THREAD = false -> Z.land flags 0xff = 17 -> macify_clone true flags (Some r) = (r, None)) /\
  macify_wait4 true (Some r) = (r, None).
Proof.
  unfold macify_clone, macify_wait4. split_and!; try done.
  - intros ->. by rewrite andb_false_r.
  - by intros -> guest.
  - by intros -> ->.
Qed.

(** ** Witnesses *)

Definition demo_mem : mem := put_bytes ∅ 0x40000 (replicate 0x80 0).

(** A stream at 0x40000 whose read pointer is below the buffer. *)
Definition demo_stream : mem :=
  put_bytes demo_mem (0x40000 + READ_PTR) (le_bytes 8 0x1000 ++ le_bytes 8 0x20000 ++ le_bytes 8 0x20000 ++ le_bytes 8 0x30000 ++ le_bytes 8 0x30005).

Lemma fflush_repairs_witness :
  exists f m1 more, macify_fflush (fun m _ => (0, None, m)) 0x40000 0 demo_stream = Ok f /\ f_calls f = m1 :: more /\ load64 m1 (0x40000 + READ_PTR) = Ok 0x20000.
Proof.
  destruct (macify_fflush (fun m _ => (0, None, m)) 0x40000 0 demo_stream) as [f| |] eqn:E; [|vm_compute in E; discriminate E..].
  destruct (fflush_repairs (fun m _ => (0, None, m)) 0x40000 0 0x20000 0x1000 0x20000 demo_stream) with (f := f) as (m1 & more & Hc & _ & Hp & _);
    [vm_compute; reflexivity..|unfold is_u64; lia|exact E|].
  exists f, m1, more. auto.
Defined.

Lemma fflush_null_once_witness :
  exists m', fflush_null 0x40000 0x40040 demo_stream = Ok ([(1, 0x30000, 5)], m') /\ fflush_null 0x40000 0x40040 m' = Ok ([], m').
Proof. apply (fflush_null_once 0x40000 0x40040 0x30000 0x30005 0 0 demo_stream); first [lia | vm_compute; reflexivity | unfold is_u64; lia]. Defined.

Lemma libraries_have_no_children_witness : macify_clone false 17 (Some 1234) = (-1, Some 38).
Proof. apply (libraries_have_no_children 17 (Some 1234) 0). reflexivity. Defined.
